(* ===== verification/_CoqProject ===== *)
-Q . S2P
Prelude.v
Digits.v
Stream.v
FileContainer.v
ContainerFields.v
ContainerDisk.v
ContainerCells.v
ContainerList.v
ContainerAdd.v
ContainerInsert.v
ContainerRead.v
ContainerRemove.v
ContainerCreate.v
ContainerCompact.v
ContainerRecovery.v
ContainerCrash.v
ContainerExamples.v
ContainerShared.v
FileList.v
ListContainer.v
FileListProps.v
FileListDeque.v
FileListOps.v
Posix.v
DirManager.v
DirManagerProps.v
Vectors.v
IdContainer.v
IdIndexes.v
IdContainerProps.v
IdRepository.v
RamContainerProps.v
IdProperties.v
RequestMachine.v
RequestProps.v
Url.v
Transition.v
ThreadPool.v
ThreadPoolProps.v
ThreadPoolSpec.v
JobDir.v
JobDirProps.v
Numbers.v
CondorLog.v
TimeoutEvent.v
TimeoutEventProps.v
ContainerReopen.v
Timer.v
TimerProps.v
TimerProperties.v
EventAd.v
EventAdProps.v
Aborted.v
SizeFile.v
SizeFileProps.v
SizeFileProperties.v
SizeFileCrash.v
JobWrapper.v
Events.v
EventsProps.v
EventsSpec.v
Pipe.v
PipeProps.v
LbEvents.v
Manager.v
WmUtils.v
LbProps.v
Submit.v
Cancel.v
Dispatch.v
Recovery.v
Replan.v
WmInvariant.v
WmSound.v
WmSystem.v
WmDelivery.v
WmExample.v
WmProperties.v
DagProps.v
DagProperties.v
