(* ===== verification/Prelude.v ===== *)
(** * The gLite Workload Management System: verification library

    The Workload Management System accepts grid jobs, chooses a computing
    element for each, hands it over to a batch system and follows it.  This
    library models the parts of it that carry state of their own and proves
    what the other parts rely on.

    ** The program and the files of this library

    - _The queue file_ (src/jobsubmission/src/common/file_container.cpp and
      .h).  The job controller and the log monitor exchange requests through
      a doubly linked list of strings in one file: a header of fixed-width
      text fields, records that never move, and before each update a backup
      of what it overwrites under a status character.  [Digits] models the
      numbers of fixed width, [Stream] the [std::fstream] with a journal of
      the physical writes, [FileContainer] the class, function by function.
      [ContainerFields], [ContainerDisk] and [ContainerCells] relate the bytes
      of the file to fields and records, [ContainerList] to the list they
      stand for ([rep]); [ContainerAdd], [ContainerInsert], [ContainerRead],
      [ContainerRemove], [ContainerCreate], [ContainerCompact] and
      [ContainerRecovery] follow one operation each.  [ContainerCrash] opens
      again every file that a process killed during an append leaves behind;
      [ContainerShared] has two objects over one file.
    - _The list_ (filelist.cpp, filelist.h, filelist_iterator.cpp and .h).
      [FileList] models the iterators, the sequence over a container and the
      template over a converter; [ListContainer] is the interface between
      them, a class of the container operations with their laws, which the
      queue file discharges.  [FileListProps], [FileListDeque] and
      [FileListOps] are proved against the interface alone.
    - _The job repository_ (id_container.cpp, pointer_id.cpp,
      ram_container.cpp and headers).  [IdContainer] models a file list of
      ClassAds with two sorted indexes over it and the copy in memory;
      [Vectors] the sorted vectors with their binary search.  [IdIndexes],
      [IdContainerProps], [IdRepository], [RamContainerProps] and
      [IdProperties] follow every call down to the list of the file.
    - _The directory manager_
      (src/interface/src/dirmanager/glite-wms-wmproxy-dirmanager.c).
      [Posix] is a file system with faults, [DirManager] the C program,
      [DirManagerProps] its properties.
    - _Planning_ (src/core/src/helper/RequestStateMachine.cpp, Request.cpp,
      HelperFactory.cpp, Helper.cpp and src/core/src/plan.cpp).
      [RequestMachine] models the tables, the factory and the loops,
      [RequestProps] their properties.
    - _URLs_ (src/core/src/helper/jobadapter/url.cpp): [Url].
    - _The job directory_ (src/common/src/utilities/jobdir.cpp and
      src/jobsubmission/src/controller/JobControllerClientJD.cpp), through
      which daemons hand requests to each other as files.  [JobDir] models
      deliveries and the client as a transition system with one system call
      per step, [JobDirProps] its properties.
    - _The thread pool of ICE_ (src/ice/src/threads/IceThreadPool.cpp,
      IceThreadPoolState.h, IceThread.cpp).  [ThreadPool] models the workers,
      their condition variable and the stopping of the pool, again as a
      transition system; [ThreadPoolProps] has the invariant and the order of
      commands, [ThreadPoolSpec] the measure, the ends of runs and the theorems.

    - _The event queue of the workload manager_ (src/core/src/events.cpp and
      .h), which runs every request.  [Events] models the two multimaps, the
      workers, their condition variable and the clock; [EventsProps] has the
      order of the queues and the conservation of events, [EventsSpec] the
      invariant against lost notifications, the measure and the theorems.
    - _Pipes_ (src/common/src/task/Task.h): [Pipe], [PipeProps].
      [Transition] has what the transition systems share: runs, their
      composition, invariants and bounds.
    - _The log monitor_ (src/jobsubmission/src/logmonitor).  [Numbers] and
      [CondorLog] model what its parts share: numbers as text and IEEE
      floats, the events of Condor, the interface of a ClassAd of simple
      attributes.  [TimeoutEvent] and [Timer] model Timer.cpp, the timeouts
      with their backup file, over the list interface and the reopening of
      containers of [ContainerReopen]; [TimeoutEventProps], [TimerProps] and
      [TimerProperties] their properties.  [EventAd] and [EventAdProps] do the same for EventAd.cpp, [Aborted] for
      AbortedContainer.cpp; [SizeFile], [SizeFileProps],
      [SizeFileProperties] and [SizeFileCrash] for SizeFile.cpp, the file
      that says how far a log has been read; [JobWrapper] for
      JobWrapperOutputParser.cpp, the output of job wrappers.
    - _The workload manager_ (src/core/src), as a system of processors that
      the event queue calls.  [LbEvents] and [Manager] have its data: events
      and states of the logging and bookkeeping service (LB), the states of
      requests under their shared pointers, the world that the processors
      share, and the two classes [Libraries] and [Env] for what is outside.
      [WmUtils] models lb_utils.cpp, submission_utils.cpp and wm_real.cpp;
      [Submit] submit_request.cpp (jobs, collections and DAGs), [Cancel]
      cancel_request.cpp, [Dispatch] dispatcher_utils.cpp with the commands of
      src/common/src/utilities/wm_commands.cpp, [Recovery] recovery.cpp,
      [Replan] replanner.cpp.  The triples over calls are at the end of this file;
      [LbProps] has the properties of logging and queries, [WmInvariant]
      and [WmSound] the invariant of states, files
      and queue through every call, [WmSystem] the runs of the whole
      ([wm_step]) and its start (main.cpp), [WmDelivery] deliveries and
      tokens, [DagProps] the passes over a graph.  The
      theorems are in [WmProperties] and [DagProperties], with
      the instance of [WmExample].
    [ContainerExamples] and the ends of [FileListOps] and [IdProperties] hold
    concrete files, converters and a concrete ClassAd syntax at which the
    theorems are applied.

    ** How the code is modelled

    A call is a function from a state to a state and an [outcome] (see below):
    a result, an error or a throw as a value, or [Stuck] for a call with no
    result.  Records stand for classes and structs, reference parameters are
    results, exceptions are [Fail].  Machine integers are [Z] with the
    wrap-around written out where the source can reach it (file offsets up
    to [off_max], the 16-bit counter of a stamp).  Strings and files are
    lists of characters.  Concurrent parts are transition systems whose steps
    are executable; runs are lists of labels.

    ** What the theorems show

    - _The container is a list._  Adding, inserting and removing at any
      position, reading, compacting and filling a vector return, and the file
      then stands for the list one expects; links, limits, count and stamp
      stay consistent.  The file list refines a double-ended queue over any
      sequence of calls, with its exceptions; iterators visit the elements in
      order; insertion and erasure at an iterator, ranges, [remove] and
      [swap] do on lists what their names say.  [remove] throws when it
      removes the last element.
    - _Crashes._  A process that dies between any two physical writes of an
      append leaves a file from which the next open recovers the list before
      or after the append, except in one window that is exhibited.
    - _Two processes._  A change made through one object is seen by the next
      call of the other, if the stamp is newer; when that fails is made
      exact by the width of the counter.
    - _Repository._  Any sequence of calls answers as a table of jobs with
      two keys; a restart rebuilds the same table from the file; the binary
      searches answer as a scan would.  The copy in memory follows, except
      for an insertion that leaves a dangling entry, which is exhibited.
    - _Directory manager._  Success of [check_dir] means the directory is
      there with the owner, group and mode asked for; a failure leaves the
      file system as it was; unpacking never overwrites a file; a compressed
      file comes back when it is unpacked; the loop over directories stops
      at the first failure.
    - _Planning._  [Plan] equals a fixed pipeline of helpers, no reachable
      request is invalid, the factory is a registry.  URLs are accepted
      exactly by their grammar and printed back.
    - _Job directory._  No request is lost, duplicated or seen half written
      under any interleaving and any killed process, if names are different
      (for which see [file_name_inj]); the client serves all of them in
      order; a request that does not parse blocks it for good.
    - _Thread pool._  Commands of a job exclude each other and keep their
      order; no notification is lost while the pool runs, so that every
      command is executed; stopping the pool returns but for one race, which
      is exhibited.
    - _Event queue._  Every event is started once, by priority and not before
      its time; no notification is lost and a stop ends every worker; the
      queue may dereference the end of an empty multimap exactly when it has
      two workers or more.
    - _Pipes._  First in, first out within the size; a thread that waits has a
      reason to, once those that were notified have run.
    - _Log monitor._  The timers refine a list of timeouts over restarts; each
      kind of event is followed through its ClassAd and back, with what gets
      lost; the aborted jobs are a set; the size file gives back what was
      saved last, and its behaviour is made exact for a torn record and for a
      header that is too long; the verdict on the output of a job wrapper is
      what its lines say each on its own.
    - _Workload manager._  In every run a request that something refers to has
      its file in the input directory, and no state is forgotten while the
      process runs; a planned job is handed over at most once; the token of a
      job decides about its resubmissions; an event is logged at most once in
      a bounded number of calls.  A pass over a DAG comes back and queues
      exactly the nodes that are ready, and a graph without cycles does not
      stop half way.  What goes wrong is made exact: a request with a bad id,
      a node without a context, a job in limbo, a cancellation of a job that
      is done, a job that was planned too often.

    ** Bounds and fuel

    Loops over the file that are not structural take fuel, one unit per
    round: [read_slices] is called with more units than bytes, [cc_loop] and
    [fill_loop] with more than the file can hold records, and the theorems
    conclude that the call returns, so that the fuel was enough.  The loops of
    [FileList] ([erase_loop], [remove_loop], [collect]) and those over the
    repository take their fuel as an argument and the theorems hold for any
    fuel of at least the length of the list.  [resolve_loop] needs three
    rounds, which is proved; [header_loop] of the size file and [parse_loop] of the wrapper output get a unit per
    character; [release_submit] gets more units than there are states older than
    the one released, each parent being older than its child; the restoring loops of the timers and of the aborted jobs take
    fuel as those of [FileList]; the binary search [lower_bound] halves its range, and the URL
    [segments] consume their text.  Runs of the thread pool, of the event queue
    and of the pipes are bounded by a [measure], and [serve_all] by the number of requests.

    ** Assumptions

    Positions and sizes stay within [off_max]; the files with the suffixes
    .bak and .wrong can be created; a write of a field is done or not done at
    a crash (a torn write is modelled for the size file only); one process works on a queue file
    at a time, as its lock makes sure, except in [ContainerShared] where the
    two take turns.  The ClassAd library, the converters, zlib, libtar, the
    helpers, the commands of ICE, the match maker, the event classes of Condor
    and the calendar are parameters with named laws and concrete instances.
    What uninitialised memory holds is a parameter without a law.  The
    multimap of the event queue is searched as the library of the compiler
    does it, since its comparison by time is no strict order.  Sections under a mutex are atomic steps.
    A processor of the workload manager runs from its call to its return as
    one step between the steps of the queue, and what LB, the planning, the
    match maker and the file system answer is a function of the number of the
    call, so that it may change at every call; request files have names that
    are different from each other, which is what the job directory makes sure
    of; the start script has moved the files in old back to new.

    ** Not modelled

    The debug call stack and the log messages of the container; reverse
    iterators, which are the standard adaptors; [PointerId::job_ad] and
    [proxy_file]; the helper bodies, which call the ClassAd match maker; the
    loading of helpers from shared libraries (commented out in the source).
    The sleep and the signal check of the client and the creation of a job
    directory; aborts of the thread pool for lack of locks or threads.
    The handles that open and close the ends of a pipe for a group of threads.
    Of the workload manager: the match maker and the information supermarket,
    the broker info file, the answers to match requests, options and signals.
    Two processors that change the state of one request at the same moment
    are not modelled; the source has a mutex for the set of pending nodes.
    The WMProxy service, the event processors of the log monitor, the
    controller daemons, ICE's CREAM and SQL code, the purger and the
    configuration are calls into gSOAP, LB, Condor, SQLite and ClassAds with
    no state of their own; SQLite and the gSOAP runtime are third-party
    sources.

    ** Further parts within reach

    The line parser of the command-line tools, and crashes during insertion and removal of the queue file as they
    are done here for append. *)

From Stdlib Require Export ZArith Lia Ascii.
From Stdlib Require String.

Export String.StringSyntax.
From stdpp Require Export base tactics numbers option list sets.

#[global] Open Scope Z_scope.

(** ** Characters and byte strings *)

(** [std::string] contents and file contents are lists of characters. *)
Abbreviation bytes := (list ascii).

Declare Scope wms_scope.
Delimit Scope wms_scope with wms.
#[global] Open Scope wms_scope.

Delimit Scope string_scope with string.

Definition of_string (s : String.string) : bytes := String.list_ascii_of_string s.
Arguments of_string s%_string_scope.

#[export] Instance ascii_eqdec : EqDecision ascii := ascii_dec.

(** The two characters that terminate a field in every file format. *)
Definition nl : ascii := "010"%char.
Definition sp : ascii := " "%char.

(** ** Outcomes of a C++ call

    [Ret a] is a normal return, [Fail e] a return (or a throw) of the
    error [e]; [Stuck] stands for a call that yields no result: a null
    dereference or a loop that never ends. *)
Inductive outcome (E A : Type) : Type :=
| Ret (a : A)
| Fail (e : E)
| Stuck.
Arguments Ret {E A} a.
Arguments Fail {E A} e.
Arguments Stuck {E A}.

(** Stateful code: state in, state and outcome out. *)
Definition M (S E A : Type) : Type := S → S * outcome E A.

#[global] Instance M_ret {S E} : MRet (M S E) := λ A a s, (s, Ret a).
#[global] Instance M_bind {S E} : MBind (M S E) := λ A B k m s,
  match m s with
  | (s', Ret a) => k a s'
  | (s', Fail e) => (s', Fail e)
  | (s', Stuck) => (s', Stuck)
  end.

Definition fail {S E A} (e : E) : M S E A := λ s, (s, Fail e).
Definition stuck {S E A} : M S E A := λ s, (s, Stuck).
Definition get_st {S E} : M S E S := λ s, (s, Ret s).
Definition modify {S E} (f : S → S) : M S E unit := λ s, (f s, Ret tt).
(** [catch m h]: on an error [e] of [m] the code goes on with [h e]. *)
Definition catch {S E A} (m : M S E A) (h : E → M S E A) : M S E A := λ s,
  match m s with
  | (s', Fail e) => h e s'
  | r => r
  end.

Section monad_lemmas.
Context {S E : Type}.
Implicit Types s : S.

Lemma bind_Ret {A B} (m : M S E A) (k : A → M S E B) s s' a :
  m s = (s', Ret a) → (m ≫= k) s = k a s'.
Proof. intros H. unfold mbind, M_bind. by rewrite H. Qed.

Lemma bind_Fail {A B} (m : M S E A) (k : A → M S E B) s s' e :
  m s = (s', Fail e) → (m ≫= k) s = (s', Fail e).
Proof. intros H. unfold mbind, M_bind. by rewrite H. Qed.

Lemma bind_Stuck {A B} (m : M S E A) (k : A → M S E B) s s' :
  m s = (s', Stuck) → (m ≫= k) s = (s', Stuck).
Proof. intros H. unfold mbind, M_bind. by rewrite H. Qed.

Lemma bind_assoc {A B C} (m : M S E A) (k : A → M S E B) (h : B → M S E C) s :
  ((m ≫= k) ≫= h) s = (m ≫= λ a, k a ≫= h) s.
Proof. unfold mbind, M_bind. destruct (m s) as [? []]; reflexivity. Qed.

Lemma bind_mret {A B} (a : A) (k : A → M S E B) s : (mret a ≫= k) s = k a s.
Proof. reflexivity. Qed.

Lemma catch_Ret {A} (m : M S E A) h s s' a :
  m s = (s', Ret a) → catch m h s = (s', Ret a).
Proof. intros H. unfold catch. by rewrite H. Qed.

Lemma catch_Fail {A} (m : M S E A) h s s' e :
  m s = (s', Fail e) → catch m h s = h e s'.
Proof. intros H. unfold catch. by rewrite H. Qed.
End monad_lemmas.

(** [exec lem] runs the first call of a sequence with the equation [lem]
    of that call; the side conditions are left to the caller. *)
Tactic Notation "exec" uconstr(lem) := erewrite bind_Ret by (eapply lem; eauto with wms lia).

(** ** Hint database and generic list lemmas *)

Create HintDb wms.

(** [span p l] splits [l] after its longest prefix of elements in [p]. *)
Fixpoint span {A} (p : A → bool) (l : list A) : list A * list A :=
  match l with
  | [] => ([], [])
  | x :: l' => if p x then let '(a, b) := span p l' in (x :: a, b) else ([], l)
  end.

Section span.
Context {A : Type} (p : A → bool).

Lemma span_app_stop (l r : list A) (x : A) :
  Forall (λ y, p y = true) l → p x = false → span p (l ++ x :: r) = (l, x :: r).
Proof.
  intros Hl Hx. induction Hl as [|y l Hy _ IH]; simpl.
  - by rewrite Hx.
  - by rewrite Hy, IH.
Qed.

Lemma span_all (l : list A) : Forall (λ y, p y = true) l → span p l = (l, []).
Proof. induction 1 as [|y l Hy _ IH]; simpl; [done|]. by rewrite Hy, IH. Qed.

Lemma span_cons_stop (x : A) r : p x = false → span p (x :: r) = ([], x :: r).
Proof. intros H. simpl. by rewrite H. Qed.

Lemma span_app (l : list A) : (span p l).1 ++ (span p l).2 = l.
Proof. induction l as [|x l IH]; simpl; [done|]. destruct (p x), (span p l); simpl in *; congruence. Qed.
End span.

(** [overwrite f n d]: the contents of [f] once [d] has been written at
    offset [n]; bytes between the old end and [n] read as NUL. *)
Definition overwrite (f : bytes) (n : nat) (d : bytes) : bytes :=
  take n (f ++ replicate (n - length f) "000"%char) ++ d ++ drop (n + length d) f.

Lemma overwrite_mid (a old b new : bytes) (n : nat) :
  n = length a → length old = length new →
  overwrite (a ++ old ++ b) n new = a ++ new ++ b.
Proof.
  intros -> Hlen. unfold overwrite.
  rewrite !length_app. replace (length a - _)%nat with 0%nat by lia. simpl.
  rewrite app_nil_r, take_app_length. f_equal. f_equal.
  rewrite drop_app_add, <- Hlen. apply drop_app_length.
Qed.

Lemma overwrite_end (f new : bytes) (n : nat) :
  n = length f → overwrite f n new = f ++ new.
Proof.
  intros ->. unfold overwrite. rewrite Nat.sub_diag. simpl.
  rewrite app_nil_r, take_ge by lia. rewrite drop_ge by lia. by rewrite app_nil_r.
Qed.

Lemma length_overwrite (f d : bytes) (n : nat) :
  length (overwrite f n d) = (n + length d + (length f - (n + length d)))%nat.
Proof.
  unfold overwrite. rewrite !length_app, length_take, length_drop, length_app, length_replicate. lia.
Qed.

Lemma filter_all {X} (P : X → Prop) `{∀ x, Decision (P x)} (l : list X) : Forall P l → filter P l = l.
Proof. induction 1 as [|x l Hx _ IH]; [done|]. by rewrite filter_cons_True, IH. Qed.

(** A sum over a list, when one element changes. *)
Lemma sum_list_with_insert {X} (f : X → nat) l i x y : l !! i = Some x → (sum_list_with f (<[i := y]> l) + f x = sum_list_with f l + f y)%nat.
Proof.
  intros Hi. rewrite insert_take_drop by (by eapply lookup_lt_Some). rewrite <- (take_drop_middle l i x Hi) at 3.
  rewrite !sum_list_with_app. cbn [sum_list_with]. lia.
Qed.

(** * Triples for stateful code

    [triple P m Q X]: from a state in [P] the call [m] returns a result and a
    state in [Q], or it fails with [e] in a state in [X (Some e)], or it gets
    stuck in a state in [X None].  [keeps P m] is the case of an invariant,
    which holds however the call ends. *)

Section triple.
Context {S E : Type}.
Implicit Types (P : S → Prop) (X : option E → S → Prop).

Definition triple {A} P (m : M S E A) (Q : A → S → Prop) X : Prop :=
  ∀ s, P s → match m s with (s', Ret a) => Q a s' | (s', Fail e) => X (Some e) s' | (s', Stuck) => X None s' end.
Definition keeps {A} P (m : M S E A) : Prop := triple P m (λ _, P) (λ _, P).

Lemma triple_weaken {A} P P' (m : M S E A) (Q Q' : A → S → Prop) X X' :
  triple P m Q X → (∀ s, P' s → P s) → (∀ a s, Q a s → Q' a s) → (∀ x s, X x s → X' x s) → triple P' m Q' X'.
Proof. intros Hm HP HQ HX s Hs. specialize (Hm s (HP s Hs)). destruct (m s) as [s' []]; eauto. Qed.
Lemma triple_ret {A} P (a : A) (Q : A → S → Prop) X : (∀ s, P s → Q a s) → triple P (mret a) Q X.
Proof. intros HQ s Hs. by apply HQ. Qed.
Lemma triple_fail {A} P (e : E) (Q : A → S → Prop) X : (∀ s, P s → X (Some e) s) → triple P (fail e) Q X.
Proof. intros HX s Hs. by apply HX. Qed.
Lemma triple_stuck {A} P (Q : A → S → Prop) X : (∀ s, P s → X None s) → triple P stuck Q X.
Proof. intros HX s Hs. by apply HX. Qed.
Lemma triple_bind {A B} P (m : M S E A) (R : A → S → Prop) (k : A → M S E B) Q X :
  triple P m R X → (∀ a, triple (R a) (k a) Q X) → triple P (m ≫= k) Q X.
Proof. intros Hm Hk s Hs. unfold mbind, M_bind. specialize (Hm s Hs). destruct (m s) as [s' [a| |]]; [by apply Hk|done|done]. Qed.
Lemma triple_catch {A} P (m : M S E A) h Q X Y :
  triple P m Q X → (∀ e, triple (X (Some e)) (h e) Q Y) → (∀ s, X None s → Y None s) → triple P (catch m h) Q Y.
Proof.
  intros Hm Hh HY s Hs. unfold catch. specialize (Hm s Hs). destruct (m s) as [s' [a|e|]]; [done|by apply Hh|by apply HY].
Qed.
Lemma triple_pre {A} (p : Prop) P (m : M S E A) Q X : (p → triple P m Q X) → triple (λ s, p ∧ P s) m Q X.
Proof. intros Hm s [Hp Hs]. by apply Hm. Qed.
Lemma triple_exists {A B} (P : B → S → Prop) (m : M S E A) Q X : (∀ b, triple (P b) m Q X) → triple (λ s, ∃ b, P b s) m Q X.
Proof. intros Hm s [b Hs]. by apply (Hm b). Qed.

(** ** Invariants *)
Lemma keeps_ret {A} P (a : A) : keeps P (mret a).
Proof. by apply triple_ret. Qed.
Lemma keeps_fail {A} P (e : E) : keeps P (fail e : M S E A).
Proof. by apply triple_fail. Qed.
Lemma keeps_stuck {A} P : keeps P (stuck : M S E A).
Proof. by apply triple_stuck. Qed.
Lemma keeps_bind {A B} P (m : M S E A) (k : A → M S E B) : keeps P m → (∀ a, keeps P (k a)) → keeps P (m ≫= k).
Proof. intros Hm Hk. eapply triple_bind; [exact Hm|exact Hk]. Qed.
Lemma keeps_catch {A} P (m : M S E A) h : keeps P m → (∀ e, keeps P (h e)) → keeps P (catch m h).
Proof. intros Hm Hh. eapply triple_catch; [exact Hm|exact Hh|done]. Qed.
Lemma keeps_modify P (f : S → S) : (∀ s, P s → P (f s)) → keeps P (modify f : M S E unit).
Proof. intros Hf s Hs. by apply Hf. Qed.
End triple.
