(* ===== verification/Digits.v ===== *)
(** * Numbers in text form

    What [std::ostream] prints for an unsigned value under
    [setfill('0') << setw(w)] in base 10 or 16, and what [std::istream]
    reads back: the number codec under every field of a container file. *)

From S2P Require Import Prelude.

Definition digit_char (d : Z) : ascii :=
  ascii_of_N (Z.to_N (if bool_decide (d < 10) then 48 + d else 87 + d)).

(** Value of a digit character; upper case hex digits are accepted. *)
Definition digit_val (c : ascii) : option Z :=
  let n := Z.of_N (N_of_ascii c) in
  if bool_decide (48 ≤ n ≤ 57) then Some (n - 48)
  else if bool_decide (97 ≤ n ≤ 102) then Some (n - 87)
  else if bool_decide (65 ≤ n ≤ 70) then Some (n - 55)
  else None.

Definition is_digit (base : Z) (c : ascii) : bool :=
  match digit_val c with
  | Some d => bool_decide (d < base)
  | None => false
  end.

(** [isspace] of the C locale. *)
Definition is_space (c : ascii) : bool :=
  let n := Z.of_N (N_of_ascii c) in
  bool_decide (n = 32 ∨ 9 ≤ n ≤ 13).

Definition digits_value (base : Z) (s : bytes) : Z :=
  fold_left (λ acc c, acc * base + default 0 (digit_val c)) s 0.

(** Digits of [n], most significant first, at least one. *)
Fixpoint to_digits (fuel : nat) (base n : Z) : bytes :=
  match fuel with
  | O => [digit_char (n `mod` base)]
  | S f => if bool_decide (n < base) then [digit_char n]
           else to_digits f base (n `div` base) ++ [digit_char (n `mod` base)]
  end.

(** [os << setfill('0') << setw(w) << n]: a number wider than [w] is not cut. *)
Definition fmt (base : Z) (w : nat) (n : Z) : bytes :=
  let s := to_digits (Z.to_nat (Z.log2 n)) base n in
  replicate (w - length s) "0"%char ++ s.

(** Reference form: exactly [w] digits. *)
Fixpoint fixed (base : Z) (w : nat) (n : Z) : bytes :=
  match w with
  | O => []
  | S w' => fixed base w' (n `div` base) ++ [digit_char (n `mod` base)]
  end.

Example fmt_hex : fmt 16 16 391 = of_string "0000000000000187".
Proof. reflexivity. Qed.
Example fmt_dec : fmt 10 5 65535 = of_string "65535".
Proof. reflexivity. Qed.
Example fmt_wide : fmt 10 2 12345 = of_string "12345".
Proof. reflexivity. Qed.

(** ** Lemmas *)

Section digits.
Context (base : Z) (Hbase : 2 ≤ base ≤ 16).

Lemma digit_val_char d : 0 ≤ d < 16 → digit_val (digit_char d) = Some d.
Proof.
  intros H.
  assert (d ∈ seqZ 0 16) as Hin by (apply elem_of_seqZ; lia).
  revert Hin. cut (Forall (λ d, digit_val (digit_char d) = Some d) (seqZ 0 16)).
  - intros HF Hin. rewrite Forall_forall in HF. by apply HF.
  - apply (bool_decide_unpack _). vm_compute. exact I.
Qed.

Lemma is_digit_char d : 0 ≤ d < base → is_digit base (digit_char d) = true.
Proof. intros. unfold is_digit. rewrite digit_val_char by lia. case_bool_decide; [done|lia]. Qed.

Lemma length_fixed w n : length (fixed base w n) = w.
Proof. revert n. induction w as [|w IH]; intros n; simpl; [done|]. rewrite length_app, IH. simpl. lia. Qed.

Lemma fixed_digits w n : Forall (λ c, is_digit base c = true) (fixed base w n).
Proof.
  revert n. induction w as [|w IH]; intros n; simpl; [constructor|].
  apply Forall_app; split; [done|]. repeat constructor. apply is_digit_char, Z.mod_pos_bound. lia.
Qed.

Lemma digits_value_snoc s c :
  digits_value base (s ++ [c]) = digits_value base s * base + default 0 (digit_val c).
Proof. unfold digits_value. by rewrite fold_left_app. Qed.

(** Reading what was written gives the number back. *)
Lemma digits_value_fixed w n : 0 ≤ n < base ^ Z.of_nat w → digits_value base (fixed base w n) = n.
Proof.
  revert n. induction w as [|w IH]; intros n Hn.
  - simpl in *. unfold digits_value. simpl. lia.
  - rewrite Nat2Z.inj_succ, Z.pow_succ_r in Hn by lia. simpl.
    pose proof (Z.mod_pos_bound n base ltac:(lia)).
    rewrite digits_value_snoc, IH, digit_val_char by (try split; try apply Z.div_pos; try apply Z.div_lt_upper_bound; lia).
    simpl. pose proof (Z.div_mod n base). lia.
Qed.

Lemma fixed_zero w : fixed base w 0 = replicate w "0"%char.
Proof.
  induction w as [|w IH]; [done|].
  cbn [fixed]. rewrite Z.div_0_l, Z.mod_0_l by lia. rewrite IH.
  replace (S w) with (w + 1)%nat by lia. by rewrite replicate_add.
Qed.

Lemma to_digits_fixed fuel w n :
  0 ≤ n < base ^ Z.of_nat w → (0 < w)%nat → n < 2 ^ Z.of_nat (S fuel) →
  replicate (w - length (to_digits fuel base n)) "0"%char ++ to_digits fuel base n = fixed base w n.
Proof.
  revert w n. induction fuel as [|f IH]; intros w n Hn Hw Hf.
  - assert (n < base) by (change (2 ^ Z.of_nat 1) with 2 in Hf; lia).
    destruct w as [|w]; [lia|]. cbn [to_digits fixed length].
    rewrite Z.div_small, fixed_zero by lia. f_equal. f_equal. lia.
  - destruct w as [|w]; [lia|]. cbn [to_digits fixed].
    case_bool_decide as Hlt.
    + rewrite Z.div_small, Z.mod_small, fixed_zero by lia.
      cbn [length]. f_equal. f_equal. lia.
    + rewrite Nat2Z.inj_succ, Z.pow_succ_r in Hn by lia.
      assert (0 < w)%nat.
      { destruct w; [|lia]. change (base ^ Z.of_nat 0) with 1 in Hn. lia. }
      rewrite length_app. cbn [length].
      replace (S w - (_ + 1))%nat with (w - length (to_digits f base (n / base)))%nat by lia.
      rewrite app_assoc, IH; [done| |done|].
      * split; [apply Z.div_pos; lia|apply Z.div_lt_upper_bound; lia].
      * rewrite Nat2Z.inj_succ, Z.pow_succ_r in Hf by lia.
        apply Z.div_lt_upper_bound; [lia|].
        pose proof (Z.pow_pos_nonneg 2 (Z.of_nat (S f))). nia.
Qed.

(** A number that fits is printed on exactly [w] characters. *)
Lemma fmt_fixed w n : 0 ≤ n < base ^ Z.of_nat w → (0 < w)%nat → fmt base w n = fixed base w n.
Proof.
  intros Hn Hw. unfold fmt. apply to_digits_fixed; try done.
  rewrite Nat2Z.inj_succ, Z2Nat.id by apply Z.log2_nonneg.
  destruct (decide (n = 0)) as [->|]; [done|]. apply Z.log2_spec. lia.
Qed.

Lemma length_fmt w n : 0 ≤ n < base ^ Z.of_nat w → (0 < w)%nat → length (fmt base w n) = w.
Proof. intros. rewrite fmt_fixed by done. apply length_fixed. Qed.

Lemma fmt_digits w n : 0 ≤ n < base ^ Z.of_nat w → (0 < w)%nat →
  Forall (λ c, is_digit base c = true) (fmt base w n).
Proof. intros. rewrite fmt_fixed by done. apply fixed_digits. Qed.

Lemma digits_value_fmt w n : 0 ≤ n < base ^ Z.of_nat w → (0 < w)%nat →
  digits_value base (fmt base w n) = n.
Proof. intros. rewrite fmt_fixed by done. by apply digits_value_fixed. Qed.
End digits.

(** A digit is never a blank, a sign or the end of a line. *)
Lemma is_digit_not_space base c : is_digit base c = true → is_space c = false.
Proof.
  unfold is_digit, digit_val, is_space. intros H.
  repeat case_bool_decide; simpl in *; try done; lia.
Qed.

Lemma is_digit_neq base c d : is_digit base c = true → is_digit base d = false → c ≠ d.
Proof. intros ? ? ->. congruence. Qed.

Lemma nl_not_digit base : is_digit base nl = false.
Proof. reflexivity. Qed.
Lemma sp_not_digit base : is_digit base sp = false.
Proof. reflexivity. Qed.

#[export] Hint Resolve nl_not_digit sp_not_digit is_digit_not_space : wms.
