(* ===== verification/Stream.v ===== *)
(** * [std::fstream]

    The iostream operations the container code uses, over the bytes of one
    file.  A [std::filebuf] has a single position for reading and writing,
    so [seekg]/[seekp] and [tellg]/[tellp] move and read the same cursor.
    The three error bits are kept apart, as in C++98: a read that hits the
    end sets [eofbit], after which nothing is read any more, and only
    [clear] resets the bits.  [f_broken] is the state of the medium: writes
    to a broken medium set [badbit] and change nothing.  [f_journal] lists
    the contents of the file after each physical write, oldest first: what
    a crash of the process can leave behind. *)

From S2P Require Import Prelude Digits.

Record stream := Stream {
  f_data : bytes;
  f_pos : Z;
  f_eof : bool;
  f_fail : bool;
  f_bad : bool;
  f_broken : bool;
  f_journal : list bytes
}.

(** ** State bits *)

Definition bad (st : stream) : bool := f_bad st.
Definition failed (st : stream) : bool := f_fail st || f_bad st.
Definition good (st : stream) : bool := negb (f_eof st || f_fail st || f_bad st).

Definition set_pos (p : Z) (st : stream) : stream :=
  Stream (f_data st) p (f_eof st) (f_fail st) (f_bad st) (f_broken st) (f_journal st).
Definition set_bits (e f b : bool) (st : stream) : stream :=
  Stream (f_data st) (f_pos st) (f_eof st || e) (f_fail st || f) (f_bad st || b) (f_broken st) (f_journal st).
Definition set_data (d : bytes) (st : stream) : stream :=
  Stream d (f_pos st) (f_eof st) (f_fail st) (f_bad st) (f_broken st) (f_journal st ++ [d]).

Definition set_failbit : stream → stream := set_bits false true false.
Definition clear (st : stream) : stream :=
  Stream (f_data st) (f_pos st) false false false (f_broken st) (f_journal st).

(** A fresh stream on a file ([new fstream(name, in|out)]). *)
Definition open_stream (d : bytes) (broken : bool) : stream := Stream d 0 false false false broken [].

(** ** Positioning *)

Definition tell (st : stream) : Z := if failed st then -1 else f_pos st.

Definition seek (p : Z) (st : stream) : stream :=
  if failed st then st
  else if bool_decide (p < 0) then set_failbit st
  else set_pos p st.

Definition seek_end (st : stream) : stream :=
  if failed st then st else set_pos (Z.of_nat (length (f_data st))) st.

(** [istream::sync]: only the sentry has an effect on the bits. *)
Definition sync (st : stream) : stream := if good st then st else set_failbit st.

(** ** Writing *)

(** One flushed insertion of [d] at the cursor. *)
Definition emit (d : bytes) (st : stream) : stream :=
  if negb (good st) then set_failbit st
  else if f_broken st then set_bits false false true st
  else set_pos (f_pos st + Z.of_nat (length d))
         (set_data (overwrite (f_data st) (Z.to_nat (f_pos st)) d) st).

(** [ftruncate] on the descriptor of the stream. *)
Definition resize (n : nat) (d : bytes) : bytes :=
  take n (d ++ replicate (n - length d) "000"%char).
Definition ftruncate (n : Z) (st : stream) : stream * bool :=
  if f_broken st || bool_decide (n < 0) then (st, false)
  else (set_data (resize (Z.to_nat n) (f_data st)) st, true).

(** ** Reading *)

Definition rest (st : stream) : bytes := drop (Z.to_nat (f_pos st)) (f_data st).
Definition advance (n : nat) (st : stream) : stream := set_pos (f_pos st + Z.of_nat n) st.

Definition not_nl (c : ascii) : bool := negb (bool_decide (c = nl)).

(** [std::getline]. *)
Definition getline (st : stream) : stream * bytes :=
  if negb (good st) then (set_failbit st, [])
  else
    let '(l, r) := span not_nl (rest st) in
    match r with
    | [] => (set_bits true (bool_decide (l = [])) false (advance (length l) st), l)
    | _ => (advance (S (length l)) st, l)
    end.

(** [istream::get]; [None] is [EOF]. *)
Definition get_char (st : stream) : stream * option ascii :=
  if negb (good st) then (set_failbit st, None)
  else match rest st with
       | [] => (set_bits true true false st, None)
       | c :: _ => (advance 1 st, Some c)
       end.

(** [istream::read(buf, n)] with [gcount]. *)
Definition read (n : nat) (st : stream) : stream * bytes :=
  if negb (good st) then (set_failbit st, [])
  else
    let d := take n (rest st) in
    let st' := advance (length d) st in
    (if bool_decide (length d = n) then st' else set_bits true true false st', d).

(** [is >> v] for an integer type whose values are [lo..hi]. *)
Definition extract_num (base lo hi : Z) (st : stream) : stream * option Z :=
  if negb (good st) then (set_failbit st, None)
  else
    let '(ws, r1) := span is_space (rest st) in
    let '(sg, r2) := match r1 with
                     | "-"%char :: r => (true, r)
                     | "+"%char :: r => (false, r)
                     | _ => (false, r1)
                     end in
    let '(ds, r3) := span (is_digit base) r2 in
    let used := (length (rest st) - length r3)%nat in
    let st' := advance used st in
    let st'' := match r3 with [] => set_bits true false false st' | _ => st' end in
    let v := digits_value base ds in
    match ds with
    | [] => (set_failbit st'', None)
    | _ =>
        let w := if sg then (if bool_decide (lo = 0) then (- v) `mod` (hi + 1) else - v) else v in
        if bool_decide (lo ≤ w ≤ hi ∧ v ≤ hi + 1) then (st'', Some w) else (set_failbit st'', None)
    end.

(** [is >> c] for a [char]. *)
Definition extract_char (st : stream) : stream * option ascii :=
  if negb (good st) then (set_failbit st, None)
  else
    let '(ws, r) := span is_space (rest st) in
    match r with
    | [] => (set_bits true true false (advance (length ws) st), None)
    | c :: _ => (advance (S (length ws)) st, Some c)
    end.

(** ** Lemmas: a stream in good state over known contents *)

(** [at_ d p j]: a stream in good state over [d], cursor at [p]. *)
Definition at_ (d : bytes) (p : Z) (j : list bytes) : stream := Stream d p false false false false j.

Section at_lemmas.
Context (d : bytes) (j : list bytes).

Lemma tell_at p : tell (at_ d p j) = p.
Proof. reflexivity. Qed.

Lemma seek_at p q : 0 ≤ q → seek q (at_ d p j) = at_ d q j.
Proof. intros. unfold seek. simpl. case_bool_decide; [lia|done]. Qed.

Lemma seek_end_at p : seek_end (at_ d p j) = at_ d (Z.of_nat (length d)) j.
Proof. reflexivity. Qed.

Lemma sync_at p : sync (at_ d p j) = at_ d p j.
Proof. reflexivity. Qed.

Lemma emit_at_mid a old b new p :
  d = a ++ old ++ b → p = Z.of_nat (length a) → length old = length new →
  emit new (at_ d p j) =
  at_ (a ++ new ++ b) (p + Z.of_nat (length new)) (j ++ [a ++ new ++ b]).
Proof.
  intros -> -> Hlen. unfold emit. simpl. rewrite overwrite_mid by (try lia; done). done.
Qed.

Lemma emit_at_end new p :
  p = Z.of_nat (length d) →
  emit new (at_ d p j) = at_ (d ++ new) (p + Z.of_nat (length new)) (j ++ [d ++ new]).
Proof. intros ->. unfold emit. simpl. rewrite overwrite_end by lia. done. Qed.

Lemma rest_at a b p : d = a ++ b → p = Z.of_nat (length a) → rest (at_ d p j) = b.
Proof. intros -> ->. unfold rest. simpl. rewrite Nat2Z.id. apply drop_app_length. Qed.

Lemma getline_at a l b p :
  d = a ++ l ++ nl :: b → p = Z.of_nat (length a) → Forall (λ c, not_nl c = true) l →
  getline (at_ d p j) = (at_ d (p + Z.of_nat (S (length l))) j, l).
Proof.
  intros Hd Hp Hl. unfold getline. simpl negb. cbn iota.
  rewrite (rest_at a (l ++ nl :: b)) by done. rewrite span_app_stop; done.
Qed.

Lemma get_char_at a c b p :
  d = a ++ c :: b → p = Z.of_nat (length a) →
  get_char (at_ d p j) = (at_ d (p + 1) j, Some c).
Proof. intros Hd Hp. unfold get_char. simpl negb. cbn iota. by rewrite (rest_at a (c :: b)). Qed.

Lemma read_at a m b p n :
  d = a ++ m ++ b → p = Z.of_nat (length a) → n = length m →
  read n (at_ d p j) = (at_ d (p + Z.of_nat n) j, m).
Proof.
  intros Hd Hp ->. unfold read. simpl negb. cbn iota. rewrite (rest_at a (m ++ b)) by done.
  rewrite take_app_length. by case_bool_decide.
Qed.

(** Reading the digits [s], after blanks [ws], up to a character that is
    not a digit. *)
Lemma extract_num_at base lo hi a ws s c b p :
  d = a ++ ws ++ s ++ c :: b → p = Z.of_nat (length a) →
  Forall (λ c, is_space c = true) ws →
  Forall (λ c, is_digit base c = true) s → s ≠ [] → is_digit base c = false →
  lo ≤ 0 → 0 ≤ digits_value base s ≤ hi → lo ≤ digits_value base s →
  extract_num base lo hi (at_ d p j) =
  (at_ d (p + Z.of_nat (length ws + length s)) j, Some (digits_value base s)).
Proof.
  intros Hd Hp Hws Hs Hne Hc Hlo Hhi Hlo'. unfold extract_num. simpl negb. cbn iota.
  rewrite (rest_at a (ws ++ s ++ c :: b)) by done.
  destruct s as [|x s]; [done|].
  assert (is_digit base x = true) as Hx by by inversion Hs.
  cbn [app]. rewrite span_app_stop by eauto using is_digit_not_space.
  replace (match x :: s ++ c :: b with
           | "-"%char :: r => (true, r) | "+"%char :: r => (false, r) | _ => (false, x :: s ++ c :: b) end)
    with (false, (x :: s) ++ c :: b).
  2: { destruct x as [[] [] [] [] [] [] [] []]; try done; vm_compute in Hx; destruct base as [|[|[]|]|]; done. }
  rewrite span_app_stop by done. simpl.
  case_bool_decide as Hb; [|exfalso; apply Hb; lia].
  unfold at_, advance, set_pos. simpl. f_equal. f_equal.
  rewrite !length_app. simpl. rewrite length_app. simpl. lia.
Qed.

Lemma extract_char_at a ws c b p :
  d = a ++ ws ++ c :: b → p = Z.of_nat (length a) →
  Forall (λ c, is_space c = true) ws → is_space c = false →
  extract_char (at_ d p j) = (at_ d (p + Z.of_nat (S (length ws))) j, Some c).
Proof.
  intros Hd Hp Hws Hc. unfold extract_char. simpl negb. cbn iota.
  rewrite (rest_at a (ws ++ c :: b)) by done. by rewrite span_app_stop.
Qed.

Lemma ftruncate_at a b p n :
  d = a ++ b → n = Z.of_nat (length a) →
  ftruncate n (at_ d p j) = (at_ a p (j ++ [a]), true).
Proof.
  intros -> ->. unfold ftruncate. simpl. case_bool_decide; [lia|].
  unfold resize. rewrite Nat2Z.id, length_app.
  replace (length a - _)%nat with 0%nat by lia. simpl. rewrite app_nil_r, take_app_length. done.
Qed.
End at_lemmas.

(** A number field holds no line end. *)
Lemma fmt_not_nl base w n :
  2 ≤ base ≤ 16 → 0 ≤ n < base ^ Z.of_nat w → (0 < w)%nat → Forall (λ c, not_nl c = true) (fmt base w n).
Proof.
  intros Hb Hn Hw. eapply Forall_impl; [by apply fmt_digits|].
  intros c Hc. unfold not_nl. case_bool_decide as Hnl; [|done]. subst. by rewrite nl_not_digit in Hc.
Qed.
#[export] Hint Resolve fmt_not_nl : wms.
