(* ===== verification/FileContainer.v ===== *)
(** * jobsubmission/src/common/file_container.cpp: the on-disk list

    [FileContainer] keeps a doubly linked list of strings in one file, the
    request queue of the job controller and of the log monitor.  The file
    starts with a header of fixed-width text fields (time stamp, number of
    elements, status character, four iterator backups, two limits backups,
    the list limits and the limits of the removed list); records follow,
    never moved once written.  Every update is preceded by the backup of
    what it overwrites and tagged with a status character, from which
    [recover_data] undoes an interrupted update.

    The definitions follow the source function by function.  [answer]
    values are the [Fail] outcomes of the monad; reference parameters are
    results.  Not modelled: the debug call stack and the messages of
    [logMessage], which write to other files. *)

From S2P Require Import Prelude Digits Stream.

(** ** Error codes (file_container.h, [FileContainerError::iostatus_t]) *)
Inductive iostatus_t :=
| unknown | all_good | cannot_open | file_closed | syntax_error | io_error
| data_error | unavailable_position | container_modified | try_recover
| unrecoverable_data | decrementing_from_zero | not_removing_last
| cannot_convert_from_string | cannot_convert_to_string | _last_error.

#[export] Instance iostatus_eqdec : EqDecision iostatus_t.
Proof. solve_decision. Defined.

(** [static_cast<int>] of a code. *)
Definition iostatus_int (e : iostatus_t) : Z :=
  match e with
  | unknown => -1 | all_good => 0 | cannot_open => 1 | file_closed => 2 | syntax_error => 3
  | io_error => 4 | data_error => 5 | unavailable_position => 6 | container_modified => 7
  | try_recover => 8 | unrecoverable_data => 9 | decrementing_from_zero => 10
  | not_removing_last => 11 | cannot_convert_from_string => 12 | cannot_convert_to_string => 13
  | _last_error => 14
  end.

Definition fce_s_errors : list bytes := of_string <$>
  ["Unknown status"; "OK"; "Cannot open file"; "File unavailable for operations";
   "Syntax error on file"; "Input/Output error"; "Data format error";
   "Position not currently available"; "Container modified since last access";
   "Data recovering in progress"; "File contains unrecoverable data";
   "Trying to decrementing a zero sized file."; "Not removing last pointer.";
   "Cannot convert string to given data type."; "Cannot convert data from string type."]%string.

(** [None] is an access past the end of the table. *)
Definition code_to_string (code : iostatus_t) : option bytes :=
  let istatus := iostatus_int code in
  let istatus := if bool_decide (istatus ≤ iostatus_int unknown ∨ iostatus_int _last_error ≤ istatus)
                 then iostatus_int unknown else istatus in
  fce_s_errors !! Z.to_nat (istatus + 1).

(** The exception object and its message. *)
Record FileContainerError := FCError {
  fce_code : iostatus_t;
  fce_func : bytes;
  fce_file : bytes;
  fce_line : Z
}.

Definition string_error (e : FileContainerError) : option bytes :=
  let code := iostatus_int (fce_code e) + 1 in
  let code := if bool_decide (code < 0 ∨ iostatus_int _last_error + 1 ≤ code) then 0 else code in
  answer ← fce_s_errors !! Z.to_nat code;
  Some (answer ++
    (if bool_decide (length (fce_file e) ≠ 0%nat) then of_string " " ++ ["034"%char] ++ fce_file e ++ ["034"%char] else []) ++
    (if bool_decide (length (fce_func e) ≠ 0%nat) then
       of_string " (" ++ fce_func e ++
       (if bool_decide (0 < fce_line e) then of_string "[" ++ fmt 10 0 (fce_line e) ++ of_string "]" else []) ++
       of_string ")"
     else [])).

(** ** Status characters (file_container.h, [FileContainer::filestatus_t]) *)
Inductive filestatus_t :=
| empty | opened | closed
| ae_iterator | ae_limits | ae_writing | ae_written
| ab_iterator | ab_writing | ab_written | ab_last | ab_limits
| am_iterator1 | am_iterator2 | am_writing | am_written | am_last
| rd_limits | rd_iterator | rd_iterator2 | rd_iterator3 | rd_mark1 | rd_mark2
| ft_begin | ft_end | ad_empty | rd_empty
| fs_y. (* 'y': let through by the regular expression, no enumerator *)

#[export] Instance filestatus_eqdec : EqDecision filestatus_t.
Proof. solve_decision. Defined.

Definition all_filestatus : list filestatus_t :=
  [empty; opened; closed; ae_iterator; ae_limits; ae_writing; ae_written;
   ab_iterator; ab_writing; ab_written; ab_last; ab_limits;
   am_iterator1; am_iterator2; am_writing; am_written; am_last;
   rd_limits; rd_iterator; rd_iterator2; rd_iterator3; rd_mark1; rd_mark2;
   ft_begin; ft_end; ad_empty; rd_empty; fs_y].

(** The character of a status: [' '], ['1'], ['0'], then ['a'], ['b'], ... *)
Definition fs_char (s : filestatus_t) : ascii :=
  match s with
  | empty => " " | opened => "1" | closed => "0"
  | ae_iterator => "a" | ae_limits => "b" | ae_writing => "c" | ae_written => "d"
  | ab_iterator => "e" | ab_writing => "f" | ab_written => "g" | ab_last => "h" | ab_limits => "i"
  | am_iterator1 => "j" | am_iterator2 => "k" | am_writing => "l" | am_written => "m" | am_last => "n"
  | rd_limits => "o" | rd_iterator => "p" | rd_iterator2 => "q" | rd_iterator3 => "r"
  | rd_mark1 => "s" | rd_mark2 => "t"
  | ft_begin => "u" | ft_end => "v" | ad_empty => "w" | rd_empty => "x" | fs_y => "y"
  end%char.

Definition fs_of_char (c : ascii) : option filestatus_t :=
  list_find (λ s, fs_char s = c) all_filestatus ≫= λ p, Some p.2.

(** [static_cast<filestatus_t>(static_cast<int>(status) + 1)] *)
Definition fs_succ (s : filestatus_t) : filestatus_t :=
  default s (fs_of_char (ascii_of_nat (S (nat_of_ascii (fs_char s))))).

(** ** Static sizes *)

Definition BUFSIZ : Z := 8192.
Definition un_dead : Z := 0xdead.
Definition un_beef : Z := 0xbeef.

(** Digits in base [basen] of the largest unsigned value of [size] bytes:
    the least [n] with [basen^n >= 2^(8 size) - 1]. *)
Definition integer_size (size : nat) (basen : Z) : nat :=
  let largest := 2 ^ (8 * Z.of_nat size) - 1 in
  (fix go (fuel n : nat) : nat :=
     match fuel with
     | O => n
     | S f => if bool_decide (largest ≤ basen ^ Z.of_nat n) then n else go f (S n)
     end) 64%nat 0%nat.

(** [time_t], [streamoff] and [size_t] are 8 bytes wide, [unsigned short] 2. *)
Definition ts_s_twidth : nat := Eval vm_compute in integer_size 8 10.
Definition ts_s_swidth : nat := Eval vm_compute in integer_size 2 10.
Definition fi_s_width : nat := Eval vm_compute in integer_size 8 16.

Definition TimeStamp_size : nat := Eval vm_compute in (ts_s_swidth + ts_s_twidth + 1)%nat.

Definition fc_s_iteratorBackupNumber : nat := 4.
Definition fc_s_stampSize : Z := Eval vm_compute in Z.of_nat TimeStamp_size + 1.
Definition fc_s_sizeSize : nat := Eval vm_compute in (integer_size 8 10 + 3)%nat.
Definition fc_s_numberSize : nat := Eval vm_compute in (integer_size 8 10 + 1)%nat.
Definition fc_s_statusPosition : Z := Eval vm_compute in fc_s_stampSize + Z.of_nat fc_s_numberSize + 1.
Definition fc_s_iteratorBackupSize : Z := Eval vm_compute in
  Z.of_nat ((fc_s_iteratorBackupNumber * 3) * fi_s_width + fc_s_iteratorBackupNumber * 3).
Definition fc_s_limitsBackupSize : Z := Eval vm_compute in Z.of_nat (2 * fi_s_width + 2).
Definition fc_s_listBackupSize : Z := Eval vm_compute in fc_s_limitsBackupSize.
Definition fc_s_backupSize : Z := Eval vm_compute in
  fc_s_iteratorBackupSize + fc_s_limitsBackupSize + fc_s_listBackupSize + 3.
Definition fc_s_headerSize : Z := Eval vm_compute in
  fc_s_stampSize + Z.of_nat fc_s_numberSize + fc_s_backupSize + Z.of_nat (4 * fi_s_width) + 4.
Definition fc_s_positionPosition : Z := Eval vm_compute in
  fc_s_stampSize + Z.of_nat fc_s_numberSize + fc_s_backupSize.
Definition fc_s_listPosition : Z := Eval vm_compute in fc_s_positionPosition + fc_s_limitsBackupSize.

Definition calculateDataSize (size : Z) : Z :=
  Z.of_nat (4 * fi_s_width) + Z.of_nat fc_s_sizeSize + size + 8.

(** ** Machine integers *)
Definition size_t (z : Z) : Z := z `mod` 2 ^ 64.
Definition ushort (z : Z) : Z := z `mod` 2 ^ 16.
Definition int32 (z : Z) : Z := (z + 2 ^ 31) `mod` 2 ^ 32 - 2 ^ 31.
Definition off_max : Z := 2 ^ 63 - 1.

(** ** Regular expressions

    The expressions of the source are sequences of character classes; a
    class and the next one are disjoint, so the greedy match is the match. *)
Definition re_end (s : bytes) : bool := bool_decide (s = []).
Definition re_set (p : ascii → bool) (k : bytes → bool) (s : bytes) : bool :=
  match s with c :: r => if p c then k r else false | [] => false end.
Definition re_plus (p : ascii → bool) (k : bytes → bool) (s : bytes) : bool :=
  match span p s with
  | ([], _) => false
  | (_, r) => k r
  end.
Definition re_star (p : ascii → bool) (k : bytes → bool) (s : bytes) : bool := k (span p s).2.

Definition is_sp (c : ascii) : bool := bool_decide (c = sp).
(** ["^\\d+ +\\d+$"] *)
Definition stamp_re : bytes → bool :=
  re_plus (is_digit 10) (re_plus is_sp (re_plus (is_digit 10) re_end)).
(** ["^\\s*[0-9a-fA-F]+ +[0-9a-fA-F]+"] *)
Definition iterator_re : bytes → bool :=
  re_star is_space (re_plus (is_digit 16) (re_plus is_sp (re_plus (is_digit 16) re_end))).
(** ["^[0-9a-fA-F]+ [0-9a-fA-F]+ [0-9a-fA-F]+$"] *)
Definition backup_re : bytes → bool :=
  re_plus (is_digit 16) (re_set is_sp (re_plus (is_digit 16) (re_set is_sp (re_plus (is_digit 16) re_end)))).
(** ["^[0-9]+ +(g|i)$"] *)
Definition size_re : bytes → bool :=
  re_plus (is_digit 10) (re_plus is_sp (re_set (λ c, bool_decide (c = "g"%char ∨ c = "i"%char)) re_end)).
(** ["^[ 01a-y]\n$"] *)
Definition status_re (s : bytes) : option filestatus_t :=
  match s with
  | [c; e] => if bool_decide (e = nl) then fs_of_char c else None
  | _ => None
  end.

(** ** [FileIterator] *)
Record FileIterator := FIterator {
  fi_good : bool;
  fi_prev : Z;
  fi_next : Z;
  fi_current : Z
}.

Definition mkIterator (prev next current : Z) : FileIterator := FIterator true prev next current.
Definition nullIterator : FileIterator := mkIterator 0 0 0.

Definition set_prev (p : Z) (it : FileIterator) := FIterator (fi_good it) p (fi_next it) (fi_current it).
Definition set_next (n : Z) (it : FileIterator) := FIterator (fi_good it) (fi_prev it) n (fi_current it).
Definition set_current (c : Z) (it : FileIterator) := FIterator (fi_good it) (fi_prev it) (fi_next it) c.
Definition reset (prev next current : Z) (it : FileIterator) := FIterator (fi_good it) prev next current.

(** [os << hex << setfill('0') << setw(w) << off]: a negative offset is
    printed as its 64-bit two's complement. *)
Definition hexoff (z : Z) : bytes := fmt 16 fi_s_width (z `mod` 2 ^ 64).

Definition FileIterator_write (it : FileIterator) : bytes :=
  hexoff (fi_prev it) ++ [sp] ++ hexoff (fi_next it).

Definition extract_off (old : Z) (st : stream) : stream * Z :=
  let '(st, v) := extract_num 16 (- off_max - 1) off_max st in (st, default old v).

Definition FileIterator_read (it : FileIterator) (st : stream) : stream * FileIterator :=
  let position := tell st in
  let '(st, buffer) := getline st in
  if iterator_re buffer then
    let st := seek position st in
    let '(st, p) := extract_off (fi_prev it) st in
    let '(st, n) := extract_off (fi_next it) st in
    (st, FIterator true p n (fi_current it))
  else (st, FIterator false (fi_prev it) (fi_next it) (fi_current it)).

(** ** [TimeStamp] *)
Record TimeStamp := TStamp {
  ts_good : bool;
  ts_epoch : Z;
  ts_counter : Z
}.

Definition mkStamp (now : Z) : TimeStamp := TStamp true now 0.

Definition ts_gtb (a b : TimeStamp) : bool :=
  bool_decide (ts_epoch b < ts_epoch a ∨ ts_epoch a = ts_epoch b ∧ ts_counter b < ts_counter a).

Definition TimeStamp_write (t : TimeStamp) : bytes :=
  fmt 10 ts_s_twidth (ts_epoch t) ++ [sp] ++ fmt 10 ts_s_swidth (ts_counter t).

Definition TimeStamp_read (t : TimeStamp) (st : stream) : stream * TimeStamp :=
  let position := tell st in
  let '(st, buffer) := getline st in
  if stamp_re buffer then
    let st := seek position st in
    let '(st, e) := extract_num 10 (- off_max - 1) off_max st in
    let '(st, c) := extract_num 10 0 (2 ^ 16 - 1) st in
    (st, TStamp true (default (ts_epoch t) e) (default (ts_counter t) c))
  else (st, TStamp false (ts_epoch t) (ts_counter t)).

(** [update_stamp] at time [now], against the stamp [ts] found in the file. *)
Definition update_stamp (now : Z) (this ts : TimeStamp) : TimeStamp :=
  let '(e, c) := if bool_decide (ts_epoch this = now)
                 then (ts_epoch this, ushort (ts_counter this + 1)) else (now, 0) in
  let '(e, c) := if bool_decide (e < ts_epoch ts) then (ts_epoch ts, ushort (ts_counter ts + 1))
                 else if bool_decide (e = ts_epoch ts ∧ c ≤ ts_counter ts)
                 then (e, ushort (ts_counter ts + 1)) else (e, c) in
  TStamp (ts_good this) e c.

(** ** The container object *)
Record FileContainer := Container {
  fc_initialized : bool;
  fc_size : Z;
  fc_stream : option stream;
  fc_stamp : TimeStamp;
  fc_filename : bytes;
  fc_limits : FileIterator;
  fc_removed : FileIterator;
  fc_now : Z;                 (* what [time(NULL)] returns *)
  fc_bak : option bytes       (* contents of the last backup file *)
}.

Abbreviation FC := (M FileContainer iostatus_t).

Definition upd_initialized (b : bool) (c : FileContainer) : FileContainer :=
  Container b (fc_size c) (fc_stream c) (fc_stamp c) (fc_filename c) (fc_limits c) (fc_removed c) (fc_now c) (fc_bak c).
Definition upd_size (n : Z) (c : FileContainer) : FileContainer :=
  Container (fc_initialized c) n (fc_stream c) (fc_stamp c) (fc_filename c) (fc_limits c) (fc_removed c) (fc_now c) (fc_bak c).
Definition upd_stream (s : option stream) (c : FileContainer) : FileContainer :=
  Container (fc_initialized c) (fc_size c) s (fc_stamp c) (fc_filename c) (fc_limits c) (fc_removed c) (fc_now c) (fc_bak c).
Definition upd_stamp (t : TimeStamp) (c : FileContainer) : FileContainer :=
  Container (fc_initialized c) (fc_size c) (fc_stream c) t (fc_filename c) (fc_limits c) (fc_removed c) (fc_now c) (fc_bak c).
Definition upd_filename (f : bytes) (c : FileContainer) : FileContainer :=
  Container (fc_initialized c) (fc_size c) (fc_stream c) (fc_stamp c) f (fc_limits c) (fc_removed c) (fc_now c) (fc_bak c).
Definition upd_limits (l : FileIterator) (c : FileContainer) : FileContainer :=
  Container (fc_initialized c) (fc_size c) (fc_stream c) (fc_stamp c) (fc_filename c) l (fc_removed c) (fc_now c) (fc_bak c).
Definition upd_removed (r : FileIterator) (c : FileContainer) : FileContainer :=
  Container (fc_initialized c) (fc_size c) (fc_stream c) (fc_stamp c) (fc_filename c) (fc_limits c) r (fc_now c) (fc_bak c).
Definition upd_bak (b : option bytes) (c : FileContainer) : FileContainer :=
  Container (fc_initialized c) (fc_size c) (fc_stream c) (fc_stamp c) (fc_filename c) (fc_limits c) (fc_removed c) (fc_now c) b.

(** *** Access to [*fc_stream]; a null pointer leaves the program stuck. *)
Definition with_stream {A} (f : stream → stream * A) : FC A := λ c,
  match fc_stream c with
  | None => (c, Stuck)
  | Some st => let '(st', a) := f st in (upd_stream (Some st') c, Ret a)
  end.
Definition on_stream (f : stream → stream) : FC unit := with_stream (λ st, (f st, tt)).
Definition ask {A} (f : stream → A) : FC A := with_stream (λ st, (st, f st)).
Definition field {A} (f : FileContainer → A) : FC A := λ c, (c, Ret (f c)).

(** [if (fc_stream->bad()) answer = e;] *)
Definition check_bad (e : iostatus_t) : FC unit :=
  b ← ask bad; if (b : bool) then fail e else mret tt.

(** The status of a call as a value, for the places where the code looks at it. *)
Definition attempt {A} (m : FC A) : FC (A + iostatus_t) :=
  catch (a ← m; mret (inl a)) (λ e, mret (inr e)).

Definition getEnd : FC Z := on_stream seek_end;; ask tell.
Definition getBegin : FC Z := field (λ c, fi_prev (fc_limits c)).

(** ** Status, size, backups, stamp, limits *)

Definition writeFileStatus (status : filestatus_t) : FC unit :=
  old ← ask tell;
  on_stream sync;;
  check_bad io_error;;
  on_stream (seek fc_s_statusPosition);;
  on_stream (emit [fs_char status; nl]);;
  on_stream (seek old);;
  on_stream sync;;
  check_bad io_error.

Definition readFileStatus : FC filestatus_t :=
  old ← ask tell;
  on_stream sync;;
  on_stream (seek fc_s_statusPosition);;
  sbuf ← with_stream (read 2);
  on_stream (seek old);;
  check_bad io_error;;
  match status_re sbuf with
  | Some s => mret s
  | None => fail syntax_error
  end.

Definition readSize : FC unit :=
  old ← ask tell;
  modify (upd_size 0);;
  on_stream (seek fc_s_stampSize);;
  v ← with_stream (extract_num 10 0 (2 ^ 64 - 1));
  modify (upd_size (default 0 v));;
  on_stream (seek old);;
  check_bad io_error.

Definition writeAndSetSize (size : Z) : FC unit :=
  let size := size_t size in
  old ← ask tell;
  on_stream (seek fc_s_stampSize);;
  on_stream (emit (fmt 10 fc_s_numberSize size ++ [nl]));;
  on_stream (seek old);;
  check_bad io_error;;
  modify (upd_size size).

Definition backup_line (pointer : Z) (it : FileIterator) : bytes :=
  hexoff pointer ++ [sp] ++ FileIterator_write it ++ [nl].

Definition createEmptyBackup (state : filestatus_t) : FC unit :=
  old ← ask tell;
  on_stream (seek (fc_s_statusPosition + 2));;
  on_stream (emit (concat (replicate fc_s_iteratorBackupNumber (backup_line 0 nullIterator))
                   ++ FileIterator_write nullIterator ++ [nl] ++ FileIterator_write nullIterator ++ [nl]));;
  on_stream (seek old);;
  check_bad io_error;;
  writeFileStatus state.

Definition iteratorBackupPosition (what : nat) : Z :=
  fc_s_statusPosition + 2
  + Z.of_nat (what `mod` fc_s_iteratorBackupNumber) * Z.of_nat (3 * fi_s_width + 3).

Definition writeIteratorBackup (what : nat) (it : FileIterator) (status : filestatus_t) : FC unit :=
  old ← ask tell;
  on_stream (seek (iteratorBackupPosition what));;
  on_stream (emit (backup_line (fi_current it) it));;
  on_stream (seek old);;
  check_bad io_error;;
  writeFileStatus status.

Definition readIteratorBackup (what : nat) (it : FileIterator) : FC FileIterator :=
  old ← ask tell;
  on_stream (seek (iteratorBackupPosition what));;
  buffer ← with_stream getline;
  on_stream (seek (iteratorBackupPosition what));;
  g ← ask good;
  if (g : bool) then
    if backup_re buffer then
      pointer ← with_stream (extract_off 0);
      it ← with_stream (FileIterator_read it);
      on_stream (seek old);;
      g ← ask good;
      if (g : bool) then mret (set_current pointer it) else fail io_error
    else fail syntax_error
  else fail io_error.

Definition limitsBackupPosition (isList : bool) : Z :=
  fc_s_statusPosition + fc_s_iteratorBackupSize + 2 + (if isList then fc_s_limitsBackupSize else 0).

Definition writeLimitsBackup (status : filestatus_t) (limits : FileIterator) (isList : bool) : FC unit :=
  old ← ask tell;
  on_stream (seek (limitsBackupPosition isList));;
  on_stream (emit (FileIterator_write limits ++ [nl]));;
  on_stream (seek old);;
  check_bad io_error;;
  writeFileStatus status.

Definition readLimitsBackup (limits : FileIterator) (isList : bool) : FC FileIterator :=
  old ← ask tell;
  on_stream (seek (limitsBackupPosition isList));;
  limits ← with_stream (FileIterator_read limits);
  on_stream (seek old);;
  check_bad io_error;;
  if fi_good limits then mret limits else fail syntax_error.

Definition writeStamp : FC unit :=
  stamp ← field fc_stamp;
  on_stream (seek 0);;
  on_stream (emit (TimeStamp_write stamp ++ [nl]));;
  on_stream sync;;
  check_bad file_closed.

Definition readStamp : FC unit :=
  stamp ← field fc_stamp;
  on_stream sync;;
  on_stream (seek 0);;
  stamp ← with_stream (TimeStamp_read stamp);
  modify (upd_stamp stamp);;
  check_bad file_closed.

Definition initialPosition (isList : bool) : Z :=
  if isList then fc_s_listPosition else fc_s_positionPosition.

Definition writeInitialPosition (position : FileIterator) (isList : bool) : FC unit :=
  on_stream sync;;
  on_stream (seek (initialPosition isList));;
  on_stream (emit (FileIterator_write position ++ [nl]));;
  check_bad io_error.

Definition readInitialPosition (limits : FileIterator) (isList : bool) : FC FileIterator :=
  on_stream sync;;
  on_stream (seek (initialPosition isList));;
  limits ← with_stream (FileIterator_read limits);
  if fi_good limits then check_bad io_error;; mret limits else fail syntax_error.

(** [readInitialPosition(this->fc_limits)] and [(this->fc_removed, true)]. *)
Definition loadLimits : FC unit :=
  l ← field fc_limits; l ← readInitialPosition l false; modify (upd_limits l).
Definition loadRemoved : FC unit :=
  l ← field fc_removed; l ← readInitialPosition l true; modify (upd_removed l).

Definition updateTimeStamp : FC unit :=
  now ← field fc_now;
  on_stream sync;;
  on_stream (seek 0);;
  stamp ← with_stream (TimeStamp_read (mkStamp now));
  if ts_good stamp then
    mine ← field fc_stamp;
    modify (upd_stamp (update_stamp now mine stamp));;
    mine ← field fc_stamp;
    on_stream (seek 0);;
    on_stream (emit (TimeStamp_write mine ++ [nl]));;
    check_bad file_closed
  else fail syntax_error.

Definition checkStamp : FC bool :=
  now ← field fc_now;
  on_stream sync;;
  on_stream (seek 0);;
  stamp ← with_stream (TimeStamp_read (mkStamp now));
  if ts_good stamp then
    g ← ask good;
    mine ← field fc_stamp;
    if (g : bool) then mret (ts_gtb stamp mine) else fail file_closed
  else fail syntax_error.

Definition syncData (stamp : bool) : FC unit :=
  loadLimits;; loadRemoved;; readSize;;
  if stamp then readStamp else mret tt.

(** ** Creation and truncation *)

Definition createEmptyFile : FC unit :=
  now ← field fc_now;
  modify (upd_stamp (mkStamp now));;
  writeStamp;;
  writeAndSetSize 0;;
  writeFileStatus opened;;
  l ← field fc_limits;
  r ← field fc_removed;
  modify (upd_limits (reset fc_s_headerSize fc_s_headerSize 0 l));;
  modify (upd_removed (reset un_dead un_beef 0 r));;
  createEmptyBackup empty;;
  l ← field fc_limits;
  writeInitialPosition l false;;
  r ← field fc_removed;
  writeInitialPosition r true;;
  writeFileStatus closed.

Definition truncateFile (size : Z) : FC unit :=
  on_stream (seek 0);; on_stream (seek 0);;
  g ← ask good;
  if (g : bool) then
    ok ← with_stream (ftruncate size);
    (if (ok : bool) then (if bool_decide (size = 0) then createEmptyFile else mret tt)
     else fail io_error);;
    writeFileStatus ft_end
  else fail io_error.

Definition eraseFile (size : Z) : FC unit :=
  writeIteratorBackup 0 (mkIterator size size size) ft_begin;;
  truncateFile size.

(** The disk, as [open] finds it: the contents of the file if it exists,
    and whether the process can open it for reading and writing. *)
Definition openFile (contents : bytes) (permitted broken : bool) : FC unit :=
  if permitted then modify (upd_stream (Some (open_stream contents broken)))
  else modify (upd_stream None);; fail cannot_open.

Definition createFile (permitted broken : bool) : FC unit :=
  if permitted then modify (upd_stream (Some (open_stream [] broken)));; createEmptyFile
  else modify (upd_stream None);; fail cannot_open.

(** ** Iterators and records in the file *)

Definition readIteratorHere (it : FileIterator) : FC FileIterator :=
  here ← ask tell;
  it ← with_stream (FileIterator_read it);
  if fi_good it then
    c ← with_stream get_char;
    if bool_decide (c = Some nl) then
      g ← ask good;
      if (g : bool) then mret (set_current here it) else fail io_error
    else fail syntax_error
  else fail syntax_error.

Definition readSizeAndState : FC (Z * ascii) :=
  position ← ask tell;
  buffer ← with_stream getline;
  if size_re buffer then
    on_stream (seek position);;
    size ← with_stream (extract_num 10 0 (2 ^ 64 - 1));
    state ← with_stream extract_char;
    check_bad io_error;;
    c ← with_stream get_char;
    if bool_decide (c = Some nl) then mret (default 0 size, default "000"%char state)
    else fail syntax_error
  else fail syntax_error.

Definition readIterator (where_ : Z) (it : FileIterator) (fileorder : bool) : FC FileIterator :=
  end_ ← getEnd;
  if bool_decide (fc_s_headerSize ≤ where_ < end_) then
    on_stream (seek where_);;
    it ← readIteratorHere it;
    if fileorder then
      sz ← readSizeAndState;
      here ← ask tell;
      on_stream (seek (here + sz.1 + 1));;
      it ← readIteratorHere it;
      mret (set_current where_ it)
    else mret it
  else if bool_decide (where_ = end_) then mret (reset 0 0 end_ it)
  else if bool_decide (where_ = 0) then mret (reset 0 0 0 it)
  else fail unavailable_position.

Definition writeIterator (where_ : Z) (it : FileIterator) : FC unit :=
  ok ← (if bool_decide (fc_s_headerSize ≤ where_) then mret true
        else end_ ← getEnd; mret (bool_decide (where_ < end_)));
  if (ok : bool) then
    on_stream (seek where_);;
    on_stream (emit (FileIterator_write it ++ [nl]));;
    on_stream sync;;
    check_bad io_error
  else fail unavailable_position.

Definition resetNextOfLast (status : filestatus_t) : FC unit :=
  l ← field fc_limits;
  iter ← readIterator (fi_next l) nullIterator false;
  writeIteratorBackup 2 iter status;;
  end_ ← getEnd;
  writeIterator (fi_next l) (set_next end_ iter).

Definition size_line (size : Z) (state : ascii) : bytes :=
  fmt 10 fc_s_sizeSize (size_t size) ++ [sp; state; nl].

Definition writeDataHeader (it : FileIterator) (size : Z) (state : ascii) : FC unit :=
  on_stream (emit (FileIterator_write it ++ [nl]));;
  on_stream (emit (size_line size state));;
  check_bad io_error.

Definition writeDataHere (it lit : FileIterator) (data : bytes) (status : filestatus_t) : FC unit :=
  (if bool_decide (0 < length data)%nat then
     on_stream seek_end;;
     writeFileStatus status;;
     writeDataHeader it (Z.of_nat (length data)) "g"%char;;
     on_stream (emit (data ++ [nl] ++ FileIterator_write lit ++ [nl]));;
     on_stream sync;;
     check_bad io_error
   else fail data_error);;
  writeFileStatus (fs_succ status).

(** ** Adding *)

Definition addDataAtBegin (data : bytes) (it : FileIterator) (end_ : Z) : FC FileIterator :=
  next ← getBegin;
  l ← field fc_limits;
  let previous := fi_next l in
  let last := end_ + calculateDataSize (Z.of_nat (length data)) in
  temp ← readIterator next nullIterator false;
  writeIteratorBackup 0 temp ab_iterator;;
  let temp := set_prev end_ temp in
  writeIterator next temp;;
  writeLimitsBackup ab_limits l false;;
  modify (upd_limits (set_prev end_ l));;
  l ← field fc_limits;
  writeInitialPosition l false;;
  let it := reset 0 next end_ it in
  writeDataHere it (reset previous last end_ temp) data ab_writing;;
  resetNextOfLast ab_last;;
  mret it.

Definition addDataAtEnd (data : bytes) (it : FileIterator) (end_ : Z) : FC FileIterator :=
  let next := end_ + calculateDataSize (Z.of_nat (length data)) in
  l ← field fc_limits;
  let previous := fi_next l in
  pt ← (if bool_decide (fi_next l = end_) then mret (0, nullIterator)
        else
          temp ← readIterator (fi_next l) nullIterator false;
          writeIteratorBackup 0 temp ae_iterator;;
          writeIterator (fi_next l) (set_next end_ temp);;
          mret (fi_next l, set_next end_ temp));
  writeLimitsBackup ae_limits l false;;
  modify (upd_limits (set_next end_ l));;
  l ← field fc_limits;
  writeInitialPosition l false;;
  let it := reset pt.1 next end_ it in
  writeDataHere it (reset previous next end_ pt.2) data ae_writing;;
  mret it.

Definition addDataInMiddle (data : bytes) (it : FileIterator) (where_ end_ : Z) : FC FileIterator :=
  l ← field fc_limits;
  let previous := fi_next l in
  let last := end_ + calculateDataSize (Z.of_nat (length data)) in
  temp1 ← readIterator where_ nullIterator false;
  temp2 ← readIterator (fi_prev temp1) nullIterator false;
  let prev := fi_prev temp1 in
  writeIteratorBackup 0 temp1 am_iterator1;;
  writeIteratorBackup 1 temp2 am_iterator2;;
  writeIterator where_ (set_prev end_ temp1);;
  writeIterator (fi_current temp2) (set_next end_ temp2);;
  let it := reset prev where_ end_ it in
  writeDataHere it (reset previous last end_ temp1) data am_writing;;
  resetNextOfLast am_last;;
  mret it.

(** ** Reading records *)

(** The read loop takes a [BUFSIZ] slice at a time.  When nothing at all
    can be read the loop changes nothing and never ends: [stuck]. *)
Fixpoint read_slices (fuel : nat) (size : Z) (data : bytes) : FC bytes :=
  match fuel with
  | O => stuck
  | S f =>
      if bool_decide (size ≤ 0) then mret data
      else
        let toread := if bool_decide (BUFSIZ < size) then BUFSIZ else size in
        cbuf ← with_stream (read (Z.to_nat toread));
        let got := Z.of_nat (length cbuf) in
        if bool_decide (got = toread) then read_slices f (size - toread) (data ++ cbuf)
        else if bool_decide (0 < got) then mret (data ++ cbuf)
        else read_slices f size (data ++ cbuf)
  end.

(** Result: iterator, file-order iterator, data. *)
Definition readDataHere (it itList : FileIterator) (force : bool)
  : FC (FileIterator * FileIterator * bytes) :=
  it ← catch (readIteratorHere it) (λ _, fail syntax_error);
  sz ← readSizeAndState;
  let '(size, state) := sz in
  if bool_decide (state = "g"%char) || force && bool_decide (state = "i"%char) then
    n ← ask (λ st, length (f_data st));
    data ← read_slices (S (S n)) size [];
    c ← with_stream get_char;
    if bool_decide (c = Some nl) then
      itList ← with_stream (FileIterator_read itList);
      g ← ask good;
      if (g : bool) then
        if fi_good itList then mret (it, itList, data) else fail syntax_error
      else fail io_error
    else fail syntax_error
  else if bool_decide (state = "i"%char) then fail unavailable_position
  else fail syntax_error.

(** The copy loop of [backupFile] ends at the end of the file; then the
    error bits are cleared and the cursor goes back to the start.  Without a
    name the copy is [<filename>.bak], kept in [fc_bak]; a named copy is a
    file of its own that nothing reads. *)
Definition backupFile (backupfile : option bytes) : FC unit :=
  on_stream (seek 0);;
  g ← ask good;
  copied ← ask (λ st, rest st);
  (match backupfile with
   | None => modify (upd_bak (Some (if (g : bool) then copied else [])))
   | Some _ => mret tt
   end);;
  b ← ask (λ st, bad st && negb (f_eof st));
  (if (b : bool) then fail io_error else mret tt);;
  on_stream clear;;
  on_stream (seek 0);; on_stream (seek 0).

(** What the report of [dump_status] does to the object: it asks the stream
    for the end of the file. *)
Definition dump_status : FC unit := getEnd;; mret tt.

(** [throwErrorAndDumpFile] without its [throw]: the answers of the two
    calls are dropped.  The name of the copy carries the time and the
    process id; only the suffix is kept here. *)
Definition dumpFile : FC unit :=
  f ← field fc_filename;
  attempt (backupFile (Some (f ++ of_string ".wrong")));;
  attempt dump_status;;
  mret tt.
Definition throwErrorAndDumpFile {A} (status : iostatus_t) : FC A := dumpFile;; fail status.

(** ** Removing *)

Definition markDataAsErased (iter : FileIterator) (size : Z) (status : filestatus_t) : FC unit :=
  writeIteratorBackup 2 iter status;;
  on_stream (seek (fi_current iter));;
  g ← ask good;
  if (g : bool) then
    writeDataHeader iter size "i"%char;;
    on_stream sync;;
    check_bad io_error
  else fail io_error.

Definition markDataAsUnerased (it : FileIterator) : FC unit :=
  on_stream (seek (fi_current it + Z.of_nat (2 * fi_s_width + 2)));;
  g ← ask good;
  if (g : bool) then
    sz ← readSizeAndState;
    on_stream (seek (fi_current it));;
    g ← ask good;
    if (g : bool) then writeDataHeader it sz.1 "g"%char else fail io_error
  else fail io_error.

(** ** Consistency check

    The walk over the list.  An error of [readSizeAndState] does not end
    the loop: the next [readIterator] overwrites the answer.  [fuel] bounds
    the number of elements visited; a list that never reaches its last
    element or an invalid position is walked for ever. *)

(** The work at the last element, then [break]. *)
Definition cc_last (allowable current_max max_reached end_ detected : Z) (it : FileIterator) : FC unit :=
  size ← field fc_size;
  (if bool_decide (detected ≠ size) then
     let off := int32 (size_t (detected - size)) in
     if bool_decide ((0 < allowable ∧ 0 < off ∧ off ≤ allowable) ∨
                     (allowable < 0 ∧ off < 0 ∧ allowable ≤ off) ∨ allowable = 0)
     then writeAndSetSize detected else mret tt
   else mret tt);;
  if bool_decide (current_max ≤ max_reached ∧ max_reached < end_) then
    truncateFile max_reached;;
    end_ ← getEnd;
    if bool_decide (fi_next it ≠ end_) then writeIterator (fi_current it) (set_next end_ it) else mret tt
  else mret tt.

Fixpoint cc_loop (fuel : nat) (allowable end_ max_reached detected : Z) (it : FileIterator) : FC unit :=
  match fuel with
  | O => stuck
  | S f =>
      g ← ask good;
      r ← (if (g : bool) then attempt readSizeAndState else mret (inr io_error));
      limits ← field fc_limits;
      let go_on (max_reached detected : Z) : FC unit :=
        let next := fi_next it in
        if bool_decide (next < fc_s_headerSize ∨ end_ ≤ next) then fail unavailable_position
        else it' ← readIterator next it false; cc_loop f allowable end_ max_reached detected it' in
      match r with
      | inl (size, _) =>
          let current_max := fi_current it + calculateDataSize size in
          let max_reached := if bool_decide (max_reached < current_max) then current_max else max_reached in
          let detected := detected + 1 in
          if bool_decide (fi_current it = fi_next limits)
          then cc_last allowable current_max max_reached end_ detected it
          else go_on max_reached detected
      | inr _ => go_on max_reached detected
      end
  end.

Definition checkConsistency (allowable : Z) : FC unit :=
  end_ ← getEnd;
  readSize;;
  limits ← field fc_limits;
  it ← readIterator (fi_prev limits) nullIterator false;
  cc_loop (S (Z.to_nat end_)) allowable end_ 0 0 it.

Definition removeDataPointer (iter : FileIterator) (size : Z) : FC unit :=
  end_ ← getEnd;
  limits ← field fc_limits;
  n ← field fc_size;
  if bool_decide (fi_next iter = end_ ∧ fi_prev iter = 0) then
    (if bool_decide (n ≠ 1) then
       (* throwErrorAndDumpFile(..., false) *)
       dumpFile;;
       catch (checkConsistency (int32 (size_t (1 - n)))) (λ _, fail not_removing_last)
     else mret tt);;
    eraseFile fc_s_headerSize;;
    l ← field fc_limits;
    r ← field fc_removed;
    modify (upd_limits (reset fc_s_headerSize fc_s_headerSize 0 l));;
    modify (upd_removed (reset un_dead un_beef 0 r));;
    l ← field fc_limits;
    writeInitialPosition l false;;
    r ← field fc_removed;
    writeInitialPosition r true
  else if bool_decide (fi_next iter = end_) then
    writeLimitsBackup rd_limits limits false;;
    modify (upd_limits (set_next (fi_prev iter) limits));;
    l ← field fc_limits;
    writeInitialPosition l false;;
    temp ← readIterator (fi_prev iter) nullIterator false;
    writeIteratorBackup 0 temp rd_iterator;;
    writeIterator (fi_current temp) (set_next end_ temp);;
    markDataAsErased iter size rd_mark1
  else if bool_decide (fi_prev iter = 0) then
    writeLimitsBackup rd_limits limits false;;
    modify (upd_limits (set_prev (fi_next iter) limits));;
    l ← field fc_limits;
    writeInitialPosition l false;;
    temp ← readIterator (fi_next iter) nullIterator false;
    writeIteratorBackup 0 temp rd_iterator;;
    writeIterator (fi_current temp) (set_prev 0 temp);;
    markDataAsErased iter size rd_mark1
  else
    next ← readIterator (fi_next iter) nullIterator false;
    prev ← readIterator (fi_prev iter) nullIterator false;
    writeIteratorBackup 0 next rd_iterator2;;
    writeIteratorBackup 1 prev rd_iterator3;;
    let next := set_prev (fi_current prev) next in
    let prev := set_next (fi_current next) prev in
    writeIterator (fi_current next) next;;
    writeIterator (fi_current prev) prev;;
    markDataAsErased iter size rd_mark2.

(** ** Recovery: the switch of [recover_data], one definition per group of
    labels; a label falls through to the ones after it. *)

Definition restoreLimits : FC unit :=
  l ← field fc_limits;
  l ← readLimitsBackup l false;
  modify (upd_limits l);;
  writeInitialPosition l false.

Definition restoreIterator (what : nat) : FC unit :=
  temp ← readIteratorBackup what nullIterator;
  writeIterator (fi_current temp) temp.

Definition rec_empty : FC unit :=
  writeFileStatus closed;;
  syncData true;;
  n ← field fc_size;
  if bool_decide (n = 0) then
    b ← getBegin;
    e ← getEnd;
    if bool_decide (b ≠ e) then eraseFile 0;; modify (upd_size 0) else mret tt
  else mret tt.

Definition rec_ae_iterator : FC unit := restoreIterator 0;; checkConsistency 1.
Definition rec_ae_limits : FC unit := restoreLimits;; rec_ae_iterator.
Definition rec_ae_writing : FC unit :=
  limits ← readInitialPosition nullIterator false;
  truncateFile (fi_next limits);;
  rec_ae_limits.

Definition rec_ab_iterator : FC unit := restoreIterator 0;; checkConsistency 1.
Definition rec_ab_limits : FC unit := restoreLimits;; rec_ab_iterator.
Definition rec_ab_writing : FC unit :=
  limits ← readInitialPosition nullIterator false;
  truncateFile (fi_prev limits);;
  rec_ab_limits.
Definition rec_ab_last : FC unit := restoreIterator 2;; rec_ab_writing.

Definition rec_am_iterator1 : FC unit := restoreIterator 0;; checkConsistency 1.
Definition rec_am_iterator2 : FC unit := restoreIterator 1;; rec_am_iterator1.
Definition rec_am_writing : FC unit :=
  temp ← readIteratorBackup 0 nullIterator;
  temp ← readIterator (fi_current temp) temp false;
  truncateFile (fi_prev temp);;
  rec_am_iterator2.
Definition rec_am_last : FC unit := restoreIterator 2;; rec_am_writing.

Definition rec_ft_begin : FC unit :=
  temp ← readIteratorBackup 0 nullIterator;
  truncateFile (fi_current temp).

Definition rec_rd_limits : FC unit := restoreLimits;; checkConsistency (-1).
Definition rec_rd_iterator : FC unit := restoreIterator 0;; rec_rd_limits.
Definition rec_rd_mark1 : FC unit :=
  temp ← readIteratorBackup 2 nullIterator;
  markDataAsUnerased temp;;
  rec_rd_iterator.

Definition rec_rd_iterator2 : FC unit := restoreIterator 0;; checkConsistency (-1).
Definition rec_rd_iterator3 : FC unit := restoreIterator 1;; rec_rd_iterator2.
Definition rec_rd_mark2 : FC unit :=
  temp ← readIteratorBackup 2 nullIterator;
  markDataAsUnerased temp;;
  rec_rd_iterator3.

Definition recover_switch (status : filestatus_t) : FC unit :=
  match status with
  | closed => mret tt
  | empty => rec_empty
  | opened | ft_end => writeFileStatus closed
  | ae_writing | ae_written => rec_ae_writing
  | ae_limits => rec_ae_limits
  | ae_iterator => rec_ae_iterator
  | ab_last => rec_ab_last
  | ab_writing | ab_written => rec_ab_writing
  | ab_limits => rec_ab_limits
  | ab_iterator => rec_ab_iterator
  | am_last => rec_am_last
  | am_writing | am_written => rec_am_writing
  | am_iterator2 => rec_am_iterator2
  | am_iterator1 => rec_am_iterator1
  | ad_empty => checkConsistency 1
  | ft_begin => rec_ft_begin
  | rd_mark1 => rec_rd_mark1
  | rd_iterator => rec_rd_iterator
  | rd_limits => rec_rd_limits
  | rd_mark2 => rec_rd_mark2
  | rd_iterator3 => rec_rd_iterator3
  | rd_iterator2 => rec_rd_iterator2
  | rd_empty => checkConsistency (-1)
  | fs_y => fail unrecoverable_data
  end.

(** [recover_data(status, false)] *)
Definition recover_unchecked (status : filestatus_t) : FC unit :=
  backupFile None;;
  status ← (if bool_decide (status = closed) then readFileStatus else mret status);
  on_stream sync;;
  recover_switch status;;
  if bool_decide (status ≠ closed) then writeFileStatus closed else mret tt.

Definition initContainer : FC unit :=
  s ← field fc_stream;
  if match s with None => true | Some st => bad st end then fail file_closed
  else
    readStamp;;
    loadLimits;;
    loadRemoved;;
    readSize;;
    status ← readFileStatus;
    (if bool_decide (status ≠ closed) then recover_unchecked status else mret tt);;
    modify (upd_initialized true).

(** [fc_stream == NULL || fc_stream->bad()] *)
Definition stream_down (c : FileContainer) : bool :=
  match fc_stream c with None => true | Some st => bad st end.

(** [checkStream(false)] and [checkStreamAndStamp(false)]. *)
Definition checkStream_only : FC filestatus_t :=
  down ← field stream_down;
  if (down : bool) then fail file_closed else readFileStatus.
Definition check_modified : FC unit :=
  modified ← checkStamp;
  if (modified : bool) then fail container_modified else mret tt.

(** On [container_modified] go on with [h]; other errors are the answer. *)
Definition on_modified {A} (m : FC A) (h : FC A) : FC A :=
  catch m (λ e, if bool_decide (e = container_modified) then h else fail e).

(** [recover_data(status, true)] *)
Definition recover_data (status : filestatus_t) : FC unit :=
  init ← field fc_initialized;
  (if (init : bool) then on_modified (checkStream_only;; check_modified) (syncData true)
   else initContainer);;
  recover_unchecked status.

(** [checkStream(true)] and [checkStreamAndStamp(true)]. *)
Definition checkStream : FC unit :=
  status ← checkStream_only;
  if bool_decide (status ≠ closed) then recover_data status else mret tt.
Definition checkStreamAndStamp : FC unit := checkStream;; check_modified.

(** Every public operation starts here: an object that has not read the
    file yet does so; otherwise the file is checked and, when another
    process has changed it since, [resync] is run. *)
Definition prologue (resync : FC unit) : FC unit :=
  init ← field fc_initialized;
  if (init : bool) then on_modified checkStreamAndStamp resync else initContainer.

(** ** Public operations *)

Definition close : FC unit :=
  s ← field fc_stream;
  (match s with
   | Some _ => modify (upd_stream None);; modify (upd_filename [])
   | None => mret tt
   end);;
  modify (upd_initialized false).

Definition open (filename : bytes) (contents : option bytes) (permitted broken : bool) : FC unit :=
  close;;
  modify (upd_filename filename);;
  match contents with
  | Some d => modify (upd_initialized false);; openFile d permitted broken
  | None =>
      modify (upd_initialized false);;
      createFile permitted broken;;
      updateTimeStamp;;
      modify (upd_initialized true)
  end.

(** [end] is read before the check; it is read again only after a resync. *)
Definition end_after_prologue (stamp : bool) : FC Z :=
  end_ ← getEnd;
  init ← field fc_initialized;
  if (init : bool) then
    on_modified (checkStreamAndStamp;; mret end_) (syncData stamp;; getEnd)
  else initContainer;; mret end_.

Definition add_data (data : bytes) (where_ : Z) (it : FileIterator) : FC FileIterator :=
  end_ ← end_after_prologue false;
  updateTimeStamp;;
  writeFileStatus opened;;
  begin_ ← getBegin;
  it ← (if bool_decide (where_ = end_) then addDataAtEnd data it end_
        else if bool_decide (where_ = begin_) then addDataAtBegin data it end_
        else addDataInMiddle data it where_ end_);
  createEmptyBackup ad_empty;;
  n ← field fc_size;
  writeAndSetSize (n + 1);;
  writeFileStatus closed;;
  mret it.

Definition read_data (where_ : Z) (it : FileIterator) (fileorder : bool) : FC (FileIterator * bytes) :=
  end_ ← end_after_prologue true;
  if bool_decide (where_ ≤ end_) then
    on_stream (seek where_);;
    r ← readDataHere it nullIterator fileorder;
    let '(it, fileIt, data) := r in
    mret (if fileorder then reset (fi_prev fileIt) (fi_next fileIt) where_ it else it, data)
  else fail unavailable_position.

Definition remove_data (where_ : Z) : FC unit :=
  prologue (syncData false);;
  updateTimeStamp;;
  writeFileStatus opened;;
  iter ← readIterator where_ nullIterator false;
  sz ← readSizeAndState;
  let '(size, state) := sz in
  (if bool_decide (state = "g"%char) then removeDataPointer iter size else fail unavailable_position);;
  createEmptyBackup rd_empty;;
  n ← field fc_size;
  (if bool_decide (n = 0) then
     catch (checkConsistency 0) (λ _, fail decrementing_from_zero);;
     n ← field fc_size;
     modify (upd_size (size_t (n + 1)))
   else mret tt);;
  n ← field fc_size;
  writeAndSetSize (n - 1);;
  writeFileStatus closed.

Definition increment_iterator_gen (fileorder : bool) (it : FileIterator) : FC FileIterator :=
  end_ ← end_after_prologue true;
  if bool_decide (fi_current it = 0) then
    l ← field fc_limits; readIterator (fi_prev l) it fileorder
  else if bool_decide (fi_next it = end_) then mret (reset 0 0 end_ it)
  else
    it ← readIterator (fi_current it) it fileorder;
    readIterator (fi_next it) it fileorder.
Definition increment_iterator : FileIterator → FC FileIterator := increment_iterator_gen false.
Definition increment_fileorder_iterator : FileIterator → FC FileIterator := increment_iterator_gen true.

Definition decrement_iterator_gen (fileorder : bool) (it : FileIterator) : FC FileIterator :=
  prologue (syncData true);;
  end_ ← getEnd;
  if bool_decide (fi_current it = end_) then
    l ← field fc_limits; readIterator (fi_next l) it fileorder
  else if bool_decide (fi_prev it = 0) then mret (reset 0 0 0 it)
  else
    it ← readIterator (fi_current it) it fileorder;
    readIterator (fi_prev it) it fileorder.
Definition decrement_iterator : FileIterator → FC FileIterator := decrement_iterator_gen false.
Definition decrement_fileorder_iterator : FileIterator → FC FileIterator := decrement_iterator_gen true.

Definition truncate : FC unit :=
  init ← field fc_initialized;
  (if (init : bool) then checkStreamAndStamp else initContainer);;
  eraseFile 0;;
  modify (upd_size 0).

Definition read_size : FC Z :=
  end0 ← getEnd;
  init ← field fc_initialized;
  r ← (if (init : bool) then attempt (checkStreamAndStamp;; getEnd)
       else attempt (initContainer;; mret end0));
  let end_ := match r with inl e => e | inr _ => end0 end in
  begin_ ← getBegin;
  n ← field fc_size;
  (if bool_decide (r = inr container_modified ∨ (begin_ ≠ end_ ∧ n = 0)) then syncData true
   else match r with inl _ => mret tt | inr e => fail e end);;
  field fc_size.

(** The element loop of [fillVector]; one unit of fuel per element. *)
Fixpoint fill_loop (fuel : nat) (end_ where_ : Z) (it : FileIterator) (vec : list bytes) : FC (list bytes) :=
  match fuel with
  | O => stuck
  | S f =>
      if bool_decide (where_ < end_) then
        on_stream (seek where_);;
        r ← readDataHere it nullIterator false;
        let '(it, _, data) := r in
        fill_loop f end_ (fi_next it) it (vec ++ [data])
      else mret vec
  end.

Definition fillVector : FC (list bytes) :=
  end_ ← getEnd;
  on_modified checkStreamAndStamp (syncData true);;
  l ← field fc_limits;
  it ← readIterator (fi_prev l) nullIterator false;
  fill_loop (S (Z.to_nat end_)) end_ (fi_current it) it [].

Fixpoint compact_loop (copy : list bytes) (it : FileIterator) (end_ : Z) : FC unit :=
  match copy with
  | [] => mret tt
  | d :: copy => it ← addDataAtEnd d it end_; compact_loop copy it (fi_next it)
  end.

Definition compact_data : FC unit :=
  init ← field fc_initialized;
  (if (init : bool) then mret tt else initContainer);;
  copy ← fillVector;
  backupFile None;;
  eraseFile 0;;
  writeFileStatus opened;;
  end_ ← getEnd;
  compact_loop copy nullIterator end_;;
  createEmptyBackup empty;;
  writeAndSetSize (Z.of_nat (length copy));;
  writeFileStatus closed.

(** [syncData] is run on [container_modified], and the answer stays. *)
Definition sync_container : FC unit :=
  init ← field fc_initialized;
  catch (if (init : bool) then checkStreamAndStamp else initContainer)
        (λ e, (if bool_decide (e = container_modified) then attempt (syncData true);; mret tt
               else mret tt);; fail e).

Definition get_iterator_gen (fileorder : bool) (where_ : Z) (it : FileIterator) : FC FileIterator :=
  prologue (syncData true);; readIterator where_ it fileorder.
Definition get_iterator : Z → FileIterator → FC FileIterator := get_iterator_gen false.
Definition get_fileorder_iterator : Z → FileIterator → FC FileIterator := get_iterator_gen true.

Definition modified : FC bool :=
  init ← field fc_initialized;
  (if (init : bool) then mret tt else initContainer);;
  checkStamp.

Definition read_begin : FC Z := prologue (syncData true);; getBegin.
Definition read_end : FC Z := prologue (syncData true);; getEnd.
Definition read_last : FC Z := prologue (syncData true);; field (λ c, fi_next (fc_limits c)).
Definition read_file_end : FC Z := prologue (syncData true);; getEnd.

(** A fresh object ([FileContainer::FileContainer(void)]) at time [now]. *)
Definition new_container (now : Z) : FileContainer :=
  Container false 0 None (mkStamp now) [] (mkIterator 0 0 0) (mkIterator un_dead un_beef 0) now None.
