(* ===== verification/ContainerFields.v ===== *)
(** * The text fields of a container file

    Each field the container writes is read back: offsets, iterators,
    stamps, sizes.  The lemmas are about the stream functions alone; they
    are what the layout lemmas of [ContainerDisk] rest on. *)

From S2P Require Import Prelude Digits Stream FileContainer.

(** ** Ranges of the values that fit their fields *)
Definition off_ok (z : Z) : Prop := 0 ≤ z ≤ off_max.
Definition size_ok (z : Z) : Prop := 0 ≤ z < 2 ^ 64.
Definition stamp_ok (t : TimeStamp) : Prop := off_ok (ts_epoch t) ∧ 0 ≤ ts_counter t < 2 ^ 16.

#[export] Instance off_ok_dec z : Decision (off_ok z).
Proof. unfold off_ok. apply _. Defined.
#[export] Instance size_ok_dec z : Decision (size_ok z).
Proof. unfold size_ok. apply _. Defined.

Ltac ranges := unfold off_ok, size_ok, off_max in *; lia.

Lemma off_ok_0 : off_ok 0.
Proof. unfold off_ok, off_max. lia. Qed.
#[export] Hint Resolve off_ok_0 : wms.

(** ** Offsets *)

Section hexoff.
Context (z : Z) (Hz : off_ok z).

Lemma hexoff_mod : z `mod` 2 ^ 64 = z.
Proof. apply Z.mod_small. ranges. Qed.

Local Lemma hexoff_range : 0 ≤ z < 16 ^ Z.of_nat 16.
Proof. change (16 ^ Z.of_nat 16) with (2 ^ 64). ranges. Qed.

Lemma hexoff_digits : Forall (λ c, is_digit 16 c = true) (hexoff z).
Proof. unfold hexoff. rewrite hexoff_mod. apply fmt_digits; [lia| |unfold fi_s_width; lia]. apply hexoff_range. Qed.

Lemma hexoff_length : length (hexoff z) = 16%nat.
Proof. unfold hexoff. rewrite hexoff_mod. apply length_fmt; [lia| |unfold fi_s_width; lia]. apply hexoff_range. Qed.

Lemma hexoff_value : digits_value 16 (hexoff z) = z.
Proof. unfold hexoff. rewrite hexoff_mod. apply digits_value_fmt; [lia| |unfold fi_s_width; lia]. apply hexoff_range. Qed.
End hexoff.
#[export] Hint Resolve hexoff_digits hexoff_length : wms.

Lemma hexoff_ne z : off_ok z → hexoff z ≠ [].
Proof. intros H E. pose proof (hexoff_length z H). by rewrite E in *. Qed.
#[export] Hint Resolve hexoff_ne : wms.

Lemma digits_not_nl base (s : bytes) :
  Forall (λ c, is_digit base c = true) s → Forall (λ c, not_nl c = true) s.
Proof.
  intros H. eapply Forall_impl; [exact H|]. intros c Hc. unfold not_nl.
  case_bool_decide as Hnl; [|done]. subst. by rewrite nl_not_digit in Hc.
Qed.

Lemma is_sp_not_digit base c : is_digit base c = true → is_sp c = false.
Proof. intros H. unfold is_sp. case_bool_decide; [|done]. subst. by rewrite sp_not_digit in H. Qed.

(** ** Matching the regular expressions *)

Lemma re_plus_app p k (s r : bytes) c :
  Forall (λ c, p c = true) s → s ≠ [] → p c = false → re_plus p k (s ++ c :: r) = k (c :: r).
Proof. intros Hs Hne Hc. unfold re_plus. rewrite span_app_stop by done. by destruct s. Qed.

Lemma re_plus_all p k (s : bytes) : Forall (λ c, p c = true) s → s ≠ [] → re_plus p k s = k [].
Proof. intros Hs Hne. unfold re_plus. rewrite span_all by done. by destruct s. Qed.

Lemma re_plus_one p k (c : ascii) (r : bytes) c' r' :
  r = c' :: r' → p c = true → p c' = false → re_plus p k (c :: r) = k r.
Proof. intros -> H H'. apply (re_plus_app p k [c]); by repeat constructor. Qed.

Lemma re_star_skip p k (s : bytes) c r : s = c :: r → p c = false → re_star p k s = k s.
Proof. intros -> H. unfold re_star. by rewrite span_cons_stop. Qed.

(** Two runs of digits separated by one blank. *)
Lemma two_digits_re base (a b : bytes) :
  Forall (λ c, is_digit base c = true) a → a ≠ [] →
  Forall (λ c, is_digit base c = true) b → b ≠ [] →
  re_plus (is_digit base) (re_plus is_sp (re_plus (is_digit base) re_end)) (a ++ sp :: b) = true.
Proof.
  intros Ha Hna Hb Hnb. rewrite re_plus_app by (try done; apply sp_not_digit).
  destruct b as [|c b]; [done|]. inversion Hb; subst.
  rewrite (re_plus_one _ _ _ _ c b) by (try done; by eapply is_sp_not_digit).
  by rewrite re_plus_all.
Qed.

Lemma iterator_re_digits (a b : bytes) :
  Forall (λ c, is_digit 16 c = true) a → a ≠ [] →
  Forall (λ c, is_digit 16 c = true) b → b ≠ [] →
  iterator_re (a ++ sp :: b) = true.
Proof.
  intros Ha Hna Hb Hnb. unfold iterator_re. destruct a as [|c a]; [done|]. inversion Ha; subst.
  simpl app. rewrite (re_star_skip _ _ _ c (a ++ sp :: b)) by (try done; by eapply is_digit_not_space).
  by apply (two_digits_re 16 (c :: a)).
Qed.

(** Leading blanks are skipped. *)
Lemma iterator_re_blank (s : bytes) : iterator_re (sp :: s) = iterator_re s.
Proof. unfold iterator_re, re_star. simpl. by destruct (span is_space s). Qed.

Lemma backup_re_digits (a b c : bytes) :
  Forall (λ c, is_digit 16 c = true) a → a ≠ [] →
  Forall (λ c, is_digit 16 c = true) b → b ≠ [] →
  Forall (λ c, is_digit 16 c = true) c → c ≠ [] →
  backup_re (a ++ sp :: b ++ sp :: c) = true.
Proof.
  intros. unfold backup_re. rewrite re_plus_app by (try done; apply sp_not_digit). simpl.
  rewrite re_plus_app by (try done; apply sp_not_digit). simpl. by rewrite re_plus_all.
Qed.

Lemma size_re_digits (a : bytes) (s : ascii) :
  Forall (λ c, is_digit 10 c = true) a → a ≠ [] → s = "g"%char ∨ s = "i"%char →
  size_re (a ++ [sp; s]) = true.
Proof.
  intros Ha Hna Hs. unfold size_re. rewrite re_plus_app by (try done; apply sp_not_digit).
  by destruct Hs as [-> | ->].
Qed.

(** ** Reading an iterator *)

(** [(prev, next)] as text, without and with the line end. *)
Definition pair_text (p n : Z) : bytes := hexoff p ++ sp :: hexoff n.

Lemma FileIterator_write_text it : FileIterator_write it = pair_text (fi_prev it) (fi_next it).
Proof. reflexivity. Qed.

Lemma pair_text_length p n : off_ok p → off_ok n → length (pair_text p n) = 33%nat.
Proof. intros. unfold pair_text. rewrite length_app. simpl. rewrite !hexoff_length by done. done. Qed.

Lemma pair_text_not_nl p n : off_ok p → off_ok n → Forall (λ c, not_nl c = true) (pair_text p n).
Proof.
  intros. unfold pair_text. apply Forall_app; split; [|constructor; [done|]];
    eapply digits_not_nl; eauto with wms.
Qed.
#[export] Hint Resolve pair_text_not_nl : wms.

Lemma extract_off_at d j a ws z c b p old :
  d = a ++ ws ++ hexoff z ++ c :: b → p = Z.of_nat (length a) →
  Forall (λ c, is_space c = true) ws → off_ok z → is_digit 16 c = false →
  extract_off old (at_ d p j) = (at_ d (p + Z.of_nat (length ws) + 16) j, z).
Proof.
  intros Hd Hp Hws Hz Hc. unfold extract_off.
  rewrite (extract_num_at d j 16 (- off_max - 1) off_max a ws (hexoff z) c b p);
    rewrite ?hexoff_value by done; eauto with wms; try ranges.
  rewrite hexoff_length by done. simpl default. f_equal. f_equal. lia.
Qed.

(** What [write] prints, [read] gives back, also after blanks. *)
Lemma FileIterator_read_at d j a ws x y b p it :
  d = a ++ ws ++ pair_text x y ++ nl :: b → p = Z.of_nat (length a) →
  (ws = [] ∨ ws = [sp]) → off_ok x → off_ok y →
  FileIterator_read it (at_ d p j) =
  (at_ d (p + Z.of_nat (length ws) + 33) j, FIterator true x y (fi_current it)).
Proof.
  intros Hd Hp Hws Hx Hy. unfold FileIterator_read. rewrite tell_at.
  rewrite (getline_at d j a (ws ++ pair_text x y) b p).
  2: { by rewrite <- app_assoc. } 2: done.
  2: { apply Forall_app; split; [|eauto with wms]. by destruct Hws as [-> | ->]; repeat constructor. }
  assert (iterator_re (ws ++ pair_text x y) = true) as ->.
  { destruct Hws as [-> | ->]; simpl app; rewrite ?iterator_re_blank;
      apply iterator_re_digits; eauto with wms. }
  rewrite seek_at by lia.
  rewrite (extract_off_at d j a ws x sp (hexoff y ++ nl :: b) p); try done.
  2: { rewrite Hd. unfold pair_text. by rewrite <- app_assoc. }
  2: { by destruct Hws as [-> | ->]; repeat constructor. }
  rewrite (extract_off_at d j (a ++ ws ++ hexoff x) [sp] y nl b); try done.
  - f_equal. f_equal. simpl. lia.
  - rewrite Hd. unfold pair_text. rewrite <- !app_assoc. done.
  - rewrite !length_app, hexoff_length by done. lia.
  - by repeat constructor.
Qed.

(** ** Reading a stamp *)

Lemma fmt10_range_t z : off_ok z → 0 ≤ z < 10 ^ Z.of_nat 20.
Proof. intros. change (10 ^ Z.of_nat 20) with 100000000000000000000. ranges. Qed.
Lemma fmt10_range_s z : 0 ≤ z < 2 ^ 16 → 0 ≤ z < 10 ^ Z.of_nat 5.
Proof. intros. change (10 ^ Z.of_nat 5) with 100000. lia. Qed.
Lemma fmt10_range_n z : size_ok z → 0 ≤ z < 10 ^ Z.of_nat 21.
Proof. intros. change (10 ^ Z.of_nat 21) with 1000000000000000000000. ranges. Qed.
Lemma fmt10_range_z z : size_ok z → 0 ≤ z < 10 ^ Z.of_nat 23.
Proof. intros. change (10 ^ Z.of_nat 23) with 100000000000000000000000. ranges. Qed.

Lemma fmt_ne base w n : (0 < w)%nat → fmt base w n ≠ [].
Proof.
  intros Hw E. unfold fmt in E. apply app_eq_nil in E as [_ E].
  destruct (Z.to_nat (Z.log2 n)); simpl in E; [done|]. case_bool_decide; [done|].
  by apply app_eq_nil in E as [_ ?].
Qed.

Definition stamp_text (t : TimeStamp) : bytes := TimeStamp_write t ++ [nl].

Lemma stamp_text_length t : stamp_ok t → length (stamp_text t) = 27%nat.
Proof.
  intros [He Hc]. unfold stamp_text, TimeStamp_write. rewrite !length_app. simpl.
  pose proof (fmt10_range_t _ He). pose proof (fmt10_range_s _ Hc).
  unfold ts_s_twidth, ts_s_swidth. by rewrite !length_fmt by lia.
Qed.

Lemma TimeStamp_read_at d j a t b p t0 :
  d = a ++ stamp_text t ++ b → p = Z.of_nat (length a) → stamp_ok t →
  TimeStamp_read t0 (at_ d p j) = (at_ d (p + 26) j, TStamp true (ts_epoch t) (ts_counter t)).
Proof.
  intros Hd Hp [He Hc].
  pose proof (fmt10_range_t _ He) as He'. pose proof (fmt10_range_s _ Hc) as Hc'.
  set (e := fmt 10 20 (ts_epoch t)). set (c := fmt 10 5 (ts_counter t)).
  assert (Forall (λ c, is_digit 10 c = true) e) as Fe by (apply fmt_digits; lia).
  assert (Forall (λ c, is_digit 10 c = true) c) as Fc by (apply fmt_digits; lia).
  assert (e ≠ [] ∧ c ≠ []) as [Ne Nc] by (split; apply fmt_ne; lia).
  assert (d = a ++ (e ++ sp :: c) ++ nl :: b) as Hd'.
  { rewrite Hd. unfold stamp_text, TimeStamp_write. unfold ts_s_twidth, ts_s_swidth.
    fold e c. rewrite <- !app_assoc. done. }
  unfold TimeStamp_read. rewrite tell_at.
  rewrite (getline_at d j a (e ++ sp :: c) b p Hd' Hp).
  2: { apply Forall_app; split; [by eapply digits_not_nl|constructor; [done|by eapply digits_not_nl]]. }
  unfold stamp_re. rewrite two_digits_re by done.
  rewrite seek_at by lia.
  assert (digits_value 10 e = ts_epoch t) as Ve by (apply digits_value_fmt; lia).
  assert (digits_value 10 c = ts_counter t) as Vc by (apply digits_value_fmt; lia).
  assert (length e = 20%nat) as Le by (apply length_fmt; lia).
  assert (length c = 5%nat) as Lc by (apply length_fmt; lia).
  rewrite (extract_num_at d j 10 (- off_max - 1) off_max a [] e sp (c ++ nl :: b) p);
    rewrite ?Ve; try done; try ranges.
  2: { rewrite Hd'. by rewrite <- app_assoc. }
  rewrite (extract_num_at d j 10 0 (2 ^ 16 - 1) (a ++ e) [sp] c nl b);
    rewrite ?Vc; try done; try ranges.
  - simpl. rewrite Le, Lc. simpl. f_equal. f_equal. lia.
  - rewrite Hd'. rewrite <- !app_assoc. done.
  - rewrite length_app. simpl. lia.
  - by repeat constructor.
Qed.
