(* ===== verification/ContainerDisk.v ===== *)
(** * The layout of a container file

    A container file is a header and a sequence of records, followed, while
    a record is being written, by the part of it that is already there.
    [disk] is that structure and [disk_bytes] the file it stands for.  Each
    elementary operation of the container is shown to be an update or a
    look-up of one component of a [disk]. *)

From S2P Require Import Prelude Digits Stream FileContainer ContainerFields.

(** ** Structure *)

Record header := Header {
  h_stamp : TimeStamp;
  h_size : Z;
  h_status : filestatus_t;
  h_backup0 : Z * Z * Z;         (* pointer, prev, next *)
  h_backup1 : Z * Z * Z;
  h_backup2 : Z * Z * Z;
  h_backup3 : Z * Z * Z;
  h_lbackup : Z * Z;
  h_rbackup : Z * Z;
  h_limits : Z * Z;
  h_removed : Z * Z
}.

Record cell := Cell {
  c_prev : Z;
  c_next : Z;
  c_state : ascii;               (* 'g' in use, 'i' erased *)
  c_data : bytes;
  c_fprev : Z;                   (* file-order iterator *)
  c_fnext : Z
}.

Record disk := Disk {
  d_header : header;
  d_cells : list cell;
  d_tail : bytes
}.

Definition pair_line (pn : Z * Z) : bytes := pair_text pn.1 pn.2 ++ [nl].
Definition triple_line (b : Z * Z * Z) : bytes :=
  hexoff b.1.1 ++ [sp] ++ pair_text b.1.2 b.2 ++ [nl].

Definition header_fields (h : header) : list bytes :=
  stamp_text (h_stamp h) :: (fmt 10 fc_s_numberSize (h_size h) ++ [nl]) ::
  [fs_char (h_status h); nl] ::
  triple_line (h_backup0 h) :: triple_line (h_backup1 h) ::
  triple_line (h_backup2 h) :: triple_line (h_backup3 h) ::
  [pair_line (h_lbackup h); pair_line (h_rbackup h); pair_line (h_limits h); pair_line (h_removed h)].

Definition header_bytes (h : header) : bytes := concat (header_fields h).

Definition cell_bytes (c : cell) : bytes :=
  pair_line (c_prev c, c_next c) ++ size_line (Z.of_nat (length (c_data c))) (c_state c) ++
  (c_data c ++ [nl]) ++ pair_line (c_fprev c, c_fnext c).

Definition cells_bytes (cs : list cell) : bytes := concat (cell_bytes <$> cs).

Definition disk_bytes (d : disk) : bytes :=
  header_bytes (d_header d) ++ cells_bytes (d_cells d) ++ d_tail d.

(** ** Well-formed headers and records: every value fits its field *)

Definition pair_ok (pn : Z * Z) : Prop := off_ok pn.1 ∧ off_ok pn.2.
Definition triple_ok (b : Z * Z * Z) : Prop := off_ok b.1.1 ∧ off_ok b.1.2 ∧ off_ok b.2.

Record header_ok (h : header) : Prop := {
  ok_stamp : stamp_ok (h_stamp h);
  ok_size : size_ok (h_size h);
  ok_backup0 : triple_ok (h_backup0 h);
  ok_backup1 : triple_ok (h_backup1 h);
  ok_backup2 : triple_ok (h_backup2 h);
  ok_backup3 : triple_ok (h_backup3 h);
  ok_lbackup : pair_ok (h_lbackup h);
  ok_rbackup : pair_ok (h_rbackup h);
  ok_limits : pair_ok (h_limits h);
  ok_removed : pair_ok (h_removed h)
}.

Record cell_ok (c : cell) : Prop := {
  ok_links : pair_ok (c_prev c, c_next c);
  ok_state : c_state c = "g"%char ∨ c_state c = "i"%char;
  ok_data : 0 < Z.of_nat (length (c_data c)) < 2 ^ 64;
  ok_flinks : pair_ok (c_fprev c, c_fnext c)
}.

Record disk_ok (d : disk) : Prop := {
  ok_header : header_ok (d_header d);
  ok_cells : Forall cell_ok (d_cells d)
}.

(** ** Lengths *)

Lemma pair_line_length pn : pair_ok pn → length (pair_line pn) = 34%nat.
Proof. intros [? ?]. unfold pair_line. rewrite length_app, pair_text_length by done. done. Qed.

Lemma triple_line_length b : triple_ok b → length (triple_line b) = 51%nat.
Proof.
  intros (? & ? & ?). unfold triple_line. rewrite !length_app, hexoff_length, pair_text_length by done. done.
Qed.

Lemma size_field_length n : size_ok n → length (fmt 10 fc_s_numberSize n ++ [nl]) = 22%nat.
Proof.
  intros H. rewrite length_app. unfold fc_s_numberSize. pose proof (fmt10_range_n _ H).
  by rewrite length_fmt by lia.
Qed.

Lemma size_t_id n : size_ok n → size_t n = n.
Proof. intros. unfold size_t. apply Z.mod_small. ranges. Qed.

Lemma size_line_length n s : size_ok n → length (size_line n s) = 26%nat.
Proof.
  intros H. unfold size_line. rewrite size_t_id by done. rewrite length_app. unfold fc_s_sizeSize.
  pose proof (fmt10_range_z _ H). by rewrite length_fmt by lia.
Qed.

Lemma length_concat (l : list bytes) : length (concat l) = sum_list (length <$> l).
Proof. induction l as [|x l IH]; [done|]. simpl. rewrite length_app, IH. done. Qed.

(** The widths of the header fields, in file order. *)
Definition field_widths : list nat := [27; 22; 2; 51; 51; 51; 51; 34; 34; 34; 34]%nat.

Lemma header_fields_widths h : header_ok h → length <$> header_fields h = field_widths.
Proof.
  intros []. unfold header_fields. cbn [fmap list_fmap].
  rewrite stamp_text_length, size_field_length, !triple_line_length, !pair_line_length by done. done.
Qed.

Lemma cell_data_ok c : cell_ok c → size_ok (Z.of_nat (length (c_data c))).
Proof. intros H. destruct (ok_data _ H). ranges. Qed.

(** Size of a record on disk, as [calculateDataSize] has it. *)
Definition cell_len (c : cell) : Z := calculateDataSize (Z.of_nat (length (c_data c))).

Lemma calculateDataSize_eq n : calculateDataSize n = 95 + n.
Proof. unfold calculateDataSize, fi_s_width, fc_s_sizeSize. lia. Qed.

Lemma cell_len_eq c : cell_len c = 95 + Z.of_nat (length (c_data c)).
Proof. apply calculateDataSize_eq. Qed.

Lemma cell_bytes_length c : cell_ok c → Z.of_nat (length (cell_bytes c)) = cell_len c.
Proof.
  intros H. rewrite cell_len_eq. unfold cell_bytes. rewrite !length_app, !pair_line_length, size_line_length.
  - simpl. lia.
  - by apply cell_data_ok.
  - apply H.
  - apply H.
Qed.

Lemma header_bytes_length h : header_ok h → Z.of_nat (length (header_bytes h)) = fc_s_headerSize.
Proof. intros H. unfold header_bytes. rewrite length_concat, header_fields_widths by done. done. Qed.

Definition cells_len (cs : list cell) : Z := foldr (λ c n, cell_len c + n) 0 cs.

Lemma cells_len_nonneg cs : 0 ≤ cells_len cs.
Proof. induction cs as [|c cs IH]; simpl; [lia|]. rewrite cell_len_eq. lia. Qed.

Lemma cells_len_app cs cs' : cells_len (cs ++ cs') = cells_len cs + cells_len cs'.
Proof. induction cs as [|c cs IH]; simpl; lia. Qed.

Lemma cells_bytes_length cs : Forall cell_ok cs → Z.of_nat (length (cells_bytes cs)) = cells_len cs.
Proof.
  induction 1 as [|c cs Hc _ IH]; [done|]. unfold cells_bytes in *. rewrite fmap_cons.
  cbn [concat cells_len foldr]. fold (cells_len cs).
  rewrite length_app. rewrite <- (cell_bytes_length c) by done. lia.
Qed.

Lemma cells_bytes_app cs cs' : cells_bytes (cs ++ cs') = cells_bytes cs ++ cells_bytes cs'.
Proof. unfold cells_bytes. by rewrite fmap_app, concat_app. Qed.

Lemma cells_bytes_cons c cs : cells_bytes (c :: cs) = cell_bytes c ++ cells_bytes cs.
Proof. reflexivity. Qed.

(** Physical end of the file. *)
Definition disk_end (d : disk) : Z := fc_s_headerSize + cells_len (d_cells d) + Z.of_nat (length (d_tail d)).

Lemma disk_bytes_length d : disk_ok d → Z.of_nat (length (disk_bytes d)) = disk_end d.
Proof.
  intros [Hh Hc]. unfold disk_bytes, disk_end. rewrite !length_app.
  pose proof (header_bytes_length _ Hh). pose proof (cells_bytes_length _ Hc). lia.
Qed.

(** ** Updates of one component *)

Definition with_header (f : header → header) (d : disk) : disk := Disk (f (d_header d)) (d_cells d) (d_tail d).
Definition with_stamp (t : TimeStamp) : disk → disk := with_header (λ h,
  Header t (h_size h) (h_status h) (h_backup0 h) (h_backup1 h) (h_backup2 h) (h_backup3 h) (h_lbackup h) (h_rbackup h) (h_limits h) (h_removed h)).
Definition with_size (n : Z) : disk → disk := with_header (λ h,
  Header (h_stamp h) n (h_status h) (h_backup0 h) (h_backup1 h) (h_backup2 h) (h_backup3 h) (h_lbackup h) (h_rbackup h) (h_limits h) (h_removed h)).
Definition with_status (s : filestatus_t) : disk → disk := with_header (λ h,
  Header (h_stamp h) (h_size h) s (h_backup0 h) (h_backup1 h) (h_backup2 h) (h_backup3 h) (h_lbackup h) (h_rbackup h) (h_limits h) (h_removed h)).
Definition with_backup (i : nat) (b : Z * Z * Z) : disk → disk := with_header (λ h,
  Header (h_stamp h) (h_size h) (h_status h)
    (if bool_decide (i = 0%nat) then b else h_backup0 h) (if bool_decide (i = 1%nat) then b else h_backup1 h)
    (if bool_decide (i = 2%nat) then b else h_backup2 h) (if bool_decide (i = 3%nat) then b else h_backup3 h)
    (h_lbackup h) (h_rbackup h) (h_limits h) (h_removed h)).
Definition with_lbackup (pn : Z * Z) : disk → disk := with_header (λ h,
  Header (h_stamp h) (h_size h) (h_status h) (h_backup0 h) (h_backup1 h) (h_backup2 h) (h_backup3 h) pn (h_rbackup h) (h_limits h) (h_removed h)).
Definition with_limits (pn : Z * Z) : disk → disk := with_header (λ h,
  Header (h_stamp h) (h_size h) (h_status h) (h_backup0 h) (h_backup1 h) (h_backup2 h) (h_backup3 h) (h_lbackup h) (h_rbackup h) pn (h_removed h)).
Definition with_removed (pn : Z * Z) : disk → disk := with_header (λ h,
  Header (h_stamp h) (h_size h) (h_status h) (h_backup0 h) (h_backup1 h) (h_backup2 h) (h_backup3 h) (h_lbackup h) (h_rbackup h) (h_limits h) pn).
Definition with_no_backup : disk → disk := with_header (λ h,
  Header (h_stamp h) (h_size h) (h_status h) (0, 0, 0) (0, 0, 0) (0, 0, 0) (0, 0, 0) (0, 0) (0, 0) (h_limits h) (h_removed h)).
Definition with_cells (cs : list cell) (d : disk) : disk := Disk (d_header d) cs (d_tail d).
Definition with_tail (t : bytes) (d : disk) : disk := Disk (d_header d) (d_cells d) t.

Lemma pair_ok_0 : pair_ok (0, 0).
Proof. split; apply off_ok_0. Qed.
Lemma triple_ok_0 : triple_ok (0, 0, 0).
Proof. repeat split; apply off_ok_0. Qed.

Section updates_ok.
Context (d : disk) (Hd : disk_ok d).

Local Ltac upd_ok := destruct Hd as [[] ?]; split; [split|]; simpl; auto.

Lemma with_stamp_ok t : stamp_ok t → disk_ok (with_stamp t d).
Proof. intros. upd_ok. Qed.
Lemma with_size_ok n : size_ok n → disk_ok (with_size n d).
Proof. intros. upd_ok. Qed.
Lemma with_status_ok s : disk_ok (with_status s d).
Proof. upd_ok. Qed.
Lemma with_backup_ok i b : triple_ok b → disk_ok (with_backup i b d).
Proof. intros. upd_ok; by case_bool_decide. Qed.
Lemma with_lbackup_ok pn : pair_ok pn → disk_ok (with_lbackup pn d).
Proof. intros. upd_ok. Qed.
Lemma with_limits_ok pn : pair_ok pn → disk_ok (with_limits pn d).
Proof. intros. upd_ok. Qed.
Lemma with_removed_ok pn : pair_ok pn → disk_ok (with_removed pn d).
Proof. intros. upd_ok. Qed.
Lemma with_no_backup_ok : disk_ok (with_no_backup d).
Proof. upd_ok; first [apply pair_ok_0 | apply triple_ok_0]. Qed.
Lemma with_cells_ok cs : Forall cell_ok cs → disk_ok (with_cells cs d).
Proof. intros. upd_ok. Qed.
Lemma with_tail_ok t : disk_ok (with_tail t d).
Proof. upd_ok. Qed.
End updates_ok.
#[export] Hint Resolve with_stamp_ok with_size_ok with_status_ok with_backup_ok with_lbackup_ok
  with_limits_ok with_removed_ok with_no_backup_ok with_cells_ok with_tail_ok pair_ok_0 triple_ok_0 : wms.

(** ** Container states over a disk *)

(** The object [m] with its stream in good state over [d], cursor at [p];
    [j] is the journal of the writes so far. *)
Definition con (m : FileContainer) (d : disk) (p : Z) (j : list bytes) : FileContainer :=
  upd_stream (Some (at_ (disk_bytes d) p j)) m.

Section steps.
Context {A : Type} (m : FileContainer) (st : stream).
Abbreviation c := (upd_stream (Some st) m).

Lemma bind_on f (k : unit → FC A) : (on_stream f ≫= k) c = k tt (upd_stream (Some (f st)) m).
Proof. reflexivity. Qed.
Lemma bind_ask {B} (f : stream → B) (k : B → FC A) : (ask f ≫= k) c = k (f st) c.
Proof. reflexivity. Qed.
Lemma bind_with {B} (f : stream → stream * B) st' b (k : B → FC A) :
  f st = (st', b) → (with_stream f ≫= k) c = k b (upd_stream (Some st') m).
Proof. intros H. unfold mbind, M_bind, with_stream. simpl. by rewrite H. Qed.
Lemma bind_check e (k : unit → FC A) : bad st = false → (check_bad e ≫= k) c = k tt c.
Proof. intros H. unfold check_bad, mbind, M_bind, ask, with_stream. simpl. by rewrite H. Qed.
Lemma bind_field {B} (f : FileContainer → B) (k : B → FC A) (c' : FileContainer) : (field f ≫= k) c' = k (f c') c'.
Proof. reflexivity. Qed.
Lemma bind_modify f (k : unit → FC A) (c' : FileContainer) : (modify f ≫= k) c' = k tt (f c').
Proof. reflexivity. Qed.
End steps.

Lemma on_last m st f : on_stream f (upd_stream (Some st) m) = (upd_stream (Some (f st)) m, Ret tt).
Proof. reflexivity. Qed.
Lemma check_last m st e : bad st = false → check_bad e (upd_stream (Some st) m) = (upd_stream (Some st) m, Ret tt).
Proof. intros H. unfold check_bad, mbind, M_bind, ask, with_stream. simpl. by rewrite H. Qed.

(** [go] runs the calls that are determined by the stream being in good
    state, up to the next read or write. *)
Ltac go :=
  repeat first
    [ rewrite bind_assoc | rewrite bind_on | rewrite bind_ask | rewrite bind_field | rewrite bind_modify
    | rewrite bind_mret | rewrite bind_check by done | rewrite tell_at | rewrite sync_at
    | rewrite seek_at by (try done; lia) | rewrite seek_end_at
    | rewrite on_last | rewrite check_last by done ].

(** Back to the [con] form. *)
Ltac recon := repeat match goal with
  | |- context [upd_stream (Some (at_ (disk_bytes ?d) ?p ?j)) ?m] =>
      change (upd_stream (Some (at_ (disk_bytes d) p j)) m) with (con m d p j)
  end.

Lemma getEnd_con m d p j : disk_ok d → getEnd (con m d p j) = (con m d (disk_end d) j, Ret (disk_end d)).
Proof. intros H. unfold getEnd, con. go. rewrite disk_bytes_length by done. reflexivity. Qed.

(** ** Header writes *)

(** Overwriting the field [i] of a file made of fields. *)
Lemma emit_field (fs : list bytes) (i : nat) (old new tl : bytes) (p : Z) (j : list bytes) :
  fs !! i = Some old → length new = length old →
  p = Z.of_nat (sum_list (take i (length <$> fs))) →
  emit new (at_ (concat fs ++ tl) p j) =
  at_ (concat (<[i := new]> fs) ++ tl) (p + Z.of_nat (length new)) (j ++ [concat (<[i := new]> fs) ++ tl]).
Proof.
  intros Hi Hl Hp. pose proof (lookup_lt_Some _ _ _ Hi) as Hlt.
  rewrite <- (take_drop_middle fs i old Hi) at 1.
  rewrite insert_take_drop, !concat_app by done. cbn [concat].
  rewrite <- !app_assoc. apply emit_at_mid with (old := old); [done| |done].
  rewrite length_concat, fmap_take. done.
Qed.

Section header_writes.
Context (d : disk) (Hd : disk_ok d) (j : list bytes).
Let Hh := ok_header d Hd.
Let body := cells_bytes (d_cells d) ++ d_tail d.

(** A header write changes [d] into [d'] when it changes the field list so. *)
Lemma emit_header i old new d' p :
  header_fields (d_header d) !! i = Some old → length new = length old →
  p = Z.of_nat (sum_list (take i field_widths)) →
  <[i := new]> (header_fields (d_header d)) = header_fields (d_header d') →
  d_cells d' = d_cells d → d_tail d' = d_tail d →
  emit new (at_ (disk_bytes d) p j) =
  at_ (disk_bytes d') (p + Z.of_nat (length new)) (j ++ [disk_bytes d']).
Proof.
  intros Hi Hl Hp Hf Hc Ht. unfold disk_bytes, header_bytes. rewrite Hc, Ht, <- Hf.
  eapply emit_field; [done|done|]. by rewrite header_fields_widths.
Qed.

Local Ltac field i := eapply (emit_header i); try reflexivity; simpl.

Lemma emit_stamp t : stamp_ok t →
  emit (TimeStamp_write t ++ [nl]) (at_ (disk_bytes d) 0 j) =
  at_ (disk_bytes (with_stamp t d)) 27 (j ++ [disk_bytes (with_stamp t d)]).
Proof.
  intros Ht. change (TimeStamp_write t ++ [nl]) with (stamp_text t).
  replace 27 with (0 + Z.of_nat (length (stamp_text t))) by (rewrite stamp_text_length by done; done).
  field 0%nat. destruct Hh. by rewrite !stamp_text_length.
Qed.

Lemma emit_size n : size_ok n →
  emit (fmt 10 fc_s_numberSize n ++ [nl]) (at_ (disk_bytes d) fc_s_stampSize j) =
  at_ (disk_bytes (with_size n d)) fc_s_statusPosition (j ++ [disk_bytes (with_size n d)]).
Proof.
  intros Hn. replace fc_s_statusPosition with (fc_s_stampSize + Z.of_nat (length (fmt 10 fc_s_numberSize n ++ [nl])))
    by (rewrite size_field_length by done; done).
  field 1%nat. destruct Hh. by rewrite !size_field_length.
Qed.

Lemma emit_status s :
  emit [fs_char s; nl] (at_ (disk_bytes d) fc_s_statusPosition j) =
  at_ (disk_bytes (with_status s d)) (fc_s_statusPosition + 2) (j ++ [disk_bytes (with_status s d)]).
Proof. field 2%nat. Qed.

Lemma emit_backup i b : (i < 3)%nat → triple_ok b →
  emit (triple_line b) (at_ (disk_bytes d) (iteratorBackupPosition i) j) =
  at_ (disk_bytes (with_backup i b d)) (iteratorBackupPosition i + 51) (j ++ [disk_bytes (with_backup i b d)]).
Proof.
  intros Hi Hb. replace 51 with (Z.of_nat (length (triple_line b))) by by rewrite triple_line_length.
  destruct Hh. destruct i as [|[|[|]]]; [field 3%nat|field 4%nat|field 5%nat|lia]; by rewrite !triple_line_length.
Qed.

Lemma emit_lbackup pn : pair_ok pn →
  emit (pair_line pn) (at_ (disk_bytes d) (limitsBackupPosition false) j) =
  at_ (disk_bytes (with_lbackup pn d)) (limitsBackupPosition true) (j ++ [disk_bytes (with_lbackup pn d)]).
Proof.
  intros Hpn. replace (limitsBackupPosition true) with (limitsBackupPosition false + Z.of_nat (length (pair_line pn)))
    by by rewrite pair_line_length.
  field 7%nat. destruct Hh. by rewrite !pair_line_length.
Qed.

Lemma emit_limits pn : pair_ok pn →
  emit (pair_line pn) (at_ (disk_bytes d) fc_s_positionPosition j) =
  at_ (disk_bytes (with_limits pn d)) fc_s_listPosition (j ++ [disk_bytes (with_limits pn d)]).
Proof.
  intros Hpn. replace fc_s_listPosition with (fc_s_positionPosition + Z.of_nat (length (pair_line pn)))
    by by rewrite pair_line_length.
  field 9%nat. destruct Hh. by rewrite !pair_line_length.
Qed.

Lemma emit_removed pn : pair_ok pn →
  emit (pair_line pn) (at_ (disk_bytes d) fc_s_listPosition j) =
  at_ (disk_bytes (with_removed pn d)) fc_s_headerSize (j ++ [disk_bytes (with_removed pn d)]).
Proof.
  intros Hpn. replace fc_s_headerSize with (fc_s_listPosition + Z.of_nat (length (pair_line pn)))
    by by rewrite pair_line_length.
  field 10%nat. destruct Hh. by rewrite !pair_line_length.
Qed.

Definition no_backup_bytes : bytes :=
  concat (replicate fc_s_iteratorBackupNumber (backup_line 0 nullIterator))
  ++ FileIterator_write nullIterator ++ [nl] ++ FileIterator_write nullIterator ++ [nl].

(** The six backup fields are overwritten at once. *)
Lemma emit_no_backup :
  emit no_backup_bytes (at_ (disk_bytes d) (fc_s_statusPosition + 2) j) =
  at_ (disk_bytes (with_no_backup d)) fc_s_positionPosition (j ++ [disk_bytes (with_no_backup d)]).
Proof.
  destruct d as [h cs tl]. simpl in *. unfold disk_bytes, header_bytes. simpl d_cells. simpl d_tail. cbn [d_header with_no_backup with_header].
  set (pre := stamp_text (h_stamp h) ++ (fmt 10 fc_s_numberSize (h_size h) ++ [nl]) ++ [fs_char (h_status h); nl]).
  set (old := triple_line (h_backup0 h) ++ triple_line (h_backup1 h) ++ triple_line (h_backup2 h)
              ++ triple_line (h_backup3 h) ++ pair_line (h_lbackup h) ++ pair_line (h_rbackup h)).
  set (post := pair_line (h_limits h) ++ pair_line (h_removed h) ++ cells_bytes cs ++ tl).
  assert (concat (header_fields h) ++ cells_bytes cs ++ tl = pre ++ old ++ post) as ->.
  { unfold pre, old, post, header_fields. cbn [concat]. rewrite <- !app_assoc. reflexivity. }
  rewrite (emit_at_mid _ _ pre old post no_backup_bytes); try done.
  - f_equal; [|f_equal; f_equal]; unfold pre, post, header_fields; cbn [concat]; rewrite <- !app_assoc; reflexivity.
  - unfold pre. destruct Hh. rewrite !length_app, stamp_text_length by done.
    rewrite <- (length_app (fmt _ _ _)), size_field_length by done. reflexivity.
  - unfold old. destruct Hh. rewrite !length_app, !triple_line_length, !pair_line_length by done. reflexivity.
Qed.
End header_writes.

(** ** Header operations as operations on the disk *)

Lemma triple_line_backup it :
  backup_line (fi_current it) it = triple_line (fi_current it, fi_prev it, fi_next it).
Proof. reflexivity. Qed.

Lemma con_bad d p j : bad (at_ (disk_bytes d) p j) = false.
Proof. reflexivity. Qed.

(** The field [i] of the header, with what precedes and follows it. *)
Lemma header_split d i f :
  disk_ok d → header_fields (d_header d) !! i = Some f →
  ∃ a b, disk_bytes d = a ++ f ++ b ∧ length a = sum_list (take i field_widths).
Proof.
  intros Hd Hi. exists (concat (take i (header_fields (d_header d)))),
    (concat (drop (S i) (header_fields (d_header d))) ++ cells_bytes (d_cells d) ++ d_tail d).
  split.
  - unfold disk_bytes, header_bytes. rewrite <- (take_drop_middle _ i f Hi) at 1.
    rewrite concat_app. cbn [concat]. by rewrite <- !app_assoc.
  - rewrite length_concat, fmap_take, header_fields_widths; [done|apply Hd].
Qed.

Section header_ops.
Context (d : disk) (Hd : disk_ok d) (m : FileContainer) (p : Z) (Hp : 0 ≤ p) (j : list bytes).
Let h := d_header d.
Let Hh : header_ok h := ok_header d Hd.

Lemma writeFileStatus_con s :
  writeFileStatus s (con m d p j) =
  (con m (with_status s d) p (j ++ [disk_bytes (with_status s d)]), Ret tt).
Proof.
  unfold writeFileStatus, con. go. rewrite emit_status by done. go. reflexivity.
Qed.

Lemma readFileStatus_con : readFileStatus (con m d p j) = (con m d p j, Ret (h_status h)).
Proof.
  unfold readFileStatus, con. go.
  destruct (header_split d 2 _ Hd eq_refl) as (a & b & E & La).
  erewrite bind_with; [|apply (read_at _ _ a [fs_char (h_status h); nl] b); [exact E|by rewrite La|done]].
  go. unfold mret, M_ret. simpl. by destruct (h_status h).
Qed.

Lemma readSize_con : readSize (con m d p j) = (con (upd_size (h_size h) m) d p j, Ret tt).
Proof.
  unfold readSize, con. go.
  change (upd_size 0 (upd_stream ?x m)) with (upd_stream x (upd_size 0 m)).
  destruct (header_split d 1 _ Hd eq_refl) as (a & b & E & La). go.
  pose proof (fmt10_range_n _ (ok_size _ Hh)) as Hr.
  assert (digits_value 10 (fmt 10 fc_s_numberSize (h_size h)) = h_size h) as V
    by (apply digits_value_fmt; unfold fc_s_numberSize; lia).
  erewrite bind_with; [|eapply (extract_num_at _ _ 10 0 (2 ^ 64 - 1) a [] _ nl b)]; rewrite ?V.
  2: { rewrite E. rewrite <- !app_assoc. reflexivity. }
  - simpl default. go. change (upd_size ?n (upd_stream ?x ?m)) with (upd_stream x (upd_size n m)).
    go. reflexivity.
  - by rewrite La.
  - constructor.
  - apply fmt_digits; unfold fc_s_numberSize; lia.
  - apply fmt_ne. unfold fc_s_numberSize; lia.
  - done.
  - lia.
  - pose proof (ok_size _ Hh). ranges.
  - pose proof (ok_size _ Hh). ranges.
Qed.

Lemma writeAndSetSize_con n : size_ok n →
  writeAndSetSize n (con m d p j) =
  (con (upd_size n m) (with_size n d) p (j ++ [disk_bytes (with_size n d)]), Ret tt).
Proof.
  intros Hn. unfold writeAndSetSize, con. rewrite size_t_id by done. go.
  rewrite emit_size by done. go. reflexivity.
Qed.

Lemma createEmptyBackup_con s :
  let d1 := with_no_backup d in
  createEmptyBackup s (con m d p j) =
  (con m (with_status s d1) p (j ++ [disk_bytes d1; disk_bytes (with_status s d1)]), Ret tt).
Proof.
  intros d1. unfold createEmptyBackup, con. go. fold no_backup_bytes. rewrite emit_no_backup by done. go.
  fold (con m d1 p (j ++ [disk_bytes d1])).
  assert (disk_ok d1) by by apply with_no_backup_ok.
  unfold writeFileStatus, con. go. rewrite emit_status by done. go. by rewrite <- app_assoc.
Qed.
End header_ops.

Section header_ops2.
Context (d : disk) (Hd : disk_ok d) (m : FileContainer) (p : Z) (Hp : 0 ≤ p) (j : list bytes).
Let h := d_header d.
Let Hh : header_ok h := ok_header d Hd.

Lemma writeIteratorBackup_con i it s :
  (i < 3)%nat → triple_ok (fi_current it, fi_prev it, fi_next it) →
  let d1 := with_backup i (fi_current it, fi_prev it, fi_next it) d in
  writeIteratorBackup i it s (con m d p j) =
  (con m (with_status s d1) p (j ++ [disk_bytes d1; disk_bytes (with_status s d1)]), Ret tt).
Proof.
  intros Hi Hit d1. unfold writeIteratorBackup, con.
  assert (0 ≤ iteratorBackupPosition i) by (unfold iteratorBackupPosition, fc_s_statusPosition; lia). go.
  rewrite triple_line_backup, emit_backup by done. go. fold d1. recon.
  rewrite (writeFileStatus_con d1); [by rewrite <- app_assoc|by apply with_backup_ok|done].
Qed.

Lemma writeLimitsBackup_con it s : pair_ok (fi_prev it, fi_next it) →
  let d1 := with_lbackup (fi_prev it, fi_next it) d in
  writeLimitsBackup s it false (con m d p j) =
  (con m (with_status s d1) p (j ++ [disk_bytes d1; disk_bytes (with_status s d1)]), Ret tt).
Proof.
  intros Hit d1. unfold writeLimitsBackup, con. go.
  change (FileIterator_write it ++ [nl]) with (pair_line (fi_prev it, fi_next it)).
  rewrite emit_lbackup by done. go. fold d1. recon.
  rewrite (writeFileStatus_con d1); [by rewrite <- app_assoc|by apply with_lbackup_ok|done].
Qed.

Lemma writeInitialPosition_con it : pair_ok (fi_prev it, fi_next it) →
  let d1 := with_limits (fi_prev it, fi_next it) d in
  writeInitialPosition it false (con m d p j) =
  (con m d1 fc_s_listPosition (j ++ [disk_bytes d1]), Ret tt).
Proof.
  intros Hit d1. unfold writeInitialPosition, con. simpl initialPosition. go.
  change (FileIterator_write it ++ [nl]) with (pair_line (fi_prev it, fi_next it)).
  rewrite emit_limits by done. go. reflexivity.
Qed.

Lemma writeInitialPosition_removed it : pair_ok (fi_prev it, fi_next it) →
  let d1 := with_removed (fi_prev it, fi_next it) d in
  writeInitialPosition it true (con m d p j) =
  (con m d1 fc_s_headerSize (j ++ [disk_bytes d1]), Ret tt).
Proof.
  intros Hit d1. unfold writeInitialPosition, con. simpl initialPosition. go.
  change (FileIterator_write it ++ [nl]) with (pair_line (fi_prev it, fi_next it)).
  rewrite emit_removed by done. go. reflexivity.
Qed.

(** Reading the pair stored in field [i], which starts at [q]. *)
Lemma read_pair_field i pn q it :
  header_fields h !! i = Some (pair_line pn) → pair_ok pn →
  q = Z.of_nat (sum_list (take i field_widths)) →
  FileIterator_read it (at_ (disk_bytes d) q j) =
  (at_ (disk_bytes d) (q + 33) j, FIterator true pn.1 pn.2 (fi_current it)).
Proof.
  intros Hi [Hx Hy] ->. destruct (header_split d i _ Hd Hi) as (a & b & E & La).
  rewrite (FileIterator_read_at _ _ a [] pn.1 pn.2 b); try done.
  - f_equal. f_equal. simpl. lia.
  - rewrite E. unfold pair_line. rewrite <- !app_assoc. reflexivity.
  - by rewrite La.
  - by left.
Qed.

Lemma readInitialPosition_con it :
  readInitialPosition it false (con m d p j) =
  (con m d (fc_s_positionPosition + 33) j, Ret (FIterator true (h_limits h).1 (h_limits h).2 (fi_current it))).
Proof.
  unfold readInitialPosition, con. simpl initialPosition. go.
  erewrite bind_with; [|apply (read_pair_field 9 (h_limits h)); [done|apply Hh|done]].
  simpl. go. reflexivity.
Qed.

Lemma readInitialPosition_removed it :
  readInitialPosition it true (con m d p j) =
  (con m d (fc_s_listPosition + 33) j, Ret (FIterator true (h_removed h).1 (h_removed h).2 (fi_current it))).
Proof.
  unfold readInitialPosition, con. simpl initialPosition. go.
  erewrite bind_with; [|apply (read_pair_field 10 (h_removed h)); [done|apply Hh|done]].
  simpl. go. reflexivity.
Qed.

Lemma readLimitsBackup_con it :
  readLimitsBackup it false (con m d p j) =
  (con m d p j, Ret (FIterator true (h_lbackup h).1 (h_lbackup h).2 (fi_current it))).
Proof.
  unfold readLimitsBackup, con. go.
  erewrite bind_with; [|apply (read_pair_field 7 (h_lbackup h)); [done|apply Hh|done]].
  simpl. go. reflexivity.
Qed.
End header_ops2.

Definition get_backup (i : nat) (h : header) : Z * Z * Z :=
  match i with 0%nat => h_backup0 h | 1%nat => h_backup1 h | 2%nat => h_backup2 h | _ => h_backup3 h end.

Section header_ops3.
Context (d : disk) (Hd : disk_ok d) (m : FileContainer) (p : Z) (Hp : 0 ≤ p) (j : list bytes).
Let h := d_header d.
Let Hh : header_ok h := ok_header d Hd.

Lemma get_backup_ok i : triple_ok (get_backup i h).
Proof. destruct Hh. by destruct i as [|[|[|]]]. Qed.

Lemma readIteratorBackup_con i it : (i < 3)%nat →
  readIteratorBackup i it (con m d p j) =
  (con m d p j, Ret (FIterator true (get_backup i h).1.2 (get_backup i h).2 (get_backup i h).1.1)).
Proof.
  intros Hi. unfold readIteratorBackup, con.
  assert (0 ≤ iteratorBackupPosition i) by (unfold iteratorBackupPosition, fc_s_statusPosition; lia). go.
  set (q := iteratorBackupPosition i).
  destruct (header_split d (3 + i) (triple_line (get_backup i h)) Hd) as (a & b & E & La).
  { by destruct i as [|[|[|]]]; [..|lia]. }
  assert (q = Z.of_nat (length a)) as Hq by (rewrite La; by destruct i as [|[|[|]]]; [..|lia]).
  destruct (get_backup_ok i) as (Ha & Hb & Hc). destruct (get_backup i h) as [[x y] z]. simpl in *.
  assert (disk_bytes d = a ++ (hexoff x ++ sp :: pair_text y z) ++ nl :: b) as E'.
  { rewrite E. unfold triple_line. simpl. rewrite <- !app_assoc. simpl. by rewrite <- !app_assoc. }
  erewrite bind_with; [|apply (getline_at _ _ a _ b); [exact E'|exact Hq|]].
  2: { apply Forall_app; split; [eapply digits_not_nl; eauto with wms|].
       constructor; [done|eauto with wms]. }
  go. change (good (at_ _ _ _)) with true. cbn iota.
  replace (backup_re _) with true by (symmetry; apply backup_re_digits; eauto with wms).
  erewrite bind_with; [|apply (extract_off_at _ _ a [] x sp (pair_text y z ++ nl :: b));
    [rewrite E'; by rewrite <- !app_assoc|exact Hq|constructor|done|done]].
  erewrite bind_with; [|apply (FileIterator_read_at _ _ (a ++ hexoff x) [sp] y z b); try done].
  - go. change (good (at_ _ _ _)) with true. reflexivity.
  - rewrite E'. by rewrite <- !app_assoc.
  - rewrite length_app, hexoff_length by done. simpl. lia.
  - by right.
Qed.

Lemma TimeStamp_read_con t0 :
  TimeStamp_read t0 (at_ (disk_bytes d) 0 j) =
  (at_ (disk_bytes d) 26 j, TStamp true (ts_epoch (h_stamp h)) (ts_counter (h_stamp h))).
Proof.
  destruct (header_split d 0 _ Hd eq_refl) as (a & b & E & La).
  apply (TimeStamp_read_at _ _ a (h_stamp h) b 0); [exact E| |apply Hh]. rewrite La. done.
Qed.

Lemma readStamp_con :
  readStamp (con m d p j) =
  (con (upd_stamp (TStamp true (ts_epoch (h_stamp h)) (ts_counter (h_stamp h))) m) d 26 j, Ret tt).
Proof.
  unfold readStamp, con. go. erewrite bind_with by apply TimeStamp_read_con. go.
  change (upd_stamp ?t (upd_stream ?x m)) with (upd_stream x (upd_stamp t m)). go. reflexivity.
Qed.

(** The stamp a mutating operation leaves in the file and in memory. *)
Definition next_stamp : TimeStamp := update_stamp (fc_now m) (fc_stamp m) (TStamp true (ts_epoch (h_stamp h)) (ts_counter (h_stamp h))).

Lemma updateTimeStamp_con : stamp_ok next_stamp →
  updateTimeStamp (con m d p j) =
  (con (upd_stamp next_stamp m) (with_stamp next_stamp d) 27 (j ++ [disk_bytes (with_stamp next_stamp d)]), Ret tt).
Proof.
  intros Hs. unfold updateTimeStamp, con. go. erewrite bind_with by apply TimeStamp_read_con. cbn [ts_good].
  go. change (upd_stamp ?t (upd_stream ?x m)) with (upd_stream x (upd_stamp t m)).
  change (update_stamp _ _ _) with next_stamp. go. simpl fc_stamp. rewrite emit_stamp by done. go. reflexivity.
Qed.

Lemma checkStamp_con :
  checkStamp (con m d p j) = (con m d 26 j, Ret (ts_gtb (TStamp true (ts_epoch (h_stamp h)) (ts_counter (h_stamp h))) (fc_stamp m))).
Proof. unfold checkStamp, con. go. erewrite bind_with by apply TimeStamp_read_con. cbn [ts_good]. go. reflexivity. Qed.
End header_ops3.
