(* ===== verification/ContainerCells.v ===== *)
(** * Records of a container file

    Records are addressed by their offset.  [find_cell] looks a record up,
    [upd_cell] changes one in place; the record operations of the container
    are shown to be these. *)

From S2P Require Import Prelude Digits Stream FileContainer ContainerFields ContainerDisk.

Fixpoint find_cell (off : Z) (cs : list cell) (p : Z) : option cell :=
  match cs with
  | [] => None
  | c :: cs' => if bool_decide (p = off) then Some c else find_cell (off + cell_len c) cs' p
  end.

Fixpoint upd_cell (off : Z) (cs : list cell) (p : Z) (f : cell → cell) : list cell :=
  match cs with
  | [] => []
  | c :: cs' => if bool_decide (p = off) then f c :: cs' else c :: upd_cell (off + cell_len c) cs' p f
  end.

(** The two changes made to a record in place. *)
Definition set_links (p n : Z) (c : cell) : cell :=
  Cell p n (c_state c) (c_data c) (c_fprev c) (c_fnext c).
Definition set_state (s : ascii) (c : cell) : cell :=
  Cell (c_prev c) (c_next c) s (c_data c) (c_fprev c) (c_fnext c).

Definition cell_at (d : disk) (p : Z) : option cell := find_cell fc_s_headerSize (d_cells d) p.
Definition upd_at (p : Z) (f : cell → cell) (d : disk) : disk :=
  with_cells (upd_cell fc_s_headerSize (d_cells d) p f) d.

#[global] Arguments cell_len : simpl never.

Lemma cell_len_pos c : 0 < cell_len c.
Proof. rewrite cell_len_eq. lia. Qed.

Section find.
Implicit Types (off p q : Z) (cs : list cell) (c : cell).

Lemma find_cell_split off cs p c f :
  find_cell off cs p = Some c →
  ∃ cs1 cs2, cs = cs1 ++ c :: cs2 ∧ p = off + cells_len cs1 ∧ upd_cell off cs p f = cs1 ++ f c :: cs2.
Proof.
  revert off. induction cs as [|c' cs IH]; intros off Hf; simpl in Hf; [done|].
  simpl. case_bool_decide as Hp.
  - injection Hf as ->. exists [], cs. simpl. split_and!; [done|lia|done].
  - apply IH in Hf as (cs1 & cs2 & -> & -> & ->). exists (c' :: cs1), cs2. simpl. split_and!; [done|lia|done].
Qed.

Lemma find_cell_bounds off cs p c :
  find_cell off cs p = Some c → off ≤ p ∧ p + cell_len c ≤ off + cells_len cs.
Proof.
  intros H. destruct (find_cell_split _ _ _ _ id H) as (cs1 & cs2 & -> & -> & _).
  rewrite cells_len_app. simpl. pose proof (cells_len_nonneg cs1). pose proof (cells_len_nonneg cs2). lia.
Qed.

Lemma find_cell_lt off cs p : p < off → find_cell off cs p = None.
Proof.
  intros H. destruct (find_cell off cs p) as [c|] eqn:E; [|done]. apply find_cell_bounds in E. lia.
Qed.

Lemma find_cell_ge off cs p : off + cells_len cs ≤ p → find_cell off cs p = None.
Proof.
  intros H. destruct (find_cell off cs p) as [c|] eqn:E; [|done]. apply find_cell_bounds in E.
  pose proof (cell_len_pos c). lia.
Qed.

Lemma find_cell_app off cs cs' p :
  p < off + cells_len cs → find_cell off (cs ++ cs') p = find_cell off cs p.
Proof.
  revert off. induction cs as [|c cs IH]; intros off H; simpl in *; [by apply find_cell_lt; lia|].
  case_bool_decide; [done|]. apply IH. lia.
Qed.

Lemma find_cell_last off cs c : find_cell off (cs ++ [c]) (off + cells_len cs) = Some c.
Proof.
  revert off. induction cs as [|c' cs IH]; intros off; simpl.
  - case_bool_decide; [done|lia].
  - pose proof (cell_len_pos c'). pose proof (cells_len_nonneg cs). case_bool_decide; [lia|].
    replace (off + (cell_len c' + cells_len cs)) with (off + cell_len c' + cells_len cs) by lia. apply IH.
Qed.

Lemma find_upd off cs p q f :
  (∀ c, cell_len (f c) = cell_len c) →
  find_cell off (upd_cell off cs p f) q =
  if bool_decide (q = p) then f <$> find_cell off cs q else find_cell off cs q.
Proof.
  intros Hf. revert off. induction cs as [|c cs IH]; intros off; simpl; [by case_bool_decide|].
  destruct (decide (p = off)) as [->|Hp].
  - rewrite (bool_decide_true (off = off)) by done. simpl. rewrite Hf. by case_bool_decide.
  - rewrite (bool_decide_false (p = off)) by done. simpl. rewrite IH.
    destruct (decide (q = off)) as [->|Hq].
    + rewrite (bool_decide_true (off = off)), (bool_decide_false (off = p)) by congruence. done.
    + by rewrite (bool_decide_false (q = off)).
Qed.

Lemma upd_cells_len off cs p f : (∀ c, cell_len (f c) = cell_len c) → cells_len (upd_cell off cs p f) = cells_len cs.
Proof.
  intros Hf. revert off. induction cs as [|c cs IH]; intros off; simpl; [done|].
  case_bool_decide; simpl; [by rewrite Hf|]. by rewrite IH.
Qed.

Lemma upd_cell_ok off cs p f : Forall cell_ok cs → (∀ c, cell_ok c → cell_ok (f c)) → Forall cell_ok (upd_cell off cs p f).
Proof.
  intros H Hf. revert off. induction H as [|c cs Hc Hcs IH]; intros off; simpl; [constructor|].
  case_bool_decide; constructor; auto.
Qed.
End find.

Lemma set_links_len p n c : cell_len (set_links p n c) = cell_len c.
Proof. reflexivity. Qed.
Lemma set_state_len s c : cell_len (set_state s c) = cell_len c.
Proof. reflexivity. Qed.
Lemma set_links_ok p n c : pair_ok (p, n) → cell_ok c → cell_ok (set_links p n c).
Proof. intros ? []. split; done. Qed.
Lemma set_state_ok s c : s = "g"%char ∨ s = "i"%char → cell_ok c → cell_ok (set_state s c).
Proof. intros ? []. split; done. Qed.

Lemma upd_at_ok p f d : disk_ok d → (∀ c, cell_ok c → cell_ok (f c)) → disk_ok (upd_at p f d).
Proof. intros H Hf. apply with_cells_ok; [done|]. apply upd_cell_ok; [apply H|done]. Qed.

Lemma upd_at_end p f d : (∀ c, cell_len (f c) = cell_len c) → disk_end (upd_at p f d) = disk_end d.
Proof. intros Hf. unfold disk_end, upd_at. simpl. by rewrite upd_cells_len. Qed.

Lemma cell_at_upd p f q d : (∀ c, cell_len (f c) = cell_len c) →
  cell_at (upd_at p f d) q = if bool_decide (q = p) then f <$> cell_at d q else cell_at d q.
Proof. intros. by apply find_upd. Qed.

#[export] Hint Resolve set_links_ok set_state_ok upd_at_ok : wms.

(** ** A record in the bytes of the file *)

Section cell_ops.
Context (d : disk) (Hd : disk_ok d) (m : FileContainer) (j : list bytes).
Context (p : Z) (c : cell) (Hc : cell_at d p = Some c).

Lemma cell_at_ok : cell_ok c.
Proof.
  destruct (find_cell_split _ _ _ _ id Hc) as (cs1 & cs2 & E & _).
  destruct Hd as [_ Hcs]. rewrite E, Forall_app, Forall_cons in Hcs. apply Hcs.
Qed.

Lemma cell_at_bounds : fc_s_headerSize ≤ p ∧ p + cell_len c ≤ disk_end d.
Proof. destruct (find_cell_bounds _ _ _ _ Hc). unfold disk_end. lia. Qed.

Lemma cell_at_lt : fc_s_headerSize ≤ p < disk_end d.
Proof. pose proof cell_at_bounds. pose proof (cell_len_pos c). lia. Qed.

Lemma cell_split f :
  ∃ a b, disk_bytes d = a ++ cell_bytes c ++ b ∧ Z.of_nat (length a) = p ∧
         disk_bytes (upd_at p f d) = a ++ cell_bytes (f c) ++ b.
Proof.
  destruct (find_cell_split _ _ _ _ f Hc) as (cs1 & cs2 & E & -> & Eu).
  exists (header_bytes (d_header d) ++ cells_bytes cs1), (cells_bytes cs2 ++ d_tail d).
  unfold disk_bytes, upd_at. simpl. rewrite Eu, E, !cells_bytes_app, !cells_bytes_cons.
  split_and!; [by rewrite <- !app_assoc| |by rewrite <- !app_assoc].
  rewrite length_app. pose proof (header_bytes_length _ (ok_header _ Hd)).
  destruct Hd as [_ Hcs]. rewrite E, Forall_app in Hcs. destruct Hcs as [Hcs _].
  pose proof (cells_bytes_length _ Hcs). lia.
Qed.

Lemma readIteratorHere_cell it :
  readIteratorHere it (con m d p j) = (con m d (p + 34) j, Ret (FIterator true (c_prev c) (c_next c) p)).
Proof.
  destruct (cell_split id) as (a & b & E & La & _). destruct (ok_links _ cell_at_ok) as [Hx Hy].
  assert (disk_bytes d = a ++ pair_text (c_prev c) (c_next c) ++ nl :: drop 34 (cell_bytes c) ++ b) as E'.
  { rewrite E. unfold cell_bytes at 1 2. rewrite <- (pair_line_length (c_prev c, c_next c)) by done.
    rewrite drop_app_length. unfold pair_line at 1. simpl. by rewrite <- !app_assoc. }
  unfold readIteratorHere, con. go.
  erewrite bind_with; [|apply (FileIterator_read_at _ _ a [] (c_prev c) (c_next c) (drop 34 (cell_bytes c) ++ b));
    [exact E'|lia|by left|done|done]].
  cbn [fi_good].
  erewrite bind_with; [|apply (get_char_at _ _ (a ++ pair_text (c_prev c) (c_next c)) nl (drop 34 (cell_bytes c) ++ b))].
  - simpl. go. change (good (at_ _ _ _)) with true. cbn iota. recon.
    unfold mret, M_ret, set_current. simpl. f_equal. f_equal; lia.
  - rewrite E'. by rewrite <- !app_assoc.
  - rewrite length_app, pair_text_length by done. simpl. lia.
Qed.

Lemma readIterator_cell q it :
  readIterator p it false (con m d q j) = (con m d (p + 34) j, Ret (FIterator true (c_prev c) (c_next c) p)).
Proof.
  unfold readIterator. rewrite (bind_Ret _ _ _ _ _ (getEnd_con _ _ _ _ Hd)).
  pose proof cell_at_lt. rewrite bool_decide_true by done. unfold con. unfold fc_s_headerSize in *. go. recon.
  rewrite (bind_Ret _ _ _ _ _ (readIteratorHere_cell it)). reflexivity.
Qed.

Lemma readSizeAndState_cell :
  readSizeAndState (con m d (p + 34) j) =
  (con m d (p + 60) j, Ret (Z.of_nat (length (c_data c)), c_state c)).
Proof.
  destruct (cell_split id) as (a & b & E & La & _). pose proof cell_at_ok as Hok.
  pose proof (ok_links _ Hok) as Hl. pose proof (cell_data_ok _ Hok) as Hs.
  set (n := Z.of_nat (length (c_data c))) in *.
  set (a' := a ++ pair_line (c_prev c, c_next c)).
  set (b' := (c_data c ++ [nl]) ++ pair_line (c_fprev c, c_fnext c) ++ b).
  set (ds := fmt 10 fc_s_sizeSize n).
  pose proof (fmt10_range_z _ Hs) as Hr.
  assert (disk_bytes d = a' ++ (ds ++ [sp; c_state c]) ++ nl :: b') as E'.
  { rewrite E. unfold a', b', ds, cell_bytes, size_line. fold n. rewrite size_t_id by done.
    rewrite <- !app_assoc. done. }
  assert (Z.of_nat (length a') = p + 34) as La' by (unfold a'; rewrite length_app, pair_line_length by done; lia).
  assert (Forall (λ c, is_digit 10 c = true) ds) as Fd by (apply fmt_digits; unfold fc_s_sizeSize; lia).
  assert (length ds = 23%nat) as Ld by (apply length_fmt; unfold fc_s_sizeSize; lia).
  assert (ds ≠ []) as Nd by (apply fmt_ne; unfold fc_s_sizeSize; lia).
  assert (digits_value 10 ds = n) as Vd by (apply digits_value_fmt; unfold fc_s_sizeSize; lia).
  unfold readSizeAndState, con. pose proof cell_at_lt. unfold fc_s_headerSize in *. go.
  erewrite bind_with; [|apply (getline_at _ _ a' (ds ++ [sp; c_state c]) b'); [exact E'|done|]].
  2: { apply Forall_app; split; [by eapply digits_not_nl|].
       destruct (ok_state _ Hok) as [-> | ->]; by repeat constructor. }
  rewrite size_re_digits by (try done; apply Hok). cbn iota. go.
  erewrite bind_with; [|apply (extract_num_at _ _ 10 0 (2 ^ 64 - 1) a' [] ds sp ([c_state c] ++ nl :: b'));
    rewrite ?Vd; try done; try ranges].
  2: { rewrite E'. by rewrite <- !app_assoc. }
  erewrite bind_with; [|apply (extract_char_at _ _ (a' ++ ds) [sp] (c_state c) (nl :: b'))].
  2: { rewrite E'. by rewrite <- !app_assoc. }
  2: { rewrite length_app. simpl. lia. }
  2: { by repeat constructor. }
  2: { destruct (ok_state _ Hok) as [-> | ->]; done. }
  go.
  erewrite bind_with; [|apply (get_char_at _ _ (a' ++ ds ++ [sp; c_state c]) nl b')].
  - simpl. rewrite Vd. recon. unfold mret, M_ret. simpl. f_equal. rewrite Ld. f_equal. simpl. lia.
  - rewrite E'. by rewrite <- !app_assoc.
  - rewrite !length_app. simpl. lia.
Qed.
End cell_ops.

(** ** Positions that are no record *)

Lemma readIterator_end d m q j it :
  disk_ok d →
  readIterator (disk_end d) it false (con m d q j) = (con m d (disk_end d) j, Ret (reset 0 0 (disk_end d) it)).
Proof.
  intros Hd. unfold readIterator. rewrite (bind_Ret _ _ _ _ _ (getEnd_con _ _ _ _ Hd)).
  rewrite bool_decide_false by lia. rewrite bool_decide_true by done. reflexivity.
Qed.

(** ** In-place changes of a record *)

Lemma cell_bytes_links p n c :
  cell_bytes (set_links p n c) =
  pair_line (p, n) ++ size_line (Z.of_nat (length (c_data c))) (c_state c) ++ (c_data c ++ [nl]) ++ pair_line (c_fprev c, c_fnext c).
Proof. reflexivity. Qed.

Section cell_writes.
Context (d : disk) (Hd : disk_ok d) (m : FileContainer) (j : list bytes).
Context (p : Z) (c : cell) (Hc : cell_at d p = Some c).

Lemma emit_links x y : pair_ok (x, y) →
  let d1 := upd_at p (set_links x y) d in
  emit (pair_line (x, y)) (at_ (disk_bytes d) p j) = at_ (disk_bytes d1) (p + 34) (j ++ [disk_bytes d1]).
Proof.
  intros Hxy d1. destruct (cell_split _ Hd _ _ Hc (set_links x y)) as (a & b & E & La & E1).
  pose proof (ok_links _ (cell_at_ok _ Hd _ _ Hc)) as Hl.
  set (t := size_line (Z.of_nat (length (c_data c))) (c_state c) ++ (c_data c ++ [nl]) ++ pair_line (c_fprev c, c_fnext c)).
  rewrite (emit_at_mid _ _ a (pair_line (c_prev c, c_next c)) (t ++ b)).
  - fold d1 in E1. rewrite E1, cell_bytes_links. fold t. rewrite pair_line_length by done.
    rewrite <- !app_assoc. done.
  - rewrite E. unfold cell_bytes. fold t. by rewrite <- !app_assoc.
  - lia.
  - by rewrite !pair_line_length.
Qed.

Lemma emit_state s :
  let d1 := upd_at p (set_state s) d in
  emit (size_line (Z.of_nat (length (c_data c))) s) (at_ (disk_bytes d) (p + 34) j) =
  at_ (disk_bytes d1) (p + 60) (j ++ [disk_bytes d1]).
Proof.
  intros d1. destruct (cell_split _ Hd _ _ Hc (set_state s)) as (a & b & E & La & E1).
  pose proof (cell_at_ok _ Hd _ _ Hc) as Hok. pose proof (ok_links _ Hok) as Hl. pose proof (cell_data_ok _ Hok) as Hs.
  set (t := (c_data c ++ [nl]) ++ pair_line (c_fprev c, c_fnext c)).
  rewrite (emit_at_mid _ _ (a ++ pair_line (c_prev c, c_next c)) (size_line (Z.of_nat (length (c_data c))) (c_state c)) (t ++ b)).
  - fold d1 in E1. rewrite E1.
    change (cell_bytes (set_state s c)) with
      (pair_line (c_prev c, c_next c) ++ size_line (Z.of_nat (length (c_data c))) s ++ t).
    rewrite size_line_length by done.
    replace (p + 34 + Z.of_nat 26) with (p + 60) by lia. rewrite <- !app_assoc. done.
  - rewrite E. unfold cell_bytes. fold t. by rewrite <- !app_assoc.
  - rewrite length_app, pair_line_length by done. lia.
  - by rewrite !size_line_length.
Qed.

Lemma writeIterator_cell q it : pair_ok (fi_prev it, fi_next it) →
  let d1 := upd_at p (set_links (fi_prev it) (fi_next it)) d in
  writeIterator p it (con m d q j) = (con m d1 (p + 34) (j ++ [disk_bytes d1]), Ret tt).
Proof.
  intros Hit d1. destruct (cell_at_lt _ _ _ Hc) as [Hlo Hhi].
  unfold writeIterator. rewrite bool_decide_true by done. unfold con. unfold fc_s_headerSize in Hlo. go.
  change (FileIterator_write it ++ [nl]) with (pair_line (fi_prev it, fi_next it)).
  rewrite emit_links by done. go. reflexivity.
Qed.
End cell_writes.

Section header_rewrite.
Context (d : disk) (Hd : disk_ok d) (m : FileContainer) (j : list bytes).
Context (p : Z) (c : cell) (Hc : cell_at d p = Some c).

(** [writeDataHeader] over an existing record: its links, then its state. *)
Lemma writeDataHeader_cell it s : pair_ok (fi_prev it, fi_next it) →
  let d1 := upd_at p (set_links (fi_prev it) (fi_next it)) d in
  let d2 := upd_at p (set_state s) d1 in
  writeDataHeader it (Z.of_nat (length (c_data c))) s (con m d p j) =
  (con m d2 (p + 60) (j ++ [disk_bytes d1; disk_bytes d2]), Ret tt).
Proof.
  intros Hit d1 d2. unfold writeDataHeader, con. go.
  change (FileIterator_write it ++ [nl]) with (pair_line (fi_prev it, fi_next it)).
  rewrite (emit_links d Hd _ p c Hc) by done. fold d1.
  assert (disk_ok d1) by (unfold d1; eauto with wms).
  assert (cell_at d1 p = Some (set_links (fi_prev it) (fi_next it) c)) as Hc1.
  { unfold d1. rewrite cell_at_upd by apply set_links_len. by rewrite bool_decide_true, Hc. }
  pose proof (emit_state d1 ltac:(done) (j ++ [disk_bytes d1]) p _ Hc1 s) as Hs. cbn [set_links c_data] in Hs.
  rewrite Hs. go. by rewrite <- app_assoc.
Qed.

End header_rewrite.

Lemma cell_at_header f d p : cell_at (with_header f d) p = cell_at d p.
Proof. reflexivity. Qed.

Section mark.
Context (d : disk) (Hd : disk_ok d) (m : FileContainer) (j : list bytes).
Context (p : Z) (c : cell) (Hc : cell_at d p = Some c).

Lemma markDataAsErased_cell q it s :
  0 ≤ q → fi_current it = p → pair_ok (fi_prev it, fi_next it) → off_ok p →
  let d1 := with_backup 2 (p, fi_prev it, fi_next it) d in
  let d2 := with_status s d1 in
  let d3 := upd_at p (set_links (fi_prev it) (fi_next it)) d2 in
  let d4 := upd_at p (set_state "i") d3 in
  markDataAsErased it (Z.of_nat (length (c_data c))) s (con m d q j) =
  (con m d4 (p + 60) (j ++ [disk_bytes d1; disk_bytes d2; disk_bytes d3; disk_bytes d4]), Ret tt).
Proof.
  intros Hq Hcur Hit Hp d1 d2 d3 d4. unfold markDataAsErased.
  assert (triple_ok (fi_current it, fi_prev it, fi_next it)) as Ht by (rewrite Hcur; by destruct Hit).
  erewrite bind_Ret by (apply writeIteratorBackup_con; [done|lia|lia|done]).
  rewrite Hcur in *. fold d1 d2. assert (disk_ok d2) by (unfold d2, d1; eauto with wms).
  unfold con. unfold off_ok in Hp. go. change (good (at_ _ _ _)) with true. cbn iota. recon.
  erewrite bind_Ret by (apply (writeDataHeader_cell d2); done).
  unfold con. go. recon. fold d3 d4. by rewrite <- app_assoc.
Qed.
End mark.

(** ** Reading the data of a record *)

Lemma read_slices_at m d j fuel : ∀ a data b acc,
  d = a ++ data ++ b → (length data < fuel)%nat →
  read_slices fuel (Z.of_nat (length data)) acc (upd_stream (Some (at_ d (Z.of_nat (length a)) j)) m) =
  (upd_stream (Some (at_ d (Z.of_nat (length a + length data)) j)) m, Ret (acc ++ data)).
Proof.
  induction fuel as [|f IH]; intros a data b acc Hd Hf; [lia|]. cbn [read_slices].
  destruct data as [|x data'] eqn:Edata.
  - rewrite bool_decide_true by done. rewrite app_nil_r. simpl. by rewrite Nat.add_0_r.
  - rewrite <- Edata in *. assert (0 < length data)%nat by (rewrite Edata; simpl; lia). clear x data' Edata.
    rewrite bool_decide_false by lia.
    set (n := if bool_decide (BUFSIZ < Z.of_nat (length data)) then BUFSIZ else Z.of_nat (length data)).
    assert (0 < n ≤ Z.of_nat (length data)) as Hn
      by (unfold n; case_bool_decide; unfold BUFSIZ in *; lia).
    assert (length (take (Z.to_nat n) data) = Z.to_nat n) as Lt by (rewrite length_take; lia).
    erewrite bind_with; [|apply (read_at _ _ a (take (Z.to_nat n) data) (drop (Z.to_nat n) data ++ b));
      [rewrite Hd, (app_assoc (take _ _)), take_drop; done|done|done]].
    rewrite Lt, Z2Nat.id by lia. rewrite bool_decide_true by done.
    replace (Z.of_nat (length data) - n) with (Z.of_nat (length (drop (Z.to_nat n) data)))
      by (rewrite length_drop; lia).
    replace (Z.of_nat (length a) + n) with (Z.of_nat (length (a ++ take (Z.to_nat n) data)))
      by (rewrite length_app, Lt; lia).
    rewrite (IH (a ++ take (Z.to_nat n) data) (drop (Z.to_nat n) data) b).
    + rewrite <- app_assoc, take_drop. rewrite length_app, Lt, length_drop.
      replace (length a + _ + _)%nat with (length a + length data)%nat by lia. done.
    + rewrite Hd, <- app_assoc, (app_assoc (take _ _)), take_drop. done.
    + rewrite length_drop. lia.
Qed.

Section read_record.
Context (d : disk) (Hd : disk_ok d) (m : FileContainer) (j : list bytes).
Context (p : Z) (c : cell) (Hc : cell_at d p = Some c).

(** A record in use gives back its data, whatever the data. *)
Lemma readDataHere_cell it itl force :
  c_state c = "g"%char ∨ force = true →
  readDataHere it itl force (con m d p j) =
  (con m d (p + cell_len c - 1) j,
   Ret (FIterator true (c_prev c) (c_next c) p, FIterator true (c_fprev c) (c_fnext c) (fi_current itl), c_data c)).
Proof.
  intros Hst. unfold readDataHere. pose proof (cell_at_ok _ Hd _ _ Hc) as Hok.
  erewrite bind_Ret by (apply catch_Ret, (readIteratorHere_cell d Hd m j p c Hc)).
  erewrite bind_Ret by (apply (readSizeAndState_cell d Hd m j p c Hc)). cbv beta iota.
  assert (bool_decide (c_state c = "g"%char) || force && bool_decide (c_state c = "i"%char) = true) as ->.
  { destruct (ok_state _ Hok) as [E|E]; rewrite E in *; [done|].
    destruct Hst as [Hst|Hst]; [done|by rewrite Hst]. }
  destruct (cell_split _ Hd _ _ Hc id) as (a & b & E & La & _).
  pose proof (cell_data_ok _ Hok) as Hs. pose proof (ok_links _ Hok) as Hl.
  destruct (ok_flinks _ Hok) as [Hfp Hfn].
  set (a1 := a ++ pair_line (c_prev c, c_next c) ++ size_line (Z.of_nat (length (c_data c))) (c_state c)).
  assert (disk_bytes d = a1 ++ c_data c ++ nl :: pair_text (c_fprev c) (c_fnext c) ++ nl :: b) as E1.
  { rewrite E. unfold a1, cell_bytes, pair_line. simpl. rewrite <- !app_assoc. simpl. by rewrite <- ?app_assoc. }
  assert (Z.of_nat (length a1) = p + 60) as La1.
  { unfold a1. rewrite !length_app, pair_line_length, size_line_length by done. lia. }
  unfold con. go. rewrite <- La1.
  erewrite bind_Ret; [|apply (read_slices_at _ _ _ _ a1 (c_data c) (nl :: pair_text (c_fprev c) (c_fnext c) ++ nl :: b));
    [exact E1|simpl; rewrite E1, !length_app; simpl; lia]].
  erewrite bind_with; [|apply (get_char_at _ _ (a1 ++ c_data c) nl (pair_text (c_fprev c) (c_fnext c) ++ nl :: b));
    [rewrite E1; by rewrite <- !app_assoc|by rewrite length_app]].
  rewrite bool_decide_true by done.
  erewrite bind_with; [|apply (FileIterator_read_at _ _ (a1 ++ c_data c ++ [nl]) [] (c_fprev c) (c_fnext c) b);
    [rewrite E1; by rewrite <- !app_assoc|rewrite !length_app; simpl; lia|by left|done|done]].
  go. change (good (at_ _ _ _)) with true. cbn iota. cbn [fi_good]. recon.
  unfold mret, M_ret. simpl length. simpl app. f_equal. f_equal. rewrite cell_len_eq. lia.
Qed.
End read_record.

(** ** Appending a record *)

Lemma disk_bytes_tail d t : disk_bytes (with_tail t d) = header_bytes (d_header d) ++ cells_bytes (d_cells d) ++ t.
Proof. reflexivity. Qed.

Lemma emit_tail d m j t new :
  disk_ok d → d_tail d = t →
  upd_stream (Some (emit new (at_ (disk_bytes d) (disk_end d) j))) m =
  con m (with_tail (t ++ new) d) (disk_end d + Z.of_nat (length new)) (j ++ [disk_bytes (with_tail (t ++ new) d)]).
Proof.
  intros Hd Ht. rewrite emit_at_end by by rewrite disk_bytes_length.
  assert (disk_bytes d ++ new = disk_bytes (with_tail (t ++ new) d)) as ->; [|done].
  rewrite disk_bytes_tail. unfold disk_bytes. rewrite Ht. by rewrite <- !app_assoc.
Qed.

Definition add_cell (c : cell) (d : disk) : disk := with_cells (d_cells d ++ [c]) (with_tail [] d).

Lemma add_cell_ok c d : disk_ok d → cell_ok c → disk_ok (add_cell c d).
Proof.
  intros Hd Hc. apply with_cells_ok; [by apply with_tail_ok|]. apply Forall_app; split; [apply Hd|by constructor].
Qed.

Lemma add_cell_end c d : d_tail d = [] → disk_end (add_cell c d) = disk_end d + cell_len c.
Proof. intros H. unfold disk_end, add_cell. simpl. rewrite H, cells_len_app. simpl. lia. Qed.

Section append.
Context (d : disk) (Hd : disk_ok d) (Ht : d_tail d = []) (m : FileContainer) (j : list bytes) (p : Z) (Hp : 0 ≤ p).
Context (it lit : FileIterator) (data : bytes).
Context (Hit : pair_ok (fi_prev it, fi_next it)) (Hlit : pair_ok (fi_prev lit, fi_next lit)).
Context (Hdata : 0 < Z.of_nat (length data) < 2 ^ 64).

Definition new_cell : cell := Cell (fi_prev it) (fi_next it) "g" data (fi_prev lit) (fi_next lit).

Lemma new_cell_ok : cell_ok new_cell.
Proof. split; try done. by left. Qed.

(** The disk after each write of [writeDataHere]. *)
Definition written (s : filestatus_t) : list disk :=
  let d1 := with_status s d in
  [ d1; with_tail (pair_line (fi_prev it, fi_next it)) d1;
    with_tail (pair_line (fi_prev it, fi_next it) ++ size_line (Z.of_nat (length data)) "g") d1;
    add_cell new_cell d1; with_status (fs_succ s) (add_cell new_cell d1) ].

Lemma writeDataHere_con s :
  writeDataHere it lit data s (con m d p j) =
  (con m (with_status (fs_succ s) (add_cell new_cell (with_status s d))) (disk_end d + cell_len new_cell)
     (j ++ (disk_bytes <$> written s)), Ret tt).
Proof.
  unfold writeDataHere. rewrite bool_decide_true by lia.
  assert (0 ≤ disk_end d) as He.
  { unfold disk_end, fc_s_headerSize. pose proof (cells_len_nonneg (d_cells d)). lia. }
  rewrite bind_assoc. unfold con at 1. rewrite bind_on, seek_end_at, disk_bytes_length by done. recon.
  rewrite bind_assoc. erewrite bind_Ret by (apply writeFileStatus_con; [done|done]).
  set (d1 := with_status s d). assert (disk_ok d1) as Hd1 by by apply with_status_ok.
  change (disk_end d) with (disk_end d1) in *.
  rewrite bind_assoc. unfold writeDataHeader. rewrite bind_assoc. unfold con at 1. rewrite bind_on.
  change (FileIterator_write it ++ [nl]) with (pair_line (fi_prev it, fi_next it)).
  rewrite (emit_tail d1 _ _ [] _ Hd1) by done. rewrite app_nil_l.
  set (d2 := with_tail (pair_line (fi_prev it, fi_next it)) d1).
  assert (disk_ok d2) as Hd2 by by apply with_tail_ok.
  replace (disk_end d1 + Z.of_nat (length (pair_line _))) with (disk_end d2).
  2: { unfold disk_end, d2. simpl. rewrite Ht. simpl. lia. }
  rewrite bind_assoc. unfold con at 1. rewrite bind_on, (emit_tail d2 _ _ _ _ Hd2 eq_refl).
  set (d3 := with_tail _ d2). assert (disk_ok d3) as Hd3 by by apply with_tail_ok.
  replace (disk_end d2 + Z.of_nat (length (size_line _ _))) with (disk_end d3).
  2: { unfold disk_end, d3, d2. simpl. rewrite length_app. lia. }
  unfold con at 1. rewrite bind_check by done.
  change (FileIterator_write lit ++ [nl]) with (pair_line (fi_prev lit, fi_next lit)).
  rewrite bind_assoc, bind_on, (emit_tail d3 _ _ _ _ Hd3 eq_refl).
  set (d4 := with_tail _ d3). assert (disk_bytes d4 = disk_bytes (add_cell new_cell d1)) as E4.
  { unfold d4. rewrite disk_bytes_tail. unfold disk_bytes, add_cell. simpl. rewrite cells_bytes_app. unfold cells_bytes at 3.
    simpl. unfold cell_bytes. simpl. rewrite !app_nil_r. rewrite <- !app_assoc. done. }
  unfold con at 1. rewrite E4. go. recon.
  assert (disk_ok (add_cell new_cell d1)) as Hd4 by (apply add_cell_ok; [done|apply new_cell_ok]).
  replace (disk_end d3 + Z.of_nat (length _)) with (disk_end d1 + cell_len new_cell).
  2: { rewrite <- cell_bytes_length by apply new_cell_ok. unfold disk_end, d3, d2, d1, cell_bytes.
       cbn [with_tail with_status with_header d_tail d_cells new_cell c_prev c_next c_state c_data c_fprev c_fnext].
       rewrite Ht, !length_app. cbn [length]. lia. }
  erewrite writeFileStatus_con by (try done; pose proof (cell_len_pos new_cell); lia).
  unfold written. fold d1. simpl. rewrite <- !app_assoc. simpl. reflexivity.
Qed.
End append.
