(* ===== verification/ContainerList.v ===== *)
(** * The list a container file stands for

    [chain] says that records are doubly linked in the order of a list of
    (offset, data) pairs; [repr] that a closed container file stands for
    such a list; [rep] that a container object, with its stream, does. *)

From S2P Require Import Prelude Digits Stream FileContainer ContainerFields ContainerDisk ContainerCells.

Abbreviation entry := (Z * bytes)%type.

(** First and last offset of a list of entries, with a default. *)
Definition head_pos (e : Z) (l : list entry) : Z := match l with [] => e | (p, _) :: _ => p end.
Fixpoint last_pos (e : Z) (l : list entry) : Z := match l with [] => e | (p, _) :: l' => last_pos p l' end.

(** The record of one entry, with its two links. *)
Definition linked (d : disk) (p : Z) (x : bytes) (prev next : Z) : Prop :=
  ∃ c, cell_at d p = Some c ∧ c_prev c = prev ∧ c_next c = next ∧ c_state c = "g"%char ∧ c_data c = x.

(** [chain d prev l e]: the entries of [l] are linked one after the other;
    the first one points back to [prev], the last one on to [e]. *)
Fixpoint chain (d : disk) (prev : Z) (l : list entry) (e : Z) : Prop :=
  match l with
  | [] => True
  | (p, x) :: l' => linked d p x prev (head_pos e l') ∧ chain d p l' e
  end.

Section chain.
Implicit Types (d : disk) (l : list entry).

Lemma head_pos_app e l l' : head_pos e (l ++ l') = head_pos (head_pos e l') l.
Proof. by destruct l as [|[]]. Qed.
Lemma last_pos_app e l l' : last_pos e (l ++ l') = last_pos (last_pos e l) l'.
Proof. revert e. induction l as [|[p x] l IH]; intros e; simpl; auto. Qed.

Lemma chain_app d prev l l' e :
  chain d prev (l ++ l') e ↔ chain d prev l (head_pos e l') ∧ chain d (last_pos prev l) l' e.
Proof.
  revert prev. induction l as [|[p x] l IH]; intros prev; simpl; [tauto|].
  rewrite IH, head_pos_app. tauto.
Qed.

(** The record of any entry, found in the middle of the list. *)
Lemma chain_mid d prev l1 p x l2 e :
  chain d prev (l1 ++ (p, x) :: l2) e → linked d p x (last_pos prev l1) (head_pos e l2).
Proof. rewrite chain_app. simpl. tauto. Qed.

Lemma chain_ext d d' prev l e :
  (∀ p, p ∈ l.*1 → cell_at d' p = cell_at d p) → chain d prev l e → chain d' prev l e.
Proof.
  revert prev. induction l as [|[p x] l IH]; intros prev Hext; simpl; [done|]. intros [(c & Hc & Hrest) H].
  split; [exists c; rewrite Hext by (apply elem_of_cons; by left); done|]. apply IH; [intros q Hq; apply Hext, elem_of_cons; by right|done].
Qed.

Lemma chain_cells d prev l e p : chain d prev l e → p ∈ l.*1 → is_Some (cell_at d p).
Proof.
  revert prev. induction l as [|[q x] l IH]; intros prev; simpl; [set_solver|].
  intros [(c & Hc & _) H] Hin. apply elem_of_cons in Hin as [->|Hin]; eauto.
Qed.

(** Changing a record outside the list. *)
Lemma chain_upd_other d p f prev l e :
  (∀ c, cell_len (f c) = cell_len c) → p ∉ l.*1 → chain d prev l e → chain (upd_at p f d) prev l e.
Proof.
  intros Hf Hp. apply chain_ext. intros q Hq. rewrite cell_at_upd by done.
  rewrite bool_decide_false; [done|congruence].
Qed.

Lemma linked_upd d p x prev next prev' next' :
  linked d p x prev next → linked (upd_at p (set_links prev' next') d) p x prev' next'.
Proof.
  intros (c & Hc & _ & _ & Hs & Hx). exists (set_links prev' next' c).
  rewrite cell_at_upd by apply set_links_len. rewrite bool_decide_true by done. by rewrite Hc.
Qed.

Lemma last_pos_in prev l : l ≠ [] → last_pos prev l ∈ l.*1.
Proof.
  revert prev. induction l as [|[p x] l IH]; intros prev H; [done|]. simpl.
  destruct l as [|e l]; [set_solver|]. apply elem_of_cons. right. by apply IH.
Qed.
Lemma head_pos_in e l : l ≠ [] → head_pos e l ∈ l.*1.
Proof. destruct l as [|[p x] l]; [done|]. simpl. set_solver. Qed.

Lemma last_pos_ne e e' l : l ≠ [] → last_pos e l = last_pos e' l.
Proof. by destruct l as [|[]]. Qed.
Lemma head_pos_ne e e' l : l ≠ [] → head_pos e l = head_pos e' l.
Proof. by destruct l as [|[]]. Qed.

(** A non-empty list, from its last entry. *)
Lemma snoc_cases l : l ≠ [] → ∃ l' p x, l = l' ++ [(p, x)].
Proof. intros H. destruct l as [|[p x] l' _] using rev_ind; [done|]. eauto. Qed.

(** *** Relinking one end of a list *)

Lemma chain_set_prev d prev prev' p x l e n :
  n = head_pos e l → p ∉ l.*1 →
  chain d prev ((p, x) :: l) e → chain (upd_at p (set_links prev' n) d) prev' ((p, x) :: l) e.
Proof.
  intros -> Hp [H1 H2]. split; [by eapply linked_upd|].
  apply chain_upd_other; [apply set_links_len|done|done].
Qed.

Lemma chain_set_next d prev l p x e e' q :
  q = last_pos prev l → p ∉ l.*1 →
  chain d prev (l ++ [(p, x)]) e → chain (upd_at p (set_links q e') d) prev (l ++ [(p, x)]) e'.
Proof.
  intros -> Hp. rewrite !chain_app. intros [H1 [H2 _]]. split; [|split; [by eapply linked_upd|done]].
  simpl in *. apply chain_upd_other; [apply set_links_len|done|done].
Qed.
End chain.

(** ** Offsets of the records of a file *)

Fixpoint offsets (off : Z) (cs : list cell) : list Z :=
  match cs with [] => [] | c :: cs' => off :: offsets (off + cell_len c) cs' end.

Lemma offsets_length off cs : length (offsets off cs) = length cs.
Proof. revert off. induction cs as [|c cs IH]; intros off; simpl; auto. Qed.

Lemma find_cell_offsets off cs p c : find_cell off cs p = Some c → p ∈ offsets off cs.
Proof.
  revert off. induction cs as [|c' cs IH]; intros off; simpl; [done|].
  case_bool_decide; [by subst; set_solver|]. intros Hf. apply IH in Hf. set_solver.
Qed.

Lemma cells_len_count cs : 95 * Z.of_nat (length cs) ≤ cells_len cs.
Proof. induction cs as [|c cs IH]; simpl; [lia|]. rewrite cell_len_eq. lia. Qed.

(** A list cannot have more entries than the file has bytes. *)
Lemma chain_length d prev l e :
  chain d prev l e → NoDup l.*1 → 95 * Z.of_nat (length l) ≤ cells_len (d_cells d).
Proof.
  intros Hc Hnd. pose proof (cells_len_count (d_cells d)).
  assert (length l ≤ length (d_cells d))%nat; [|lia].
  rewrite <- (length_fmap fst l), <- (offsets_length fc_s_headerSize (d_cells d)).
  apply submseteq_length, NoDup_submseteq; [done|].
  intros p Hp. destruct (chain_cells _ _ _ _ _ Hc Hp) as [c Hf]. by eapply find_cell_offsets.
Qed.

Lemma disk_end_pos d : fc_s_headerSize ≤ disk_end d.
Proof. unfold disk_end. pose proof (cells_len_nonneg (d_cells d)). lia. Qed.

Lemma disk_end_ge0 d : 0 ≤ disk_end d.
Proof. pose proof (disk_end_pos d). unfold fc_s_headerSize in *. lia. Qed.
#[export] Hint Resolve disk_end_ge0 : wms.

(** ** Representation *)

Record repr (d : disk) (l : list entry) : Prop := {
  rep_ok : disk_ok d;
  rep_tail : d_tail d = [];
  rep_size : h_size (d_header d) = Z.of_nat (length l);
  rep_limits : h_limits (d_header d) = (head_pos fc_s_headerSize l, last_pos fc_s_headerSize l);
  rep_chain : chain d 0 l (disk_end d);
  rep_nodup : NoDup l.*1;
  rep_empty : l = [] → d_cells d = [];
  rep_room : disk_end d ≤ off_max
}.

Lemma empty_end d l : repr d l → l = [] → disk_end d = fc_s_headerSize.
Proof.
  intros Hr El. unfold disk_end. rewrite (rep_empty _ _ Hr El), (rep_tail _ _ Hr). simpl. unfold fc_s_headerSize. lia.
Qed.

(** What a disk needs to carry the list [l], whatever its status, its
    backups and its element count. *)
Record body (d : disk) (l : list entry) : Prop := {
  body_ok : disk_ok d;
  body_tail : d_tail d = [];
  body_limits : h_limits (d_header d) = (head_pos fc_s_headerSize l, last_pos fc_s_headerSize l);
  body_chain : chain d 0 l (disk_end d);
  body_nodup : NoDup l.*1;
  body_room : disk_end d ≤ off_max
}.

Lemma repr_body d l : repr d l → body d l.
Proof. intros []. by split. Qed.

(** A change of the header other than the limits. *)
Lemma body_header d l f :
  body d l → disk_ok (with_header f d) → h_limits (f (d_header d)) = h_limits (d_header d) → body (with_header f d) l.
Proof. intros [] Hok Hl. split; try done; [by rewrite <- body_limits0, <- Hl|by eapply chain_ext, body_chain0]. Qed.

Lemma body_end_ok d l : body d l → off_ok (disk_end d).
Proof. intros []. pose proof (disk_end_pos d). unfold off_ok, fc_s_headerSize in *. lia. Qed.

Lemma body_cell_off d l p c : body d l → cell_at d p = Some c → off_ok p.
Proof. intros [] Hc. pose proof (cell_at_lt _ _ _ Hc). unfold off_ok, fc_s_headerSize in *. lia. Qed.

(** What the object remembers of the file it is open on. *)
Record mem_ok (m : FileContainer) (d : disk) : Prop := {
  mem_init : fc_initialized m = true;
  mem_size : fc_size m = h_size (d_header d);
  mem_prev : fi_prev (fc_limits m) = (h_limits (d_header d)).1;
  mem_next : fi_next (fc_limits m) = (h_limits (d_header d)).2;
  mem_now : off_ok (fc_now m);
  mem_stamp : stamp_ok (fc_stamp m);
  mem_fresh : ts_gtb (h_stamp (d_header d)) (fc_stamp m) = false
}.

(** A container object at rest: the file is closed, stands for [l], and the
    object has not missed any change of it. *)
Definition rep (c : FileContainer) (l : list entry) : Prop :=
  ∃ m d p j, c = con m d p j ∧ 0 ≤ p ∧ repr d l ∧ h_status (d_header d) = closed ∧ mem_ok m d.

(** Offset one past the last record: what [end()] denotes. *)
Definition end_of (c : FileContainer) : Z :=
  match fc_stream c with Some st => Z.of_nat (length (f_data st)) | None => 0 end.

Lemma end_of_con m d p j : disk_ok d → end_of (con m d p j) = disk_end d.
Proof. intros Hd. unfold end_of. cbn [con upd_stream fc_stream at_ f_data]. by apply disk_bytes_length. Qed.
