(* ===== verification/ContainerAdd.v ===== *)
(** * Adding to a container

    [add_data] at the end, at the beginning and in the middle of the list:
    each returns, and leaves a container that stands for the list with the
    new entry at that place.  The disks a call goes through are kept, for
    the crash analysis of [ContainerRecovery]. *)

From S2P Require Import Prelude Digits Stream FileContainer ContainerFields ContainerDisk ContainerCells ContainerList.

(** ** The check before every operation *)

Section prologue.
Context (m : FileContainer) (d : disk) (p : Z) (j : list bytes).
Context (Hd : disk_ok d) (Hp : 0 ≤ p) (Hst : h_status (d_header d) = closed).

Lemma checkStream_closed : checkStream (con m d p j) = (con m d p j, Ret tt).
Proof.
  unfold checkStream, checkStream_only. rewrite bind_assoc, bind_field. cbn [stream_down con upd_stream fc_stream bad f_bad at_].
  erewrite bind_Ret by by apply readFileStatus_con. rewrite Hst. by rewrite bool_decide_false by (intros []; done).
Qed.

Context (Hm : mem_ok m d).

Lemma checkStreamAndStamp_closed : checkStreamAndStamp (con m d p j) = (con m d 26 j, Ret tt).
Proof.
  unfold checkStreamAndStamp. erewrite bind_Ret by apply checkStream_closed. unfold check_modified.
  erewrite bind_Ret by by apply checkStamp_con.
  match goal with |- (if ?b then _ else _) _ = _ =>
    change b with (ts_gtb (h_stamp (d_header d)) (fc_stamp m)) end.
  by rewrite (mem_fresh _ _ Hm).
Qed.

Lemma prologue_closed r : prologue r (con m d p j) = (con m d 26 j, Ret tt).
Proof.
  unfold prologue. rewrite bind_field. cbn [con upd_stream fc_initialized]. rewrite (mem_init _ _ Hm).
  unfold on_modified. apply catch_Ret, checkStreamAndStamp_closed.
Qed.
End prologue.

Lemma end_after_prologue_closed m d p j s :
  disk_ok d → 0 ≤ p → h_status (d_header d) = closed → mem_ok m d →
  end_after_prologue s (con m d p j) = (con m d 26 j, Ret (disk_end d)).
Proof.
  intros Hd Hp Hst Hm. unfold end_after_prologue. erewrite bind_Ret by by apply getEnd_con.
  rewrite bind_field. cbn [con upd_stream fc_initialized]. rewrite (mem_init _ _ Hm).
  unfold on_modified. apply catch_Ret. erewrite bind_Ret; [done|].
  apply checkStreamAndStamp_closed; auto with wms.
Qed.

(** The stamp written by an operation is well formed and is the newest. *)
Lemma next_stamp_ok d m : disk_ok d → off_ok (fc_now m) → stamp_ok (fc_stamp m) → stamp_ok (next_stamp d m).
Proof.
  intros Hd Hn [Hs1 Hs2]. destruct (ok_stamp _ (ok_header _ Hd)) as [Hf1 Hf2].
  assert (∀ z, 0 ≤ ushort z < 2 ^ 16) as Hu by (intros; apply Z.mod_pos_bound; lia).
  unfold next_stamp, update_stamp. simpl.
  repeat case_bool_decide; simpl; repeat case_bool_decide; split; simpl; auto; lia.
Qed.

Lemma ts_gtb_irrefl t : ts_gtb t t = false.
Proof. unfold ts_gtb. apply bool_decide_false. lia. Qed.

(** ** At the end *)

(** The disks after the writes of the second half of [addDataAtEnd]. *)
Definition end_limits (b : disk) (lim : Z * Z) (e : Z) : disk :=
  with_limits (lim.1, e) (with_status ae_limits (with_lbackup lim b)).
Definition end_disks (b : disk) (lim : Z * Z) (e : Z) (it lit : FileIterator) (data : bytes) : list disk :=
  [with_lbackup lim b; with_status ae_limits (with_lbackup lim b); end_limits b lim e]
  ++ written (end_limits b lim e) it lit data ae_writing.
Definition end_final (b : disk) (lim : Z * Z) (e : Z) (it lit : FileIterator) (data : bytes) : disk :=
  with_status ae_written (add_cell (new_cell it lit data) (with_status ae_writing (end_limits b lim e))).

Lemma end_final_ok b lim e it lit data :
  disk_ok b → pair_ok lim → off_ok e → pair_ok (fi_prev it, fi_next it) → pair_ok (fi_prev lit, fi_next lit) →
  0 < Z.of_nat (length data) < 2 ^ 64 → disk_ok (end_final b lim e it lit data).
Proof.
  intros Hb Hl He Hi Hli Hx. apply with_status_ok, add_cell_ok; [|by apply new_cell_ok].
  apply with_status_ok, with_limits_ok; [|split; [apply Hl|done]]. by apply with_status_ok, with_lbackup_ok.
Qed.

Section add_end.
Context (m : FileContainer) (j : list bytes) (p : Z) (Hp : 0 ≤ p) (data : bytes) (it : FileIterator).
Context (d : disk) (Hd : disk_ok d) (Ht : d_tail d = []).
Let e := disk_end d.
Let lim := (fi_prev (fc_limits m), fi_next (fc_limits m)).
Let nx := e + calculateDataSize (Z.of_nat (length data)).
Context (Hlim : pair_ok lim) (Hdata : 0 < Z.of_nat (length data)) (Hroom : nx ≤ off_max).

Local Lemma e_ok : off_ok e.
Proof.
  pose proof (disk_end_pos d). unfold nx in Hroom. rewrite calculateDataSize_eq in Hroom.
  unfold off_ok, e, fc_s_headerSize in *. lia.
Qed.
Local Lemma nx_ok : off_ok nx.
Proof. pose proof e_ok. unfold off_ok, nx in *. rewrite calculateDataSize_eq in *. lia. Qed.
Local Lemma data_lt : 0 < Z.of_nat (length data) < 2 ^ 64.
Proof. pose proof e_ok. unfold off_ok, nx, off_max in *. rewrite calculateDataSize_eq in *. lia. Qed.

(** The end iterator and the file-order iterator of the new record. *)
Definition end_it (pv : Z) : FileIterator := FIterator (fi_good it) pv nx e.
Definition end_lit (g : bool) : FileIterator := FIterator g (fi_next (fc_limits m)) nx e.

(** The second half, from any disk [b] with the same end. *)
Lemma addDataAtEnd_tail b pv t q j' :
  disk_ok b → d_tail b = [] → disk_end b = e → 0 ≤ q → off_ok pv →
  (writeLimitsBackup ae_limits (fc_limits m) false;;
   modify (upd_limits (set_next e (fc_limits m)));;
   l ← field fc_limits;
   writeInitialPosition l false;;
   writeDataHere (reset pv nx e it) (reset (fi_next (fc_limits m)) nx e t) data ae_writing;;
   mret (reset pv nx e it)) (con m b q j') =
  (con (upd_limits (set_next e (fc_limits m)) m) (end_final b lim e (end_it pv) (end_lit (fi_good t)) data) nx
     (j' ++ (disk_bytes <$> end_disks b lim e (end_it pv) (end_lit (fi_good t)) data)), Ret (end_it pv)).
Proof.
  intros Hb Hbt Hbe Hq Hpv. pose proof e_ok as Eok. pose proof nx_ok as Nok. pose proof data_lt as Dlt.
  destruct Hlim as [Hl1 Hl2].
  erewrite bind_Ret by (apply writeLimitsBackup_con; done).
  rewrite bind_modify, bind_field.
  match goal with |- context [upd_limits ?l (con m ?x ?y ?z)] =>
    change (upd_limits l (con m x y z)) with (con (upd_limits l m) x y z) end.
  cbn [con upd_stream upd_limits fc_limits]. recon. fold lim.
  assert (disk_ok (with_status ae_limits (with_lbackup lim b))) as Hb2 by auto with wms.
  erewrite bind_Ret by (apply writeInitialPosition_con; done).
  cbn [set_next fi_prev fi_next]. change (fi_prev (fc_limits m), e) with (lim.1, e). fold (end_limits b lim e).
  assert (disk_ok (end_limits b lim e)) as Hb3 by (apply with_limits_ok; [done|by split]).
  erewrite bind_Ret; [|apply (writeDataHere_con (end_limits b lim e)); try done; unfold fc_s_listPosition; try lia].
  unfold mret, M_ret. f_equal. change (disk_end (end_limits b lim e)) with (disk_end b). rewrite Hbe.
  f_equal. rewrite <- !app_assoc. reflexivity.
Qed.
(** On an empty list. *)
Lemma addDataAtEnd_nil :
  fi_next (fc_limits m) = e →
  addDataAtEnd data it e (con m d p j) =
  (con (upd_limits (set_next e (fc_limits m)) m) (end_final d lim e (end_it 0) (end_lit true) data) nx
     (j ++ (disk_bytes <$> end_disks d lim e (end_it 0) (end_lit true) data)), Ret (end_it 0)).
Proof.
  intros Hn. unfold addDataAtEnd. rewrite bind_field. cbn [con upd_stream fc_limits].
  rewrite bool_decide_true by done. rewrite bind_mret. recon. cbn [fst snd].
  apply (addDataAtEnd_tail d 0 nullIterator); done.
Qed.

(** After the last element, the record [c] at [q]. *)
Context (q : Z) (c : cell) (Hc : cell_at d q = Some c) (Hnext : c_next c = e).
Definition end_backup : disk := with_backup 0 (q, c_prev c, e) d.
Definition end_base : disk := upd_at q (set_links (c_prev c) e) (with_status ae_iterator end_backup).

Lemma end_base_ok : disk_ok end_base.
Proof.
  pose proof (cell_at_ok _ Hd _ _ Hc) as Hok. destruct (ok_links _ Hok) as [H1 H2].
  pose proof (cell_at_lt _ _ _ Hc) as Hlt. pose proof e_ok as Eok. fold e in Hlt.
  assert (off_ok q) by (unfold off_ok, fc_s_headerSize in *; lia).
  apply upd_at_ok; [|intros c0 ?; apply set_links_ok; [by split|done]].
  apply with_status_ok, with_backup_ok; [done|by split_and!].
Qed.

Lemma addDataAtEnd_cons :
  fi_next (fc_limits m) = q →
  addDataAtEnd data it e (con m d p j) =
  (con (upd_limits (set_next e (fc_limits m)) m) (end_final end_base lim e (end_it q) (end_lit true) data) nx
     (j ++ (disk_bytes <$> ([end_backup; with_status ae_iterator end_backup; end_base]
                             ++ end_disks end_base lim e (end_it q) (end_lit true) data))), Ret (end_it q)).
Proof.
  intros Hn. pose proof end_base_ok as Bok. pose proof (cell_at_ok _ Hd _ _ Hc) as Hok.
  destruct (ok_links _ Hok) as [H1 H2]. pose proof (cell_at_lt _ _ _ Hc) as Hlt. pose proof e_ok as Eok. fold e in Hlt.
  assert (off_ok q) as Hq by (unfold off_ok, fc_s_headerSize in *; lia).
  unfold addDataAtEnd. rewrite bind_field. cbn [con upd_stream fc_limits]. recon. rewrite Hn.
  rewrite bool_decide_false by lia. rewrite bind_assoc.
  erewrite bind_Ret by (apply readIterator_cell; done). rewrite Hnext. rewrite bind_assoc.
  unfold fc_s_headerSize in Hlt.
  erewrite bind_Ret by (apply writeIteratorBackup_con; try done; try lia; by split_and!).
  cbn [fi_current fi_prev fi_next]. fold end_backup. rewrite bind_assoc.
  assert (disk_ok (with_status ae_iterator end_backup)) as Bk
    by (apply with_status_ok, with_backup_ok; [done|by split_and!]).
  erewrite bind_Ret by (apply (writeIterator_cell _ Bk _ _ _ c Hc); by split).
  cbn [set_next fi_current fi_prev fi_next]. fold end_base. rewrite bind_mret. cbn [fst snd].
  rewrite <- Hn. erewrite (addDataAtEnd_tail end_base (fi_next (fc_limits m))); rewrite ?Hn; try done; [|by apply upd_at_end|lia].
  cbn [fi_good]. f_equal. rewrite <- !app_assoc. reflexivity.
Qed.
End add_end.


(** ** The frame of [add_data] *)

Definition add_opened (m : FileContainer) (d : disk) : disk := with_status opened (with_stamp (next_stamp d m) d).
Definition add_closed (n : Z) (d : disk) : list disk :=
  [with_no_backup d; with_status ad_empty (with_no_backup d); with_size n (with_status ad_empty (with_no_backup d));
   with_status closed (with_size n (with_status ad_empty (with_no_backup d)))].
Definition add_final (n : Z) (d : disk) : disk :=
  with_status closed (with_size n (with_status ad_empty (with_no_backup d))).

Definition add_branch (data : bytes) (where_ end_ begin_ : Z) (it : FileIterator) : FC FileIterator :=
  if bool_decide (where_ = end_) then addDataAtEnd data it end_
  else if bool_decide (where_ = begin_) then addDataAtBegin data it end_
  else addDataInMiddle data it where_ end_.

Section add_frame.
Context (m : FileContainer) (d : disk) (p : Z) (j : list bytes) (Hp : 0 ≤ p).
Context (Hd : disk_ok d) (Hst : h_status (d_header d) = closed) (Hm : mem_ok m d).

Lemma opened_ok : stamp_ok (next_stamp d m).
Proof. apply next_stamp_ok; [done|apply Hm|apply Hm]. Qed.
Lemma add_opened_ok : disk_ok (add_opened m d).
Proof. apply with_status_ok, with_stamp_ok; [done|apply opened_ok]. Qed.

(** What runs before and after the branch that links the new record. *)
Lemma add_data_frame data where_ it m2 d2 p2 j2 it' :
  add_branch data where_ (disk_end d) (fi_prev (fc_limits m)) it
    (con (upd_stamp (next_stamp d m) m) (add_opened m d) 27
       (j ++ (disk_bytes <$> [with_stamp (next_stamp d m) d; add_opened m d])))
    = (con m2 d2 p2 j2, Ret it') →
  0 ≤ p2 → disk_ok d2 → size_ok (fc_size m2 + 1) →
  add_data data where_ it (con m d p j) =
  (con (upd_size (fc_size m2 + 1) m2) (add_final (fc_size m2 + 1) d2) p2
     (j2 ++ (disk_bytes <$> add_closed (fc_size m2 + 1) d2)), Ret it').
Proof.
  intros Hbr Hp2 Hd2 Hn. pose proof opened_ok as Os. unfold add_data.
  erewrite bind_Ret by by apply end_after_prologue_closed.
  erewrite bind_Ret by by apply updateTimeStamp_con.
  erewrite bind_Ret by (apply writeFileStatus_con; [by apply with_stamp_ok|done]).
  unfold getBegin. rewrite bind_field. rewrite <- app_assoc. erewrite bind_Ret by exact Hbr.
  erewrite bind_Ret by by apply createEmptyBackup_con.
  rewrite bind_field. cbn [con upd_stream fc_size]. recon.
  assert (disk_ok (with_status ad_empty (with_no_backup d2))) by auto with wms.
  erewrite bind_Ret by by apply writeAndSetSize_con.
  erewrite bind_Ret by (apply writeFileStatus_con; auto with wms).
  unfold mret, M_ret. f_equal. rewrite <- !app_assoc. reflexivity.
Qed.
End add_frame.

(** The list after the update, from what the branch leaves on disk. *)
Lemma add_final_repr d2 l :
  disk_ok d2 → d_tail d2 = [] → h_limits (d_header d2) = (head_pos fc_s_headerSize l, last_pos fc_s_headerSize l) →
  chain d2 0 l (disk_end d2) → NoDup l.*1 → (l = [] → d_cells d2 = []) → disk_end d2 ≤ off_max →
  repr (add_final (Z.of_nat (length l)) d2) l.
Proof.
  intros Hd Ht Hl Hc Hnd Hne Hr. split; try done; [|by eapply chain_ext, Hc].
  apply with_status_ok, with_size_ok; [auto with wms|].
  pose proof (chain_length _ _ _ _ Hc Hnd). unfold disk_end, off_max in Hr. rewrite Ht in Hr. unfold size_ok.
  unfold fc_s_headerSize in *. simpl in *. lia.
Qed.

Lemma body_final d l : body d l → (l = [] → d_cells d = []) → repr (add_final (Z.of_nat (length l)) d) l.
Proof. intros [] Hne. by apply add_final_repr. Qed.

Lemma repr_size_ok d l : repr d l → disk_end d + 96 ≤ off_max → size_ok (Z.of_nat (length l) + 1).
Proof.
  intros H Hr. pose proof (chain_length _ _ _ _ (rep_chain _ _ H) (rep_nodup _ _ H)). unfold disk_end, off_max in Hr.
  unfold size_ok, fc_s_headerSize in *. lia.
Qed.

Lemma last_pos_snoc e l p (x : bytes) : last_pos e (l ++ [(p, x)]) = p.
Proof. by rewrite last_pos_app. Qed.
Lemma head_pos_snoc e l p (x : bytes) : head_pos e (l ++ [(p, x)]) = head_pos p l.
Proof. by rewrite head_pos_app. Qed.
Lemma last_pos_0 l : l ≠ [] → last_pos 0 l = last_pos fc_s_headerSize l.
Proof. apply last_pos_ne. Qed.

(** A record appended at the end is found there; the others stay. *)
Lemma cell_at_add d c q :
  d_tail d = [] → cell_at (add_cell c d) q = if bool_decide (q = disk_end d) then Some c else cell_at d q.
Proof.
  intros Ht. unfold cell_at, add_cell, disk_end. rewrite Ht. simpl. rewrite Z.add_0_r.
  generalize fc_s_headerSize as off. induction (d_cells d) as [|c0 cs IH]; intros off; simpl.
  - rewrite Z.add_0_r. by repeat case_bool_decide.
  - rewrite IH. pose proof (cell_len_pos c0). pose proof (cells_len_nonneg cs).
    rewrite !Z.add_assoc. repeat case_bool_decide; try done; lia.
Qed.

Lemma chain_add d c prev l e : d_tail d = [] → disk_end d ∉ l.*1 → chain d prev l e → chain (add_cell c d) prev l e.
Proof.
  intros Ht He. apply chain_ext. intros q Hq. rewrite cell_at_add by done.
  rewrite bool_decide_false; [done|congruence].
Qed.

Lemma chain_end_fresh d prev l e : chain d prev l e → disk_end d ∉ l.*1.
Proof.
  intros Hc Hin. destruct (chain_cells _ _ _ _ _ Hc Hin) as [c Hf]. pose proof (cell_at_lt _ _ _ Hf). lia.
Qed.

(** The list after the second half of [addDataAtEnd]. *)
Lemma end_final_end b lim e it lit data :
  d_tail b = [] → disk_end (end_final b lim e it lit data) = disk_end b + calculateDataSize (Z.of_nat (length data)).
Proof. intros Ht. by apply (add_cell_end (new_cell it lit data) (with_status ae_writing (end_limits b lim e))). Qed.

Lemma end_final_body b lim e it lit data l :
  disk_ok (end_final b lim e it lit data) → d_tail b = [] → disk_end b = e → chain b 0 l e → NoDup l.*1 →
  lim.1 = head_pos e l → fi_prev it = last_pos 0 l → fi_next it = e + calculateDataSize (Z.of_nat (length data)) →
  e + calculateDataSize (Z.of_nat (length data)) ≤ off_max →
  body (end_final b lim e it lit data) (l ++ [(e, data)]).
Proof.
  intros Hok Hbt Hbe Hch Hnd Hl1 Hi1 Hi2 Hroom.
  assert (e ∉ l.*1) as Hfresh by (rewrite <- Hbe; by eapply chain_end_fresh).
  assert (disk_end (end_final b lim e it lit data) = e + calculateDataSize (Z.of_nat (length data))) as Hend.
  { rewrite <- Hbe. by apply end_final_end. }
  assert (∀ q, cell_at (end_final b lim e it lit data) q = cell_at (add_cell (new_cell it lit data) b) q) as Hext by done.
  split; try done.
  - rewrite last_pos_snoc, head_pos_snoc. rewrite <- Hl1. done.
  - rewrite Hend. apply chain_app. split; [|split; [|done]].
    + eapply (chain_ext (add_cell (new_cell it lit data) b)); [done|].
      apply chain_add; [done|by rewrite Hbe|done].
    + exists (new_cell it lit data). rewrite Hext, cell_at_add by done. rewrite bool_decide_true by done.
      split_and!; [done|done|exact Hi2|done|done].
  - rewrite fmap_app, NoDup_app. split_and!; [done| |apply NoDup_singleton].
    intros z Hz Hin. apply Hfresh. simpl in Hin. apply elem_of_cons in Hin as [->|Hin]; [done|]. by apply elem_of_nil in Hin.
  - by rewrite Hend.
Qed.

Section append.
Context (m : FileContainer) (d : disk) (p : Z) (j : list bytes) (l : list entry).
Context (Hp : 0 ≤ p) (Hr : repr d l) (Hst : h_status (d_header d) = closed) (Hm : mem_ok m d).
Context (data : bytes) (it : FileIterator).
Context (Hdata : 0 < Z.of_nat (length data)) (Hroom : disk_end d + calculateDataSize (Z.of_nat (length data)) ≤ off_max).
Let e := disk_end d.
Let m1 := upd_stamp (next_stamp d m) m.
Let d1 := add_opened m d.
Let lim := h_limits (d_header d).
Let n := Z.of_nat (length l) + 1.

Lemma mem_limits : (fi_prev (fc_limits m), fi_next (fc_limits m)) = h_limits (d_header d).
Proof. rewrite (mem_prev _ _ Hm), (mem_next _ _ Hm). by destruct (h_limits (d_header d)). Qed.

Lemma append_room : disk_end d + 96 ≤ off_max.
Proof. rewrite calculateDataSize_eq in Hroom. lia. Qed.

(** What the object remembers after an update that wrote [d2]. *)
Lemma mem_ok_after ml d2 k :
  fi_prev ml = (h_limits (d_header d2)).1 → fi_next ml = (h_limits (d_header d2)).2 →
  h_stamp (d_header d2) = next_stamp d m →
  mem_ok (upd_size k (upd_limits ml m1)) (add_final k d2).
Proof.
  intros H1 H2 H3. split; simpl; try done; try apply Hm.
  - apply opened_ok; [apply Hr|done].
  - rewrite H3. apply ts_gtb_irrefl.
Qed.

Definition append_it (g : bool) (pv : Z) : FileIterator :=
  FIterator g pv (e + calculateDataSize (Z.of_nat (length data))) e.
Abbreviation fileorder_it := (append_it true lim.2).

Local Lemma e_x_ok : off_ok e ∧ off_ok (e + calculateDataSize (Z.of_nat (length data))).
Proof.
  pose proof (disk_end_pos d). unfold off_ok, fc_s_headerSize, e in *. rewrite calculateDataSize_eq in *. lia.
Qed.
Local Lemma d1_ok : disk_ok d1.
Proof. apply add_opened_ok; [apply Hr|done]. Qed.
Local Lemma lim_ok : pair_ok lim.
Proof. apply (ok_limits _ (ok_header _ (rep_ok _ _ Hr))). Qed.

(** Disks of an append whose first half ends in [b], after [pre]. *)
Definition append_last (b : disk) (pv : Z) : disk := end_final b lim e (append_it (fi_good it) pv) fileorder_it data.
Definition append_disks (pre : list disk) (b : disk) (pv : Z) : list disk :=
  ([with_stamp (next_stamp d m) d; d1] ++ pre ++ end_disks b lim e (append_it (fi_good it) pv) fileorder_it data)
  ++ add_closed n (append_last b pv).

Lemma append_last_ok b pv : disk_ok b → off_ok pv → disk_ok (append_last b pv).
Proof.
  intros Hb Hpv. destruct e_x_ok as [He Hx]. pose proof lim_ok as Hl.
  apply (end_final_ok b lim e (append_it (fi_good it) pv) fileorder_it data); [exact Hb|exact Hl|exact He|by split|split; [apply Hl|exact Hx]|].
  unfold off_ok, off_max in *. rewrite calculateDataSize_eq in *. lia.
Qed.

Lemma append_run pre b pv :
  disk_ok b → off_ok pv →
  (∀ jj, addDataAtEnd data it e (con m1 d1 27 jj) =
    (con (upd_limits (set_next e (fc_limits m)) m1) (append_last b pv) (e + calculateDataSize (Z.of_nat (length data)))
       (jj ++ (disk_bytes <$> (pre ++ end_disks b lim e (append_it (fi_good it) pv) fileorder_it data))),
     Ret (append_it (fi_good it) pv))) →
  add_data data e it (con m d p j) =
  (con (upd_size n (upd_limits (set_next e (fc_limits m)) m1)) (add_final n (append_last b pv))
     (e + calculateDataSize (Z.of_nat (length data))) (j ++ (disk_bytes <$> append_disks pre b pv)), Ret (append_it (fi_good it) pv)).
Proof.
  intros Hb Hpv Hrun. destruct e_x_ok as [He Hx].
  assert (fc_size m + 1 = n) as Hsz by (unfold n; rewrite (mem_size _ _ Hm), (rep_size _ _ Hr); done).
  assert (size_ok n) as Hn by (eapply repr_size_ok; [done|apply append_room]).
  erewrite (add_data_frame m d p j Hp (rep_ok _ _ Hr) Hst Hm data e it).
  2: { unfold add_branch. rewrite bool_decide_true by done. apply Hrun. }
  - cbn [m1 upd_limits upd_stamp fc_size]. rewrite Hsz. unfold append_disks.
    rewrite !fmap_app, <- !app_assoc. reflexivity.
  - apply Hx.
  - by apply append_last_ok.
  - cbn [m1 upd_limits upd_stamp fc_size]. by rewrite Hsz.
Qed.

Lemma append_repr b pv :
  disk_ok b → d_tail b = [] → disk_end b = e → chain b 0 l e → pv = last_pos 0 l → off_ok pv →
  repr (add_final n (append_last b pv)) (l ++ [(e, data)]).
Proof.
  intros Hb Hbt Hbe Hch -> Hpv.
  assert (n = Z.of_nat (length (l ++ [(e, data)]))) as Hn by (rewrite length_app; simpl; unfold n; lia).
  rewrite Hn. apply body_final; [|by destruct l].
  apply (end_final_body b lim e (append_it (fi_good it) (last_pos 0 l)) fileorder_it data l); [by apply append_last_ok|exact Hbt|exact Hbe|exact Hch|apply Hr| |reflexivity|reflexivity|exact Hroom].
  unfold lim. rewrite (rep_limits _ _ Hr). simpl. destruct (decide (l = [])) as [El|El]; [|by apply head_pos_ne].
  rewrite El. symmetry. by eapply empty_end.
Qed.

Lemma append_end b pv :
  d_tail b = [] → disk_end b = e → disk_end (add_final n (append_last b pv)) = e + calculateDataSize (Z.of_nat (length data)).
Proof. intros Ht <-. exact (end_final_end b lim (disk_end b) (append_it (fi_good it) pv) fileorder_it data Ht). Qed.

(** *** The first element *)
Lemma append_nil_run :
  l = [] →
  add_data data e it (con m d p j) =
  (con (upd_size n (upd_limits (set_next e (fc_limits m)) m1)) (add_final n (append_last d1 0))
     (e + calculateDataSize (Z.of_nat (length data))) (j ++ (disk_bytes <$> append_disks [] d1 0)), Ret (append_it (fi_good it) 0)).
Proof.
  intros Hl. pose proof mem_limits as Ml. apply append_run; [apply d1_ok|apply off_ok_0|]. intros jj.
  assert (fi_next (fc_limits m) = e) as Hfn.
  { rewrite (mem_next _ _ Hm), (rep_limits _ _ Hr), Hl. unfold e, disk_end.
    rewrite (rep_empty _ _ Hr Hl), (rep_tail _ _ Hr). simpl. unfold fc_s_headerSize. lia. }
  rewrite (addDataAtEnd_nil m1) with (d := d1); try done; try apply d1_ok.
  - unfold end_it, end_lit, append_last, append_it. cbn [m1 upd_stamp fc_limits]. rewrite Ml.
    replace (fi_next (fc_limits m)) with lim.2 by (unfold lim; by rewrite <- Ml). reflexivity.
  - apply (rep_tail _ _ Hr).
  - cbn [m1 upd_stamp fc_limits]. rewrite Ml. apply lim_ok.
Qed.

(** *** After the record [c] at [q] *)
Section nonempty.
Context (q : Z) (c : cell) (Hc : cell_at d q = Some c) (Hnext : c_next c = e) (Hq : lim.2 = q).

Definition append_base : disk := upd_at q (set_links (c_prev c) e) (with_status ae_iterator (with_backup 0 (q, c_prev c, e) d1)).
Definition append_pre : list disk :=
  [with_backup 0 (q, c_prev c, e) d1; with_status ae_iterator (with_backup 0 (q, c_prev c, e) d1); append_base].

Lemma append_cons_run :
  add_data data e it (con m d p j) =
  (con (upd_size n (upd_limits (set_next e (fc_limits m)) m1)) (add_final n (append_last append_base q))
     (e + calculateDataSize (Z.of_nat (length data)))
     (j ++ (disk_bytes <$> append_disks append_pre append_base q)), Ret (append_it (fi_good it) q)).
Proof.
  pose proof mem_limits as Ml. pose proof d1_ok as Hd1. pose proof lim_ok as Hl.
  assert (fi_next (fc_limits m) = q) as Hfn by (rewrite (mem_next _ _ Hm); exact Hq).
  apply append_run; [by apply end_base_ok with (data := data) (d := d1)|rewrite <- Hq; apply Hl|]. intros jj.
  rewrite (addDataAtEnd_cons m1) with (d := d1) (q := q) (c := c); try done.
  - unfold end_it, end_lit, append_last, append_it. cbn [m1 upd_stamp fc_limits]. rewrite Ml. fold lim.
    rewrite Hfn, Hq. reflexivity.
  - apply (rep_tail _ _ Hr).
  - cbn [m1 upd_stamp fc_limits]. by rewrite Ml.
Qed.
End nonempty.

(** An append returns; the list gets the new entry at its end. *)
Lemma append_full :
  ∃ m' d' p' j' it', add_data data e it (con m d p j) = (con m' d' p' j', Ret it') ∧ fi_current it' = e ∧ 0 ≤ p' ∧
    repr d' (l ++ [(e, data)]) ∧ h_status (d_header d') = closed ∧ mem_ok m' d' ∧ h_stamp (d_header d') = next_stamp d m ∧
    fc_stamp m' = next_stamp d m ∧ fc_now m' = fc_now m ∧ disk_end d' = e + calculateDataSize (Z.of_nat (length data)).
Proof.
  destruct e_x_ok as [He Hx]. pose proof (rep_chain _ _ Hr) as Hch. pose proof d1_ok as Hd1. pose proof lim_ok as Hl.
  pose proof (rep_limits _ _ Hr) as Rl. pose proof (rep_tail _ _ Hr) as Rt.
  assert (∀ b pv, h_stamp (d_header b) = next_stamp d m →
    mem_ok (upd_size n (upd_limits (set_next e (fc_limits m)) m1)) (add_final n (append_last b pv))) as Hmem.
  { intros b pv Hb. apply mem_ok_after; [|done|done]. apply (mem_prev _ _ Hm). }
  destruct (decide (l = [])) as [El|El].
  - assert (repr (add_final n (append_last d1 0)) (l ++ [(e, data)])) as Hrf.
    { apply append_repr; try done; [by eapply chain_ext, Hch|by rewrite El]. }
    do 5 eexists. split; [by apply append_nil_run|]. split; [done|]. split; [apply Hx|]. split; [exact Hrf|]. split; [done|].
    split; [by apply Hmem|]. split; [done|]. split; [done|]. split; [done|]. by apply append_end.
  - destruct (snoc_cases l El) as (l' & q & x & E).
    rewrite E in Hch. destruct (chain_mid _ _ _ _ _ _ _ Hch) as (c & Hc & Hc1 & Hc2 & _).
    assert (lim.2 = q) as Hq by (unfold lim; rewrite Rl, E; apply last_pos_snoc).
    assert (off_ok q) as Hqo by (rewrite <- Hq; apply Hl).
    assert (disk_end (append_base q c) = e) as Hbe by by apply upd_at_end.
    assert (repr (add_final n (append_last (append_base q c) q)) (l ++ [(e, data)])) as Hrf.
    { apply append_repr; try done.
      + by apply end_base_ok with (data := data) (d := d1).
      + rewrite E. apply (chain_set_next _ _ _ _ _ e); [done| |by eapply chain_ext, Hch].
        pose proof (rep_nodup _ _ Hr) as Hnd. rewrite E, fmap_app, NoDup_app in Hnd. simpl in Hnd. set_solver.
      + by rewrite E, last_pos_snoc. }
    do 5 eexists. split; [by apply append_cons_run|]. split; [done|]. split; [apply Hx|]. split; [exact Hrf|]. split; [done|].
    split; [by apply Hmem|]. split; [done|]. split; [done|]. split; [done|]. by apply append_end.
Qed.

Lemma append_rep :
  ∃ c' it', add_data data e it (con m d p j) = (c', Ret it') ∧ fi_current it' = e ∧ rep c' (l ++ [(e, data)]) ∧
    fc_stamp c' = next_stamp d m ∧ fc_now c' = fc_now m ∧ end_of c' = e + calculateDataSize (Z.of_nat (length data)).
Proof.
  destruct append_full as (m' & d' & p' & j' & it' & E & Hc & Hp' & Hr' & Hst' & Hm' & _ & Hs & Hn & He).
  exists (con m' d' p' j'), it'. split; [exact E|]. split; [exact Hc|]. split; [by exists m', d', p', j'|]. split; [exact Hs|]. split; [exact Hn|].
  by rewrite (end_of_con _ _ _ _ (rep_ok _ _ Hr')).
Qed.
End append.
