(* ===== verification/ContainerInsert.v ===== *)
(** * Adding at the beginning and in the middle

    The other two branches of [add_data].  The new record goes to the end
    of the file; its neighbours are relinked, and so is the last element,
    whose forward link is the end of the file. *)

From S2P Require Import Prelude Digits Stream FileContainer ContainerFields ContainerDisk ContainerCells ContainerList ContainerAdd.

(** ** Relinking the last element to the end of the file *)

Section reset_last.
Context (m : FileContainer) (d : disk) (p : Z) (j : list bytes) (Hd : disk_ok d).
Context (He : disk_end d ≤ off_max) (q : Z) (c : cell) (Hc : cell_at d q = Some c) (s : filestatus_t).

Definition reset_disk : disk :=
  upd_at q (set_links (c_prev c) (disk_end d)) (with_status s (with_backup 2 (q, c_prev c, c_next c) d)).

Local Lemma links_ok : off_ok (c_prev c) ∧ off_ok (c_next c) ∧ off_ok q ∧ off_ok (disk_end d).
Proof.
  destruct (ok_links _ (cell_at_ok _ Hd _ _ Hc)) as [H1 H2]. pose proof (cell_at_lt _ _ _ Hc).
  split_and!; try done; unfold off_ok, fc_s_headerSize in *; lia.
Qed.

Lemma reset_disk_ok : disk_ok reset_disk.
Proof.
  destruct links_ok as (H1 & H2 & H3 & H4).
  apply upd_at_ok; [|intros; apply set_links_ok; [by split|done]].
  apply with_status_ok, with_backup_ok; [done|by split_and!].
Qed.

Lemma resetNextOfLast_con :
  fi_next (fc_limits m) = q → ∃ j', resetNextOfLast s (con m d p j) = (con m reset_disk (q + 34) j', Ret tt).
Proof.
  intros Hq. destruct links_ok as (H1 & H2 & H3 & H4). pose proof reset_disk_ok as Rok. eexists.
  unfold resetNextOfLast. rewrite bind_field. cbn [con upd_stream fc_limits]. recon. rewrite Hq.
  erewrite bind_Ret by (apply (readIterator_cell d Hd m j q c Hc)).
  erewrite bind_Ret by (apply writeIteratorBackup_con; try done; [unfold off_ok in *; lia|lia]).
  cbn [fi_current fi_prev fi_next].
  assert (disk_ok (with_status s (with_backup 2 (q, c_prev c, c_next c) d))) as Bk
    by (apply with_status_ok, with_backup_ok; [done|by split_and!]).
  erewrite bind_Ret by by apply getEnd_con.
  by erewrite (writeIterator_cell _ Bk _ _ _ c Hc).
Qed.
End reset_last.

Lemma chain_set_last d prev l e e' c :
  l ≠ [] → NoDup l.*1 → cell_at d (last_pos prev l) = Some c →
  chain d prev l e → chain (upd_at (last_pos prev l) (set_links (c_prev c) e') d) prev l e'.
Proof.
  intros Hl Hnd Hc Hch. destruct (snoc_cases l Hl) as (l' & q & x & ->). rewrite last_pos_snoc in *.
  rewrite fmap_app, NoDup_app in Hnd. destruct Hnd as (_ & Hnd & _). simpl in Hnd.
  eapply chain_set_next; [|intros Hq; by apply (Hnd q), elem_of_cons; [|left]|done].
  destruct (chain_mid _ _ _ _ _ _ _ Hch) as (c' & Hc' & <- & _). congruence.
Qed.

(** The list with [(disk_end d, data)] put between [l1] and [l2], once the
    neighbours point to it: appending the record and relinking the last
    element completes it. *)
Lemma insert_chain d b l1 w x l2 e0 data it lit :
  d_tail d = [] → disk_end d = e0 → e0 ∉ l1.*1 → e0 ∉ ((w, x) :: l2).*1 → NoDup (l1 ++ (w, x) :: l2).*1 →
  chain d 0 l1 e0 → chain d e0 ((w, x) :: l2) e0 → fi_prev it = last_pos 0 l1 → fi_next it = w →
  (∀ p, cell_at b p = cell_at (add_cell (new_cell it lit data) d) p) →
  ∀ c e', cell_at b (last_pos w l2) = Some c →
  chain (upd_at (last_pos w l2) (set_links (c_prev c) e') b) 0 (l1 ++ (e0, data) :: (w, x) :: l2) e'.
Proof.
  intros Ht <- Hf1 Hf2 Hnd Hc1 Hc2 Hi1 Hi2 Hb c e' Hc.
  assert (last_pos w l2 = last_pos 0 (l1 ++ (disk_end d, data) :: (w, x) :: l2)) as El by (by rewrite last_pos_app).
  rewrite El in *. apply (chain_set_last _ _ _ (disk_end d)); [by destruct l1| | |].
  - rewrite fmap_app, NoDup_app in *. destruct Hnd as (Hn1 & Hn2 & Hn3). split_and!; [done| |].
    + intros z Hz Hin. rewrite fmap_cons in Hin. apply elem_of_cons in Hin as [->|Hin]; [done|]. by apply (Hn2 z).
    + rewrite fmap_cons. constructor; done.
  - done.
  - apply (chain_ext (add_cell (new_cell it lit data) d)); [by intros; apply Hb|].
    apply chain_app. split; [by apply chain_add|]. split; [|by apply chain_add].
    exists (new_cell it lit data). rewrite cell_at_add by done. rewrite bool_decide_true by done. by split_and!.
Qed.

(** ** The two branches *)

Section insert.
Context (m : FileContainer) (d : disk) (p : Z) (j : list bytes) (Hp : 0 ≤ p).
Context (l1 : list entry) (w : Z) (x : bytes) (l2 : list entry) (Hb : body d (l1 ++ (w, x) :: l2)).
Context (Hlim : (fi_prev (fc_limits m), fi_next (fc_limits m)) = h_limits (d_header d)).
Context (data : bytes) (it : FileIterator) (Hdata : 0 < Z.of_nat (length data)).
Let e := disk_end d.
Let nx := e + calculateDataSize (Z.of_nat (length data)).
Context (Hroom : nx ≤ off_max).

(** What both branches establish. *)
Definition inserted (m' : FileContainer) (d' : disk) (p' : Z) : Prop :=
  0 ≤ p' ∧ body d' (l1 ++ (e, data) :: (w, x) :: l2) ∧ disk_end d' = nx ∧ h_stamp (d_header d') = h_stamp (d_header d) ∧
  (fi_prev (fc_limits m'), fi_next (fc_limits m')) = h_limits (d_header d') ∧
  ∃ lims, m' = upd_limits lims m.

Local Lemma nx_e_ok : off_ok e ∧ off_ok nx ∧ 0 < Z.of_nat (length data) < 2 ^ 64.
Proof.
  pose proof (body_end_ok _ _ Hb) as He. fold e in He. unfold off_ok, off_max, nx in *.
  rewrite calculateDataSize_eq in *. lia.
Qed.

Local Lemma limits_next : fi_next (fc_limits m) = last_pos w l2.
Proof.
  assert (fi_next (fc_limits m) = (h_limits (d_header d)).2) as -> by by rewrite <- Hlim.
  rewrite (body_limits _ _ Hb). simpl. by rewrite last_pos_app.
Qed.
Local Lemma limits_prev : fi_prev (fc_limits m) = head_pos w l1.
Proof.
  assert (fi_prev (fc_limits m) = (h_limits (d_header d)).1) as -> by by rewrite <- Hlim.
  rewrite (body_limits _ _ Hb). simpl. by rewrite head_pos_app.
Qed.

(** From the relinked neighbours on: the record is written and the last
    element is relinked. *)
Lemma insert_tail d2 q j' pv t s sl m' :
  disk_ok d2 → d_tail d2 = [] → disk_end d2 = e → 0 ≤ q →
  chain d2 0 l1 e → chain d2 e ((w, x) :: l2) e → pv = last_pos 0 l1 → off_ok pv →
  h_stamp (d_header d2) = h_stamp (d_header d) →
  h_limits (d_header d2) = (head_pos e l1, last_pos w l2) →
  (fi_prev (fc_limits m'), fi_next (fc_limits m')) = h_limits (d_header d2) → (∃ lims, m' = upd_limits lims m) →
  ∃ d' p' j'',
    (writeDataHere (reset pv w e it) (reset (fi_next (fc_limits m)) nx e t) data s;;
     resetNextOfLast sl;; mret (reset pv w e it)) (con m' d2 q j') =
    (con m' d' p' j'', Ret (FIterator (fi_good it) pv w e)) ∧ inserted m' d' p'.
Proof.
  intros Hd2 Ht2 He2 Hq Hc1 Hc2 Hpv Hpo Hs2 Hl2 Hm' Hlims. destruct nx_e_ok as (He & Hnx & Hdl).
  destruct Hb as [Bo Bt Bl Bc Bn Br].
  set (nc := new_cell (reset pv w e it) (reset (fi_next (fc_limits m)) nx e t) data).
  set (d3 := with_status (fs_succ s) (add_cell nc (with_status s d2))).
  assert (pair_ok (pv, w)) as Hit.
  { split; [done|]. destruct Hc2 as [(c & Hc & _) _]. pose proof (cell_at_lt _ _ _ Hc) as Hlt. rewrite He2 in Hlt.
    unfold off_ok, fc_s_headerSize in *. simpl. lia. }
  assert (pair_ok (fi_next (fc_limits m), nx)) as Hlit.
  { split; [|done]. simpl. assert (fi_next (fc_limits m) = (h_limits (d_header d)).2) as -> by by rewrite <- Hlim.
    apply (ok_limits _ (ok_header _ Bo)). }
  assert (disk_ok d3) as Hd3.
  { apply with_status_ok, add_cell_ok; [by apply with_status_ok|by apply new_cell_ok]. }
  assert (disk_end d3 = nx) as Hend.
  { unfold d3, nx. rewrite <- He2. by apply (add_cell_end nc (with_status s d2)). }
  assert (e ∉ (l1 ++ (w, x) :: l2).*1) as Hf by (by eapply chain_end_fresh).
  rewrite fmap_app, elem_of_app in Hf.
  assert (∀ z, cell_at d3 z = cell_at (add_cell nc d2) z) as Hext by done.
  assert (last_pos w l2 ∈ ((w, x) :: l2).*1) as Hin by (apply (last_pos_in 0 ((w, x) :: l2)); done).
  assert (∃ c, cell_at d3 (last_pos w l2) = Some c) as [c Hc].
  { destruct (chain_cells _ _ _ _ _ Hc2 Hin) as [c Hc]. exists c. rewrite Hext, cell_at_add by done.
    rewrite bool_decide_false; [done|]. rewrite He2. intros E. apply Hf. right. by rewrite <- E. }
  assert (fi_next (fc_limits m') = last_pos w l2) as Hfn by (rewrite Hl2 in Hm'; congruence).
  erewrite bind_Ret by (by apply writeDataHere_con). fold nc. fold d3.
  assert (disk_end d3 ≤ off_max) as Hmax by by rewrite Hend.
  edestruct (λ j0, resetNextOfLast_con m' d3 (disk_end d2 + cell_len nc) j0 Hd3 Hmax _ c Hc sl Hfn) as [j3 Hrun].
  do 3 eexists. split; [erewrite bind_Ret by exact Hrun; reflexivity|].
  split; [pose proof (cell_at_lt _ _ _ Hc); unfold fc_s_headerSize in *; lia|].
  assert (disk_end (reset_disk d3 (last_pos w l2) c sl) = nx) as Hend' by (unfold reset_disk; by rewrite upd_at_end).
  split; [|split; [exact Hend'|by split_and!]]. split.
  - apply reset_disk_ok; [done|by rewrite Hend|done].
  - done.
  - unfold reset_disk. simpl. rewrite Hl2. rewrite head_pos_app, last_pos_app. done.
  - unfold reset_disk. rewrite upd_at_end by done.
    change (disk_end (with_status sl (with_backup 2 (last_pos w l2, c_prev c, c_next c) d3))) with (disk_end d3).
    apply (insert_chain d2 _ _ _ _ _ _ _ (reset pv w e it) (reset (fi_next (fc_limits m)) nx e t)); try done; tauto.
  - rewrite fmap_app, NoDup_app in *. destruct Bn as (Hn1 & Hn2 & Hn3). split_and!; [done| |].
    + intros z Hz Hzin. rewrite fmap_cons in Hzin. apply elem_of_cons in Hzin as [->|Hzin]; [tauto|]. by apply (Hn2 z).
    + rewrite fmap_cons. constructor; [tauto|done].
  - unfold reset_disk. rewrite upd_at_end by done. by rewrite <- Hend in Hroom.
Qed.

(** *** At the beginning *)
Lemma addDataAtBegin_con :
  l1 = [] →
  ∃ m' d' p' j', addDataAtBegin data it e (con m d p j) = (con m' d' p' j', Ret (FIterator (fi_good it) 0 w e)) ∧
    inserted m' d' p'.
Proof.
  intros El. pose proof Hb as [Bo Bt Bl Bc Bn Br]. destruct nx_e_ok as (He & Hnx & Hdl).
  pose proof limits_next as Ln. pose proof limits_prev as Lp. rewrite El in Lp, Bn, Bc. simpl in Lp, Bn, Bc.
  destruct Bc as [(c & Hc & Hc1 & Hc2 & Hc3 & Hc4) Bc]. apply NoDup_cons in Bn as [Hnin Bn].
  pose proof (ok_links _ (cell_at_ok _ Bo _ _ Hc)) as [Lk1 Lk2]. pose proof (body_cell_off _ _ _ _ Hb Hc) as Hw.
  assert (off_ok (last_pos w l2)) as Hlo.
  { rewrite <- Ln. assert (fi_next (fc_limits m) = (h_limits (d_header d)).2) as -> by by rewrite <- Hlim.
    apply (ok_limits _ (ok_header _ Bo)). }
  unfold addDataAtBegin, getBegin. rewrite !bind_field. cbn [con upd_stream fc_limits]. recon. rewrite Lp.
  erewrite bind_Ret by (apply (readIterator_cell d Bo m j w c Hc)).
  set (d1 := with_status ab_iterator (with_backup 0 (w, c_prev c, c_next c) d)).
  assert (disk_ok d1) as Hd1 by (apply with_status_ok, with_backup_ok; [done|by split_and!]).
  erewrite bind_Ret by (apply writeIteratorBackup_con; try done; [unfold off_ok in *; lia|lia]).
  cbn [fi_current fi_prev fi_next set_prev]. fold d1.
  set (d2 := upd_at w (set_links e (c_next c)) d1).
  assert (disk_ok d2) as Hd2 by (apply upd_at_ok; [done|]; intros; by apply set_links_ok).
  erewrite bind_Ret by (apply (writeIterator_cell d1 Hd1 _ _ w c Hc); by split).
  cbn [fi_current fi_prev fi_next]. fold d2.
  assert (pair_ok (fi_prev (fc_limits m), fi_next (fc_limits m))) as Hpl by (rewrite Ln, Lp; by split).
  erewrite bind_Ret by (apply writeLimitsBackup_con; try done; unfold off_ok in *; lia).
  set (d3 := with_status ab_limits (with_lbackup (fi_prev (fc_limits m), fi_next (fc_limits m)) d2)).
  assert (disk_ok d3) as Hd3 by (by apply with_status_ok, with_lbackup_ok).
  rewrite bind_modify, bind_field.
  match goal with |- context [upd_limits ?l (con m ?x ?y ?z)] =>
    set (lims := l); change (upd_limits lims (con m x y z)) with (con (upd_limits lims m) x y z) end.
  cbn [con upd_stream upd_limits fc_limits]. recon.
  assert (pair_ok (fi_prev lims, fi_next lims)) as Hlo2 by (split; [done|]; cbn [snd lims set_prev fi_next]; by rewrite Ln).
  erewrite bind_Ret by (by apply writeInitialPosition_con).
  assert (upd_at w (set_links e (head_pos (disk_end d) l2)) d1 = d2) as E2 by by rewrite <- Hc2.
  edestruct (λ j0 jt, insert_tail (with_limits (fi_prev lims, fi_next lims) d3) fc_s_listPosition j0 0 jt
               ab_writing ab_last (upd_limits lims m)) as (d' & p' & j' & Hrun & Hins).
  13: { exists (upd_limits lims m), d', p', j'. split; [exact Hrun|exact Hins]. }
  all: try done.
  - by apply with_limits_ok.
  - by apply upd_at_end.
  - by rewrite El.
  - apply (chain_ext d2); [done|]. rewrite <- E2.
    apply (chain_set_prev _ 0); [done|done|]. split; [by exists c|]. by eapply chain_ext, Bc.
  - by rewrite El.
  - rewrite El. simpl. by rewrite Ln.
  - by exists lims.
Qed.

(** *** Between two elements *)
Lemma addDataInMiddle_con :
  l1 ≠ [] →
  ∃ m' d' p' j', addDataInMiddle data it w e (con m d p j) =
    (con m' d' p' j', Ret (FIterator (fi_good it) (last_pos 0 l1) w e)) ∧ inserted m' d' p'.
Proof.
  intros Hne. destruct (snoc_cases l1 Hne) as (l0 & q & y & El). pose proof Hb as [Bo Bt Bl Bc Bn Br].
  destruct nx_e_ok as (He & Hnx & Hdl). pose proof limits_next as Ln. pose proof limits_prev as Lp.
  apply chain_app in Bc as [Bc1 Bc2]. rewrite fmap_app, NoDup_app in Bn. destruct Bn as (Bn1 & Bn2 & Bn3).
  rewrite El in Bc1, Bc2, Bn1, Bn2. rewrite last_pos_snoc in Bc2.
  pose proof Bc2 as [(c & Hc & Hc1 & Hc2 & Hc3 & Hc4) _].
  destruct (chain_mid _ _ _ _ _ _ _ Bc1) as (b & Hcb & Hb1 & Hb2 & _). simpl in Hb2.
  pose proof (ok_links _ (cell_at_ok _ Bo _ _ Hc)) as [Lk1 Lk2]. pose proof (body_cell_off _ _ _ _ Hb Hc) as Hw.
  pose proof (ok_links _ (cell_at_ok _ Bo _ _ Hcb)) as [Lb1 Lb2]. pose proof (body_cell_off _ _ _ _ Hb Hcb) as Hq.
  assert (q ∈ (l0 ++ [(q, y)]).*1) as Hql by (rewrite fmap_app, elem_of_app; right; simpl; set_solver).
  assert (q ≠ w) as Hqw by (intros E; apply (Bn2 q Hql); rewrite E; simpl; set_solver).
  apply NoDup_cons in Bn3 as [Bn3 Bn4]. rewrite fmap_app, NoDup_app in Bn1. destruct Bn1 as (_ & Bn1 & _).
  unfold addDataInMiddle. rewrite bind_field. cbn [con upd_stream fc_limits]. recon.
  erewrite bind_Ret by (apply (readIterator_cell d Bo m j w c Hc)). cbn [fi_prev].
  rewrite Hc1. erewrite bind_Ret by (apply (readIterator_cell d Bo m j q b Hcb)).
  set (d1 := with_status am_iterator1 (with_backup 0 (w, q, c_next c) d)).
  assert (disk_ok d1) as Hd1 by (apply with_status_ok, with_backup_ok; [done|by split_and!]).
  erewrite bind_Ret by (apply writeIteratorBackup_con; try done; [unfold off_ok in *; lia|lia]).
  cbn [fi_current fi_prev fi_next]. fold d1.
  set (d2 := with_status am_iterator2 (with_backup 1 (q, c_prev b, c_next b) d1)).
  assert (disk_ok d2) as Hd2 by (apply with_status_ok, with_backup_ok; [done|by split_and!]).
  erewrite bind_Ret by (apply writeIteratorBackup_con; try done; [unfold off_ok in *; lia|lia]).
  cbn [fi_current fi_prev fi_next]. fold d2.
  set (d3 := upd_at w (set_links e (c_next c)) d2).
  assert (disk_ok d3) as Hd3 by (apply upd_at_ok; [done|]; intros; by apply set_links_ok).
  erewrite bind_Ret by (apply (writeIterator_cell d2 Hd2 _ _ w c Hc); by split).
  cbn [fi_current fi_prev fi_next set_prev]. fold d3.
  assert (cell_at d3 q = Some b) as Hcb3.
  { unfold d3. rewrite cell_at_upd by done. by rewrite bool_decide_false. }
  set (d4 := upd_at q (set_links (c_prev b) e) d3).
  assert (disk_ok d4) as Hd4 by (apply upd_at_ok; [done|]; intros; by apply set_links_ok).
  erewrite bind_Ret by (apply (writeIterator_cell d3 Hd3 _ _ q b Hcb3); by split).
  cbn [fi_current fi_prev fi_next set_next]. fold d4.
  replace (last_pos 0 l1) with q by (rewrite El; by rewrite last_pos_snoc).
  edestruct (λ j0 jt, insert_tail d4 (q + 34) j0 q jt am_writing am_last m) as (d' & p' & j' & Hrun & Hins).
  13: { exists m, d', p', j'. split; [exact Hrun|exact Hins]. }
  all: try done.
  - unfold d4. rewrite upd_at_end by done. by apply upd_at_end.
  - unfold off_ok in *; lia.
  - rewrite El. apply (chain_set_next _ _ _ _ _ w); [done|intros Hi; apply (Bn1 q Hi); simpl; set_solver|].
    apply chain_upd_other; [done|intros Hi; apply (Bn2 w Hi); simpl; set_solver|]. by eapply chain_ext, Bc1.
  - apply chain_upd_other; [done|by apply Bn2|].
    apply (chain_set_prev _ q); [done|done|]. by eapply chain_ext, Bc2.
  - rewrite El. by rewrite last_pos_snoc.
  - change (h_limits (d_header d4)) with (h_limits (d_header d)). rewrite Bl, El. by rewrite !head_pos_app, !last_pos_app.
  - exists (fc_limits m). by destruct m.
Qed.
End insert.

(** ** [add_data] *)

Section insert_rep.
Context (m : FileContainer) (d : disk) (p : Z) (j : list bytes) (Hp : 0 ≤ p).
Context (l1 : list entry) (w : Z) (x : bytes) (l2 : list entry) (Hr : repr d (l1 ++ (w, x) :: l2)).
Context (Hst : h_status (d_header d) = closed) (Hm : mem_ok m d) (data : bytes) (it : FileIterator).
Context (Hdata : 0 < Z.of_nat (length data)).
Context (Hroom : disk_end d + calculateDataSize (Z.of_nat (length data)) ≤ off_max).
Let e := disk_end d.

Lemma insert_rep :
  ∃ c' it', add_data data w it (con m d p j) = (c', Ret it') ∧ fi_current it' = e ∧
    rep c' (l1 ++ (e, data) :: (w, x) :: l2) ∧ fc_stamp c' = next_stamp d m ∧ fc_now c' = fc_now m ∧
    end_of c' = e + calculateDataSize (Z.of_nat (length data)).
Proof.
  set (m1 := upd_stamp (next_stamp d m) m). set (d1 := add_opened m d).
  pose proof (mem_limits _ _ Hm) as Ml. pose proof (opened_ok _ _ (rep_ok _ _ Hr) Hm) as Os.
  pose proof (add_opened_ok _ _ (rep_ok _ _ Hr) Hm) as Hd1. fold d1 in Hd1.
  assert (body d1 (l1 ++ (w, x) :: l2)) as Hb1.
  { apply (body_header (with_stamp (next_stamp d m) d)); [|done|done].
    apply body_header; [by apply repr_body|apply with_stamp_ok; [apply Hr|done]|done]. }
  destruct (chain_mid _ _ _ _ _ _ _ (rep_chain _ _ Hr)) as (c & Hc & _). pose proof (cell_at_lt _ _ _ Hc) as Hlt.
  assert (∀ jj, ∃ m' d' p' j' it', add_branch data w e (fi_prev (fc_limits m)) it (con m1 d1 27 jj) =
    (con m' d' p' j', Ret it') ∧ fi_current it' = e ∧ inserted m1 d1 l1 w x l2 data m' d' p') as Hbr.
  { intros jj. unfold add_branch. rewrite bool_decide_false by (unfold e; lia).
    assert (fi_prev (fc_limits m) = head_pos w l1) as Hpv.
    { rewrite (mem_prev _ _ Hm), (rep_limits _ _ Hr). simpl. by rewrite head_pos_app. }
    destruct (decide (l1 = [])) as [->|Hne].
    - simpl in Hpv. rewrite bool_decide_true by done.
      destruct (addDataAtBegin_con m1 d1 27 jj [] w x l2 Hb1 Ml data it Hdata Hroom eq_refl) as (m' & d' & p' & j' & E & H).
      do 5 eexists. split; [exact E|done].
    - rewrite bool_decide_false.
      + destruct (addDataInMiddle_con m1 d1 27 jj ltac:(lia) l1 w x l2 Hb1 Ml data it Hdata Hroom Hne) as (m' & d' & p' & j' & E & H).
        do 5 eexists. split; [exact E|done].
      + rewrite Hpv. intros E. pose proof (rep_nodup _ _ Hr) as Hnd. rewrite fmap_app, NoDup_app in Hnd.
        destruct Hnd as (_ & Hnd & _). apply (Hnd w); [rewrite E; by apply head_pos_in|by apply elem_of_cons; left]. }
  edestruct Hbr as (m' & d' & p' & j' & it' & Hrun & Hcur & Hp' & Hb' & He' & Hs' & Hl' & lims & ->).
  assert (fc_size (upd_limits lims m1) + 1 = Z.of_nat (length (l1 ++ (e, data) :: (w, x) :: l2))) as Hsz.
  { simpl. rewrite (mem_size _ _ Hm), (rep_size _ _ Hr), !length_app. simpl. lia. }
  do 2 eexists. split.
  { eapply (add_data_frame m d p j Hp (rep_ok _ _ Hr) Hst Hm); [exact Hrun|done|apply Hb'|].
    rewrite Hsz, length_app. simpl. pose proof (repr_size_ok _ _ Hr) as Hn. rewrite length_app in Hn. simpl in Hn.
    rewrite calculateDataSize_eq in Hroom. replace (Z.of_nat _) with (Z.of_nat (length l1 + S (length l2)) + 1) by lia.
    apply Hn. lia. }
  split; [exact Hcur|]. rewrite Hsz. set (df := add_final _ d').
  assert (repr df (l1 ++ (e, data) :: (w, x) :: l2)) as Hrf by (apply body_final; [exact Hb'|by destruct l1]).
  split; [|split; [done|split; [done|by rewrite (end_of_con _ _ _ _ (rep_ok _ _ Hrf))]]].
  do 4 eexists. split; [done|]. split; [exact Hp'|]. split; [exact Hrf|].
  split; [done|]. apply (mem_ok_after m d _ Hr Hm); [| |exact Hs'].
  - by rewrite <- Hl'.
  - by rewrite <- Hl'.
Qed.
End insert_rep.

(** At any place: before the first element of [l2], or at the end. *)
Lemma add_rep c l1 l2 data where_ it :
  rep c (l1 ++ l2) → where_ = head_pos (end_of c) l2 → data ≠ [] →
  end_of c + calculateDataSize (Z.of_nat (length data)) ≤ off_max →
  ∃ c' it', add_data data where_ it c = (c', Ret it') ∧ fi_current it' = end_of c ∧
    rep c' (l1 ++ (end_of c, data) :: l2) ∧ end_of c' = end_of c + calculateDataSize (Z.of_nat (length data)).
Proof.
  intros (m & d & p & j & -> & Hp & Hr & Hst & Hm) -> Hdata. rewrite (end_of_con _ _ _ _ (rep_ok _ _ Hr)). intros Hroom.
  assert (0 < Z.of_nat (length data)) by (destruct data; simpl; [done|lia]).
  destruct l2 as [|[w x] l2].
  - rewrite app_nil_r in Hr. edestruct append_rep as (c' & it' & E & H1 & H2 & _ & _ & H3); eauto 10.
  - edestruct insert_rep as (c' & it' & E & H1 & H2 & _ & _ & H3); eauto 10.
Qed.

(** C1.  [add_data] on a container that stands for [l1 ++ l2], at the
    position of the first element of [l2] (or at the end), returns, and the
    container then stands for the list with the new string between [l1] and
    [l2]; its record is at the old end of the file. *)
Theorem add_data_inserts c l1 l2 data where_ it :
  rep c (l1 ++ l2) → where_ = head_pos (end_of c) l2 → data ≠ [] →
  end_of c + calculateDataSize (Z.of_nat (length data)) ≤ off_max →
  ∃ c' it', add_data data where_ it c = (c', Ret it') ∧ fi_current it' = end_of c ∧
    rep c' (l1 ++ (end_of c, data) :: l2).
Proof. intros Hr Hw Hd Hroom. destruct (add_rep c l1 l2 data where_ it Hr Hw Hd Hroom) as (c' & it' & H1 & H2 & H3 & _). eauto. Qed.
