(* ===== verification/ContainerRead.v ===== *)
(** * Reading a container

    Reads leave the file alone and return what the list holds: the data of
    an element, the iterator of its neighbour, the number of elements and
    the whole list. *)

From S2P Require Import Prelude Digits Stream FileContainer ContainerFields ContainerDisk ContainerCells ContainerList ContainerAdd.

(** A container at rest, with its cursor anywhere: what a read leaves. *)
Definition moved (c c' : FileContainer) : Prop :=
  ∃ m d p p' j, 0 ≤ p ∧ 0 ≤ p' ∧ c = con m d p j ∧ c' = con m d p' j.

Lemma moved_rep c c' l : moved c c' → rep c l → rep c' l.
Proof.
  intros (m & d & p & p' & j & Hp & Hp' & -> & ->) (m0 & d0 & q & j0 & E & Hq & Hr & Hst & Hm).
  assert (∃ z, con m d p' j = con m0 d0 z j0 ∧ 0 ≤ z) as (z & Ez & Hz).
  { exists p'. split; [|done]. unfold con in *.
    injection E. intros. unfold upd_stream. f_equal; try done. f_equal. unfold at_ in *. congruence. }
  by exists m0, d0, z, j0.
Qed.

Section reads.
Context (m : FileContainer) (d : disk) (p : Z) (j : list bytes) (l : list entry) (Hp : 0 ≤ p).
Context (Hr : repr d l) (Hst : h_status (d_header d) = closed) (Hm : mem_ok m d).
Let Hd := rep_ok _ _ Hr.
Let e := disk_end d.

Lemma read_data_con q x c it :
  cell_at d q = Some c → c_state c = "g"%char → c_data c = x →
  read_data q it false (con m d p j) =
  (con m d (q + cell_len c - 1) j, Ret (FIterator true (c_prev c) (c_next c) q, x)).
Proof.
  intros Hc Hs <-. unfold read_data. erewrite bind_Ret by by apply end_after_prologue_closed.
  pose proof (cell_at_lt _ _ _ Hc) as Hlt. rewrite bool_decide_true by lia.
  unfold con at 1. rewrite bind_on. rewrite seek_at by (unfold fc_s_headerSize in Hlt; lia). recon.
  erewrite bind_Ret by (apply (readDataHere_cell d Hd m j q c Hc); by left). done.
Qed.

Lemma increment_next_con q c c' it :
  cell_at d q = Some c → fi_current it = q → fi_next it = c_next c → cell_at d (c_next c) = Some c' →
  increment_iterator it (con m d p j) =
  (con m d (c_next c + 34) j, Ret (FIterator true (c_prev c') (c_next c') (c_next c))).
Proof.
  intros Hc Hcur Hnx Hc'. pose proof (cell_at_lt _ _ _ Hc) as Hlt. pose proof (cell_at_lt _ _ _ Hc') as Hlt'.
  unfold fc_s_headerSize in *. unfold increment_iterator, increment_iterator_gen.
  rewrite (bind_Ret _ _ _ _ _ (end_after_prologue_closed m d p j true Hd Hp Hst Hm)).
  rewrite !bool_decide_false by lia. rewrite Hcur.
  rewrite (bind_Ret _ _ _ _ _ (readIterator_cell d Hd m j q c Hc 26 it)). cbn [fi_next].
  by rewrite (readIterator_cell d Hd m j _ c' Hc').
Qed.

Lemma increment_last_con it :
  fi_current it ≠ 0 → fi_next it = e →
  increment_iterator it (con m d p j) = (con m d 26 j, Ret (reset 0 0 e it)).
Proof.
  intros Hcur Hnx. unfold increment_iterator, increment_iterator_gen.
  rewrite (bind_Ret _ _ _ _ _ (end_after_prologue_closed m d p j true Hd Hp Hst Hm)).
  rewrite bool_decide_false by done. by rewrite bool_decide_true by done.
Qed.

(** The element loop of [fillVector]. *)
Lemma fill_loop_con l2 : ∀ prev fuel it vec q,
  (length l2 < fuel)%nat → 0 ≤ q → chain d prev l2 e →
  ∃ p', fill_loop fuel e (head_pos e l2) it vec (con m d q j) = (con m d p' j, Ret (vec ++ l2.*2)) ∧ 0 ≤ p'.
Proof.
  induction l2 as [|[w x] l2 IH]; intros prev fuel it vec q Hf Hq Hch; (destruct fuel as [|f]; [lia|]); cbn [fill_loop].
  - cbn [head_pos]. rewrite bool_decide_false by apply Z.lt_irrefl. exists q. by rewrite app_nil_r.
  - destruct Hch as [(c & Hc & Hc1 & Hc2 & Hc3 & Hc4) Hch]. pose proof (cell_at_lt _ _ _ Hc) as Hlt. cbn [head_pos].
    rewrite bool_decide_true by apply Hlt. unfold con at 1. rewrite bind_on.
    rewrite seek_at by (unfold fc_s_headerSize in Hlt; lia). recon.
    erewrite bind_Ret by (apply (readDataHere_cell d Hd m j w c Hc); by left). cbv beta iota. cbn [fi_next].
    rewrite Hc2, Hc4. simpl in Hf. pose proof (cell_len_pos c). unfold fc_s_headerSize in *.
    edestruct (λ i v q', IH w f i v q' ltac:(lia)) as (p' & E & Hp'); [|exact Hch|].
    2: { rewrite E. exists p'. split; [|done]. rewrite <- app_assoc. done. }
    lia.
Qed.

(** The first element, or the end. *)
Lemma read_first q it :
  ∃ p' it', readIterator (fi_prev (fc_limits m)) it false (con m d q j) = (con m d p' j, Ret it') ∧ 0 ≤ p' ∧
    fi_current it' = head_pos e l.
Proof.
  rewrite (mem_prev _ _ Hm), (rep_limits _ _ Hr). cbn [fst]. pose proof (disk_end_ge0 d).
  destruct (decide (l = [])) as [El|El].
  - rewrite El. cbn [head_pos]. rewrite <- (empty_end _ _ Hr El). rewrite readIterator_end by done. do 2 eexists.
    by split_and!.
  - destruct (chain_cells _ _ _ _ _ (rep_chain _ _ Hr) (head_pos_in e l El)) as [c Hc].
    rewrite (head_pos_ne _ e l El). rewrite (readIterator_cell d Hd m j _ c Hc).
    pose proof (cell_at_lt _ _ _ Hc). unfold fc_s_headerSize in *. do 2 eexists. split_and!; [done|lia|done].
Qed.

Lemma fillVector_con : ∃ p', fillVector (con m d p j) = (con m d p' j, Ret l.*2) ∧ 0 ≤ p'.
Proof.
  pose proof (rep_chain _ _ Hr) as Hch. pose proof (chain_length _ _ _ _ Hch (rep_nodup _ _ Hr)) as Hlen.
  unfold fillVector. rewrite (bind_Ret _ _ _ _ _ (getEnd_con m d p j Hd)).
  erewrite bind_Ret by (apply catch_Ret, checkStreamAndStamp_closed; try done; apply disk_end_ge0).
  rewrite bind_field. cbn [con upd_stream fc_limits]. recon.
  destruct (read_first 26 nullIterator) as (p' & it' & E & Hp' & Hcur).
  erewrite bind_Ret by exact E. rewrite Hcur.
  edestruct (fill_loop_con l 0 (S (Z.to_nat (disk_end d))) it' [] p') as (q & E' & Hq); [|done|done|by exists q].
  unfold disk_end, fc_s_headerSize in *. lia.
Qed.

Lemma read_size_con : ∃ p', read_size (con m d p j) = (con m d p' j, Ret (Z.of_nat (length l))) ∧ 0 ≤ p'.
Proof.
  pose proof (disk_end_ge0 d) as He0. exists e. split; [|done]. unfold read_size.
  rewrite (bind_Ret _ _ _ _ _ (getEnd_con m d p j Hd)). rewrite bind_field. cbn [con upd_stream fc_initialized]. recon.
  rewrite (mem_init _ _ Hm).
  erewrite bind_Ret.
  2: { unfold attempt. apply catch_Ret. erewrite bind_Ret; [reflexivity|].
       erewrite bind_Ret by (apply checkStreamAndStamp_closed; done). by apply getEnd_con. }
  cbv beta iota. unfold getBegin. rewrite bind_field, bind_field. cbn [con upd_stream fc_limits fc_size]. recon.
  rewrite (mem_prev _ _ Hm), (mem_size _ _ Hm), (rep_limits _ _ Hr), (rep_size _ _ Hr). cbn [fst].
  rewrite bool_decide_false.
  - rewrite bind_mret. unfold field. cbn [con upd_stream fc_size]. by rewrite (mem_size _ _ Hm), (rep_size _ _ Hr).
  - intros [?|[H1 H2]]; [done|]. assert (l = []) as El by (destruct l; [done|simpl in H2; lia]). apply H1.
    rewrite (empty_end _ _ Hr El), El. done.
Qed.

Lemma decrement_con q c it :
  cell_at d q = Some c → fi_current it = q → fi_prev it = c_prev c → is_Some (cell_at d (c_prev c)) →
  decrement_iterator it (con m d p j) =
  (con m d (c_prev c + 34) j, Ret (FIterator true (default 0 (c_prev <$> cell_at d (c_prev c)))
                                     (default 0 (c_next <$> cell_at d (c_prev c))) (c_prev c))).
Proof.
  intros Hc Hcur Hpv [c' Hc']. pose proof (cell_at_lt _ _ _ Hc) as Hlt. pose proof (cell_at_lt _ _ _ Hc') as Hlt'.
  unfold fc_s_headerSize in *. unfold decrement_iterator, decrement_iterator_gen.
  rewrite (bind_Ret _ _ _ _ _ (prologue_closed m d p j Hd Hp Hst Hm _)).
  rewrite (bind_Ret _ _ _ _ _ (getEnd_con m d 26 j Hd)).
  rewrite !bool_decide_false by lia. rewrite Hcur.
  rewrite (bind_Ret _ _ _ _ _ (readIterator_cell d Hd m j q c Hc _ it)). cbn [fi_prev].
  rewrite (readIterator_cell d Hd m j _ c' Hc'). by rewrite Hc'.
Qed.

(** [--] at the end: the last element. *)
Lemma decrement_end_con it :
  l ≠ [] → fi_current it = e →
  ∃ c, cell_at d (last_pos 0 l) = Some c ∧ decrement_iterator it (con m d p j) =
  (con m d (last_pos 0 l + 34) j, Ret (FIterator true (c_prev c) (c_next c) (last_pos 0 l))).
Proof.
  intros Hne Hcur. destruct (chain_cells _ _ _ _ _ (rep_chain _ _ Hr) (last_pos_in 0 l Hne)) as [c Hc]. exists c.
  split; [done|]. unfold decrement_iterator, decrement_iterator_gen.
  rewrite (bind_Ret _ _ _ _ _ (prologue_closed m d p j Hd Hp Hst Hm _)).
  rewrite (bind_Ret _ _ _ _ _ (getEnd_con m d 26 j Hd)).
  rewrite bool_decide_true by exact Hcur. rewrite bind_field. cbn [con upd_stream fc_limits]. recon.
  rewrite (mem_next _ _ Hm), (rep_limits _ _ Hr). cbn [snd]. rewrite (last_pos_ne _ 0 l Hne).
  by rewrite (readIterator_cell d Hd m j _ c Hc).
Qed.
End reads.

(** ** Over a container object *)

(** The iterator [it] of the element of [l1 ++ (p, x) :: l2] at [p]. *)
Definition element_it (e : Z) (l1 : list entry) (p : Z) (l2 : list entry) : FileIterator :=
  FIterator true (last_pos 0 l1) (head_pos e l2) p.

Lemma moved_con m d p p' j : 0 ≤ p → 0 ≤ p' → moved (con m d p j) (con m d p' j).
Proof. intros. by exists m, d, p, p', j. Qed.

Lemma read_data_rep c l1 p x l2 it :
  rep c (l1 ++ (p, x) :: l2) →
  ∃ c', read_data p it false c = (c', Ret (element_it (end_of c) l1 p l2, x)) ∧ moved c c'.
Proof.
  intros (m & d & q & j & -> & Hq & Hr & Hst & Hm). rewrite (end_of_con _ _ _ _ (rep_ok _ _ Hr)).
  destruct (chain_mid _ _ _ _ _ _ _ (rep_chain _ _ Hr)) as (c & Hc & Hc1 & Hc2 & Hc3 & Hc4).
  eexists. split; [rewrite (read_data_con m d q j _ Hq Hr Hst Hm p x c it Hc Hc3 Hc4), Hc1, Hc2; reflexivity|].
  pose proof (cell_at_lt _ _ _ Hc). pose proof (cell_len_pos c). unfold fc_s_headerSize in *. apply moved_con; lia.
Qed.

(** One step forward and one step backward from an element. *)
Lemma increment_rep c l1 q y p x l2 :
  rep c (l1 ++ (q, y) :: (p, x) :: l2) →
  ∃ c', increment_iterator (element_it (end_of c) l1 q ((p, x) :: l2)) c =
        (c', Ret (element_it (end_of c) (l1 ++ [(q, y)]) p l2)) ∧ moved c c'.
Proof.
  intros (m & d & z & j & -> & Hz & Hr & Hst & Hm). rewrite (end_of_con _ _ _ _ (rep_ok _ _ Hr)).
  pose proof (rep_chain _ _ Hr) as Hch. apply chain_app in Hch as [_ [(b & Hb & Hb1 & Hb2 & _) [(c & Hc & Hc1 & Hc2 & _) _]]].
  simpl in Hb2. subst p. eexists. split.
  - erewrite (increment_next_con m d z j _ Hz Hr Hst Hm q b c) by done.
    rewrite Hc1, Hc2. unfold element_it. by rewrite last_pos_snoc.
  - pose proof (cell_at_lt _ _ _ Hc). unfold fc_s_headerSize in *. apply moved_con; [done|lia].
Qed.

Lemma increment_last_rep c l1 p x :
  rep c (l1 ++ [(p, x)]) →
  ∃ c', increment_iterator (element_it (end_of c) l1 p []) c = (c', Ret (FIterator true 0 0 (end_of c))) ∧ moved c c'.
Proof.
  intros (m & d & z & j & -> & Hz & Hr & Hst & Hm). rewrite (end_of_con _ _ _ _ (rep_ok _ _ Hr)).
  destruct (chain_mid _ _ _ _ _ _ _ (rep_chain _ _ Hr)) as (c & Hc & _). pose proof (cell_at_lt _ _ _ Hc).
  unfold fc_s_headerSize in *. eexists. split.
  - erewrite (increment_last_con m d z j _ Hz Hr Hst Hm); [done|simpl; lia|done].
  - by apply moved_con.
Qed.

Lemma decrement_rep c l1 q y p x l2 :
  rep c (l1 ++ (q, y) :: (p, x) :: l2) →
  ∃ c', decrement_iterator (element_it (end_of c) (l1 ++ [(q, y)]) p l2) c =
        (c', Ret (element_it (end_of c) l1 q ((p, x) :: l2))) ∧ moved c c'.
Proof.
  intros (m & d & z & j & -> & Hz & Hr & Hst & Hm). rewrite (end_of_con _ _ _ _ (rep_ok _ _ Hr)).
  pose proof (rep_chain _ _ Hr) as Hch. apply chain_app in Hch as [_ [(b & Hb & Hb1 & Hb2 & _) [(c & Hc & Hc1 & Hc2 & _) _]]].
  eexists. split.
  - erewrite (decrement_con m d z j _ Hz Hr Hst Hm p c); [|done|done| |rewrite Hc1; by eexists].
    + rewrite Hc1, Hb. cbn. rewrite Hb1, Hb2. done.
    + simpl. by rewrite last_pos_snoc.
  - pose proof (cell_at_lt _ _ _ Hb). unfold fc_s_headerSize in *. apply moved_con; [done|lia].
Qed.

(** [read_data] at an element returns its string, with the iterator
    that links it to its neighbours, and leaves the file alone. *)
Theorem read_data_returns c l1 p x l2 it :
  rep c (l1 ++ (p, x) :: l2) →
  ∃ c', read_data p it false c = (c', Ret (element_it (end_of c) l1 p l2, x)) ∧ moved c c'.
Proof. apply read_data_rep. Qed.

(** [fillVector] returns, and returns the strings of the list in
    order; the loop ends, since a list has fewer elements than its file
    has bytes. *)
Theorem fillVector_returns_list c l :
  rep c l → ∃ c', fillVector c = (c', Ret l.*2) ∧ moved c c'.
Proof.
  intros (m & d & p & j & -> & Hp & Hr & Hst & Hm).
  destruct (fillVector_con m d p j l Hr Hst Hm) as (p' & E & Hp'). exists (con m d p' j). split; [done|by apply moved_con].
Qed.

Lemma decrement_last_rep c l1 p x it :
  rep c (l1 ++ [(p, x)]) → fi_current it = end_of c →
  ∃ c', decrement_iterator it c = (c', Ret (element_it (end_of c) l1 p [])) ∧ moved c c'.
Proof.
  intros (m & d & z & j & -> & Hz & Hr & Hst & Hm). rewrite (end_of_con _ _ _ _ (rep_ok _ _ Hr)). intros Hcur.
  destruct (decrement_end_con m d z j _ Hz Hr Hst Hm it) as (c & Hc & E); [by destruct l1|done|].
  rewrite last_pos_snoc in *. destruct (chain_mid _ _ _ _ _ _ _ (rep_chain _ _ Hr)) as (c' & Hc' & H1 & H2 & _).
  assert (c' = c) as -> by congruence. eexists. split; [rewrite E, H1, H2; reflexivity|].
  pose proof (cell_at_lt _ _ _ Hc). unfold fc_s_headerSize in *. apply moved_con; [done|lia].
Qed.

(** Iterators walk the list in both directions: between neighbours
    [++] and [--] are inverse to each other; from the last element [++]
    gives the end, and [--] from the end gives the last element. *)
Theorem iterators_walk c l :
  rep c l →
  (∀ l1 q y p x l2, l = l1 ++ (q, y) :: (p, x) :: l2 →
     (∃ c', increment_iterator (element_it (end_of c) l1 q ((p, x) :: l2)) c =
            (c', Ret (element_it (end_of c) (l1 ++ [(q, y)]) p l2)) ∧ moved c c') ∧
     (∃ c', decrement_iterator (element_it (end_of c) (l1 ++ [(q, y)]) p l2) c =
            (c', Ret (element_it (end_of c) l1 q ((p, x) :: l2))) ∧ moved c c')) ∧
  (∀ l1 p x, l = l1 ++ [(p, x)] →
     (∃ c', increment_iterator (element_it (end_of c) l1 p []) c = (c', Ret (FIterator true 0 0 (end_of c))) ∧ moved c c') ∧
     (∃ c', decrement_iterator (FIterator true 0 0 (end_of c)) c = (c', Ret (element_it (end_of c) l1 p [])) ∧ moved c c')).
Proof.
  intros Hr. split; [intros l1 q y p x l2 ->|intros l1 p x ->]; split.
  - by apply increment_rep.
  - by apply decrement_rep.
  - by eapply increment_last_rep.
  - by eapply decrement_last_rep.
Qed.
