(* ===== verification/ContainerRemove.v ===== *)
(** * Removing from a container

    [remove_data] unlinks a record and marks it erased; removing the only
    element cuts the file back to its header.  In each case the call
    returns and the container stands for the list without the element. *)

From S2P Require Import Prelude Digits Stream FileContainer ContainerFields ContainerDisk ContainerCells ContainerList ContainerAdd.
From S2P Require Import ContainerInsert.

(** ** Cutting the file at a record boundary *)

Lemma truncateFile_con m d p j cs1 cs2 n :
  disk_ok d → d_cells d = cs1 ++ cs2 → n = fc_s_headerSize + cells_len cs1 →
  let d1 := Disk (d_header d) cs1 [] in
  truncateFile n (con m d p j) =
  (con m (with_status ft_end d1) 0 (j ++ [disk_bytes d1; disk_bytes (with_status ft_end d1)]), Ret tt).
Proof.
  intros Hd E -> d1. destruct Hd as [Hh Hcs]. rewrite E, Forall_app in Hcs. destruct Hcs as [Hcs1 Hcs2].
  assert (disk_ok d1) as Hd1 by by split.
  assert (fc_s_headerSize + cells_len cs1 ≠ 0) as Hnz by (pose proof (cells_len_nonneg cs1); unfold fc_s_headerSize; lia).
  unfold truncateFile, con. go. change (good (at_ _ _ _)) with true. cbn iota.
  erewrite bind_with; [|apply (ftruncate_at _ _ (disk_bytes d1) (cells_bytes cs2 ++ d_tail d))].
  - cbn iota. rewrite bool_decide_false by done. rewrite bind_mret. recon.
    rewrite (writeFileStatus_con d1 Hd1) by done. by rewrite <- app_assoc.
  - unfold disk_bytes. rewrite E, cells_bytes_app. simpl. rewrite app_nil_r. by rewrite <- !app_assoc.
  - rewrite disk_bytes_length by done. unfold disk_end. simpl. lia.
Qed.

Lemma eraseFile_con m d p j :
  disk_ok d → 0 ≤ p →
  ∃ d' j', eraseFile fc_s_headerSize (con m d p j) = (con m d' 0 j', Ret tt) ∧
    disk_ok d' ∧ d_cells d' = [] ∧ d_tail d' = [] ∧ h_stamp (d_header d') = h_stamp (d_header d).
Proof.
  intros Hd Hp. unfold eraseFile.
  assert (triple_ok (fc_s_headerSize, fc_s_headerSize, fc_s_headerSize)) as Ht by (split_and!; unfold off_ok, off_max, fc_s_headerSize; simpl; lia).
  erewrite bind_Ret by (apply writeIteratorBackup_con; [done|done|lia|exact Ht]). cbn [mkIterator fi_current fi_prev fi_next].
  set (d1 := with_status ft_begin (with_backup 0 (fc_s_headerSize, fc_s_headerSize, fc_s_headerSize) d)).
  assert (disk_ok d1) as Hd1 by (by apply with_status_ok, with_backup_ok).
  do 2 eexists. split; [by apply (truncateFile_con m d1 p _ [] (d_cells d1))|].
  split; [|done]. split; [apply (with_status_ok d1 Hd1)|constructor].
Qed.

(** ** The record to remove *)

(** What the object keeps across the branches of [removeDataPointer]. *)
Definition same_mem (m m' : FileContainer) : Prop :=
  fc_initialized m' = fc_initialized m ∧ fc_size m' = fc_size m ∧ fc_stamp m' = fc_stamp m ∧ fc_now m' = fc_now m.

Section remove.
Context (m : FileContainer) (d : disk) (p : Z) (j : list bytes) (Hp : 0 ≤ p).
Context (l1 : list entry) (w : Z) (x : bytes) (l2 : list entry) (Hb : body d (l1 ++ (w, x) :: l2)).
Context (Hlim : (fi_prev (fc_limits m), fi_next (fc_limits m)) = h_limits (d_header d)).
Context (c : cell) (Hc : cell_at d w = Some c) (Hc1 : c_prev c = last_pos 0 l1) (Hc2 : c_next c = head_pos (disk_end d) l2).
Context (Hst : c_state c = "g"%char) (Hcx : c_data c = x).
Let e := disk_end d.
Let size := Z.of_nat (length (c_data c)).

Definition iter_ : FileIterator := FIterator true (c_prev c) (c_next c) w.

(** What every branch establishes. *)
Definition taken (m' : FileContainer) (d' : disk) (p' : Z) : Prop :=
  0 ≤ p' ∧ body d' (l1 ++ l2) ∧
  (l1 ++ l2 ≠ [] → disk_end d' = e ∧ ∃ c', cell_at d' w = Some c' ∧ c_prev c' = c_prev c ∧ c_next c' = c_next c) ∧ (l1 ++ l2 = [] → d_cells d' = []) ∧ h_stamp (d_header d') = h_stamp (d_header d) ∧
  (fi_prev (fc_limits m'), fi_next (fc_limits m')) = h_limits (d_header d') ∧ same_mem m m'.

Local Lemma links_off : off_ok (c_prev c) ∧ off_ok (c_next c) ∧ off_ok w ∧ off_ok e.
Proof.
  destruct (ok_links _ (cell_at_ok _ (body_ok _ _ Hb) _ _ Hc)) as [H1 H2].
  split_and!; [done|done|by eapply body_cell_off|by eapply body_end_ok].
Qed.

Local Lemma w_not_in : (w ∉ (l1 ++ l2).*1) ∧ NoDup (l1 ++ l2).*1.
Proof.
  pose proof (body_nodup _ _ Hb) as Hn. rewrite fmap_app in Hn.
  change (fst <$> ((w, x) :: l2)) with ([w] ++ (fst <$> l2)) in Hn. rewrite (Permutation_app_swap_app (l1.*1) [w]) in Hn.
  rewrite <- fmap_app in Hn. by apply NoDup_cons in Hn.
Qed.

(** The end of the three branches that keep a list. *)
Lemma mark_tail m' d2 q j' s :
  disk_ok d2 → d_tail d2 = [] → disk_end d2 = e → 0 ≤ q → cell_at d2 w = Some c →
  chain d2 0 (l1 ++ l2) e → h_stamp (d_header d2) = h_stamp (d_header d) → l1 ++ l2 ≠ [] →
  h_limits (d_header d2) = (head_pos fc_s_headerSize (l1 ++ l2), last_pos fc_s_headerSize (l1 ++ l2)) →
  (fi_prev (fc_limits m'), fi_next (fc_limits m')) = h_limits (d_header d2) → same_mem m m' →
  ∃ d' p' j'', markDataAsErased iter_ size s (con m' d2 q j') = (con m' d' p' j'', Ret tt) ∧ taken m' d' p'.
Proof.
  intros Hd2 Ht2 He2 Hq Hcw Hch Hs2 Hne Hl2 Hm' Hsm. destruct links_off as (L1 & L2 & L3 & L4). destruct w_not_in as [Wn Wd].
  do 3 eexists. split; [by eapply markDataAsErased_cell|]. cbn [iter_ fi_prev fi_next].
  split; [unfold off_ok in L3; lia|]. split; [|split; [|by split_and!]].
  2: { intros _. split; [by rewrite !upd_at_end by done|]. exists (set_state "i"%char (set_links (c_prev c) (c_next c) c)).
       rewrite !cell_at_upd by done. rewrite !bool_decide_true by done.
       match goal with |- context [cell_at ?z w] => change (cell_at z w) with (cell_at d2 w) end. by rewrite Hcw. }
  split; try done.
  - apply upd_at_ok; [|intros; apply set_state_ok; [by right|done]].
    apply upd_at_ok; [|intros; by apply set_links_ok]. apply with_status_ok, with_backup_ok; [done|by split_and!].
  - rewrite !upd_at_end by done. change (disk_end (with_status _ _)) with (disk_end d2). rewrite He2.
    do 2 (apply chain_upd_other; [done|done|]). by eapply chain_ext, Hch.
  - rewrite !upd_at_end by done. change (disk_end (with_status _ _)) with (disk_end d2). rewrite He2. apply L4.
Qed.

Local Lemma limits_off : pair_ok (fi_prev (fc_limits m), fi_next (fc_limits m)).
Proof. rewrite Hlim. apply (ok_limits _ (ok_header _ (body_ok _ _ Hb))). Qed.

(** At an end of the list: the limits change, and one neighbour. *)
Lemma relink_one lims q b f pv nx p0 j0 :
  0 ≤ p0 → cell_at d q = Some b → w ≠ q → off_ok pv → off_ok nx →
  chain (upd_at q (set_links pv nx) d) 0 (l1 ++ l2) e → l1 ++ l2 ≠ [] →
  (fi_prev lims, fi_next lims) = (head_pos fc_s_headerSize (l1 ++ l2), last_pos fc_s_headerSize (l1 ++ l2)) →
  pair_ok (fi_prev lims, fi_next lims) →
  f (FIterator true (c_prev b) (c_next b) q) = FIterator true pv nx q →
  ∃ m' d' p' j',
    (writeLimitsBackup rd_limits (fc_limits m) false;;
     modify (upd_limits lims);;
     l ← field fc_limits;
     writeInitialPosition l false;;
     temp ← readIterator q nullIterator false;
     writeIteratorBackup 0 temp rd_iterator;;
     writeIterator (fi_current temp) (f temp);;
     markDataAsErased iter_ size rd_mark1) (con m d p0 j0) = (con m' d' p' j', Ret tt) ∧ taken m' d' p'.
Proof.
  intros Hp0 Hcb Hqw Hpv Hnx Hch Hne Hlims Hlp Hf. pose proof Hb as [Bo Bt Bl Bc Bn Br].
  pose proof (cell_at_lt _ _ _ Hcb) as Hlt. pose proof (ok_links _ (cell_at_ok _ Bo _ _ Hcb)) as [Lb1 Lb2].
  pose proof limits_off as Hlo. pose proof (body_cell_off _ _ _ _ Hb Hcb) as Hq.
  set (d1 := with_status rd_limits (with_lbackup (fi_prev (fc_limits m), fi_next (fc_limits m)) d)).
  assert (disk_ok d1) as Hd1 by (by apply with_status_ok, with_lbackup_ok).
  erewrite bind_Ret by (by apply writeLimitsBackup_con). fold d1.
  rewrite bind_modify, bind_field.
  match goal with |- context [upd_limits lims (con m ?x ?y ?z)] =>
    change (upd_limits lims (con m x y z)) with (con (upd_limits lims m) x y z) end.
  cbn [con upd_stream upd_limits fc_limits]. recon.
  erewrite bind_Ret by (by apply writeInitialPosition_con). set (d2 := with_limits (fi_prev lims, fi_next lims) d1).
  assert (disk_ok d2) as Hd2 by (by apply with_limits_ok).
  erewrite bind_Ret by (apply (readIterator_cell d2 Hd2 _ _ q b Hcb)).
  set (d3 := with_status rd_iterator (with_backup 0 (q, c_prev b, c_next b) d2)).
  assert (disk_ok d3) as Hd3 by (apply with_status_ok, with_backup_ok; [done|by split_and!]).
  erewrite bind_Ret by (apply writeIteratorBackup_con; [done|unfold off_ok in Hq; lia|lia|by split_and!]).
  cbn [fi_current fi_prev fi_next]. fold d3. rewrite Hf.
  set (d4 := upd_at q (set_links pv nx) d3).
  assert (disk_ok d4) as Hd4 by (apply upd_at_ok; [done|]; intros; by apply set_links_ok).
  erewrite bind_Ret by (apply (writeIterator_cell d3 Hd3 _ _ q b Hcb); by split). cbn [fi_prev fi_next]. fold d4.
  edestruct (λ q' j0, mark_tail (upd_limits lims m) d4 q' j0 rd_mark1) as (d' & p' & j' & Hrun & Hins).
  12: { exists (upd_limits lims m), d', p', j'. split; [exact Hrun|exact Hins]. }
  all: try done.
  - by apply upd_at_end.
  - unfold off_ok in Hq; lia.
  - unfold d4. rewrite cell_at_upd by done. by rewrite bool_decide_false.
  - by eapply chain_ext, Hch.
Qed.

(** The guard values at the head of [removeDataPointer]. *)
Local Lemma remove_start (k : Z → FileIterator → Z → FC unit) :
  (end_ ← getEnd; limits ← field fc_limits; n ← field fc_size; k end_ limits n) (con m d p j) =
  k e (fc_limits m) (fc_size m) (con m d e j).
Proof. erewrite bind_Ret by (apply getEnd_con, (body_ok _ _ Hb)). rewrite !bind_field. done. Qed.

(** *** The last element *)
Lemma remove_last_con :
  l2 = [] → l1 ≠ [] →
  ∃ m' d' p' j', removeDataPointer iter_ size (con m d p j) = (con m' d' p' j', Ret tt) ∧ taken m' d' p'.
Proof.
  intros El2 Hne. destruct (snoc_cases l1 Hne) as (l0 & q & y & El1). pose proof Hb as [Bo Bt Bl Bc Bn Br].
  destruct links_off as (L1 & L2 & L3 & L4). destruct w_not_in as [Wn Wd].
  apply chain_app in Bc as [Bc1 _]. rewrite El1 in Bc1, Hc1. rewrite last_pos_snoc in Hc1. cbn [head_pos] in Bc1.
  destruct (chain_mid _ _ _ _ _ _ _ Bc1) as (b & Hcb & Hb1 & Hb2 & _).
  pose proof (cell_at_lt _ _ _ Hcb) as Hlt. pose proof (ok_links _ (cell_at_ok _ Bo _ _ Hcb)) as [Lb1 Lb2].
  rewrite El2 in Hc2. cbn [head_pos] in Hc2. fold e in Hc2.
  unfold removeDataPointer. rewrite remove_start. cbn [iter_ fi_next fi_prev]. rewrite Hc1, Hc2.
  rewrite bool_decide_false by (unfold fc_s_headerSize in Hlt; lia). rewrite bool_decide_true by done. fold e.
  rewrite El2, app_nil_r, El1 in Wn, Wd.
  apply (relink_one (set_next q (fc_limits m)) q b (set_next e) (c_prev b) e).
  all: rewrite ?El2, ?app_nil_r, ?El1; try done.
  - apply disk_end_ge0.
  - intros E. apply Wn. rewrite E, fmap_app. apply elem_of_app. right. by apply elem_of_cons; left.
  - apply (chain_set_next _ _ _ _ _ w); [done| |done].
    rewrite fmap_app, NoDup_app in Wd. destruct Wd as (_ & Wd & _). intros Hi.
    apply (Wd q Hi). by apply elem_of_cons; left.
  - by destruct l0.
  - rewrite last_pos_snoc. simpl. f_equal.
    assert (fi_prev (fc_limits m) = (h_limits (d_header d)).1) as -> by by rewrite <- Hlim. rewrite Bl, El1.
    simpl. by rewrite !head_pos_app.
  - split; [apply limits_off|by eapply body_cell_off].
Qed.

(** *** The first element *)
Lemma remove_first_con :
  l1 = [] → l2 ≠ [] →
  ∃ m' d' p' j', removeDataPointer iter_ size (con m d p j) = (con m' d' p' j', Ret tt) ∧ taken m' d' p'.
Proof.
  intros El1 Hne. assert (∃ q y l3, l2 = (q, y) :: l3) as (q & y & l3 & El2) by (destruct l2 as [|[]]; [done|eauto]).
  pose proof Hb as [Bo Bt Bl Bc Bn Br].
  destruct links_off as (L1 & L2 & L3 & L4). destruct w_not_in as [Wn Wd].
  rewrite El1 in Bc, Hc1, Wn, Wd. destruct Bc as [_ Bc]. rewrite El2 in Bc, Hc2, Wn, Wd. cbn [head_pos last_pos] in Hc1, Hc2.
  pose proof Bc as [(b & Hcb & Hb1 & Hb2 & _) _].
  pose proof (cell_at_lt _ _ _ Hcb) as Hlt. pose proof (ok_links _ (cell_at_ok _ Bo _ _ Hcb)) as [Lb1 Lb2].
  unfold removeDataPointer. rewrite remove_start. cbn [iter_ fi_next fi_prev]. rewrite Hc1, Hc2.
  rewrite !bool_decide_false by (unfold e; lia). rewrite bool_decide_true by done. fold e.
  apply (relink_one (set_prev q (fc_limits m)) q b (set_prev 0) 0 (c_next b)).
  all: rewrite ?El1, ?El2; try done.
  - apply disk_end_ge0.
  - intros E. apply Wn. rewrite E. by apply elem_of_cons; left.
  - apply (chain_set_prev _ w); [done| |done]. by apply NoDup_cons in Wd as [??].
  - simpl. f_equal.
    assert (fi_next (fc_limits m) = (h_limits (d_header d)).2) as -> by by rewrite <- Hlim. rewrite Bl, El1, El2. done.
  - split; [by eapply body_cell_off|apply limits_off].
Qed.

(** *** Between two elements *)
Lemma remove_middle_con :
  l1 ≠ [] → l2 ≠ [] →
  ∃ m' d' p' j', removeDataPointer iter_ size (con m d p j) = (con m' d' p' j', Ret tt) ∧ taken m' d' p'.
Proof.
  intros Hne1 Hne2. destruct (snoc_cases l1 Hne1) as (l0 & q & y & El1).
  assert (∃ r z l3, l2 = (r, z) :: l3) as (r & z & l3 & El2) by (destruct l2 as [|[]]; [done|eauto]).
  pose proof Hb as [Bo Bt Bl Bc Bn Br]. destruct links_off as (L1 & L2 & L3 & L4). destruct w_not_in as [Wn Wd].
  apply chain_app in Bc as [Bc1 [_ Bc2]]. rewrite El1 in Bc1, Hc1. rewrite El2 in Bc2, Hc2.
  rewrite last_pos_snoc in Hc1. cbn [head_pos] in Hc2, Bc1.
  destruct (chain_mid _ _ _ _ _ _ _ Bc1) as (b & Hcb & Hb1 & Hb2 & _). pose proof Bc2 as [(a & Hca & Ha1 & Ha2 & _) _].
  pose proof (cell_at_lt _ _ _ Hcb) as Hlt. pose proof (ok_links _ (cell_at_ok _ Bo _ _ Hcb)) as [Lb1 Lb2].
  pose proof (cell_at_lt _ _ _ Hca) as Hlta. pose proof (ok_links _ (cell_at_ok _ Bo _ _ Hca)) as [La1 La2].
  pose proof (body_cell_off _ _ _ _ Hb Hcb) as Hqo. pose proof (body_cell_off _ _ _ _ Hb Hca) as Hro.
  rewrite El1, El2, !fmap_app in Wn, Wd. rewrite !elem_of_app in Wn. rewrite NoDup_app, NoDup_app in Wd.
  destruct Wd as ((_ & Wd1 & _) & Wd2 & Wd3). rewrite !fmap_cons in *. apply NoDup_cons in Wd3 as [Wd3 _].
  assert (w ≠ q ∧ w ≠ r ∧ q ≠ r) as (Hwq & Hwr & Hqr).
  { split_and!; intros E; [apply Wn..|apply (Wd2 q)]; rewrite ?E, ?elem_of_app, ?elem_of_cons; simpl; auto. }
  unfold removeDataPointer. rewrite remove_start. cbn [iter_ fi_next fi_prev]. rewrite Hc1, Hc2.
  unfold fc_s_headerSize in Hlt, Hlta. rewrite !bool_decide_false by (unfold e; lia).
  erewrite bind_Ret by (apply (readIterator_cell d Bo m j r a Hca)).
  erewrite bind_Ret by (apply (readIterator_cell d Bo m j q b Hcb)).
  set (d1 := with_status rd_iterator2 (with_backup 0 (r, c_prev a, c_next a) d)).
  assert (disk_ok d1) as Hd1 by (apply with_status_ok, with_backup_ok; [done|by split_and!]).
  erewrite bind_Ret by (apply writeIteratorBackup_con; [done|lia|lia|by split_and!]). cbn [fi_current fi_prev fi_next]. fold d1.
  set (d2 := with_status rd_iterator3 (with_backup 1 (q, c_prev b, c_next b) d1)).
  assert (disk_ok d2) as Hd2 by (apply with_status_ok, with_backup_ok; [done|by split_and!]).
  erewrite bind_Ret by (apply writeIteratorBackup_con; [done|lia|lia|by split_and!]). cbn [set_prev set_next fi_current fi_prev fi_next]. fold d2.
  set (d3 := upd_at r (set_links q (c_next a)) d2).
  assert (disk_ok d3) as Hd3 by (apply upd_at_ok; [done|]; intros; by apply set_links_ok).
  erewrite bind_Ret by (apply (writeIterator_cell d2 Hd2 _ _ r a Hca); by split). cbn [fi_prev fi_next]. fold d3.
  assert (cell_at d3 q = Some b) as Hcb3 by (unfold d3; rewrite cell_at_upd by done; by rewrite bool_decide_false).
  set (d4 := upd_at q (set_links (c_prev b) r) d3).
  assert (disk_ok d4) as Hd4 by (apply upd_at_ok; [done|]; intros; by apply set_links_ok).
  erewrite bind_Ret by (apply (writeIterator_cell d3 Hd3 _ _ q b Hcb3); by split). cbn [fi_prev fi_next]. fold d4.
  edestruct (λ q' j0, mark_tail m d4 q' j0 rd_mark2) as (d' & p' & j' & Hrun & Hins).
  12: { exists m, d', p', j'. split; [|exact Hins]. rewrite <- Hrun. unfold iter_. by rewrite Hc1, Hc2. }
  all: try done.
  - unfold d4. rewrite upd_at_end by done. by apply upd_at_end.
  - lia.
  - unfold d4, d3. rewrite !cell_at_upd by done. by rewrite !bool_decide_false.
  - rewrite El1, El2, chain_app, last_pos_snoc. split.
    + apply (chain_set_next _ _ _ _ _ w); [done|intros Hi; apply (Wd1 q Hi), elem_of_cons; by left|].
      apply chain_upd_other; [done| |by eapply chain_ext, Bc1].
      rewrite fmap_app. intros Hi. apply (Wd2 r Hi), elem_of_cons. by left.
    + apply chain_upd_other; [done| |].
      * intros Hi. apply (Wd2 q); [|done]. apply elem_of_app. right. apply elem_of_cons. by left.
      * apply (chain_set_prev _ w); [done|done|]. by eapply chain_ext, Bc2.
  - by destruct l1.
  - change (h_limits (d_header d4)) with (h_limits (d_header d)). rewrite Bl, El1, El2.
    by rewrite !head_pos_app, !last_pos_app.
Qed.

(** *** The only element: the file is cut back to its header *)
Lemma remove_only_con :
  l1 = [] → l2 = [] → fc_size m = 1 →
  ∃ m' d' p' j', removeDataPointer iter_ size (con m d p j) = (con m' d' p' j', Ret tt) ∧ taken m' d' p'.
Proof.
  intros El1 El2 Hn. pose proof Hb as [Bo Bt Bl Bc Bn Br]. rewrite El1 in Hc1. rewrite El2 in Hc2. cbn [head_pos last_pos] in Hc1, Hc2.
  unfold removeDataPointer. rewrite remove_start. cbn [iter_ fi_next fi_prev]. rewrite Hc1, Hc2.
  rewrite bool_decide_true by done. rewrite bool_decide_false by lia. rewrite bind_mret.
  destruct (eraseFile_con m d e j Bo (disk_end_ge0 d)) as (d1 & j1 & E & Hd1 & Hcs & Htl & Hs).
  erewrite bind_Ret by exact E. rewrite !bind_field, !bind_modify, bind_field.
  set (lims := reset fc_s_headerSize fc_s_headerSize 0 (fc_limits m)). set (rem := reset un_dead un_beef 0 (fc_removed m)).
  set (m1 := upd_removed rem (upd_limits lims m)).
  match goal with |- context [upd_removed ?r (upd_limits ?l (con m d1 0 j1))] =>
    change (upd_removed r (upd_limits l (con m d1 0 j1))) with (con m1 d1 0 j1) end.
  change (fc_limits (con m1 d1 0 j1)) with lims.
  assert (pair_ok (fi_prev lims, fi_next lims)) as Hl by (by split).
  assert (pair_ok (fi_prev rem, fi_next rem)) as Hrm by (by split).
  erewrite bind_Ret by (by apply writeInitialPosition_con). rewrite bind_field.
  match goal with |- context [fc_removed ?st] => change (fc_removed st) with rem end.
  assert (disk_ok (with_limits (fi_prev lims, fi_next lims) d1)) as Hd2 by by apply with_limits_ok.
  rewrite writeInitialPosition_removed by done.
  do 4 eexists. split; [reflexivity|]. split; [unfold fc_s_headerSize; lia|]. rewrite El1, El2.
  split; [|split; [done|by split_and!]]. split.
  - by apply with_removed_ok.
  - done.
  - done.
  - done.
  - by constructor.
  - unfold disk_end. simpl. rewrite Hcs, Htl. simpl. unfold fc_s_headerSize, off_max. lia.
Qed.

Lemma removeDataPointer_con :
  fc_size m = Z.of_nat (length (l1 ++ l2)) + 1 →
  ∃ m' d' p' j', removeDataPointer iter_ size (con m d p j) = (con m' d' p' j', Ret tt) ∧ taken m' d' p'.
Proof.
  intros Hn. destruct (decide (l1 = [])) as [H1|H1], (decide (l2 = [])) as [H2|H2].
  - apply remove_only_con; [done|done|]. by rewrite Hn, H1, H2.
  - by apply remove_first_con.
  - by apply remove_last_con.
  - by apply remove_middle_con.
Qed.
End remove.

(** ** [remove_data] *)

(** The record at [w] keeps its links when it is erased: an iterator on it
    can still be moved on. *)
Definition erased (c : FileContainer) (l : list entry) (w prev next : Z) : Prop :=
  ∃ m d p j b, c = con m d p j ∧ 0 ≤ p ∧ repr d l ∧ h_status (d_header d) = closed ∧ mem_ok m d ∧
    cell_at d w = Some b ∧ c_prev b = prev ∧ c_next b = next.

Section remove_rep.
Context (m : FileContainer) (d : disk) (p : Z) (j : list bytes) (Hp : 0 ≤ p).
Context (l1 : list entry) (w : Z) (x : bytes) (l2 : list entry) (Hr : repr d (l1 ++ (w, x) :: l2)).
Context (Hst : h_status (d_header d) = closed) (Hm : mem_ok m d).

Lemma remove_rep :
  ∃ c', remove_data w (con m d p j) = (c', Ret tt) ∧ rep c' (l1 ++ l2) ∧
    fc_stamp c' = next_stamp d m ∧ fc_now c' = fc_now m ∧
    (l1 ++ l2 ≠ [] → end_of c' = disk_end d ∧ erased c' (l1 ++ l2) w (last_pos 0 l1) (head_pos (disk_end d) l2)).
Proof.
  set (m1 := upd_stamp (next_stamp d m) m). set (d1 := add_opened m d).
  pose proof (rep_ok _ _ Hr) as Hd. pose proof (mem_limits _ _ Hm) as Ml. pose proof (opened_ok _ _ Hd Hm) as Os.
  pose proof (add_opened_ok _ _ Hd Hm) as Hd1. fold d1 in Hd1.
  assert (body d1 (l1 ++ (w, x) :: l2)) as Hb1.
  { apply (body_header (with_stamp (next_stamp d m) d)); [|done|done].
    apply body_header; [by apply repr_body|by apply with_stamp_ok|done]. }
  destruct (chain_mid _ _ _ _ _ _ _ (rep_chain _ _ Hr)) as (c & Hc & Hc1 & Hc2 & Hc3 & Hc4).
  pose proof (cell_at_lt _ _ _ Hc) as Hlt.
  assert (fc_size m = Z.of_nat (length (l1 ++ l2)) + 1) as Hsz.
  { rewrite (mem_size _ _ Hm), (rep_size _ _ Hr), !length_app. simpl. lia. }
  unfold remove_data. erewrite bind_Ret by by apply prologue_closed. erewrite bind_Ret by by apply updateTimeStamp_con.
  erewrite bind_Ret by (apply writeFileStatus_con; [by apply with_stamp_ok|done]). fold m1. fold (add_opened m d). fold d1.
  erewrite bind_Ret by (apply (readIterator_cell d1 Hd1 _ _ w c Hc)).
  erewrite bind_Ret by (apply (readSizeAndState_cell d1 Hd1 _ _ w c Hc)). cbv beta iota. rewrite bool_decide_true by done.
  fold (iter_ w c). unfold fc_s_headerSize in Hlt.
  edestruct (λ j0, removeDataPointer_con m1 d1 (w + 60) j0 l1 w x l2 Hb1 Ml c Hc Hc1 Hc2 Hsz)
    as (m' & d' & p' & j' & Hrun & Hp' & Hb' & Hw' & He' & Hs' & Hl' & S1 & S2 & S3 & S4).
  erewrite bind_Ret by exact Hrun. pose proof (body_ok _ _ Hb') as Hd'.
  erewrite bind_Ret by by apply createEmptyBackup_con.
  rewrite bind_field. cbn [con upd_stream fc_size]. recon. rewrite S2. cbn [m1 upd_stamp fc_size]. rewrite Hsz.
  rewrite bool_decide_false by lia. rewrite bind_mret, bind_field. cbn [con upd_stream fc_size]. recon.
  rewrite S2. cbn [m1 upd_stamp fc_size]. rewrite Hsz.
  replace (Z.of_nat (length (l1 ++ l2)) + 1 - 1) with (Z.of_nat (length (l1 ++ l2))) by lia.
  set (n := Z.of_nat (length (l1 ++ l2))).
  assert (repr (add_final n d') (l1 ++ l2)) as Hr' by (by apply body_final).
  assert (size_ok n) as Hn by apply (ok_size _ (ok_header _ (rep_ok _ _ Hr'))).
  erewrite bind_Ret by (apply writeAndSetSize_con; auto with wms).
  rewrite writeFileStatus_con by auto with wms.
  set (mf := upd_size _ m'). set (df := add_final n d').
  assert (mem_ok mf df) as Hmf.
  { split; simpl; try done.
    - rewrite S1. apply (mem_init _ _ Hm).
    - by rewrite <- Hl'.
    - by rewrite <- Hl'.
    - rewrite S4. apply (mem_now _ _ Hm).
    - rewrite S3. exact Os.
    - rewrite S3, Hs'. apply ts_gtb_irrefl. }
  eexists. split; [reflexivity|]. split; [by do 4 eexists|]. split; [exact S3|]. split; [exact S4|].
  intros Hne. destruct (Hw' Hne) as [Ee (c' & Hc' & Hc1' & Hc2')]. rewrite (end_of_con mf df) by apply Hr'.
  split; [exact Ee|]. do 5 eexists. split; [reflexivity|]. split_and!; try done; [by rewrite Hc1', Hc1|by rewrite Hc2', Hc2].
Qed.
End remove_rep.

Lemma remove_state c l1 p x l2 :
  rep c (l1 ++ (p, x) :: l2) → ∃ c', remove_data p c = (c', Ret tt) ∧ rep c' (l1 ++ l2).
Proof.
  intros (m & d & q & j & -> & Hq & Hr & Hst & Hm).
  destruct (remove_rep m d q j Hq l1 p x l2 Hr Hst Hm) as (c' & E & H & _). by exists c'.
Qed.

(** C2.  [remove_data] at an element returns, and the container then stands
    for the list without it. *)
Theorem remove_data_removes c l1 p x l2 :
  rep c (l1 ++ (p, x) :: l2) → ∃ c', remove_data p c = (c', Ret tt) ∧ rep c' (l1 ++ l2).
Proof. apply remove_state. Qed.
