(* ===== verification/ContainerCreate.v ===== *)
(** * Creating, opening and compacting a container

    A new file is an empty list; a file that was left closed is opened as
    the list it holds; compaction keeps the list and drops the erased
    records. *)

From S2P Require Import Prelude Digits Stream FileContainer ContainerFields ContainerDisk ContainerCells ContainerList ContainerAdd.
From S2P Require Import ContainerInsert ContainerRead ContainerRemove.

(** ** An empty file *)

Definition empty_disk (t : TimeStamp) (s : filestatus_t) : disk :=
  Disk (Header t 0 s (0, 0, 0) (0, 0, 0) (0, 0, 0) (0, 0, 0) (0, 0) (0, 0)
          (fc_s_headerSize, fc_s_headerSize) (un_dead, un_beef)) [] [].

Lemma empty_disk_ok t s : stamp_ok t → disk_ok (empty_disk t s).
Proof. intros Ht. split; [split; try done; apply Ht|constructor]. Qed.

(** What [createEmptyFile] leaves in the object. *)
Definition created (m : FileContainer) : FileContainer :=
  upd_removed (reset un_dead un_beef 0 (fc_removed m))
    (upd_limits (reset fc_s_headerSize fc_s_headerSize 0 (fc_limits m)) (upd_size 0 (upd_stamp (mkStamp (fc_now m)) m))).

(** The writes of [createEmptyFile], on a file that grows from nothing. *)
Section raw.
Context (m : FileContainer) (d : bytes) (j : list bytes) (p : Z) (Hp : 0 ≤ p).
Abbreviation raw m d p j := (upd_stream (Some (at_ d p j)) m).

Lemma writeStamp_raw :
  d = [] → stamp_ok (fc_stamp m) →
  writeStamp (raw m d p j) = (raw m (stamp_text (fc_stamp m)) 27 (j ++ [stamp_text (fc_stamp m)]), Ret tt).
Proof.
  intros -> Hs. unfold writeStamp. go. rewrite emit_at_end by done. go. cbn [upd_stream fc_stamp].
  change (TimeStamp_write (fc_stamp m) ++ [nl]) with (stamp_text (fc_stamp m)).
  by rewrite stamp_text_length.
Qed.

Lemma writeSize_raw :
  length d = 27%nat →
  writeAndSetSize 0 (raw m d p j) =
  (raw (upd_size 0 m) (d ++ fmt 10 fc_s_numberSize 0 ++ [nl]) p (j ++ [d ++ fmt 10 fc_s_numberSize 0 ++ [nl]]), Ret tt).
Proof. intros Hd. unfold writeAndSetSize. go. rewrite emit_at_end by (by rewrite Hd). go. done. Qed.

Lemma writeStatus_raw s :
  length d = 49%nat →
  writeFileStatus s (raw m d p j) = (raw m (d ++ [fs_char s; nl]) p (j ++ [d ++ [fs_char s; nl]]), Ret tt).
Proof. intros Hd. unfold writeFileStatus. go. rewrite emit_at_end by (by rewrite Hd). go. done. Qed.

Lemma createEmptyBackup_raw a s0 s :
  d = a ++ [s0; nl] → length a = 49%nat →
  createEmptyBackup s (raw m d p j) =
  (raw m (a ++ [fs_char s; nl] ++ no_backup_bytes) p
     (j ++ [d ++ no_backup_bytes; a ++ [fs_char s; nl] ++ no_backup_bytes]), Ret tt).
Proof.
  intros -> Ha. unfold createEmptyBackup. go. fold no_backup_bytes.
  rewrite emit_at_end by (rewrite length_app, Ha; done). go.
  unfold writeFileStatus. go. erewrite (emit_at_mid _ _ a [s0; nl] no_backup_bytes).
  - go. by rewrite <- app_assoc.
  - by rewrite <- app_assoc.
  - by rewrite Ha.
  - done.
Qed.

Lemma writeInitialPosition_raw it isList :
  Z.of_nat (length d) = initialPosition isList → pair_ok (fi_prev it, fi_next it) →
  writeInitialPosition it isList (raw m d p j) =
  (raw m (d ++ pair_line (fi_prev it, fi_next it)) (initialPosition isList + 34) (j ++ [d ++ pair_line (fi_prev it, fi_next it)]), Ret tt).
Proof.
  intros Hd Hit. unfold writeInitialPosition. assert (0 ≤ initialPosition isList) by (by destruct isList). go.
  change (FileIterator_write it ++ [nl]) with (pair_line (fi_prev it, fi_next it)).
  rewrite emit_at_end by done. go. by rewrite pair_line_length.
Qed.
End raw.

Section create.
Context (m : FileContainer) (j : list bytes) (p : Z) (Hnow : off_ok (fc_now m)).
Let t := mkStamp (fc_now m).

Local Lemma t_ok : stamp_ok t.
Proof. split; [done|]. simpl. lia. Qed.

Lemma createEmptyFile_con :
  ∃ p' j', createEmptyFile (upd_stream (Some (at_ [] p j)) m) = (con (created m) (empty_disk t closed) p' j', Ret tt) ∧ 0 ≤ p'.
Proof.
  pose proof t_ok as Ht. pose proof (stamp_text_length t Ht) as LS. pose proof (size_field_length 0 ltac:(done)) as LN.
  exists fc_s_headerSize. eexists. split; [|done]. unfold createEmptyFile. rewrite bind_field, bind_modify.
  change (upd_stamp ?t (upd_stream ?x m)) with (upd_stream x (upd_stamp t m)).
  change (fc_now (upd_stream _ m)) with (fc_now m). fold t.
  erewrite bind_Ret by (apply writeStamp_raw; done). cbn [fc_stamp upd_stamp].
  erewrite bind_Ret by (apply writeSize_raw; done).
  erewrite bind_Ret by (apply writeStatus_raw; [done|]; by rewrite length_app, LS, LN).
  rewrite !bind_field, !bind_modify.
  match goal with |- context [upd_removed ?r (upd_limits ?l (upd_stream ?x ?mm))] =>
    change (upd_removed r (upd_limits l (upd_stream x mm))) with (upd_stream x (created m)) end.
  erewrite bind_Ret by (apply (createEmptyBackup_raw (created m) _ _ 27 ltac:(lia) (stamp_text t ++ fmt 10 fc_s_numberSize 0 ++ [nl]) (fs_char opened));
    [done|by rewrite length_app, LS, LN]).
  rewrite bind_field. change (fc_limits (upd_stream _ (created m))) with (reset fc_s_headerSize fc_s_headerSize 0 (fc_limits m)).
  erewrite bind_Ret by (apply writeInitialPosition_raw; [|done]; rewrite !length_app, LS; done).
  rewrite bind_field. change (fc_removed (upd_stream _ (created m))) with (reset un_dead un_beef 0 (fc_removed m)).
  erewrite bind_Ret by (apply writeInitialPosition_raw; [|done]; rewrite !length_app, LS; done).
  cbn [reset fi_prev fi_next].
  match goal with |- context [at_ ?x _ _] => assert (x = disk_bytes (empty_disk t empty)) as -> end.
  { unfold disk_bytes, header_bytes, header_fields. cbn [concat empty_disk d_header h_stamp h_size h_status h_backup0 h_backup1 h_backup2 h_backup3 h_lbackup h_rbackup h_limits h_removed d_cells d_tail].
    rewrite <- !app_assoc. reflexivity. }
  recon. rewrite (writeFileStatus_con (empty_disk t empty) (empty_disk_ok _ _ Ht)); [reflexivity|done].
Qed.
End create.

Lemma repr_empty d :
  disk_ok d → d_cells d = [] → d_tail d = [] → h_size (d_header d) = 0 →
  h_limits (d_header d) = (fc_s_headerSize, fc_s_headerSize) → repr d [].
Proof.
  intros Hd Hc Ht Hs Hl. split; try done; [by constructor|]. unfold disk_end. rewrite Hc, Ht.
  unfold fc_s_headerSize, off_max. simpl. lia.
Qed.

(** ** [open] *)

(** Any object closed and reopened: what [open] does before the file. *)
Lemma open_prefix c name contents permitted broken :
  ∃ m, open name contents permitted broken c =
    match contents with
    | Some d => openFile d permitted broken m
    | None => (createFile permitted broken;; updateTimeStamp;; modify (upd_initialized true)) m
    end ∧ fc_now m = fc_now c ∧ fc_initialized m = false ∧ fc_filename m = name.
Proof. destruct c as [i n [st|] s f l r w b], contents; (eexists; split; [reflexivity|done]). Qed.

Lemma open_new_rep c name :
  off_ok (fc_now c) → ∃ c', open name None true false c = (c', Ret tt) ∧ rep c' [].
Proof.
  intros Hnow. destruct (open_prefix c name None true false) as (m & -> & En & _). rewrite <- En in Hnow.
  unfold createFile. rewrite bind_assoc, bind_modify.
  change (open_stream [] false) with (at_ [] 0 []).
  destruct (createEmptyFile_con m [] 0 Hnow) as (p' & j' & E & Hp'). rewrite (bind_Ret _ _ _ _ _ E).
  assert (stamp_ok (mkStamp (fc_now m))) as Ht by (split; [done|simpl; lia]).
  pose proof (empty_disk_ok (mkStamp (fc_now m)) closed Ht) as Hd.
  assert (stamp_ok (next_stamp (empty_disk (mkStamp (fc_now m)) closed) (created m))) as Hns by (by apply next_stamp_ok).
  erewrite bind_Ret by (by apply updateTimeStamp_con).
  eexists. split; [reflexivity|]. exists (upd_initialized true (upd_stamp (next_stamp (empty_disk (mkStamp (fc_now m)) closed) (created m)) (created m))).
  do 3 eexists. split; [reflexivity|]. split; [lia|]. split; [|split; [done|]].
  - apply repr_empty; done.
  - split; try done. apply ts_gtb_irrefl.
Qed.

(** [initContainer] on a file that was left closed. *)
Definition loaded (d : disk) (m : FileContainer) : FileContainer :=
  let h := d_header d in
  upd_initialized true (upd_size (h_size h)
    (upd_removed (FIterator true (h_removed h).1 (h_removed h).2 (fi_current (fc_removed m)))
      (upd_limits (FIterator true (h_limits h).1 (h_limits h).2 (fi_current (fc_limits m)))
        (upd_stamp (TStamp true (ts_epoch (h_stamp h)) (ts_counter (h_stamp h))) m)))).

Lemma load_con m d p j (k : FC unit) :
  disk_ok d → 0 ≤ p →
  (readStamp;; loadLimits;; loadRemoved;; readSize;; k) (con m d p j) =
  k (con (upd_initialized (fc_initialized m) (loaded d m)) d (fc_s_listPosition + 33) j).
Proof.
  intros Hd Hp. erewrite bind_Ret by by apply readStamp_con.
  unfold loadLimits. rewrite bind_assoc, bind_field. rewrite bind_assoc.
  erewrite bind_Ret by by apply readInitialPosition_con. rewrite bind_modify.
  match goal with |- context [upd_limits ?l (con ?m ?x ?y ?z)] => change (upd_limits l (con m x y z)) with (con (upd_limits l m) x y z) end.
  unfold loadRemoved. rewrite bind_assoc, bind_field. rewrite bind_assoc.
  erewrite bind_Ret by by apply readInitialPosition_removed. rewrite bind_modify.
  match goal with |- context [upd_removed ?l (con ?m ?x ?y ?z)] => change (upd_removed l (con m x y z)) with (con (upd_removed l m) x y z) end.
  erewrite bind_Ret by by apply readSize_con. reflexivity.
Qed.

Lemma initContainer_closed m d p j :
  disk_ok d → 0 ≤ p → h_status (d_header d) = closed →
  initContainer (con m d p j) = (con (loaded d m) d (fc_s_listPosition + 33) j, Ret tt).
Proof.
  intros Hd Hp Hst. unfold initContainer. rewrite bind_field. cbn [con upd_stream fc_stream bad f_bad at_]. recon.
  rewrite load_con by done. erewrite bind_Ret by by apply readFileStatus_con. rewrite Hst.
  rewrite bool_decide_false by (intros []; done). rewrite bind_mret. reflexivity.
Qed.

Lemma loaded_mem_ok d m : disk_ok d → off_ok (fc_now m) → mem_ok (loaded d m) d.
Proof.
  intros Hd Hn. split; try done; [apply (ok_stamp _ (ok_header _ Hd))|]. simpl.
  unfold ts_gtb. simpl. apply bool_decide_false. lia.
Qed.
