(* ===== verification/ContainerCompact.v ===== *)
(** * Compaction

    [compact_data] rewrites the file with the live records only.  The list
    stays the same, the file shrinks to what the list needs, and a copy of
    the old file is kept. *)

From S2P Require Import Prelude Digits Stream FileContainer ContainerFields ContainerDisk ContainerCells ContainerList ContainerAdd.
From S2P Require Import ContainerInsert ContainerRead ContainerRemove ContainerCreate.

(** ** Room: the records of a list fit in the file they come from *)

Definition total {A} (f : A → Z) (l : list A) : Z := foldr (λ x n, f x + n) 0 l.

Lemma total_nonneg {A} (f : A → Z) l : (∀ x, 0 ≤ f x) → 0 ≤ total f l.
Proof. intros Hf. induction l as [|x l IH]; simpl; [lia|]. specialize (Hf x). lia. Qed.

Lemma total_submseteq {A} (f : A → Z) l k : (∀ x, 0 ≤ f x) → l ⊆+ k → total f l ≤ total f k.
Proof.
  intros Hf. induction 1 as [|x l k Hs IH|x y l|x l k Hs IH|l k k' _ IH1 _ IH2]; simpl; try lia.
  specialize (Hf x). lia.
Qed.

(** Bytes taken on disk by the elements of a list. *)
Definition list_bytes (l : list bytes) : Z := total (λ x, calculateDataSize (Z.of_nat (length x))) l.

Definition len_at (off : Z) (cs : list cell) (p : Z) : Z := from_option cell_len 0 (find_cell off cs p).

Lemma len_at_nonneg off cs p : 0 ≤ len_at off cs p.
Proof. unfold len_at. destruct (find_cell off cs p) as [c|]; simpl; [pose proof (cell_len_pos c)|]; lia. Qed.

Lemma offsets_ge off cs p : p ∈ offsets off cs → off ≤ p.
Proof.
  revert off. induction cs as [|c cs IH]; intros off; simpl; [by rewrite elem_of_nil|].
  rewrite elem_of_cons. intros [->|Hin]; [lia|]. apply IH in Hin. pose proof (cell_len_pos c). lia.
Qed.

Lemma total_ext {A} (f g : A → Z) l : (∀ x, x ∈ l → f x = g x) → total f l = total g l.
Proof.
  induction l as [|x l IH]; intros H; simpl; [done|]. rewrite H by (by apply elem_of_cons; left).
  rewrite IH; [done|]. intros y Hy. apply H. by apply elem_of_cons; right.
Qed.

Lemma total_offsets off cs : total (len_at off cs) (offsets off cs) = cells_len cs.
Proof.
  revert off. induction cs as [|c cs IH]; intros off; simpl; [done|]. unfold len_at at 1. simpl.
  rewrite bool_decide_true by done. simpl. f_equal. rewrite <- (IH (off + cell_len c)). apply total_ext.
  intros p Hp. apply offsets_ge in Hp. pose proof (cell_len_pos c). unfold len_at. simpl.
  by rewrite bool_decide_false by lia.
Qed.

Lemma chain_bytes d prev l e : chain d prev l e → NoDup l.*1 → list_bytes l.*2 ≤ cells_len (d_cells d).
Proof.
  intros Hch Hnd.
  assert (list_bytes l.*2 = total (len_at fc_s_headerSize (d_cells d)) l.*1) as ->.
  { clear Hnd. revert prev Hch. induction l as [|[p x] l IH]; intros prev; [done|].
    intros [(c & Hc & _ & _ & _ & Hx) Hch]. unfold list_bytes in *. rewrite !fmap_cons. cbn [total foldr].
    fold (total (λ x : bytes, calculateDataSize (Z.of_nat (length x))) l.*2).
    fold (total (len_at fc_s_headerSize (d_cells d)) l.*1). rewrite (IH _ Hch). f_equal.
    unfold len_at. unfold cell_at in Hc. simpl. rewrite Hc. simpl. unfold cell_len. by rewrite Hx. }
  rewrite <- (total_offsets fc_s_headerSize (d_cells d)). apply total_submseteq; [apply len_at_nonneg|].
  apply NoDup_submseteq; [done|]. intros p Hp. destruct (chain_cells _ _ _ _ _ Hch Hp) as [c Hf]. by eapply find_cell_offsets.
Qed.

(** ** The steps of a compaction *)

Lemma backupFile_con m d p j :
  backupFile None (con m d p j) = (con (upd_bak (Some (disk_bytes d)) m) d 0 j, Ret tt).
Proof. unfold backupFile, con. go. reflexivity. Qed.

Lemma erase_all_con m d p j :
  disk_ok d → 0 ≤ p → off_ok (fc_now m) →
  ∃ p' j', eraseFile 0 (con m d p j) = (con (created m) (empty_disk (mkStamp (fc_now m)) ft_end) p' j', Ret tt) ∧ 0 ≤ p'.
Proof.
  intros Hd Hp Hn. unfold eraseFile. erewrite bind_Ret by (apply writeIteratorBackup_con; [done|done|lia|apply triple_ok_0]).
  set (d1 := with_status _ _). unfold truncateFile, con. go. change (good (at_ _ _ _)) with true. cbn iota.
  erewrite bind_with; [|apply (ftruncate_at _ _ [] (disk_bytes d1)); done]. cbn iota. rewrite bool_decide_true by done.
  edestruct (λ jj, createEmptyFile_con m jj 0 Hn) as (p' & j' & E & Hp'). erewrite bind_Ret by exact E.
  rewrite writeFileStatus_con; [by do 2 eexists| |done]. apply empty_disk_ok. split; [done|simpl; lia].
Qed.

Section end_body.
Context (m : FileContainer) (d : disk) (p : Z) (j : list bytes) (l : list entry) (Hp : 0 ≤ p).
Context (Hb : body d l) (Hcs : l = [] → d_cells d = []) (data : bytes) (it : FileIterator).
Context (Hlim : (fi_prev (fc_limits m), fi_next (fc_limits m)) = h_limits (d_header d)).
Context (Hdata : 0 < Z.of_nat (length data)).
Let e := disk_end d.
Let nx := e + calculateDataSize (Z.of_nat (length data)).
Context (Hroom : nx ≤ off_max).

Lemma addDataAtEnd_body :
  ∃ d' p' j' it' lims, addDataAtEnd data it e (con m d p j) = (con (upd_limits lims m) d' p' j', Ret it') ∧
    0 ≤ p' ∧ body d' (l ++ [(e, data)]) ∧ fi_next it' = nx ∧ disk_end d' = nx ∧
    (fi_prev lims, fi_next lims) = h_limits (d_header d') ∧ h_stamp (d_header d') = h_stamp (d_header d).
Proof.
  pose proof Hb as [Bo Bt Bl Bc Bn Br]. pose proof (body_end_ok _ _ Hb) as He. fold e in He.
  assert (off_ok nx) as Hnx by (unfold off_ok, nx in *; rewrite calculateDataSize_eq in *; lia).
  assert (0 < Z.of_nat (length data) < 2 ^ 64) as Hdl by (unfold off_ok, off_max, nx in *; rewrite calculateDataSize_eq in *; lia).
  pose proof (ok_limits _ (ok_header _ Bo)) as Hlo. rewrite <- Hlim in Hlo.
  assert (fi_prev (fc_limits m) = (h_limits (d_header d)).1) as Hl1 by by rewrite <- Hlim.
  assert (fi_next (fc_limits m) = (h_limits (d_header d)).2) as Hl2 by by rewrite <- Hlim.
  rewrite Bl in Hl1, Hl2. cbn [fst snd] in Hl1, Hl2.
  assert (∀ b pv jj, d_tail b = [] → disk_ok b → disk_end b = e → chain b 0 l e → pv = last_pos 0 l → off_ok pv →
    h_stamp (d_header b) = h_stamp (d_header d) →
    addDataAtEnd data it e (con m d p j) =
    (con (upd_limits (set_next e (fc_limits m)) m)
       (end_final b (fi_prev (fc_limits m), fi_next (fc_limits m)) e (end_it data it d pv) (end_lit m data d true) data) nx jj,
     Ret (end_it data it d pv)) →
    ∃ d' p' j' it' lims, addDataAtEnd data it e (con m d p j) = (con (upd_limits lims m) d' p' j', Ret it') ∧
      0 ≤ p' ∧ body d' (l ++ [(e, data)]) ∧ fi_next it' = nx ∧ disk_end d' = nx ∧
      (fi_prev lims, fi_next lims) = h_limits (d_header d') ∧ h_stamp (d_header d') = h_stamp (d_header d)) as Hfin.
  { intros b pv jj Hbt Hbo Hbe Hbc Hpv Hpo Hbs E. rewrite E. do 5 eexists. split; [reflexivity|].
    split; [apply Hnx|]. split_and!; [|done| |done|done].
    - apply end_final_body; try done.
      + apply end_final_ok; try done. split; [apply Hlo|done].
      + cbn [fst]. rewrite Hl1. destruct (decide (l = [])) as [El|El]; [|by apply head_pos_ne].
        rewrite El. cbn [head_pos]. unfold e, disk_end. rewrite (Hcs El), Bt. simpl. unfold fc_s_headerSize. lia.
    - unfold nx. rewrite <- Hbe.
      by apply (add_cell_end (new_cell (end_it data it d pv) (end_lit m data d true) data) (with_status ae_writing (end_limits b (fi_prev (fc_limits m), fi_next (fc_limits m)) e))). }
  destruct (decide (l = [])) as [El|El].
  - eapply (Hfin d 0); try done; [by rewrite El|]. apply addDataAtEnd_nil; try done.
    rewrite Hl2, El. cbn [last_pos]. unfold disk_end. rewrite (Hcs El), Bt. simpl. unfold fc_s_headerSize. lia.
  - destruct (snoc_cases l El) as (l' & q & x & E). rewrite E in Bc, Hl2. rewrite last_pos_snoc in Hl2.
    destruct (chain_mid _ _ _ _ _ _ _ Bc) as (c & Hc & Hc1 & Hc2 & _).
    eapply (Hfin (end_base d q c) q); try done.
    + by apply end_base_ok with (data := data).
    + by apply upd_at_end.
    + rewrite E. apply (chain_set_next _ _ _ _ _ e); [done| |by eapply chain_ext, Bc].
      rewrite E, fmap_app, NoDup_app in Bn. destruct Bn as (_ & Bn & _). intros Hi. apply (Bn q Hi), elem_of_cons. by left.
    + by rewrite E, last_pos_snoc.
    + by eapply body_cell_off.
    + by apply addDataAtEnd_cons.
Qed.
End end_body.

(** Copying the strings back, one append after the other. *)
Lemma compact_loop_con m : ∀ copy d p j l it,
  0 ≤ p → body d l → (l = [] → d_cells d = []) → Forall (λ x, x ≠ []) copy →
  (fi_prev (fc_limits m), fi_next (fc_limits m)) = h_limits (d_header d) →
  disk_end d + list_bytes copy ≤ off_max →
  ∃ d' p' j' lims l', compact_loop copy it (disk_end d) (con m d p j) = (con (upd_limits lims m) d' p' j', Ret tt) ∧
    0 ≤ p' ∧ body d' (l ++ l') ∧ l'.*2 = copy ∧ (l ++ l' = [] → d_cells d' = []) ∧
    disk_end d' = disk_end d + list_bytes copy ∧
    (fi_prev lims, fi_next lims) = h_limits (d_header d') ∧ h_stamp (d_header d') = h_stamp (d_header d).
Proof.
  intros copy. revert m. induction copy as [|x copy IH]; intros m d p j l it Hp Hb Hcs Hne Hlim Hroom.
  - exists d, p, j, (fc_limits m), []. rewrite app_nil_r. split_and!; first [done|by destruct m|simpl; lia].
  - apply Forall_cons in Hne as [Hx Hne]. cbn [compact_loop].
    assert (0 < Z.of_nat (length x)) as Hlx by (destruct x; [done|simpl; lia]).
    unfold list_bytes in *. cbn [total foldr] in *. fold (total (λ x, calculateDataSize (Z.of_nat (length x))) copy) in *.
    assert (0 ≤ total (λ x : bytes, calculateDataSize (Z.of_nat (length x))) copy) as Hnn
      by (apply total_nonneg; intros; rewrite calculateDataSize_eq; lia).
    destruct (addDataAtEnd_body m d p j l Hp Hb Hcs x it Hlim Hlx ltac:(lia))
      as (d1 & p1 & j1 & it1 & lims1 & E & Hp1 & Hb1 & Hnx & Hend & Hlim1 & Hs1).
    rewrite (bind_Ret _ _ _ _ _ E), Hnx, <- Hend.
    destruct (IH (upd_limits lims1 m) d1 p1 j1 (l ++ [(disk_end d, x)]) it1)
      as (d2 & p2 & j2 & lims2 & l2 & E2 & Hp2 & Hb2 & Hl2 & Hc2 & Hend2 & Hlim2 & Hs2); try done; [by destruct l|lia|].
    exists d2, p2, j2, lims2, ((disk_end d, x) :: l2). rewrite <- app_assoc in Hb2, Hc2.
    split_and!; try done; [|lia|by rewrite Hs2].
    rewrite fmap_cons. simpl. by rewrite Hl2.
Qed.

Lemma chain_nonempty d prev l e : disk_ok d → chain d prev l e → Forall (λ x, x ≠ []) l.*2.
Proof.
  intros Hd. revert prev. induction l as [|[p x] l IH]; intros prev; simpl; [constructor|].
  intros [(c & Hc & _ & _ & _ & Hx) Hch]. constructor; [|by eapply IH].
  pose proof (ok_data _ (cell_at_ok _ Hd _ _ Hc)) as Hlen. rewrite Hx in Hlen. destruct x; [simpl in Hlen; lia|done].
Qed.

Lemma compact_rep c l :
  rep c l →
  ∃ c' l', compact_data c = (c', Ret tt) ∧ rep c' l' ∧ l'.*2 = l.*2 ∧
    end_of c' = fc_s_headerSize + list_bytes l.*2 ∧ fc_bak c' = f_data <$> fc_stream c.
Proof.
  intros (m & d & p & j & -> & Hp & Hr & Hst & Hm). pose proof (rep_ok _ _ Hr) as Hd.
  unfold compact_data. rewrite bind_field. cbn [con upd_stream fc_initialized]. recon. rewrite (mem_init _ _ Hm), bind_mret.
  destruct (fillVector_con m d p j l Hr Hst Hm) as (p1 & E1 & Hp1). rewrite (bind_Ret _ _ _ _ _ E1).
  rewrite (bind_Ret _ _ _ _ _ (backupFile_con _ _ _ _)). set (mb := upd_bak (Some (disk_bytes d)) m).
  destruct (erase_all_con mb d 0 j Hd ltac:(lia) (mem_now _ _ Hm)) as (p2 & j2 & E2 & Hp2). rewrite (bind_Ret _ _ _ _ _ E2).
  change (fc_now mb) with (fc_now m). set (t := mkStamp (fc_now m)).
  assert (stamp_ok t) as Ht by (split; [apply Hm|simpl; lia]).
  erewrite bind_Ret by (apply writeFileStatus_con; [by apply empty_disk_ok|done]).
  change (with_status opened (empty_disk t ft_end)) with (empty_disk t opened).
  pose proof (empty_disk_ok t opened Ht) as Hd3. rewrite (bind_Ret _ _ _ _ _ (getEnd_con _ _ _ _ Hd3)).
  pose proof (chain_bytes _ _ _ _ (rep_chain _ _ Hr) (rep_nodup _ _ Hr)) as Hbytes. pose proof (rep_room _ _ Hr) as Hroom.
  assert (body (empty_disk t opened) []) as Hb3 by (apply repr_body, repr_empty; done).
  edestruct (λ jj, compact_loop_con (created mb) l.*2 (empty_disk t opened) (disk_end (empty_disk t opened)) jj [] nullIterator)
    as (d4 & p4 & j4 & lims & l' & E4 & Hp4 & Hb4 & Hl4 & Hc4 & Hend4 & Hlim4 & Hs4);
    [apply disk_end_ge0|exact Hb3|reflexivity|eapply chain_nonempty; [exact Hd|apply Hr]|reflexivity| |].
  { unfold disk_end in *. simpl. unfold fc_s_headerSize in *. lia. }
  rewrite (bind_Ret _ _ _ _ _ E4). cbn [app] in Hb4, Hc4.
  erewrite bind_Ret by (apply createEmptyBackup_con; [apply Hb4|done]).
  assert (length l.*2 = length l') as El by (rewrite <- Hl4; apply length_fmap). rewrite El.
  set (n := Z.of_nat (length l')). assert (repr (add_final n d4) l') as Hr' by (by apply body_final).
  pose proof (ok_size _ (ok_header _ (rep_ok _ _ Hr'))) as Hn. simpl in Hn. pose proof (body_ok _ _ Hb4).
  erewrite bind_Ret by (apply writeAndSetSize_con; auto with wms).
  rewrite writeFileStatus_con by auto with wms. eexists _, l'. split; [reflexivity|]. split_and!; [|done| |done].
  - do 4 eexists. split; [reflexivity|]. split; [done|]. split; [exact Hr'|]. split; [done|].
    assert (h_limits (d_header (add_final n d4)) = (fi_prev lims, fi_next lims)) as Hl5 by (symmetry; exact Hlim4).
    split; [apply (mem_init _ _ Hm)|reflexivity| | |apply (mem_now _ _ Hm)|exact Ht|].
    + change (fi_prev lims = (h_limits (d_header (add_final n d4))).1). by rewrite Hl5.
    + change (fi_next lims = (h_limits (d_header (add_final n d4))).2). by rewrite Hl5.
    + change (ts_gtb (h_stamp (d_header d4)) t = false). rewrite Hs4. apply ts_gtb_irrefl.
  - rewrite end_of_con by (apply Hr'). change (disk_end _) with (disk_end d4). rewrite Hend4. done.
Qed.

(** C6.  [compact_data] returns, keeps the strings and their order, leaves
    a file that holds nothing else, and keeps a copy of the old file. *)
Theorem compact_keeps_list c l :
  rep c l →
  ∃ c' l', compact_data c = (c', Ret tt) ∧ rep c' l' ∧ l'.*2 = l.*2 ∧
    end_of c' = fc_s_headerSize + list_bytes l.*2 ∧ fc_bak c' = f_data <$> fc_stream c.
Proof. apply compact_rep. Qed.
