(* ===== verification/ContainerRecovery.v ===== *)
(** * Recovery

    What [initContainer] makes of a file whose last update was cut short.
    [checkConsistency] is shown to keep the list, to correct the element
    count and to cut what follows the last record of the list.  Then every
    file that an append can leave behind is opened again. *)

From S2P Require Import Prelude Digits Stream FileContainer ContainerFields ContainerDisk ContainerCells ContainerList ContainerAdd.
From S2P Require Import ContainerInsert ContainerRead ContainerRemove ContainerCreate ContainerCompact.

(** ** The consistency check *)

(** The end of the last byte of the records of a list. *)
Fixpoint max_end (mx : Z) (l : list entry) : Z :=
  match l with
  | [] => mx
  | (p, x) :: l' => max_end (Z.max mx (p + calculateDataSize (Z.of_nat (length x)))) l'
  end.

Lemma max_end_ge mx l : mx ≤ max_end mx l.
Proof. revert mx. induction l as [|[p x] l IH]; intros mx; simpl; [lia|]. specialize (IH (Z.max mx (p + calculateDataSize (Z.of_nat (length x))))). lia. Qed.

Lemma max_end_in mx l p x : (p, x) ∈ l → p + calculateDataSize (Z.of_nat (length x)) ≤ max_end mx l.
Proof.
  revert mx. induction l as [|[q y] l IH]; intros mx; [by rewrite elem_of_nil|].
  rewrite elem_of_cons. intros [E|Hin]; simpl; [|by apply IH]. simplify_eq.
  pose proof (max_end_ge (Z.max mx (q + calculateDataSize (Z.of_nat (length y)))) l). lia.
Qed.

(** Either nothing was taken or some record ends there. *)
Lemma max_end_some mx l : max_end mx l = mx ∨ ∃ p x, (p, x) ∈ l ∧ max_end mx l = p + calculateDataSize (Z.of_nat (length x)).
Proof.
  revert mx. induction l as [|[p x] l IH]; intros mx; simpl; [by left|].
  destruct (IH (Z.max mx (p + calculateDataSize (Z.of_nat (length x))))) as [->|(q & y & Hin & ->)].
  - destruct (Z.max_spec mx (p + calculateDataSize (Z.of_nat (length x)))) as [[_ ->]|[_ ->]]; [right|by left].
    exists p, x. split; [by apply elem_of_cons; left|done].
  - right. exists q, y. split; [by apply elem_of_cons; right|done].
Qed.

Section walk.
Context (m : FileContainer) (d : disk) (j : list bytes) (a : Z) (Hd : disk_ok d).
Let e := disk_end d.

(** The walk reaches the last element with the right count. *)
Lemma cc_loop_con l2 : ∀ p x fuel mx k prev,
  chain d prev ((p, x) :: l2) e → NoDup ((p, x) :: l2).*1 → fi_next (fc_limits m) = last_pos p l2 → (length l2 < fuel)%nat →
  ∃ c cm, cell_at d (last_pos p l2) = Some c ∧ c_next c = e ∧ cm ≤ max_end mx ((p, x) :: l2) ∧
    cc_loop fuel a e mx k (FIterator true prev (head_pos e l2) p) (con m d (p + 34) j) =
    cc_last a cm (max_end mx ((p, x) :: l2)) e (k + Z.of_nat (length ((p, x) :: l2)))
      (FIterator true (c_prev c) e (last_pos p l2)) (con m d (last_pos p l2 + 60) j).
Proof.
  induction l2 as [|[q y] l2 IH]; intros p x fuel mx k prev [(c & Hc & Hc1 & Hc2 & Hc3 & Hc4) Hch] Hnd Hlast Hf;
    (destruct fuel as [|f]; [lia|]); cbn [cc_loop].
  all: unfold con at 1; rewrite bind_ask; change (good (at_ _ _ _)) with true; cbn iota; recon.
  all: erewrite bind_Ret by (unfold attempt; apply catch_Ret; erewrite bind_Ret by (apply (readSizeAndState_cell d Hd m j p c Hc)); reflexivity).
  all: rewrite bind_field; cbn [con upd_stream fc_limits fi_current]; recon; rewrite Hlast; cbn [last_pos].
  all: set (cur := p + calculateDataSize (Z.of_nat (length (c_data c)))).
  all: assert ((if bool_decide (mx < cur) then cur else mx) = Z.max mx cur) as -> by (case_bool_decide; lia).
  - rewrite bool_decide_true by done. exists c, cur. cbn [max_end]. rewrite <- Hc4. fold cur.
    split_and!; [done|done|lia|]. simpl head_pos. rewrite Hc1. by replace (k + 1) with (k + Z.of_nat 1) by lia.
  - assert (p ≠ last_pos q l2) as Hne.
    { apply NoDup_cons in Hnd as [Hnin _]. intros E. apply Hnin. rewrite E. apply (last_pos_in 0 ((q, y) :: l2)). done. }
    rewrite bool_decide_false by done. cbn [fi_next head_pos].
    pose proof Hch as [(c' & Hc' & Hc1' & Hc2' & _) _]. pose proof (cell_at_lt _ _ _ Hc') as Hlt.
    rewrite bool_decide_false by (unfold e; lia).
    erewrite bind_Ret by (apply (readIterator_cell d Hd m j q c' Hc')). rewrite Hc1', Hc2'.
    apply NoDup_cons in Hnd as [_ Hnd]. simpl in Hf.
    destruct (IH q y f (Z.max mx cur) (k + 1) p Hch Hnd Hlast ltac:(lia)) as (c0 & cm & H1 & H2 & H3 & ->).
    exists c0, cm. cbn [max_end] in *. rewrite <- Hc4. fold cur. split_and!; [done|done|done|].
    f_equal. cbn [length]. lia.
Qed.
End walk.

Lemma chain_elem d prev l e p x :
  chain d prev l e → (p, x) ∈ l → ∃ c, cell_at d p = Some c ∧ c_data c = x.
Proof.
  intros Hch Hin. apply list_elem_of_split in Hin as (l1 & l2 & ->).
  destruct (chain_mid _ _ _ _ _ _ _ Hch) as (c & Hc & _ & _ & _ & Hx). by exists c.
Qed.

(** The file up to the last byte of the records of the list. *)
Lemma cut_split d l :
  chain d 0 l (disk_end d) → l ≠ [] →
  ∃ cs1 cs2, d_cells d = cs1 ++ cs2 ∧ max_end 0 l = fc_s_headerSize + cells_len cs1 ∧
    ∀ p, p ∈ l.*1 → cell_at (Disk (d_header d) cs1 []) p = cell_at d p.
Proof.
  intros Hch Hne. destruct (max_end_some 0 l) as [Hz|(p & x & Hin & Hmax)].
  - destruct l as [|[p x] l']; [done|]. pose proof (max_end_in 0 ((p, x) :: l') p x ltac:(by apply elem_of_cons; left)) as Hge.
    destruct Hch as [(c & Hc & _) _]. pose proof (cell_at_lt _ _ _ Hc). rewrite calculateDataSize_eq in Hge.
    unfold fc_s_headerSize in *. lia.
  - destruct (chain_elem _ _ _ _ _ _ Hch Hin) as (c & Hc & Hx).
    destruct (find_cell_split _ _ _ _ id Hc) as (cs1 & cs2 & E & Hp & _).
    assert (max_end 0 l = fc_s_headerSize + cells_len (cs1 ++ [c])) as Hcut.
    { rewrite Hmax, cells_len_app, Hp. simpl. unfold cell_len. rewrite Hx. lia. }
    exists (cs1 ++ [c]), cs2. split_and!; [by rewrite <- app_assoc|done|].
    intros q Hq. apply list_elem_of_fmap in Hq as ([q' y] & -> & Hq). destruct (chain_elem _ _ _ _ _ _ Hch Hq) as (c' & Hc' & Hy).
    pose proof (max_end_in 0 l q' y Hq) as Hge. rewrite calculateDataSize_eq in Hge.
    unfold cell_at. simpl. rewrite E. replace (cs1 ++ c :: cs2) with ((cs1 ++ [c]) ++ cs2) by (by rewrite <- app_assoc).
    symmetry. apply find_cell_app. lia.
Qed.

(** The element count the check accepts to correct, with its tolerance. *)
Definition count_ok (a size detected : Z) : Prop :=
  detected = size ∨ a = 1 ∧ detected = size + 1 ∨ a = -1 ∧ detected = size - 1.

Section last.
Context (m : FileContainer) (d : disk) (p : Z) (j : list bytes) (a : Z) (l : list entry).
Context (Hp : 0 ≤ p) (Hb : body d l) (Hne : l ≠ []) (Hsz : fc_size m = h_size (d_header d)).
Context (Hcount : count_ok a (fc_size m) (Z.of_nat (length l))).
Let n := Z.of_nat (length l).
Let e := disk_end d.

Local Lemma n_ok : size_ok n.
Proof.
  pose proof (chain_length _ _ _ _ (body_chain _ _ Hb) (body_nodup _ _ Hb)). pose proof (body_room _ _ Hb) as Hr.
  unfold disk_end, off_max in Hr. unfold size_ok, n, fc_s_headerSize in *. lia.
Qed.

(** Correcting the count. *)
Lemma cc_size_con (k : unit → FC unit) :
  ∃ m1 d1 j1, (((if bool_decide (n ≠ fc_size m) then
     let off := int32 (size_t (n - fc_size m)) in
     if bool_decide ((0 < a ∧ 0 < off ∧ off ≤ a) ∨ (a < 0 ∧ off < 0 ∧ a ≤ off) ∨ a = 0)
     then writeAndSetSize n else mret tt
   else mret tt) ≫= k) (con m d p j) = k tt (con m1 d1 p j1)) ∧
   m1 = upd_size n m ∧ d1 = with_size n d.
Proof.
  pose proof n_ok as Hn. destruct (decide (n = fc_size m)) as [E|E].
  - rewrite bool_decide_false by (intros H; by apply H). exists m, d, j. split; [done|]. rewrite E. split; [by destruct m|].
    rewrite Hsz. destruct d as [[] ? ?]. done.
  - rewrite bool_decide_true by done. cbv zeta.
    rewrite bool_decide_true.
    + do 3 eexists. split; [erewrite bind_Ret by (apply writeAndSetSize_con; [apply (body_ok _ _ Hb)|done|done]); reflexivity|done].
    + destruct Hcount as [?|[[Ea En]|[Ea En]]]; [done|left|right; left]; fold n in En; rewrite Ea, En.
      * replace (fc_size m + 1 - fc_size m) with 1 by lia. vm_compute. split_and!; [done|done|by intros].
      * replace (fc_size m - 1 - fc_size m) with (-1) by lia. vm_compute. split_and!; [done|done|by intros].
Qed.

Lemma cc_last_con c cm :
  cell_at d (last_pos 0 l) = Some c → c_next c = e → cm ≤ max_end 0 l →
  ∃ d' p' j', cc_last a cm (max_end 0 l) e n (FIterator true (c_prev c) e (last_pos 0 l)) (con m d p j) =
    (con (upd_size n m) d' p' j', Ret tt) ∧ 0 ≤ p' ∧ body d' l ∧ h_size (d_header d') = n ∧
    h_stamp (d_header d') = h_stamp (d_header d) ∧ h_limits (d_header d') = h_limits (d_header d).
Proof.
  intros Hc Hcn Hcm. pose proof n_ok as Hn. pose proof Hb as [Bo Bt Bl Bc Bn Br].
  unfold cc_last. rewrite bind_field. change (fc_size (con m d p j)) with (fc_size m).
  edestruct cc_size_con as (m1 & d1 & j1 & -> & -> & ->).
  assert (body (with_size n d) l) as Hb1 by (apply body_header; [done|by apply with_size_ok|done]).
  pose proof (body_ok _ _ Hb1) as Hd1.
  destruct (decide (max_end 0 l < e)) as [Hlt|Hge].
  2: { rewrite bool_decide_false by lia. do 3 eexists. split; [reflexivity|]. split; [exact Hp|]. split; [exact Hb1|]. by split_and!. }
  rewrite bool_decide_true by lia.
  destruct (cut_split (with_size n d) l (body_chain _ _ Hb1) Hne) as (cs1 & cs2 & Ecs & Hcut & Hext).
  rewrite (bind_Ret _ _ _ _ _ (truncateFile_con _ _ p j1 cs1 cs2 _ Hd1 Ecs Hcut)).
  set (d2 := with_status ft_end (Disk (d_header (with_size n d)) cs1 [])).
  assert (disk_ok d2) as Hd2.
  { apply with_status_ok. destruct Hd1 as [Hh Hcs]. rewrite Ecs, Forall_app in Hcs. split; [exact Hh|apply Hcs]. }
  assert (disk_end d2 = max_end 0 l) as Hend by (rewrite Hcut; unfold disk_end, d2; simpl; lia).
  rewrite (bind_Ret _ _ _ _ _ (getEnd_con _ _ _ _ Hd2)). cbn [fi_next fi_current set_next fi_prev].
  rewrite bool_decide_true by lia.
  assert (cell_at d2 (last_pos 0 l) = Some c) as Hc2.
  { rewrite <- Hc. apply (Hext (last_pos 0 l)). by apply last_pos_in. }
  pose proof (ok_links _ (cell_at_ok _ Hd2 _ _ Hc2)) as [L1 L2]. pose proof (disk_end_pos d2).
  assert (off_ok (disk_end d2)) as Heo by (unfold off_ok, fc_s_headerSize, e in *; lia).
  rewrite (writeIterator_cell d2 Hd2 _ _ _ c Hc2) by (by split). cbn [fi_prev fi_next].
  do 3 eexists. split; [reflexivity|]. pose proof (cell_at_lt _ _ _ Hc2). unfold fc_s_headerSize in *. split; [lia|].
  split; [|by split_and!]. split; try done.
  - apply upd_at_ok; [done|]. intros; apply set_links_ok; [by split|done].
  - rewrite upd_at_end by done. apply (chain_set_last _ _ _ (disk_end d)); try done. by apply (chain_ext d).
  - rewrite upd_at_end by done. apply Heo.
Qed.
End last.

Section check.
Context (m : FileContainer) (d : disk) (p : Z) (j : list bytes) (a : Z) (l : list entry).
Context (Hb : body d l) (Hne : l ≠ []) (Hsz : fc_size m = h_size (d_header d)).
Context (Hcount : count_ok a (fc_size m) (Z.of_nat (length l))).
Let n := Z.of_nat (length l).

Lemma checkConsistency_con :
  (fi_prev (fc_limits m), fi_next (fc_limits m)) = h_limits (d_header d) →
  ∃ d' p' j', checkConsistency a (con m d p j) = (con (upd_size n m) d' p' j', Ret tt) ∧ 0 ≤ p' ∧ body d' l ∧
    h_size (d_header d') = n ∧ h_stamp (d_header d') = h_stamp (d_header d) ∧ h_limits (d_header d') = h_limits (d_header d).
Proof.
  intros Hlim. pose proof Hb as [Bo Bt Bl Bc Bn Br]. rewrite Bl in Hlim. injection Hlim as Hl1 Hl2.
  assert (∃ q x l2, l = (q, x) :: l2) as (q & x & l2 & El) by (destruct l as [|[]]; [done|eauto]).
  pose proof Bc as Bc'. rewrite El in Bc'. pose proof Bc' as [(c & Hc & Hc1 & Hc2 & _) _].
  unfold checkConsistency. rewrite (bind_Ret _ _ _ _ _ (getEnd_con m d p j Bo)).
  rewrite (bind_Ret _ _ _ _ _ (readSize_con d Bo m _ (disk_end_ge0 d) j)). rewrite <- Hsz.
  replace (upd_size (fc_size m) m) with m by (by destruct m).
  rewrite bind_field. change (fc_limits (con m d (disk_end d) j)) with (fc_limits m). rewrite Hl1, El. cbn [head_pos].
  rewrite (bind_Ret _ _ _ _ _ (readIterator_cell d Bo m j q c Hc (disk_end d) nullIterator)).
  rewrite Hc1, Hc2. pose proof (chain_length _ _ _ _ Bc Bn) as Hlen.
  edestruct (cc_loop_con m d j a Bo l2 q x (S (Z.to_nat (disk_end d))) 0 0 0 Bc') as (c0 & cm & H1 & H2 & H3 & ->).
  - by rewrite <- El.
  - rewrite Hl2, El. done.
  - rewrite El in Hlen. simpl in Hlen. unfold disk_end, fc_s_headerSize in *. lia.
  - rewrite <- El. rewrite Z.add_0_l.
    assert (last_pos q l2 = last_pos 0 l) as E by by rewrite El. rewrite E in *. rewrite <- El in H3.
    pose proof (cell_at_lt _ _ _ H1). unfold fc_s_headerSize in *.
    apply (cc_last_con m d (last_pos 0 l + 60) j a l ltac:(lia) Hb Hne Hsz Hcount c0 cm H1 H2 H3).
Qed.
End check.

(** ** The parts of [recover_data] *)

Lemma upd_same d q c : cell_at d q = Some c → upd_at q (set_links (c_prev c) (c_next c)) d = d.
Proof.
  intros Hc. destruct (find_cell_split _ _ _ _ (set_links (c_prev c) (c_next c)) Hc) as (cs1 & cs2 & E & _ & Eu).
  unfold upd_at. rewrite Eu. destruct d as [h cs tl]. simpl in *. rewrite E. by destruct c.
Qed.

Lemma restoreIterator_con i m d p j c :
  disk_ok d → 0 ≤ p → (i < 3)%nat →
  let b := get_backup i (d_header d) in
  cell_at d b.1.1 = Some c →
  ∃ j', restoreIterator i (con m d p j) = (con m (upd_at b.1.1 (set_links b.1.2 b.2) d) (b.1.1 + 34) j', Ret tt).
Proof.
  intros Hd Hp Hi b Hc. destruct (get_backup_ok d Hd i) as (B1 & B2 & B3). eexists. unfold restoreIterator.
  erewrite bind_Ret by (by apply readIteratorBackup_con). cbn [fi_current].
  rewrite (writeIterator_cell d Hd m j _ c Hc) by done. reflexivity.
Qed.

Lemma restoreLimits_con m d p j :
  disk_ok d → 0 ≤ p →
  let lim := h_lbackup (d_header d) in
  ∃ j', restoreLimits (con m d p j) =
    (con (upd_limits (FIterator true lim.1 lim.2 (fi_current (fc_limits m))) m) (with_limits lim d) fc_s_listPosition j', Ret tt).
Proof.
  intros Hd Hp lim. eexists. unfold restoreLimits. rewrite bind_field.
  erewrite bind_Ret by by apply readLimitsBackup_con. rewrite bind_modify.
  match goal with |- context [upd_limits ?l (con ?m ?x ?y ?z)] => change (upd_limits l (con m x y z)) with (con (upd_limits l m) x y z) end.
  rewrite writeInitialPosition_con; [|done|exact (ok_lbackup _ (ok_header _ Hd))].
  cbn [fi_prev fi_next]. fold lim. by rewrite <- surjective_pairing.
Qed.

(** What recovery has to leave for the list [l] to be there. *)
Definition restored (m : FileContainer) (d : disk) (l : list entry) (r : FileContainer * outcome iostatus_t unit) : Prop :=
  ∃ m' d' p' j', r = (con m' d' p' j', Ret tt) ∧ 0 ≤ p' ∧ body d' l ∧ h_size (d_header d') = Z.of_nat (length l) ∧
    h_stamp (d_header d') = h_stamp (d_header d) ∧ (l = [] → d_cells d' = []) ∧
    fc_size m' = Z.of_nat (length l) ∧ (fi_prev (fc_limits m'), fi_next (fc_limits m')) = h_limits (d_header d') ∧
    fc_stamp m' = fc_stamp m ∧ fc_now m' = fc_now m.

(** The check, as the last step of a recovery. *)
Lemma check_restored m d p j a l :
  body d l → l ≠ [] → fc_size m = h_size (d_header d) → count_ok a (fc_size m) (Z.of_nat (length l)) →
  (fi_prev (fc_limits m), fi_next (fc_limits m)) = h_limits (d_header d) →
  restored m d l (checkConsistency a (con m d p j)).
Proof.
  intros Hb Hne Hsz Hct Hlim. destruct (checkConsistency_con m d p j a l Hb Hne Hsz Hct Hlim) as (d' & p' & j' & E & Hp' & Hb' & H1 & H2 & H3).
  do 4 eexists. split; [exact E|]. split_and!; try done. change ((fi_prev (fc_limits m), fi_next (fc_limits m)) = h_limits (d_header d')).
  by rewrite Hlim, H3.
Qed.

(** [initContainer] around the switch. *)
Lemma initContainer_recovers m d p j l :
  disk_ok d → 0 ≤ p → off_ok (fc_now m) → h_status (d_header d) ≠ closed →
  (∀ m', fc_size m' = h_size (d_header d) →
     (fi_prev (fc_limits m'), fi_next (fc_limits m')) = h_limits (d_header d) →
     restored m' d l (recover_switch (h_status (d_header d)) (con m' d 0 j))) →
  ∃ c', initContainer (con m d p j) = (c', Ret tt) ∧ rep c' l.
Proof.
  intros Hd Hp Hnow Hst Hsw. unfold initContainer. rewrite bind_field. cbn [con upd_stream fc_stream bad f_bad at_]. recon.
  rewrite load_con by done. erewrite bind_Ret by by apply readFileStatus_con. rewrite bool_decide_true by done.
  set (mb := upd_bak (Some (disk_bytes d)) (upd_initialized (fc_initialized m) (loaded d m))).
  destruct (Hsw mb eq_refl) as (m' & d' & p' & j' & E & Hp' & Hb' & Hs' & Ht' & He' & Hm1 & Hm2 & Hm3 & Hm4);
    [symmetry; apply surjective_pairing|].
  assert (recover_unchecked (h_status (d_header d)) (con (upd_initialized (fc_initialized m) (loaded d m)) d (fc_s_listPosition + 33) j)
    = (con m' (with_status closed d') p' (j' ++ [disk_bytes (with_status closed d')]), Ret tt)) as Hrun.
  { unfold recover_unchecked. rewrite (bind_Ret _ _ _ _ _ (backupFile_con _ _ _ _)). fold mb.
    rewrite bool_decide_false by done. rewrite bind_mret. unfold con at 1. rewrite bind_on, sync_at. recon.
    rewrite (bind_Ret _ _ _ _ _ E). rewrite bool_decide_true by done. apply writeFileStatus_con; [apply Hb'|done]. }
  rewrite (bind_Ret _ _ _ _ _ Hrun). eexists. split; [reflexivity|].
  exists (upd_initialized true m'). do 3 eexists. split; [reflexivity|]. split; [exact Hp'|].
  assert (body (with_status closed d') l) as Hb2 by (apply body_header; [done|by apply with_status_ok, (body_ok _ _ Hb')|done]).
  pose proof Hb2 as [B1 B2 B3 B4 B5 B6]. split; [by split|]. split; [done|].
  split; simpl; try done.
  - by rewrite Hm1, Hs'.
  - by rewrite <- Hm2.
  - by rewrite <- Hm2.
  - by rewrite Hm4.
  - rewrite Hm3. apply (ok_stamp _ (ok_header _ Hd)).
  - rewrite Hm3, Ht'. unfold ts_gtb. simpl. apply bool_decide_false. lia.
Qed.

(** ** Undoing an append *)

Section undo_append.
Context (d : disk) (l : list entry) (Hb : body d l) (Hne : l ≠ []) (q : Z) (c : cell).
Context (Hc : cell_at d q = Some c) (Hcn : c_next c = disk_end d).
Let n := Z.of_nat (length l).
Let e := disk_end d.

(** A disk with the records of [d] and a header that differs. *)
Lemma same_cells_body D :
  disk_ok D → d_cells D = d_cells d → d_tail D = [] → h_limits (d_header D) = h_limits (d_header d) → body D l.
Proof.
  intros Hd Hcs Ht Hl. destruct Hb as [Bo Bt Bl Bc Bn Br]. 
  assert (disk_end D = disk_end d) as He by (unfold disk_end; by rewrite Hcs, Ht, Bt).
  assert (∀ z, cell_at D z = cell_at d z) as Hext by (intros; unfold cell_at; by rewrite Hcs).
  split; try done; [by rewrite Hl| |by rewrite He]. rewrite He. by apply (chain_ext d).
Qed.

Section undo.
Context (m : FileContainer) (D : disk) (p : Z) (j : list bytes) (HD : disk_ok D) (Hp : 0 ≤ p).
Context (Hbk : h_backup0 (d_header D) = (q, c_prev c, e)) (Hsz : h_size (d_header D) = n) (Hmsz : fc_size m = n).

Lemma rec_ae_iterator_restored :
  d_cells D = d_cells d → d_tail D = [] → h_limits (d_header D) = h_limits (d_header d) →
  (fi_prev (fc_limits m), fi_next (fc_limits m)) = h_limits (d_header D) →
  restored m D l (rec_ae_iterator (con m D p j)).
Proof.
  intros Hcs Ht Hl Hlim. pose proof (same_cells_body D HD Hcs Ht Hl) as HbD.
  assert (cell_at D q = Some c) as HcD by (unfold cell_at; by rewrite Hcs).
  unfold rec_ae_iterator. destruct (restoreIterator_con 0 m D p j c HD Hp ltac:(lia)) as (j' & E).
  { cbn [get_backup]. by rewrite Hbk. }
  rewrite (bind_Ret _ _ _ _ _ E). cbn [get_backup]. rewrite Hbk. cbn [fst snd].
  assert (e = c_next c) as -> by done. rewrite upd_same by done.
  apply check_restored; [done|done|by rewrite Hsz|by left|done].
Qed.
End undo.

Lemma rec_ae_limits_restored m D p j :
  disk_ok D → 0 ≤ p → h_backup0 (d_header D) = (q, c_prev c, e) → h_size (d_header D) = n → fc_size m = n →
  d_cells D = d_cells d → d_tail D = [] → h_lbackup (d_header D) = h_limits (d_header d) →
  restored m D l (rec_ae_limits (con m D p j)).
Proof.
  intros HD Hp Hbk Hsz Hmsz Hcs Ht Hlb. unfold rec_ae_limits. destruct (restoreLimits_con m D p j HD Hp) as (j' & E).
  rewrite (bind_Ret _ _ _ _ _ E). rewrite Hlb. set (lim := h_limits (d_header d)).
  assert (pair_ok lim) as Hlo by apply (ok_limits _ (ok_header _ (body_ok _ _ Hb))).
  edestruct (rec_ae_iterator_restored (upd_limits (FIterator true lim.1 lim.2 (fi_current (fc_limits m))) m) (with_limits lim D) fc_s_listPosition j')
    as (m' & d' & p' & j2 & E2 & Hrest); try done; try (symmetry; apply surjective_pairing); try (by apply with_limits_ok).
  rewrite E2. by exists m', d', p', j2.
Qed.

Lemma rec_ae_writing_restored m D p j extra :
  disk_ok D → 0 ≤ p → h_backup0 (d_header D) = (q, c_prev c, e) → h_size (d_header D) = n → fc_size m = n →
  d_cells D = d_cells d ++ extra → h_lbackup (d_header D) = h_limits (d_header d) → (h_limits (d_header D)).2 = e →
  restored m D l (rec_ae_writing (con m D p j)).
Proof.
  intros HD Hp Hbk Hsz Hmsz Hcs Hlb Hl2. unfold rec_ae_writing. erewrite bind_Ret by by apply readInitialPosition_con.
  cbn [fi_next]. rewrite Hl2. destruct Hb as [Bo Bt Bl Bc Bn Br].
  assert (e = fc_s_headerSize + cells_len (d_cells d)) as He by (unfold e, disk_end; rewrite Bt; simpl; lia).
  erewrite bind_Ret by (by eapply truncateFile_con). set (D1 := with_status ft_end (Disk (d_header D) (d_cells d) [])).
  assert (disk_ok D1) as HD1 by (apply with_status_ok; split; [apply HD|apply Bo]).
  edestruct (λ jj, rec_ae_limits_restored m D1 0 jj) as (m' & d' & p' & j2 & E2 & Hrest); try done.
  rewrite E2. by exists m', d', p', j2.
Qed.
End undo_append.
