(* ===== verification/ContainerCrash.v ===== *)
(** * Crashes during an append

    The journal of the stream holds the contents of the file after each
    physical write: what a process killed between two writes leaves behind.
    Each of these files is opened again.  All but one give back the list as
    it was before the append or as it is after it. *)

From S2P Require Import Prelude Digits Stream FileContainer ContainerFields ContainerDisk ContainerCells ContainerList ContainerAdd.
From S2P Require Import ContainerInsert ContainerRead ContainerRemove ContainerCreate ContainerCompact ContainerRecovery.

(** [initContainer] on a file [D], from any object, gives the list [l]. *)
Definition reopens (D : disk) (l : list entry) : Prop :=
  ∀ m p j, 0 ≤ p → off_ok (fc_now m) → ∃ c', initContainer (con m D p j) = (c', Ret tt) ∧ rep c' l.

Section reopen.
Context (D : disk) (l : list entry) (Hb : body D l) (Hcs : l = [] → d_cells D = []).
Context (Hsz : h_size (d_header D) = Z.of_nat (length l)).

Lemma reopens_closed : h_status (d_header D) = closed → reopens D l.
Proof.
  intros Hst m p j Hp Hn. eexists. split; [by apply initContainer_closed, Hst; [apply Hb|]|].
  do 4 eexists. split; [reflexivity|]. split; [done|]. split; [destruct Hb; by split|]. split; [done|].
  apply loaded_mem_ok; [apply Hb|done].
Qed.

Lemma reopens_opened : h_status (d_header D) = opened → reopens D l.
Proof.
  intros Hst m p j Hp Hn. apply initContainer_recovers; [apply Hb|done|done|by rewrite Hst|].
  intros m' Hm1 Hm2. rewrite Hst. cbn [recover_switch]. rewrite writeFileStatus_con by (try done; apply Hb).
  do 4 eexists. split; [reflexivity|]. split_and!; try done; [|by rewrite Hm1].
  apply body_header; [done|apply with_status_ok, (body_ok _ _ Hb)|done].
Qed.
End reopen.

Lemma reopens_ad_empty D l :
  body D l → l ≠ [] → count_ok 1 (h_size (d_header D)) (Z.of_nat (length l)) → h_status (d_header D) = ad_empty → reopens D l.
Proof.
  intros Hb Hne Hct Hst m p j Hp Hn. apply initContainer_recovers; [apply Hb|done|done|by rewrite Hst|].
  intros m' Hm1 Hm2. rewrite Hst. cbn [recover_switch]. apply check_restored; try done. by rewrite Hm1.
Qed.

Section undo.
Context (d : disk) (l : list entry) (Hb : body d l) (Hne : l ≠ []) (q : Z) (c : cell).
Context (Hc : cell_at d q = Some c) (Hcn : c_next c = disk_end d) (D : disk) (HD : disk_ok D).
Context (Hbk : h_backup0 (d_header D) = (q, c_prev c, disk_end d)) (Hsz : h_size (d_header D) = Z.of_nat (length l)).

Lemma reopens_ae_iterator :
  h_status (d_header D) = ae_iterator → d_cells D = d_cells d → d_tail D = [] →
  h_limits (d_header D) = h_limits (d_header d) → reopens D l.
Proof.
  intros Hst Hcs Ht Hl m p j Hp Hn. apply initContainer_recovers; [done|done|done|by rewrite Hst|].
  intros m' Hm1 Hm2. rewrite Hst. cbn [recover_switch].
  eapply rec_ae_iterator_restored; try done. by rewrite Hm1.
Qed.

Lemma reopens_ae_limits :
  h_status (d_header D) = ae_limits → d_cells D = d_cells d → d_tail D = [] →
  h_lbackup (d_header D) = h_limits (d_header d) → reopens D l.
Proof.
  intros Hst Hcs Ht Hl m p j Hp Hn. apply initContainer_recovers; [done|done|done|by rewrite Hst|].
  intros m' Hm1 Hm2. rewrite Hst. cbn [recover_switch].
  eapply rec_ae_limits_restored; try done. by rewrite Hm1.
Qed.

Lemma reopens_ae_writing extra :
  h_status (d_header D) = ae_writing ∨ h_status (d_header D) = ae_written → d_cells D = d_cells d ++ extra →
  h_lbackup (d_header D) = h_limits (d_header d) → (h_limits (d_header D)).2 = disk_end d → reopens D l.
Proof.
  intros Hst Hcs Hl Hl2 m p j Hp Hn. apply initContainer_recovers; [done|done|done|by destruct Hst as [-> | ->]|].
  intros m' Hm1 Hm2.
  assert (recover_switch (h_status (d_header D)) = rec_ae_writing) as -> by by destruct Hst as [-> | ->].
  eapply rec_ae_writing_restored; try done. by rewrite Hm1.
Qed.
End undo.

(** The last three files of an append, when the new record is in place. *)
Lemma written_reopens W l :
  body W l → l ≠ [] → h_size (d_header W) = Z.of_nat (length l) - 1 →
  let E := with_status ad_empty (with_no_backup W) in let S := with_size (Z.of_nat (length l)) E in
  Forall (λ D, reopens D l) [E; S; with_status closed S].
Proof.
  intros Hb Hne Hsz E S.
  assert (body (with_no_backup W) l) as Hb2 by (apply body_header; [done|apply with_no_backup_ok, (body_ok _ _ Hb)|done]).
  assert (body E l) as Hb3 by (apply body_header; [done|apply with_status_ok, (body_ok _ _ Hb2)|done]).
  pose proof (rep_ok _ _ (body_final _ _ Hb3 (λ H, match Hne H with end))) as Hok.
  assert (body S l) as Hb4.
  { apply body_header; [done|apply with_size_ok; [apply (body_ok _ _ Hb3)|apply (ok_size _ (ok_header _ Hok))]|done]. }
  repeat apply Forall_cons_2; [..|constructor].
  - apply reopens_ad_empty; try done. right. left. split; [done|]. simpl. rewrite Hsz. lia.
  - apply reopens_ad_empty; try done. by left.
  - apply reopens_closed; [|done|done|done]. apply body_header; [done|apply with_status_ok, (body_ok _ _ Hb4)|done].
Qed.

Section append_images.
Context (m : FileContainer) (d : disk) (l : list entry) (Hr : repr d l) (Hst : h_status (d_header d) = closed) (Hm : mem_ok m d).
Context (data : bytes) (it : FileIterator) (Hdata : 0 < Z.of_nat (length data)).
Context (Hroom : disk_end d + calculateDataSize (Z.of_nat (length data)) ≤ off_max) (Hne : l ≠ []).
Context (q : Z) (c : cell) (Hc : cell_at d q = Some c) (Hcn : c_next c = disk_end d) (Hq : (h_limits (d_header d)).2 = q).
Let base := append_base m d q c.
Let images := append_disks m d l data it (append_pre m d q c) base q.

Local Lemma base_eq : base = with_status ae_iterator (with_backup 0 (q, c_prev c, disk_end d) (add_opened m d)).
Proof.
  unfold base, append_base. rewrite <- Hcn. assert (cell_at (add_opened m d) q = Some c) as H1 by exact Hc.
  revert H1. generalize (add_opened m d). intros d1 H1. by apply upd_same.
Qed.

Local Lemma base_ok : disk_ok base.
Proof. apply end_base_ok with (data := data) (d := add_opened m d); try done. apply add_opened_ok; [apply Hr|done]. Qed.

Local Lemma new_body : body (append_last d data it base q) (l ++ [(disk_end d, data)]).
Proof.
  pose proof (rep_limits _ _ Hr) as Rl. pose proof (body_cell_off _ _ _ _ (repr_body _ _ Hr) Hc) as Hqo.
  assert (d_tail base = []) as Hbt by (rewrite base_eq; apply (rep_tail _ _ Hr)).
  assert (chain base 0 l (disk_end d)) as Hbc.
  { rewrite base_eq. eapply chain_ext, (rep_chain _ _ Hr). reflexivity. }
  assert (disk_end base = disk_end d) as Hbe by (rewrite base_eq; reflexivity).
  assert (q = last_pos 0 l) as Hql by (rewrite <- Hq, Rl; simpl; by apply last_pos_ne).
  pose proof (append_repr d l Hr data it Hdata Hroom base q base_ok Hbt Hbe Hbc Hql Hqo) as Hrn.
  apply (same_cells_body _ _ (repr_body _ _ Hrn)); [|reflexivity|reflexivity|reflexivity].
  apply (append_last_ok d l Hr data it Hdata Hroom base q base_ok Hqo).
Qed.

(** All the files an append goes through, in the order they are written. *)
Lemma images_reopen :
  ∃ before window after, images = before ++ window :: after ∧ length before = 13%nat ∧
    Forall (λ D, reopens D l) before ∧ Forall (λ D, reopens D (l ++ [(disk_end d, data)])) after.
Proof.
  pose proof new_body as Hnb. pose proof base_ok as Bok. pose proof base_eq as Beq.
  pose proof (repr_body _ _ Hr) as Hb. pose proof (rep_size _ _ Hr) as Hsz. pose proof (rep_tail _ _ Hr) as Ht.
  pose proof (body_end_ok _ _ Hb) as He. pose proof (body_cell_off _ _ _ _ Hb Hc) as Hqo.
  pose proof (ok_limits _ (ok_header _ (rep_ok _ _ Hr))) as Hlo.
  destruct (ok_links _ (cell_at_ok _ (rep_ok _ _ Hr) _ _ Hc)) as [Hcp _].
  assert (triple_ok (q, c_prev c, disk_end d)) as Htr by (by split_and!).
  pose proof (opened_ok _ _ (rep_ok _ _ Hr) Hm) as Hso. pose proof (add_opened_ok _ _ (rep_ok _ _ Hr) Hm) as Hd1.
  unfold images, append_disks, append_pre, end_disks, written, add_closed. fold base.
  rewrite Beq in Hnb, Bok |- *. clear Beq. unfold append_last, end_final, end_limits in *.
  set (d1 := add_opened m d) in *.
  assert (d_cells d1 = d_cells d ∧ d_tail d1 = [] ∧ h_limits (d_header d1) = h_limits (d_header d) ∧
    h_size (d_header d1) = Z.of_nat (length l) ∧ h_status (d_header d1) = opened) as (D1 & D2 & D3 & D4 & D5) by by rewrite <- Hsz.
  assert (body d1 l) as Hb1 by (by apply (same_cells_body d l Hb)).
  assert (reopens (with_stamp (next_stamp d m) d) l) as H0.
  { apply reopens_closed; [|apply Hr|done|done]. apply (same_cells_body d l Hb); try done. by apply with_stamp_ok; [apply Hr|]. }
  generalize dependent (with_stamp (next_stamp d m) d). intros ds H0.
  clearbody d1. clear images base Hm Hso. cbn [app].
  set (lim := h_limits (d_header d)) in *.
  set (nc := new_cell _ _ _) in *.
  set (b := with_status ae_iterator (with_backup 0 (q, c_prev c, disk_end d) d1)) in *.
  set (bl := with_lbackup lim b) in *. set (bs := with_status ae_limits bl) in *.
  set (bm := with_limits (lim.1, disk_end d) bs) in *. set (bw := with_status ae_writing bm) in *.
  assert (disk_ok bl) as Hbl by by apply with_lbackup_ok.
  assert (disk_ok bs) as Hbs by by apply with_status_ok.
  assert (disk_ok bm) as Hbm by (apply with_limits_ok; [done|split; [apply Hlo|done]]).
  assert (disk_ok bw) as Hbw by by apply with_status_ok.
  assert (disk_ok (add_cell nc bw)) as Hac.
  { destruct (body_ok _ _ Hnb) as [_ Hcs]. split; [apply Hbw|exact Hcs]. }
  assert (Z.of_nat (length (l ++ [(disk_end d, data)])) = Z.of_nat (length l) + 1) as Hlen by (rewrite length_app; simpl; lia).
  assert (l ++ [(disk_end d, data)] ≠ []) as Hne' by (by destruct l).
  eexists [_; _; _; _; _; _; _; _; _; _; _; _; _], _, [_; _; _].
  split; [reflexivity|]. split; [reflexivity|]. split.
  - repeat apply Forall_cons_2; [..|constructor].
    + done.
    + by apply reopens_opened.
    + apply reopens_opened; [|done|done|done]. by apply body_header; [|apply with_backup_ok|].
    + by apply (reopens_ae_iterator d l Hb Hne q c).
    + by apply (reopens_ae_iterator d l Hb Hne q c).
    + by apply (reopens_ae_iterator d l Hb Hne q c).
    + by apply (reopens_ae_limits d l Hb Hne q c).
    + by apply (reopens_ae_limits d l Hb Hne q c).
    + apply (reopens_ae_writing d l Hb Hne q c Hc Hcn _ Hbw) with (extra := []); try done; [by left|by rewrite app_nil_r].
    + apply (reopens_ae_writing d l Hb Hne q c Hc Hcn _ (with_tail_ok _ Hbw _)) with (extra := []); try done; [by left|by rewrite app_nil_r].
    + apply (reopens_ae_writing d l Hb Hne q c Hc Hcn _ (with_tail_ok _ Hbw _)) with (extra := []); try done; [by left|by rewrite app_nil_r].
    + apply (reopens_ae_writing d l Hb Hne q c Hc Hcn _ Hac) with (extra := [nc]); try done; [by left|]. simpl. by rewrite D1.
    + apply (reopens_ae_writing d l Hb Hne q c Hc Hcn _ (with_status_ok _ Hac _)) with (extra := [nc]); try done; [by right|]. simpl. by rewrite D1.
  - rewrite <- Hlen. apply written_reopens; [done|done|]. rewrite Hlen. simpl. rewrite D4. lia.
Qed.
End append_images.

(** ** Over container objects *)

(** The contents of the file after each physical write so far. *)
Definition journal (c : FileContainer) : list bytes := from_option f_journal [] (fc_stream c).

(** A process that opens the file [img] and uses it for the first time. *)
Definition reopen (name img : bytes) : FC unit := open name (Some img) true false;; initContainer.

Lemma reopen_image D l name c0 :
  reopens D l → off_ok (fc_now c0) → ∃ c1, reopen name (disk_bytes D) c0 = (c1, Ret tt) ∧ rep c1 l.
Proof.
  intros Hr Hn. destruct (open_prefix c0 name (Some (disk_bytes D)) true false) as (m & E & En & _).
  unfold reopen, openFile in *. erewrite bind_Ret by (rewrite E; reflexivity).
  change (open_stream (disk_bytes D) false) with (at_ (disk_bytes D) 0 []). recon.
  apply Hr; [lia|by rewrite En].
Qed.


(** ** The window *)

(** With cleared backups, recovery writes a null iterator over the start of
    the file and null limits over the list. *)
Section window.
Context (m : FileContainer) (D : disk) (HD : disk_ok D) (cs1 cs2 : list cell) (Hcs : d_cells D = cs1 ++ cs2).
Context (Hbk : h_backup0 (d_header D) = (0, 0, 0)) (Hlb : h_lbackup (d_header D) = (0, 0)).
Context (Hl2 : (h_limits (d_header D)).2 = fc_s_headerSize + cells_len cs1).

Lemma restore_over_header m' d p j :
  disk_ok d → 0 ≤ p → h_backup0 (d_header d) = (0, 0, 0) →
  ∃ j', restoreIterator 0 (con m' d p j) =
    (upd_stream (Some (at_ (pair_line (0, 0) ++ drop 34 (disk_bytes d)) 34 j')) m', Ret tt).
Proof.
  intros Hd Hp Hb. unfold restoreIterator.
  erewrite bind_Ret by (apply readIteratorBackup_con; [done|done|lia]). cbn [get_backup]. rewrite Hb. cbn [fst snd fi_current].
  unfold writeIterator. rewrite bool_decide_false by (unfold fc_s_headerSize; lia). rewrite bind_assoc.
  erewrite bind_Ret by by apply getEnd_con. pose proof (disk_end_pos d) as He. rewrite bind_mret.
  rewrite bool_decide_true by (unfold fc_s_headerSize in He; lia). unfold con. go.
  change (FileIterator_write (FIterator true 0 0 0) ++ [nl]) with (pair_line (0, 0)).
  pose proof (disk_bytes_length d Hd) as Hlen. unfold fc_s_headerSize in He.
  eexists. rewrite (emit_at_mid _ _ [] (take 34 (disk_bytes d)) (drop 34 (disk_bytes d)) (pair_line (0, 0))).
  - go. reflexivity.
  - simpl. by rewrite take_drop.
  - done.
  - rewrite length_take. change (length (pair_line (0, 0))) with 34%nat. lia.
Qed.

(** On such a file the check stops at once. *)
Lemma check_fails m' T p j :
  (length T > 0)%nat → 0 ≤ p → fi_prev (fc_limits m') = 0 →
  ∃ c', checkConsistency 1 (upd_stream (Some (at_ (pair_line (0, 0) ++ T) p j)) m') = (c', Fail unavailable_position).
Proof.
  intros HT Hp Hl. set (f := pair_line (0, 0) ++ T).
  assert (Z.of_nat (length f) = 34 + Z.of_nat (length T)) as Hlen by (unfold f; rewrite length_app; simpl; lia).
  unfold checkConsistency, getEnd. go. unfold readSize. go.
  match goal with |- context [upd_size 0 (upd_stream ?x m')] => change (upd_size 0 (upd_stream x m')) with (upd_stream x (upd_size 0 m')) end.
  go. erewrite bind_with.
  2: { apply (extract_num_at _ _ 10 0 (2 ^ 64 - 1) (take 27 (pair_line (0, 0))) [] (replicate 6 "0"%char) nl T);
       [reflexivity|reflexivity|constructor|by repeat constructor|done|done|lia|by vm_compute|by vm_compute]. }
  cbn [default]. go.
  match goal with |- context [upd_size ?n (upd_stream ?x ?mm)] => change (upd_size n (upd_stream x mm)) with (upd_stream x (upd_size n mm)) end.
  go. cbn [upd_stream upd_size fc_limits]. rewrite Hl.
  match goal with |- context [(readIterator 0 nullIterator false ≫= ?k) ?st] => change st with (upd_stream (Some (at_ f (Z.of_nat (length f)) j)) (upd_size (digits_value 10 (replicate 6 "0"%char)) m')) end.
  unfold readIterator, getEnd. go.
  rewrite bool_decide_false by (unfold fc_s_headerSize; lia). rewrite bool_decide_false by lia. rewrite bool_decide_true by done. rewrite bind_mret.
  cbn [cc_loop]. rewrite bind_ask. change (good (at_ _ _ _)) with true. cbn iota.
  match goal with |- context [(attempt readSizeAndState ≫= ?k) ?st] =>
    assert (∃ c', attempt readSizeAndState st = (c', Ret (inr syntax_error))) as (c' & E) end.
  { unfold attempt. eexists. erewrite catch_Fail; [reflexivity|]. erewrite bind_Fail; [reflexivity|].
    unfold readSizeAndState. go. erewrite bind_with by (unfold getline; rewrite (rest_at _ _ f []) by (try done; by rewrite app_nil_r); reflexivity).
    reflexivity. }
  rewrite (bind_Ret _ _ _ _ _ E). rewrite bind_field. cbn iota. by eexists.
Qed.

Lemma window_fails p j :
  0 ≤ p → h_status (d_header D) = ae_written →
  ∃ c', initContainer (con m D p j) = (c', Fail unavailable_position).
Proof.
  intros Hp Hst. unfold initContainer. rewrite bind_field. cbn [con upd_stream fc_stream bad f_bad at_]. recon.
  rewrite load_con by done. erewrite bind_Ret by by apply readFileStatus_con. rewrite Hst. rewrite bool_decide_true by done.
  unfold recover_unchecked. rewrite bind_assoc, (bind_Ret _ _ _ _ _ (backupFile_con _ _ _ _)).
  set (mb := upd_bak _ _). rewrite bool_decide_false by done. rewrite bind_assoc, bind_mret. unfold con at 1.
  rewrite bind_assoc, bind_on, sync_at. recon. rewrite bind_assoc. cbn [recover_switch]. unfold rec_ae_writing.
  rewrite bind_assoc. erewrite bind_Ret by by apply readInitialPosition_con. cbn [fi_next]. rewrite Hl2.
  rewrite bind_assoc. erewrite bind_Ret by (by eapply truncateFile_con).
  set (D1 := with_status ft_end _).
  assert (disk_ok D1) as HD1.
  { apply with_status_ok. destruct HD as [Hh Hf]. rewrite Hcs, Forall_app in Hf. split; [done|apply Hf]. }
  unfold rec_ae_limits. rewrite bind_assoc.
  edestruct (λ jj, restoreLimits_con mb D1 0 jj HD1 ltac:(lia)) as (j1 & E1). erewrite bind_Ret by exact E1.
  assert (h_lbackup (d_header D1) = (0, 0)) as -> by exact Hlb. set (ml := upd_limits _ mb).
  assert (disk_ok (with_limits (0, 0) D1)) as HD2 by (apply with_limits_ok; [done|apply pair_ok_0]).
  unfold rec_ae_iterator. rewrite bind_assoc.
  edestruct (restore_over_header ml (with_limits (0, 0) D1) fc_s_listPosition j1 HD2 ltac:(done) Hbk) as (j2 & E2).
  erewrite bind_Ret by exact E2.
  edestruct (check_fails ml (drop 34 (disk_bytes (with_limits (0, 0) D1))) 34 j2) as (c' & E3); [|lia|done|].
  { rewrite length_drop. pose proof (disk_bytes_length _ HD2). pose proof (disk_end_pos (with_limits (0, 0) D1)).
    unfold fc_s_headerSize in *. lia. }
  erewrite bind_Fail by exact E3. by eexists.
Qed.
End window.

Lemma append_window m d l data it q c :
  repr d l → mem_ok m d → 0 < Z.of_nat (length data) →
  disk_end d + calculateDataSize (Z.of_nat (length data)) ≤ off_max →
  cell_at d q = Some c → c_next c = disk_end d → (h_limits (d_header d)).2 = q →
  ∀ m' p j, 0 ≤ p → ∃ c', initContainer (con m' (with_no_backup (append_last d data it (append_base m d q c) q)) p j) =
    (c', Fail unavailable_position).
Proof.
  intros Hr Hm Hdata Hroom Hc Hcn Hq m' p j Hp.
  pose proof (base_ok m d l Hr Hm data Hdata Hroom q c Hc) as Bok.
  pose proof (body_cell_off _ _ _ _ (repr_body _ _ Hr) Hc) as Hqo.
  pose proof (append_last_ok d l Hr data it Hdata Hroom _ q Bok Hqo) as Hok.
  eapply (window_fails m' _ (with_no_backup_ok _ Hok) (d_cells d)); [|reflexivity|reflexivity| |done|reflexivity].
  - unfold append_last, end_final. rewrite (base_eq m d q c Hc Hcn). reflexivity.
  - cbn. unfold disk_end. rewrite (rep_tail _ _ Hr). simpl. lia.
Qed.

(** C5.  The one file that is not recovered: if the process dies after the
    fourteenth write of an append, the next one to open the file gets
    [unavailable_position]. *)
Theorem append_crash_window c l data it c' it' :
  rep c l → l ≠ [] → data ≠ [] → end_of c + calculateDataSize (Z.of_nat (length data)) ≤ off_max →
  add_data data (end_of c) it c = (c', Ret it') →
  ∃ img, journal c' !! (length (journal c) + 13)%nat = Some img ∧
    ∀ name c0, ∃ c1, reopen name img c0 = (c1, Fail unavailable_position).
Proof.
  intros (m & d & p & j & -> & Hp & Hr & Hst & Hm) Hne Hdata. rewrite (end_of_con _ _ _ _ (rep_ok _ _ Hr)). intros Hroom Hrun.
  assert (0 < Z.of_nat (length data)) as Hlen by (destruct data; simpl; [done|lia]).
  destruct (snoc_cases l Hne) as (l' & q & x & El).
  pose proof (rep_chain _ _ Hr) as Hch. rewrite El in Hch. destruct (chain_mid _ _ _ _ _ _ _ Hch) as (c & Hc & _ & Hcn & _).
  assert ((h_limits (d_header d)).2 = q) as Hq by (rewrite (rep_limits _ _ Hr), El; apply last_pos_snoc).
  rewrite (append_cons_run m d p j l Hp Hr Hst Hm data it Hlen Hroom q c Hc Hcn Hq) in Hrun.
  apply (f_equal fst) in Hrun. cbn [fst] in Hrun. subst c'.
  eexists. split.
  { change (journal (con m d p j)) with j. cbn [journal con upd_stream fc_stream from_option at_ f_journal].
    rewrite lookup_app_r by lia. replace (_ - _)%nat with 13%nat by lia. reflexivity. }
  intros name c0. destruct (open_prefix c0 name (Some (disk_bytes (with_no_backup (append_last d data it (append_base m d q c) q)))) true false) as (m0 & E & _).
  unfold reopen. erewrite bind_Ret by (rewrite E; reflexivity). by apply (append_window m d l data it q c Hr Hm Hlen Hroom Hc Hcn Hq m0 0 []).
Qed.
