(* ===== verification/ContainerExamples.v ===== *)
(** * The container on concrete files

    A container with two elements, and the theorems of the container
    applied to it. *)

From S2P Require Import Prelude Digits Stream FileContainer ContainerFields ContainerDisk ContainerCells ContainerList ContainerAdd.
From S2P Require Import ContainerInsert ContainerRead ContainerRemove ContainerCreate ContainerCompact ContainerRecovery.
From S2P Require Import ContainerCrash.

Definition queue0 : FileContainer := (open (of_string "queue") None true false (new_container 1000)).1.
Definition queue1 : FileContainer := (add_data (of_string "ab") (end_of queue0) nullIterator queue0).1.
Definition queue2 : FileContainer := (add_data (of_string "cde") (end_of queue1) nullIterator queue1).1.

Lemma append_state c l data it :
  rep c l → data ≠ [] → end_of c + calculateDataSize (Z.of_nat (length data)) ≤ off_max →
  rep (add_data data (end_of c) it c).1 (l ++ [(end_of c, data)]).
Proof.
  intros (m & d & p & j & -> & Hp & Hr & Hst & Hm) Hne. rewrite (end_of_con _ _ _ _ (rep_ok _ _ Hr)). intros Hroom.
  edestruct (append_rep m d p j l Hp Hr Hst Hm data it) as (c' & it' & E & _ & H & _); [destruct data; simpl; [done|lia]|done|].
  by rewrite E.
Qed.

Lemma queue0_rep : rep queue0 [].
Proof.
  destruct (open_new_rep (new_container 1000) (of_string "queue")) as (c' & E & H); [done|].
  unfold queue0. by rewrite E.
Qed.

Lemma queue0_end : end_of queue0 = 391.
Proof. by vm_compute. Qed.
Lemma queue1_end : end_of queue1 = 488.
Proof. by vm_compute. Qed.
Lemma queue2_end : end_of queue2 = 586.
Proof. by vm_compute. Qed.

Lemma queue1_rep : rep queue1 [(391, of_string "ab")].
Proof. rewrite <- queue0_end. apply (append_state queue0 []); [apply queue0_rep|done|rewrite queue0_end; by vm_compute]. Qed.
Lemma queue2_rep : rep queue2 [(391, of_string "ab"); (488, of_string "cde")].
Proof.
  rewrite <- queue1_end. apply (append_state queue1 [(391, of_string "ab")]); [apply queue1_rep|done|rewrite queue1_end; by vm_compute].
Qed.

#[local] Opaque queue0 queue1 queue2.

(** ** The theorems at work *)

Lemma add_data_inserts_witness :
  ∃ c' it', add_data (of_string "x") 488 nullIterator queue2 = (c', Ret it') ∧ fi_current it' = 586 ∧
    rep c' [(391, of_string "ab"); (586, of_string "x"); (488, of_string "cde")].
Proof.
  rewrite <- queue2_end.
  apply (add_data_inserts queue2 [(391, of_string "ab")] [(488, of_string "cde")] (of_string "x") 488 nullIterator);
    [apply queue2_rep|reflexivity|discriminate|rewrite queue2_end; vm_compute; discriminate].
Defined.

Lemma remove_data_removes_witness : ∃ c', remove_data 391 queue2 = (c', Ret tt) ∧ rep c' [(488, of_string "cde")].
Proof. apply (remove_data_removes queue2 [] 391 (of_string "ab") [(488, of_string "cde")]). apply queue2_rep. Defined.

Lemma read_data_returns_witness :
  ∃ c', read_data 488 nullIterator false queue2 = (c', Ret (element_it (end_of queue2) [(391, of_string "ab")] 488 [], of_string "cde")) ∧
    moved queue2 c'.
Proof.
  apply (read_data_returns queue2 [(391, of_string "ab")] 488 (of_string "cde") [] nullIterator). apply queue2_rep.
Defined.

Lemma fillVector_returns_list_witness :
  ∃ c', fillVector queue2 = (c', Ret [of_string "ab"; of_string "cde"]) ∧ moved queue2 c'.
Proof. apply (fillVector_returns_list queue2 [(391, of_string "ab"); (488, of_string "cde")]). apply queue2_rep. Defined.

Lemma iterators_walk_witness :
  ∃ c', increment_iterator (element_it (end_of queue2) [] 391 [(488, of_string "cde")]) queue2 =
        (c', Ret (element_it (end_of queue2) [(391, of_string "ab")] 488 [])) ∧ moved queue2 c'.
Proof.
  destruct (iterators_walk queue2 [(391, of_string "ab"); (488, of_string "cde")] queue2_rep) as [H _].
  apply (H [] 391 (of_string "ab") 488 (of_string "cde") [] eq_refl).
Defined.

Lemma compact_keeps_list_witness :
  ∃ c' l', compact_data queue2 = (c', Ret tt) ∧ rep c' l' ∧ l'.*2 = [of_string "ab"; of_string "cde"] ∧
    end_of c' = 586 ∧ fc_bak c' = f_data <$> fc_stream queue2.
Proof. apply (compact_keeps_list queue2 [(391, of_string "ab"); (488, of_string "cde")]). apply queue2_rep. Defined.


Lemma append_crash_window_witness :
  ∃ c' it' img c1, add_data (of_string "x") (end_of queue1) nullIterator queue1 = (c', Ret it') ∧
    journal c' !! (length (journal queue1) + 13)%nat = Some img ∧
    reopen (of_string "queue") img (new_container 2000) = (c1, Fail unavailable_position).
Proof.
  destruct (add_data (of_string "x") (end_of queue1) nullIterator queue1) as [c' [it'| |]] eqn:E;
    [|vm_compute in E; discriminate..].
  destruct (append_crash_window queue1 [(391, of_string "ab")] (of_string "x") nullIterator c' it' queue1_rep) as (img & H1 & H2);
    [discriminate|discriminate|rewrite queue1_end; vm_compute; discriminate|exact E|].
  destruct (H2 (of_string "queue") (new_container 2000)) as (c1 & H3).
  exists c', it', img, c1. split; [reflexivity|]. split; [exact H1|exact H3].
Defined.
