(* ===== verification/ContainerShared.v ===== *)
(** * One file, two processes

    Two container objects over the same file, as the job controller and the
    log monitor keep them.  Every change of the file gets a stamp; an object
    whose own stamp is older reads the header again before its next
    operation.  The stamp has a 16-bit counter: the condition under which a
    new stamp really is newer is made explicit. *)

From S2P Require Import Prelude Digits Stream FileContainer ContainerFields ContainerDisk ContainerCells ContainerList ContainerAdd ContainerCreate.
From S2P Require Import ContainerExamples.

Lemma modified_con m d p j :
  disk_ok d → 0 ≤ p → fc_initialized m = true →
  modified (con m d p j) = (con m d 26 j, Ret (ts_gtb (h_stamp (d_header d)) (fc_stamp m))).
Proof.
  intros Hd Hp Hi. unfold modified. rewrite bind_field. cbn [con upd_stream fc_initialized]. recon. rewrite Hi, bind_mret.
  by erewrite checkStamp_con.
Qed.

(** ** Reading the header again *)
Section resync.
Context (m : FileContainer) (d : disk) (p : Z) (j : list bytes).
Context (Hd : disk_ok d) (Hp : 0 ≤ p) (Hst : h_status (d_header d) = closed) (Hi : fc_initialized m = true).
Context (Hnew : ts_gtb (h_stamp (d_header d)) (fc_stamp m) = true).

Lemma syncData_con p0 : 0 ≤ p0 → syncData true (con m d p0 j) = (con (upd_initialized (fc_initialized m) (loaded d m)) d 26 j, Ret tt).
Proof.
  intros Hp0. unfold syncData, loadLimits. rewrite bind_assoc, bind_field, bind_assoc.
  erewrite bind_Ret by by apply readInitialPosition_con. rewrite bind_modify.
  match goal with |- context [upd_limits ?l (con ?m ?x ?y ?z)] => change (upd_limits l (con m x y z)) with (con (upd_limits l m) x y z) end.
  unfold loadRemoved. rewrite bind_assoc, bind_field, bind_assoc.
  erewrite bind_Ret by by apply readInitialPosition_removed. rewrite bind_modify.
  match goal with |- context [upd_removed ?l (con ?m ?x ?y ?z)] => change (upd_removed l (con m x y z)) with (con (upd_removed l m) x y z) end.
  erewrite bind_Ret by by apply readSize_con. by rewrite readStamp_con.
Qed.

Lemma check_stale q : 0 ≤ q → checkStreamAndStamp (con m d q j) = (con m d 26 j, Fail container_modified).
Proof.
  intros Hq. unfold checkStreamAndStamp. erewrite bind_Ret by by apply checkStream_closed. unfold check_modified.
  erewrite bind_Ret by by apply checkStamp_con.
  match goal with |- (if ?b then _ else _) _ = _ => change b with (ts_gtb (h_stamp (d_header d)) (fc_stamp m)) end.
  by rewrite Hnew.
Qed.

Lemma resynced : con (upd_initialized (fc_initialized m) (loaded d m)) d 26 j = con (loaded d m) d 26 j.
Proof. by rewrite Hi. Qed.

Lemma prologue_stale : prologue (syncData true) (con m d p j) = (con (loaded d m) d 26 j, Ret tt).
Proof.
  unfold prologue. rewrite bind_field. cbn [con upd_stream fc_initialized]. recon. rewrite Hi. unfold on_modified.
  rewrite (catch_Fail _ _ _ _ _ (check_stale p Hp)). rewrite bool_decide_true by done. by rewrite syncData_con, resynced.
Qed.
Lemma end_after_prologue_stale : end_after_prologue true (con m d p j) = (con (loaded d m) d (disk_end d) j, Ret (disk_end d)).
Proof.
  unfold end_after_prologue. erewrite bind_Ret by by apply getEnd_con. rewrite bind_field. cbn [con upd_stream fc_initialized]. recon. rewrite Hi.
  unfold on_modified. rewrite (catch_Fail _ _ _ (con m d 26 j) container_modified).
  - rewrite bool_decide_true by done. erewrite bind_Ret by by apply syncData_con. rewrite resynced. by apply getEnd_con.
  - apply bind_Fail, check_stale. pose proof (disk_end_pos d). unfold fc_s_headerSize in *. lia.
Qed.
(** [sync()] reads the new header, and still answers that the container was
    modified. *)
Lemma sync_stale : sync_container (con m d p j) = (con (loaded d m) d 26 j, Fail container_modified).
Proof.
  unfold sync_container. rewrite bind_field. cbn [con upd_stream fc_initialized]. recon. rewrite Hi.
  rewrite (catch_Fail _ _ _ _ _ (check_stale p Hp)). rewrite bool_decide_true by done.
  assert (attempt (syncData true) (con m d 26 j) = (con (loaded d m) d 26 j, Ret (inl tt))) as E.
  { apply catch_Ret. rewrite (bind_Ret _ _ _ _ _ (syncData_con 26 ltac:(lia))), resynced. done. }
  rewrite bind_assoc, (bind_Ret _ _ _ _ _ E). done.
Qed.
End resync.

(** An object that has missed a change of the file, which now stands for
    [l]. *)
Definition stale (c : FileContainer) (l : list entry) : Prop := ∃ m d p j,
  c = con m d p j ∧ 0 ≤ p ∧ repr d l ∧ h_status (d_header d) = closed ∧ fc_initialized m = true ∧ off_ok (fc_now m) ∧
  ts_gtb (h_stamp (d_header d)) (fc_stamp m) = true.

(** ** The stamps *)

(** The new stamp is newer than the one in the file unless the counter of
    that one is at its end and the clock has not moved past it. *)
Lemma update_stamp_newer now this ts :
  stamp_ok ts → ts_gtb (update_stamp now this ts) ts = bool_decide (ts_counter ts < 2 ^ 16 - 1 ∨ ts_epoch ts < now).
Proof.
  intros [_ Hc]. unfold update_stamp, ts_gtb. unfold ushort.
  assert (ts_counter ts < 2 ^ 16 - 1 → (ts_counter ts + 1) `mod` 2 ^ 16 = ts_counter ts + 1) as Hs by (intros; apply Z.mod_small; lia).
  assert (ts_counter ts = 2 ^ 16 - 1 → (ts_counter ts + 1) `mod` 2 ^ 16 = 0) as Hw by (intros ->; done).
  assert (∀ z, 0 ≤ z `mod` 2 ^ 16 < 2 ^ 16) as Hm by (intros; apply Z.mod_pos_bound; lia).
  destruct (decide (ts_counter ts < 2 ^ 16 - 1)) as [Hl|Hl]; [specialize (Hs Hl)|specialize (Hw ltac:(lia))];
    pose proof (Hm (ts_counter this + 1)); clear Hm;
    repeat case_bool_decide; simpl in *; try done; repeat case_bool_decide; simpl in *; try done; try lia; destruct_or?; destruct_and?; try lia.
Qed.

(** ** Two objects *)

(** [see w r]: the object [r] after the file has become what [w] left. *)
Definition see (w r : FileContainer) : FileContainer :=
  match fc_stream w, fc_stream r with
  | Some sw, Some sr =>
      upd_stream (Some (Stream (f_data sw) (f_pos sr) (f_eof sr) (f_fail sr) (f_bad sr) (f_broken sr) (f_journal sr))) r
  | _, _ => r
  end.

(** [w] and [r] are at rest over the same file, that stands for [l], and [r]
    has read its stamp. *)
Definition share (w r : FileContainer) (stamp : TimeStamp) (l : list entry) : Prop := ∃ m p j mr pr jr d,
  w = con m d p j ∧ r = con mr d pr jr ∧ 0 ≤ p ∧ 0 ≤ pr ∧ repr d l ∧ h_status (d_header d) = closed ∧ mem_ok m d ∧ mem_ok mr d ∧
  h_stamp (d_header d) = stamp ∧ fc_stamp mr = stamp.

Lemma share_append w r t l data it :
  share w r t l → data ≠ [] → end_of w + calculateDataSize (Z.of_nat (length data)) ≤ off_max →
  ∃ w' it' m d p j, add_data data (end_of w) it w = (w', Ret it') ∧ rep w' (l ++ [(end_of w, data)]) ∧
    see w' r = con m d p j ∧ 0 ≤ p ∧ repr d (l ++ [(end_of w, data)]) ∧ h_status (d_header d) = closed ∧ fc_initialized m = true ∧
    off_ok (fc_now m) ∧ ts_gtb (h_stamp (d_header d)) (fc_stamp m) = bool_decide (ts_counter t < 2 ^ 16 - 1 ∨ ts_epoch t < fc_now w).
Proof.
  intros (m & p & j & mr & pr & jr & d & -> & -> & Hp & Hpr & Hr & Hst & Hm & Hmr & Ht & Htr) Hne. rewrite (end_of_con _ _ _ _ (rep_ok _ _ Hr)). intros Hroom.
  destruct (append_full m d p j l Hp Hr Hst Hm data it) as (m' & d' & p' & j' & it' & E & _ & Hp' & Hr' & Hst' & Hm' & Hs' & _ & _ & _);
    [destruct data; simpl; [done|lia]|done|].
  exists (con m' d' p' j'), it', mr, d', pr, jr. split; [exact E|]. split; [by exists m', d', p', j'|].
  split; [done|]. split; [done|]. split; [done|]. split; [done|]. split; [apply Hmr|]. split; [apply Hmr|]. rewrite Hs', Htr. unfold next_stamp.
  rewrite Ht. pose proof (ok_stamp _ (ok_header _ (rep_ok _ _ Hr))) as Hok. rewrite Ht in Hok.
  exact (update_stamp_newer (fc_now m) (fc_stamp m) (TStamp true (ts_epoch t) (ts_counter t)) Hok).
Qed.

(** ** Properties *)

(**  The stamp that a change of the file gets is newer than the one it
    replaces exactly when the 16-bit counter of that one has not reached its
    end or the clock shows a later second; in particular it is never newer
    with a full counter and a clock that stands still or lags behind. *)
Theorem stamp_newer_exactly now this ts :
  0 ≤ ts_counter ts < 2 ^ 16 → off_ok (ts_epoch ts) →
  ts_gtb (update_stamp now this ts) ts = true ↔ ts_counter ts < 2 ^ 16 - 1 ∨ ts_epoch ts < now.
Proof. intros Hc He. by rewrite update_stamp_newer, bool_decide_eq_true. Qed.

(**  Two objects share a file and one appends to it: the next
    operation of the other one notices, reads the header again and finds the
    new last element; after it the other object stands for the new list. *)
Theorem reader_follows_writer w r t l data it :
  share w r t l → data ≠ [] → end_of w + calculateDataSize (Z.of_nat (length data)) ≤ off_max →
  ts_counter t < 2 ^ 16 - 1 ∨ ts_epoch t < fc_now w →
  ∃ w' it' r', add_data data (end_of w) it w = (w', Ret it') ∧ read_last (see w' r) = (r', Ret (end_of w)) ∧ rep r' (l ++ [(end_of w, data)]).
Proof.
  intros Hsh Hne Hroom Hc. destruct (share_append w r t l data it Hsh Hne Hroom) as (w' & it' & m & d & p & j & E & _ & Es & Hp & Hr & Hst & Hi & Hn & Hnew).
  rewrite bool_decide_true in Hnew by done. pose proof (rep_ok _ _ Hr) as Hd. exists w', it', (con (loaded d m) d 26 j). split; [exact E|]. split.
  - unfold read_last, field. rewrite Es, (bind_Ret _ _ _ _ _ (prologue_stale m d p j Hd Hp Hst Hi Hnew)). do 2 f_equal. cbn.
    rewrite (rep_limits _ _ Hr). cbn [snd]. by rewrite last_pos_snoc.
  - exists (loaded d m), d, 26, j. split; [done|]. split; [lia|]. split; [done|]. split; [done|]. by apply loaded_mem_ok.
Qed.

(** With a full counter and the same second on the clock the other
    object is not told: [modified] answers no although the file stands for a
    longer list. *)
Theorem full_counter_hides_update w r t l data it :
  share w r t l → data ≠ [] → end_of w + calculateDataSize (Z.of_nat (length data)) ≤ off_max →
  ts_counter t = 2 ^ 16 - 1 → fc_now w ≤ ts_epoch t →
  ∃ w' it' r', add_data data (end_of w) it w = (w', Ret it') ∧ rep w' (l ++ [(end_of w, data)]) ∧ modified (see w' r) = (r', Ret false).
Proof.
  intros Hsh Hne Hroom Hc Hn. destruct (share_append w r t l data it Hsh Hne Hroom) as (w' & it' & m & d & p & j & E & Hw & Es & Hp & Hr & Hst & Hi & _ & Hnew).
  rewrite bool_decide_false in Hnew by lia. exists w', it', (con m d 26 j). split; [exact E|]. split; [exact Hw|].
  rewrite Es, modified_con; [by rewrite Hnew|apply Hr|done|done].
Qed.

(** ** On a concrete file *)
Lemma stamp_newer_exactly_witness :
  (ts_gtb (update_stamp 1000 (mkStamp 1000) (TStamp true 1000 7)) (TStamp true 1000 7) = true ↔ 7 < 2 ^ 16 - 1 ∨ 1000 < 1000).
Proof. apply (stamp_newer_exactly 1000 (mkStamp 1000) (TStamp true 1000 7)); vm_compute; split; discriminate || reflexivity. Defined.

(** An object that has just appended, twice over the file. *)
Lemma share_self c c' l data it :
  rep c l → data ≠ [] → end_of c + calculateDataSize (Z.of_nat (length data)) ≤ off_max → c' = (add_data data (end_of c) it c).1 →
  share c' c' (fc_stamp c') (l ++ [(end_of c, data)]).
Proof.
  intros (m & d & p & j & -> & Hp & Hr & Hst & Hm) Hne. rewrite (end_of_con _ _ _ _ (rep_ok _ _ Hr)). intros Hroom ->.
  destruct (append_full m d p j l Hp Hr Hst Hm data it) as (m' & d' & p' & j' & it' & E & _ & Hp' & Hr' & Hst' & Hm' & Hs' & Hs & _ & _);
    [destruct data; simpl; [done|lia]|done|].
  rewrite E. cbn [fst]. exists m', p', j', m', p', j', d'. split; [done|]. split; [done|]. split; [done|]. split; [done|]. split; [done|]. split; [done|].
  split; [done|]. split; [done|]. split; [|done]. cbn. congruence.
Qed.
Lemma later_stamp_rep c l t : rep c l → stamp_ok t → ts_gtb (fc_stamp c) t = false → rep (upd_stamp t c) l.
Proof.
  intros (m & d & p & j & -> & Hp & Hr & Hst & Hm) Ht Hg. exists (upd_stamp t m), d, p, j. split; [done|]. split; [done|]. split; [done|]. split; [done|].
  destruct Hm as [H1 H2 H3 H4 H5 H6 H7]. split; [exact H1|exact H2|exact H3|exact H4|exact H5|exact Ht|].
  cbn in Hg |- *. unfold ts_gtb in *. apply bool_decide_eq_false in Hg, H7. apply bool_decide_false. lia.
Qed.

Lemma queue2_share : share queue2 queue2 (fc_stamp queue2) [(391, of_string "ab"); (488, of_string "cde")].
Proof.
  rewrite <- queue1_end. apply (share_self queue1 queue2 [(391, of_string "ab")] (of_string "cde") nullIterator queue1_rep); [discriminate| |reflexivity].
  rewrite queue1_end. vm_compute. discriminate.
Qed.
Lemma reader_follows_writer_witness :
  ∃ w' it' r', add_data (of_string "x") (end_of queue2) nullIterator queue2 = (w', Ret it') ∧ read_last (see w' queue2) = (r', Ret (end_of queue2)) ∧
    rep r' [(391, of_string "ab"); (488, of_string "cde"); (end_of queue2, of_string "x")].
Proof.
  apply (reader_follows_writer queue2 queue2 (fc_stamp queue2) [(391, of_string "ab"); (488, of_string "cde")] (of_string "x") nullIterator queue2_share);
    [discriminate|rewrite queue2_end; vm_compute; discriminate|left; vm_compute; reflexivity].
Defined.

(** The same file after 65535 changes within a second. *)
Definition busy1 : FileContainer := upd_stamp (TStamp true 1000 65534) queue1.
Definition busy2 : FileContainer := (add_data (of_string "cde") (end_of busy1) nullIterator busy1).1.
Lemma busy1_end : end_of busy1 = 488.
Proof. by vm_compute. Qed.
Lemma busy1_rep : rep busy1 [(391, of_string "ab")].
Proof. apply later_stamp_rep; [apply queue1_rep|split; vm_compute; split; discriminate || reflexivity|vm_compute; reflexivity]. Qed.
Lemma busy2_share : share busy2 busy2 (fc_stamp busy2) [(391, of_string "ab"); (488, of_string "cde")].
Proof.
  rewrite <- busy1_end. apply (share_self busy1 busy2 [(391, of_string "ab")] (of_string "cde") nullIterator busy1_rep); [discriminate| |reflexivity].
  rewrite busy1_end. vm_compute. discriminate.
Qed.
Lemma full_counter_hides_update_witness :
  ∃ w' it' r', add_data (of_string "x") (end_of busy2) nullIterator busy2 = (w', Ret it') ∧
    rep w' [(391, of_string "ab"); (488, of_string "cde"); (end_of busy2, of_string "x")] ∧ modified (see w' busy2) = (r', Ret false).
Proof.
  apply (full_counter_hides_update busy2 busy2 (fc_stamp busy2) [(391, of_string "ab"); (488, of_string "cde")] (of_string "x") nullIterator busy2_share);
    [discriminate|vm_compute; discriminate|vm_compute; reflexivity|vm_compute; discriminate].
Defined.
