(* ===== verification/FileList.v ===== *)
(** * The file list

    Model of [jobsubmission/src/common/filelist.{h,cpp}] and
    [filelist_iterator.{h,cpp}]: iterators that carry the string they stand
    on, the sequence of strings kept in a container file, and the
    [FileList] template over it.

    The layer is written against [Container], the operations it calls on a
    container; [FileContainer] is the instance the program links.  A call
    that does not answer [all_good] dumps the container and throws, which is
    [Fail] here; an object under modification when an exception leaves it is
    not looked at again. *)

From S2P Require Import Prelude Digits Stream FileContainer.

(** ** What the list calls on its container *)

Class Container (C : Type) := {
  c_open : bytes → option bytes → bool → bool → M C iostatus_t unit;
  c_close : M C iostatus_t unit;
  c_add_data : bytes → Z → FileIterator → M C iostatus_t FileIterator;
  c_read_data : Z → FileIterator → M C iostatus_t (FileIterator * bytes);
  c_remove_data : Z → M C iostatus_t unit;
  c_increment : FileIterator → M C iostatus_t FileIterator;
  c_decrement : FileIterator → M C iostatus_t FileIterator;
  c_get_iterator : Z → FileIterator → M C iostatus_t FileIterator;
  c_truncate : M C iostatus_t unit;
  c_compact : M C iostatus_t unit;
  c_sync : M C iostatus_t unit;
  c_modified : M C iostatus_t bool;
  c_read_size : M C iostatus_t Z;
  c_read_begin : M C iostatus_t Z;
  c_read_end : M C iostatus_t Z;
  c_read_last : M C iostatus_t Z;
  c_dump : M C iostatus_t unit
}.

#[export] Instance FileContainer_Container : Container FileContainer := {
  c_open := open;
  c_close := close;
  c_add_data := add_data;
  c_read_data := λ where_ it, read_data where_ it false;
  c_remove_data := remove_data;
  c_increment := increment_iterator;
  c_decrement := decrement_iterator;
  c_get_iterator := get_iterator;
  c_truncate := truncate;
  c_compact := compact_data;
  c_sync := sync_container;
  c_modified := modified;
  c_read_size := read_size;
  c_read_begin := read_begin;
  c_read_end := read_end;
  c_read_last := read_last;
  c_dump := dumpFile
}.

(** [FileContainer::start()] *)
Definition start : Z := 0.

(** ** Iterators ([_base_iterator_t])

    [bi_container] is the address of the container, [None] for [NULL].  The
    state of an operation is the container it points to. *)
Record base_iterator := BIterator {
  bi_new : bool;
  bi_good : bool;
  bi_container : option nat;
  bi_iterator : FileIterator;
  bi_data : bytes
}.

Definition upd_good (g : bool) (b : base_iterator) : base_iterator :=
  BIterator (bi_new b) g (bi_container b) (bi_iterator b) (bi_data b).
Definition upd_iterator (it : FileIterator) (b : base_iterator) : base_iterator :=
  BIterator (bi_new b) (bi_good b) (bi_container b) it (bi_data b).

(** The constructors: without arguments, by copy, and for a sequence. *)
Definition bi_null : base_iterator := BIterator true false None nullIterator [].
Definition bi_copy (bi : base_iterator) : base_iterator :=
  BIterator true (bi_good bi) (bi_container bi) (bi_iterator bi) (bi_data bi).
Definition bi_of_sequence (addr : nat) : base_iterator := BIterator true false (Some addr) nullIterator [].

Definition position (b : base_iterator) : Z := fi_current (bi_iterator b).
Definition is_equal (a b : base_iterator) : bool :=
  bool_decide (bi_container a = bi_container b) && bool_decide (position a = position b).
Definition is_different (a b : base_iterator) : bool :=
  bool_decide (bi_container a ≠ bi_container b) || bool_decide (position a ≠ position b).

Section iterator_ops.
Context {C : Type} `{Container C}.

(** [if( status != all_good ) throwErrorAndDumpFile(...)] *)
Definition or_throw {A} (m : M C iostatus_t A) : M C iostatus_t A := catch m (λ e, c_dump;; fail e).

Definition check_status (b : base_iterator) : M C iostatus_t unit :=
  if bi_good b then mret tt
  else match bi_container b with
       | Some _ => c_dump;; fail unavailable_position
       | None => stuck
       end.

Definition read_string (check : bool) (b : base_iterator) : M C iostatus_t base_iterator :=
  match bi_container b with
  | Some _ =>
      end_ ← or_throw c_read_end;
      if negb check && bool_decide (position b = end_) then
        mret (BIterator true false (bi_container b) (bi_iterator b) [])
      else
        r ← or_throw (c_read_data (position b) (bi_iterator b));
        mret (BIterator true true (bi_container b) r.1 r.2)
  | None => mret (upd_good false b)
  end.

Definition increment (b : base_iterator) : M C iostatus_t base_iterator :=
  match bi_container b with
  | Some _ => it ← or_throw (c_increment (bi_iterator b)); mret (upd_iterator it b)
  | None => stuck
  end.
Definition decrement (b : base_iterator) : M C iostatus_t base_iterator :=
  match bi_container b with
  | Some _ => it ← or_throw (c_decrement (bi_iterator b)); mret (upd_iterator it b)
  | None => stuck
  end.
End iterator_ops.

(** ** The sequence ([_file_sequence_t])

    [fs_last] is the iterator that the private operations hand out by
    reference.  Its container is the one of the sequence. *)
Record file_sequence (C : Type) := Sequence {
  fs_addr : nat;
  fs_container : C;
  fs_last : base_iterator
}.
Arguments Sequence {C}.
Arguments fs_addr {C}.
Arguments fs_container {C}.
Arguments fs_last {C}.

(** Code of the list layer. *)
Abbreviation FL C := (M (file_sequence C) iostatus_t).

Definition new_sequence {C} (addr : nat) (c : C) : file_sequence C := Sequence addr c (bi_of_sequence addr).

Section sequence.
Context {C : Type} `{Container C}.
(** A call on [this->fs_container]. *)
Definition on_container {A} (m : M C iostatus_t A) : FL C A := λ s,
  let '(c, r) := m (fs_container s) in (Sequence (fs_addr s) c (fs_last s), r).
Definition call {A} (m : M C iostatus_t A) : FL C A := on_container (or_throw m).
Definition get_last : FL C base_iterator := λ s, (s, Ret (fs_last s)).
Definition set_last (b : base_iterator) : FL C unit := λ s, (Sequence (fs_addr s) (fs_container s) b, Ret tt).
Definition set_last_iterator (it : FileIterator) : FL C unit := b ← get_last; set_last (upd_iterator it b).
Definition set_last_good (g : bool) : FL C unit := b ← get_last; set_last (upd_good g b).

Definition insertData (pos : base_iterator) (val : bytes) : FL C base_iterator :=
  b ← get_last;
  it ← call (c_add_data val (position pos) (bi_iterator b));
  set_last_iterator it;;
  get_last.

Definition erasePointer (pos : base_iterator) : FL C base_iterator :=
  call c_read_end;;
  iter ← call (c_get_iterator (position pos) nullIterator);
  iter ← call (c_increment iter);
  call (c_remove_data (position pos));;
  size ← call c_read_size;
  b ← get_last;
  (if bool_decide (size ≠ 0) then
     it ← call (c_get_iterator (fi_current iter) (bi_iterator b));
     set_last_iterator it
   else
     end_ ← call c_read_end;
     it ← call (c_get_iterator end_ (bi_iterator b));
     set_last_iterator it);;
  get_last.

(** The two [do ... while] loops; one unit of fuel per round. *)
Fixpoint erase_loop (fuel : nat) (last : Z) (iter : FileIterator) : FL C FileIterator :=
  match fuel with
  | O => stuck
  | S f =>
      iter ← call (c_get_iterator (fi_current iter) iter);
      call (c_remove_data (fi_current iter));;
      iter ← call (c_increment iter);
      end_ ← call c_read_end;
      if bool_decide (fi_current iter ≠ last) && bool_decide (fi_current iter ≠ end_)
      then erase_loop f last iter else mret iter
  end.
Definition eraseInterval (fuel : nat) (first last : base_iterator) : FL C base_iterator :=
  iter ← erase_loop fuel (position last) (bi_iterator first);
  set_last_iterator iter;;
  get_last.

Fixpoint remove_loop (fuel : nat) (value : bytes) (iter : FileIterator) : FL C unit :=
  match fuel with
  | O => stuck
  | S f =>
      r ← call (c_read_data (fi_current iter) iter);
      let '(iter, data) := r in
      (if bool_decide (data = value) then call (c_remove_data (fi_current iter)) else mret tt);;
      iter ← call (c_increment iter);
      end_ ← call c_read_end;
      if bool_decide (fi_current iter ≠ end_) then remove_loop f value iter else mret tt
  end.
Definition removeData (fuel : nat) (value : bytes) : FL C unit :=
  begin_ ← call c_read_begin;
  iter ← call (c_get_iterator begin_ nullIterator);
  remove_loop fuel value iter.

Definition getBegin : FL C base_iterator :=
  begin_ ← call c_read_begin;
  end_ ← call c_read_end;
  b ← get_last;
  it ← call (c_get_iterator begin_ (bi_iterator b));
  set_last_iterator it;;
  set_last_good (bool_decide (begin_ ≠ end_));;
  get_last.
Definition getEnd : FL C base_iterator :=
  end_ ← call c_read_end;
  b ← get_last;
  it ← call (c_get_iterator end_ (bi_iterator b));
  set_last_iterator it;;
  set_last_good false;;
  get_last.
Definition getStart : FL C base_iterator :=
  end_ ← call c_read_end;
  b ← get_last;
  it ← call (c_get_iterator start (bi_iterator b));
  set_last_iterator it;;
  set_last_good (bool_decide (start ≠ end_));;
  get_last.
Definition getLast : FL C base_iterator :=
  end_ ← call c_read_end;
  last ← call c_read_last;
  b ← get_last;
  it ← call (c_get_iterator last (bi_iterator b));
  set_last_iterator it;;
  set_last_good (bool_decide (last ≠ end_));;
  get_last.

Definition fs_clear : FL C unit := call c_truncate.
Definition fs_sync : FL C unit := call c_sync.
Definition fs_compact : FL C unit := call c_compact.
Definition fs_modified : FL C bool := call c_modified.
Definition fs_size : FL C Z := call c_read_size.
Definition fs_empty : FL C bool :=
  begin_ ← call c_read_begin;
  end_ ← call c_read_end;
  mret (bool_decide (begin_ = end_)).
Definition fs_close : FL C unit := on_container c_close.
Definition fs_open (filename : bytes) (contents : option bytes) (permitted broken : bool) : FL C unit :=
  call (c_close;; c_open filename contents permitted broken).

(** The reading loops of [swapContainer], up to the iterator [end_]. *)
Fixpoint collect (fuel : nat) (it end_ : base_iterator) (acc : list bytes) : FL C (list bytes) :=
  match fuel with
  | O => stuck
  | S f =>
      if is_different it end_ then
        it ← on_container (read_string true it);
        it' ← on_container (increment it);
        collect f it' end_ (acc ++ [bi_data it])
      else mret acc
  end.
Definition contents_of (fuel : nat) : FL C (list bytes) :=
  end_ ← getEnd;
  it ← getBegin;
  collect fuel it end_ [].
Fixpoint append_all (vs : list bytes) : FL C unit :=
  match vs with
  | [] => mret tt
  | v :: vs => e ← getEnd; insertData e v;; append_all vs
  end.
End sequence.

(** [swapContainer] works on two sequences; swapping one with itself does
    nothing. *)
Section swap.
Context {C : Type} `{Container C}.
Definition pair_state : Type := (file_sequence C * file_sequence C)%type.
Definition on_this {A} (m : FL C A) : M pair_state iostatus_t A := λ '(s, o),
  let '(s', r) := m s in ((s', o), r).
Definition on_other {A} (m : FL C A) : M pair_state iostatus_t A := λ '(s, o),
  let '(o', r) := m o in ((s, o'), r).
Definition swapContainer (fuel : nat) : M pair_state iostatus_t unit :=
  st ← get_st;
  if bool_decide (fs_addr st.2 = fs_addr st.1) then mret tt
  else
    me ← on_this (contents_of fuel);
    you ← on_other (contents_of fuel);
    on_this fs_clear;; on_other fs_clear;;
    on_other (append_all me);;
    on_this (append_all you).
End swap.

(** ** The template [FileList<Type, Converter>]

    A converter turns values into strings and back; either way can fail.
    [StdConverter<Type>] wraps [boost::lexical_cast] this way. *)
Class Converter (T : Type) := {
  to_string : T → option bytes;
  from_string : bytes → option T
}.

(** The specialisations for [std::string] use the string itself. *)
#[export] Instance string_converter : Converter bytes := { to_string := Some; from_string := Some }.

Record FLIterator (T : Type) := FLI { fli_base : base_iterator; fli_object : option T }.
Arguments FLI {T}.
Arguments fli_base {T}.
Arguments fli_object {T}.

Section filelist.
Context {C : Type} `{Container C} {T : Type} `{Converter T}.

Definition converted {S A} (r : option A) (e : iostatus_t) : M S iostatus_t A :=
  match r with Some a => mret a | None => fail e end.
Definition convert_to {S} (x : T) : M S iostatus_t bytes := converted (to_string x) cannot_convert_to_string.
Definition convert_from {S} (d : bytes) : M S iostatus_t T := converted (from_string d) cannot_convert_from_string.

(** [iterator( _base_iterator_t & )] *)
Definition fli_of_base (b : base_iterator) : FL C (FLIterator T) :=
  b ← on_container (read_string false (bi_copy b)); mret (FLI b None).
(** [operator*]: the value, and the iterator that has cached it. *)
Definition fli_deref (i : FLIterator T) : FL C (T * FLIterator T) :=
  on_container (check_status (fli_base i));;
  let b := fli_base i in
  if bi_new b then
    x ← convert_from (bi_data b);
    mret (x, FLI (BIterator false (bi_good b) (bi_container b) (bi_iterator b) (bi_data b)) (Some x))
  else match fli_object i with
       | Some x => mret (x, i)
       | None => stuck
       end.
(** [operator++] and [operator--], prefix. *)
Definition fli_incr (i : FLIterator T) : FL C (FLIterator T) :=
  b ← on_container (increment (fli_base i));
  b ← on_container (read_string false b);
  mret (FLI b (fli_object i)).
Definition fli_decr (i : FLIterator T) : FL C (FLIterator T) :=
  b ← on_container (decrement (fli_base i));
  b ← on_container (read_string false b);
  mret (FLI b (fli_object i)).

Definition begin_ : FL C (FLIterator T) := b ← getBegin; fli_of_base b.
Definition end_ : FL C (FLIterator T) := b ← getEnd; fli_of_base b.
Definition front : FL C T := i ← begin_; r ← fli_deref i; mret r.1.
Definition back : FL C T := i ← end_; i ← fli_decr i; r ← fli_deref i; mret r.1.

Definition push_front (x : T) : FL C unit := b ← getBegin; d ← convert_to x; insertData b d;; mret tt.
Definition push_back (x : T) : FL C unit := b ← getEnd; d ← convert_to x; insertData b d;; mret tt.
Definition pop_front : FL C unit := b ← getBegin; erasePointer b;; mret tt.
(** [getEnd().decrement()] moves [fs_last] itself. *)
Definition pop_back : FL C unit :=
  b ← getEnd;
  b ← on_container (decrement b);
  set_last b;;
  erasePointer b;; mret tt.

Definition insert (pos : FLIterator T) (x : T) : FL C (FLIterator T) :=
  d ← convert_to x; b ← insertData (fli_base pos) d; fli_of_base b.
Definition erase (pos : FLIterator T) : FL C (FLIterator T) :=
  b ← erasePointer (fli_base pos); fli_of_base b.
Definition erase_range (fuel : nat) (first last : FLIterator T) : FL C (FLIterator T) :=
  b ← eraseInterval fuel (fli_base first) (fli_base last); fli_of_base b.
Definition remove (fuel : nat) (x : T) : FL C unit := d ← convert_to x; removeData fuel d.

(** [insert( position, first, last )]: the position stays the same. *)
Fixpoint insert_each (at_end : bool) (pos : base_iterator) (xs : list T) : FL C unit :=
  match xs with
  | [] => mret tt
  | x :: xs =>
      b ← (if at_end then getEnd else mret pos);
      d ← convert_to x;
      insertData b d;;
      insert_each at_end pos xs
  end.
Definition insert_range (pos : FLIterator T) (xs : list T) : FL C unit :=
  getBegin;;
  e ← getEnd;
  insert_each (is_equal (fli_base pos) e) (fli_base pos) xs.
End filelist.
