(* ===== verification/ListContainer.v ===== *)
(** * The list a container promises to its clients

    [ListContainer] states what the list layer relies on: every operation
    returns, and does to a list of (offset, string) entries what its name
    says.  [FileContainer] is an instance: the laws are discharged by the
    theorems on the container file.  A container that has just been
    truncated still carries the status [ft_end]; the first check of the next
    operation settles it ([alike]). *)

From S2P Require Import Prelude Digits Stream FileContainer ContainerFields ContainerDisk ContainerCells ContainerList ContainerAdd.
From S2P Require Import ContainerInsert ContainerRead ContainerRemove ContainerCreate ContainerCompact FileList.

(** [at_pos e l1 l2 it]: the iterator stands between [l1] and [l2], on the
    first entry of [l2] or at the end [e]. *)
Definition at_pos (e : Z) (l1 l2 : list entry) (it : FileIterator) : Prop :=
  match l2 with
  | [] => fi_current it = e ∧ fi_prev it = 0 ∧ fi_next it = 0
  | (p, _) :: l2' => fi_current it = p ∧ fi_prev it = last_pos 0 l1 ∧ fi_next it = head_pos e l2'
  end.

Definition room (e : Z) (data : bytes) : Prop := e + calculateDataSize (Z.of_nat (length data)) ≤ off_max.

Class ListContainer (C : Type) `{Container C} := {
  holds : C → list entry → Prop;
  cend : C → Z;
  (** Where a read leaves the container. *)
  lc_read_end c l : holds c l → ∃ c', c_read_end c = (c', Ret (cend c)) ∧ holds c' l ∧ cend c' = cend c;
  lc_read_begin c l : holds c l → ∃ c', c_read_begin c = (c', Ret (head_pos (cend c) l)) ∧ holds c' l ∧ cend c' = cend c;
  lc_read_last c l : holds c l → ∃ c', c_read_last c = (c', Ret (last_pos (cend c) l)) ∧ holds c' l ∧ cend c' = cend c;
  lc_read_size c l : holds c l → ∃ c', c_read_size c = (c', Ret (Z.of_nat (length l))) ∧ holds c' l ∧ cend c' = cend c;
  lc_get c l1 l2 it : holds c (l1 ++ l2) →
    ∃ c' it', c_get_iterator (head_pos (cend c) l2) it c = (c', Ret it') ∧ at_pos (cend c) l1 l2 it' ∧
      holds c' (l1 ++ l2) ∧ cend c' = cend c;
  lc_increment c l1 ex l2 it : holds c (l1 ++ ex :: l2) → at_pos (cend c) l1 (ex :: l2) it →
    ∃ c' it', c_increment it c = (c', Ret it') ∧ at_pos (cend c) (l1 ++ [ex]) l2 it' ∧
      holds c' (l1 ++ ex :: l2) ∧ cend c' = cend c;
  lc_decrement c l1 ex l2 it : holds c (l1 ++ ex :: l2) → at_pos (cend c) (l1 ++ [ex]) l2 it →
    ∃ c' it', c_decrement it c = (c', Ret it') ∧ at_pos (cend c) l1 (ex :: l2) it' ∧
      holds c' (l1 ++ ex :: l2) ∧ cend c' = cend c;
  lc_read c l1 p x l2 it : holds c (l1 ++ (p, x) :: l2) →
    ∃ c' it', c_read_data p it c = (c', Ret (it', x)) ∧ at_pos (cend c) l1 ((p, x) :: l2) it' ∧
      holds c' (l1 ++ (p, x) :: l2) ∧ cend c' = cend c;
  lc_add c l1 l2 data it : holds c (l1 ++ l2) → data ≠ [] → room (cend c) data →
    ∃ c' it', c_add_data data (head_pos (cend c) l2) it c = (c', Ret it') ∧ fi_current it' = cend c ∧
      holds c' (l1 ++ (cend c, data) :: l2) ∧ cend c' = cend c + calculateDataSize (Z.of_nat (length data));
  (** An iterator on the removed element can still be moved on, unless the
      list is empty now. *)
  lc_remove c l1 p x l2 : holds c (l1 ++ (p, x) :: l2) →
    ∃ c', c_remove_data p c = (c', Ret tt) ∧ holds c' (l1 ++ l2) ∧ cend c' ≤ cend c ∧
      (l1 ++ l2 ≠ [] → cend c' = cend c ∧
        ∀ it, at_pos (cend c) l1 ((p, x) :: l2) it →
        ∃ c'' it', c_increment it c' = (c'', Ret it') ∧ at_pos (cend c) l1 l2 it' ∧ holds c'' (l1 ++ l2) ∧ cend c'' = cend c);
  lc_truncate c l : holds c l → ∃ c', c_truncate c = (c', Ret tt) ∧ holds c' [] ∧ cend c' = fc_s_headerSize;
  lc_compact c l : holds c l →
    ∃ c' l', c_compact c = (c', Ret tt) ∧ holds c' l' ∧ l'.*2 = l.*2 ∧ cend c' = fc_s_headerSize + list_bytes l.*2;
  lc_decrement_empty c it : holds c [] → at_pos (cend c) [] [] it →
    ∃ c' it', c_decrement it c = (c', Ret it') ∧ at_pos (cend c) [] [] it' ∧ holds c' [] ∧ cend c' = cend c;
  lc_dump c l : holds c l → ∃ c', c_dump c = (c', Ret tt) ∧ holds c' l ∧ cend c' = cend c;
  lc_fits c l : holds c l → fc_s_headerSize + list_bytes l.*2 ≤ cend c;
  lc_below c l p : holds c l → p ∈ l.*1 → 0 < p < cend c;
  lc_room c l : holds c l → cend c ≤ off_max;
  lc_data c l : holds c l → Forall (λ d, d ≠ []) l.*2
}.

(** ** [FileContainer] *)

(** A dump only moves the cursor. *)
Lemma dumpFile_con m d p j :
  disk_ok d → dumpFile (con m d p j) = (con m d (disk_end d) j, Ret tt).
Proof.
  intros Hd. unfold dumpFile. rewrite bind_field.
  erewrite bind_Ret by (apply catch_Ret; unfold backupFile, con; go; reflexivity).
  erewrite bind_Ret; [reflexivity|]. apply catch_Ret. unfold dump_status. rewrite bind_assoc. recon.
  by rewrite (bind_Ret _ _ _ _ _ (getEnd_con m d 0 j Hd)).
Qed.

(** Two containers whose next operation is the same. *)
Record alike (c c1 : FileContainer) : Prop := {
  al_end : end_of c = end_of c1;
  al_prologue r : prologue r c = prologue r c1;
  al_end_prologue b : end_after_prologue b c = end_after_prologue b c1;
  al_size : read_size c = read_size c1;
  al_truncate : truncate c = truncate c1;
  al_compact : compact_data c = compact_data c1
}.

Lemma alike_refl c : alike c c.
Proof. by split. Qed.

Lemma bind_same {S E A B} (m : M S E A) (k : A → M S E B) s s' : m s = m s' → (m ≫= k) s = (m ≫= k) s'.
Proof. intros H. unfold mbind, M_bind. by rewrite H. Qed.

Section alike_ops.
Context (c c1 : FileContainer) (Ha : alike c c1).
Ltac same := apply bind_same; first [apply (al_prologue _ _ Ha)|apply (al_end_prologue _ _ Ha)].
Lemma al_add x w it : add_data x w it c = add_data x w it c1.
Proof. same. Qed.
Lemma al_read w it b : read_data w it b c = read_data w it b c1.
Proof. same. Qed.
Lemma al_remove w : remove_data w c = remove_data w c1.
Proof. same. Qed.
Lemma al_increment it : increment_iterator it c = increment_iterator it c1.
Proof. same. Qed.
Lemma al_decrement it : decrement_iterator it c = decrement_iterator it c1.
Proof. same. Qed.
Lemma al_get w it : get_iterator w it c = get_iterator w it c1.
Proof. same. Qed.
Lemma al_read_end : read_end c = read_end c1.
Proof. same. Qed.
Lemma al_read_begin : read_begin c = read_begin c1.
Proof. same. Qed.
Lemma al_read_last : read_last c = read_last c1.
Proof. same. Qed.
End alike_ops.

(** A container that stands for [l], settled or not. *)
Definition ready (c : FileContainer) (l : list entry) : Prop :=
  ∃ m d p j, c = con m d p j ∧ 0 ≤ p ∧ repr d l ∧ (h_status (d_header d) = closed ∨ h_status (d_header d) = ft_end) ∧ mem_ok m d.

Lemma rep_ready c l : rep c l → ready c l.
Proof. intros (m & d & p & j & -> & Hp & Hr & Hst & Hm). do 4 eexists. split; [reflexivity|]. auto 10. Qed.
#[export] Hint Resolve rep_ready : wms.

Lemma with_status_repr s d l : repr d l → repr (with_status s d) l.
Proof.
  intros Hr. destruct Hr as [? ? ? ? Hch ? ? ?]. split; [by apply with_status_ok|done|done|done| |done|done|done].
  by eapply chain_ext, Hch.
Qed.

Lemma moved_end c c' l : rep c l → moved c c' → end_of c' = end_of c.
Proof. intros _ (m & d & p & p' & j & _ & _ & -> & ->). done. Qed.

(** The reads that only need the prologue. *)
Section rep_reads.
Context (m : FileContainer) (d : disk) (p : Z) (j : list bytes) (l : list entry) (Hp : 0 ≤ p).
Context (Hr : repr d l) (Hst : h_status (d_header d) = closed) (Hm : mem_ok m d).
Let Hd := rep_ok _ _ Hr.

Lemma read_end_con : read_end (con m d p j) = (con m d (disk_end d) j, Ret (disk_end d)).
Proof. unfold read_end. erewrite bind_Ret by by apply prologue_closed. by apply getEnd_con. Qed.
Lemma read_begin_con : read_begin (con m d p j) = (con m d 26 j, Ret (head_pos (disk_end d) l)).
Proof.
  unfold read_begin, FileContainer.getBegin, field. erewrite bind_Ret by by apply prologue_closed. cbn [con upd_stream fc_limits]. recon.
  rewrite (mem_prev _ _ Hm), (rep_limits _ _ Hr). cbn [fst]. do 2 f_equal. destruct (decide (l = [])) as [El|El].
  - rewrite (empty_end _ _ Hr El), El. done.
  - by apply head_pos_ne.
Qed.
Lemma read_last_con : read_last (con m d p j) = (con m d 26 j, Ret (last_pos (disk_end d) l)).
Proof.
  unfold read_last, field. erewrite bind_Ret by by apply prologue_closed. cbn [con upd_stream fc_limits]. recon.
  rewrite (mem_next _ _ Hm), (rep_limits _ _ Hr). cbn [snd]. do 2 f_equal. destruct (decide (l = [])) as [El|El].
  - rewrite (empty_end _ _ Hr El), El. done.
  - by apply last_pos_ne.
Qed.
End rep_reads.

(** Over container objects at rest. *)
Section rep_laws.
Context (c : FileContainer).

Lemma read_end_rep l : rep c l → ∃ c', read_end c = (c', Ret (end_of c)) ∧ moved c c'.
Proof.
  intros (m & d & p & j & -> & Hp & Hr & Hst & Hm). rewrite (end_of_con _ _ _ _ (rep_ok _ _ Hr)).
  eexists. split; [by eapply read_end_con|]. apply moved_con; auto with wms.
Qed.
Lemma read_begin_rep l : rep c l → ∃ c', read_begin c = (c', Ret (head_pos (end_of c) l)) ∧ moved c c'.
Proof.
  intros (m & d & p & j & -> & Hp & Hr & Hst & Hm). rewrite (end_of_con _ _ _ _ (rep_ok _ _ Hr)).
  eexists. split; [by eapply read_begin_con|]. by apply moved_con.
Qed.
Lemma read_last_rep l : rep c l → ∃ c', read_last c = (c', Ret (last_pos (end_of c) l)) ∧ moved c c'.
Proof.
  intros (m & d & p & j & -> & Hp & Hr & Hst & Hm). rewrite (end_of_con _ _ _ _ (rep_ok _ _ Hr)).
  eexists. split; [by eapply read_last_con|]. by apply moved_con.
Qed.
Lemma read_size_rep l : rep c l → ∃ c', read_size c = (c', Ret (Z.of_nat (length l))) ∧ moved c c'.
Proof.
  intros (m & d & p & j & -> & Hp & Hr & Hst & Hm). destruct (read_size_con m d p j l Hr Hst Hm) as (p' & E & Hp').
  eexists. split; [exact E|]. by apply moved_con.
Qed.
Lemma get_rep l1 l2 it : rep c (l1 ++ l2) →
  ∃ c' it', get_iterator (head_pos (end_of c) l2) it c = (c', Ret it') ∧ at_pos (end_of c) l1 l2 it' ∧ moved c c'.
Proof.
  intros (m & d & p & j & -> & Hp & Hr & Hst & Hm). rewrite (end_of_con _ _ _ _ (rep_ok _ _ Hr)).
  unfold get_iterator, get_iterator_gen. erewrite bind_Ret by (apply prologue_closed; [apply Hr|done|done|done]).
  destruct l2 as [|[w x] l2]; cbn [head_pos at_pos].
  - rewrite readIterator_end by apply Hr. do 2 eexists. split; [done|]. split; [done|]. apply moved_con; auto with wms.
  - destruct (chain_mid _ _ _ _ _ _ _ (rep_chain _ _ Hr)) as (b & Hb & H1 & H2 & _).
    rewrite (readIterator_cell d (rep_ok _ _ Hr) m j w b Hb). do 2 eexists. split; [done|]. split; [done|].
    pose proof (cell_at_lt _ _ _ Hb). unfold fc_s_headerSize in *. apply moved_con; lia.
Qed.
(** The links of the iterator are used, and its position; the flag is not. *)
Lemma increment_at l1 q y l2 it : rep c (l1 ++ (q, y) :: l2) → at_pos (end_of c) l1 ((q, y) :: l2) it →
  ∃ c' it', increment_iterator it c = (c', Ret it') ∧ at_pos (end_of c) (l1 ++ [(q, y)]) l2 it' ∧ moved c c'.
Proof.
  intros (m & d & p & j & -> & Hp & Hr & Hst & Hm) (H1 & H2 & H3). rewrite (end_of_con _ _ _ _ (rep_ok _ _ Hr)) in *.
  pose proof (rep_chain _ _ Hr) as Hch. apply chain_app in Hch as [_ [(b & Hb & Hb1 & Hb2 & _) Hch]].
  pose proof (cell_at_lt _ _ _ Hb) as Hlt. unfold fc_s_headerSize in *. destruct l2 as [|[w x] l2].
  - do 2 eexists. split; [apply (increment_last_con m d p j _ Hp Hr Hst Hm it); [lia|done]|]. split; [done|]. by apply moved_con.
  - destruct Hch as [(c' & Hc & Hc1 & Hc2 & _) _]. simpl in Hb2, H3. assert (w = c_next b) as -> by done.
    pose proof (cell_at_lt _ _ _ Hc). unfold fc_s_headerSize in *.
    do 2 eexists. split; [apply (increment_next_con m d p j _ Hp Hr Hst Hm q b c' it Hb H1 H3 Hc)|]. cbn [at_pos fi_current fi_prev fi_next].
    rewrite last_pos_snoc. split; [done|]. apply moved_con; lia.
Qed.
Lemma decrement_at l1 q y l2 it : rep c (l1 ++ (q, y) :: l2) → at_pos (end_of c) (l1 ++ [(q, y)]) l2 it →
  ∃ c' it', decrement_iterator it c = (c', Ret it') ∧ at_pos (end_of c) l1 ((q, y) :: l2) it' ∧ moved c c'.
Proof.
  intros Hrep Hat. destruct l2 as [|[w x] l2].
  { destruct (decrement_last_rep c l1 q y it Hrep) as (c' & E & Hv); [apply Hat|]. do 2 eexists. split; [exact E|]. by split. }
  destruct Hrep as (m & d & p & j & -> & Hp & Hr & Hst & Hm). rewrite (end_of_con _ _ _ _ (rep_ok _ _ Hr)) in *.
  destruct Hat as (H1 & H2 & H3). rewrite last_pos_snoc in H2.
  pose proof (rep_chain _ _ Hr) as Hch. apply chain_app in Hch as [_ [(b & Hb & Hb1 & Hb2 & _) [(c' & Hc & Hc1 & Hc2 & _) _]]].
  pose proof (cell_at_lt _ _ _ Hb). unfold fc_s_headerSize in *.
  do 2 eexists. split.
  { erewrite (decrement_con m d p j _ Hp Hr Hst Hm w c' it); [|done|done|by rewrite H2, Hc1|rewrite Hc1; by eexists].
    rewrite Hc1, Hb. reflexivity. }
  split; [by cbn; rewrite Hb1, Hb2|]. apply moved_con; lia.
Qed.
Lemma decrement_empty_rep it : rep c [] → fi_current it = end_of c →
  ∃ c' it', decrement_iterator it c = (c', Ret it') ∧ at_pos (end_of c) [] [] it' ∧ moved c c'.
Proof.
  intros (m & d & p & j & -> & Hp & Hr & Hst & Hm). pose proof (rep_ok _ _ Hr) as Hd. rewrite (end_of_con _ _ _ _ Hd). intros Hcur.
  unfold decrement_iterator, decrement_iterator_gen. rewrite (bind_Ret _ _ _ _ _ (prologue_closed m d p j Hd Hp Hst Hm _)).
  rewrite (bind_Ret _ _ _ _ _ (getEnd_con m d 26 j Hd)). rewrite bool_decide_true by exact Hcur.
  rewrite bind_field. cbn [con upd_stream fc_limits]. recon. rewrite (mem_next _ _ Hm), (rep_limits _ _ Hr). cbn [snd last_pos].
  rewrite <- (empty_end _ _ Hr eq_refl). rewrite readIterator_end by done. do 2 eexists. split; [done|]. split; [done|].
  apply moved_con; auto with wms.
Qed.
End rep_laws.

(** Moving on from an element that has just been removed: its record has
    kept its links. *)
Lemma increment_erased c l1 w x l2 it :
  erased c (l1 ++ l2) w (last_pos 0 l1) (head_pos (end_of c) l2) → at_pos (end_of c) l1 ((w, x) :: l2) it →
  ∃ c' it', increment_iterator it c = (c', Ret it') ∧ at_pos (end_of c) l1 l2 it' ∧ moved c c'.
Proof.
  intros (m & d & p & j & b & -> & Hp & Hr & Hst & Hm & Hbd & Hb1 & Hb2) (H1 & H2 & H3).
  rewrite (end_of_con _ _ _ _ (rep_ok _ _ Hr)) in *.
  pose proof (cell_at_lt _ _ _ Hbd) as Hlt. unfold fc_s_headerSize in *. destruct l2 as [|[q y] l2].
  - do 2 eexists. split; [apply (increment_last_con m d p j _ Hp Hr Hst Hm it); [lia|done]|]. split; [done|]. by apply moved_con.
  - pose proof (rep_chain _ _ Hr) as Hch. apply chain_app in Hch as [_ [(c' & Hc & Hc1 & Hc2 & _) _]].
    simpl in Hb2, H3. assert (q = c_next b) as -> by done. pose proof (cell_at_lt _ _ _ Hc). unfold fc_s_headerSize in *.
    do 2 eexists. split; [apply (increment_next_con m d p j _ Hp Hr Hst Hm w b c' it Hbd H1 H3 Hc)|].
    split; [done|]. apply moved_con; lia.
Qed.

(** ** A container after [truncate] *)

Lemma check_modified_con m d p j :
  disk_ok d → 0 ≤ p → mem_ok m d → check_modified (con m d p j) = (con m d 26 j, Ret tt).
Proof.
  intros Hd Hp Hm. unfold check_modified. erewrite bind_Ret by by apply checkStamp_con.
  match goal with |- (if ?b then _ else _) _ = _ => change b with (ts_gtb (h_stamp (d_header d)) (fc_stamp m)) end.
  by rewrite (mem_fresh _ _ Hm).
Qed.

Section settle.
Context (m : FileContainer) (d : disk) (p : Z) (j : list bytes) (Hp : 0 ≤ p) (Hd : disk_ok d).
Context (Hst : h_status (d_header d) = ft_end) (Hm : mem_ok m d).
Let mb := upd_bak (Some (disk_bytes d)) m.
Let dc := with_status closed (with_status closed d).
Let j' := (j ++ [disk_bytes (with_status closed d)]) ++ [disk_bytes dc].

Lemma checkStreamAndStamp_ft_end : checkStreamAndStamp (con m d p j) = (con mb dc 26 j', Ret tt).
Proof.
  assert (∀ q (k : filestatus_t → FC unit), 0 ≤ q →
    (checkStream_only ≫= k) (con m d q j) = k ft_end (con m d q j)) as Hck.
  { intros q k Hq. unfold checkStream_only. rewrite bind_assoc, bind_field.
    cbn [stream_down con upd_stream fc_stream bad f_bad at_]. erewrite bind_Ret by by apply readFileStatus_con. by rewrite Hst. }
  unfold checkStreamAndStamp, checkStream. rewrite bind_assoc, Hck by done. rewrite bool_decide_true by done.
  unfold recover_data. rewrite bind_assoc, bind_field. cbn [con upd_stream fc_initialized]. recon.
  rewrite (mem_init _ _ Hm), bind_assoc.
  erewrite bind_Ret.
  2: { apply catch_Ret. rewrite Hck by done. by apply check_modified_con. }
  unfold recover_unchecked. rewrite bind_assoc, (bind_Ret _ _ _ _ _ (backupFile_con _ _ _ _)). fold mb.
  rewrite bool_decide_false by done. rewrite bind_assoc, bind_mret, bind_assoc. unfold con at 1. rewrite bind_on. recon.
  cbn [recover_switch]. rewrite bind_assoc.
  erewrite bind_Ret by (by apply (writeFileStatus_con d Hd)).
  rewrite bool_decide_true by done.
  erewrite bind_Ret by (apply writeFileStatus_con; [by apply with_status_ok|done]).
  apply check_modified_con; [by apply with_status_ok, with_status_ok|done|]. destruct Hm; by split.
Qed.
End settle.

(** It is like the container the recovery leaves. *)
Lemma ft_end_alike m d p j :
  0 ≤ p → disk_ok d → h_status (d_header d) = ft_end → mem_ok m d → ∃ j',
  alike (con m d p j) (con (upd_bak (Some (disk_bytes d)) m) (with_status closed (with_status closed d)) 26 j').
Proof.
  intros Hp Hd Hst Hm. set (mb := upd_bak _ m). set (dc := with_status closed _).
  assert (disk_ok dc) as Hdc by (by apply with_status_ok, with_status_ok).
  assert (mem_ok mb dc) as Hmb by (destruct Hm; by split). eexists ((j ++ [disk_bytes (with_status closed d)]) ++ [disk_bytes dc]). set (j' := _ ++ [_]).
  pose proof (mem_init _ _ Hm) as Hi. pose proof (mem_init _ _ Hmb) as Hi'.
  assert (∀ q, 0 ≤ q → checkStreamAndStamp (con m d q j) = (con mb dc 26 j', Ret tt)) as H1
    by (intros; by apply checkStreamAndStamp_ft_end).
  assert (∀ q, 0 ≤ q → checkStreamAndStamp (con mb dc q j') = (con mb dc 26 j', Ret tt)) as H2
    by (intros; by apply checkStreamAndStamp_closed).
  pose proof (getEnd_con m d p j Hd) as E1. pose proof (getEnd_con mb dc 26 j' Hdc) as E2.
  change (disk_end dc) with (disk_end d) in E2. pose proof (disk_end_ge0 d) as He.
  assert (∀ h, on_modified checkStreamAndStamp h (con m d p j) = on_modified checkStreamAndStamp h (con mb dc 26 j')) as H3.
  { intros h. unfold on_modified, catch. by rewrite H1, H2 by done. }
  assert (∀ h, on_modified checkStreamAndStamp h (con m d (disk_end d) j) = on_modified checkStreamAndStamp h (con mb dc (disk_end d) j')) as H4.
  { intros h. unfold on_modified, catch. by rewrite H1, H2 by done. }
  split.
  - by rewrite !end_of_con.
  - intros r. unfold prologue. rewrite !bind_field. cbn [con upd_stream fc_initialized]. rewrite Hi, Hi'. apply H3.
  - intros b. unfold end_after_prologue. rewrite (bind_Ret _ _ _ _ _ E1), (bind_Ret _ _ _ _ _ E2), !bind_field.
    cbn [con upd_stream fc_initialized]. rewrite Hi, Hi'. recon. unfold on_modified, catch.
    by rewrite (bind_Ret _ _ _ _ _ (H1 _ He)), (bind_Ret _ _ _ _ _ (H2 _ He)).
  - unfold read_size. rewrite (bind_Ret _ _ _ _ _ E1), (bind_Ret _ _ _ _ _ E2), !bind_field.
    cbn [con upd_stream fc_initialized]. rewrite Hi, Hi'. recon. apply bind_same. unfold attempt, catch.
    by rewrite !bind_assoc, (bind_Ret _ _ _ _ _ (H1 _ He)), (bind_Ret _ _ _ _ _ (H2 _ He)).
  - unfold truncate. rewrite !bind_field. cbn [con upd_stream fc_initialized]. rewrite Hi, Hi'. recon.
    apply bind_same. by rewrite H1, H2.
  - unfold compact_data. rewrite !bind_field. cbn [con upd_stream fc_initialized]. rewrite Hi, Hi', !bind_mret. recon.
    apply bind_same. unfold fillVector. rewrite (bind_Ret _ _ _ _ _ E1), (bind_Ret _ _ _ _ _ E2).
    apply bind_same, H4.
Qed.

Lemma ready_alike c l : ready c l → ∃ c1, rep c1 l ∧ alike c c1.
Proof.
  intros (m & d & p & j & -> & Hp & Hr & [Hst|Hst] & Hm).
  - exists (con m d p j). split; [by do 4 eexists|apply alike_refl].
  - destruct (ft_end_alike m d p j Hp (rep_ok _ _ Hr) Hst Hm) as [j' Ha]. eexists. split; [|exact Ha].
    do 4 eexists. split; [reflexivity|]. split; [lia|]. split; [by apply with_status_repr, with_status_repr|].
    split; [reflexivity|destruct Hm; by split].
Qed.

Lemma truncate_rep c l : rep c l → ∃ c', truncate c = (c', Ret tt) ∧ ready c' [] ∧ end_of c' = fc_s_headerSize.
Proof.
  intros (m & d & p & j & -> & Hp & Hr & Hst & Hm). pose proof (rep_ok _ _ Hr) as Hd. unfold truncate.
  rewrite bind_field. cbn [con upd_stream fc_initialized]. recon. rewrite (mem_init _ _ Hm).
  erewrite bind_Ret by by apply checkStreamAndStamp_closed.
  destruct (erase_all_con m d 26 j Hd ltac:(lia) (mem_now _ _ Hm)) as (p' & j' & E & Hp'). rewrite (bind_Ret _ _ _ _ _ E).
  set (t := mkStamp (fc_now m)). assert (stamp_ok t) as Ht by (split; [apply Hm|simpl; lia]).
  set (m' := upd_size 0 (created m)). set (d' := empty_disk t ft_end).
  pose proof (empty_disk_ok t ft_end Ht) as Hd'. fold d' in Hd'.
  assert (mem_ok m' d') as Hm'.
  { split; [apply (mem_init _ _ Hm)|reflexivity|reflexivity|reflexivity|apply (mem_now _ _ Hm)|exact Ht|apply ts_gtb_irrefl]. }
  exists (con m' d' p' j'). split; [done|]. split; [|by rewrite end_of_con].
  do 4 eexists. split; [reflexivity|]. split; [exact Hp'|]. split; [by apply repr_empty|]. split; [by right|exact Hm'].
Qed.

Lemma remove_law c l1 p x l2 :
  rep c (l1 ++ (p, x) :: l2) →
  ∃ c', remove_data p c = (c', Ret tt) ∧ ready c' (l1 ++ l2) ∧ end_of c' ≤ end_of c ∧
    (l1 ++ l2 ≠ [] → end_of c' = end_of c ∧
      ∀ it, at_pos (end_of c) l1 ((p, x) :: l2) it →
      ∃ c'' it', increment_iterator it c' = (c'', Ret it') ∧ at_pos (end_of c) l1 l2 it' ∧ ready c'' (l1 ++ l2) ∧ end_of c'' = end_of c).
Proof.
  intros (m & d & q & j & -> & Hq & Hr & Hst & Hm). rewrite (end_of_con _ _ _ _ (rep_ok _ _ Hr)).
  destruct (remove_rep m d q j Hq l1 p x l2 Hr Hst Hm) as (c' & E & H & _ & _ & He). exists c'. split; [exact E|].
  split; [by apply rep_ready|]. destruct (decide (l1 ++ l2 = [])) as [El|El].
  - split; [|done]. destruct H as (m' & d' & p' & j' & -> & _ & Hr' & _). rewrite (end_of_con _ _ _ _ (rep_ok _ _ Hr')).
    rewrite (empty_end _ _ Hr' El). apply disk_end_pos.
  - destruct (He El) as [Ee Her]. rewrite Ee. split; [done|]. intros _. split; [done|]. intros it Hat. rewrite <- Ee in Her, Hat |- *.
    destruct (increment_erased c' l1 p x l2 it Her Hat) as (c'' & it' & Hi & Hat' & Hv). exists c'', it'.
    split; [exact Hi|]. split; [exact Hat'|]. split; [eapply rep_ready, moved_rep; done|]. by eapply moved_end.
Qed.

(** A read of a container at rest is a read of any container like it. *)
Lemma ready_read c c1 c' l : rep c1 l → alike c c1 → moved c1 c' → ready c' l ∧ end_of c' = end_of c1.
Proof. intros Hr Ha Hv. split; [eapply rep_ready, moved_rep; done|]. by eapply moved_end. Qed.

#[export] Program Instance FileContainer_ListContainer : ListContainer FileContainer := {
  holds := ready;
  cend := end_of
}.
Next Obligation.
  intros c l Hc. destruct (ready_alike _ _ Hc) as (c1 & Hr & Ha). cbn. rewrite (al_read_end _ _ Ha), (al_end _ _ Ha).
  destruct (read_end_rep c1 l Hr) as (c' & E & Hv). exists c'. split; [exact E|]. by eapply ready_read.
Qed.
Next Obligation.
  intros c l Hc. destruct (ready_alike _ _ Hc) as (c1 & Hr & Ha). cbn. rewrite (al_read_begin _ _ Ha), (al_end _ _ Ha).
  destruct (read_begin_rep c1 l Hr) as (c' & E & Hv). exists c'. split; [exact E|]. by eapply ready_read.
Qed.
Next Obligation.
  intros c l Hc. destruct (ready_alike _ _ Hc) as (c1 & Hr & Ha). cbn. rewrite (al_read_last _ _ Ha), (al_end _ _ Ha).
  destruct (read_last_rep c1 l Hr) as (c' & E & Hv). exists c'. split; [exact E|]. by eapply ready_read.
Qed.
Next Obligation.
  intros c l Hc. destruct (ready_alike _ _ Hc) as (c1 & Hr & Ha). cbn. rewrite (al_size _ _ Ha), (al_end _ _ Ha).
  destruct (read_size_rep c1 l Hr) as (c' & E & Hv). exists c'. split; [exact E|]. by eapply ready_read.
Qed.
Next Obligation.
  intros c l1 l2 it Hc. destruct (ready_alike _ _ Hc) as (c1 & Hr & Ha). cbn. rewrite (al_get _ _ Ha), (al_end _ _ Ha).
  destruct (get_rep c1 l1 l2 it Hr) as (c' & it' & E & Hat & Hv). exists c', it'. split; [exact E|]. split; [done|]. by eapply ready_read.
Qed.
Next Obligation.
  intros c l1 [q y] l2 it Hc. destruct (ready_alike _ _ Hc) as (c1 & Hr & Ha). cbn. rewrite (al_increment _ _ Ha), (al_end _ _ Ha). intros Hat.
  destruct (increment_at c1 l1 q y l2 it Hr Hat) as (c' & it' & E & Hat' & Hv). exists c', it'.
  split; [exact E|]. split; [done|]. by eapply ready_read.
Qed.
Next Obligation.
  intros c l1 [q y] l2 it Hc. destruct (ready_alike _ _ Hc) as (c1 & Hr & Ha). cbn. rewrite (al_decrement _ _ Ha), (al_end _ _ Ha). intros Hat.
  destruct (decrement_at c1 l1 q y l2 it Hr Hat) as (c' & it' & E & Hat' & Hv). exists c', it'.
  split; [exact E|]. split; [done|]. by eapply ready_read.
Qed.
Next Obligation.
  intros c l1 p x l2 it Hc. destruct (ready_alike _ _ Hc) as (c1 & Hr & Ha). cbn. rewrite (al_read _ _ Ha), (al_end _ _ Ha).
  destruct (read_data_rep c1 l1 p x l2 it Hr) as (c' & E & Hv). eexists c', _. split; [exact E|]. split; [done|]. by eapply ready_read.
Qed.
Next Obligation.
  intros c l1 l2 data it Hc. destruct (ready_alike _ _ Hc) as (c1 & Hr & Ha). cbn. rewrite (al_add _ _ Ha), (al_end _ _ Ha). intros Hne Hroom.
  destruct (add_rep c1 l1 l2 data _ it Hr eq_refl Hne Hroom) as (c' & it' & E & H1 & H2 & H3). exists c', it'. auto with wms.
Qed.
Next Obligation.
  intros c l1 p x l2 Hc. destruct (ready_alike _ _ Hc) as (c1 & Hr & Ha). cbn. rewrite (al_remove _ _ Ha), (al_end _ _ Ha). by apply (remove_law c1 l1 p x l2).
Qed.
Next Obligation.
  intros c l Hc. destruct (ready_alike _ _ Hc) as (c1 & Hr & Ha). cbn. rewrite (al_truncate _ _ Ha). by eapply truncate_rep.
Qed.
Next Obligation.
  intros c l Hc. destruct (ready_alike _ _ Hc) as (c1 & Hr & Ha). cbn. rewrite (al_compact _ _ Ha).
  destruct (compact_rep c1 l Hr) as (c' & l' & H1 & H2 & H3 & H4 & _). exists c', l'. auto with wms.
Qed.
Next Obligation.
  intros c it Hc. destruct (ready_alike _ _ Hc) as (c1 & Hr & Ha). cbn. rewrite (al_decrement _ _ Ha), (al_end _ _ Ha). intros [Hat _].
  destruct (decrement_empty_rep c1 it Hr Hat) as (c' & it' & E & Hat' & Hv). exists c', it'.
  split; [exact E|]. split; [done|]. by eapply ready_read.
Qed.
Next Obligation.
  intros c l (m & d & p & j & -> & Hp & Hr & Hst & Hm). cbn. rewrite (dumpFile_con m d p j (rep_ok _ _ Hr)). eexists. split; [done|].
  split; [|done]. do 4 eexists. split; [done|]. split; [apply disk_end_ge0|done].
Qed.
Next Obligation.
  intros c l (m & d & q & j & -> & Hq & Hr & _). rewrite (end_of_con _ _ _ _ (rep_ok _ _ Hr)).
  pose proof (chain_bytes _ _ _ _ (rep_chain _ _ Hr) (rep_nodup _ _ Hr)). unfold disk_end. lia.
Qed.
Next Obligation.
  intros c l p (m & d & q & j & -> & Hq & Hr & _) Hin. rewrite (end_of_con _ _ _ _ (rep_ok _ _ Hr)).
  destruct (chain_cells _ _ _ _ _ (rep_chain _ _ Hr) Hin) as [b Hb]. pose proof (cell_at_lt _ _ _ Hb). unfold fc_s_headerSize in *. lia.
Qed.
Next Obligation. intros c l (m & d & q & j & -> & Hq & Hr & _). rewrite (end_of_con _ _ _ _ (rep_ok _ _ Hr)). apply Hr. Qed.
Next Obligation. intros c l (m & d & q & j & -> & Hq & Hr & _). eapply chain_nonempty; [apply Hr|apply Hr]. Qed.
