(* ===== verification/FileListProps.v ===== *)
(** * The file list is a list

    The operations of the sequence and of [FileList], proved against
    [ListContainer]: each one returns and does what the operation of the
    same name does to a list of strings. *)

From S2P Require Import Prelude Digits Stream FileContainer ContainerFields ContainerDisk ContainerList ContainerCompact.
From S2P Require Import FileList ListContainer.

Section client.
Context {C : Type} {HC : Container C} {HL : ListContainer C}.
Implicit Types (s : file_sequence C) (l : list entry) (b : base_iterator).

(** The sequence holds the entries [l]. *)
Definition seq s l : Prop := holds (fs_container s) l ∧ bi_container (fs_last s) = Some (fs_addr s).
Definition send s : Z := cend (fs_container s).
(** [s'] is [s] after an operation that leaves the container alone. *)
Definition keeps s s' l : Prop := seq s' l ∧ send s' = send s ∧ fs_addr s' = fs_addr s.
(** [b] is an iterator of [s] between [l1] and [l2]. *)
Definition pos_at s l1 l2 b : Prop := at_pos (send s) l1 l2 (bi_iterator b) ∧ bi_container b = Some (fs_addr s).

Lemma keeps_trans s1 s2 s3 l : keeps s1 s2 l → keeps s2 s3 l → keeps s1 s3 l.
Proof. intros (_ & E1 & E2) (H & E3 & E4). split; [done|]. split; congruence. Qed.
Lemma keeps_pos s s' l l1 l2 b : keeps s s' l → pos_at s l1 l2 b → pos_at s' l1 l2 b.
Proof. intros (_ & E1 & E2) [H1 H2]. split; [by rewrite E1|by rewrite E2]. Qed.
Lemma pos_at_position s l1 l2 b : pos_at s l1 l2 b → position b = head_pos (send s) l2.
Proof. intros [H _]. destruct l2 as [|[]]; apply H. Qed.
Lemma pos_at_end s l1 l1' b : pos_at s l1 [] b → pos_at s l1' [] b.
Proof. done. Qed.

Definition set_container (c : C) s : file_sequence C := Sequence (fs_addr s) c (fs_last s).

Lemma on_Ret {A} (m : M C iostatus_t A) s c a :
  m (fs_container s) = (c, Ret a) → on_container m s = (set_container c s, Ret a).
Proof. intros E. unfold on_container. by rewrite E. Qed.
Lemma or_throw_Ret {A} (m : M C iostatus_t A) c c' a : m c = (c', Ret a) → or_throw m c = (c', Ret a).
Proof. apply catch_Ret. Qed.
Lemma call_Ret {A} (m : M C iostatus_t A) s c a :
  m (fs_container s) = (c, Ret a) → call m s = (set_container c s, Ret a).
Proof. intros E. by apply on_Ret, or_throw_Ret. Qed.

Lemma set_keeps s l c :
  seq s l → holds c l → cend c = cend (fs_container s) → keeps s (set_container c s) l.
Proof. intros [_ Hb] Hc He. by split. Qed.

(** [exec_call lem]: run the first call of the sequence with a law. *)
Ltac exec_call E := rewrite (bind_Ret _ _ _ _ _ (call_Ret _ _ _ _ E)).

(** *** Reads through [call] *)
Lemma call_read_end s l : seq s l → ∃ s', call c_read_end s = (s', Ret (send s)) ∧ keeps s s' l ∧ fs_last s' = fs_last s.
Proof.
  intros Hs. destruct (lc_read_end _ _ (proj1 Hs)) as (c & E & Hc & He). eexists. split; [by apply call_Ret|].
  split; [by apply set_keeps|done].
Qed.
Lemma call_read_begin s l :
  seq s l → ∃ s', call c_read_begin s = (s', Ret (head_pos (send s) l)) ∧ keeps s s' l ∧ fs_last s' = fs_last s.
Proof.
  intros Hs. destruct (lc_read_begin _ _ (proj1 Hs)) as (c & E & Hc & He). eexists. split; [by apply call_Ret|].
  split; [by apply set_keeps|done].
Qed.
Lemma call_read_last s l :
  seq s l → ∃ s', call c_read_last s = (s', Ret (last_pos (send s) l)) ∧ keeps s s' l ∧ fs_last s' = fs_last s.
Proof.
  intros Hs. destruct (lc_read_last _ _ (proj1 Hs)) as (c & E & Hc & He). eexists. split; [by apply call_Ret|].
  split; [by apply set_keeps|done].
Qed.
Lemma call_read_size s l :
  seq s l → ∃ s', call c_read_size s = (s', Ret (Z.of_nat (length l))) ∧ keeps s s' l ∧ fs_last s' = fs_last s.
Proof.
  intros Hs. destruct (lc_read_size _ _ (proj1 Hs)) as (c & E & Hc & He). eexists. split; [by apply call_Ret|].
  split; [by apply set_keeps|done].
Qed.
Lemma call_get s l1 l2 it : seq s (l1 ++ l2) →
  ∃ s' it', call (c_get_iterator (head_pos (send s) l2) it) s = (s', Ret it') ∧ at_pos (send s) l1 l2 it' ∧
    keeps s s' (l1 ++ l2) ∧ fs_last s' = fs_last s.
Proof.
  intros Hs. destruct (lc_get _ _ _ it (proj1 Hs)) as (c & it' & E & Hat & Hc & He). do 2 eexists.
  split; [apply call_Ret, E|]. split; [done|]. split; [by apply set_keeps|done].
Qed.
Lemma call_increment s l1 ex l2 it : seq s (l1 ++ ex :: l2) → at_pos (send s) l1 (ex :: l2) it →
  ∃ s' it', call (c_increment it) s = (s', Ret it') ∧ at_pos (send s) (l1 ++ [ex]) l2 it' ∧
    keeps s s' (l1 ++ ex :: l2) ∧ fs_last s' = fs_last s.
Proof.
  intros Hs Hat. destruct (lc_increment _ _ _ _ it (proj1 Hs) Hat) as (c & it' & E & Hat' & Hc & He). do 2 eexists.
  split; [apply call_Ret, E|]. split; [done|]. split; [by apply set_keeps|done].
Qed.

(** *** The private operations *)
Lemma set_last_keeps s l b :
  seq s l → bi_container b = Some (fs_addr s) → keeps s (Sequence (fs_addr s) (fs_container s) b) l.
Proof. intros [Hc _] Hb. done. Qed.

(** The result of an operation that moves [fs_last] between [l1] and [l2]
    and leaves the container alone. *)
Definition gives s (r : file_sequence C * outcome iostatus_t base_iterator) l1 l2 (g : bool) : Prop :=
  ∃ s', r = (s', Ret (fs_last s')) ∧ keeps s s' (l1 ++ l2) ∧ pos_at s' l1 l2 (fs_last s') ∧ bi_good (fs_last s') = g.

Lemma gives_keeps s s' r l1 l2 g : keeps s s' (l1 ++ l2) → gives s' r l1 l2 g → gives s r l1 l2 g.
Proof. intros K (s'' & E & K' & H). exists s''. split; [done|]. split; [by eapply keeps_trans|done]. Qed.

Lemma bind_get_last {A} (k : base_iterator → FL C A) s : (get_last ≫= k) s = k (fs_last s) s.
Proof. reflexivity. Qed.

(** [get_iterator] into [fs_last], then the flag. *)
Lemma last_get s l1 l2 g : seq s (l1 ++ l2) →
  gives s ((b ← get_last;
            it ← call (c_get_iterator (head_pos (send s) l2) (bi_iterator b));
            set_last_iterator it;; set_last_good g;; get_last) s) l1 l2 g.
Proof.
  intros Hs. rewrite bind_get_last.
  destruct (call_get s l1 l2 (bi_iterator (fs_last s)) Hs) as (s' & it & E & Hat & K & L).
  rewrite (bind_Ret _ _ _ _ _ E). eexists. split; [reflexivity|].
  destruct K as (K1 & K2 & K3). split; [split; [|done]; split; [apply K1|apply K1]|].
  split; [|done]. split; [|apply K1]. unfold send in *. cbn. rewrite K2. exact Hat.
Qed.

Lemma getBegin_gives s l : seq s l → gives s (getBegin s) [] l (bool_decide (l ≠ [])).
Proof.
  intros Hs. destruct (call_read_begin s l Hs) as (s1 & E1 & K1 & L1).
  destruct (call_read_end s1 l (proj1 K1)) as (s2 & E2 & K2 & L2).
  pose proof (keeps_trans _ _ _ _ K1 K2) as K.
  assert (bool_decide (head_pos (send s) l ≠ send s1) = bool_decide (l ≠ [])) as Hg.
  { rewrite (proj1 (proj2 K1)). apply bool_decide_ext. destruct l as [|[p x] l]; simpl; [done|]. split; [done|]. intros _.
    assert (0 < p < send s) by (apply (lc_below _ _ _ (proj1 Hs)), elem_of_cons; by left). lia. }
  unfold getBegin. rewrite (bind_Ret _ _ _ _ _ E1), (bind_Ret _ _ _ _ _ E2), Hg, <- (proj1 (proj2 K)).
  apply (gives_keeps s s2 _ [] l _ K), (last_get s2 [] l), K.
Qed.

Lemma getEnd_gives s l : seq s l → gives s (getEnd s) l [] false.
Proof.
  intros Hs. destruct (call_read_end s l Hs) as (s1 & E1 & K & L1).
  unfold getEnd. rewrite (bind_Ret _ _ _ _ _ E1), <- (proj1 (proj2 K)).
  assert (keeps s s1 (l ++ [])) as K' by by rewrite app_nil_r.
  apply (gives_keeps s s1 _ l [] _ K'), (last_get s1 l []), K'.
Qed.

(** *** [insertData] *)
Definition grown s s' l (data : bytes) : Prop :=
  seq s' l ∧ send s' = send s + calculateDataSize (Z.of_nat (length data)) ∧ fs_addr s' = fs_addr s.

Lemma insertData_seq s l1 l2 b data :
  seq s (l1 ++ l2) → position b = head_pos (send s) l2 → data ≠ [] → room (send s) data →
  ∃ s', insertData b data s = (s', Ret (fs_last s')) ∧ grown s s' (l1 ++ (send s, data) :: l2) data ∧
    position (fs_last s') = send s ∧ bi_container (fs_last s') = Some (fs_addr s').
Proof.
  intros Hs Hb Hd Hroom. unfold insertData. rewrite bind_get_last, Hb.
  destruct (lc_add _ _ _ data (bi_iterator (fs_last s)) (proj1 Hs) Hd Hroom) as (c & it & E & Hcur & Hc & He).
  exec_call E. eexists. split; [reflexivity|]. cbn. split; [|split; [done|apply Hs]].
  split; [split; [done|apply Hs]|]. split; [exact He|done].
Qed.

(** [get_iterator] into [fs_last]. *)
Lemma last_set s l1 l2 it0 : seq s (l1 ++ l2) →
  ∃ s', (it ← call (c_get_iterator (head_pos (send s) l2) it0); set_last_iterator it) s = (s', Ret tt) ∧
    keeps s s' (l1 ++ l2) ∧ pos_at s' l1 l2 (fs_last s').
Proof.
  intros Hs. destruct (call_get s l1 l2 it0 Hs) as (s' & it & E & Hat & (K1 & K2 & K3) & L).
  rewrite (bind_Ret _ _ _ _ _ E). eexists. split; [reflexivity|].
  split; [split; [|done]; split; [apply K1|apply K1]|]. split; [|apply K1]. unfold send in *. cbn. rewrite K2. exact Hat.
Qed.

(** *** [erasePointer] *)
Definition shrunk s s' l : Prop := seq s' l ∧ send s' ≤ send s ∧ fs_addr s' = fs_addr s.

Lemma erasePointer_seq s l1 p x l2 b :
  seq s (l1 ++ (p, x) :: l2) → position b = p →
  ∃ s', erasePointer b s = (s', Ret (fs_last s')) ∧ shrunk s s' (l1 ++ l2) ∧ pos_at s' l1 l2 (fs_last s').
Proof.
  intros Hs Hp. unfold erasePointer. rewrite Hp.
  destruct (call_read_end s _ Hs) as (s1 & E1 & K1 & L1). rewrite (bind_Ret _ _ _ _ _ E1).
  destruct (call_get s1 l1 ((p, x) :: l2) nullIterator (proj1 K1)) as (s2 & it & E2 & Hat & K2 & L2).
  rewrite (bind_Ret _ _ _ _ _ E2). pose proof (keeps_trans _ _ _ _ K1 K2) as K. rewrite <- (proj1 (proj2 K2)) in Hat.
  destruct (call_increment s2 l1 (p, x) l2 it (proj1 K) Hat) as (s3 & it' & E3 & Hat' & K3 & L3).
  rewrite (bind_Ret _ _ _ _ _ E3). pose proof (keeps_trans _ _ _ _ K K3) as K4.
  destruct (lc_remove _ _ _ _ _ (proj1 (proj1 K4))) as (c & E5 & Hc & Hle & Hne). exec_call E5.
  set (s5 := set_container c s3). assert (seq s5 (l1 ++ l2)) as Hs5 by (split; [done|apply K4]).
  destruct (call_read_size s5 _ Hs5) as (s6 & E6 & K6 & L6). rewrite (bind_Ret _ _ _ _ _ E6), bind_get_last.
  assert (fi_current it' = head_pos (send s3) l2) as Hcur.
  { rewrite (proj1 (proj2 K3)). destruct l2 as [|[]]; apply Hat'. }
  assert (∃ s7, (if bool_decide (Z.of_nat (length (l1 ++ l2)) ≠ 0)
                 then it ← call (c_get_iterator (fi_current it') (bi_iterator (fs_last s6))); set_last_iterator it
                 else end_ ← call c_read_end; it ← call (c_get_iterator end_ (bi_iterator (fs_last s6))); set_last_iterator it) s6 =
                (s7, Ret tt) ∧ keeps s6 s7 (l1 ++ l2) ∧ pos_at s7 l1 l2 (fs_last s7)) as (s7 & E7 & K7 & P7).
  { case_bool_decide as Hsz.
    - assert (l1 ++ l2 ≠ []) as Hn by (intros El; by rewrite El in Hsz). destruct (Hne Hn) as [He _].
      assert (send s6 = send s3) as Hse by (rewrite (proj1 (proj2 K6)); exact He).
      rewrite Hcur, <- Hse. apply last_set, K6.
    - assert (l1 = [] ∧ l2 = []) as [-> ->] by (destruct l1, l2; simpl in Hsz; [done|lia..]).
      destruct (call_read_end s6 [] (proj1 K6)) as (s7 & E7 & K7 & L7). rewrite (bind_Ret _ _ _ _ _ E7), <- (proj1 (proj2 K7)).
      destruct (last_set s7 [] [] (bi_iterator (fs_last s6)) (proj1 K7)) as (s8 & E8 & K8 & P8). exists s8.
      split; [exact E8|]. split; [by eapply keeps_trans|done]. }
  rewrite (bind_Ret _ _ _ _ _ E7). eexists. split; [reflexivity|]. split; [|exact P7].
  pose proof (keeps_trans _ _ _ _ K6 K7) as (H1 & H2 & H3). destruct K4 as (_ & H4 & H5). split; [done|].
  split; [rewrite H2, <- H4; exact Hle|]. by rewrite H3, <- H5.
Qed.

(** *** Iterators *)

(** What [read_string] leaves on an element. *)
Definition loaded_with (x : bytes) b : Prop := bi_new b = true ∧ bi_good b = true ∧ bi_data b = x.

Lemma read_string_at s l1 p x l2 b check :
  seq s (l1 ++ (p, x) :: l2) → position b = p → bi_container b = Some (fs_addr s) →
  ∃ s' b', on_container (read_string check b) s = (s', Ret b') ∧ keeps s s' (l1 ++ (p, x) :: l2) ∧
    pos_at s' l1 ((p, x) :: l2) b' ∧ loaded_with x b'.
Proof.
  intros Hs Hp Hb.
  destruct (lc_read_end _ _ (proj1 Hs)) as (c1 & E1 & H1 & He1).
  destruct (lc_read _ _ _ _ _ (bi_iterator b) H1) as (c2 & it & E2 & Hat2 & H2 & He2).
  assert (position b ≠ send s) as Hne.
  { rewrite Hp. assert (0 < p < send s); [|lia]. apply (lc_below _ _ _ (proj1 Hs)).
    rewrite fmap_app. apply elem_of_app. right. apply elem_of_cons. by left. }
  do 2 eexists. split.
  { apply on_Ret. unfold read_string. rewrite Hb. rewrite (bind_Ret _ _ _ _ _ (or_throw_Ret _ _ _ _ E1)).
    fold (send s). rewrite (bool_decide_false _ Hne), andb_false_r, Hp.
    by rewrite (bind_Ret _ _ _ _ _ (or_throw_Ret _ _ _ _ E2)). }
  split; [apply set_keeps; [done|done|congruence]|]. split; [|done]. split; [|done].
  unfold send. cbn. rewrite He2. exact Hat2.
Qed.

Lemma read_string_end s l b :
  seq s l → pos_at s l [] b →
  ∃ s' b', on_container (read_string false b) s = (s', Ret b') ∧ keeps s s' l ∧ pos_at s' l [] b' ∧ bi_good b' = false.
Proof.
  intros Hs [Hat Hb]. pose proof (pos_at_position s l [] b (conj Hat Hb)) as Hp. simpl in Hp.
  destruct (lc_read_end _ _ (proj1 Hs)) as (c1 & E1 & H1 & He1). do 2 eexists. split.
  { apply on_Ret. unfold read_string. rewrite Hb. rewrite (bind_Ret _ _ _ _ _ (or_throw_Ret _ _ _ _ E1)).
    fold (send s). by rewrite bool_decide_true by done. }
  split; [by apply set_keeps|]. split; [|done]. split; [|done]. unfold send. cbn. rewrite He1. exact Hat.
Qed.

Lemma increment_seq s l1 ex l2 b :
  seq s (l1 ++ ex :: l2) → pos_at s l1 (ex :: l2) b →
  ∃ s' b', on_container (increment b) s = (s', Ret b') ∧ keeps s s' (l1 ++ ex :: l2) ∧ pos_at s' (l1 ++ [ex]) l2 b'.
Proof.
  intros Hs [Hat Hb]. destruct (lc_increment _ _ _ _ _ (proj1 Hs) Hat) as (c & it & E & Hat' & Hc & He). do 2 eexists. split.
  { apply on_Ret. unfold increment. rewrite Hb. by rewrite (bind_Ret _ _ _ _ _ (or_throw_Ret _ _ _ _ E)). }
  split; [by apply set_keeps|]. split; [|done]. unfold send. cbn. rewrite He. exact Hat'.
Qed.

Lemma decrement_seq s l1 ex l2 b :
  seq s (l1 ++ ex :: l2) → pos_at s (l1 ++ [ex]) l2 b →
  ∃ s' b', on_container (decrement b) s = (s', Ret b') ∧ keeps s s' (l1 ++ ex :: l2) ∧ pos_at s' l1 (ex :: l2) b'.
Proof.
  intros Hs [Hat Hb]. destruct (lc_decrement _ _ _ _ _ (proj1 Hs) Hat) as (c & it & E & Hat' & Hc & He). do 2 eexists. split.
  { apply on_Ret. unfold decrement. rewrite Hb. by rewrite (bind_Ret _ _ _ _ _ (or_throw_Ret _ _ _ _ E)). }
  split; [by apply set_keeps|]. split; [|done]. unfold send. cbn. rewrite He. exact Hat'.
Qed.

Lemma decrement_empty_seq s b :
  seq s [] → pos_at s [] [] b →
  ∃ s' b', on_container (decrement b) s = (s', Ret b') ∧ keeps s s' [] ∧ pos_at s' [] [] b'.
Proof.
  intros Hs [Hat Hb]. destruct (lc_decrement_empty _ _ (proj1 Hs) Hat) as (c & it & E & Hat' & Hc & He). do 2 eexists. split.
  { apply on_Ret. unfold decrement. rewrite Hb. by rewrite (bind_Ret _ _ _ _ _ (or_throw_Ret _ _ _ _ E)). }
  split; [by apply set_keeps|]. split; [|done]. unfold send. cbn. rewrite He. exact Hat'.
Qed.

Lemma copy_pos s l1 l2 b : pos_at s l1 l2 b → pos_at s l1 l2 (bi_copy b).
Proof. done. Qed.
End client.
