(* ===== verification/FileListDeque.v ===== *)
(** * [FileList] refines a double-ended queue

    The abstract queue is a list of values; the theorem says that any
    sequence of calls on a [FileList] gives the answers the queue gives, and
    leaves a file that holds the queue's values, as long as the file has
    room. *)

From S2P Require Import Prelude Digits Stream FileContainer ContainerFields ContainerDisk ContainerList ContainerCompact.
From S2P Require Import FileList ListContainer FileListProps.

(** What the list relies on in a converter: what it prints it can parse. *)
Class ConverterLaws (T : Type) {HT : Converter T} : Prop :=
  conv_roundtrip (x : T) d : to_string x = Some d → from_string d = Some x.

#[export] Instance string_converter_laws : ConverterLaws bytes.
Proof. intros x d. done. Qed.

(** ** The calls and their answers *)

Inductive op (T : Type) : Type :=
| PushFront (x : T)
| PushBack (x : T)
| PopFront
| PopBack
| Front
| Back
| Size
| Empty
| Clear
| Compact.
Arguments PushFront {T}.
Arguments PushBack {T}.
Arguments PopFront {T}.
Arguments PopBack {T}.
Arguments Front {T}.
Arguments Back {T}.
Arguments Size {T}.
Arguments Empty {T}.
Arguments Clear {T}.
Arguments Compact {T}.

Inductive answer (T : Type) : Type :=
| Done
| Value (x : T)
| Count (n : Z)
| Flag (b : bool).
Arguments Done {T}.
Arguments Value {T}.
Arguments Count {T}.
Arguments Flag {T}.

(** ** The abstract queue

    [None]: outside the contract (removing from an empty queue, adding a
    value that prints as the empty string).  [inr e]: the call throws [e]. *)
Module Deque.
Section deque.
Context {T : Type} `{Converter T}.

Definition push (x : T) (xs xs' : list T) : option (list T * (answer T + iostatus_t)) :=
  match to_string x with
  | None => Some (xs, inr cannot_convert_to_string)
  | Some [] => None
  | Some _ => Some (xs', inl Done)
  end.
Definition peek (xs : list T) (r : option T) : option (list T * (answer T + iostatus_t)) :=
  Some (xs, match r with Some x => inl (Value x) | None => inr unavailable_position end).

Definition step (o : op T) (xs : list T) : option (list T * (answer T + iostatus_t)) :=
  match o with
  | PushFront x => push x xs (x :: xs)
  | PushBack x => push x xs (xs ++ [x])
  | PopFront => match xs with [] => None | _ :: xs' => Some (xs', inl Done) end
  | PopBack => match xs with [] => None | _ => Some (removelast xs, inl Done) end
  | Front => peek xs (head xs)
  | Back => peek xs (last xs)
  | Size => Some (xs, inl (Count (Z.of_nat (length xs))))
  | Empty => Some (xs, inl (Flag (bool_decide (xs = []))))
  | Clear => Some ([], inl Done)
  | Compact => Some (xs, inl Done)
  end.

Fixpoint run (os : list (op T)) (xs : list T) : option (list T * list (answer T + iostatus_t)) :=
  match os with
  | [] => Some (xs, [])
  | o :: os =>
      r ← step o xs;
      rs ← run os r.1;
      Some (rs.1, r.2 :: rs.2)
  end.
End deque.
End Deque.

(** ** The same calls on a [FileList] *)

Section calls.
Context {C : Type} {HC : Container C} {T : Type} {HT : Converter T}.

Definition perform (o : op T) : FL C (answer T) :=
  match o with
  | PushFront x => push_front x;; mret Done
  | PushBack x => push_back x;; mret Done
  | PopFront => pop_front;; mret Done
  | PopBack => pop_back;; mret Done
  | Front => x ← front; mret (Value x)
  | Back => x ← back; mret (Value x)
  | Size => n ← fs_size; mret (Count n)
  | Empty => b ← fs_empty; mret (Flag b)
  | Clear => fs_clear;; mret Done
  | Compact => fs_compact;; mret Done
  end.

(** The caller catches [FileContainerError]. *)
Definition caught {A} (m : FL C A) : FL C (A + iostatus_t) :=
  catch (a ← m; mret (inl a)) (λ e, mret (inr e)).
Fixpoint perform_all (os : list (op T)) : FL C (list (answer T + iostatus_t)) :=
  match os with
  | [] => mret []
  | o :: os => r ← caught (perform o); rs ← perform_all os; mret (r :: rs)
  end.
End calls.

(** Bytes a call can add to the file. *)
Definition cost {T} `{Converter T} (o : op T) : Z :=
  match o with
  | PushFront x | PushBack x => calculateDataSize (Z.of_nat (length (default [] (to_string x))))
  | _ => 0
  end.

Section refinement.
Context {C : Type} {HC : Container C} {HL : ListContainer C} {T : Type} {HT : Converter T} {HTL : ConverterLaws T}.
Implicit Types (s : file_sequence C) (xs : list T) (l : list entry).

Definition encodes (x : T) (d : bytes) : Prop := to_string x = Some d.
(** The file holds the values [xs]. *)
Definition models s xs : Prop := ∃ l, seq s l ∧ Forall2 encodes xs l.*2.

Lemma caught_Ret {A} (m : FL C A) s s' a : m s = (s', Ret a) → caught m s = (s', Ret (inl a)).
Proof. intros E. apply catch_Ret. by rewrite (bind_Ret _ _ _ _ _ E). Qed.
Lemma caught_Fail {A} (m : FL C A) s s' e : m s = (s', Fail e) → caught m s = (s', Ret (inr e)).
Proof. intros E. unfold caught. erewrite catch_Fail by by apply bind_Fail. done. Qed.

Lemma encoded_nil l : Forall2 encodes [] l.*2 → l = [].
Proof. intros H. apply Forall2_nil_inv_l in H. by destruct l. Qed.
Lemma encoded_cons x xs l : Forall2 encodes (x :: xs) l.*2 → ∃ p d l', l = (p, d) :: l' ∧ encodes x d ∧ Forall2 encodes xs l'.*2.
Proof. intros H. apply Forall2_cons_inv_l in H as (d & ds & H1 & H2 & E). destruct l as [|[p d'] l]; simplify_eq/=. eauto 10. Qed.
Lemma encoded_snoc x xs l :
  Forall2 encodes (xs ++ [x]) l.*2 → ∃ p d l', l = l' ++ [(p, d)] ∧ encodes x d ∧ Forall2 encodes xs l'.*2.
Proof.
  intros H. apply Forall2_app_inv_l in H as (d1 & d2 & H1 & H2 & E). apply fmap_app_inv in E as (l1 & l2 & -> & -> & ->).
  apply encoded_cons in H2 as (p & d & l' & -> & Hx & H2). apply encoded_nil in H2 as ->. eauto 10.
Qed.

(** *** Dereferencing *)
Lemma deref_loaded s b x d o :
  loaded_with d b → encodes x d → ∃ i, fli_deref (FLI b o) s = (s, Ret (x, i)).
Proof.
  intros (H1 & H2 & H3) Hx. eexists. unfold fli_deref. erewrite bind_Ret by (apply on_Ret; unfold check_status; cbn; rewrite H2; done).
  cbn [fli_base]. rewrite H1, H3. unfold convert_from. rewrite (conv_roundtrip _ _ Hx). cbn. unfold set_container. by destruct s.
Qed.
Lemma deref_end s l b o :
  seq s l → bi_good b = false → bi_container b = Some (fs_addr s) →
  ∃ s', fli_deref (FLI b o) s = (s', Fail (E := iostatus_t) (A := T * FLIterator T) unavailable_position) ∧ keeps s s' l.
Proof.
  intros Hs Hg Hb. destruct (lc_dump _ _ (proj1 Hs)) as (c & E & Hc & He). exists (set_container c s). split; [|by apply set_keeps].
  apply bind_Fail. unfold on_container, check_status. cbn. rewrite Hg, Hb. by rewrite (bind_Ret _ _ _ _ _ E).
Qed.

Lemma front_cons s p d l x :
  seq s ((p, d) :: l) → encodes x d → ∃ s', front s = (s', Ret x) ∧ keeps s s' ((p, d) :: l).
Proof.
  intros Hs Hx. destruct (getBegin_gives s _ Hs) as (s1 & E1 & K1 & P1 & _). cbn [app] in K1.
  destruct (read_string_at s1 [] p d l (bi_copy (fs_last s1)) false (proj1 K1) (pos_at_position _ _ _ _ P1) (proj2 P1)) as (s2 & b & E2 & K2 & P2 & L2).
  destruct (deref_loaded s2 b x d None L2 Hx) as [i E3]. exists s2. split; [|by eapply keeps_trans].
  unfold front, begin_. rewrite bind_assoc, (bind_Ret _ _ _ _ _ E1). unfold fli_of_base. rewrite bind_assoc, (bind_Ret _ _ _ _ _ E2).
  by rewrite bind_mret, (bind_Ret _ _ _ _ _ E3).
Qed.
Lemma front_nil s : seq s [] → ∃ s', front s = (s', Fail (A := T) unavailable_position) ∧ keeps s s' [].
Proof.
  intros Hs. destruct (getBegin_gives s _ Hs) as (s1 & E1 & K1 & P1 & _).
  destruct (read_string_end s1 [] _ (proj1 K1) (copy_pos _ _ _ _ P1)) as (s2 & b & E2 & K2 & P2 & G2).
  destruct (deref_end s2 [] b None (proj1 K2) G2 (proj2 P2)) as (s3 & E3 & K3). exists s3.
  split; [|eapply keeps_trans; [exact K1|by eapply keeps_trans]].
  unfold front, begin_. rewrite bind_assoc, (bind_Ret _ _ _ _ _ E1). unfold fli_of_base. rewrite bind_assoc, (bind_Ret _ _ _ _ _ E2).
  by rewrite bind_mret, (bind_Fail _ _ _ _ _ E3).
Qed.

(** [--] on the iterator at the end, then [*]. *)
Lemma back_steps s l : seq s l →
  ∃ s1 b1, keeps s s1 l ∧ pos_at s1 l [] b1 ∧
    back (T := T) s = (b ← on_container (decrement b1); b ← on_container (read_string false b); r ← fli_deref (FLI b None); mret r.1) s1.
Proof.
  intros Hs. destruct (getEnd_gives s _ Hs) as (s1 & E1 & K1 & P1 & _). rewrite app_nil_r in K1.
  destruct (read_string_end s1 l _ (proj1 K1) (copy_pos _ _ _ _ P1)) as (s2 & b & E2 & K2 & P2 & G2).
  exists s2, b. split; [by eapply keeps_trans|]. split; [done|].
  unfold back, end_. rewrite bind_assoc, (bind_Ret _ _ _ _ _ E1). unfold fli_of_base. rewrite bind_assoc, (bind_Ret _ _ _ _ _ E2).
  rewrite bind_mret. unfold fli_decr. rewrite bind_assoc. cbn [fli_base fli_object]. unfold mbind at 1 5, M_bind at 1 5.
  destruct (on_container (decrement b) s2) as [s3 [b3|e|]]; [|done..]. by rewrite bind_assoc.
Qed.
Lemma back_snoc s p d l x :
  seq s (l ++ [(p, d)]) → encodes x d → ∃ s', back s = (s', Ret x) ∧ keeps s s' (l ++ [(p, d)]).
Proof.
  intros Hs Hx. destruct (back_steps s _ Hs) as (s1 & b1 & K1 & P1 & ->).
  destruct (decrement_seq s1 l (p, d) [] b1 (proj1 K1) P1) as (s2 & b2 & E2 & K2 & P2). rewrite (bind_Ret _ _ _ _ _ E2).
  destruct (read_string_at s2 l p d [] _ false (proj1 K2) (pos_at_position _ _ _ _ P2) (proj2 P2)) as (s3 & b & E3 & K3 & P3 & L3). rewrite (bind_Ret _ _ _ _ _ E3).
  destruct (deref_loaded s3 b x d None L3 Hx) as [i E4]. exists s3. rewrite (bind_Ret _ _ _ _ _ E4). split; [done|].
  eapply keeps_trans; [exact K1|by eapply keeps_trans].
Qed.
Lemma back_nil s : seq s [] → ∃ s', back s = (s', Fail (A := T) unavailable_position) ∧ keeps s s' [].
Proof.
  intros Hs. destruct (back_steps s _ Hs) as (s1 & b1 & K1 & P1 & ->).
  destruct (decrement_empty_seq s1 b1 (proj1 K1) P1) as (s2 & b2 & E2 & K2 & P2). rewrite (bind_Ret _ _ _ _ _ E2).
  destruct (read_string_end s2 [] _ (proj1 K2) P2) as (s3 & b & E3 & K3 & P3 & G3). rewrite (bind_Ret _ _ _ _ _ E3).
  destruct (deref_end s3 [] b None (proj1 K3) G3 (proj2 P3)) as (s4 & E4 & K4). exists s4. rewrite (bind_Fail _ _ _ _ _ E4).
  split; [done|]. eapply keeps_trans; [exact K1|]. eapply keeps_trans; [exact K2|by eapply keeps_trans].
Qed.

(** *** Adding and removing at the ends *)
Lemma push_front_seq s l x d : seq s l → encodes x d → d ≠ [] → room (send s) d →
  ∃ s', push_front x s = (s', Ret tt) ∧ grown s s' ((send s, d) :: l) d.
Proof.
  intros Hs Hx Hd Hroom. destruct (getBegin_gives s _ Hs) as (s1 & E1 & K1 & P1 & _). pose proof K1 as (K2 & K3 & K4).
  rewrite <- K3 in Hroom. destruct (insertData_seq s1 [] l _ d K2 (pos_at_position _ _ _ _ P1) Hd Hroom) as (s2 & E2 & (G1 & G2 & G3) & _).
  exists s2. rewrite K3 in G1, G2. split; [|split; [done|split; congruence]].
  unfold push_front, convert_to. rewrite (bind_Ret _ _ _ _ _ E1), Hx. cbn [converted]. by rewrite bind_mret, (bind_Ret _ _ _ _ _ E2).
Qed.
Lemma push_back_seq s l x d : seq s l → encodes x d → d ≠ [] → room (send s) d →
  ∃ s', push_back x s = (s', Ret tt) ∧ grown s s' (l ++ [(send s, d)]) d.
Proof.
  intros Hs Hx Hd Hroom. destruct (getEnd_gives s _ Hs) as (s1 & E1 & K1 & P1 & _). pose proof K1 as (K2 & K3 & K4).
  rewrite <- K3 in Hroom. destruct (insertData_seq s1 l [] _ d K2 (pos_at_position _ _ _ _ P1) Hd Hroom) as (s2 & E2 & (G1 & G2 & G3) & _).
  exists s2. rewrite K3 in G1, G2. split; [|split; [done|split; congruence]].
  unfold push_back, convert_to. rewrite (bind_Ret _ _ _ _ _ E1), Hx. cbn [converted]. by rewrite bind_mret, (bind_Ret _ _ _ _ _ E2).
Qed.
Lemma push_unconvertible s l x : seq s l → to_string x = None →
  (∃ s', push_front x s = (s', Fail cannot_convert_to_string) ∧ keeps s s' l) ∧
  (∃ s', push_back x s = (s', Fail cannot_convert_to_string) ∧ keeps s s' l).
Proof.
  intros Hs Hx. destruct (getBegin_gives s _ Hs) as (s1 & E1 & K1 & _), (getEnd_gives s _ Hs) as (s2 & E2 & K2 & _).
  rewrite app_nil_r in K2.
  split; [exists s1; unfold push_front; rewrite (bind_Ret _ _ _ _ _ E1)|exists s2; unfold push_back; rewrite (bind_Ret _ _ _ _ _ E2)];
    (split; [|done]); apply bind_Fail; unfold convert_to; by rewrite Hx.
Qed.

Lemma shrunk_keeps s s' s'' l l' : keeps s s' l → shrunk s' s'' l' → shrunk s s'' l'.
Proof. intros (_ & E1 & E2) (H1 & H2 & H3). split; [done|]. split; [lia|congruence]. Qed.

Lemma pop_front_seq s p d l : seq s ((p, d) :: l) → ∃ s', pop_front s = (s', Ret tt) ∧ shrunk s s' l.
Proof.
  intros Hs. destruct (getBegin_gives s _ Hs) as (s1 & E1 & K1 & P1 & _).
  destruct (erasePointer_seq s1 [] p d l _ (proj1 K1) (pos_at_position _ _ _ _ P1)) as (s2 & E2 & H2 & _). exists s2. split; [|by eapply shrunk_keeps].
  unfold pop_front. by rewrite (bind_Ret _ _ _ _ _ E1), (bind_Ret _ _ _ _ _ E2).
Qed.
Lemma pop_back_seq s p d l : seq s (l ++ [(p, d)]) → ∃ s', pop_back s = (s', Ret tt) ∧ shrunk s s' l.
Proof.
  intros Hs. destruct (getEnd_gives s _ Hs) as (s1 & E1 & K1 & P1 & _). rewrite app_nil_r in K1.
  destruct (decrement_seq s1 l (p, d) [] _ (proj1 K1) P1) as (s2 & b & E2 & K2 & P2).
  set (s3 := Sequence (fs_addr s2) (fs_container s2) b).
  assert (keeps s2 s3 (l ++ [(p, d)])) as K3 by (apply set_last_keeps; [apply K2|apply P2]).
  destruct (erasePointer_seq s3 l p d [] b (proj1 K3) (pos_at_position _ _ _ _ P2)) as (s4 & E4 & H4 & _). rewrite app_nil_r in H4.
  exists s4. split; [|eapply shrunk_keeps; [exact K1|]; eapply shrunk_keeps; [exact K2|]; by eapply shrunk_keeps].
  unfold pop_back. rewrite (bind_Ret _ _ _ _ _ E1), (bind_Ret _ _ _ _ _ E2). by rewrite (bind_Ret _ _ s2 s3 tt eq_refl), (bind_Ret _ _ _ _ _ E4).
Qed.

Lemma fs_empty_seq s l : seq s l → ∃ s', fs_empty s = (s', Ret (bool_decide (l = []))) ∧ keeps s s' l.
Proof.
  intros Hs. destruct (call_read_begin s l Hs) as (s1 & E1 & K1 & _). destruct (call_read_end s1 l (proj1 K1)) as (s2 & E2 & K2 & _).
  exists s2. split; [|by eapply keeps_trans]. unfold fs_empty. rewrite (bind_Ret _ _ _ _ _ E1), (bind_Ret _ _ _ _ _ E2).
  unfold mret, M_ret. do 2 f_equal. rewrite (proj1 (proj2 K1)). apply bool_decide_ext.
  destruct l as [|[p x] l]; simpl; [done|]. assert (0 < p < send s) by (apply (lc_below _ _ _ (proj1 Hs)), elem_of_cons; by left).
  split; [lia|done].
Qed.
Lemma fs_clear_seq s l : seq s l → ∃ s', fs_clear s = (s', Ret tt) ∧ shrunk s s' [] ∧ send s' = fc_s_headerSize.
Proof.
  intros Hs. destruct (lc_truncate _ _ (proj1 Hs)) as (c & E & Hc & He). eexists. split; [by apply call_Ret|].
  split; [|exact He]. split; [split; [done|apply Hs]|]. split; [|done]. unfold send. cbn. rewrite He.
  pose proof (lc_fits _ _ (proj1 Hs)). assert (0 ≤ list_bytes l.*2); [|lia]. apply total_nonneg. intros. rewrite calculateDataSize_eq. lia.
Qed.
Lemma fs_compact_seq s l : seq s l → ∃ s' l', fs_compact s = (s', Ret tt) ∧ shrunk s s' l' ∧ l'.*2 = l.*2.
Proof.
  intros Hs. destruct (lc_compact _ _ (proj1 Hs)) as (c & l' & E & Hc & El & He). exists (set_container c s), l'. split; [by apply call_Ret|].
  split; [|done]. split; [split; [done|apply Hs]|]. split; [|done]. unfold send. cbn. rewrite He. apply (lc_fits _ _ (proj1 Hs)).
Qed.

(** *** One call *)
Definition answers s o r xs' : Prop :=
  ∃ s', caught (perform o) s = (s', Ret r) ∧ models s' xs' ∧ send s' ≤ send s + cost o.

Lemma answer_Ret s s' o xs' (a : answer T) :
  perform o s = (s', Ret a) → models s' xs' → send s' ≤ send s + cost o → answers s o (inl a) xs'.
Proof. intros E H1 H2. exists s'. split; [by apply caught_Ret|done]. Qed.
Lemma answer_Fail s s' o xs' e :
  perform o s = (s', Fail e) → models s' xs' → send s' ≤ send s + cost o → answers s o (inr e) xs'.
Proof. intros E H1 H2. exists s'. split; [by apply caught_Fail|done]. Qed.
Lemma cost_nonneg o : 0 ≤ cost o.
Proof. destruct o; simpl; rewrite ?calculateDataSize_eq; lia. Qed.

Lemma push_answers s o x xs xs' r :
  (o = PushFront x ∧ xs' = x :: xs ∨ o = PushBack x ∧ xs' = xs ++ [x]) →
  models s xs → Deque.push x xs xs' = Some r → send s + cost o ≤ off_max → answers s o r.2 r.1.
Proof.
  intros Ho (l & Hs & Hl) Hst Hroom. unfold Deque.push in Hst. destruct (to_string x) as [d|] eqn:Hx.
  - destruct (decide (d = [])) as [->|Hd]; [done|]. assert (r = (xs', inl Done)) as -> by (by destruct d; simplify_eq).
    assert (cost o = calculateDataSize (Z.of_nat (length d))) as Hc by (destruct Ho as [[-> _]|[-> _]]; simpl; by rewrite Hx).
    rewrite Hc in Hroom. destruct Ho as [[-> ->]|[-> ->]].
    + destruct (push_front_seq s l x d Hs Hx Hd Hroom) as (s' & E & G1 & G2 & _).
      eapply (answer_Ret s s'); [unfold perform; by rewrite (bind_Ret _ _ _ _ _ E)| |rewrite Hc; cbn in *; lia].
      eexists. split; [exact G1|]. simpl. by constructor.
    + destruct (push_back_seq s l x d Hs Hx Hd Hroom) as (s' & E & G1 & G2 & _).
      eapply (answer_Ret s s'); [unfold perform; by rewrite (bind_Ret _ _ _ _ _ E)| |rewrite Hc; cbn in *; lia].
      eexists. split; [exact G1|]. rewrite fmap_app. simpl. apply Forall2_app; [done|]. by repeat constructor.
  - simplify_eq. destruct (push_unconvertible s l x Hs Hx) as [(s1 & E1 & K1) (s2 & E2 & K2)]. pose proof (cost_nonneg o).
    destruct Ho as [[-> ->]|[-> ->]].
    + eapply (answer_Fail s s1); [unfold perform; by rewrite (bind_Fail _ _ _ _ _ E1)|by eexists; split; [apply K1|]|destruct K1 as (_ & ? & _); lia].
    + eapply (answer_Fail s s2); [unfold perform; by rewrite (bind_Fail _ _ _ _ _ E2)|by eexists; split; [apply K2|]|destruct K2 as (_ & ? & _); lia].
Qed.

Lemma kept_models s s' l xs : keeps s s' l → Forall2 encodes xs l.*2 → models s' xs ∧ send s' ≤ send s + 0.
Proof. intros (K1 & K2 & _) Hl. split; [by exists l|lia]. Qed.
Lemma shrunk_models s s' l xs : shrunk s s' l → Forall2 encodes xs l.*2 → models s' xs ∧ send s' ≤ send s + 0.
Proof. intros (K1 & K2 & _) Hl. split; [by exists l|lia]. Qed.

Lemma pop_answers s o xs r :
  o = PopFront ∨ o = PopBack → models s xs → Deque.step o xs = Some r → answers s o r.2 r.1.
Proof.
  intros Ho (l & Hs & Hl) Hst. destruct Ho as [->| ->].
  - destruct xs as [|x xs]; [done|]. simplify_eq/=. destruct (encoded_cons _ _ _ Hl) as (p & d & l' & -> & _ & Hl').
    destruct (pop_front_seq s p d l' Hs) as (s' & E & H). destruct (shrunk_models _ _ _ _ H Hl').
    apply (answer_Ret s s'); [unfold perform; by rewrite (bind_Ret _ _ _ _ _ E)|done|done].
  - destruct xs as [|x xs _] using rev_ind; [done|].
    assert (r = (xs, inl Done)) as -> by (simpl in Hst; rewrite removelast_last in Hst; by destruct xs; simplify_eq/=).
    destruct (encoded_snoc _ _ _ Hl) as (p & d & l' & -> & _ & Hl').
    destruct (pop_back_seq s p d l' Hs) as (s' & E & H). destruct (shrunk_models _ _ _ _ H Hl').
    apply (answer_Ret s s'); [unfold perform; by rewrite (bind_Ret _ _ _ _ _ E)|done|done].
Qed.

Lemma peek_answers s o xs r :
  o = Front ∨ o = Back → models s xs → Deque.step o xs = Some r → answers s o r.2 r.1.
Proof.
  intros Ho (l & Hs & Hl) Hst. unfold Deque.step, Deque.peek in Hst. destruct Ho as [->| ->]; simplify_eq/=.
  - destruct xs as [|x xs].
    + pose proof (encoded_nil _ Hl) as ->. destruct (front_nil s Hs) as (s' & E & K). destruct (kept_models _ _ _ _ K Hl).
      apply (answer_Fail s s'); [unfold perform; by rewrite (bind_Fail _ _ _ _ _ E)|done|done].
    + destruct (encoded_cons _ _ _ Hl) as (p & d & l' & -> & Hx & _). destruct (front_cons s p d l' x Hs Hx) as (s' & E & K).
      destruct (kept_models _ _ _ _ K Hl). apply (answer_Ret s s'); [unfold perform; by rewrite (bind_Ret _ _ _ _ _ E)|done|done].
  - destruct xs as [|x xs _] using rev_ind.
    + pose proof (encoded_nil _ Hl) as ->. destruct (back_nil s Hs) as (s' & E & K). destruct (kept_models _ _ _ _ K Hl).
      apply (answer_Fail s s'); [unfold perform; by rewrite (bind_Fail _ _ _ _ _ E)|done|done].
    + rewrite last_snoc. destruct (encoded_snoc _ _ _ Hl) as (p & d & l' & -> & Hx & _).
      destruct (back_snoc s p d l' x Hs Hx) as (s' & E & K). destruct (kept_models _ _ _ _ K Hl).
      apply (answer_Ret s s'); [unfold perform; by rewrite (bind_Ret _ _ _ _ _ E)|done|done].
Qed.

Lemma encoded_length xs l : Forall2 encodes xs l.*2 → length l = length xs.
Proof. intros H. by rewrite (Forall2_length _ _ _ H), length_fmap. Qed.

Lemma step_answers s o xs r :
  models s xs → Deque.step o xs = Some r → send s + cost o ≤ off_max → answers s o r.2 r.1.
Proof.
  intros Hm Hst Hroom. pose proof Hm as (l & Hs & Hl).
  destruct o; [eapply push_answers; eauto|eapply push_answers; eauto|eapply pop_answers; eauto..|
    eapply peek_answers; eauto|eapply peek_answers; eauto| | | |]; simplify_eq/=.
  - destruct (call_read_size s l Hs) as (s' & E & K & _). destruct (kept_models _ _ _ _ K Hl).
    apply (answer_Ret s s'); [|done|done]. unfold perform. rewrite (bind_Ret _ _ _ _ _ E). by rewrite (encoded_length _ _ Hl).
  - destruct (fs_empty_seq s l Hs) as (s' & E & K). destruct (kept_models _ _ _ _ K Hl).
    assert (bool_decide (l = []) = bool_decide (xs = [])) as Hb.
    { apply bool_decide_ext. pose proof (encoded_length _ _ Hl). by destruct l, xs. }
    rewrite <- Hb. apply (answer_Ret s s'); [unfold perform; by rewrite (bind_Ret _ _ _ _ _ E)|done|done].
  - destruct (fs_clear_seq s l Hs) as (s' & E & K & _). destruct (shrunk_models _ _ _ [] K) as [??]; [constructor|].
    apply (answer_Ret s s'); [unfold perform; by rewrite (bind_Ret _ _ _ _ _ E)|done|done].
  - destruct (fs_compact_seq s l Hs) as (s' & l' & E & K & El). rewrite <- El in Hl. destruct (shrunk_models _ _ _ _ K Hl).
    apply (answer_Ret s s'); [unfold perform; by rewrite (bind_Ret _ _ _ _ _ E)|done|done].
Qed.

(** *** Any number of calls *)
Definition total_cost (os : list (op T)) : Z := foldr (λ o n, cost o + n) 0 os.

Lemma total_cost_nonneg os : 0 ≤ total_cost os.
Proof. induction os as [|o os IH]; simpl; [done|]. pose proof (cost_nonneg o). lia. Qed.

Lemma run_answers os : ∀ s xs r,
  models s xs → Deque.run os xs = Some r → send s + total_cost os ≤ off_max →
  ∃ s', perform_all os s = (s', Ret r.2) ∧ models s' r.1.
Proof.
  induction os as [|o os IH]; intros s xs r Hm Hr Hroom; cbn [Deque.run perform_all total_cost foldr] in *.
  - simplify_eq. by exists s.
  - destruct (Deque.step o xs) as [r1|] eqn:Hst; [|done]. cbn in Hr. destruct (Deque.run os r1.1) as [rs|] eqn:Hrs; [|done].
    simplify_eq/=. fold (total_cost os) in Hroom. pose proof (total_cost_nonneg os).
    destruct (step_answers s o xs r1 Hm Hst ltac:(lia)) as (s1 & E1 & Hm1 & Hs1). rewrite (bind_Ret _ _ _ _ _ E1).
    destruct (IH s1 r1.1 rs Hm1 Hrs ltac:(lia)) as (s' & E & Hm'). rewrite (bind_Ret _ _ _ _ _ E). by exists s'.
Qed.
End refinement.

