(* ===== verification/FileListOps.v ===== *)
(** * Iterators, ranges, removal by value and swap

    The operations of [FileList] that work at an iterator or on the whole
    list: [insert], [erase], [remove], [swap]. *)

From S2P Require Import Prelude Digits Stream FileContainer ContainerFields ContainerDisk ContainerCells ContainerList ContainerAdd ContainerRead ContainerCompact FileList ListContainer FileListProps.
From S2P Require Import FileListDeque ContainerExamples.

Section ops.
Context {C : Type} {HC : Container C} {HL : ListContainer C}.
Implicit Types (s : file_sequence C) (l : list entry) (b : base_iterator).

Lemma list_bytes_cons d ds : list_bytes (d :: ds) = calculateDataSize (Z.of_nat (length d)) + list_bytes ds.
Proof. done. Qed.
Lemma list_bytes_nonneg ds : 0 ≤ list_bytes ds.
Proof. apply total_nonneg. intros. rewrite calculateDataSize_eq. lia. Qed.

(** ** Range insertion *)
Section range.
Context {T : Type} {HT : Converter T}.

(** One value, and the iterator on it. *)
Lemma insert_seq {HTL : ConverterLaws T} s l1 l2 (i : FLIterator T) x d :
  seq s (l1 ++ l2) → pos_at s l1 l2 (fli_base i) → encodes x d → d ≠ [] → room (send s) d →
  ∃ s' i' i'', insert i x s = (s', Ret i') ∧ seq s' (l1 ++ (send s, d) :: l2) ∧
    pos_at s' l1 ((send s, d) :: l2) (fli_base i') ∧ fli_deref i' s' = (s', Ret (x, i'')).
Proof.
  intros Hs Hp Hx Hd Hroom. unfold insert, convert_to. rewrite Hx. cbn [converted]. rewrite bind_mret.
  destruct (insertData_seq s l1 l2 _ d Hs (pos_at_position _ _ _ _ Hp) Hd Hroom) as (s1 & E1 & (G1 & G2 & G3) & Q1 & Q2).
  rewrite (bind_Ret _ _ _ _ _ E1). destruct (read_string_at s1 l1 (send s) d l2 (bi_copy (fs_last s1)) false G1 Q1 Q2) as (s2 & b & E2 & K2 & P2 & L2).
  destruct (deref_loaded s2 b x d None L2 Hx) as [i'' E3]. exists s2, (FLI b None), i''.
  split; [unfold fli_of_base; by rewrite (bind_Ret _ _ _ _ _ E2)|]. split; [apply K2|]. by split.
Qed.

(** The position of the iterator is all that counts: its links are read
    again. *)
Lemma erase_at s l1 p d l2 (i : FLIterator T) :
  seq s (l1 ++ (p, d) :: l2) → position (fli_base i) = p →
  ∃ s' i', erase i s = (s', Ret i') ∧ shrunk s s' (l1 ++ l2) ∧ pos_at s' l1 l2 (fli_base i').
Proof.
  intros Hs Hp. unfold erase, fli_of_base.
  destruct (erasePointer_seq s l1 p d l2 _ Hs Hp) as (s1 & E1 & (H1 & H2 & H3) & P1). rewrite (bind_Ret _ _ _ _ _ E1).
  destruct l2 as [|[q y] l2].
  - rewrite app_nil_r in *. destruct (read_string_end s1 l1 (bi_copy (fs_last s1)) H1 P1) as (s2 & b & E2 & (K1 & K2 & K3) & P2 & _).
    exists s2, (FLI b None). rewrite (bind_Ret _ _ _ _ _ E2). split; [done|]. split; [|done]. split; [done|]. split; [lia|congruence].
  - destruct (read_string_at s1 l1 q y l2 (bi_copy (fs_last s1)) false H1 (pos_at_position _ _ _ _ P1) (proj2 P1)) as (s2 & b & E2 & (K1 & K2 & K3) & P2 & _).
    exists s2, (FLI b None). rewrite (bind_Ret _ _ _ _ _ E2). split; [done|]. split; [|done]. split; [done|]. split; [lia|congruence].
Qed.
Lemma erase_seq s l1 p d l2 (i : FLIterator T) :
  seq s (l1 ++ (p, d) :: l2) → pos_at s l1 ((p, d) :: l2) (fli_base i) →
  ∃ s' i', erase i s = (s', Ret i') ∧ seq s' (l1 ++ l2) ∧ pos_at s' l1 l2 (fli_base i').
Proof.
  intros Hs Hp. destruct (erase_at s l1 p d l2 i Hs (pos_at_position _ _ _ _ Hp)) as (s' & i' & E & (H & _) & P). by exists s', i'.
Qed.

(** The position of a range insertion: the end, or an element. *)
Definition range_pos (at_end : bool) b l2 : Prop :=
  if at_end then l2 = [] else ∃ p y l2', l2 = (p, y) :: l2' ∧ position b = p.

Lemma insert_each_seq (at_end : bool) b l2 xs ds : range_pos at_end b l2 → Forall2 encodes xs ds → ∀ s l1,
  Forall (λ d, d ≠ []) ds → seq s (l1 ++ l2) → send s + list_bytes ds ≤ off_max →
  ∃ s' l', insert_each at_end b xs s = (s', Ret tt) ∧ seq s' (l1 ++ l' ++ l2) ∧ l'.*2 = ds.
Proof.
  intros Hb Hx. induction Hx as [|x d xs ds Hxd _ IH]; intros s l1 Hd Hs Hroom.
  { exists s, []. done. }
  apply Forall_cons in Hd as [Hd1 Hd2]. rewrite list_bytes_cons in Hroom. pose proof (list_bytes_nonneg ds).
  assert (∃ s1 b1, (if at_end then getEnd else mret b) s = (s1, Ret b1) ∧ keeps s s1 (l1 ++ l2) ∧ position b1 = head_pos (send s1) l2)
    as (s1 & b1 & E1 & (K1 & K2 & K3) & P1).
  { destruct at_end; simpl in Hb.
    - subst l2. destruct (getEnd_gives s _ Hs) as (s1 & E1 & K1 & P1 & _).
      rewrite !app_nil_r in *. exists s1, (fs_last s1). split_and!; [done|done|by eapply pos_at_position].
    - destruct Hb as (p & y & l2' & -> & Hb). exists s, b. by split_and!. }
  rewrite <- K2 in Hroom.
  destruct (insertData_seq s1 l1 l2 b1 d K1 P1 Hd1) as (s2 & E2 & (G1 & G2 & G3) & _); [unfold room; lia|].
  destruct (IH s2 (l1 ++ [(send s1, d)])) as (s3 & l' & E3 & Hs3 & El); [done|by rewrite <- app_assoc|rewrite G2; lia|].
  exists s3, ((send s1, d) :: l'). rewrite <- app_assoc in Hs3. split_and!; [|done|by rewrite fmap_cons, El].
  cbn [insert_each]. rewrite (bind_Ret _ _ _ _ _ E1). unfold convert_to. rewrite Hxd. cbn [converted].
  by rewrite bind_mret, (bind_Ret _ _ _ _ _ E2).
Qed.

Lemma insert_range_seq s l1 l2 (i : FLIterator T) xs ds :
  seq s (l1 ++ l2) → pos_at s l1 l2 (fli_base i) → Forall2 encodes xs ds → Forall (λ d, d ≠ []) ds →
  send s + list_bytes ds ≤ off_max →
  ∃ s' l', insert_range i xs s = (s', Ret tt) ∧ seq s' (l1 ++ l' ++ l2) ∧ l'.*2 = ds.
Proof.
  intros Hs Hp Hx Hd Hroom. unfold insert_range.
  destruct (getBegin_gives s _ Hs) as (s1 & E1 & K1 & _). rewrite (bind_Ret _ _ _ _ _ E1). cbn [app] in K1.
  destruct (getEnd_gives s1 _ (proj1 K1)) as (s2 & E2 & K2 & P2 & _). rewrite (bind_Ret _ _ _ _ _ E2). rewrite app_nil_r in K2.
  pose proof (keeps_trans _ _ _ _ K1 K2) as K. pose proof (keeps_pos _ _ _ _ _ _ K Hp) as Hp2.
  pose proof (pos_at_position _ _ _ _ Hp2) as Q1. pose proof (pos_at_position _ _ _ _ P2) as Q2.
  apply insert_each_seq; [|done|done|apply K|by rewrite (proj1 (proj2 K))].
  unfold range_pos, is_equal. rewrite (proj2 Hp2), (proj2 P2), Q1, Q2. rewrite bool_decide_true by done. cbn [head_pos andb].
  destruct l2 as [|[p y] l2]; cbn [head_pos]; [by rewrite bool_decide_true|].
  assert (0 < p < send s2) by (apply (lc_below _ _ _ (proj1 (proj1 K))); rewrite fmap_app; apply elem_of_app; right; apply elem_of_cons; by left).
  rewrite bool_decide_false by lia. by exists p, y, l2.
Qed.
End range.

(** ** Removal by value *)
Definition others (value : bytes) l : list entry := filter (λ en, en.2 ≠ value) l.

Lemma remove_loop_seq value : ∀ fuel s l1 l2 it,
  (length l2 ≤ fuel)%nat → l2 ≠ [] → seq s (l1 ++ l2) → at_pos (send s) l1 l2 it → l1 ++ others value l2 ≠ [] →
  ∃ s', remove_loop fuel value it s = (s', Ret tt) ∧ seq s' (l1 ++ others value l2).
Proof.
  induction fuel as [|f IH]; intros s l1 l2 it Hf Hne Hs Hat Hrest; (destruct l2 as [|[p x] l2]; [done|]); [simpl in Hf; lia|].
  cbn [remove_loop]. destruct (lc_read _ _ _ _ _ it (proj1 Hs)) as (c1 & it1 & E1 & Hat1 & Hc1 & He1).
  assert (fi_current it = p) as -> by apply Hat. rewrite (bind_Ret _ _ _ _ _ (call_Ret _ _ _ _ E1)). cbv beta iota.
  set (s1 := set_container c1 s). assert (seq s1 (l1 ++ (p, x) :: l2)) as Hs1 by (split; [done|apply Hs]).
  assert (fi_current it1 = p) as Hcur by apply Hat1. rewrite Hcur.
  assert (∃ s2 it2 l1', (if bool_decide (x = value) then call (c_remove_data p) else mret tt) s1 = (s2, Ret tt) ∧
    l1' ++ others value l2 = l1 ++ others value ((p, x) :: l2) ∧ seq s2 (l1' ++ l2) ∧
    ∃ s3, call (c_increment it1) s2 = (s3, Ret it2) ∧ keeps s2 s3 (l1' ++ l2) ∧ at_pos (send s2) l1' l2 it2)
    as (s2 & it2 & l1' & E2 & El & Hs2 & s3 & E3 & K3 & Hat3).
  { unfold others. rewrite filter_cons. case_bool_decide as Hx.
    - assert (l1 ++ l2 ≠ []) as Hn.
      { intros El. apply Hrest. apply app_eq_nil in El as [-> ->]. subst x. unfold others. rewrite filter_cons. by rewrite decide_False by auto. }
      destruct (lc_remove _ _ _ _ _ Hc1) as (c2 & E2 & Hc2 & _ & Hinc). destruct (Hinc Hn) as [He2 Hinc'].
      rewrite <- He1 in Hat1. destruct (Hinc' it1 Hat1) as (c3 & it2 & E3 & Hat3 & Hc3 & He3).
      exists (set_container c2 s1), it2, l1. split; [by apply call_Ret|]. rewrite decide_False by auto. split; [done|].
      split; [split; [done|apply Hs]|]. exists (set_container c3 (set_container c2 s1)). split; [by apply call_Ret|].
      split; [apply set_keeps; [split; [done|apply Hs]|done|cbn; congruence]|]. unfold send. cbn. by rewrite He2.
    - rewrite <- He1 in Hat1. destruct (call_increment s1 l1 (p, x) l2 it1 Hs1 Hat1) as (s3 & it2 & E3 & Hat3 & K3 & _).
      exists s1, it2, (l1 ++ [(p, x)]). split; [done|]. rewrite decide_True by done. rewrite <- !app_assoc. split; [done|].
      split; [done|]. exists s3. by split_and!. }
  rewrite (bind_Ret _ _ _ _ _ E2), (bind_Ret _ _ _ _ _ E3).
  destruct (call_read_end s3 _ (proj1 K3)) as (s4 & E4 & K4 & _). rewrite (bind_Ret _ _ _ _ _ E4), <- El.
  pose proof (keeps_trans _ _ _ _ K3 K4) as K. rewrite <- El in Hrest.
  assert (fi_current it2 = head_pos (send s3) l2) as -> by (rewrite (proj1 (proj2 K3)); destruct l2 as [|[]]; apply Hat3).
  destruct l2 as [|[q y] l2]; cbn [head_pos].
  - rewrite bool_decide_false by auto. exists s4. split; [done|]. apply K.
  - assert (0 < q < send s3).
    { apply (lc_below _ _ _ (proj1 (proj1 K3))). rewrite fmap_app. apply elem_of_app. right. apply elem_of_cons. by left. }
    rewrite bool_decide_true by lia. apply IH; [simpl in *; lia|done|apply K| |done]. by rewrite (proj1 (proj2 K)).
Qed.

Lemma removeData_seq value fuel s l :
  (length l ≤ fuel)%nat → seq s l → others value l ≠ [] →
  ∃ s', removeData fuel value s = (s', Ret tt) ∧ seq s' (others value l).
Proof.
  intros Hf Hs Hrest. unfold removeData. destruct (call_read_begin s l Hs) as (s1 & E1 & K1 & _). rewrite (bind_Ret _ _ _ _ _ E1).
  destruct (call_get s1 [] l nullIterator (proj1 K1)) as (s2 & it & E2 & Hat & K2 & _). rewrite <- (proj1 (proj2 K1)), (bind_Ret _ _ _ _ _ E2).
  apply (remove_loop_seq value fuel s2 [] l it Hf); [by intros ->|apply K2|by rewrite (proj1 (proj2 K2))|done].
Qed.

(** ** Swapping two lists *)
Lemma is_different_end s l1 l2 b e :
  seq s (l1 ++ l2) → pos_at s l1 l2 b → pos_at s (l1 ++ l2) [] e → is_different b e = bool_decide (l2 ≠ []).
Proof.
  intros Hs Hb He. unfold is_different. rewrite (proj2 Hb), (proj2 He). rewrite bool_decide_false by auto. cbn [orb].
  rewrite (pos_at_position _ _ _ _ Hb), (pos_at_position _ _ _ _ He). cbn [head_pos]. apply bool_decide_ext.
  destruct l2 as [|[p x] l2]; cbn [head_pos]; [done|]. split; [done|]. intros _.
  assert (0 < p < send s); [|lia]. apply (lc_below _ _ _ (proj1 Hs)). rewrite fmap_app. apply elem_of_app. right. apply elem_of_cons. by left.
Qed.

Lemma collect_seq : ∀ fuel s l1 l2 b e acc,
  (length l2 < fuel)%nat → seq s (l1 ++ l2) → pos_at s l1 l2 b → pos_at s (l1 ++ l2) [] e →
  ∃ s', collect fuel b e acc s = (s', Ret (acc ++ l2.*2)) ∧ keeps s s' (l1 ++ l2).
Proof.
  induction fuel as [|f IH]; intros s l1 l2 b e acc Hf Hs Hb He; [lia|]. cbn [collect].
  rewrite (is_different_end s l1 l2 b e Hs Hb He). destruct l2 as [|[p x] l2].
  - rewrite bool_decide_false by auto. exists s. by rewrite app_nil_r.
  - rewrite bool_decide_true by done.
    destruct (read_string_at s l1 p x l2 b true Hs (pos_at_position _ _ _ _ Hb) (proj2 Hb)) as (s1 & b1 & E1 & K1 & P1 & (_ & _ & L1)). rewrite (bind_Ret _ _ _ _ _ E1).
    destruct (increment_seq s1 l1 (p, x) l2 b1 (proj1 K1) P1) as (s2 & b2 & E2 & K2 & P2). rewrite (bind_Ret _ _ _ _ _ E2).
    pose proof (keeps_trans _ _ _ _ K1 K2) as K. rewrite L1. replace (l1 ++ (p, x) :: l2) with ((l1 ++ [(p, x)]) ++ l2) in K, He |- * by by rewrite <- app_assoc.
    destruct (IH s2 (l1 ++ [(p, x)]) l2 b2 e (acc ++ [x])) as (s3 & E3 & K3); [simpl in Hf; lia|apply K|done|by eapply keeps_pos|].
    exists s3. rewrite E3, <- app_assoc. split; [done|by eapply keeps_trans].
Qed.

Lemma contents_of_seq fuel s l :
  (length l < fuel)%nat → seq s l → ∃ s', contents_of fuel s = (s', Ret l.*2) ∧ keeps s s' l.
Proof.
  intros Hf Hs. unfold contents_of. destruct (getEnd_gives s l Hs) as (s1 & E1 & K1 & P1 & _). rewrite (bind_Ret _ _ _ _ _ E1).
  rewrite app_nil_r in K1. destruct (getBegin_gives s1 l (proj1 K1)) as (s2 & E2 & K2 & P2 & _). rewrite (bind_Ret _ _ _ _ _ E2).
  cbn [app] in K2. destruct (collect_seq fuel s2 [] l (fs_last s2) (fs_last s1) []) as (s3 & E3 & K3); [done|apply K2|done|by eapply keeps_pos|].
  exists s3. split; [exact E3|]. eapply keeps_trans; [exact K1|by eapply keeps_trans].
Qed.

Lemma append_all_seq vs : ∀ s l,
  seq s l → Forall (λ d, d ≠ []) vs → send s + list_bytes vs ≤ off_max →
  ∃ s' l', append_all vs s = (s', Ret tt) ∧ seq s' (l ++ l') ∧ l'.*2 = vs.
Proof.
  induction vs as [|v vs IH]; intros s l Hs Hv Hroom; cbn [append_all].
  { exists s, []. by rewrite app_nil_r. }
  apply Forall_cons in Hv as [Hv1 Hv2]. rewrite list_bytes_cons in Hroom. pose proof (list_bytes_nonneg vs).
  destruct (getEnd_gives s l Hs) as (s1 & E1 & (K1 & K2 & K3) & P1 & _). rewrite (bind_Ret _ _ _ _ _ E1). rewrite <- K2 in Hroom.
  destruct (insertData_seq s1 l [] _ v K1 (pos_at_position _ _ _ _ P1) Hv1) as (s2 & E2 & (G1 & G2 & G3) & _); [unfold room; lia|].
  rewrite (bind_Ret _ _ _ _ _ E2). destruct (IH s2 (l ++ [(send s1, v)])) as (s3 & l' & E3 & Hs3 & El); [done|done|rewrite G2; lia|].
  exists s3, ((send s1, v) :: l'). split; [done|]. rewrite <- app_assoc in Hs3. split; [done|by rewrite fmap_cons, El].
Qed.

Lemma this_Ret {A} (m : FL C A) s o s' a : m s = (s', Ret a) → on_this m (s, o) = ((s', o), Ret a).
Proof. intros E. unfold on_this. by rewrite E. Qed.
Lemma other_Ret {A} (m : FL C A) s o o' a : m o = (o', Ret a) → on_other m (s, o) = ((s, o'), Ret a).
Proof. intros E. unfold on_other. by rewrite E. Qed.

Lemma seq_fits s l : seq s l → fc_s_headerSize + list_bytes l.*2 ≤ off_max.
Proof. intros Hs. pose proof (lc_fits _ _ (proj1 Hs)). pose proof (lc_room _ _ (proj1 Hs)). lia. Qed.

Lemma swap_seq fuel s o l k :
  (length l < fuel)%nat → (length k < fuel)%nat → seq s l → seq o k → fs_addr s ≠ fs_addr o →
  ∃ s' o' l' k', swapContainer fuel (s, o) = ((s', o'), Ret tt) ∧ seq s' k' ∧ seq o' l' ∧ k'.*2 = k.*2 ∧ l'.*2 = l.*2.
Proof.
  intros Hl Hk Hs Ho Hne. unfold swapContainer. rewrite (bind_Ret get_st _ _ _ _ eq_refl). cbn [fst snd].
  rewrite bool_decide_false by auto.
  destruct (contents_of_seq fuel s l Hl Hs) as (s1 & E1 & K1). rewrite (bind_Ret _ _ _ _ _ (this_Ret _ _ _ _ _ E1)).
  destruct (contents_of_seq fuel o k Hk Ho) as (o1 & E2 & K2). rewrite (bind_Ret _ _ _ _ _ (other_Ret _ _ _ _ _ E2)).
  destruct (fs_clear_seq s1 l (proj1 K1)) as (s2 & E3 & (H3 & _) & C3). rewrite (bind_Ret _ _ _ _ _ (this_Ret _ _ _ _ _ E3)).
  destruct (fs_clear_seq o1 k (proj1 K2)) as (o2 & E4 & (H4 & _) & C4). rewrite (bind_Ret _ _ _ _ _ (other_Ret _ _ _ _ _ E4)).
  destruct (append_all_seq l.*2 o2 [] H4 (lc_data _ _ (proj1 Hs))) as (o3 & l' & E5 & H5 & El); [rewrite C4; by eapply seq_fits|].
  rewrite (bind_Ret _ _ _ _ _ (other_Ret _ _ _ _ _ E5)).
  destruct (append_all_seq k.*2 s2 [] H3 (lc_data _ _ (proj1 Ho))) as (s3 & k' & E6 & H6 & Ek); [rewrite C3; by eapply seq_fits|].
  rewrite (this_Ret _ _ _ _ _ E6). exists s3, o3, l', k'. by split_and!.
Qed.
End ops.

(** ** On the container file *)

(** An iterator beyond the end of the file cannot be moved. *)
Lemma increment_gone c l it :
  rep c l → end_of c < fi_current it → fi_next it ≠ end_of c →
  ∃ c', increment_iterator it c = (c', Fail unavailable_position) ∧ moved c c'.
Proof.
  intros (m & d & p & j & -> & Hp & Hr & Hst & Hm). pose proof (rep_ok _ _ Hr) as Hd. rewrite (end_of_con _ _ _ _ Hd).
  intros Hc Hn. pose proof (disk_end_pos d) as He. unfold fc_s_headerSize in He. eexists. split.
  - unfold increment_iterator, increment_iterator_gen.
    rewrite (bind_Ret _ _ _ _ _ (end_after_prologue_closed m d p j true Hd Hp Hst Hm)).
    rewrite !bool_decide_false by lia. apply bind_Fail. unfold readIterator.
    rewrite (bind_Ret _ _ _ _ _ (getEnd_con m d 26 j Hd)). rewrite !bool_decide_false by lia. reflexivity.
  - apply moved_con; lia.
Qed.

Lemma rep_nil_end c : rep c [] → end_of c = fc_s_headerSize.
Proof. intros (m & d & p & j & -> & Hp & Hr & _). rewrite (end_of_con _ _ _ _ (rep_ok _ _ Hr)). by eapply empty_end. Qed.
Lemma rep_bounds c l1 p x l2 : rep c (l1 ++ (p, x) :: l2) → fc_s_headerSize ≤ p ∧ p < end_of c.
Proof.
  intros (m & d & q & j & -> & Hq & Hr & _). rewrite (end_of_con _ _ _ _ (rep_ok _ _ Hr)).
  destruct (chain_mid _ _ _ _ _ _ _ (rep_chain _ _ Hr)) as (b & Hb & _). pose proof (cell_at_lt _ _ _ Hb). lia.
Qed.

(** The last element is removed and the walk goes on from it. *)
Lemma remove_only_fails f s p x :
  rep (fs_container s) [(p, x)] → bi_container (fs_last s) = Some (fs_addr s) → p ≠ fc_s_headerSize →
  ∃ s', removeData (S f) x s = (s', Fail unavailable_position) ∧ seq s' [].
Proof.
  intros Hr Hb Hp. assert (seq s [(p, x)]) as Hs by (split; [by apply rep_ready|done]).
  unfold removeData. destruct (call_read_begin s _ Hs) as (s1 & E1 & K1 & _). rewrite (bind_Ret _ _ _ _ _ E1).
  destruct (call_get s1 [] [(p, x)] nullIterator (proj1 K1)) as (s2 & it & E2 & Hat & K2 & _).
  rewrite <- (proj1 (proj2 K1)), (bind_Ret _ _ _ _ _ E2). cbn [remove_loop]. pose proof (keeps_trans _ _ _ _ K1 K2) as (Hs2 & He2 & _).
  destruct (lc_read _ [] _ _ _ it (proj1 Hs2)) as (c3 & it3 & E3 & Hat3 & Hc3 & He3).
  assert (fi_current it = p) as -> by apply Hat. rewrite (bind_Ret _ _ _ _ _ (call_Ret _ _ _ _ E3)). cbv beta iota.
  rewrite bool_decide_true by done. destruct Hat3 as (Hcur & _ & Hnx). rewrite Hcur.
  destruct (lc_remove _ [] p x [] Hc3) as (c4 & E4 & Hc4 & _). rewrite (bind_Ret _ _ _ _ _ (call_Ret _ (set_container c3 s2) _ _ E4)).
  destruct (ready_alike _ _ Hc4) as (c5 & Hr5 & Ha). destruct (rep_bounds _ [] p x [] Hr) as [Hlo Hhi].
  destruct (increment_gone c5 [] it3 Hr5) as (c6 & E6 & Hv); [rewrite (rep_nil_end _ Hr5); lia|rewrite (rep_nil_end _ Hr5), Hnx; cbn in *; unfold send in *; cbn in *; lia|].
  destruct (lc_dump c6 []) as (c7 & E7 & Hc7 & _); [by eapply rep_ready, moved_rep|].
  exists (set_container c7 (set_container c4 (set_container c3 s2))). split; [|split; [done|apply Hs2]].
  apply bind_Fail. unfold call, on_container, or_throw, catch. cbn. by rewrite (al_increment _ _ Ha), E6, (bind_Ret _ _ _ _ _ E7).
Qed.

(** ** Properties *)

(** [insert( position, value )] returns, puts the value before the
    position (an element or the end) and gives an iterator on it that
    dereferences to the value. *)
Theorem insert_at_iterator {T : Type} {HT : Converter T} {HTL : ConverterLaws T}
  (s : file_sequence FileContainer) l1 l2 (i : FLIterator T) x d :
  seq s (l1 ++ l2) → pos_at s l1 l2 (fli_base i) → encodes x d → d ≠ [] → room (send s) d →
  ∃ s' i' i'', insert i x s = (s', Ret i') ∧ seq s' (l1 ++ (send s, d) :: l2) ∧
    pos_at s' l1 ((send s, d) :: l2) (fli_base i') ∧ fli_deref i' s' = (s', Ret (x, i'')).
Proof. apply insert_seq. Qed.

(** [erase( position )] returns, takes the element out and gives an
    iterator on the element that followed it, or at the end. *)
Theorem erase_at_iterator (s : file_sequence FileContainer) l1 p d l2 (i : FLIterator bytes) :
  seq s (l1 ++ (p, d) :: l2) → pos_at s l1 ((p, d) :: l2) (fli_base i) →
  ∃ s' i', erase i s = (s', Ret i') ∧ seq s' (l1 ++ l2) ∧ pos_at s' l1 l2 (fli_base i').
Proof. apply erase_seq. Qed.

(** [insert( position, first, last )] returns and puts all values
    before the position, in their order, wherever the position is. *)
Theorem insert_range_inserts {T : Type} {HT : Converter T}
  (s : file_sequence FileContainer) l1 l2 (i : FLIterator T) (xs : list T) ds :
  seq s (l1 ++ l2) → pos_at s l1 l2 (fli_base i) → Forall2 encodes xs ds → Forall (λ d, d ≠ []) ds →
  send s + list_bytes ds ≤ off_max →
  ∃ s' l', insert_range i xs s = (s', Ret tt) ∧ seq s' (l1 ++ l' ++ l2) ∧ l'.*2 = ds.
Proof. apply insert_range_seq. Qed.

(** [remove( value )] returns and takes out exactly the elements that
    hold the value, when some element holds another one; one round of the
    loop per element is enough. *)
Theorem remove_filters (s : file_sequence FileContainer) l value fuel :
  seq s l → others value l ≠ [] → (length l ≤ fuel)%nat →
  ∃ s', removeData fuel value s = (s', Ret tt) ∧ seq s' (others value l).
Proof. intros Hs Ho Hf. by apply removeData_seq. Qed.

(**  When nothing else is left [remove( value )] throws: the element is
    taken out, the file is cut back to its header, and the walk goes on from
    an offset that is not in the file any more. *)
Theorem remove_last_throws (s : file_sequence FileContainer) p value fuel :
  rep (fs_container s) [(p, value)] → bi_container (fs_last s) = Some (fs_addr s) → p ≠ fc_s_headerSize →
  ∃ s', removeData (S fuel) value s = (s', Fail unavailable_position) ∧ seq s' [].
Proof. apply remove_only_fails. Qed.

(** [swap] returns and exchanges the contents of two lists on
    different files; nothing is lost on the way, whatever the sizes. *)
Theorem swap_exchanges (s o : file_sequence FileContainer) l k fuel :
  seq s l → seq o k → fs_addr s ≠ fs_addr o → (length l < fuel)%nat → (length k < fuel)%nat →
  ∃ s' o' l' k', swapContainer fuel (s, o) = ((s', o'), Ret tt) ∧ seq s' k' ∧ seq o' l' ∧ k'.*2 = k.*2 ∧ l'.*2 = l.*2.
Proof. intros Hs Ho Ha Hl Hk. by apply swap_seq. Qed.

(** * The file list on concrete files

    The lists of [ContainerExamples] as sequences, and the theorems of the
    list layer applied to them. *)

Definition list1 : file_sequence FileContainer := new_sequence 1 queue1.
Definition list2 : file_sequence FileContainer := new_sequence 2 queue2.

Lemma list1_seq : seq list1 [(391, of_string "ab")].
Proof. split; [apply rep_ready, queue1_rep|done]. Qed.
Lemma list2_seq : seq list2 [(391, of_string "ab"); (488, of_string "cde")].
Proof. split; [apply rep_ready, queue2_rep|done]. Qed.
Lemma list2_send : send list2 = 586.
Proof. apply queue2_end. Qed.

(** The iterator on the second element of [list2]. *)
Definition second : FLIterator bytes :=
  FLI (BIterator true true (Some 2%nat) (FIterator true 391 586 488) (of_string "cde")) None.

Lemma second_pos : pos_at list2 [(391, of_string "ab")] [(488, of_string "cde")] (fli_base second).
Proof. split; [|done]. rewrite list2_send. done. Qed.


Lemma insert_at_iterator_witness :
  ∃ s' i' i'', insert second (of_string "x") list2 = (s', Ret i') ∧
    seq s' [(391, of_string "ab"); (586, of_string "x"); (488, of_string "cde")] ∧
    pos_at s' [(391, of_string "ab")] [(586, of_string "x"); (488, of_string "cde")] (fli_base i') ∧
    fli_deref i' s' = (s', Ret (of_string "x", i'')).
Proof.
  rewrite <- list2_send. apply (insert_at_iterator list2 [(391, of_string "ab")] [(488, of_string "cde")] second (of_string "x") (of_string "x"));
    [apply list2_seq|apply second_pos|reflexivity|discriminate|unfold room; rewrite list2_send; vm_compute; discriminate].
Defined.

Lemma erase_at_iterator_witness :
  ∃ s' i', erase second list2 = (s', Ret i') ∧ seq s' [(391, of_string "ab")] ∧ pos_at s' [(391, of_string "ab")] [] (fli_base i').
Proof.
  apply (erase_at_iterator list2 [(391, of_string "ab")] 488 (of_string "cde") [] second); [apply list2_seq|apply second_pos].
Defined.

Lemma insert_range_inserts_witness :
  ∃ s' l', insert_range second [of_string "1"; of_string "2"] list2 = (s', Ret tt) ∧
    seq s' ((391, of_string "ab") :: l' ++ [(488, of_string "cde")]) ∧ l'.*2 = [of_string "1"; of_string "2"].
Proof.
  apply (insert_range_inserts list2 [(391, of_string "ab")] [(488, of_string "cde")] second [of_string "1"; of_string "2"]
           [of_string "1"; of_string "2"]);
    [apply list2_seq|apply second_pos|repeat constructor|repeat constructor; discriminate|rewrite list2_send; vm_compute; discriminate].
Defined.

Lemma remove_filters_witness : ∃ s', removeData 2 (of_string "ab") list2 = (s', Ret tt) ∧ seq s' [(488, of_string "cde")].
Proof.
  apply (remove_filters list2 [(391, of_string "ab"); (488, of_string "cde")] (of_string "ab") 2);
    [apply list2_seq|discriminate|reflexivity].
Defined.

(** [list2] after its first element has been taken out. *)
Definition queue3 : FileContainer := (remove_data 391 queue2).1.
Definition list3 : file_sequence FileContainer := new_sequence 3 queue3.

Lemma queue3_rep : rep queue3 [(488, of_string "cde")].
Proof.
  destruct (ContainerRemove.remove_state queue2 [] 391 (of_string "ab") [(488, of_string "cde")] queue2_rep) as (c' & E & H).
  unfold queue3. by rewrite E.
Qed.

Lemma remove_last_throws_witness :
  ∃ s', removeData 5 (of_string "cde") list3 = (s', Fail unavailable_position) ∧ seq s' [].
Proof. apply (remove_last_throws list3 488 (of_string "cde") 4); [apply queue3_rep|reflexivity|discriminate]. Defined.

Lemma swap_exchanges_witness :
  ∃ s' o' l' k', swapContainer 3 (list1, list2) = ((s', o'), Ret tt) ∧ seq s' k' ∧ seq o' l' ∧
    k'.*2 = [of_string "ab"; of_string "cde"] ∧ l'.*2 = [of_string "ab"].
Proof.
  apply (swap_exchanges list1 list2 [(391, of_string "ab")] [(391, of_string "ab"); (488, of_string "cde")] 3);
    [apply list1_seq|apply list2_seq|discriminate|simpl; lia|simpl; lia].
Defined.

(** The same with the only element of a new list, and with an empty list:
    [remove] throws, for another reason. *)
Example remove_only_syntax_error : (removeData 5 (of_string "ab") list1).2 = Fail syntax_error.
Proof. vm_compute. reflexivity. Qed.
Example remove_empty_syntax_error : (removeData 5 (of_string "ab") (new_sequence 4 queue0)).2 = Fail syntax_error.
Proof. vm_compute. reflexivity. Qed.
