(* ===== verification/Posix.v ===== *)
(** * The operating system, as the C programs see it

    A store of inodes and a directory of names: two names of one file (hard
    links) share their inode.  A key of [os_names] is the file a path leads
    to, once the kernel has followed its links.  A system call either does
    its work or fails with an [errno]; [os_fault] says which calls the
    kernel refuses, for reasons that are not in the model (permissions,
    quotas, a missing parent, a full disk). *)

From S2P Require Import Prelude Digits.
From stdpp Require Export gmap strings.

#[global] Open Scope Z_scope.

Inductive errno := ENOENT | EEXIST | ENOTDIR | EACCES | ENOSPC | ENOMEM | EIO.

#[export] Instance errno_eqdec : EqDecision errno.
Proof. solve_decision. Defined.

Definition errno_int (e : errno) : Z :=
  match e with
  | ENOENT => 2 | EIO => 5 | ENOMEM => 12 | EACCES => 13 | EEXIST => 17 | ENOTDIR => 20 | ENOSPC => 28
  end.

Inductive filetype := Directory | Regular (data : bytes) | Special.

#[export] Instance filetype_eqdec : EqDecision filetype.
Proof. solve_decision. Defined.

Record inode := Inode { i_type : filetype; i_mode : Z; i_uid : Z; i_gid : Z }.

Inductive call := C_stat | C_mkdir | C_rmdir | C_chown | C_chmod | C_unlink | C_open | C_write | C_link | C_setgid | C_setuid | C_exec | C_gzopen | C_fclose | C_gzclose.

#[export] Instance call_eqdec : EqDecision call.
Proof. solve_decision. Defined.

Record os := OS {
  os_names : gmap bytes nat;
  os_inodes : gmap nat inode;
  os_umask : Z;
  os_uid : Z;
  os_gid : Z;
  os_fault : call → bytes → option errno
}.

Definition set_names (n : gmap bytes nat) (s : os) : os := OS n (os_inodes s) (os_umask s) (os_uid s) (os_gid s) (os_fault s).
Definition set_inodes (i : gmap nat inode) (s : os) : os := OS (os_names s) i (os_umask s) (os_uid s) (os_gid s) (os_fault s).
Definition set_ids (u g : Z) (s : os) : os := OS (os_names s) (os_inodes s) (os_umask s) u g (os_fault s).

(** The file a name leads to. *)
Definition file_at (s : os) (p : bytes) : option inode := os_names s !! p ≫= λ n, os_inodes s !! n.

(** [uid_t], [gid_t] and [mode_t] are 32 bits wide; [-1] means "leave". *)
Definition u32 (z : Z) : Z := z `mod` 2 ^ 32.
Definition keep : Z := u32 (-1).
Definition perm (mode : Z) : Z := Z.land mode 4095. (* 07777 *)

(** A system call: the error, or a result. *)
Definition sys (A : Type) : Type := os → os * (errno + A).

Definition guarded {A} (c : call) (p : bytes) (k : sys A) : sys A := λ s,
  match os_fault s c p with Some e => (s, inl e) | None => k s end.

Definition stat_ (p : bytes) : sys inode := guarded C_stat p (λ s,
  match file_at s p with Some i => (s, inr i) | None => (s, inl ENOENT) end).

Definition new_inode (s : os) : nat := fresh (dom (os_inodes s)).
Definition add_file (p : bytes) (i : inode) (s : os) : os :=
  set_names (<[p := new_inode s]> (os_names s)) (set_inodes (<[new_inode s := i]> (os_inodes s)) s).

Definition mkdir_ (p : bytes) (mode : Z) : sys unit := guarded C_mkdir p (λ s,
  match os_names s !! p with
  | Some _ => (s, inl EEXIST)
  | None => (add_file p (Inode Directory (Z.land (perm mode) (Z.lnot (os_umask s))) (os_uid s) (os_gid s)) s, inr tt)
  end).

(** Changing the inode behind a name. *)
Definition change (p : bytes) (f : inode → inode) (s : os) : os * (errno + unit) :=
  match os_names s !! p with
  | Some n => (set_inodes (alter f n (os_inodes s)) s, inr tt)
  | None => (s, inl ENOENT)
  end.

Definition chown_ (p : bytes) (uid gid : Z) : sys unit := guarded C_chown p (change p (λ i,
  Inode (i_type i) (i_mode i) (if bool_decide (uid = keep) then i_uid i else uid)
        (if bool_decide (gid = keep) then i_gid i else gid))).

Definition chmod_ (p : bytes) (mode : Z) : sys unit := guarded C_chmod p (change p (λ i,
  Inode (i_type i) (perm mode) (i_uid i) (i_gid i))).

Definition unname (p : bytes) (s : os) : os := set_names (delete p (os_names s)) s.

Definition rmdir_ (p : bytes) : sys unit := guarded C_rmdir p (λ s,
  match file_at s p with
  | Some i => if bool_decide (i_type i = Directory) then (unname p s, inr tt) else (s, inl ENOTDIR)
  | None => (s, inl ENOENT)
  end).

(** [remove(3)] of a file. *)
Definition remove_ (p : bytes) : sys unit := guarded C_unlink p (λ s,
  match os_names s !! p with Some _ => (unname p s, inr tt) | None => (s, inl ENOENT) end).

Definition link_ (target p : bytes) : sys unit := guarded C_link p (λ s,
  match os_names s !! target, os_names s !! p with
  | None, _ => (s, inl ENOENT)
  | Some _, Some _ => (s, inl EEXIST)
  | Some n, None => (set_names (<[p := n]> (os_names s)) s, inr tt)
  end).

(** Opening a file for writing, from scratch. *)
Definition creat_ (p : bytes) : sys unit := guarded C_open p (λ s,
  match os_names s !! p with
  | Some n => (set_inodes (alter (λ i, Inode (Regular []) (i_mode i) (i_uid i) (i_gid i)) n (os_inodes s)) s, inr tt)
  | None => (add_file p (Inode (Regular []) (Z.land 438 (* 0666 *) (Z.lnot (os_umask s))) (os_uid s) (os_gid s)) s, inr tt)
  end).

Definition append_ (p : bytes) (d : bytes) : sys unit := guarded C_write p (change p (λ i,
  match i_type i with
  | Regular x => Inode (Regular (x ++ d)) (i_mode i) (i_uid i) (i_gid i)
  | _ => i
  end)).

Definition setgid_ (g : Z) : sys unit := guarded C_setgid [] (λ s, (set_ids (os_uid s) g s, inr tt)).
Definition setuid_ (u : Z) : sys unit := guarded C_setuid [] (λ s, (set_ids u (os_gid s) s, inr tt)).

(** ** How a process ends *)
Inductive ending := Exit (code : Z) | Exec (argv : list bytes).

Abbreviation proc := (M os ending).

(** A system call inside a process: it always returns. *)
Definition call_ {A} (c : sys A) : proc (errno + A) := λ s, let '(s', r) := c s in (s', Ret r).

(** ** [strtol(s, &end, 0)], on a string without NUL

    The value, clamped to [long], and what is left at [end]; without any
    digit the value is 0 and [end] is the start of the string. *)
Definition long_min : Z := - 2 ^ 63.
Definition long_max : Z := 2 ^ 63 - 1.
Definition clamp (z : Z) : Z := Z.max long_min (Z.min long_max z).

Definition strtol (s : bytes) : Z * bytes :=
  let r := (span is_space s).2 in
  let '(neg, r) := match r with
                   | "-"%char :: t => (true, t) | "+"%char :: t => (false, t) | _ => (false, r) end in
  let '(base, r') := match r with
                     | "0"%char :: x :: t =>
                         if bool_decide (x = "x"%char ∨ x = "X"%char) then
                           match t with
                           | h :: _ => if is_digit 16 h then (16, t) else (8, r)
                           | [] => (8, r)
                           end
                         else (8, r)
                     | "0"%char :: _ => (8, r)
                     | _ => (10, r)
                     end in
  let '(ds, e) := span (is_digit base) r' in
  match ds with
  | [] => (0, s)
  | _ => (clamp (if (neg : bool) then - digits_value base ds else digits_value base ds), e)
  end.

Definition strtol_full (s : bytes) : option Z :=
  let '(v, e) := strtol s in match e with [] => Some v | _ => None end.

(** ** [getopt], with the permutation of operands of the GNU library *)

Inductive option_ := Opt (c : ascii) (arg : option bytes) | BadOpt.

(** [None]: no such option; [Some b]: it has an argument iff [b]. *)
Fixpoint opt_spec (spec : bytes) (c : ascii) : option bool :=
  match spec with
  | [] => None
  | x :: t => if bool_decide (x = c ∧ c ≠ ":"%char) then Some (bool_decide (head t = Some ":"%char)) else opt_spec t c
  end.

(** The letters of one argument; [None]: the last one wants the next argument. *)
Fixpoint cluster (spec : bytes) (cs : bytes) : list option_ * option ascii :=
  match cs with
  | [] => ([], None)
  | c :: t =>
      match opt_spec spec c with
      | None => let '(os, w) := cluster spec t in (BadOpt :: os, w)
      | Some false => let '(os, w) := cluster spec t in (Opt c None :: os, w)
      | Some true => match t with [] => ([], Some c) | _ => ([Opt c (Some t)], None) end
      end
  end.

Fixpoint getopt (spec : bytes) (args : list bytes) : list option_ * list bytes :=
  match args with
  | [] => ([], [])
  | a :: rest =>
      if bool_decide (a = ["-"; "-"]%char) then ([], rest)
      else match a with
           | "-"%char :: ((_ :: _) as cs) =>
               let '(os, wants) := cluster spec cs in
               match wants, rest with
               | None, _ => let '(os', ops) := getopt spec rest in (os ++ os', ops)
               | Some c, v :: rest' => let '(os', ops) := getopt spec rest' in (os ++ Opt c (Some v) :: os', ops)
               | Some _, [] => (os ++ [BadOpt], [])
               end
           | _ => let '(os', ops) := getopt spec rest in (os', a :: ops)
           end
  end.
