(* ===== verification/DirManager.v ===== *)
(** * interface/src/dirmanager/glite-wms-wmproxy-dirmanager.c

    The set-uid helper of the WMProxy server: it creates and adjusts the
    sandbox directories of a job, and unpacks input sandboxes.  The
    functions follow the source one by one; messages to the terminal are
    left out.  zlib and libtar are parameters of the functions that call
    them. *)

From S2P Require Import Prelude Digits Posix.

(** ** Constants *)

Definition DEFAULT_ADJUST_DIRECTORY_GROUP : bytes := of_string "glite".
Definition DEFAULT_ADJUST_DIRECTORY_MODE : Z := 504. (* 0770 *)
Definition ADJUST_DIRECTORY_GETOPT_STRING (override : bool) : bytes :=
  if override then of_string "vhc:x:g:m:" else of_string "vhc:".
Definition MAXPATHLEN : nat := 4096.

Definition ADJUST_DIRECTORY_ERR_NO_ERROR : Z := 0.
Definition ADJUST_DIRECTORY_ERR_OPTIONS : Z := 1.
Definition ADJUST_DIRECTORY_ERR_OUT_OF_MEMORY : Z := 2.
Definition ADJUST_DIRECTORY_ERR_NO_SUCH_GROUP : Z := 3.
Definition ADJUST_DIRECTORY_ERR_STAT : Z := 4.
Definition ADJUST_DIRECTORY_ERR_CHOWN : Z := 8.
Definition ADJUST_DIRECTORY_ERR_CHMOD : Z := 16.
Definition ADJUST_DIRECTORY_ERR_NOT_A_DIR : Z := 32.
Definition ADJUST_DIRECTORY_ERR_MKDIR : Z := 64.

Definition UNTAR_ERR_NO_ERROR : Z := 0.
Definition UNTAR_ERR_SETUID_SETGID : Z := 80.
Definition UNTAR_ERR_OPEN_FILE : Z := 82.
Definition UNTAR_ERR_EXTRACTING_FILE : Z := 84.
Definition UNTAR_ERR_ARCHIVE_FILE_EXISTS : Z := 86.

(** ** Signals (dirmanager.c, and jobsubmission/src/common/handler.c) *)

Inductive signal := SIGHUP | SIGINT | SIGQUIT | SIGUSR1 | SIGPIPE | SIGTERM | SIGXFSZ | SIGOTHER (n : Z).

#[export] Instance signal_eqdec : EqDecision signal.
Proof. solve_decision. Defined.

Inductive disposition := SIG_DFL | SIG_IGN | Handler.

Definition dispositions := signal → disposition.
Definition install_signal (signo : signal) (func : disposition) (d : dispositions) : dispositions :=
  λ s, if bool_decide (s = signo) then func else d s.

Definition initsignalhandler (d : dispositions) : dispositions :=
  foldl (λ d s, install_signal s SIG_IGN d) d
    [SIGUSR1; SIGPIPE; SIGTERM; SIGXFSZ; SIGHUP; SIGINT; SIGUSR1; SIGQUIT].

(** ** Files *)

(** A file that cannot be opened has size 0. *)
Definition computeFileSize (path : bytes) : proc Z :=
  r ← call_ (guarded C_open path (stat_ path));
  mret match r with
       | inr i => match i_type i with Regular d => Z.of_nat (length d) | _ => 0 end
       | inl _ => 0
       end.

Definition fileExists (path : bytes) : proc bool :=
  r ← call_ (stat_ path);
  mret match r with inl _ => false | inr _ => true end.

Section uncompress.
(** [zlib]: what the successive calls of [gzread] return on a file with
    these contents: the blocks, and whether the end was reached. *)
Context (gzread : bytes → list bytes * bool).

(** The loop of [gzUncompress]; [inl] is the early return. *)
Fixpoint gz_copy (dest : bytes) (blocks : list bytes) (ends : bool) : proc (Z + unit) :=
  match blocks with
  | [] => mret (if ends then inr tt else inl UNTAR_ERR_EXTRACTING_FILE)
  | b :: blocks =>
      r ← call_ (append_ dest b);
      match r with
      | inl _ => mret (inl UNTAR_ERR_EXTRACTING_FILE)
      | inr _ => gz_copy dest blocks ends
      end
  end.

Definition gzUncompress (source dest : bytes) : proc Z :=
  size ← computeFileSize source;
  if bool_decide (size = 0) then mret UNTAR_ERR_OPEN_FILE
  else
    in_ ← call_ (guarded C_gzopen source (stat_ source));
    match in_ with
    | inl _ => mret UNTAR_ERR_OPEN_FILE
    | inr i =>
        let '(blocks, ends) := gzread (match i_type i with Regular d => d | _ => [] end) in
        out ← call_ (creat_ dest);
        match out with
        | inl _ => mret UNTAR_ERR_OPEN_FILE
        | inr _ =>
            r ← gz_copy dest blocks ends;
            match r with
            | inl e => mret e
            | inr _ =>
                c ← call_ (guarded C_fclose dest (λ s, (s, inr tt)));
                match c with
                | inl _ => mret UNTAR_ERR_EXTRACTING_FILE
                | inr _ =>
                    z ← call_ (guarded C_gzclose source (λ s, (s, inr tt)));
                    (match z with inl _ => mret tt | inr _ => call_ (remove_ source);; mret tt end);;
                    mret 0
                end
            end
        end
    end.
End uncompress.

(** [gzError]: [None] is the null pointer. *)
Definition gzError (ret : Z) : option bytes :=
  if bool_decide (ret = -1) then Some (of_string "i/o error")
  else if bool_decide (ret = -2) then Some (of_string "invalid compression level")
  else if bool_decide (ret = -3) then Some (of_string "invalid or incomplete deflate data")
  else if bool_decide (ret = -4) then Some (of_string "out of memory")
  else if bool_decide (ret = -6) then Some (of_string "zlib version mismatch")
  else None.

(** ** Archives *)

Inductive itemkind := ISREG | ISLNK | ISOTHER.

#[export] Instance itemkind_eqdec : EqDecision itemkind.
Proof. solve_decision. Defined.

(** A header of the archive, with its data or the name it links to. *)
Record item := Item { it_kind : itemkind; it_name : bytes; it_data : bytes; it_link : bytes }.

(** [snprintf(buf, sizeof(buf), "%s/%s", prefix, filename)], which cuts, or
    [strncpy(buf, filename, sizeof(buf))], which leaves a string without end
    when the name does not fit: [None]. *)
Definition item_path (prefix : option bytes) (filename : bytes) : option bytes :=
  match prefix with
  | Some p => Some (take (MAXPATHLEN - 1) (p ++ "/"%char :: filename))
  | None => if bool_decide (length filename < MAXPATHLEN)%nat then Some filename else None
  end.

Definition extract_mode : Z := 420. (* S_IWUSR | S_IRUSR | S_IRGRP | S_IROTH *)

Section tar.
(** [libtar]: the headers of an archive with these contents and the last
    result of [th_read] ([None]: [tar_open] failed), and the two calls
    that unpack an item. *)
Context (tar_open : bytes → option (list item * Z)).
Context (tar_extract_file tar_extract_hardlink : item → bytes → sys unit).

Fixpoint chmod_tar_extract_all (items : list item) (last : Z) (prefix : option bytes) : proc Z :=
  match items with
  | [] => mret (if bool_decide (last ≠ 1) then UNTAR_ERR_EXTRACTING_FILE else UNTAR_ERR_NO_ERROR)
  | t :: items =>
      match it_kind t with
      | ISREG =>
          match item_path prefix (it_name t) with
          | None => stuck
          | Some buf =>
              e ← fileExists buf;
              if (e : bool) then mret UNTAR_ERR_ARCHIVE_FILE_EXISTS
              else
                r ← call_ (tar_extract_file t buf);
                match r with
                | inl _ => mret UNTAR_ERR_EXTRACTING_FILE
                | inr _ =>
                    o ← call_ (chmod_ buf extract_mode);
                    match o with
                    | inl _ => mret UNTAR_ERR_EXTRACTING_FILE
                    | inr _ => chmod_tar_extract_all items last prefix
                    end
                end
          end
      | ISLNK =>
          match item_path prefix (it_name t) with
          | None => stuck
          | Some buf =>
              r ← call_ (tar_extract_hardlink t buf);
              match r with
              | inl _ => mret UNTAR_ERR_EXTRACTING_FILE
              | inr _ =>
                  o ← call_ (chmod_ buf extract_mode);
                  match o with
                  | inl _ => mret UNTAR_ERR_EXTRACTING_FILE
                  | inr _ => chmod_tar_extract_all items last prefix
                  end
              end
          end
      | ISOTHER => chmod_tar_extract_all items last prefix
      end
  end.

Definition gz_suffix : bytes := of_string ".gz".

(** The names of the compressed and of the uncompressed file; [None] when
    a name overruns the buffer of [MAXPATHLEN] bytes. *)
Definition gz_names (file : bytes) : option (bytes * bytes) :=
  let len := length file in
  if bool_decide (MAXPATHLEN ≤ len)%nat then None
  else if bool_decide (3 < len ∧ drop (len - 3) file = gz_suffix)%nat
  then Some (file, take (len - 3) file)
  else if bool_decide (MAXPATHLEN ≤ len + 3)%nat then None
  else Some (file ++ gz_suffix, file).

Definition uncompressFile (gzread : bytes → list bytes * bool) (file : bytes) (prefix : option bytes) : proc Z :=
  match gz_names file with
  | None => stuck
  | Some (infile, outfile) =>
      result ← gzUncompress gzread infile outfile;
      if bool_decide (result ≠ 0) then mret UNTAR_ERR_EXTRACTING_FILE
      else
        i ← call_ (guarded C_open outfile (stat_ outfile));
        let contents := match i with
                        | inr i => match i_type i with Regular d => d | _ => [] end
                        | inl _ => []
                        end in
        match i, tar_open contents with
        | inr _, Some (items, last) =>
            outcome ← chmod_tar_extract_all items last prefix;
            call_ (remove_ outfile);;
            mret outcome
        | _, _ => stuck (* a [TAR] that was not opened is read *)
        end
  end.
End tar.

(** ** Directories *)

(** The part after the directory is known to exist. *)
Definition adjust_dir (dir : bytes) (st : inode) (new_mode new_group : Z) : proc Z :=
  if bool_decide (i_type st = Directory) then
    r ← call_ (chown_ dir keep new_group);
    match r with
    | inl _ => mret ADJUST_DIRECTORY_ERR_CHOWN
    | inr _ =>
        r ← call_ (chmod_ dir new_mode);
        match r with
        | inl _ => mret ADJUST_DIRECTORY_ERR_CHMOD
        | inr _ => mret ADJUST_DIRECTORY_ERR_NO_ERROR
        end
    end
  else mret ADJUST_DIRECTORY_ERR_NOT_A_DIR.

Definition check_dir (dir : bytes) (opt_create : bool) (new_mode new_group create_uid : Z) : proc Z :=
  ret ← call_ (stat_ dir);
  (* [inl]: an early return; [inr]: the result of the last [stat] *)
  ret ← (if match ret with inl ENOENT => opt_create | _ => false end then
           m ← call_ (mkdir_ dir new_mode);
           match m with
           | inl _ => mret (inl ADJUST_DIRECTORY_ERR_MKDIR)
           | inr _ =>
               c ← call_ (chown_ dir create_uid new_group);
               match c with
               | inl _ => call_ (rmdir_ dir);; mret (inl ADJUST_DIRECTORY_ERR_CHOWN)
               | inr _ => r ← call_ (stat_ dir); mret (inr r)
               end
           end
         else mret (inr ret));
  match ret with
  | inl e => mret e
  | inr (inl _) => mret ADJUST_DIRECTORY_ERR_STAT
  | inr (inr st) => adjust_dir dir st new_mode new_group
  end.

(** ** [main] *)

Record options := Options {
  o_starting_path : option bytes;
  o_create : bool;
  o_untar : bool;
  o_uid : Z;
  o_group : bytes;
  o_mode : Z
}.

(** The [getopt] loop.  [override] is [ALLOW_COMMAND_LINE_OVERRIDE]. *)
Fixpoint read_options (opts : list option_) (o : options) : proc options :=
  match opts with
  | [] => mret o
  | BadOpt :: _ => fail (Exit 1)
  | Opt c arg :: opts =>
      let optarg := default [] arg in
      match c with
      | "h"%char => fail (Exit ADJUST_DIRECTORY_ERR_NO_ERROR)
      | "v"%char => read_options opts o
      | "c"%char =>
          match strtol_full optarg with
          | Some v => read_options opts (Options (o_starting_path o) true (o_untar o) (u32 v) (o_group o) (o_mode o))
          | None => fail (Exit ADJUST_DIRECTORY_ERR_OPTIONS)
          end
      | "x"%char => read_options opts (Options (Some optarg) (o_create o) true (o_uid o) (o_group o) (o_mode o))
      | "g"%char => read_options opts (Options (o_starting_path o) (o_create o) (o_untar o) (o_uid o) optarg (o_mode o))
      | "m"%char =>
          match strtol_full optarg with
          | Some v => read_options opts (Options (o_starting_path o) (o_create o) (o_untar o) (o_uid o) (o_group o) (u32 v))
          | None => fail (Exit ADJUST_DIRECTORY_ERR_OPTIONS)
          end
      | _ => fail (Exit 1)
      end
  end.

(** The group: a number, or a name of the group data base. *)
Definition find_group (getgrnam : bytes → errno + Z) (name : bytes) : proc Z :=
  match strtol_full name with
  | Some v => mret (u32 v)
  | None =>
      match getgrnam name with
      | inr gid => mret gid
      | inl ENOMEM => fail (Exit ADJUST_DIRECTORY_ERR_OUT_OF_MEMORY)
      | inl _ => fail (Exit ADJUST_DIRECTORY_ERR_NO_SUCH_GROUP)
      end
  end.

(** One round of the extraction loop: it never comes to a second one. *)
Definition untar_one (starting_path : option bytes) (arg : bytes) (new_group create_uid : Z) : proc unit :=
  r ← call_ (setgid_ new_group);
  r ← (match r with inl e => mret (inl e) | inr _ => call_ (setuid_ create_uid) end);
  match r with
  | inl _ => fail (Exit UNTAR_ERR_SETUID_SETGID)
  | inr _ =>
      let arg1 := take 1023 (default (of_string "(null)") starting_path) in
      let arg2 := take 1023 arg in
      e ← fileExists arg;
      if (e : bool) then
        x ← call_ (guarded C_exec (of_string "/bin/tar") (λ s, (s, inr tt)));
        match x with
        | inl e => fail (Exit (errno_int e))
        | inr _ => fail (Exec [of_string "tar"; of_string "--directory"; arg1; of_string "-xzf"; arg2])
        end
      else fail (Exit UNTAR_ERR_OPEN_FILE)
  end.

Fixpoint untar_loop (args : list bytes) (starting_path : option bytes) (new_group create_uid : Z) : proc unit :=
  match args with
  | [] => mret tt
  | a :: args => untar_one starting_path a new_group create_uid;; untar_loop args starting_path new_group create_uid
  end.

Fixpoint dirs_loop (args : list bytes) (opt_create : bool) (new_mode new_group create_uid : Z) : proc unit :=
  match args with
  | [] => mret tt
  | a :: args =>
      summary_status ← check_dir a opt_create new_mode new_group create_uid;
      if bool_decide (summary_status ≠ 0) then fail (Exit summary_status)
      else dirs_loop args opt_create new_mode new_group create_uid
  end.

(** [args] are the arguments after the program name, [glite_user] is the
    environment variable. *)
Definition main (override : bool) (getgrnam : bytes → errno + Z) (glite_user : option bytes) (args : list bytes) : proc unit :=
  if bool_decide (args = []) then fail (Exit ADJUST_DIRECTORY_ERR_OPTIONS)
  else
    let '(opts, operands) := getopt (ADJUST_DIRECTORY_GETOPT_STRING override) args in
    o ← read_options opts (Options None false false 0 (default DEFAULT_ADJUST_DIRECTORY_GROUP glite_user)
                             DEFAULT_ADJUST_DIRECTORY_MODE);
    new_group ← find_group getgrnam (o_group o);
    (if o_untar o then untar_loop operands (o_starting_path o) new_group (o_uid o)
     else dirs_loop operands (o_create o) (o_mode o) new_group (o_uid o));;
    fail (Exit ADJUST_DIRECTORY_ERR_NO_ERROR).
