(* ===== verification/DirManagerProps.v ===== *)
(** * The directory helper: what it does to the file system

    A successful [check_dir] leaves a directory with the wanted group and
    mode and touches nothing else; each failure says how far it got.  The
    loop of [main] stops at the first failure; the extraction loop never
    reaches a second archive. *)

From S2P Require Import Prelude Digits Posix DirManager.

(** ** The file system *)

(** Names lead to files, and a directory has one name. *)
Record os_ok (s : os) : Prop := {
  ok_names : ∀ p n, os_names s !! p = Some n → is_Some (os_inodes s !! n);
  ok_dirs : ∀ p q n i, os_names s !! p = Some n → os_names s !! q = Some n → os_inodes s !! n = Some i →
    i_type i = Directory → p = q
}.

Section fs.
Context (s : os) (Hs : os_ok s).
Implicit Types (p q : bytes) (i : inode).

Lemma new_inode_fresh : os_inodes s !! new_inode s = None.
Proof. apply not_elem_of_dom. unfold new_inode. apply is_fresh. Qed.

Lemma file_at_add p i q : file_at (add_file p i s) q = if bool_decide (q = p) then Some i else file_at s q.
Proof.
  unfold file_at, add_file. simpl. case_bool_decide as Hq.
  - subst. rewrite lookup_insert_eq. simpl. by rewrite lookup_insert_eq.
  - rewrite lookup_insert_ne by done. destruct (os_names s !! q) as [n|] eqn:E; [|done]. simpl.
    destruct (ok_names _ Hs _ _ E) as [x Hx]. apply lookup_insert_ne. intros Hn.
    pose proof new_inode_fresh. rewrite Hn in *. congruence.
Qed.

Lemma add_dir_ok p i : os_names s !! p = None → i_type i = Directory → os_ok (add_file p i s).
Proof.
  intros Hp Hi. pose proof new_inode_fresh as Hf. split; unfold add_file; simpl.
  - intros q n. destruct (decide (q = p)) as [->|Hq].
    + rewrite lookup_insert_eq. intros [= <-]. rewrite lookup_insert_eq. by eexists.
    + rewrite lookup_insert_ne by done. intros Hn. destruct (ok_names _ Hs _ _ Hn) as [x Hx].
      exists x. rewrite lookup_insert_ne; [done|]. intros E. rewrite E in Hf. congruence.
  - assert (∀ q, os_names s !! q ≠ Some (new_inode s)) as Hno.
    { intros q Hn. destruct (ok_names _ Hs _ _ Hn) as [x Hx]. congruence. }
    intros q r n j. destruct (decide (q = p)) as [->|Hq], (decide (r = p)) as [->|Hr]; [done|..].
    + rewrite lookup_insert_eq, lookup_insert_ne by done. intros [= <-] Hr'. by destruct (Hno r).
    + rewrite lookup_insert_eq, lookup_insert_ne by done. intros Hq' [= <-]. by destruct (Hno q).
    + rewrite !lookup_insert_ne by done. intros H1 H2. rewrite lookup_insert_ne; [by apply (ok_dirs _ Hs)|].
      intros E. rewrite <- E in H1. by destruct (Hno q).
Qed.

(** Changing a directory changes no other file. *)
Lemma change_dir p i f :
  file_at s p = Some i → i_type i = Directory → (∀ j, i_type (f j) = i_type j) →
  ∃ s', change p f s = (s', inr tt) ∧ os_ok s' ∧ os_fault s' = os_fault s ∧
    ∀ q, file_at s' q = if bool_decide (q = p) then Some (f i) else file_at s q.
Proof.
  intros Hi Hd Hf. unfold file_at in Hi. destruct (os_names s !! p) as [n|] eqn:En; [|done]. simpl in Hi.
  unfold change. rewrite En. eexists. split; [done|].
  assert (∀ m j, alter f n (os_inodes s) !! m = Some j → ∃ j', os_inodes s !! m = Some j' ∧ i_type j = i_type j') as Halt.
  { intros m j. destruct (decide (m = n)) as [->|Hm].
    - rewrite lookup_alter_eq, Hi. intros [= <-]. exists i. by rewrite Hf.
    - rewrite lookup_alter_ne by done. intros Hj. by exists j. }
  split; [split|split]; simpl.
  - intros q m Hq. destruct (ok_names _ Hs _ _ Hq) as [x Hx]. destruct (decide (m = n)) as [->|Hm].
    + rewrite lookup_alter_eq, Hx. by eexists.
    + rewrite lookup_alter_ne by done. by exists x.
  - intros q r m j H1 H2 Hj Hjd. destruct (Halt m j Hj) as (j' & Hj' & Ht). apply (ok_dirs _ Hs q r m j'); congruence.
  - done.
  - intros q. unfold file_at. simpl. case_bool_decide as Hq.
    + subst. rewrite En. simpl. by rewrite lookup_alter_eq, Hi.
    + destruct (os_names s !! q) as [m|] eqn:Em; [|done]. simpl. apply lookup_alter_ne.
      intros ->. apply Hq. by apply (ok_dirs _ Hs q p m i).
Qed.
End fs.

(** ** [check_dir] *)

Definition same_elsewhere (dir : bytes) (s s' : os) : Prop := ∀ q, q ≠ dir → file_at s' q = file_at s q.

Lemma call_ret {A} (c : sys A) s s' r : c s = (s', r) → call_ c s = (s', Ret r).
Proof. intros E. unfold call_. by rewrite E. Qed.

(** A call that is refused, and one that is not. *)
Lemma guarded_fault {A} c p (k : sys A) s e : os_fault s c p = Some e → guarded c p k s = (s, inl e).
Proof. intros E. unfold guarded. by rewrite E. Qed.
Lemma guarded_ok {A} c p (k : sys A) s : os_fault s c p = None → guarded c p k s = k s.
Proof. intros E. unfold guarded. by rewrite E. Qed.

Definition group_of (group old : Z) : Z := if bool_decide (group = keep) then old else group.

Section check_dir.
Context (dir : bytes) (mode group uid : Z).

(** How [adjust_dir] can end. *)
Inductive adjusted (s : os) (i : inode) (s' : os) : Z → Prop :=
| adj_done : i_type i = Directory → file_at s' dir = Some (Inode Directory (perm mode) (i_uid i) (group_of group (i_gid i))) →
    adjusted s i s' ADJUST_DIRECTORY_ERR_NO_ERROR
| adj_not_dir : i_type i ≠ Directory → s' = s → adjusted s i s' ADJUST_DIRECTORY_ERR_NOT_A_DIR
| adj_chown : is_Some (os_fault s C_chown dir) → s' = s → adjusted s i s' ADJUST_DIRECTORY_ERR_CHOWN
| adj_chmod : is_Some (os_fault s C_chmod dir) → i_type i = Directory →
    file_at s' dir = Some (Inode Directory (i_mode i) (i_uid i) (group_of group (i_gid i))) →
    adjusted s i s' ADJUST_DIRECTORY_ERR_CHMOD.

Lemma adjust_dir_ends s i :
  os_ok s → file_at s dir = Some i →
  ∃ s' r, adjust_dir dir i mode group s = (s', Ret r) ∧ same_elsewhere dir s s' ∧ adjusted s i s' r.
Proof.
  intros Hs Hi. unfold adjust_dir. destruct (decide (i_type i = Directory)) as [Hd|Hd].
  2: { rewrite bool_decide_false by done. exists s. eexists. split; [done|]. split; [done|by apply adj_not_dir]. }
  rewrite bool_decide_true by done. destruct (os_fault s C_chown dir) as [e|] eqn:Ef.
  { erewrite bind_Ret by (apply call_ret, guarded_fault, Ef). exists s. eexists. split; [done|]. split; [done|].
    apply adj_chown; [by rewrite Ef|done]. }
  edestruct (change_dir s Hs dir i) as (s1 & E1 & Hs1 & F1 & A1); [done|done| |].
  2: erewrite bind_Ret by (apply call_ret; unfold chown_; rewrite guarded_ok by done; exact E1).
  { done. }
  pose proof (A1 dir) as Hi1. rewrite bool_decide_true in Hi1 by done.
  set (i1 := Inode _ _ _ _) in Hi1. destruct (os_fault s1 C_chmod dir) as [e|] eqn:Eg.
  { erewrite bind_Ret by (apply call_ret, guarded_fault, Eg). exists s1. eexists. split; [done|]. split.
    - intros q Hq. rewrite A1. by rewrite bool_decide_false.
    - apply adj_chmod; [by rewrite <- F1, Eg|done|]. rewrite Hi1. unfold i1. by rewrite Hd. }
  edestruct (change_dir s1 Hs1 dir i1) as (s2 & E2 & Hs2 & F2 & A2); [done|done| |].
  2: erewrite bind_Ret by (apply call_ret; unfold chmod_; rewrite guarded_ok by done; exact E2).
  { done. }
  exists s2. eexists. split; [done|]. split.
  - intros q Hq. rewrite A2, A1. by rewrite !bool_decide_false.
  - apply adj_done; [done|]. rewrite A2. rewrite bool_decide_true by done. unfold i1. simpl. by rewrite Hd.
Qed.

(** A directory that was made here, with its owner set. *)
Lemma created_dir s :
  os_ok s → file_at s dir = None → os_names s !! dir = None → os_fault s C_mkdir dir = None → os_fault s C_chown dir = None →
  ∃ s1 s2, mkdir_ dir mode s = (s1, inr tt) ∧ chown_ dir uid group s1 = (s2, inr tt) ∧
    os_ok s2 ∧ os_fault s2 = os_fault s ∧ same_elsewhere dir s s2 ∧
    ∃ i, file_at s2 dir = Some i ∧ i_type i = Directory ∧ i_uid i = (if bool_decide (uid = keep) then os_uid s else uid) ∧
      i_gid i = group_of group (os_gid s).
Proof.
  intros Hs Hno Hn F1 F2. unfold mkdir_, chown_. rewrite guarded_ok by done. rewrite Hn.
  set (i0 := Inode Directory _ _ _). set (s1 := add_file dir i0 s).
  assert (os_ok s1) as Hs1 by (by apply add_dir_ok).
  assert (file_at s1 dir = Some i0) as Hi0 by (unfold s1; rewrite file_at_add by done; by rewrite bool_decide_true).
  edestruct (change_dir s1 Hs1 dir i0) as (s2 & E2 & Hs2 & Fs2 & A2); [done|done| |].
  2: { exists s1, s2. split; [done|]. split; [by rewrite guarded_ok|]. split; [done|]. split; [by rewrite Fs2|]. split.
       - intros q Hq. rewrite A2. rewrite bool_decide_false by done. unfold s1. rewrite file_at_add by done. by rewrite bool_decide_false.
       - eexists. split; [rewrite A2; by rewrite bool_decide_true|]. done. }
  done.
Qed.

(** How [check_dir] can end: it returned without a change, it undid the
    creation, or it came to adjust a directory that was there ([s1 = s])
    or that it made. *)
Inductive checked (create : bool) (s s' : os) : Z → Prop :=
| chk_stat : s' = s → (file_at s dir = None → create = true → is_Some (os_fault s C_stat dir)) →
    checked create s s' ADJUST_DIRECTORY_ERR_STAT
| chk_mkdir : s' = s → is_Some (os_fault s C_mkdir dir) → checked create s s' ADJUST_DIRECTORY_ERR_MKDIR
| chk_undone : file_at s dir = None → is_Some (os_fault s C_chown dir) →
    (os_fault s C_rmdir dir = None → file_at s' dir = None) → checked create s s' ADJUST_DIRECTORY_ERR_CHOWN
| chk_there i r : file_at s dir = Some i → adjusted s i s' r → checked create s s' r
| chk_made s1 i r : file_at s dir = None → create = true → os_fault s1 = os_fault s → file_at s1 dir = Some i →
    i_type i = Directory → i_uid i = (if bool_decide (uid = keep) then os_uid s else uid) →
    os_fault s C_chown dir = None → adjusted s1 i s' r → checked create s s' r.

Lemma no_name s : os_ok s → file_at s dir = None → os_names s !! dir = None.
Proof.
  intros Hs Hno. unfold file_at in Hno. destruct (os_names s !! dir) as [n|] eqn:E; [|done]. simpl in Hno.
  destruct (ok_names _ Hs _ _ E) as [x Hx]. congruence.
Qed.

Lemma check_dir_ends create s :
  os_ok s → os_fault s C_stat dir ≠ Some ENOENT →
  ∃ s' r, check_dir dir create mode group uid s = (s', Ret r) ∧ same_elsewhere dir s s' ∧ checked create s s' r.
Proof.
  intros Hs Hst. unfold check_dir. destruct (os_fault s C_stat dir) as [e|] eqn:Ef.
  { erewrite bind_Ret by (apply call_ret, guarded_fault, Ef). destruct e; [done|..];
      (do 2 eexists; split; [reflexivity|]; split; [done|]; apply chk_stat; [done|by rewrite Ef]). }
  destruct (file_at s dir) as [i|] eqn:Ei.
  { erewrite bind_Ret by (apply call_ret; unfold stat_; rewrite guarded_ok by done; by rewrite Ei). cbn iota.
    unfold mret, M_ret, mbind at 1, M_bind at 1.
    destruct (adjust_dir_ends s i Hs Ei) as (s' & r & E & Hse & Hadj). exists s', r. split; [exact E|]. split; [done|].
    by apply (chk_there _ _ _ i). }
  erewrite bind_Ret by (apply call_ret; unfold stat_; rewrite guarded_ok by done; by rewrite Ei). destruct create.
  2: { do 2 eexists. split; [reflexivity|]. split; [done|]. by apply chk_stat. }
  pose proof (no_name s Hs Ei) as Hnn. rewrite bind_assoc. destruct (os_fault s C_mkdir dir) as [e|] eqn:Em.
  { erewrite bind_Ret by (apply call_ret, guarded_fault, Em). do 2 eexists. split; [reflexivity|]. split; [done|].
    apply chk_mkdir; [done|by rewrite Em]. }
  destruct (os_fault s C_chown dir) as [e|] eqn:Ec.
  { unfold mkdir_. erewrite bind_Ret by (apply call_ret; rewrite guarded_ok by done; by rewrite Hnn). cbv beta iota. rewrite bind_assoc.
    set (i0 := Inode Directory _ _ _). set (s1 := add_file dir i0 s).
    assert (∀ q, file_at s1 q = if bool_decide (q = dir) then Some i0 else file_at s q) as A1 by (intros; by apply file_at_add).
    erewrite bind_Ret by (apply call_ret, guarded_fault; exact Ec). cbv beta iota. rewrite bind_assoc.
    destruct (os_fault s1 C_rmdir dir) as [e'|] eqn:Er.
    - erewrite bind_Ret by (apply call_ret, guarded_fault; exact Er). do 2 eexists. split; [reflexivity|]. split.
      + intros q Hq. rewrite A1. by rewrite bool_decide_false.
      + apply chk_undone; [done|by rewrite Ec|]. intros Hr. change (os_fault s1) with (os_fault s) in Er. congruence.
    - erewrite bind_Ret by (apply call_ret; unfold rmdir_; rewrite guarded_ok by done; rewrite A1, bool_decide_true by done; reflexivity).
      do 2 eexists. split; [reflexivity|]. split.
      + intros q Hq. specialize (A1 q). rewrite bool_decide_false in A1 by done. rewrite <- A1.
        unfold file_at, unname. simpl. by rewrite lookup_delete_ne by done.
      + apply chk_undone; [done|by rewrite Ec|]. intros _. unfold file_at, unname. simpl. by rewrite lookup_delete_eq. }
  destruct (created_dir s Hs Ei Hnn Em Ec) as (s1 & s2 & E1 & E2 & Hs2 & Fs2 & Hse & i & Hi & Hid & Hiu & _).
  erewrite bind_Ret by (apply call_ret; exact E1). cbv beta iota. rewrite bind_assoc. erewrite bind_Ret by (apply call_ret; exact E2).
  cbv beta iota. rewrite bind_assoc. erewrite bind_Ret by (apply call_ret; unfold stat_; rewrite guarded_ok by (by rewrite Fs2); by rewrite Hi).
  unfold mret, M_ret, mbind at 1, M_bind at 1.
  destruct (adjust_dir_ends s2 i Hs2 Hi) as (s' & r & E & Hse2 & Hadj). exists s', r. split; [exact E|]. split.
  { intros q Hq. by rewrite Hse2, Hse. }
  by apply (chk_made _ _ _ s2 i).
Qed.
End check_dir.

(**  [check_dir] returns for every file system; when it returns 0 the
    path is a directory with the wanted mode and group, whose owner is the
    requested user if the call made it and the old owner otherwise, and no
    other file has changed. *)
Theorem check_dir_success dir create mode group uid s :
  os_ok s → os_fault s C_stat dir ≠ Some ENOENT → group ≠ keep →
  ∃ s' r, check_dir dir create mode group uid s = (s', Ret r) ∧ same_elsewhere dir s s' ∧
    (r = ADJUST_DIRECTORY_ERR_NO_ERROR →
     ∃ i, file_at s' dir = Some i ∧ i_type i = Directory ∧ i_mode i = perm mode ∧ i_gid i = group ∧
       match file_at s dir with
       | Some i0 => i_uid i = i_uid i0
       | None => create = true ∧ (uid ≠ keep → i_uid i = uid)
       end).
Proof.
  intros Hs Hst Hg. destruct (check_dir_ends dir mode group uid create s Hs Hst) as (s' & r & E & Hse & Hch).
  exists s', r. split; [done|]. split; [done|]. intros ->. unfold group_of in *.
  inversion Hch as [| | |i r Hi Hadj|s1 i r Hno Hcr Hf Hi Hid Hu Hc Hadj]; subst; inversion Hadj as [Hd Hf'| | |]; subst;
    (eexists; split; [exact Hf'|]; unfold group_of; rewrite bool_decide_false by done; split_and!; try done).
  - by rewrite Hi.
  - rewrite Hno. split; [done|]. intros Hk. simpl. rewrite Hu. by rewrite bool_decide_false.
Qed.

(** A failure is all or nothing: when [check_dir] returns an error
    other than that of the final [chmod], and [rmdir] is not refused, the
    file system is what it was: a directory made on the way is removed. *)
Theorem check_dir_failure dir create mode group uid s s' r :
  os_ok s → os_fault s C_stat dir ≠ Some ENOENT → os_fault s C_rmdir dir = None →
  check_dir dir create mode group uid s = (s', Ret r) → r ≠ ADJUST_DIRECTORY_ERR_NO_ERROR → r ≠ ADJUST_DIRECTORY_ERR_CHMOD →
  ∀ q, file_at s' q = file_at s q.
Proof.
  intros Hs Hst Hrm Hrun Hr0 Hr16. destruct (check_dir_ends dir mode group uid create s Hs Hst) as (s0 & r0 & E & Hse & Hch).
  rewrite Hrun in E. injection E as <- <-. intros q. destruct (decide (q = dir)) as [->|Hq]; [|by apply Hse].
  inversion Hch as [| |Hno Hf Hun|i r' Hi Hadj|s1 i r' Hno Hcr Hf Hi Hid Hu Hc Hadj]; subst; try done.
  - rewrite Hno. by apply Hun.
  - inversion Hadj; subst; done.
  - inversion Hadj as [|Hnd|Hfc|]; subst; try done. rewrite Hf, Hc in Hfc. by destruct Hfc.
Qed.

(** ** The loops of [main] *)

Lemma dirs_loop_app args args' create mode group uid s s1 :
  dirs_loop args create mode group uid s = (s1, Ret tt) →
  dirs_loop (args ++ args') create mode group uid s = dirs_loop args' create mode group uid s1.
Proof.
  revert s. induction args as [|a args IH]; intros s; cbn [dirs_loop app]; [by intros [= <-]|].
  unfold mbind, M_bind. destruct (check_dir a create mode group uid s) as [s2 [r| |]]; try done.
  case_bool_decide; [done|]. apply IH.
Qed.

(** Without [-x] the directories are handled in order up to the first
    one that fails: its error is the exit status, and the arguments after
    it are not looked at. *)
Theorem dirs_stop_at_failure done_ bad rest create mode group uid s s1 s2 r :
  dirs_loop done_ create mode group uid s = (s1, Ret tt) →
  check_dir bad create mode group uid s1 = (s2, Ret r) → r ≠ 0 →
  dirs_loop (done_ ++ bad :: rest) create mode group uid s = (s2, Fail (Exit r)).
Proof.
  intros Hd Hb Hr. rewrite (dirs_loop_app _ _ _ _ _ _ _ _ Hd). cbn [dirs_loop]. erewrite bind_Ret by exact Hb.
  by rewrite bool_decide_true.
Qed.

Lemma untar_one_ends p a g u s : ∃ s' e, untar_one p a g u s = (s', Fail e).
Proof.
  unfold untar_one, fileExists, call_, setgid_, setuid_, stat_, guarded, mbind, M_bind, mret, M_ret, fail.
  repeat (cbn; match goal with
               | |- context [os_fault ?s ?c ?p] => destruct (os_fault s c p)
               | |- context [file_at ?s ?p] => destruct (file_at s p) end); cbn; do 2 eexists; reflexivity.
Qed.

(** With [-x] only the first archive is ever handled: the process is
    replaced by [tar] or it exits, whatever archives follow. *)
Theorem untar_handles_first_only a rest p g u s :
  untar_loop (a :: rest) p g u s = untar_loop [a] p g u s ∧
  ∃ s' e, untar_loop (a :: rest) p g u s = (s', Fail e).
Proof.
  cbn [untar_loop]. destruct (untar_one_ends p a g u s) as (s' & e & E).
  rewrite !(bind_Fail _ _ _ _ _ E). split; [done|by do 2 eexists].
Qed.

(** Numbers on the command line: [-c] with an argument that is not
    wholly a number ends the program with status 1; but the empty string
    counts as the number 0, the identity of the super-user, and so does an
    empty [GLITE_USER]. *)
Theorem empty_number_is_root :
  (∀ arg opts o s, strtol_full arg = None → read_options (Opt "c" (Some arg) :: opts) o s = (s, Fail (Exit ADJUST_DIRECTORY_ERR_OPTIONS))) ∧
  (∀ o s, ∃ o', read_options [Opt "c" (Some [])] o s = (s, Ret o') ∧ o_uid o' = 0 ∧ o_create o' = true) ∧
  (∀ getgrnam s, find_group getgrnam [] s = (s, Ret 0)).
Proof.
  split_and!.
  - intros arg opts o s H. cbn. by rewrite H.
  - intros o s. eexists. split; [reflexivity|done].
  - intros getgrnam s. reflexivity.
Qed.

(** ** Unpacking *)

(** A file is there still: with the same contents and owner, and with its
    mode or the mode of unpacked files. *)
Definition kept (s s' : os) : Prop := ∀ q i, file_at s q = Some i →
  ∃ m, file_at s' q = Some (Inode (i_type i) m (i_uid i) (i_gid i)) ∧ (m = i_mode i ∨ m = perm extract_mode).

Lemma kept_refl s : kept s s.
Proof. intros q i Hi. exists (i_mode i). split; [by destruct i|by left]. Qed.

Lemma kept_trans s1 s2 s3 : kept s1 s2 → kept s2 s3 → kept s1 s3.
Proof.
  intros H1 H2 q i Hi. destruct (H1 q i Hi) as (m & Hm & Hc). destruct (H2 q _ Hm) as (m' & Hm' & Hc'). exists m'.
  split; [done|]. simpl in Hc'. destruct Hc' as [-> | ->]; auto.
Qed.

Lemma chmod_kept p s s' r : chmod_ p extract_mode s = (s', r) → kept s s' ∧ os_fault s' = os_fault s ∧
  ∀ i, r = inr tt → file_at s p = Some i → file_at s' p = Some (Inode (i_type i) (perm extract_mode) (i_uid i) (i_gid i)).
Proof.
  unfold chmod_, guarded, change. destruct (os_fault s C_chmod p); [intros [= <- <-]; split; [apply kept_refl|done]|].
  destruct (os_names s !! p) as [n|] eqn:En; intros [= <- <-]; (split; [|split; [done|]]); try done; try apply kept_refl.
  - intros q i Hi. unfold file_at in *. simpl. destruct (os_names s !! q) as [m|]; [|done]. simpl in *.
    destruct (decide (m = n)) as [->|Hm].
    + rewrite lookup_alter_eq, Hi. exists (perm extract_mode). split; [done|by right].
    + rewrite lookup_alter_ne by done. rewrite Hi. exists (i_mode i). split; [by destruct i|by left].
  - intros i _ Hi. unfold file_at in *. simpl. rewrite En in *. simpl in *. by rewrite lookup_alter_eq, Hi.
Qed.

Lemma fileExists_ret p s :
  os_fault s C_stat p = None → fileExists p s = (s, Ret match file_at s p with Some _ => true | None => false end).
Proof.
  intros Hf. unfold fileExists, stat_, call_, mbind, M_bind. rewrite guarded_ok by done. by destruct (file_at s p).
Qed.

Section unpack.
Context (tar_extract_file tar_extract_hardlink : item → bytes → sys unit).

(** Documented behaviour of the two calls of [libtar]: an existing file is
    left alone by the extraction of another one, and a file that was
    extracted has the data of its item. *)
Context (leaves_file : ∀ t p s s' r, file_at s p = None → tar_extract_file t p s = (s', r) →
  os_fault s' = os_fault s ∧ ∀ q i, file_at s q = Some i → file_at s' q = Some i).
Context (leaves_link : ∀ t p s s' r, tar_extract_hardlink t p s = (s', r) →
  os_fault s' = os_fault s ∧ ∀ q i, file_at s q = Some i → file_at s' q = Some i).
Context (file_has_data : ∀ t p s s', file_at s p = None → tar_extract_file t p s = (s', inr tt) →
  ∃ i, file_at s' p = Some i ∧ i_type i = Regular (it_data t)).

Lemma unchanged_kept s s' : (∀ q i, file_at s q = Some i → file_at s' q = Some i) → kept s s'.
Proof. intros H q i Hi. exists (i_mode i). split; [rewrite (H _ _ Hi); by destruct i|by left]. Qed.

(** One unpacked item, with the data and the mode it must have. *)
Definition unpacked (s : os) (p : bytes) (t : item) : Prop :=
  ∃ i, file_at s p = Some i ∧ i_type i = Regular (it_data t) ∧ i_mode i = perm extract_mode.

Lemma unpacked_kept s s' p t : kept s s' → unpacked s p t → unpacked s' p t.
Proof.
  intros Hk (i & Hi & Ht & Hm). destruct (Hk p i Hi) as (m & Hm' & Hc). eexists. split; [exact Hm'|]. simpl.
  split; [done|]. by destruct Hc as [-> | Hc'].
Qed.

Lemma extract_all_keeps items last prefix : ∀ s s' r,
  (∀ p, os_fault s C_stat p = None) →
  chmod_tar_extract_all tar_extract_file tar_extract_hardlink items last prefix s = (s', Ret r) →
  kept s s' ∧ (r = UNTAR_ERR_NO_ERROR → last = 1 ∧
    Forall (λ t, it_kind t = ISREG → ∃ p, item_path prefix (it_name t) = Some p ∧ unpacked s' p t) items).
Proof.
  induction items as [|t items IH]; intros s s' r Hst; cbn [chmod_tar_extract_all].
  { intros [= <- <-]. split; [apply kept_refl|]. case_bool_decide as Hl; [done|]. intros _. split; [lia|constructor]. }
  destruct (it_kind t) eqn:Ek.
  - destruct (item_path prefix (it_name t)) as [buf|] eqn:Ep; [|done].
    rewrite (bind_Ret _ _ _ _ _ (fileExists_ret _ _ (Hst buf))).
    destruct (file_at s buf) as [i0|] eqn:Eb; cbn iota.
    { intros [= <- <-]. split; [apply kept_refl|done]. }
    destruct (tar_extract_file t buf s) as [s1 r1] eqn:Ex. destruct (leaves_file _ _ _ _ _ Eb Ex) as [F1 K1].
    erewrite bind_Ret by (apply call_ret; exact Ex). pose proof (unchanged_kept _ _ K1) as Hk1.
    destruct r1 as [e|[]]; [intros [= <- <-]; by split|].
    destruct (file_has_data _ _ _ _ Eb Ex) as (i1 & Hi1 & Ht1).
    destruct (chmod_ buf extract_mode s1) as [s2 r2] eqn:Ec. destruct (chmod_kept _ _ _ _ Ec) as (Hk2 & F2 & Hm2).
    erewrite bind_Ret by (apply call_ret; exact Ec). pose proof (kept_trans _ _ _ Hk1 Hk2) as Hk12.
    destruct r2 as [e|[]]; [intros [= <- <-]; by split|]. intros Hrun.
    destruct (IH s2 s' r) as [Hk3 Hr]; [intros; by rewrite F2, F1|done|].
    split; [by eapply kept_trans|]. intros ->. destruct (Hr eq_refl) as [Hl Hall]. split; [done|]. constructor; [|done].
    intros _. exists buf. split; [done|]. apply (unpacked_kept s2); [done|]. eexists. by rewrite (Hm2 _ eq_refl Hi1).
  - destruct (item_path prefix (it_name t)) as [buf|] eqn:Ep; [|done].
    destruct (tar_extract_hardlink t buf s) as [s1 r1] eqn:Ex. destruct (leaves_link _ _ _ _ _ Ex) as [F1 K1].
    erewrite bind_Ret by (apply call_ret; exact Ex). pose proof (unchanged_kept _ _ K1) as Hk1.
    destruct r1 as [e|[]]; [intros [= <- <-]; by split|].
    destruct (chmod_ buf extract_mode s1) as [s2 r2] eqn:Ec. destruct (chmod_kept _ _ _ _ Ec) as (Hk2 & F2 & Hm2).
    erewrite bind_Ret by (apply call_ret; exact Ec). pose proof (kept_trans _ _ _ Hk1 Hk2) as Hk12.
    destruct r2 as [e|[]]; [intros [= <- <-]; by split|]. intros Hrun.
    destruct (IH s2 s' r) as [Hk3 Hr]; [intros; by rewrite F2, F1|done|].
    split; [by eapply kept_trans|]. intros ->. destruct (Hr eq_refl) as [Hl Hall]. split; [done|]. constructor; [by rewrite Ek|done].
  - intros Hrun. destruct (IH s s' r Hst Hrun) as [Hk Hr]. split; [done|]. intros ->. destruct (Hr eq_refl) as [Hl Hall].
    split; [done|]. constructor; [by rewrite Ek|done].
Qed.

(**  Unpacking never overwrites: every file that was there keeps its
    contents and its owner; and when the whole archive was unpacked each
    regular item is there, with its data and mode 0644. *)
Theorem unpack_never_overwrites items last prefix s s' r :
  (∀ p, os_fault s C_stat p = None) →
  chmod_tar_extract_all tar_extract_file tar_extract_hardlink items last prefix s = (s', Ret r) →
  kept s s' ∧ (r = UNTAR_ERR_NO_ERROR → last = 1 ∧
    Forall (λ t, it_kind t = ISREG → ∃ p, item_path prefix (it_name t) = Some p ∧ unpacked s' p t) items).
Proof. apply extract_all_keeps. Qed.
End unpack.

(** ** Uncompressing *)

Section gunzip.
Context (gzread : bytes → list bytes * bool) (dest : bytes).

(** [dest] is the only name of a regular file with contents [x]. *)
Definition sole_file (s : os) (x : bytes) : Prop := ∃ n m u g,
  os_names s !! dest = Some n ∧ os_inodes s !! n = Some (Inode (Regular x) m u g) ∧ ∀ q, os_names s !! q = Some n → q = dest.

Lemma append_sole s x b : os_fault s C_write dest = None → sole_file s x →
  ∃ s', append_ dest b s = (s', inr tt) ∧ sole_file s' (x ++ b) ∧ os_fault s' = os_fault s ∧ os_names s' = os_names s ∧
    ∀ q, q ≠ dest → file_at s' q = file_at s q.
Proof.
  intros Hf (n & m & u & g & Hn & Hi & Hu). unfold append_. rewrite guarded_ok by done. unfold change. rewrite Hn.
  eexists. split; [reflexivity|]. split; [|split; [done|split; [done|]]].
  - exists n, m, u, g. split_and!; [done|simpl; by rewrite lookup_alter_eq, Hi|done].
  - intros q Hq. unfold file_at. simpl. destruct (os_names s !! q) as [k|] eqn:Ek; [|done]. simpl.
    apply lookup_alter_ne. intros ->. by apply Hq, Hu.
Qed.

Lemma gz_copy_sole blocks ends : ∀ s x, (∀ c p, os_fault s c p = None) → sole_file s x →
  ∃ s', gz_copy dest blocks ends s = (s', Ret (if ends then inr tt else inl UNTAR_ERR_EXTRACTING_FILE)) ∧
    sole_file s' (x ++ concat blocks) ∧ os_fault s' = os_fault s ∧ os_names s' = os_names s ∧
    ∀ q, q ≠ dest → file_at s' q = file_at s q.
Proof.
  induction blocks as [|b blocks IH]; intros s x Hf Hs; cbn [gz_copy concat].
  - exists s. rewrite app_nil_r. by split_and!.
  - destruct (append_sole s x b (Hf _ _) Hs) as (s1 & E1 & H1 & F1 & N1 & A1).
    rewrite (bind_Ret _ _ _ _ _ (call_ret _ _ _ _ E1)). destruct (IH s1 (x ++ b)) as (s2 & E2 & H2 & F2 & N2 & A2); [by rewrite F1|done|].
    exists s2. rewrite <- app_assoc in H2. split_and!; [done|done|congruence|congruence|]. intros q Hq. by rewrite A2, A1.
Qed.

Lemma creat_sole s : os_ok s → os_names s !! dest = None → os_fault s C_open dest = None →
  ∃ s', creat_ dest s = (s', inr tt) ∧ sole_file s' [] ∧ os_fault s' = os_fault s ∧
    (∀ q, q ≠ dest → os_names s' !! q = os_names s !! q) ∧ ∀ q, q ≠ dest → file_at s' q = file_at s q.
Proof.
  intros Hs Hn Hf. unfold creat_. rewrite guarded_ok by done. rewrite Hn. eexists. split; [reflexivity|].
  split; [|split; [done|split]].
  - exists (new_inode s). do 3 eexists. unfold add_file. simpl. rewrite lookup_insert_eq. split; [done|].
    split; [by rewrite lookup_insert_eq|]. intros q. destruct (decide (q = dest)) as [->|Hq]; [done|].
    rewrite lookup_insert_ne by done. intros Hq'. destruct (ok_names _ Hs _ _ Hq') as [i Hi].
    pose proof (new_inode_fresh s). congruence.
  - intros q Hq. unfold add_file. simpl. by rewrite lookup_insert_ne.
  - intros q Hq. rewrite file_at_add by done. by rewrite bool_decide_false.
Qed.

Lemma gzUncompress_runs source s x i :
  os_ok s → (∀ c p, os_fault s c p = None) → source ≠ dest → os_names s !! dest = None →
  file_at s source = Some i → i_type i = Regular x → x ≠ [] →
  ∃ s', gzUncompress gzread source dest s = (s', Ret (if (gzread x).2 then 0 else UNTAR_ERR_EXTRACTING_FILE)) ∧
    sole_file s' (concat (gzread x).1) ∧
    file_at s' source = (if (gzread x).2 then None else Some i) ∧
    ∀ q, q ≠ dest → q ≠ source → file_at s' q = file_at s q.
Proof.
  intros Hs Hf Hne Hnd Hi Ht Hx. unfold gzUncompress, computeFileSize. rewrite bind_assoc.
  assert (∀ c, call_ (guarded c source (stat_ source)) s = (s, Ret (inr i))) as Hst.
  { intros c. unfold call_, stat_. rewrite !guarded_ok by done. by rewrite Hi. }
  rewrite (bind_Ret _ _ _ _ _ (Hst C_open)), bind_mret, Ht. rewrite bool_decide_false by (destruct x; [done|simpl; lia]).
  rewrite (bind_Ret _ _ _ _ _ (Hst C_gzopen)). cbv beta iota. rewrite Ht. destruct (gzread x) as [blocks ends]. cbn [fst snd].
  destruct (creat_sole s Hs Hnd (Hf _ _)) as (s1 & E1 & H1 & F1 & N1 & A1). rewrite (bind_Ret _ _ _ _ _ (call_ret _ _ _ _ E1)).
  destruct (gz_copy_sole blocks ends s1 [] ltac:(intros; by rewrite F1) H1) as (s2 & E2 & H2 & F2 & N2 & A2).
  cbv beta iota. rewrite (bind_Ret _ _ _ _ _ E2). destruct ends; cbn iota.
  2: { exists s2. split; [done|]. split; [done|]. split; [by rewrite A2, A1|]. intros q Hq _. by rewrite A2, A1. }
  rewrite (bind_Ret _ _ s2 s2 (inr tt)) by (unfold call_; rewrite guarded_ok by (by rewrite F2, F1); done). cbv beta iota.
  rewrite (bind_Ret _ _ s2 s2 (inr tt)) by (unfold call_; rewrite guarded_ok by (by rewrite F2, F1); done). cbv beta iota.
  assert (is_Some (os_names s2 !! source)) as [k Hk].
  { rewrite N2, N1 by done. unfold file_at in Hi. destruct (os_names s !! source); [by eexists|done]. }
  rewrite bind_assoc. rewrite (bind_Ret _ _ s2 (unname source s2) (inr tt)).
  2: { unfold call_, remove_. rewrite guarded_ok by (by rewrite F2, F1). by rewrite Hk. }
  rewrite bind_mret. eexists. split; [reflexivity|]. split; [|split].
  - destruct H2 as (n & m & u & g & Hn & Hin & Hu). exists n, m, u, g. unfold unname. simpl.
    split_and!; [by rewrite lookup_delete_ne|done|]. intros q. destruct (decide (q = source)) as [->|Hq]; [by rewrite lookup_delete_eq|].
    rewrite lookup_delete_ne by done. apply Hu.
  - unfold file_at, unname. simpl. by rewrite lookup_delete_eq.
  - intros q Hq Hq'. rewrite <- A1, <- A2 by done. unfold file_at, unname. simpl. by rewrite lookup_delete_ne.
Qed.

(** When no system call is refused, uncompressing a file puts the
    blocks of [zlib] one after the other in the destination, and the
    source is removed exactly when the end of the stream was reached; so
    a file compressed with an inverse of [zlib] comes back. *)
Theorem gunzip_roundtrip (gzip : bytes → bytes) source s x i :
  (∀ y, concat (gzread (gzip y)).1 = y ∧ (gzread (gzip y)).2 = true) →
  os_ok s → (∀ c p, os_fault s c p = None) → source ≠ dest → os_names s !! dest = None →
  file_at s source = Some i → i_type i = Regular (gzip x) → gzip x ≠ [] →
  ∃ s', gzUncompress gzread source dest s = (s', Ret 0) ∧ sole_file s' x ∧ file_at s' source = None ∧
    ∀ q, q ≠ dest → q ≠ source → file_at s' q = file_at s q.
Proof.
  intros Hz Hs Hf Hne Hnd Hi Ht Hx. destruct (Hz x) as [Hz1 Hz2].
  destruct (gzUncompress_runs source s (gzip x) i Hs Hf Hne Hnd Hi Ht Hx) as (s' & E & H1 & H2 & H3).
  rewrite Hz2 in E, H2. rewrite Hz1 in H1. by exists s'.
Qed.
End gunzip.

(** ** Examples *)

(** A [libtar] that makes a new file, or a new name. *)
Definition plain_extract (t : item) (p : bytes) : sys unit := λ s,
  let n := fresh (dom (os_inodes s) ∪ map_img (os_names s)) in
  (set_names (<[p := n]> (os_names s)) (set_inodes (<[n := Inode (Regular (it_data t)) 384 (os_uid s) (os_gid s)]> (os_inodes s)) s), inr tt).

Lemma plain_extract_at t p s q :
  file_at (plain_extract t p s).1 q =
  if bool_decide (q = p) then Some (Inode (Regular (it_data t)) 384 (os_uid s) (os_gid s)) else file_at s q.
Proof.
  unfold plain_extract, file_at. simpl. set (n := fresh _).
  pose proof (is_fresh (dom (os_inodes s) ∪ map_img (os_names s)) : n ∉ _) as Hn. case_bool_decide as Hq.
  - subst. rewrite lookup_insert_eq. simpl. by rewrite lookup_insert_eq.
  - rewrite lookup_insert_ne by done. destruct (os_names s !! q) as [m|] eqn:Em; [|done]. simpl.
    apply lookup_insert_ne. intros <-. apply Hn, elem_of_union. right. by eapply elem_of_map_img_2.
Qed.

Lemma plain_link_leaves t p s s' r :
  link_ (it_link t) p s = (s', r) → os_fault s' = os_fault s ∧ ∀ q i, file_at s q = Some i → file_at s' q = Some i.
Proof.
  unfold link_, guarded. destruct (os_fault s C_link p); [by intros [= <- <-]|].
  destruct (os_names s !! it_link t) as [n|]; [|by intros [= <- <-]].
  destruct (os_names s !! p) as [n'|] eqn:En; intros [= <- <-]; [done|]. split; [done|].
  intros q i. unfold file_at. simpl. destruct (decide (q = p)) as [->|Hq]; [by rewrite En|]. by rewrite lookup_insert_ne.
Qed.

Definition empty_os : os := OS ∅ ∅ 18 0 0 (λ _ _, None).
Definition demo_items : list item :=
  [Item ISREG (of_string "a") (of_string "data") []; Item ISLNK (of_string "b") [] (of_string "/sb/a"); Item ISOTHER (of_string "c") [] []].

Lemma unpack_never_overwrites_witness :
  unpacked (chmod_tar_extract_all plain_extract (λ t, link_ (it_link t)) demo_items 1 (Some (of_string "/sb")) empty_os).1
    (of_string "/sb/a") (Item ISREG (of_string "a") (of_string "data") []).
Proof.
  edestruct (unpack_never_overwrites plain_extract (λ t, link_ (it_link t))) with
    (items := demo_items) (last := 1) (prefix := Some (of_string "/sb")) (s := empty_os) (r := 0) as [_ H].
  - intros t p s s' r Hno E. apply (f_equal fst) in E. cbn [fst] in E. subst s'. split; [done|]. intros q i Hi. rewrite plain_extract_at.
    rewrite bool_decide_false; [done|]. intros ->. congruence.
  - intros t p s s' r. apply plain_link_leaves.
  - intros t p s s' Hno E. apply (f_equal fst) in E. cbn [fst] in E. subst s'. rewrite plain_extract_at. rewrite bool_decide_true by done. by eexists.
  - done.
  - vm_compute. reflexivity.
  - destruct (H eq_refl) as [_ Hall]. apply Forall_cons in Hall as [Ha _]. destruct (Ha eq_refl) as (p & Hp & Hu).
    injection Hp as <-. exact Hu.
Defined.

Lemma empty_os_ok fault : os_ok (OS ∅ ∅ 18 0 0 fault).
Proof. split; intros *; simpl; rewrite lookup_empty; done. Qed.

Lemma check_dir_success_witness :
  ∃ s' r, check_dir (of_string "/sb") true 504 99 500 empty_os = (s', Ret r) ∧ r = 0 ∧
    ∃ i, file_at s' (of_string "/sb") = Some i ∧ i_type i = Directory ∧ i_uid i = 500.
Proof.
  destruct (check_dir_success (of_string "/sb") true 504 99 500 empty_os (empty_os_ok _)) as (s' & r & E & _ & H);
    [vm_compute; discriminate|vm_compute; discriminate|].
  exists s', r. split; [exact E|]. assert (r = 0) as Hr by (vm_compute in E; congruence). split; [exact Hr|].
  destruct (H Hr) as (i & Hi & Hd & _ & _ & _ & Hu). exists i. split; [exact Hi|]. split; [exact Hd|]. apply Hu. vm_compute. discriminate.
Defined.

(** A kernel that refuses to change owners. *)
Definition no_chown : os := OS ∅ ∅ 18 0 0 (λ c _, if bool_decide (c = C_chown) then Some EACCES else None).

Lemma check_dir_failure_witness :
  let '(s', r) := check_dir (of_string "/sb") true 504 99 500 no_chown in
  r = Ret ADJUST_DIRECTORY_ERR_CHOWN ∧ file_at s' (of_string "/sb") = None.
Proof.
  destruct (check_dir (of_string "/sb") true 504 99 500 no_chown) as [s' r] eqn:E.
  assert (r = Ret 8) as -> by (vm_compute in E; congruence). split; [reflexivity|].
  rewrite (check_dir_failure (of_string "/sb") true 504 99 500 no_chown s' 8 (empty_os_ok _));
    [reflexivity|discriminate|reflexivity|exact E|discriminate|discriminate].
Defined.

Lemma dirs_stop_at_failure_witness :
  (dirs_loop [of_string "/a"; of_string "/b"; of_string "/c"] true 504 99 500
     (OS ∅ ∅ 18 0 0 (λ c p, if bool_decide (c = C_mkdir ∧ p = of_string "/b") then Some EACCES else None))).2
  = Fail (Exit ADJUST_DIRECTORY_ERR_MKDIR).
Proof.
  set (s := OS _ _ _ _ _ _). change [of_string "/a"; of_string "/b"; of_string "/c"] with ([of_string "/a"] ++ of_string "/b" :: [of_string "/c"]).
  rewrite (dirs_stop_at_failure [of_string "/a"] (of_string "/b") [of_string "/c"] true 504 99 500 s
             (dirs_loop [of_string "/a"] true 504 99 500 s).1
             (check_dir (of_string "/b") true 504 99 500 (dirs_loop [of_string "/a"] true 504 99 500 s).1).1 64);
    [reflexivity|vm_compute; reflexivity|vm_compute; reflexivity|discriminate].
Defined.

(** A [zlib] that stores. *)
Definition stored (x : bytes) : list bytes * bool := ([tail x], true).

Lemma gunzip_roundtrip_witness :
  let s := (append_ (of_string "/sb.gz") (of_string "zdata") (creat_ (of_string "/sb.gz") empty_os).1).1 in
  ∃ s', gzUncompress stored (of_string "/sb.gz") (of_string "/sb") s = (s', Ret 0) ∧ sole_file (of_string "/sb") s' (of_string "data").
Proof.
  intros s. assert (os_names s = ({[of_string "/sb.gz" := 0%nat]} : gmap bytes nat)) as En by (vm_compute; reflexivity).
  destruct (gunzip_roundtrip stored (of_string "/sb") (cons "z"%char) (of_string "/sb.gz") s (of_string "data")
              (Inode (Regular (of_string "zdata")) 420 0 0)) as (s' & E & H & _).
  - intros y. split; [apply app_nil_r|reflexivity].
  - split.
    + intros p n. rewrite En, lookup_singleton_Some. intros [_ <-]. by eexists.
    + intros p q n i. rewrite En, !lookup_singleton_Some. intros [<- _] [<- _]. done.
  - intros c p. reflexivity.
  - discriminate.
  - reflexivity.
  - reflexivity.
  - reflexivity.
  - discriminate.
  - exists s'. split; [exact E|exact H].
Defined.

Lemma empty_number_is_root_witness :
  read_options [Opt "c" (Some (of_string "12x"))] (Options None false false 0 [] 0) empty_os =
  (empty_os, Fail (Exit ADJUST_DIRECTORY_ERR_OPTIONS)).
Proof. destruct empty_number_is_root as [H _]. apply H. reflexivity. Defined.
