(* ===== verification/Vectors.v ===== *)
(** * Sorted vectors of keys

    What the id containers use of the C++ library: [operator<] on
    [std::string], [std::lower_bound] (the halving loop of libstdc++),
    [std::sort], and insertion and erasure by index.  The lemmas describe
    the binary search by a linear scan. *)

From Stdlib Require Import Sorting.Sorted.
From stdpp Require Import sorting.
From S2P Require Import Prelude.

(** ** The order on strings

    [char_traits<char>] compares characters as unsigned; a proper prefix is
    smaller. *)
Fixpoint str_ltb (a b : bytes) : bool :=
  match a, b with
  | _, [] => false
  | [], _ :: _ => true
  | x :: a, y :: b =>
      if bool_decide (x = y) then str_ltb a b else (N_of_ascii x <? N_of_ascii y)%N
  end.
Definition str_lt (a b : bytes) : Prop := str_ltb a b = true.
Definition str_le (a b : bytes) : Prop := str_ltb b a = false.
#[export] Instance str_lt_dec a b : Decision (str_lt a b) := decide (str_ltb a b = true).
#[export] Instance str_le_dec a b : Decision (str_le a b) := decide (str_ltb b a = false).

Lemma N_of_ascii_inj x y : N_of_ascii x = N_of_ascii y → x = y.
Proof. intros E. by rewrite <- (ascii_N_embedding x), <- (ascii_N_embedding y), E. Qed.

Lemma str_lt_irrefl a : str_ltb a a = false.
Proof. induction a as [|x a IH]; simpl; [done|]. by rewrite bool_decide_true. Qed.

Lemma str_lt_trans a b c : str_lt a b → str_lt b c → str_lt a c.
Proof.
  unfold str_lt. revert b c. induction a as [|x a IH]; intros [|y b] [|z c]; simpl; try done.
  repeat case_bool_decide; simplify_eq; eauto; rewrite ?N.ltb_lt; try done; try lia.
Qed.
#[export] Instance str_lt_transitive : Transitive str_lt := str_lt_trans.

Lemma str_lt_total a b : str_ltb a b = false → str_ltb b a = false → a = b.
Proof.
  revert b. induction a as [|x a IH]; intros [|y b]; simpl; try done.
  repeat case_bool_decide; simplify_eq; [intros; f_equal; auto|].
  rewrite !N.ltb_ge. intros H1 H2. assert (N_of_ascii x = N_of_ascii y) by lia. by apply N_of_ascii_inj in H3.
Qed.

Lemma str_le_lt a b : str_le a b → a ≠ b → str_lt a b.
Proof. unfold str_le, str_lt. intros H Hne. destruct (str_ltb a b) eqn:E; [done|]. by destruct Hne; apply str_lt_total. Qed.
Lemma str_lt_le a b : str_lt a b → str_le a b.
Proof.
  unfold str_le, str_lt. intros H. destruct (str_ltb b a) eqn:E; [|done].
  pose proof (str_lt_trans _ _ _ H E) as F. unfold str_lt in F. by rewrite str_lt_irrefl in F.
Qed.
#[export] Instance str_le_total : Total str_le.
Proof. intros a b. unfold str_le. destruct (str_ltb b a) eqn:E; [right; by apply str_lt_le|by left]. Qed.
#[export] Instance str_le_transitive : Transitive str_le.
Proof.
  intros a b c H1 H2. unfold str_le in *. destruct (str_ltb c a) eqn:E; [|done].
  destruct (decide (a = b)) as [->|Hn]; [congruence|]. pose proof (str_lt_trans _ _ _ E (str_le_lt _ _ H1 Hn)) as F. unfold str_lt in F. congruence.
Qed.


Lemma perm_delete {X Y : Type} (f : X → Y) (v : list Y) (i : nat) (L1 : list X) x L2 :
  v ≡ₚ f <$> (L1 ++ x :: L2) → v !! i = Some (f x) → delete i v ≡ₚ f <$> (L1 ++ L2).
Proof.
  intros Hv Hi. apply (Permutation_cons_inv (a := f x)). rewrite <- (delete_Permutation _ _ _ Hi), Hv, !fmap_app, fmap_cons. by rewrite Permutation_middle.
Qed.
Lemma NoDup_mid {X} (L1 : list X) x L2 : NoDup (L1 ++ x :: L2) → NoDup (L1 ++ L2).
Proof. intros H. rewrite <- Permutation_middle in H. by apply NoDup_cons in H as [_ H]. Qed.

(** ** Searching, by key *)
Section vector.
Context {X : Type} (key : X → bytes).
Implicit Types (v : list X) (x : X) (k : bytes).

(** [std::lower_bound( v.begin(), v.end(), k, Compare() )] as an index: the
    window [len] elements long from [first] is halved in every round. *)
Fixpoint lower_bound_loop (fuel : nat) v k (first len : nat) : nat :=
  match fuel with
  | O => first
  | S f =>
      if bool_decide (len = 0)%nat then first
      else
        let half := Nat.div2 len in
        let middle := (first + half)%nat in
        match v !! middle with
        | Some x => if str_ltb (key x) k then lower_bound_loop f v k (S middle) (len - half - 1)
                    else lower_bound_loop f v k first half
        | None => first
        end
  end.
Definition lower_bound v k : nat := lower_bound_loop (length v) v k 0 (length v).

(** [v.insert( pos, x )] *)
Definition insert_at (i : nat) x v : list X := take i v ++ x :: drop i v.
(** [std::sort( v.begin(), v.end(), Compare() )]: a sorted permutation; the
    order of equal keys is unspecified in C++ and fixed here. *)
Definition key_le x y : Prop := str_le (key x) (key y).
#[local] Instance key_le_dec x y : Decision (key_le x y) := str_le_dec _ _.
#[local] Instance key_le_total : Total key_le.
Proof. intros x y. apply str_le_total. Qed.
Definition sort v : list X := merge_sort key_le v.

(** The vector is sorted and its keys are different. *)
Definition sorted v : Prop := StronglySorted (λ x y, str_lt (key x) (key y)) v.

(** The linear scan: how many elements come before [k]. *)
Definition before v k : nat := length (span (λ x, str_ltb (key x) k) v).1.

Lemma sorted_cons x v : sorted (x :: v) ↔ sorted v ∧ Forall (λ y, str_lt (key x) (key y)) v.
Proof. split; [apply StronglySorted_inv|intros [? ?]; by constructor]. Qed.

Lemma sorted_app v1 v2 :
  sorted (v1 ++ v2) ↔ sorted v1 ∧ sorted v2 ∧ ∀ x y, x ∈ v1 → y ∈ v2 → str_lt (key x) (key y).
Proof.
  induction v1 as [|x v1 IH]; simpl.
  - split; [intros H; split_and!; [constructor|done|by intros ?? ?%elem_of_nil]|by intros (_ & ? & _)].
  - rewrite !sorted_cons, IH, Forall_app, !Forall_forall. split.
    + intros [(H1 & H2 & H3) [H4 H5]]. split_and!; auto. intros a b [-> | Ha]%elem_of_cons Hb; auto.
    + intros ([H1 H2] & H3 & H4). split_and!; auto; intros; apply H4; auto; apply elem_of_cons; auto.
Qed.

(** In a sorted vector the elements below [k] are the first [before v k]. *)
Lemma before_spec v k : sorted v → ∀ i x, v !! i = Some x → str_ltb (key x) k = bool_decide (i < before v k)%nat.
Proof.
  unfold before. induction v as [|y v IH]; intros Hs i x Hi; [done|]. apply sorted_cons in Hs as [Hs Hy]. simpl.
  destruct (str_ltb (key y) k) eqn:E; simpl.
  - destruct i as [|i]; simplify_eq/=.
    + rewrite E. destruct (span _ v). done.
    + rewrite (IH Hs i x Hi). destruct (span _ v). simpl. apply bool_decide_ext. lia.
  - destruct i as [|i]; simplify_eq/=; [done|].
    destruct (str_ltb (key x) k) eqn:E2; [|done]. rewrite Forall_forall in Hy.
    pose proof (str_lt_trans _ _ _ (Hy x (list_elem_of_lookup_2 _ _ _ Hi)) E2) as F. unfold str_lt in F. congruence.
Qed.
Lemma before_le v k : (before v k ≤ length v)%nat.
Proof. unfold before. rewrite <- (span_app (λ x, str_ltb (key x) k) v) at 2. rewrite length_app. lia. Qed.

Lemma lower_bound_loop_before v k : sorted v → ∀ fuel first len,
  (len ≤ fuel)%nat → (first ≤ before v k)%nat → (before v k ≤ first + len)%nat → (first + len ≤ length v)%nat →
  lower_bound_loop fuel v k first len = before v k.
Proof.
  intros Hs. induction fuel as [|f IH]; intros first len Hf H1 H2 H3; simpl; [lia|].
  case_bool_decide as Hl; [lia|].
  assert (Nat.div2 len < len)%nat as Hd by (apply Nat.lt_div2; lia). revert Hd. generalize (Nat.div2 len). intros half Hd.
  destruct (lookup_lt_is_Some_2 v (first + half)) as [x Hx]; [lia|]. rewrite Hx, (before_spec v k Hs _ _ Hx).
  case_bool_decide as Hm; (apply IH; [lia..|]); lia.
Qed.

(** The halving loop ends after at most [length v] rounds at the place a
    linear scan finds. *)
Lemma lower_bound_before v k : sorted v → lower_bound v k = before v k.
Proof. intros Hs. apply lower_bound_loop_before; [done|lia|lia|apply before_le|lia]. Qed.

(** ** Where a key is *)
Lemma sorted_lookup_inj v i j x y : sorted v → v !! i = Some x → v !! j = Some y → key x = key y → i = j ∧ x = y.
Proof.
  intros Hs. revert i j. induction v as [|z v IH]; intros i j Hi Hj E; [done|]. apply sorted_cons in Hs as [Hs Hz]. rewrite Forall_forall in Hz.
  assert (∀ w n, v !! n = Some w → key w = key z → False) as Hw.
  { intros w n Hn Ez. pose proof (Hz w (list_elem_of_lookup_2 _ _ _ Hn)) as F. unfold str_lt in F. rewrite Ez in F. by rewrite str_lt_irrefl in F. }
  destruct i as [|i], j as [|j]; simplify_eq/=; [done|exfalso; by eapply Hw|exfalso; by eapply Hw|].
  destruct (IH Hs i j Hi Hj E) as [-> ->]. done.
Qed.

(** The test the code makes after the search: not at the end, and the key
    there is the one looked for. *)
Definition found v k : option (nat * X) :=
  let i := lower_bound v k in
  match v !! i with
  | Some x => if bool_decide (key x = k) then Some (i, x) else None
  | None => None
  end.

Lemma found_Some v k i x : sorted v → v !! i = Some x → key x = k → found v k = Some (i, x).
Proof.
  intros Hs Hi <-. unfold found. rewrite (lower_bound_before v (key x) Hs).
  assert (before v (key x) = i) as ->; [|by rewrite Hi, bool_decide_true].
  pose proof (before_spec v (key x) Hs i x Hi) as E. rewrite str_lt_irrefl in E. symmetry in E. apply bool_decide_eq_false in E.
  destruct (decide (before v (key x) = i)) as [|Hne]; [done|].
  destruct (lookup_lt_is_Some_2 v (before v (key x))) as [y Hy]; [apply lookup_lt_Some in Hi; lia|].
  pose proof (before_spec v (key x) Hs _ y Hy) as E2. rewrite bool_decide_false in E2 by apply Nat.lt_irrefl.
  assert (str_lt (key y) (key x)) as F; [|unfold str_lt in F; congruence].
  clear E2. assert (before v (key x) < i)%nat as Hlt by lia. revert Hlt Hy. generalize (before v (key x)). intros n Hlt Hy.
  rewrite <- (take_drop i v) in Hs. apply sorted_app in Hs as (_ & _ & Hs). apply Hs.
  - apply list_elem_of_lookup. exists n. by rewrite lookup_take_lt.
  - apply list_elem_of_lookup. exists 0%nat. by rewrite lookup_drop, Nat.add_0_r.
Qed.
Lemma found_inv v k i x : found v k = Some (i, x) → v !! i = Some x ∧ key x = k ∧ i = lower_bound v k.
Proof. unfold found. destruct (v !! _) as [y|] eqn:E; [|done]. case_bool_decide; [|done]. intros [= <- <-]. done. Qed.
Lemma found_elem v x : sorted v → x ∈ v → ∃ i, found v (key x) = Some (i, x) ∧ v !! i = Some x.
Proof. intros Hs [i Hi]%list_elem_of_lookup. exists i. split; [by apply found_Some|done]. Qed.
Lemma found_None v k : k ∉ key <$> v → found v k = None.
Proof.
  intros Hk. unfold found. destruct (v !! _) as [x|] eqn:E; [|done]. case_bool_decide as Hx; [|done]. destruct Hk.
  apply list_elem_of_fmap. exists x. split; [done|by eapply list_elem_of_lookup_2].
Qed.

(** ** Insertion, erasure, sorting *)
Lemma insert_at_perm i x v : insert_at i x v ≡ₚ x :: v.
Proof. unfold insert_at. rewrite <- Permutation_middle, take_drop. done. Qed.

Lemma insert_sorted v x : sorted v → key x ∉ key <$> v → sorted (insert_at (lower_bound v (key x)) x v).
Proof.
  intros Hs Hx. rewrite (lower_bound_before _ _ Hs). unfold insert_at. pose proof Hs as Hs'. rewrite <- (take_drop (before v (key x)) v) in Hs'.
  apply sorted_app in Hs' as (H1 & H2 & H3). apply sorted_app. split; [done|]. split.
  - apply sorted_cons. split; [done|]. apply Forall_forall. intros y Hy. apply str_le_lt.
    + apply list_elem_of_lookup in Hy as [i Hi]. rewrite lookup_drop in Hi. unfold str_le. rewrite (before_spec v _ Hs _ _ Hi). apply bool_decide_false. lia.
    + intros E. apply Hx. apply list_elem_of_fmap. exists y. split; [done|]. apply list_elem_of_lookup in Hy as [i Hi]. rewrite lookup_drop in Hi. by eapply list_elem_of_lookup_2.
  - intros y z Hy Hz. assert (str_lt (key y) (key x)) as Hyx.
    { apply list_elem_of_lookup in Hy as [i Hi]. apply lookup_take_Some in Hi as [Hi Hlt]. unfold str_lt. rewrite (before_spec v _ Hs _ _ Hi). by apply bool_decide_true. }
    apply elem_of_cons in Hz as [-> | Hz]; [done|]. by apply H3.
Qed.

(** [v.erase( pos )] is [delete]. *)
Lemma sublist_sorted v w : v `sublist_of` w → sorted w → sorted v.
Proof.
  induction 1 as [|x v w Hvw IH|x v w Hvw IH]; intros Hs; [done|..]; apply sorted_cons in Hs as [Hs Hx]; [|by apply IH].
  apply sorted_cons. split; [by apply IH|]. rewrite Forall_forall in Hx |- *. intros y Hy. apply Hx. by eapply elem_of_sublist.
Qed.
Lemma erase_sorted v i : sorted v → sorted (delete i v).
Proof. apply sublist_sorted, sublist_delete. Qed.

Lemma sort_perm v : sort v ≡ₚ v.
Proof. apply merge_sort_Permutation. Qed.
Lemma sort_sorted v : NoDup (key <$> v) → sorted (sort v).
Proof.
  intros Hn. assert (NoDup (key <$> sort v)) as Hn' by (by rewrite sort_perm).
  assert (Transitive key_le) as Ht by (intros x y z; apply str_le_transitive).
  pose proof (StronglySorted_merge_sort key_le v : StronglySorted key_le (sort v)) as Hs.
  induction Hs as [|x w Hs IH Hx]; [constructor|]. rewrite fmap_cons in Hn'. apply NoDup_cons in Hn' as [Hx' Hn']. apply sorted_cons. split; [by apply IH|].
  rewrite Forall_forall in Hx |- *. intros y Hy. apply str_le_lt; [by apply Hx|]. intros E. apply Hx'. rewrite E. by apply list_elem_of_fmap_2.
Qed.
End vector.
