(* ===== verification/IdContainer.v ===== *)
(** * The job id repository

    Model of [jobsubmission/src/common/pointer_id.{h,cpp}],
    [id_compare.h], [id_container.{h,cpp}] and [ram_container.{h,cpp}]: the
    repository of job ids of the log monitor, kept in a [FileList] of
    ClassAds with two sorted indexes in memory, and its copy without a file
    that the job controller keeps.

    [std::list<PointerId>] is a list of nodes with an identity; an iterator
    into it is the number of the node.  Nodes are never reused, so that an
    iterator to an erased node finds nothing: dereferencing it is [Stuck].
    The ClassAd library is the class [ClassAd]; its parser and unparser are
    the [Converter] of the list.  The advisory lock on the file that every
    operation takes has no effect here: one process is looked at. *)

From S2P Require Import Prelude Vectors Digits Stream FileContainer FileList.

(** ** What the code calls of the ClassAd library *)

Inductive literal := Str (s : bytes) | Num (z : Z).

Class ClassAd (A : Type) := {
  ad_empty : A;
  InsertAttr : bytes → literal → A → A;
  (** [None]: the call returns false and leaves its reference alone. *)
  EvaluateAttrString : bytes → A → option bytes;
  EvaluateAttrNumber : bytes → A → option Z;
  (** [Update that this] *)
  Update : A → A → A
}.

(** The attributes, and their names [pi_s_CondorId] ... [pi_s_RetryCount]. *)
Inductive attr := ACondorId | AEdgId | ASequenceCode | ACondorStatus | ALastStatus | ARetryCount.
Definition attr_name (a : attr) : bytes :=
  of_string match a with
  | ACondorId => "CondorId" | AEdgId => "EdgId" | ASequenceCode => "SequenceCode"
  | ACondorStatus => "CondorStatus" | ALastStatus => "LastStatus" | ARetryCount => "RetryCount"
  end.

(** [job_statuses_t] *)
Definition undefined_status : Z := -2.
Definition no_resubmission : Z := -1.
Definition int_max : Z := 2 ^ 31 - 1.

(** ** [PointerId], [EdgId], [CondorId] *)

(** The copy constructor and the assignment of a list iterator. *)
Definition fli_copy {T} (i : FLIterator T) : FLIterator T := FLI (bi_copy (fli_base i)) None.
Definition fli_assign {T} (i : FLIterator T) : FLIterator T := FLI (bi_copy (fli_base i)) (fli_object i).
(** [FLIterator::reset()] and [FLIterator()]. *)
Definition fli_reset {T} (i : FLIterator T) : FLIterator T := FLI (upd_good false (fli_base i)) (fli_object i).
Definition fli_null {T} : FLIterator T := FLI bi_null None.

Record PointerId (A : Type) := Pointer {
  pi_condorStatus : Z;
  pi_lastStatus : Z;
  pi_retryCount : Z;
  pi_position : FLIterator A;
  pi_condorId : bytes;
  pi_edgId : bytes;
  pi_sequenceCode : bytes
}.
Arguments Pointer {A}.
Arguments pi_condorStatus {A}.
Arguments pi_lastStatus {A}.
Arguments pi_retryCount {A}.
Arguments pi_position {A}.
Arguments pi_condorId {A}.
Arguments pi_edgId {A}.
Arguments pi_sequenceCode {A}.

Record EdgId := Edg { ei_position : nat; ei_edgId : bytes }.
Record CondorId := Condor { ci_position : nat; ci_condorId : bytes }.

Definition set_position {A} (pos : FLIterator A) (p : PointerId A) : PointerId A :=
  Pointer (pi_condorStatus p) (pi_lastStatus p) (pi_retryCount p) pos (pi_condorId p) (pi_edgId p) (pi_sequenceCode p).
(** The implicit copy constructor. *)
Definition pi_copy {A} (p : PointerId A) : PointerId A := set_position (fli_copy (pi_position p)) p.
Definition unset_position {A} (p : PointerId A) : PointerId A := set_position (fli_reset (pi_position p)) p.

Section pointer_id.
Context {C : Type} `{Container C} {A : Type} `{Converter A} `{ClassAd A}.

(** The six [EvaluateAttr] calls. *)
Definition evaluate (value : A) (p : PointerId A) : PointerId A :=
  Pointer (default (pi_condorStatus p) (EvaluateAttrNumber (attr_name ACondorStatus) value))
          (default (pi_lastStatus p) (EvaluateAttrNumber (attr_name ALastStatus) value))
          (default (pi_retryCount p) (EvaluateAttrNumber (attr_name ARetryCount) value))
          (pi_position p)
          (default (pi_condorId p) (EvaluateAttrString (attr_name ACondorId) value))
          (default (pi_edgId p) (EvaluateAttrString (attr_name AEdgId) value))
          (default (pi_sequenceCode p) (EvaluateAttrString (attr_name ASequenceCode) value)).

(** [PointerId( position )]: the pointer, and the iterator that has cached
    the value it stands on. *)
Definition PointerId_at (position : FLIterator A) : FL C (PointerId A * FLIterator A) :=
  r ← fli_deref position;
  mret (evaluate r.1 (Pointer 0 undefined_status 0 (fli_copy position) [] [] []), r.2).
(** [PointerId( position, condorId, edgId, seqcode )] *)
Definition PointerId_new (position : FLIterator A) (condorId edgId seqcode : bytes) : PointerId A :=
  Pointer 0 undefined_status 0 (fli_copy position) condorId edgId seqcode.
(** [PointerId( condorId, edgId )] *)
Definition PointerId_ids (condorId edgId : bytes) : PointerId A :=
  Pointer 0 undefined_status 0 fli_null condorId edgId [].
(** [reset( position )] *)
Definition PointerId_reset (position : FLIterator A) (p : PointerId A) : FL C (PointerId A * FLIterator A) :=
  r ← fli_deref position;
  mret (evaluate (Update r.1 ad_empty) (set_position (fli_assign position) p), r.2).
(** [reset( condorId, edgId )] and [reset( position, seqcode )] *)
Definition PointerId_reset_ids (condorId edgId : bytes) (p : PointerId A) : PointerId A :=
  Pointer (pi_condorStatus p) (pi_lastStatus p) (pi_retryCount p) (fli_reset (pi_position p)) condorId edgId (pi_sequenceCode p).
Definition PointerId_reset_code (position : FLIterator A) (seqcode : bytes) (p : PointerId A) : PointerId A :=
  Pointer (pi_condorStatus p) (pi_lastStatus p) (pi_retryCount p) (fli_assign position) (pi_condorId p) (pi_edgId p) seqcode.
End pointer_id.

(** ** The pointers and their indexes

    The members [..._pointers], [..._edgs] and [..._condors] that the two
    containers have in common. *)
Record pointers (A : Type) := Pointers {
  ps_list : list (nat * PointerId A);
  ps_fresh : nat;
  ps_edgs : list EdgId;
  ps_condors : list CondorId
}.
Arguments Pointers {A}.
Arguments ps_list {A}.
Arguments ps_fresh {A}.
Arguments ps_edgs {A}.
Arguments ps_condors {A}.

Section pointers.
Context {A : Type}.
Implicit Types (ps : pointers A) (p : PointerId A) (node : nat).

Definition no_pointers : pointers A := Pointers [] 0 [] [].
(** The three calls of [clear()]; node numbers go on. *)
Definition clear_pointers ps : pointers A := Pointers [] (ps_fresh ps) [] [].

Fixpoint node_of (l : list (nat * PointerId A)) node : option (PointerId A) :=
  match l with
  | [] => None
  | (n, p) :: l => if bool_decide (n = node) then Some p else node_of l node
  end.
Definition deref ps node : option (PointerId A) := node_of (ps_list ps) node.
Definition set_list l ps : pointers A := Pointers l (ps_fresh ps) (ps_edgs ps) (ps_condors ps).
Definition set_edgs es ps : pointers A := Pointers (ps_list ps) (ps_fresh ps) es (ps_condors ps).
Definition set_condors cs ps : pointers A := Pointers (ps_list ps) (ps_fresh ps) (ps_edgs ps) cs.
Definition set_node node p ps : pointers A :=
  set_list ((λ np, if bool_decide (np.1 = node) then (np.1, p) else np) <$> ps_list ps) ps.
(** [pointers.push_back( p )]; the new node is the old [ps_fresh]. *)
Definition push_node p ps : pointers A :=
  Pointers (ps_list ps ++ [(ps_fresh ps, pi_copy p)]) (S (ps_fresh ps)) (ps_edgs ps) (ps_condors ps).
Definition erase_node node ps : pointers A := set_list (filter (λ np, np.1 ≠ node) (ps_list ps)) ps.

(** [push_back( p )] and the two index entries at the ends. *)
Definition push_indexed p ps : pointers A :=
  let node := ps_fresh ps in
  let ps := push_node p ps in
  set_edgs (ps_edgs ps ++ [Edg node (pi_edgId p)]) (set_condors (ps_condors ps ++ [Condor node (pi_condorId p)]) ps).
Definition sort_indexes ps : pointers A :=
  set_edgs (sort ei_edgId (ps_edgs ps)) (set_condors (sort ci_condorId (ps_condors ps)) ps).

Definition condors_at ps (condorId : bytes) : nat := lower_bound ci_condorId (ps_condors ps) condorId.
Definition edgs_at ps (edgId : bytes) : nat := lower_bound ei_edgId (ps_edgs ps) edgId.
Definition find_condor ps (condorId : bytes) : option (nat * CondorId) := found ci_condorId (ps_condors ps) condorId.
Definition find_edg ps (edgId : bytes) : option (nat * EdgId) := found ei_edgId (ps_edgs ps) edgId.

(** [position->condor_id()] through an index entry, and the empty string
    when there is none. *)
Definition condor_of {E} ps (edgId : bytes) : outcome E bytes :=
  match find_edg ps edgId with
  | Some (_, e) => match deref ps (ei_position e) with Some p => Ret (pi_condorId p) | None => Stuck end
  | None => Ret []
  end.
Definition edg_of {E} ps (condorId : bytes) : outcome E bytes :=
  match find_condor ps condorId with
  | Some (_, c) => match deref ps (ci_position c) with Some p => Ret (pi_edgId p) | None => Stuck end
  | None => Ret []
  end.
End pointers.

(** ** [IdContainer] *)
Record IdContainer (C A : Type) := Ids {
  ic_inserted : Z;
  ic_container : file_sequence C;
  ic_pointers : pointers A;
  ic_last : option nat
}.
Arguments Ids {C A}.
Arguments ic_inserted {C A}.
Arguments ic_container {C A}.
Arguments ic_pointers {C A}.
Arguments ic_last {C A}.

Section id_container.
Context {C : Type} `{Container C} {A : Type} `{Converter A} `{ClassAd A}.
#[local] Abbreviation IC := (M (IdContainer C A) iostatus_t).

(** A call on [this->ic_container]. *)
Definition on_list {X} (m : FL C X) : IC X := λ s,
  let '(l, r) := m (ic_container s) in (Ids (ic_inserted s) l (ic_pointers s) (ic_last s), r).
Definition upd_pointers (f : pointers A → pointers A) : IC unit :=
  modify (λ s, Ids (ic_inserted s) (ic_container s) (f (ic_pointers s)) (ic_last s)).
Definition upd_inserted (f : Z → Z) : IC unit :=
  modify (λ s, Ids (f (ic_inserted s)) (ic_container s) (ic_pointers s) (ic_last s)).
Definition set_ic_last (n : option nat) : IC unit :=
  modify (λ s, Ids (ic_inserted s) (ic_container s) (ic_pointers s) n).
Definition get_pointers : IC (pointers A) := λ s, (s, Ret (ic_pointers s)).
Definition query {X} (f : pointers A → outcome iostatus_t X) : IC X := λ s, (s, f (ic_pointers s)).
(** [*position] of an iterator into the list of pointers. *)
Definition get_node (node : nat) : IC (PointerId A) :=
  query (λ ps, match deref ps node with Some p => Ret p | None => Stuck end).

(** The walk of [onConstruct], one unit of fuel per round. *)
Fixpoint construct_loop (fuel : nat) (position end_ : FLIterator A) : IC unit :=
  match fuel with
  | O => stuck
  | S f =>
      if is_different (fli_base position) (fli_base end_) then
        r ← on_list (PointerId_at position);
        upd_pointers (push_indexed r.1);;
        position ← on_list (fli_incr r.2);
        construct_loop f position end_
      else mret tt
  end.
Definition onConstruct (fuel : nat) : IC unit :=
  last ← on_list end_;
  first ← on_list begin_;
  construct_loop fuel (fli_assign first) last;;
  upd_pointers sort_indexes.

(** The constructors: the members, then the body. *)
Definition new_ids (l : file_sequence C) : IdContainer C A := Ids 0 l no_pointers None.
Definition IdContainer_construct (fuel : nat) : IC unit :=
  empty ← on_list fs_empty;
  if (empty : bool) then mret tt else onConstruct fuel.

Definition condor_id (edgId : bytes) : IC bytes := query (λ ps, condor_of ps edgId).
Definition edg_id (condorId : bytes) : IC bytes := query (λ ps, edg_of ps condorId).
(** [None] is [ic_pointers.end()]. *)
Definition position_by_condor_id (condorId : bytes) : IC (option nat) :=
  query (λ ps, Ret (match find_condor ps condorId with Some (_, c) => Some (ci_position c) | None => None end)).
Definition position_by_edg_id (edgId : bytes) : IC (option nat) :=
  query (λ ps, Ret (match find_edg ps edgId with Some (_, e) => Some (ei_position e) | None => None end)).

(** [last = this->ic_container.end(); --last;] *)
Definition last_element : IC (FLIterator A) :=
  i ← on_list end_;
  on_list (fli_decr (fli_assign i)).

(** The ClassAd that [insert] builds. *)
Definition new_ad (edgId condorId sequenceCode : bytes) (status : Z) : A :=
  InsertAttr (attr_name ACondorStatus) (Num status)
    (InsertAttr (attr_name ASequenceCode) (Str sequenceCode)
      (InsertAttr (attr_name AEdgId) (Str edgId)
        (InsertAttr (attr_name ACondorId) (Str condorId) ad_empty))).

Definition insert (edgId condorId sequenceCode : bytes) (status : Z) : IC bool :=
  ps ← get_pointers;
  let condorPos := condors_at ps condorId in
  let edgPos := edgs_at ps edgId in
  if bool_decide (is_Some (find_edg ps edgId)) || bool_decide (is_Some (find_condor ps condorId)) then mret true
  else
    on_list (push_back (new_ad edgId condorId sequenceCode status));;
    last ← last_element;
    ps ← get_pointers;
    let node := ps_fresh ps in
    upd_pointers (push_node (PointerId_new last condorId edgId sequenceCode));;
    set_ic_last (Some node);;
    upd_pointers (λ ps, set_condors (insert_at condorPos (Condor node condorId) (ps_condors ps)) ps);;
    upd_pointers (λ ps, set_edgs (insert_at edgPos (Edg node edgId) (ps_edgs ps)) ps);;
    upd_inserted (λ n, size_t (n + 1));;
    mret false.

(** Rewrite the ad of a pointer: the old element is erased, the new one
    goes to the end and the pointer follows it. *)
Definition rewrite_pointer (node : nat) (change : A → A) : IC bool :=
  p ← get_node node;
  r ← on_list (fli_deref (pi_position p));
  upd_pointers (set_node node (set_position r.2 p));;
  on_list (erase r.2);;
  on_list (push_back (change r.1));;
  last ← last_element;
  p ← get_node node;
  r ← on_list (PointerId_reset last p);
  upd_pointers (set_node node r.1);;
  mret false.
Definition update_ad (seqcode : bytes) (status laststatus : Z) (a : A) : A :=
  let a := InsertAttr (attr_name ACondorStatus) (Num status) (InsertAttr (attr_name ASequenceCode) (Str seqcode) a) in
  if bool_decide (laststatus ≠ undefined_status) then InsertAttr (attr_name ALastStatus) (Num laststatus) a else a.
Definition update_pointer (node : nat) (seqcode : bytes) (status laststatus : Z) : IC bool :=
  rewrite_pointer node (update_ad seqcode status laststatus).
(** [count + 1] overflows an [int] at [int_max]. *)
Definition increment_pointer_retry_count (node : nat) : IC bool :=
  p ← get_node node;
  let count := pi_retryCount p in
  if bool_decide (count < int_max)
  then rewrite_pointer node (InsertAttr (attr_name ARetryCount) (Num (count + 1)))
  else stuck.

Definition removePointers (edgPos condorPos : nat) : IC bool :=
  ps ← get_pointers;
  match ps_edgs ps !! edgPos with
  | Some e =>
      catch (p ← get_node (ei_position e);
             on_list (erase (fli_assign (pi_position p)));;
             upd_pointers (erase_node (ei_position e));;
             upd_pointers (λ ps, set_edgs (delete edgPos (ps_edgs ps)) ps);;
             upd_pointers (λ ps, set_condors (delete condorPos (ps_condors ps)) ps);;
             mret false)
            (λ _, mret true)
  | None => stuck
  end.
Definition remove_by_edg_id (edgId : bytes) : IC bool :=
  ps ← get_pointers;
  match find_edg ps edgId with
  | None => mret true
  | Some (edgPos, e) =>
      p ← get_node (ei_position e);
      match find_condor ps (pi_condorId p) with
      | None => mret true
      | Some (condorPos, _) => removePointers edgPos condorPos
      end
  end.
Definition remove_by_condor_id (condorId : bytes) : IC bool :=
  ps ← get_pointers;
  match find_condor ps condorId with
  | None => mret true
  | Some (condorPos, c) =>
      p ← get_node (ci_position c);
      match find_edg ps (pi_edgId p) with
      | None => mret true
      | Some (edgPos, _) => removePointers edgPos condorPos
      end
  end.
(** [remove( it )] *)
Definition ic_remove (node : nat) : IC bool := p ← get_node node; remove_by_edg_id (pi_edgId p).

Definition refresh (fuel : nat) : IC unit :=
  modified ← on_list fs_modified;
  if (modified : bool) then
    on_list fs_sync;;
    upd_pointers clear_pointers;;
    onConstruct fuel
  else mret tt.
Definition ic_compact (fuel : nat) : IC unit :=
  on_list fs_compact;;
  upd_pointers clear_pointers;;
  onConstruct fuel;;
  upd_inserted (λ _, 0).
Definition ic_clear : IC unit :=
  on_list fs_clear;;
  upd_pointers clear_pointers.
End id_container.

(** ** [RamContainer] *)
Record RamContainer (A : Type) := Ram { rc_inserted : Z; rc_pointers : pointers A }.
Arguments Ram {A}.
Arguments rc_inserted {A}.
Arguments rc_pointers {A}.

(** The code without a file does not throw: its errors are of the empty
    type. *)
Section ram_container.
Context {A : Type}.
#[local] Abbreviation RC := (M (RamContainer A) Empty_set).

Definition rc_new : RamContainer A := Ram 0 no_pointers.
Definition rc_upd (f : pointers A → pointers A) : RC unit := modify (λ s, Ram (rc_inserted s) (f (rc_pointers s))).
Definition rc_count (f : Z → Z) : RC unit := modify (λ s, Ram (f (rc_inserted s)) (rc_pointers s)).
Definition rc_get : RC (pointers A) := λ s, (s, Ret (rc_pointers s)).

Definition rc_condor_id (edgId : bytes) : RC bytes := λ s, (s, condor_of (rc_pointers s) edgId).
Definition rc_edg_id (condorId : bytes) : RC bytes := λ s, (s, edg_of (rc_pointers s) condorId).

(** Erasing a node; erasing a dangling iterator is undefined. *)
Definition rc_erase (node : nat) : RC unit :=
  ps ← rc_get;
  if bool_decide (is_Some (deref ps node)) then rc_upd (erase_node node) else stuck.

(** The [do ... while] loop of [insert]; one unit of fuel per round.  The
    answer is the last [(haveEdg, haveCondor)]. *)
Fixpoint rc_insert_loop (fuel : nat) (edgId condorId : bytes) : RC (bool * bool) :=
  match fuel with
  | O => stuck
  | S f =>
      ps ← rc_get;
      match find_edg ps edgId, find_condor ps condorId with
      | Some _, Some _ => mret (true, true)
      | Some (edgPos, e), None =>
          rc_erase (ei_position e);;
          rc_upd (λ ps, set_edgs (delete edgPos (ps_edgs ps)) ps);;
          rc_insert_loop f edgId condorId
      | None, Some (condorPos, c) =>
          rc_erase (ci_position c);;
          rc_upd (λ ps, set_condors (delete condorPos (ps_condors ps)) ps);;
          rc_insert_loop f edgId condorId
      | None, None => mret (false, false)
      end
  end.
Definition rc_insert (fuel : nat) (edgId condorId : bytes) : RC unit :=
  have ← rc_insert_loop fuel edgId condorId;
  let '(haveEdg, haveCondor) := have : bool * bool in
  if negb haveEdg || negb haveCondor then
    ps ← rc_get;
    let node := ps_fresh ps in
    let condorPos := condors_at ps condorId in
    let edgPos := edgs_at ps edgId in
    rc_upd (push_node (PointerId_ids condorId edgId));;
    rc_upd (λ ps, set_condors (insert_at condorPos (Condor node condorId) (ps_condors ps)) ps);;
    rc_upd (λ ps, set_edgs (insert_at edgPos (Edg node edgId) (ps_edgs ps)) ps);;
    rc_count (λ n, n + 1)
  else mret tt.

Definition rc_remove_by_condor_id (condorId : bytes) : RC bool :=
  ps ← rc_get;
  match find_condor ps condorId with
  | None => mret true
  | Some (condorPos, c) =>
      match deref ps (ci_position c) with
      | None => stuck
      | Some p =>
          match find_edg ps (pi_edgId p) with
          | None => mret true
          | Some (edgPos, e) =>
              rc_erase (ei_position e);;
              rc_upd (λ ps, set_edgs (delete edgPos (ps_edgs ps)) ps);;
              rc_upd (λ ps, set_condors (delete condorPos (ps_condors ps)) ps);;
              rc_count (λ n, n - 1);;
              mret false
          end
      end
  end.
End ram_container.

(** [internalCopy] reads the list of an [IdContainer] into one [PointerId]
    object that is reset for every element; it starts as [junk], since the
    default constructor leaves the three integers alone. *)
Section ram_copy.
Context {C : Type} `{Container C} {A : Type} `{Converter A} `{ClassAd A}.

Fixpoint copy_loop (fuel : nat) (current : PointerId A) (ps : pointers A) (position end_ : FLIterator A) : FL C (pointers A) :=
  match fuel with
  | O => stuck
  | S f =>
      if is_different (fli_base position) (fli_base end_) then
        r ← PointerId_reset position current;
        let current := unset_position r.1 in
        position ← fli_incr r.2;
        copy_loop f current (push_indexed current ps) position end_
      else mret ps
  end.
Definition internalCopy (fuel : nat) (junk : Z * Z * Z) (ps : pointers A) : FL C (pointers A) :=
  let '(s, l, r) := junk in
  last ← end_;
  first ← begin_;
  ps ← copy_loop fuel (Pointer s l r fli_null [] [] []) ps (fli_assign first) last;
  mret (sort_indexes ps).
(** [RamContainer( ic )] and [copy( ic )]: the container is read only. *)
Definition rc_copy (fuel : nat) (junk : Z * Z * Z) (rc : RamContainer A) : FL C (RamContainer A) :=
  ps ← internalCopy fuel junk (clear_pointers (rc_pointers rc));
  mret (Ram 0 ps).
End ram_copy.
