(* ===== verification/IdIndexes.v ===== *)
(** * The indexes of the job id repository

    The well-formedness of the pointers and their two sorted indexes, kept
    by every operation of the repository: each index is sorted and has one
    entry per node of the list, and no id occurs twice.  With it a search by
    binary search answers as a scan of the list. *)

From S2P Require Import Prelude Vectors Digits Stream FileContainer FileList IdContainer.

Section indexes.
Context {A : Type}.
Implicit Types (ps : pointers A) (p : PointerId A) (n : nat) (np : nat * PointerId A) (L : list (nat * PointerId A)).

Definition edg_entry np : EdgId := Edg np.1 (pi_edgId np.2).
Definition condor_entry np : CondorId := Condor np.1 (pi_condorId np.2).
Definition edg_ids L : list bytes := (λ np, pi_edgId np.2) <$> L.
Definition condor_ids L : list bytes := (λ np, pi_condorId np.2) <$> L.

Record indexed ps : Prop := {
  ix_fresh : Forall (λ np, np.1 < ps_fresh ps)%nat (ps_list ps);
  ix_nodes : NoDup (ps_list ps).*1;
  ix_edgs : NoDup (edg_ids (ps_list ps));
  ix_condors : NoDup (condor_ids (ps_list ps));
  ix_edgs_sorted : sorted ei_edgId (ps_edgs ps);
  ix_edgs_perm : ps_edgs ps ≡ₚ edg_entry <$> ps_list ps;
  ix_condors_sorted : sorted ci_condorId (ps_condors ps);
  ix_condors_perm : ps_condors ps ≡ₚ condor_entry <$> ps_list ps
}.

(** ** Dereferencing *)
Lemma node_of_mid L1 n p L2 : n ∉ L1.*1 → node_of (L1 ++ (n, p) :: L2) n = Some p.
Proof.
  induction L1 as [|[m q] L1 IH]; simpl; [by rewrite bool_decide_true|]. rewrite not_elem_of_cons. intros [Hn Hl].
  rewrite bool_decide_false by congruence. by apply IH.
Qed.
Lemma node_of_None L n : n ∉ L.*1 → node_of L n = None.
Proof.
  induction L as [|[m q] L IH]; simpl; [done|]. rewrite not_elem_of_cons. intros [Hn Hl]. rewrite bool_decide_false by congruence. by apply IH.
Qed.
Lemma deref_mid ps L1 n p L2 : indexed ps → ps_list ps = L1 ++ (n, p) :: L2 → deref ps n = Some p.
Proof.
  intros Hi E. unfold deref. rewrite E. apply node_of_mid. pose proof (ix_nodes _ Hi) as Hn. rewrite E, fmap_app in Hn.
  apply NoDup_app in Hn as (_ & Hn & _). intros H. apply (Hn _ H). apply elem_of_cons. by left.
Qed.

(** ** Searching *)
Lemma edg_keys ps : indexed ps → ei_edgId <$> ps_edgs ps ≡ₚ edg_ids (ps_list ps).
Proof. intros Hi. rewrite (ix_edgs_perm _ Hi), <- list_fmap_compose. done. Qed.
Lemma condor_keys ps : indexed ps → ci_condorId <$> ps_condors ps ≡ₚ condor_ids (ps_list ps).
Proof. intros Hi. rewrite (ix_condors_perm _ Hi), <- list_fmap_compose. done. Qed.

Lemma find_edg_mid ps L1 n p L2 : indexed ps → ps_list ps = L1 ++ (n, p) :: L2 →
  ∃ i, find_edg ps (pi_edgId p) = Some (i, Edg n (pi_edgId p)) ∧ ps_edgs ps !! i = Some (Edg n (pi_edgId p)).
Proof.
  intros Hi E. apply (found_elem ei_edgId _ (Edg n (pi_edgId p))); [apply Hi|]. rewrite (ix_edgs_perm _ Hi), E, fmap_app.
  apply elem_of_app. right. apply elem_of_cons. by left.
Qed.
Lemma find_condor_mid ps L1 n p L2 : indexed ps → ps_list ps = L1 ++ (n, p) :: L2 →
  ∃ i, find_condor ps (pi_condorId p) = Some (i, Condor n (pi_condorId p)) ∧ ps_condors ps !! i = Some (Condor n (pi_condorId p)).
Proof.
  intros Hi E. apply (found_elem ci_condorId _ (Condor n (pi_condorId p))); [apply Hi|]. rewrite (ix_condors_perm _ Hi), E, fmap_app.
  apply elem_of_app. right. apply elem_of_cons. by left.
Qed.
Lemma find_edg_None ps e : indexed ps → e ∉ edg_ids (ps_list ps) → find_edg ps e = None.
Proof. intros Hi He. apply found_None. by rewrite (edg_keys _ Hi). Qed.
Lemma find_condor_None ps c : indexed ps → c ∉ condor_ids (ps_list ps) → find_condor ps c = None.
Proof. intros Hi Hc. apply found_None. by rewrite (condor_keys _ Hi). Qed.

Lemma in_ids (f : PointerId A → bytes) L x :
  x ∈ ((λ np, f np.2) <$> L) → ∃ L1 n p L2, L = L1 ++ (n, p) :: L2 ∧ f p = x.
Proof. intros ([n p] & -> & (L1 & L2 & ->)%list_elem_of_split)%list_elem_of_fmap. by exists L1, n, p, L2. Qed.

(** The scan of the list of pointers that a search replaces. *)
Definition scan (key out : PointerId A → bytes) L (k : bytes) : bytes :=
  match list_find (λ np, key np.2 = k) L with Some (_, np) => out np.2 | None => [] end.

Lemma scan_None key out L k : k ∉ ((λ np, key np.2) <$> L) → scan key out L k = [].
Proof.
  intros Hk. unfold scan. destruct (list_find _ L) as [[i np]|] eqn:E; [|done]. apply list_find_Some in E as (Hi & Hkey & _). destruct Hk.
  apply list_elem_of_fmap. exists np. split; [done|by eapply list_elem_of_lookup_2].
Qed.
Lemma scan_mid key out L1 n p L2 :
  NoDup ((λ np, key np.2) <$> (L1 ++ (n, p) :: L2)) → scan key out (L1 ++ (n, p) :: L2) (key p) = out p.
Proof.
  intros Hn. unfold scan. assert (list_find (λ np, key np.2 = key p) (L1 ++ (n, p) :: L2) = Some (length L1, (n, p))) as ->; [|done].
  apply list_find_Some. split; [by apply list_lookup_middle|]. split; [done|]. intros j np Hj Hlt Hk.
  rewrite fmap_app in Hn. apply NoDup_app in Hn as (_ & Hn & _). apply (Hn (key p)); [|apply elem_of_cons; by left].
  apply list_elem_of_fmap. exists np. split; [done|]. rewrite lookup_app_l in Hj by done. by eapply list_elem_of_lookup_2.
Qed.

Lemma condor_of_scan {E} ps e : indexed ps → condor_of (E := E) ps e = Ret (scan pi_edgId pi_condorId (ps_list ps) e).
Proof.
  intros Hi. unfold condor_of. destruct (decide (e ∈ edg_ids (ps_list ps))) as [Hin|Hout].
  - apply in_ids in Hin as (L1 & n & p & L2 & El & <-). destruct (find_edg_mid ps L1 n p L2 Hi El) as (i & -> & _). cbn [ei_position].
    rewrite (deref_mid ps L1 n p L2 Hi El), El, scan_mid; [done|]. rewrite <- El. apply Hi.
  - rewrite (find_edg_None _ _ Hi Hout), scan_None; done.
Qed.
Lemma edg_of_scan {E} ps c : indexed ps → edg_of (E := E) ps c = Ret (scan pi_condorId pi_edgId (ps_list ps) c).
Proof.
  intros Hi. unfold edg_of. destruct (decide (c ∈ condor_ids (ps_list ps))) as [Hin|Hout].
  - apply in_ids in Hin as (L1 & n & p & L2 & El & <-). destruct (find_condor_mid ps L1 n p L2 Hi El) as (i & -> & _). cbn [ci_position].
    rewrite (deref_mid ps L1 n p L2 Hi El), El, scan_mid; [done|]. rewrite <- El. apply Hi.
  - rewrite (find_condor_None _ _ Hi Hout), scan_None; done.
Qed.

(** ** The operations *)
Lemma indexed_none : indexed no_pointers.
Proof. by split; try constructor. Qed.
Lemma indexed_clear ps : indexed (clear_pointers ps).
Proof. by split; try constructor. Qed.

(** A new node with its two entries. *)
Definition insert_pointer p ps : pointers A :=
  set_edgs (insert_at (edgs_at ps (pi_edgId p)) (Edg (ps_fresh ps) (pi_edgId p)) (ps_edgs ps))
    (set_condors (insert_at (condors_at ps (pi_condorId p)) (Condor (ps_fresh ps) (pi_condorId p)) (ps_condors ps)) (push_node p ps)).

Lemma insert_indexed ps p :
  indexed ps → pi_edgId p ∉ edg_ids (ps_list ps) → pi_condorId p ∉ condor_ids (ps_list ps) → indexed (insert_pointer p ps).
Proof.
  intros Hi He Hc. unfold insert_pointer, push_node, set_edgs, set_condors. split; cbn.
  - apply Forall_app. split; [|by repeat constructor]. eapply Forall_impl; [apply Hi|]. intros; simpl in *; lia.
  - rewrite fmap_app. apply NoDup_app. split; [apply Hi|]. split; [|apply NoDup_singleton].
    intros n (np & -> & Hin)%list_elem_of_fmap Hn%list_elem_of_singleton. pose proof (ix_fresh _ Hi) as Hf. rewrite Forall_forall in Hf.
    specialize (Hf _ Hin). simpl in *. lia.
  - unfold edg_ids. rewrite fmap_app. apply NoDup_app. split; [apply Hi|]. split; [|apply NoDup_singleton].
    intros x Hx ->%list_elem_of_singleton. done.
  - unfold condor_ids. rewrite fmap_app. apply NoDup_app. split; [apply Hi|]. split; [|apply NoDup_singleton].
    intros x Hx ->%list_elem_of_singleton. done.
  - apply (insert_sorted ei_edgId (ps_edgs ps) (Edg (ps_fresh ps) (pi_edgId p))); [apply Hi|]. by rewrite (edg_keys _ Hi).
  - rewrite insert_at_perm, (ix_edgs_perm _ Hi), fmap_app. apply Permutation_cons_append.
  - apply (insert_sorted ci_condorId (ps_condors ps) (Condor (ps_fresh ps) (pi_condorId p))); [apply Hi|]. by rewrite (condor_keys _ Hi).
  - rewrite insert_at_perm, (ix_condors_perm _ Hi), fmap_app. apply Permutation_cons_append.
Qed.

(** A node is erased with its two entries. *)
Definition erase_pointer n (i j : nat) ps : pointers A :=
  set_condors (delete j (ps_condors ps)) (set_edgs (delete i (ps_edgs ps)) (erase_node n ps)).

Lemma erase_node_mid ps L1 n p L2 : indexed ps → ps_list ps = L1 ++ (n, p) :: L2 → ps_list (erase_node n ps) = L1 ++ L2.
Proof.
  intros Hi E. cbn. rewrite E, filter_app, filter_cons. cbn [fst]. rewrite decide_False by auto.
  pose proof (ix_nodes _ Hi) as Hn. rewrite E, fmap_app, fmap_cons in Hn. apply NoDup_app in Hn as (_ & H1 & H2). apply NoDup_cons in H2 as [H2 _].
  rewrite !filter_all; [done| |]; apply Forall_forall; intros np Hnp Heq; subst n.
  - apply H2, list_elem_of_fmap. by exists np.
  - apply (H1 np.1); [by apply list_elem_of_fmap_2|]. apply elem_of_cons. by left.
Qed.
Lemma erase_indexed ps L1 n p L2 i j :
  indexed ps → ps_list ps = L1 ++ (n, p) :: L2 → ps_edgs ps !! i = Some (Edg n (pi_edgId p)) → ps_condors ps !! j = Some (Condor n (pi_condorId p)) →
  indexed (erase_pointer n i j ps) ∧ ps_list (erase_pointer n i j ps) = L1 ++ L2.
Proof.
  intros Hi E He Hc. pose proof (erase_node_mid ps L1 n p L2 Hi E) as El. split; [|exact El].
  pose proof (ix_fresh _ Hi) as H1. pose proof (ix_nodes _ Hi) as H2. pose proof (ix_edgs _ Hi) as H3. pose proof (ix_condors _ Hi) as H4.
  pose proof (ix_edgs_perm _ Hi) as H5. pose proof (ix_condors_perm _ Hi) as H6. rewrite E in H1, H2, H3, H4, H5, H6.
  cbn in El. split; cbn; rewrite ?El.
  - apply Forall_app in H1 as [H1 H1']. apply Forall_cons in H1' as [_ H1']. by apply Forall_app.
  - rewrite fmap_app in H2 |- *. by eapply NoDup_mid.
  - unfold edg_ids in *. rewrite fmap_app in H3 |- *. by eapply NoDup_mid.
  - unfold condor_ids in *. rewrite fmap_app in H4 |- *. by eapply NoDup_mid.
  - apply erase_sorted, Hi.
  - by eapply (perm_delete edg_entry _ i L1 (n, p)).
  - apply erase_sorted, Hi.
  - by eapply (perm_delete condor_entry _ j L1 (n, p)).
Qed.

(** A node gets a new value with the same ids. *)
Lemma set_node_mid ps L1 n p L2 q : indexed ps → ps_list ps = L1 ++ (n, p) :: L2 → ps_list (set_node n q ps) = L1 ++ (n, q) :: L2.
Proof.
  intros Hi E. cbn. rewrite E, fmap_app, fmap_cons. cbn [fst]. rewrite bool_decide_true by done.
  pose proof (ix_nodes _ Hi) as Hn. rewrite E, fmap_app, fmap_cons in Hn. apply NoDup_app in Hn as (_ & H1 & H2). apply NoDup_cons in H2 as [H2 _].
  assert (∀ L, n ∉ L.*1 → (λ np : nat * PointerId A, if bool_decide (np.1 = n) then (np.1, q) else np) <$> L = L) as Hk.
  { intros L Hl. rewrite <- (list_fmap_id L) at 2. apply list_fmap_ext. intros k np Hk. rewrite bool_decide_false; [done|].
    intros <-. apply Hl, list_elem_of_fmap_2. by eapply list_elem_of_lookup_2. }
  rewrite !Hk; [done|done|]. intros Hin. apply (H1 n Hin). apply elem_of_cons. by left.
Qed.
Lemma set_indexed ps L1 n p L2 q :
  indexed ps → ps_list ps = L1 ++ (n, p) :: L2 → pi_edgId q = pi_edgId p → pi_condorId q = pi_condorId p → indexed (set_node n q ps).
Proof.
  intros Hi E He Hc. pose proof (set_node_mid ps L1 n p L2 q Hi E) as El.
  pose proof (ix_fresh _ Hi) as H1. pose proof (ix_nodes _ Hi) as H2. pose proof (ix_edgs _ Hi) as H3. pose proof (ix_condors _ Hi) as H4.
  pose proof (ix_edgs_perm _ Hi) as H5. pose proof (ix_condors_perm _ Hi) as H6. rewrite E in H1, H2, H3, H4, H5, H6.
  assert (∀ X (f : nat * PointerId A → X), f (n, q) = f (n, p) → f <$> (L1 ++ (n, q) :: L2) = f <$> (L1 ++ (n, p) :: L2)) as Hf
    by (intros X f Hx; by rewrite !fmap_app, !fmap_cons, Hx).
  split; rewrite ?El; [|..|apply Hi| |apply Hi|].
  - apply Forall_app in H1 as [H1 H1']. apply Forall_cons in H1' as [Hn H1']. apply Forall_app. split; [done|]. by constructor.
  - by rewrite (Hf _ fst).
  - unfold edg_ids. rewrite (Hf _ (λ np, pi_edgId np.2)); done.
  - unfold condor_ids. rewrite (Hf _ (λ np, pi_condorId np.2)); done.
  - rewrite (Hf _ edg_entry); [done|]. unfold edg_entry. cbn. by rewrite He.
  - rewrite (Hf _ condor_entry); [done|]. unfold condor_entry. cbn. by rewrite Hc.
Qed.

(** ** Building the indexes: entries at the ends, then sorting *)
Record unsorted ps L : Prop := {
  us_list : ps_list ps = L;
  us_fresh : Forall (λ np, np.1 < ps_fresh ps)%nat L;
  us_nodes : NoDup L.*1;
  us_edgs : ps_edgs ps = edg_entry <$> L;
  us_condors : ps_condors ps = condor_entry <$> L
}.

Lemma unsorted_clear ps : unsorted (clear_pointers ps) [].
Proof. by split; try constructor. Qed.
Lemma unsorted_none : unsorted no_pointers [].
Proof. by split; try constructor. Qed.
Lemma unsorted_push ps L p : unsorted ps L → unsorted (push_indexed p ps) (L ++ [(ps_fresh ps, pi_copy p)]).
Proof.
  intros [H1 H2 H3 H4 H5]. split; cbn.
  - by rewrite H1.
  - apply Forall_app. split; [|by repeat constructor]. eapply Forall_impl; [exact H2|]. intros; simpl in *; lia.
  - rewrite fmap_app. apply NoDup_app. split; [done|]. split; [|apply NoDup_singleton].
    intros n (np & -> & Hin)%list_elem_of_fmap Hn%list_elem_of_singleton. rewrite Forall_forall in H2. specialize (H2 _ Hin). simpl in *. lia.
  - by rewrite H4, fmap_app.
  - by rewrite H5, fmap_app.
Qed.
Lemma sort_indexed ps L :
  unsorted ps L → NoDup (edg_ids L) → NoDup (condor_ids L) → indexed (sort_indexes ps) ∧ ps_list (sort_indexes ps) = L.
Proof.
  intros [<- H2 H3 H4 H5] He Hc. split; [|done].
  split; cbn; rewrite ?H4, ?H5; [done..| | | |].
  - apply sort_sorted. by rewrite <- list_fmap_compose.
  - apply sort_perm.
  - apply sort_sorted. by rewrite <- list_fmap_compose.
  - apply sort_perm.
Qed.
End indexes.
