(* ===== verification/IdContainerProps.v ===== *)
(** * The job id repository refines a table of jobs

    Every operation of [IdContainer], on any container file that keeps the
    promises of [ListContainer], does to a table of jobs what its name says:
    the file, the list of pointers and the two indexes stay in step. *)

From S2P Require Import Prelude Vectors Digits Stream FileContainer ContainerFields ContainerDisk ContainerCells ContainerList ContainerAdd.
From S2P Require Import ContainerRead ContainerCompact FileList ListContainer FileListProps FileListDeque FileListOps IdContainer IdIndexes.

#[export] Instance attr_eqdec : EqDecision attr.
Proof. solve_decision. Defined.

(** ** What the code relies on in the ClassAd library

    [bound a n v]: in [a] the attribute [n] is the literal [v]; [absent a
    n]: there is no such attribute.  [wf_ad] holds of the ads whose text can
    be read back; strings with a NUL character cannot.  Nothing is assumed
    of other attributes. *)
Definition plain (v : literal) : Prop :=
  match v with
  | Str s => Forall (λ c, c ≠ "000"%char) s
  | Num z => - 2 ^ 31 ≤ z < 2 ^ 31
  end.

Class ClassAdLaws (A : Type) {HT : Converter A} {HA : ClassAd A} := {
  wf_ad : A → Prop;
  bound : A → attr → literal → Prop;
  absent : A → attr → Prop;
  empty_wf : wf_ad ad_empty;
  empty_absent n : absent ad_empty n;
  insert_wf a n v : wf_ad a → plain v → wf_ad (InsertAttr (attr_name n) v a);
  insert_bound a n v : bound (InsertAttr (attr_name n) v a) n v;
  insert_bound_other a n m v w : n ≠ m → bound a n v → bound (InsertAttr (attr_name m) w a) n v;
  insert_absent_other a n m w : n ≠ m → absent a n → absent (InsertAttr (attr_name m) w a) n;
  eval_string a n s : bound a n (Str s) → EvaluateAttrString (attr_name n) a = Some s;
  eval_number a n z : bound a n (Num z) → EvaluateAttrNumber (attr_name n) a = Some z;
  eval_absent a n : absent a n → EvaluateAttrNumber (attr_name n) a = None;
  update_bound a n v : bound a n v → bound (Update a ad_empty) n v;
  update_absent a n : absent a n → absent (Update a ad_empty) n;
  unparse_parse a : wf_ad a → ∃ d a', to_string a = Some d ∧ d ≠ [] ∧ from_string d = Some a' ∧ wf_ad a' ∧
    (∀ n v, bound a n v → bound a' n v) ∧ (∀ n, absent a n → absent a' n)
}.

(** ** Jobs *)
Record job := Job {
  j_edg : bytes;
  j_condor : bytes;
  j_code : bytes;
  j_status : Z;
  j_last : Z;
  j_retry : Z
}.

Section describes.
Context {A : Type} {HT : Converter A} {HA : ClassAd A} {HAL : ClassAdLaws A}.
Implicit Types (a : A) (j : job) (d : bytes).

(** A number that may be missing, with the value that stands for it. *)
Definition number a (n : attr) (z dflt : Z) : Prop := bound a n (Num z) ∨ absent a n ∧ z = dflt.

Record describes a j : Prop := {
  de_edg : bound a AEdgId (Str (j_edg j));
  de_condor : bound a ACondorId (Str (j_condor j));
  de_code : bound a ASequenceCode (Str (j_code j));
  de_status : bound a ACondorStatus (Num (j_status j));
  de_last : number a ALastStatus (j_last j) undefined_status;
  de_retry : number a ARetryCount (j_retry j) 0
}.
Definition stored d j : Prop := ∃ a, from_string d = Some a ∧ wf_ad a ∧ describes a j.

Lemma number_other a n m w z dflt : n ≠ m → number a n z dflt → number (InsertAttr (attr_name m) w a) n z dflt.
Proof. intros Hn [Hb|[Ha ->]]; [left; by apply insert_bound_other|right; split; [by apply insert_absent_other|done]]. Qed.

(** The ads that the operations write. *)
Definition set_status code status last j : job :=
  Job (j_edg j) (j_condor j) code status (if bool_decide (last ≠ undefined_status) then last else j_last j) (j_retry j).
Definition set_retry count j : job := Job (j_edg j) (j_condor j) (j_code j) (j_status j) (j_last j) count.

Lemma new_ad_describes e c q st : describes (new_ad e c q st) (Job e c q st undefined_status 0).
Proof.
  unfold new_ad. split; cbn [j_edg j_condor j_code j_status j_last j_retry]; [by repeat (apply insert_bound || apply insert_bound_other)..| |];
    repeat (apply number_other; [done|]); right; split; [apply empty_absent|done|apply empty_absent|done].
Qed.
Lemma new_ad_wf e c q st : plain (Str e) → plain (Str c) → plain (Str q) → plain (Num st) → wf_ad (new_ad e c q st).
Proof. intros. unfold new_ad. repeat (apply insert_wf; [|done]). apply empty_wf. Qed.

Lemma update_ad_describes a j q st last : describes a j → describes (update_ad q st last a) (set_status q st last j).
Proof.
  intros [H1 H2 H3 H4 H5 H6]. unfold update_ad, set_status. case_bool_decide as Hl;
    split; cbn [j_edg j_condor j_code j_status j_last j_retry]; try (by repeat (apply insert_bound || (apply insert_bound_other; [done|])));
    repeat (apply number_other; [done|]); try done. left. apply insert_bound.
Qed.
Lemma update_ad_wf a q st last : wf_ad a → plain (Str q) → plain (Num st) → plain (Num last) → wf_ad (update_ad q st last a).
Proof. intros. unfold update_ad. case_bool_decide; repeat (apply insert_wf; [|done]); done. Qed.

Lemma retry_describes a j z : describes a j → describes (InsertAttr (attr_name ARetryCount) (Num z) a) (set_retry z j).
Proof.
  intros [H1 H2 H3 H4 H5 H6]. split; cbn [j_edg j_condor j_code j_status j_last j_retry set_retry]; [by apply insert_bound_other..| |left; apply insert_bound]. by apply number_other.
Qed.

Lemma describes_mono a a' j :
  (∀ n v, bound a n v → bound a' n v) → (∀ n, absent a n → absent a' n) → describes a j → describes a' j.
Proof. intros Hb Ha [H1 H2 H3 H4 [H5|[H5 H5']] [H6|[H6 H6']]]; split; unfold number; auto. Qed.

(** What is written can be read back. *)
Lemma written_stored a j : wf_ad a → describes a j → ∃ d, to_string a = Some d ∧ d ≠ [] ∧ stored d j.
Proof.
  intros Hw Hd. destruct (unparse_parse a Hw) as (d & a' & E & Hne & E' & Hw' & Hb & Ha). exists d. split; [done|]. split; [done|].
  exists a'. split; [done|]. split; [done|]. by eapply describes_mono.
Qed.

(** ** Pointers and jobs *)

(** The condor status is not among the fields that follow the file: a
    pointer made by [insert] says 0 whatever was written. *)
Record matches (p : PointerId A) j : Prop := {
  ma_edg : pi_edgId p = j_edg j;
  ma_condor : pi_condorId p = j_condor j;
  ma_code : pi_sequenceCode p = j_code j;
  ma_last : pi_lastStatus p = j_last j;
  ma_retry : pi_retryCount p = j_retry j
}.

Lemma evaluate_matches a j p :
  describes a j → (j_last j = undefined_status → pi_lastStatus p = undefined_status) →
  (j_retry j = 0 → pi_retryCount p = 0) → matches (evaluate a p) j.
Proof.
  intros [H1 H2 H3 H4 H5 H6] Hl Hr. unfold evaluate. split; cbn [pi_edgId pi_condorId pi_sequenceCode pi_lastStatus pi_retryCount].
  - by rewrite (eval_string _ _ _ H1).
  - by rewrite (eval_string _ _ _ H2).
  - by rewrite (eval_string _ _ _ H3).
  - destruct H5 as [H5|[H5 Hz]]; [by rewrite (eval_number _ _ _ H5)|]. rewrite (eval_absent _ _ H5). cbn. by rewrite Hz, Hl.
  - destruct H6 as [H6|[H6 Hz]]; [by rewrite (eval_number _ _ _ H6)|]. rewrite (eval_absent _ _ H6). cbn. by rewrite Hz, Hr.
Qed.
End describes.

(** ** Iterators of the file list *)
Section iterators.
Context {C : Type} {HC : Container C} {HL : ListContainer C}.
Context {A : Type} {HT : Converter A} {HA : ClassAd A} {HAL : ClassAdLaws A}.
Implicit Types (s : file_sequence C) (l : list entry) (i : FLIterator A).

(** The iterator stands on the entry [en] and has its string; a value that
    it has cached is the one of the string. *)
Record on_entry (addr : nat) i (en : entry) : Prop := {
  oe_position : position (fli_base i) = en.1;
  oe_container : bi_container (fli_base i) = Some addr;
  oe_good : bi_good (fli_base i) = true;
  oe_data : bi_data (fli_base i) = en.2;
  oe_cached : bi_new (fli_base i) = false → ∃ a, fli_object i = Some a ∧ from_string en.2 = Some a
}.

Lemma on_entry_copy addr i en : on_entry addr i en → on_entry addr (fli_copy i) en.
Proof. intros [? ? ? ? _]. by split. Qed.
Lemma on_entry_assign addr i en : on_entry addr i en → on_entry addr (fli_assign i) en.
Proof. intros [? ? ? ? _]. by split. Qed.

Lemma deref_entry s i en a :
  on_entry (fs_addr s) i en → from_string en.2 = Some a →
  ∃ i', fli_deref i s = (s, Ret (a, i')) ∧ on_entry (fs_addr s) i' en ∧ bi_iterator (fli_base i') = bi_iterator (fli_base i).
Proof.
  intros [H1 H2 H3 H4 H5] Ha. unfold fli_deref.
  erewrite bind_Ret by (apply on_Ret; unfold check_status; rewrite H3; reflexivity). unfold set_container.
  replace (Sequence (fs_addr s) (fs_container s) (fs_last s)) with s by by destruct s. destruct (bi_new (fli_base i)) eqn:En.
  - rewrite H4. unfold convert_from. rewrite Ha. cbn [converted]. rewrite bind_mret. eexists. split; [reflexivity|]. split; [|done].
    split; cbn; try done. intros _. by exists a.
  - destruct (H5 eq_refl) as (a' & Ho & Ha'). rewrite Ho. assert (a' = a) as -> by congruence. exists i. split; [done|]. split; [|done]. split; [done..|]. intros _. by apply H5.
Qed.

(** Walking: the iterator is between [l1] and [l2]. *)
Definition walk s l1 l2 i : Prop :=
  pos_at s l1 l2 (fli_base i) ∧ match l2 with [] => True | en :: _ => on_entry (fs_addr s) i en end.

Lemma loaded_entry s l1 p d l2 b o :
  pos_at s l1 ((p, d) :: l2) b → loaded_with d b → on_entry (fs_addr s) (FLI b o) (p, d).
Proof. intros Hp (H1 & H2 & H3). split; cbn; [by apply (pos_at_position _ _ _ _ Hp)|apply Hp|done|done|]. by rewrite H1. Qed.

Lemma read_walk s l1 l2 b o :
  seq s (l1 ++ l2) → pos_at s l1 l2 b →
  ∃ s' b', on_container (read_string false b) s = (s', Ret b') ∧ keeps s s' (l1 ++ l2) ∧ walk s' l1 l2 (FLI b' o).
Proof.
  intros Hs Hp. destruct l2 as [|[p d] l2].
  - rewrite app_nil_r in *. destruct (read_string_end s l1 b Hs Hp) as (s1 & b1 & E1 & K1 & P1 & _). by exists s1, b1.
  - destruct (read_string_at s l1 p d l2 b false Hs (pos_at_position _ _ _ _ Hp) (proj2 Hp)) as (s1 & b1 & E1 & K1 & P1 & L1).
    exists s1, b1. split; [done|]. split; [done|]. split; [done|]. by eapply loaded_entry.
Qed.

Lemma begin_walk s l : seq s l → ∃ s' i, begin_ s = (s', Ret i) ∧ keeps s s' l ∧ walk s' [] l i.
Proof.
  intros Hs. destruct (getBegin_gives s l Hs) as (s1 & E1 & K1 & P1 & _).
  destruct (read_walk s1 [] l (bi_copy (fs_last s1)) None (proj1 K1) P1) as (s2 & b & E2 & K2 & W2). exists s2, (FLI b None).
  split; [|split; [by eapply keeps_trans|done]]. unfold begin_, fli_of_base. by rewrite (bind_Ret _ _ _ _ _ E1), (bind_Ret _ _ _ _ _ E2).
Qed.
Lemma end_walk s l : seq s l → ∃ s' i, end_ s = (s', Ret i) ∧ keeps s s' l ∧ walk s' l [] i.
Proof.
  intros Hs. destruct (getEnd_gives s l Hs) as (s1 & E1 & K1 & P1 & _).
  destruct (read_walk s1 l [] (bi_copy (fs_last s1)) None (proj1 K1) P1) as (s2 & b & E2 & K2 & W2). rewrite app_nil_r in *. exists s2, (FLI b None).
  split; [|split; [by eapply keeps_trans|done]]. unfold end_, fli_of_base. by rewrite (bind_Ret _ _ _ _ _ E1), (bind_Ret _ _ _ _ _ E2).
Qed.
Lemma incr_walk s l1 en l2 i :
  seq s (l1 ++ en :: l2) → pos_at s l1 (en :: l2) (fli_base i) →
  ∃ s' i', fli_incr i s = (s', Ret i') ∧ keeps s s' (l1 ++ en :: l2) ∧ walk s' (l1 ++ [en]) l2 i'.
Proof.
  intros Hs Hp. destruct (increment_seq s l1 en l2 _ Hs Hp) as (s1 & b1 & E1 & K1 & P1). pose proof (proj1 K1) as Hs1.
  replace (l1 ++ en :: l2) with ((l1 ++ [en]) ++ l2) in Hs1, K1 |- * by by rewrite <- app_assoc.
  destruct (read_walk s1 (l1 ++ [en]) l2 b1 (fli_object i) Hs1 P1) as (s2 & b2 & E2 & K2 & W2). exists s2, (FLI b2 (fli_object i)).
  split; [|split; [by eapply keeps_trans|done]]. unfold fli_incr. by rewrite (bind_Ret _ _ _ _ _ E1), (bind_Ret _ _ _ _ _ E2).
Qed.
(** [last = end(); --last;] *)
Lemma last_walk s l en : seq s (l ++ [en]) →
  ∃ s' i, (i ← end_; fli_decr (fli_assign i)) s = (s', Ret i) ∧ keeps s s' (l ++ [en]) ∧ on_entry (fs_addr s') i en.
Proof.
  intros Hs. destruct (end_walk s _ Hs) as (s1 & i1 & E1 & K1 & [P1 _]). rewrite (bind_Ret _ _ _ _ _ E1). unfold fli_decr.
  destruct (decrement_seq s1 l en [] _ (proj1 K1) (copy_pos _ _ _ _ P1)) as (s2 & b2 & E2 & K2 & P2).
  destruct (read_walk s2 l [en] b2 (fli_object i1) (proj1 K2) P2) as (s3 & b3 & E3 & K3 & [_ W3]). exists s3, (FLI b3 (fli_object i1)).
  split; [|split; [eapply keeps_trans; [done|]; by eapply keeps_trans|done]].
  cbn [fli_base fli_object fli_assign]. by rewrite (bind_Ret _ _ _ _ _ E2), (bind_Ret _ _ _ _ _ E3).
Qed.

(** Reading a pointer from the file. *)
Lemma PointerId_at_entry s i en j :
  on_entry (fs_addr s) i en → stored (A := A) en.2 j →
  ∃ p i', PointerId_at i s = (s, Ret (p, i')) ∧ matches p j ∧ on_entry (fs_addr s) (pi_position p) en ∧
    bi_iterator (fli_base i') = bi_iterator (fli_base i) ∧ bi_container (fli_base i') = bi_container (fli_base i).
Proof.
  intros Hoe (a & Ha & Hw & Hd). destruct (deref_entry s i en a Hoe Ha) as (i' & E & Hoe' & Hi). eexists _, i'.
  split; [unfold PointerId_at; rewrite (bind_Ret _ _ _ _ _ E); reflexivity|]. split; [by apply evaluate_matches|].
  split; [by apply on_entry_copy|]. split; [done|]. by rewrite (oe_container _ _ _ Hoe), (oe_container _ _ _ Hoe').
Qed.
Lemma PointerId_reset_entry s i en j (p : PointerId A) :
  on_entry (fs_addr s) i en → stored (A := A) en.2 j → (j_last j = undefined_status → pi_lastStatus p = undefined_status) →
  (j_retry j = 0 → pi_retryCount p = 0) →
  ∃ p' i', PointerId_reset i p s = (s, Ret (p', i')) ∧ matches p' j ∧ on_entry (fs_addr s) (pi_position p') en ∧
    bi_iterator (fli_base i') = bi_iterator (fli_base i) ∧ bi_container (fli_base i') = bi_container (fli_base i).
Proof.
  intros Hoe (a & Ha & Hw & Hd) Hl Hr. destruct (deref_entry s i en a Hoe Ha) as (i' & E & Hoe' & Hi). eexists _, i'.
  split; [unfold PointerId_reset; rewrite (bind_Ret _ _ _ _ _ E); reflexivity|]. split.
  - apply evaluate_matches; [|done..]. eapply describes_mono; [|..|exact Hd]; [apply update_bound|apply update_absent].
  - split; [by apply on_entry_assign|]. split; [done|]. by rewrite (oe_container _ _ _ Hoe), (oe_container _ _ _ Hoe').
Qed.
End iterators.
