(* ===== verification/IdRepository.v ===== *)
(** * The repository and the table of jobs

    [registers s J]: the repository [s] is a faithful copy of the table [J],
    in its file, its pointers and its indexes.  Each operation is followed
    through the file list; sequences of calls then answer as the table. *)

From S2P Require Import Prelude Vectors Digits Stream FileContainer ContainerFields ContainerDisk ContainerCells ContainerList ContainerAdd.
From S2P Require Import ContainerRead ContainerCompact FileList ListContainer FileListProps FileListDeque FileListOps IdContainer IdIndexes IdContainerProps.

(** ** The table *)
#[export] Instance job_eqdec : EqDecision job.
Proof. solve_decision. Defined.

Inductive request :=
| Insert (edgId condorId code : bytes) (status : Z)
| RemoveEdg (edgId : bytes)
| RemoveCondor (condorId : bytes)
| Set_ (edgId code : bytes) (status last : Z)
| Retry (edgId : bytes)
| CondorOf (edgId : bytes)
| EdgOf (condorId : bytes)
| CompactAll
| ClearAll.
Inductive reply := Failed (error : bool) | Id (s : bytes) | Nothing.

Module Table.
Definition edgs (J : list job) : list bytes := j_edg <$> J.
Definition condors (J : list job) : list bytes := j_condor <$> J.
Definition change (e : bytes) (f : job → job) (J : list job) : list job :=
  (λ j, if bool_decide (j_edg j = e) then f j else j) <$> J.
Definition lookup (e : bytes) (J : list job) : option job := snd <$> list_find (λ j, j_edg j = e) J.
Definition lookup_condor (c : bytes) (J : list job) : option job := snd <$> list_find (λ j, j_condor j = c) J.

(** A call: the new table, the answer, and the jobs written to the file.
    Strings with a NUL, numbers out of range and a retry count that would
    overflow are outside the contract. *)
Definition plain_b (v : literal) : bool :=
  match v with
  | Str s => forallb (λ c, bool_decide (c ≠ "000"%char)) s
  | Num z => bool_decide (- 2 ^ 31 ≤ z < 2 ^ 31)
  end.
Definition step (o : request) (J : list job) : option (list job * reply * list job) :=
  match o with
  | Insert e c q st =>
      let j := Job e c q st undefined_status 0 in
      if plain_b (Str e) && plain_b (Str c) && plain_b (Str q) && plain_b (Num st) then
        if bool_decide (e ∈ edgs J) || bool_decide (c ∈ condors J) then Some (J, Failed true, [])
        else Some (J ++ [j], Failed false, [j])
      else None
  | RemoveEdg e =>
      if bool_decide (e ∈ edgs J) then Some (filter (λ j, j_edg j ≠ e) J, Failed false, []) else Some (J, Failed true, [])
  | RemoveCondor c =>
      if bool_decide (c ∈ condors J) then Some (filter (λ j, j_condor j ≠ c) J, Failed false, []) else Some (J, Failed true, [])
  | Set_ e q st last =>
      if plain_b (Str q) && plain_b (Num st) && plain_b (Num last) then
        match lookup e J with
        | Some j => let j' := set_status q st last j in Some (change e (λ _, j') J, Failed false, [j'])
        | None => Some (J, Nothing, [])
        end
      else None
  | Retry e =>
      match lookup e J with
      | Some j => if bool_decide (0 ≤ j_retry j < int_max)
                  then let j' := set_retry (j_retry j + 1) j in Some (change e (λ _, j') J, Failed false, [j'])
                  else None
      | None => Some (J, Nothing, [])
      end
  | CondorOf e => Some (J, Id (match lookup e J with Some j => j_condor j | None => [] end), [])
  | EdgOf c => Some (J, Id (match lookup_condor c J with Some j => j_edg j | None => [] end), [])
  | CompactAll => Some (J, Nothing, [])
  | ClearAll => Some ([], Nothing, [])
  end.
Fixpoint run (os : list request) (J : list job) : option (list job * list reply * list job) :=
  match os with
  | [] => Some (J, [], [])
  | o :: os =>
      '(J, r, w) ← step o J;
      '(J, rs, ws) ← run os J;
      Some (J, r :: rs, w ++ ws)
  end.
End Table.

(** ** The same calls on the repository *)
Section perform.
Context {C : Type} `{Container C} {A : Type} `{Converter A} `{ClassAd A}.
#[local] Abbreviation IC := (M (IdContainer C A) iostatus_t).

(** The clients look a job up and work at its position, if it has one. *)
Definition at_edg (e : bytes) (m : nat → IC bool) : IC reply :=
  n ← position_by_edg_id e;
  match n with
  | Some node => b ← m node; mret (Failed b)
  | None => mret Nothing
  end.
Definition perform_call (fuel : nat) (o : request) : IC reply :=
  match o with
  | Insert e c q st => b ← insert e c q st; mret (Failed b)
  | RemoveEdg e => b ← remove_by_edg_id e; mret (Failed b)
  | RemoveCondor c => b ← remove_by_condor_id c; mret (Failed b)
  | Set_ e q st last => at_edg e (λ node, update_pointer node q st last)
  | Retry e => at_edg e increment_pointer_retry_count
  | CondorOf e => x ← condor_id e; mret (Id x)
  | EdgOf c => x ← edg_id c; mret (Id x)
  | CompactAll => ic_compact fuel;; mret Nothing
  | ClearAll => ic_clear;; mret Nothing
  end.
Fixpoint perform_calls (fuel : nat) (os : list request) : IC (list reply) :=
  match os with
  | [] => mret []
  | o :: os => r ← perform_call fuel o; rs ← perform_calls fuel os; mret (r :: rs)
  end.
End perform.

(** ** The relation *)
Section registers.
Context {C : Type} {HC : Container C} {HL : ListContainer C}.
Context {A : Type} {HT : Converter A} {HA : ClassAd A} {HAL : ClassAdLaws A}.
Implicit Types (s : IdContainer C A) (J : list job) (j : job) (l : list entry) (ps : pointers A).
Implicit Types (L : list (nat * PointerId A)) (K : list (job * entry)).

(** A node of the list, the job it stands for and its entry in the file. *)
Record slot (addr : nat) (np : nat * PointerId A) (je : job * entry) : Prop := {
  slot_matches : matches np.2 je.1;
  slot_entry : on_entry addr (pi_position np.2) je.2;
  slot_stored : stored (A := A) je.2.2 je.1
}.
Definition registers s J : Prop := ∃ l K,
  seq (ic_container s) l ∧ indexed (ic_pointers s) ∧ l ≡ₚ K.*2 ∧ J ≡ₚ K.*1 ∧
  Forall2 (slot (fs_addr (ic_container s))) (ps_list (ic_pointers s)) K.

#[export] Instance registers_proper s : Proper ((≡ₚ) ==> iff) (registers s).
Proof. intros J J' HJ. unfold registers. by setoid_rewrite HJ. Qed.

Lemma slots_edgs addr L K : Forall2 (slot addr) L K → edg_ids L = Table.edgs K.*1.
Proof. induction 1 as [|np je L K [[Hm _ _ _ _] _ _] _ IH]; [done|]. unfold edg_ids, Table.edgs in *. rewrite !fmap_cons. by f_equal. Qed.
Lemma slots_condors addr L K : Forall2 (slot addr) L K → condor_ids L = Table.condors K.*1.
Proof. induction 1 as [|np je L K [[_ Hm _ _ _] _ _] _ IH]; [done|]. unfold condor_ids, Table.condors in *. rewrite !fmap_cons. by f_equal. Qed.

Lemma registers_edgs s J : registers s J → edg_ids (ps_list (ic_pointers s)) ≡ₚ Table.edgs J.
Proof. intros (l & K & _ & _ & _ & HJ & Hf). unfold Table.edgs. rewrite (slots_edgs _ _ _ Hf), HJ. done. Qed.
Lemma registers_condors s J : registers s J → condor_ids (ps_list (ic_pointers s)) ≡ₚ Table.condors J.
Proof. intros (l & K & _ & _ & _ & HJ & Hf). unfold Table.condors. rewrite (slots_condors _ _ _ Hf), HJ. done. Qed.
Lemma registers_indexed s J : registers s J → indexed (ic_pointers s).
Proof. by intros (l & K & _ & Hi & _). Qed.
Lemma registers_unique s J : registers s J → NoDup (Table.edgs J) ∧ NoDup (Table.condors J).
Proof.
  intros H. pose proof (registers_indexed _ _ H) as Hi. rewrite <- (registers_edgs _ _ H), <- (registers_condors _ _ H). split; apply Hi.
Qed.

(** One job singled out everywhere. *)
Record focus s J j (L1 : list (nat * PointerId A)) (n : nat) (p : PointerId A) L2 K1 (en : entry) K2 l1 l2 : Prop := {
  fo_list : ps_list (ic_pointers s) = L1 ++ (n, p) :: L2;
  fo_slot : slot (fs_addr (ic_container s)) (n, p) (j, en);
  fo_left : Forall2 (slot (fs_addr (ic_container s))) L1 K1;
  fo_right : Forall2 (slot (fs_addr (ic_container s))) L2 K2;
  fo_seq : seq (ic_container s) (l1 ++ en :: l2);
  fo_entries : l1 ++ l2 ≡ₚ (K1 ++ K2).*2;
  fo_jobs : J ≡ₚ j :: (K1 ++ K2).*1;
  fo_indexed : indexed (ic_pointers s)
}.

Lemma focus_intro s J j : registers s J → j ∈ J → ∃ L1 n p L2 K1 en K2 l1 l2, focus s J j L1 n p L2 K1 en K2 l1 l2.
Proof.
  intros (l & K & Hs & Hi & Hl & HJ & Hf) Hj. rewrite HJ in Hj. apply list_elem_of_fmap in Hj as ([j' en] & -> & Hin).
  apply list_elem_of_split in Hin as (K1 & K2 & ->). apply Forall2_app_inv_r in Hf as (L1 & L2' & Hf1 & Hf2 & El).
  apply Forall2_cons_inv_r in Hf2 as ([n p] & L2 & Hslot & Hf2 & ->).
  assert (en ∈ l) as (l1 & l2 & ->)%list_elem_of_split.
  { rewrite Hl, fmap_app. apply elem_of_app. right. apply elem_of_cons. by left. }
  exists L1, n, p, L2, K1, en, K2, l1, l2. split; [done|done|done|done|done| | |done].
  - apply (Permutation_cons_inv (a := en)). rewrite Permutation_middle, Hl, !fmap_app, fmap_cons. by rewrite Permutation_middle.
  - by rewrite HJ, !fmap_app, fmap_cons, <- Permutation_middle.
Qed.

(** The table with a job found by its id. *)
Lemma keyed_filter (key : job → bytes) J j (R : list job) :
  NoDup (key <$> J) → J ≡ₚ j :: R → filter (λ x, key x ≠ key j) J ≡ₚ R.
Proof.
  intros Hn HJ. rewrite HJ, filter_cons_False by auto. rewrite HJ, fmap_cons in Hn. apply NoDup_cons in Hn as [Hn _].
  rewrite filter_all; [done|]. apply Forall_forall. intros x Hx E. apply Hn. rewrite <- E. by apply list_elem_of_fmap_2.
Qed.
Lemma change_perm J j f (R : list job) : NoDup (Table.edgs J) → J ≡ₚ j :: R → Table.change (j_edg j) f J ≡ₚ f j :: R.
Proof.
  unfold Table.edgs, Table.change. intros Hn HJ. rewrite HJ, fmap_cons in Hn. apply NoDup_cons in Hn as [Hn _].
  rewrite HJ, fmap_cons, bool_decide_true by done. constructor. erewrite list_fmap_ext; [by rewrite list_fmap_id|].
  intros k x Hx. cbn. rewrite bool_decide_false; [done|]. intros E. apply Hn. rewrite <- E. apply list_elem_of_fmap_2. by eapply list_elem_of_lookup_2.
Qed.
Lemma keyed_find (key : job → bytes) J j :
  NoDup (key <$> J) → j ∈ J → snd <$> list_find (λ x, key x = key j) J = Some j.
Proof.
  intros Hn Hj. destruct (list_find _ J) as [[k x]|] eqn:E.
  - apply list_find_Some in E as (Hk & Hx & _). apply list_elem_of_lookup in Hj as [m Hm]. cbn. f_equal.
    assert (k = m) as ->; [|congruence]. eapply NoDup_lookup; [exact Hn|by rewrite list_lookup_fmap, Hk|by rewrite list_lookup_fmap, Hm; cbn; f_equal].
  - apply list_find_None in E. rewrite Forall_forall in E. by destruct (E j Hj).
Qed.
Lemma keyed_none (key : job → bytes) J k : k ∉ key <$> J → snd <$> list_find (λ x, key x = k) J = None.
Proof.
  intros Hk. destruct (list_find _ J) as [[m x]|] eqn:E; [|done]. apply list_find_Some in E as (Hm & <- & _). destruct Hk.
  apply list_elem_of_fmap_2. by eapply list_elem_of_lookup_2.
Qed.

(** ** Running the operations *)
Definition with_list (L : file_sequence C) s : IdContainer C A := Ids (ic_inserted s) L (ic_pointers s) (ic_last s).

Lemma with_list_same s : with_list (ic_container s) s = s.
Proof. by destruct s. Qed.
Lemma on_list_Ret {X} (m : FL C X) s F a : m (ic_container s) = (F, Ret a) → on_list m s = (with_list F s, Ret a).
Proof. intros E. unfold on_list. by rewrite E. Qed.
Lemma last_element_Ret s F i :
  (i ← end_; fli_decr (fli_assign i)) (ic_container s) = (F, Ret i) → last_element s = (with_list F s, Ret i).
Proof.
  unfold last_element, mbind, M_bind, on_list. destruct (end_ (ic_container s)) as [L1 [i1|e|]]; cbn; try done.
  intros E. by rewrite E.
Qed.

(** The call returns [x], leaves the table [J] and lets the file grow by at
    most [z] bytes. *)
Definition gives_table {X} s (m : M (IdContainer C A) iostatus_t X) (x : X) J (z : Z) : Prop :=
  ∃ s', m s = (s', Ret x) ∧ registers s' J ∧ send (ic_container s') ≤ send (ic_container s) + z.

(** The size of what is written is bounded by the job. *)
Context (size : job → Z).
Definition sized : Prop :=
  ∀ (a : A) j d, wf_ad a → describes a j → to_string a = Some d → calculateDataSize (Z.of_nat (length d)) ≤ size j.
Context (Hsize : sized).

(** Appending an ad and standing on it. *)
Lemma append_ad s l (a : A) j :
  seq (ic_container s) l → wf_ad a → describes a j → send (ic_container s) + size j ≤ off_max →
  ∃ F1 F2 i d, on_list (push_back a) s = (with_list F1 s, Ret tt) ∧ last_element (with_list F1 s) = (with_list F2 s, Ret i) ∧
    seq F2 (l ++ [(send (ic_container s), d)]) ∧ on_entry (fs_addr F2) i (send (ic_container s), d) ∧ stored (A := A) d j ∧
    send F2 ≤ send (ic_container s) + size j ∧ fs_addr F2 = fs_addr (ic_container s).
Proof.
  intros Hs Hw Hd Hroom. destruct (written_stored a j Hw Hd) as (d & E & Hne & Hst). pose proof (Hsize a j d Hw Hd E) as Hz.
  destruct (push_back_seq (ic_container s) l a d Hs E Hne) as (F1 & E1 & (G1 & G2 & G3)); [unfold room; lia|].
  destruct (last_walk (A := A) F1 l _ G1) as (F2 & i & E2 & (K1 & K2 & K3) & W). exists F1, F2, i, d.
  split; [by apply on_list_Ret|]. split; [exact (last_element_Ret (with_list F1 s) F2 i E2)|]. split_and!; [done|done|done|lia|congruence].
Qed.

Lemma insert_fresh s J e c q st :
  registers s J → plain (Str e) → plain (Str c) → plain (Str q) → plain (Num st) → e ∉ Table.edgs J → c ∉ Table.condors J →
  let j := Job e c q st undefined_status 0 in
  send (ic_container s) + size j ≤ off_max → gives_table s (insert e c q st) false (J ++ [j]) (size j).
Proof.
  intros Hreg Pe Pc Pq Ps He Hc j Hroom. pose proof (registers_indexed _ _ Hreg) as Hi.
  assert (e ∉ edg_ids (ps_list (ic_pointers s))) as He' by by rewrite (registers_edgs _ _ Hreg).
  assert (c ∉ condor_ids (ps_list (ic_pointers s))) as Hc' by by rewrite (registers_condors _ _ Hreg).
  destruct Hreg as (l & K & Hs & _ & Hl & HJ & Hf).
  destruct (append_ad s l (new_ad e c q st) j Hs (new_ad_wf _ _ _ _ Pe Pc Pq Ps) (new_ad_describes e c q st) Hroom)
    as (L1 & L2 & i & d & E1 & E2 & Hs2 & Hoe & Hst & Hz & Ha).
  eexists. split; [unfold insert; rewrite (bind_Ret get_pointers _ s s _ eq_refl), (find_edg_None _ _ Hi He'), (find_condor_None _ _ Hi Hc'); cbn [orb bool_decide];
    rewrite !bool_decide_false by (by intros []); cbn [orb]; rewrite (bind_Ret _ _ _ _ _ E1), (bind_Ret _ _ _ _ _ E2); reflexivity|]. split; [|exact Hz].
  exists (l ++ [(send (ic_container s), d)]), (K ++ [(j, (send (ic_container s), d))]).
  split; [exact Hs2|]. split; [by apply (insert_indexed (ic_pointers s) (PointerId_new i c e q))|].
  split; [by rewrite fmap_app, Hl|]. split; [by rewrite fmap_app, HJ|]. cbn. rewrite Ha. apply Forall2_app; [done|]. constructor; [|done].
  split; [by split|cbn; rewrite <- Ha; by apply on_entry_copy, on_entry_copy|exact Hst].
Qed.

Lemma insert_known s J e c q st :
  registers s J → e ∈ Table.edgs J ∨ c ∈ Table.condors J → insert e c q st s = (s, Ret true).
Proof.
  intros Hreg Hin. pose proof (registers_indexed _ _ Hreg) as Hi. unfold insert. rewrite (bind_Ret get_pointers _ s s _ eq_refl).
  rewrite <- (registers_edgs _ _ Hreg), <- (registers_condors _ _ Hreg) in Hin. destruct Hin as [Hin|Hin].
  - apply in_ids in Hin as (L1 & n & p & L2 & El & <-). destruct (find_edg_mid _ L1 n p L2 Hi El) as (k & -> & _). done.
  - apply in_ids in Hin as (L1 & n & p & L2 & El & <-). destruct (find_condor_mid _ L1 n p L2 Hi El) as (k & -> & _). by rewrite orb_comm.
Qed.

(** Removal of the job in focus. *)
Lemma removePointers_focus s J j L1 n p L2 K1 en K2 l1 l2 ie ic :
  focus s J j L1 n p L2 K1 en K2 l1 l2 → ps_edgs (ic_pointers s) !! ie = Some (Edg n (pi_edgId p)) →
  ps_condors (ic_pointers s) !! ic = Some (Condor n (pi_condorId p)) →
  gives_table s (removePointers ie ic) false ((K1 ++ K2).*1) 0.
Proof.
  intros [El [Hm Hoe Hst] Hf1 Hf2 Hs Hl HJ Hi] He Hc. destruct en as [q d].
  destruct (erase_at _ l1 q d l2 (fli_assign (pi_position p)) Hs) as (L & i & E & (S1 & S2 & S3) & _); [apply Hoe|].
  destruct (erase_indexed _ L1 n p L2 ie ic Hi El He Hc) as [Hi' El'].
  eexists. split; [|split].
  - unfold removePointers. rewrite (bind_Ret get_pointers _ s s _ eq_refl), He. apply catch_Ret. cbn [ei_position].
    assert (get_node n s = (s, Ret p)) as En by (unfold get_node, query; by rewrite (deref_mid _ L1 n p L2 Hi El)).
    rewrite (bind_Ret _ _ _ _ _ En), (bind_Ret _ _ _ _ _ (on_list_Ret _ _ _ _ E)). reflexivity.
  - exists (l1 ++ l2), (K1 ++ K2). split; [exact S1|]. split; [exact Hi'|]. split; [done|]. split; [done|].
    change (ps_list _) with (ps_list (erase_pointer n ie ic (ic_pointers s))). rewrite El'. cbn. rewrite S3. by apply Forall2_app.
  - cbn. lia.
Qed.

Lemma get_node_focus s J j L1 n p L2 K1 en K2 l1 l2 : focus s J j L1 n p L2 K1 en K2 l1 l2 → get_node n s = (s, Ret p).
Proof. intros Hf. unfold get_node, query. by rewrite (deref_mid _ L1 n p L2 (fo_indexed _ _ _ _ _ _ _ _ _ _ _ _ Hf) (fo_list _ _ _ _ _ _ _ _ _ _ _ _ Hf)). Qed.

Lemma remove_edg_known s J e : registers s J → e ∈ Table.edgs J →
  gives_table s (remove_by_edg_id e) false (filter (λ j, j_edg j ≠ e) J) 0.
Proof.
  intros Hreg (j & -> & Hj)%list_elem_of_fmap. destruct (focus_intro s J j Hreg Hj) as (L1 & n & p & L2 & K1 & en & K2 & l1 & l2 & Hf).
  pose proof Hf as [El [[Me Mc _ _ _] _ _] _ _ _ _ HJ Hi]. cbn in Me, Mc.
  destruct (find_edg_mid _ L1 n p L2 Hi El) as (ie & Fe & He). destruct (find_condor_mid _ L1 n p L2 Hi El) as (ic & Fc & Hc).
  destruct (removePointers_focus s J j L1 n p L2 K1 en K2 l1 l2 ie ic Hf He Hc) as (s' & E & Hreg' & Hz).
  exists s'. split; [|split; [|done]].
  - unfold remove_by_edg_id. rewrite (bind_Ret get_pointers _ s s _ eq_refl), <- Me, Fe. cbn [ei_position].
    by rewrite (bind_Ret _ _ _ _ _ (get_node_focus _ _ _ _ _ _ _ _ _ _ _ _ Hf)), Fc.
  - rewrite (keyed_filter j_edg J j); [done|apply (registers_unique _ _ Hreg)|done].
Qed.
Lemma remove_condor_known s J c : registers s J → c ∈ Table.condors J →
  gives_table s (remove_by_condor_id c) false (filter (λ j, j_condor j ≠ c) J) 0.
Proof.
  intros Hreg (j & -> & Hj)%list_elem_of_fmap. destruct (focus_intro s J j Hreg Hj) as (L1 & n & p & L2 & K1 & en & K2 & l1 & l2 & Hf).
  pose proof Hf as [El [[Me Mc _ _ _] _ _] _ _ _ _ HJ Hi]. cbn in Me, Mc.
  destruct (find_edg_mid _ L1 n p L2 Hi El) as (ie & Fe & He). destruct (find_condor_mid _ L1 n p L2 Hi El) as (ic & Fc & Hc).
  destruct (removePointers_focus s J j L1 n p L2 K1 en K2 l1 l2 ie ic Hf He Hc) as (s' & E & Hreg' & Hz).
  exists s'. split; [|split; [|done]].
  - unfold remove_by_condor_id. rewrite (bind_Ret get_pointers _ s s _ eq_refl), <- Mc, Fc. cbn [ci_position].
    by rewrite (bind_Ret _ _ _ _ _ (get_node_focus _ _ _ _ _ _ _ _ _ _ _ _ Hf)), Fe.
  - rewrite (keyed_filter j_condor J j); [done|apply (registers_unique _ _ Hreg)|done].
Qed.
Lemma remove_unknown s J : registers s J →
  (∀ e, e ∉ Table.edgs J → remove_by_edg_id e s = (s, Ret true)) ∧ (∀ c, c ∉ Table.condors J → remove_by_condor_id c s = (s, Ret true)).
Proof.
  intros Hreg. pose proof (registers_indexed _ _ Hreg) as Hi. split; intros x Hx.
  - unfold remove_by_edg_id. rewrite (bind_Ret get_pointers _ s s _ eq_refl), find_edg_None; [done|done|by rewrite (registers_edgs _ _ Hreg)].
  - unfold remove_by_condor_id. rewrite (bind_Ret get_pointers _ s s _ eq_refl), find_condor_None; [done|done|by rewrite (registers_condors _ _ Hreg)].
Qed.

(** Rewriting the ad of the job in focus. *)
Lemma rewrite_focus s J j L1 n p L2 K1 en K2 l1 l2 (ch : A → A) j' :
  focus s J j L1 n p L2 K1 en K2 l1 l2 →
  (∀ a, wf_ad a → describes a j → wf_ad (ch a) ∧ describes (ch a) j') →
  j_edg j' = j_edg j → j_condor j' = j_condor j → (j_last j' = undefined_status → j_last j = undefined_status) →
  (j_retry j' = 0 → j_retry j = 0) → send (ic_container s) + size j' ≤ off_max →
  gives_table s (rewrite_pointer n ch) false (j' :: (K1 ++ K2).*1) (size j').
Proof.
  intros Hfo Hch Je Jc Jl Jr Hroom. pose proof Hfo as [El [Hm Hoe (a & Ha & Hw & Hd)] Hf1 Hf2 Hs Hl HJ Hi]. cbn [fst snd] in *.
  destruct (Hch a Hw Hd) as [Hw' Hd']. destruct en as [q d].
  destruct (deref_entry (ic_container s) (pi_position p) (q, d) a Hoe Ha) as (i1 & E1 & Hoe1 & _).
  set (p1 := set_position i1 p).
  set (s1 := Ids (ic_inserted s) (ic_container s) (set_node n p1 (ic_pointers s)) (ic_last s)).
  pose proof (set_node_mid _ L1 n p L2 p1 Hi El) as El1. pose proof (set_indexed _ L1 n p L2 p1 Hi El eq_refl eq_refl) as Hi1.
  destruct (erase_at (ic_container s1) l1 q d l2 i1 Hs) as (F2 & i2 & E2 & (S1 & S2 & S3) & _); [apply Hoe1|].
  destruct (append_ad (with_list F2 s1) (l1 ++ l2) (ch a) j' S1 Hw' Hd') as (F3 & F4 & i4 & d4 & E3 & E4 & H4 & Hoe4 & Hst4 & Hz4 & Ha4);
    [cbn in *; lia|]. cbn in S2, S3, Hz4, Ha4.
  destruct (PointerId_reset_entry F4 i4 _ j' p1 Hoe4 Hst4) as (p5 & i5 & E5 & Hm5 & Hoe5 & _);
    [intros H; cbn; rewrite (ma_last _ _ Hm); by apply Jl|intros H; cbn; rewrite (ma_retry _ _ Hm); by apply Jr|].
  pose proof (set_node_mid _ L1 n p1 L2 p5 Hi1 El1) as El5.
  eexists. split; [|split].
  - unfold rewrite_pointer. rewrite (bind_Ret _ _ _ _ _ (get_node_focus _ _ _ _ _ _ _ _ _ _ _ _ Hfo)).
    rewrite (bind_Ret _ _ _ _ _ (on_list_Ret _ _ _ _ E1)). rewrite with_list_same. cbn [fst snd].
    rewrite (bind_Ret (upd_pointers _) _ s s1 tt eq_refl), (bind_Ret _ _ _ _ _ (on_list_Ret _ _ _ _ E2)), (bind_Ret _ _ _ _ _ E3), (bind_Ret _ _ _ _ _ E4).
    assert (deref (ic_pointers (with_list F4 (with_list F2 s1))) n = Some p1) as Ed by exact (deref_mid _ L1 n p1 L2 Hi1 El1).
    assert (get_node n (with_list F4 (with_list F2 s1)) = (with_list F4 (with_list F2 s1), Ret p1)) as En by (unfold get_node, query; by rewrite Ed).
    rewrite (bind_Ret _ _ _ _ _ En), (bind_Ret _ _ _ _ _ (on_list_Ret _ (with_list F4 (with_list F2 s1)) _ _ E5)). reflexivity.
  - exists ((l1 ++ l2) ++ [(send F2, d4)]), (K1 ++ (j', (send F2, d4)) :: K2). cbn [ic_container ic_pointers with_list].
    split; [exact H4|]. split; [eapply set_indexed; [exact Hi1|exact El1|..]; cbn; rewrite ?(ma_edg _ _ Hm5), ?(ma_condor _ _ Hm5), ?(ma_edg _ _ Hm), ?(ma_condor _ _ Hm); done|].
    split; [by rewrite Hl, !fmap_app, fmap_cons, <- !Permutation_middle, app_nil_r|].
    split; [by rewrite !fmap_app, fmap_cons, <- Permutation_middle|]. 
    change (Forall2 (slot (fs_addr F4)) (ps_list (set_node n p5 (set_node n p1 (ic_pointers s)))) (K1 ++ (j', (send F2, d4)) :: K2)).
    rewrite El5, Ha4, S3.
    apply Forall2_app; [done|]. constructor; [|done]. split; [exact Hm5|cbn; rewrite <- S3, <- Ha4; exact Hoe5|exact Hst4].
  - cbn. lia.
Qed.

(** The two clients of it, by id. *)
Lemma at_edg_known s J e (m : nat → M (IdContainer C A) iostatus_t bool) b J' z L1 n p L2 :
  registers s J → ps_list (ic_pointers s) = L1 ++ (n, p) :: L2 → pi_edgId p = e → gives_table s (m n) b J' z → gives_table s (at_edg e m) (Failed b) J' z.
Proof.
  intros Hreg El <- (s' & E & H). pose proof (registers_indexed _ _ Hreg) as Hi. destruct (find_edg_mid _ L1 n p L2 Hi El) as (k & Fe & _).
  exists s'. split; [|done]. unfold at_edg. assert (position_by_edg_id (pi_edgId p) s = (s, Ret (Some n))) as E1 by (unfold position_by_edg_id, query; by rewrite Fe).
  by rewrite (bind_Ret _ _ _ _ _ E1), (bind_Ret _ _ _ _ _ E).
Qed.
Lemma at_edg_unknown s J e (m : nat → M (IdContainer C A) iostatus_t bool) :
  registers s J → e ∉ Table.edgs J → at_edg e m s = (s, Ret Nothing).
Proof.
  intros Hreg He. unfold at_edg. assert (position_by_edg_id e s = (s, Ret None)) as E1.
  { unfold position_by_edg_id, query. rewrite find_edg_None; [done|by eapply registers_indexed|by rewrite (registers_edgs _ _ Hreg)]. }
  by rewrite (bind_Ret _ _ _ _ _ E1).
Qed.

Lemma set_known s J j q st last :
  registers s J → j ∈ J → plain (Str q) → plain (Num st) → plain (Num last) →
  let j' := set_status q st last j in send (ic_container s) + size j' ≤ off_max →
  gives_table s (at_edg (j_edg j) (λ node, update_pointer node q st last)) (Failed false) (Table.change (j_edg j) (λ _, j') J) (size j').
Proof.
  intros Hreg Hj Pq Ps Pl j' Hroom. destruct (focus_intro s J j Hreg Hj) as (L1 & n & p & L2 & K1 & en & K2 & l1 & l2 & Hf).
  eapply at_edg_known; [done|apply Hf|apply (ma_edg _ _ (slot_matches _ _ _ (fo_slot _ _ _ _ _ _ _ _ _ _ _ _ Hf)))|].
  destruct (rewrite_focus s J j L1 n p L2 K1 en K2 l1 l2 (update_ad q st last) j' Hf) as (s' & E & H & Hz); [|done|done| |done|done|].
  - intros a Hw Hd. split; [by apply update_ad_wf|by apply update_ad_describes].
  - cbn. case_bool_decide; [by intros ->|done].
  - exists s'. split; [done|]. split; [|done]. rewrite change_perm; [exact H|apply (registers_unique _ _ Hreg)|apply Hf].
Qed.
Lemma retry_known s J j :
  registers s J → j ∈ J → 0 ≤ j_retry j < int_max →
  let j' := set_retry (j_retry j + 1) j in send (ic_container s) + size j' ≤ off_max →
  gives_table s (at_edg (j_edg j) increment_pointer_retry_count) (Failed false) (Table.change (j_edg j) (λ _, j') J) (size j').
Proof.
  intros Hreg Hj Hr j' Hroom. destruct (focus_intro s J j Hreg Hj) as (L1 & n & p & L2 & K1 & en & K2 & l1 & l2 & Hf).
  pose proof (slot_matches _ _ _ (fo_slot _ _ _ _ _ _ _ _ _ _ _ _ Hf)) as Hm. cbn in Hm.
  eapply at_edg_known; [done|apply Hf|apply (ma_edg _ _ Hm)|].
  destruct (rewrite_focus s J j L1 n p L2 K1 en K2 l1 l2 (InsertAttr (attr_name ARetryCount) (Num (j_retry j + 1))) j' Hf) as (s' & E & H & Hz);
    [|done|done|done|cbn; lia|done|].
  - intros a Hw Hd. split; [apply insert_wf; [done|unfold int_max in Hr; cbn; lia]|by apply retry_describes].
  - exists s'. split; [|split; [|done]].
    + unfold increment_pointer_retry_count. rewrite (bind_Ret _ _ _ _ _ (get_node_focus _ _ _ _ _ _ _ _ _ _ _ _ Hf)).
      rewrite (ma_retry _ _ Hm). by rewrite bool_decide_true by lia.
    + rewrite change_perm; [exact H|apply (registers_unique _ _ Hreg)|apply Hf].
Qed.

(** ** Building the pointers from the file *)
Definition stored_all l J : Prop := Forall2 (λ en j, stored (A := A) en.2 j) l J.

Lemma construct_loop_table : ∀ fuel s l1 l2 i e L J,
  (length l2 < fuel)%nat → seq (ic_container s) (l1 ++ l2) → walk (ic_container s) l1 l2 i →
  pos_at (ic_container s) (l1 ++ l2) [] (fli_base e) → stored_all l2 J → unsorted (ic_pointers s) L →
  ∃ s' L', construct_loop fuel i e s = (s', Ret tt) ∧ keeps (ic_container s) (ic_container s') (l1 ++ l2) ∧
    unsorted (ic_pointers s') (L ++ L') ∧ Forall2 (slot (fs_addr (ic_container s))) L' (zip J l2).
Proof.
  induction fuel as [|f IH]; intros s l1 l2 i e L J Hf Hs [Hp Hw] He Hst Hu; [lia|]. cbn [construct_loop].
  rewrite (is_different_end _ l1 l2 _ _ Hs Hp He). destruct Hst as [|en j l2 J Hj Hst].
  { rewrite bool_decide_false by auto. exists s, []. rewrite (app_nil_r L). split; [done|]. by split_and!. }
  rewrite bool_decide_true by done.
  destruct (PointerId_at_entry _ i en j Hw Hj) as (p & i1 & E1 & Hm & Hoe & Hit & Hbc).
  rewrite (bind_Ret _ _ _ _ _ (on_list_Ret _ _ _ _ E1)), with_list_same. cbn [fst snd].
  set (s1 := Ids (ic_inserted s) (ic_container s) (push_indexed p (ic_pointers s)) (ic_last s)).
  rewrite (bind_Ret (upd_pointers _) _ s s1 tt eq_refl).
  assert (pos_at (ic_container s) l1 (en :: l2) (fli_base i1)) as Hp1 by (unfold pos_at; rewrite Hit, Hbc; exact Hp).
  destruct (incr_walk (ic_container s1) l1 en l2 i1 Hs Hp1) as (F2 & i2 & E2 & K2 & W2).
  rewrite (bind_Ret _ _ _ _ _ (on_list_Ret _ s1 _ _ E2)).
  replace (l1 ++ en :: l2) with ((l1 ++ [en]) ++ l2) in * by by rewrite <- app_assoc.
  destruct (IH (with_list F2 s1) (l1 ++ [en]) l2 i2 e (L ++ [(ps_fresh (ic_pointers s), pi_copy p)]) J) as (s3 & L' & E3 & K3 & U3 & S3);
    [simpl in Hf; lia|apply K2|done|by eapply keeps_pos|done|by apply unsorted_push|].
  exists s3, ((ps_fresh (ic_pointers s), pi_copy p) :: L'). split; [done|]. split; [by eapply keeps_trans|]. rewrite <- app_assoc in U3. split; [done|].
  cbn [ic_container with_list] in S3. rewrite (proj2 (proj2 K2)) in S3. cbn [zip_with]. constructor; [|done].
  split; [by destruct Hm|by apply on_entry_copy|done].
Qed.

Lemma onConstruct_table fuel s l J :
  (length l < fuel)%nat → seq (ic_container s) l → stored_all l J → NoDup (Table.edgs J) → NoDup (Table.condors J) → unsorted (ic_pointers s) [] →
  gives_table s (onConstruct fuel) tt J 0.
Proof.
  intros Hf Hs Hst He Hc Hu. unfold gives_table, onConstruct.
  destruct (end_walk (A := A) _ l Hs) as (F1 & e & E1 & K1 & [P1 _]). rewrite (bind_Ret _ _ _ _ _ (on_list_Ret _ _ _ _ E1)).
  destruct (begin_walk (A := A) F1 l (proj1 K1)) as (F2 & i & E2 & K2 & [P2 W2]). rewrite (bind_Ret _ _ _ _ _ (on_list_Ret _ (with_list F1 s) _ _ E2)).
  destruct (construct_loop_table fuel (with_list F2 (with_list F1 s)) [] l (fli_assign i) e [] J) as (s3 & L & E3 & K3 & U3 & S3);
    [done|apply K2|split; [done|by destruct l; [|apply on_entry_assign]]|by eapply keeps_pos|done|done|].
  rewrite (bind_Ret _ _ _ _ _ E3). cbn [app with_list ic_container] in U3, S3, K3.
  assert (length J = length l) as Hlen by (symmetry; by eapply Forall2_length).
  assert ((zip J l).*1 = J) as Ej by (apply fst_zip; lia). assert ((zip J l).*2 = l) as El by (apply snd_zip; lia).
  destruct (sort_indexed (ic_pointers s3) L U3) as [Hi Hl]; [by rewrite (slots_edgs _ _ _ S3), Ej|by rewrite (slots_condors _ _ _ S3), Ej|].
  eexists. split; [reflexivity|]. split.
  - exists l, (zip J l). split; [apply K3|]. split; [done|]. rewrite Ej, El. split; [done|]. split; [done|]. cbn [ic_pointers ic_container].
    rewrite Hl, (proj2 (proj2 K3)). done.
  - cbn. destruct K1 as (_ & K1 & _), K2 as (_ & K2 & _), K3 as (_ & K3 & _). lia.
Qed.

(** The jobs in the order of the file. *)
Lemma registers_stored s J : registers s J → ∃ l J', seq (ic_container s) l ∧ J ≡ₚ J' ∧ stored_all l J'.
Proof.
  intros (l & K & Hs & _ & Hl & HJ & Hf). destruct (Permutation_map_inv snd _ Hl) as (K' & -> & HK). exists (K'.*2), (K'.*1).
  split; [done|]. split; [by rewrite HJ, HK|].
  assert (Forall (λ je : job * entry, stored (A := A) je.2.2 je.1) K) as Hst by (clear -Hf; induction Hf as [|? ? ? ? [? ? ?] _ IH]; by constructor).
  rewrite HK in Hst. unfold stored_all. clear -Hst. induction Hst; by constructor.
Qed.

Lemma rebuild s J fuel (m : M (IdContainer C A) iostatus_t unit) s1 l J' :
  m s = (s1, Ret tt) → registers s J → seq (ic_container s1) l → send (ic_container s1) ≤ send (ic_container s) → stored_all l J' → J ≡ₚ J' →
  (length J < fuel)%nat → gives_table s (m;; upd_pointers clear_pointers;; onConstruct fuel) tt J 0.
Proof.
  intros E Hreg Hs Hz Hst HJ Hf. destruct (registers_unique _ _ Hreg) as [He Hc]. unfold Table.edgs, Table.condors in He, Hc. rewrite HJ in He, Hc, Hf.
  set (s2 := Ids (ic_inserted s1) (ic_container s1) (clear_pointers (ic_pointers s1)) (ic_last s1)).
  destruct (onConstruct_table fuel s2 l J') as (s3 & E3 & H3 & Z3); [by rewrite (Forall2_length _ _ _ Hst)|done|done|done|done|apply unsorted_clear|].
  exists s3. split; [by rewrite (bind_Ret _ _ _ _ _ E), (bind_Ret (upd_pointers _) _ s1 s2 tt eq_refl)|]. rewrite HJ. split; [done|]. cbn in Z3. lia.
Qed.

Lemma compact_table s J fuel : registers s J → (length J < fuel)%nat → gives_table s (ic_compact fuel) tt J 0.
Proof.
  intros Hreg Hf. destruct (registers_stored _ _ Hreg) as (l & J' & Hs & HJ & Hst).
  destruct (fs_compact_seq _ l Hs) as (F & l' & E & (S1 & S2 & S3) & El).
  assert (stored_all l' J') as Hst'.
  { apply (Forall2_fmap_l snd (λ d j, stored (A := A) d j)). rewrite El. by apply Forall2_fmap_l. }
  destruct (rebuild s J fuel (on_list fs_compact) (with_list F s) l' J' (on_list_Ret _ _ _ _ E) Hreg S1 S2 Hst' HJ Hf) as (s1 & E1 & H1 & Z1).
  eexists. split; [|split].
  - unfold ic_compact. rewrite (bind_Ret _ _ _ _ _ (on_list_Ret _ _ _ _ E)). rewrite (bind_Ret _ _ _ _ _ (on_list_Ret _ _ _ _ E)) in E1.
    revert E1. unfold mbind, M_bind, upd_pointers, modify. intros ->. reflexivity.
  - exact H1.
  - cbn. lia.
Qed.
Lemma clear_table s J : registers s J → gives_table s ic_clear tt [] 0.
Proof.
  intros Hreg. destruct (registers_stored _ _ Hreg) as (l & J' & Hs & HJ & Hst). destruct (fs_clear_seq _ l Hs) as (F & E & (S1 & S2 & S3) & _).
  eexists. split; [unfold ic_clear; rewrite (bind_Ret _ _ _ _ _ (on_list_Ret _ _ _ _ E)); reflexivity|]. split; [|cbn; lia].
  exists [], []. split; [done|]. split; [apply indexed_clear|]. by split_and!.
Qed.

(** A new process reads the table from the file. *)
Lemma restart_table s J fuel : registers s J → (length J < fuel)%nat →
  gives_table (new_ids (ic_container s)) (IdContainer_construct fuel) tt J 0.
Proof.
  intros Hreg Hf. destruct (registers_stored _ _ Hreg) as (l & J' & Hs & HJ & Hst). destruct (registers_unique _ _ Hreg) as [He Hc].
  unfold Table.edgs, Table.condors in He, Hc. rewrite HJ in He, Hc, Hf.
  destruct (fs_empty_seq _ l Hs) as (F & E & K1 & K2 & K3). unfold gives_table, IdContainer_construct.
  rewrite (bind_Ret _ _ _ _ _ (on_list_Ret _ (new_ids (ic_container s)) _ _ E)). case_bool_decide as Hl.
  - subst l. apply Forall2_nil_inv_l in Hst as ->. eexists. split; [reflexivity|]. split; [|cbn; lia]. rewrite HJ. exists [], []. split; [done|].
    split; [apply indexed_none|]. by split_and!.
  - destruct (onConstruct_table fuel (with_list F (new_ids (ic_container s))) l J') as (s3 & E3 & H3 & Z3);
      [by rewrite (Forall2_length _ _ _ Hst)|done|done|done|done|apply unsorted_none|]. exists s3. rewrite HJ. split; [done|]. split; [done|]. cbn in *. lia.
Qed.

(** ** The queries *)
Lemma scan_find (key out : PointerId A → bytes) (jkey jout : job → bytes) addr L K :
  (∀ p j, matches p j → key p = jkey j ∧ out p = jout j) → Forall2 (slot addr) L K → ∀ k,
  scan key out L k = match snd <$> list_find (λ j, jkey j = k) K.*1 with Some j => jout j | None => [] end.
Proof.
  intros Hm Hf k. unfold scan. induction Hf as [|np je L K [Hs _ _] _ IH]; [done|]. destruct (Hm _ _ Hs) as [Ek Eo]. rewrite fmap_cons. cbn [list_find].
  rewrite Ek. case_decide; [done|]. revert IH. destruct (list_find _ L) as [[? ?]|], (list_find _ K.*1) as [[? ?]|]; done.
Qed.
Lemma keyed_find_perm (key : job → bytes) J J' k :
  NoDup (key <$> J) → J ≡ₚ J' → snd <$> list_find (λ j, key j = k) J = snd <$> list_find (λ j, key j = k) J'.
Proof.
  intros Hn HJ. assert (NoDup (key <$> J')) as Hn' by by rewrite <- HJ. destruct (decide (k ∈ key <$> J)) as [(j & -> & Hj)%list_elem_of_fmap|Hk].
  - rewrite !keyed_find; [done|done|by rewrite <- HJ|done|done].
  - rewrite !keyed_none; [done|by rewrite <- HJ|done].
Qed.
Lemma condor_table s J e : registers s J → condor_id e s = (s, Ret (match Table.lookup e J with Some j => j_condor j | None => [] end)).
Proof.
  intros Hreg. unfold condor_id, query. rewrite (condor_of_scan _ _ (registers_indexed _ _ Hreg)). destruct (registers_unique _ _ Hreg) as [He _].
  destruct Hreg as (l & K & _ & _ & _ & HJ & Hf). rewrite (scan_find _ _ j_edg j_condor _ _ _ (λ p j H, conj (ma_edg p j H) (ma_condor p j H)) Hf e).
  unfold Table.lookup. by rewrite (keyed_find_perm j_edg J _ e He HJ).
Qed.
Lemma edg_table s J c : registers s J → edg_id c s = (s, Ret (match Table.lookup_condor c J with Some j => j_edg j | None => [] end)).
Proof.
  intros Hreg. unfold edg_id, query. rewrite (edg_of_scan _ _ (registers_indexed _ _ Hreg)). destruct (registers_unique _ _ Hreg) as [_ Hc].
  destruct Hreg as (l & K & _ & _ & _ & HJ & Hf). rewrite (scan_find _ _ j_condor j_edg _ _ _ (λ p j H, conj (ma_condor p j H) (ma_edg p j H)) Hf c).
  unfold Table.lookup_condor. by rewrite (keyed_find_perm j_condor J _ c Hc HJ).
Qed.

(** ** Calls and sequences of calls *)
Lemma plain_b_plain v : Table.plain_b v = true → plain v.
Proof.
  destruct v as [x|z]; cbn [Table.plain_b plain]; [|by intros ?%bool_decide_eq_true]. intros H. apply Forall_forall. intros c Hc.
  rewrite List.forallb_forall in H. specialize (H c). rewrite <- list_elem_of_In in H. by apply bool_decide_eq_true in H.
Qed.
Definition cost_of (w : list job) : Z := foldr (λ j z, size j + z) 0 w.

Lemma gives_same s J {X} (m : M (IdContainer C A) iostatus_t X) x : m s = (s, Ret x) → registers s J → gives_table s m x J 0.
Proof. intros E H. exists s. split; [done|]. split; [done|lia]. Qed.
Lemma gives_reply s J {X Y} (m : M (IdContainer C A) iostatus_t X) x (k : X → Y) z :
  gives_table s m x J z → gives_table s (m ≫= λ x, mret (k x)) (k x) J z.
Proof. intros (s' & E & H). exists s'. split; [|done]. by rewrite (bind_Ret _ _ _ _ _ E). Qed.

Lemma lookup_cases e J : NoDup (Table.edgs J) →
  (∃ j, j ∈ J ∧ j_edg j = e ∧ Table.lookup e J = Some j) ∨ ((e ∉ Table.edgs J) ∧ Table.lookup e J = None).
Proof.
  intros Hn. destruct (decide (e ∈ Table.edgs J)) as [(j & -> & Hj)%list_elem_of_fmap|He].
  - left. exists j. split; [done|]. split; [done|]. by apply (keyed_find j_edg).
  - right. split; [done|]. by apply (keyed_none j_edg).
Qed.

Lemma step_table fuel o s J J' r w :
  registers s J → Table.step o J = Some (J', r, w) → send (ic_container s) + cost_of w ≤ off_max → (length J < fuel)%nat →
  gives_table s (perform_call fuel o) r J' (cost_of w).
Proof.
  intros Hreg Hst Hroom Hf. destruct (registers_unique _ _ Hreg) as [Hne Hnc].
  destruct o as [e c q st|e|c|e q st last|e|e|c| |]; cbn [Table.step perform_call] in *.
  - destruct (_ && Table.plain_b (Num st)) eqn:Hp; [|done]. rewrite !andb_true_iff in Hp. destruct Hp as [[[P1 P2] P3] P4].
    apply plain_b_plain in P1, P2, P3, P4. destruct (bool_decide (e ∈ _) || _) eqn:Hin; simplify_eq.
    + apply (gives_reply s _ (insert e c q st) true), gives_same; [|done]. eapply insert_known; [done|].
      apply orb_true_iff in Hin as [Hin|Hin]; apply bool_decide_eq_true in Hin; auto.
    + apply orb_false_iff in Hin as [H1 H2]. apply bool_decide_eq_false in H1, H2. apply (gives_reply s _ (insert e c q st) false).
      cbn [cost_of foldr] in *. rewrite Z.add_0_r in *. by apply insert_fresh.
  - case_bool_decide; simplify_eq.
    + by apply (gives_reply s _ (remove_by_edg_id e) false), remove_edg_known.
    + apply (gives_reply s _ (remove_by_edg_id e) true), gives_same; [by eapply remove_unknown|done].
  - case_bool_decide; simplify_eq.
    + by apply (gives_reply s _ (remove_by_condor_id c) false), remove_condor_known.
    + apply (gives_reply s _ (remove_by_condor_id c) true), gives_same; [by eapply remove_unknown|done].
  - destruct (_ && Table.plain_b (Num last)) eqn:Hp; [|done]. rewrite !andb_true_iff in Hp. destruct Hp as [[P1 P2] P3].
    apply plain_b_plain in P1, P2, P3. destruct (lookup_cases e J Hne) as [(j & Hj & <- & E)|[He E]]; rewrite E in Hst; simplify_eq.
    + cbn [cost_of foldr] in *. rewrite Z.add_0_r in *. by apply set_known.
    + apply gives_same; [by eapply at_edg_unknown|done].
  - destruct (lookup_cases e J Hne) as [(j & Hj & <- & E)|[He E]]; rewrite E in Hst.
    + case_bool_decide; simplify_eq. cbn [cost_of foldr] in *. rewrite Z.add_0_r in *. by apply retry_known.
    + simplify_eq. apply gives_same; [by eapply at_edg_unknown|done].
  - simplify_eq. apply (gives_reply s _ (condor_id e)), gives_same; [by apply condor_table|done].
  - simplify_eq. apply (gives_reply s _ (edg_id c)), gives_same; [by apply edg_table|done].
  - simplify_eq. by apply (gives_reply s _ (ic_compact fuel) tt (λ _, Nothing)), compact_table.
  - simplify_eq. by eapply (gives_reply s _ ic_clear tt (λ _, Nothing)), clear_table.
Qed.

Lemma step_length o J J' r w : Table.step o J = Some (J', r, w) → (length J' ≤ S (length J))%nat.
Proof.
  assert (∀ e f, length (Table.change e f J) = length J) as Hc by (intros; apply length_fmap).
  assert (∀ (P : job → Prop) `{∀ j, Decision (P j)}, length (filter P J) ≤ S (length J))%nat as Hfl
    by (intros P HP; pose proof (length_filter P J); lia).
  destruct o; cbn [Table.step]; intros H; repeat case_match; simplify_eq; rewrite ?length_app, ?Hc; cbn [length]; try lia; apply Hfl.
Qed.

Context (Hpos : ∀ j, 0 ≤ size j).
Lemma job_cost_nonneg w : 0 ≤ cost_of w.
Proof. induction w as [|j w IH]; cbn; [lia|]. pose proof (Hpos j). unfold cost_of in IH. lia. Qed.
Lemma cost_app w w' : cost_of (w ++ w') = cost_of w + cost_of w'.
Proof. induction w as [|j w IH]; [done|]. cbn [app cost_of foldr] in *. unfold cost_of in *. lia. Qed.

Lemma run_table fuel os : ∀ s J J' rs w,
  registers s J → Table.run os J = Some (J', rs, w) → send (ic_container s) + cost_of w ≤ off_max → (length J + length os < fuel)%nat →
  gives_table s (perform_calls fuel os) rs J' (cost_of w).
Proof.
  induction os as [|o os IH]; intros s J J' rs w Hreg Hr Hroom Hf; cbn [Table.run perform_calls] in *.
  { simplify_eq. by apply gives_same. }
  destruct (Table.step o J) as [[[J1 r1] w1]|] eqn:E1; [|done]. cbn in Hr. destruct (Table.run os J1) as [[[J2 rs2] w2]|] eqn:E2; [|done]. cbn in Hr. simplify_eq.
  rewrite cost_app in Hroom. pose proof (job_cost_nonneg w2). pose proof (step_length _ _ _ _ _ E1). cbn [length] in Hf.
  destruct (step_table fuel o s J J1 r1 w1 Hreg E1) as (s1 & R1 & G1 & Z1); [lia|lia|].
  destruct (IH s1 J1 J' rs2 w2 G1 E2) as (s2 & R2 & G2 & Z2); [lia|lia|].
  exists s2. split; [by rewrite (bind_Ret _ _ _ _ _ R1), (bind_Ret _ _ _ _ _ R2)|]. split; [done|]. rewrite cost_app. lia.
Qed.
End registers.
