(* ===== verification/RamContainerProps.v ===== *)
(** * The copy of the repository in memory

    [RamContainer] keeps the pairs of ids without a file.  On pairs that are
    new, or known as they are, [insert] does what a table does; on a pair
    that shares one id with another pair it leaves an index entry to an
    erased node behind. *)

From S2P Require Import Prelude Vectors Digits Stream FileContainer ContainerFields ContainerDisk ContainerCells ContainerList ContainerAdd.
From S2P Require Import ContainerRead ContainerCompact FileList ListContainer FileListProps FileListDeque FileListOps IdContainer IdIndexes IdContainerProps.
From S2P Require Import IdRepository.

Section ram.
Context {A : Type}.
Implicit Types (s : RamContainer A) (ps : pointers A) (L : list (nat * PointerId A)).

(** The pairs (edg id, condor id), in the order of the list. *)
Definition pairs_of L : list (bytes * bytes) := (λ np, (pi_edgId np.2, pi_condorId np.2)) <$> L.
Definition rc_pairs s : list (bytes * bytes) := pairs_of (ps_list (rc_pointers s)).

Lemma pairs_edgs L : (pairs_of L).*1 = edg_ids L.
Proof. unfold pairs_of. by rewrite <- list_fmap_compose. Qed.
Lemma pairs_condors L : (pairs_of L).*2 = condor_ids L.
Proof. unfold pairs_of. by rewrite <- list_fmap_compose. Qed.

Lemma rc_erase_mid s L1 n p L2 : indexed (rc_pointers s) → ps_list (rc_pointers s) = L1 ++ (n, p) :: L2 →
  rc_erase n s = (Ram (rc_inserted s) (erase_node n (rc_pointers s)), Ret tt).
Proof.
  intros Hi El. unfold rc_erase. rewrite (bind_Ret rc_get _ s s _ eq_refl), (deref_mid _ L1 n p L2 Hi El). rewrite bool_decide_true by done. done.
Qed.

(** ** Both ids new *)
Lemma rc_insert_fresh f s e c :
  indexed (rc_pointers s) → e ∉ (rc_pairs s).*1 → c ∉ (rc_pairs s).*2 →
  ∃ s', rc_insert (S f) e c s = (s', Ret tt) ∧ indexed (rc_pointers s') ∧ rc_pairs s' = rc_pairs s ++ [(e, c)] ∧ rc_inserted s' = rc_inserted s + 1.
Proof.
  unfold rc_pairs. rewrite pairs_edgs, pairs_condors. intros Hi He Hc. eexists. split.
  - unfold rc_insert. cbn [rc_insert_loop]. unfold mbind at 1, M_bind at 1. rewrite (bind_Ret rc_get _ s s _ eq_refl).
    rewrite (find_edg_None _ _ Hi He), (find_condor_None _ _ Hi Hc). reflexivity.
  - split; [by apply (insert_indexed (rc_pointers s) (PointerId_ids c e))|]. split; [|done]. cbn. unfold pairs_of. by rewrite fmap_app.
Qed.

(** ** Both ids known *)
Lemma rc_insert_known f s e c :
  indexed (rc_pointers s) → e ∈ (rc_pairs s).*1 → c ∈ (rc_pairs s).*2 → rc_insert (S f) e c s = (s, Ret tt).
Proof.
  unfold rc_pairs. rewrite pairs_edgs, pairs_condors. intros Hi He Hc.
  apply in_ids in He as (L1 & n & p & L2 & El & <-). apply in_ids in Hc as (L3 & m & q & L4 & El' & <-).
  unfold rc_insert. cbn [rc_insert_loop]. unfold mbind at 1, M_bind at 1. rewrite (bind_Ret rc_get _ s s _ eq_refl).
  destruct (find_edg_mid _ L1 n p L2 Hi El) as (i & -> & _). by destruct (find_condor_mid _ L3 m q L4 Hi El') as (j & -> & _).
Qed.

(** ** One id known *)
Lemma erased_node_gone ps L1 n p L2 q : indexed ps → ps_list ps = L1 ++ (n, p) :: L2 → node_of ((L1 ++ L2) ++ [(ps_fresh ps, q)]) n = None.
Proof.
  intros Hi El. pose proof (ix_fresh _ Hi) as Hf. pose proof (ix_nodes _ Hi) as Hn. rewrite El in Hf, Hn. apply node_of_None. rewrite fmap_app.
  apply not_elem_of_app. split.
  - rewrite fmap_app, fmap_cons, <- Permutation_middle in Hn. rewrite fmap_app. by apply NoDup_cons in Hn as [Hn _].
  - intros E%list_elem_of_singleton. cbn in E. apply Forall_app in Hf as [_ Hf]. apply Forall_cons in Hf as [Hf _]. cbn in Hf. lia.
Qed.

(** The edg id is known with another condor id: its node is replaced, and
    the entry of the old condor id still points to it. *)
Lemma rc_insert_edg_known f s L1 n p L2 c :
  indexed (rc_pointers s) → ps_list (rc_pointers s) = L1 ++ (n, p) :: L2 → c ∉ (rc_pairs s).*2 →
  ∃ s', rc_insert (S (S f)) (pi_edgId p) c s = (s', Ret tt) ∧ rc_pairs s' = pairs_of (L1 ++ L2) ++ [(pi_edgId p, c)] ∧
    rc_edg_id (pi_condorId p) s' = (s', Stuck).
Proof.
  unfold rc_pairs. rewrite pairs_condors. intros Hi El Hc. destruct (find_edg_mid _ L1 n p L2 Hi El) as (i & Fe & Hie).
  pose proof (erase_node_mid _ L1 n p L2 Hi El) as El1.
  set (ps1 := set_edgs (delete i (ps_edgs (rc_pointers s))) (erase_node n (rc_pointers s))).
  assert (find_edg ps1 (pi_edgId p) = None) as Fe1.
  { apply found_None. cbn. intros Hin. pose proof (ix_edgs_perm _ Hi) as Hp. pose proof (ix_edgs _ Hi) as Hn. rewrite El in Hp, Hn.
    rewrite (perm_delete edg_entry _ i L1 (n, p) L2 Hp Hie), <- list_fmap_compose in Hin. unfold edg_ids in Hn. rewrite fmap_app, fmap_cons, <- Permutation_middle in Hn.
    apply NoDup_cons in Hn as [Hn _]. apply Hn. by rewrite fmap_app in Hin. }
  pose proof (find_condor_None _ _ Hi Hc) as Fc. eexists. split; [|split].
  - unfold rc_insert. rewrite (bind_Ret (rc_insert_loop _ _ _) _ s (Ram (rc_inserted s) ps1) (false, false)).
    + reflexivity.
    + cbn [rc_insert_loop]. rewrite (bind_Ret rc_get _ s s _ eq_refl), Fe, Fc. cbn [ei_position].
      rewrite (bind_Ret _ _ _ _ _ (rc_erase_mid s L1 n p L2 Hi El)).
      rewrite (bind_Ret (rc_upd (λ ps, set_edgs (delete i (ps_edgs ps)) ps)) _ (Ram (rc_inserted s) (erase_node n (rc_pointers s))) (Ram (rc_inserted s) ps1) tt eq_refl).
      rewrite (bind_Ret rc_get _ (Ram (rc_inserted s) ps1) _ _ eq_refl).
      change (find_condor (rc_pointers (Ram (rc_inserted s) ps1)) c) with (find_condor (rc_pointers s) c). by rewrite Fc; cbn [rc_pointers]; rewrite Fe1.
  - cbn. cbn in El1. rewrite El1. unfold pairs_of. by rewrite fmap_app.
  - unfold rc_edg_id, edg_of. cbn [rc_pointers].
    set (cs := insert_at (condors_at ps1 c) (Condor (ps_fresh ps1) c) (ps_condors (rc_pointers s))).
    assert (∃ k, found ci_condorId cs (pi_condorId p) = Some (k, Condor n (pi_condorId p))) as [k Fk].
    { destruct (found_elem ci_condorId cs (Condor n (pi_condorId p))) as (k & Fk & _); [| |by exists k].
      - apply (insert_sorted ci_condorId (ps_condors (rc_pointers s)) (Condor (ps_fresh ps1) c)); [apply Hi|]. by rewrite (condor_keys _ Hi).
      - unfold cs. rewrite insert_at_perm. apply elem_of_cons. right. rewrite (ix_condors_perm _ Hi), El, fmap_app. apply elem_of_app. right. apply elem_of_cons. by left. }
    change (find_condor _ (pi_condorId p)) with (found ci_condorId cs (pi_condorId p)). rewrite Fk. cbn [ci_position].
    unfold deref. cbn. cbn in El1. rewrite El1. by rewrite (erased_node_gone _ L1 n p L2 _ Hi El).
Qed.

(** ** Removal *)
Lemma rc_remove_known s L1 n p L2 :
  indexed (rc_pointers s) → ps_list (rc_pointers s) = L1 ++ (n, p) :: L2 →
  ∃ s', rc_remove_by_condor_id (pi_condorId p) s = (s', Ret false) ∧ indexed (rc_pointers s') ∧ rc_pairs s' = pairs_of (L1 ++ L2) ∧
    rc_inserted s' = rc_inserted s - 1.
Proof.
  intros Hi El. destruct (find_edg_mid _ L1 n p L2 Hi El) as (i & Fe & He). destruct (find_condor_mid _ L1 n p L2 Hi El) as (j & Fc & Hc).
  destruct (erase_indexed _ L1 n p L2 i j Hi El He Hc) as [Hi' El']. eexists. split.
  - unfold rc_remove_by_condor_id. rewrite (bind_Ret rc_get _ s s _ eq_refl), Fc. cbn [ci_position]. rewrite (deref_mid _ L1 n p L2 Hi El), Fe. cbn [ei_position].
    rewrite (bind_Ret _ _ _ _ _ (rc_erase_mid s L1 n p L2 Hi El)). reflexivity.
  - split; [exact Hi'|]. split; [|done]. unfold rc_pairs. cbn [rc_pointers]. f_equal. exact El'.
Qed.
Lemma rc_remove_unknown s c : indexed (rc_pointers s) → c ∉ (rc_pairs s).*2 → rc_remove_by_condor_id c s = (s, Ret true).
Proof.
  unfold rc_pairs. rewrite pairs_condors. intros Hi Hc. unfold rc_remove_by_condor_id.
  by rewrite (bind_Ret rc_get _ s s _ eq_refl), (find_condor_None _ _ Hi Hc).
Qed.
End ram.

(** ** Copying the repository *)
Section copy.
Context {C : Type} {HC : Container C} {HL : ListContainer C}.
Context {A : Type} {HT : Converter A} {HA : ClassAd A} {HAL : ClassAdLaws A}.

Definition job_pair (j : job) : bytes * bytes := (j_edg j, j_condor j).

(** One object is reused for every element; its ids are the ones of the
    last element read, whatever was in it. *)
Lemma reset_ids (s : file_sequence C) (i : FLIterator A) en j p :
  on_entry (fs_addr s) i en → stored (A := A) en.2 j →
  ∃ p' i', PointerId_reset i p s = (s, Ret (p', i')) ∧ pi_edgId p' = j_edg j ∧ pi_condorId p' = j_condor j ∧
    bi_iterator (fli_base i') = bi_iterator (fli_base i) ∧ bi_container (fli_base i') = bi_container (fli_base i).
Proof.
  intros Hoe (a & Ha & Hw & Hd). destruct (deref_entry s i en a Hoe Ha) as (i' & E & Hoe' & Hi). eexists _, i'.
  split; [unfold PointerId_reset; rewrite (bind_Ret _ _ _ _ _ E); reflexivity|].
  assert (describes (Update a ad_empty) j) as [H1 H2 _ _ _ _] by (eapply describes_mono; [apply update_bound|apply update_absent|done]).
  cbn [fst snd evaluate pi_edgId pi_condorId]. rewrite (eval_string _ _ _ H1), (eval_string _ _ _ H2). split_and!; [done|done|done|].
  by rewrite (oe_container _ _ _ Hoe), (oe_container _ _ _ Hoe').
Qed.

Lemma copy_loop_table : ∀ fuel (s : file_sequence C) l1 l2 (i e : FLIterator A) L J p ps,
  (length l2 < fuel)%nat → seq s (l1 ++ l2) → walk s l1 l2 i → pos_at s (l1 ++ l2) [] (fli_base e) →
  stored_all (A := A) l2 J → unsorted ps L →
  ∃ s' ps' L', copy_loop fuel p ps i e s = (s', Ret ps') ∧ keeps s s' (l1 ++ l2) ∧ unsorted ps' (L ++ L') ∧ pairs_of L' = job_pair <$> J.
Proof.
  induction fuel as [|f IH]; intros s l1 l2 i e L J p ps Hf Hs [Hp Hw] He Hst Hu; [lia|]. cbn [copy_loop].
  rewrite (is_different_end _ l1 l2 _ _ Hs Hp He). destruct Hst as [|en j l2 J Hj Hst].
  { rewrite bool_decide_false by auto. exists s, ps, []. rewrite (app_nil_r L). split; [done|]. by split_and!. }
  rewrite bool_decide_true by done. destruct (reset_ids s i en j p Hw Hj) as (p1 & i1 & E1 & Pe & Pc & Hit & Hbc).
  rewrite (bind_Ret _ _ _ _ _ E1). cbn [fst snd].
  assert (pos_at s l1 (en :: l2) (fli_base i1)) as Hp1 by (unfold pos_at; rewrite Hit, Hbc; exact Hp).
  destruct (incr_walk s l1 en l2 i1 Hs Hp1) as (s2 & i2 & E2 & K2 & W2). rewrite (bind_Ret _ _ _ _ _ E2).
  replace (l1 ++ en :: l2) with ((l1 ++ [en]) ++ l2) in * by by rewrite <- app_assoc.
  destruct (IH s2 (l1 ++ [en]) l2 i2 e (L ++ [(ps_fresh ps, pi_copy (unset_position p1))]) J (unset_position p1) (push_indexed (unset_position p1) ps))
    as (s3 & ps3 & L' & E3 & K3 & U3 & S3); [simpl in Hf; lia|apply K2|done|by eapply keeps_pos|done|by apply unsorted_push|].
  exists s3, ps3, ((ps_fresh ps, pi_copy (unset_position p1)) :: L'). split; [done|]. split; [by eapply keeps_trans|]. rewrite <- app_assoc in U3. split; [done|].
  unfold pairs_of in *. rewrite !fmap_cons, S3. cbn. unfold job_pair at 1. by rewrite Pe, Pc.
Qed.

Lemma rc_copy_table fuel junk (rc : RamContainer A) (s : file_sequence C) l J :
  (length l < fuel)%nat → seq s l → stored_all (A := A) l J → NoDup (Table.edgs J) → NoDup (Table.condors J) →
  ∃ s' rc', rc_copy fuel junk rc s = (s', Ret rc') ∧ keeps s s' l ∧ indexed (rc_pointers rc') ∧ rc_pairs rc' = job_pair <$> J ∧ rc_inserted rc' = 0.
Proof.
  intros Hf Hs Hst He Hc. destruct junk as [[z1 z2] z3].
  destruct (end_walk (A := A) s l Hs) as (s1 & e & E1 & K1 & [P1 _]). destruct (begin_walk (A := A) s1 l (proj1 K1)) as (s2 & i & E2 & K2 & [P2 W2]).
  destruct (copy_loop_table fuel s2 [] l (fli_assign i) e [] J (Pointer z1 z2 z3 fli_null [] [] []) (clear_pointers (rc_pointers rc))) as (s3 & ps & L & E3 & K3 & U3 & S3);
    [done|apply K2|split; [done|by destruct l; [|apply on_entry_assign]]|by eapply keeps_pos|done|apply unsorted_clear|].
  cbn [app] in U3. destruct (sort_indexed ps L U3) as [Hi Hl].
  - rewrite <- pairs_edgs, S3, <- list_fmap_compose. exact He.
  - rewrite <- pairs_condors, S3, <- list_fmap_compose. exact Hc.
  - exists s3, (Ram 0 (sort_indexes ps)). split; [|split; [eapply keeps_trans; [exact K1|]; eapply keeps_trans; [exact K2|exact K3]|]].
    + unfold rc_copy, internalCopy. rewrite bind_assoc, (bind_Ret _ _ _ _ _ E1), bind_assoc, (bind_Ret _ _ _ _ _ E2), bind_assoc, (bind_Ret _ _ _ _ _ E3). done.
    + split; [done|]. split; [|done]. unfold rc_pairs. cbn [rc_pointers]. by rewrite Hl.
Qed.
End copy.
