(* ===== verification/IdProperties.v ===== *)
(** * Properties of the job id repository *)

From stdpp Require Import countable strings.
From S2P Require Import Prelude Vectors Digits Stream FileContainer ContainerFields ContainerDisk ContainerCells ContainerList ContainerAdd ContainerRead ContainerCompact FileList ListContainer.
From S2P Require Import FileListProps FileListDeque FileListOps IdContainer IdIndexes IdContainerProps ContainerCreate ContainerShared IdRepository RamContainerProps ContainerExamples.

(** ** [refresh] on the container file *)
Section refresh.
Context {A : Type} {HT : Converter A} {HA : ClassAd A}.
Implicit Types (s : IdContainer FileContainer A).

Lemma refresh_modified s l fuel :
  stale (fs_container (ic_container s)) l →
  ∃ s', refresh fuel s = (s', Fail container_modified) ∧ ic_pointers s' = ic_pointers s ∧ rep (fs_container (ic_container s')) l.
Proof.
  destruct s as [n [addr c last] ps lastn]. cbn [ic_container fs_container ic_pointers]. intros (m & d & p & j & -> & Hp & Hr & Hst & Hi & Hn & Hnew). pose proof (rep_ok _ _ Hr) as Hd.
  eexists. split; [|split].
  - unfold refresh. erewrite bind_Ret.
    2: { apply on_list_Ret, call_Ret. cbn [ic_container fs_container]. exact (modified_con m d p j Hd Hp Hi). }
    rewrite Hnew. apply bind_Fail. unfold on_list, fs_sync, call, on_container, or_throw, catch. cbn [with_list ic_container set_container fs_container].
    change (c_sync (con m d 26 j)) with (sync_container (con m d 26 j)). rewrite (sync_stale m d 26 j Hd ltac:(lia) Hst Hi Hnew).
    change (c_dump) with dumpFile. rewrite (bind_Ret _ _ _ _ _ (dumpFile_con _ _ _ _ Hd)). reflexivity.
  - reflexivity.
  - exists (loaded d m), d, (disk_end d), j. cbn. split; [done|]. split; [pose proof (disk_end_pos d); unfold fc_s_headerSize in *; lia|].
    split; [done|]. split; [done|]. by apply loaded_mem_ok.
Qed.
End refresh.

Section properties.
Context {A : Type} {HT : Converter A} {HA : ClassAd A} {HAL : ClassAdLaws A}.
Implicit Types (s : IdContainer FileContainer A) (J : list job) (rc : RamContainer A).

(** C36.  Every sequence of calls on the repository that the table of jobs
    allows returns, in order, the answers of the table: [insert] refuses an
    id that is known, the removals take out exactly their job, the updates
    change the job of that id only and the lookups find it.  Afterwards file,
    pointers and indexes agree with the table.  The file must have room for
    the ads that are written, and the walks of [compact] one round per
    element. *)
Theorem id_container_refines_table s J J' (os : list request) rs w (size : job → Z) fuel :
  registers s J → Table.run os J = Some (J', rs, w) →
  sized (A := A) size → (∀ j, 0 ≤ size j) → send (ic_container s) + cost_of size w ≤ off_max → (length J + length os < fuel)%nat →
  ∃ s', perform_calls fuel os s = (s', Ret rs) ∧ registers s' J'.
Proof.
  intros Hreg Hrun Hsz Hpos Hroom Hf. destruct (run_table size Hsz Hpos fuel os s J J' rs w Hreg Hrun Hroom Hf) as (s' & E & H & _). by exists s'.
Qed.

(**  A repository built anew from the file of another one registers
    the same jobs: nothing that matters is only in memory, whatever the
    order of the updates that led to the file. *)
Theorem restart_keeps_jobs s J fuel :
  registers s J → (length J < fuel)%nat →
  ∃ s', IdContainer_construct fuel (new_ids (ic_container s)) = (s', Ret tt) ∧ registers s' J.
Proof. intros Hreg Hf. destruct (restart_table s J fuel Hreg Hf) as (s' & E & H & _). by exists s'. Qed.

(** The binary searches in the two indexes answer as a scan of the
    list of pointers, known id or not, and never follow a dangling pointer. *)
Theorem lookups_equal_scan s (id : bytes) :
  indexed (ic_pointers s) →
  condor_id id s = (s, Ret (scan pi_edgId pi_condorId (ps_list (ic_pointers s)) id)) ∧
  edg_id id s = (s, Ret (scan pi_condorId pi_edgId (ps_list (ic_pointers s)) id)).
Proof. intros Hi. unfold condor_id, edg_id, query. by rewrite condor_of_scan, edg_of_scan. Qed.

(** The copy in memory holds the pairs of the repository it was made
    from, whatever it held before. *)
Theorem ram_copy_mirrors s J rc junk fuel :
  registers s J → (length J < fuel)%nat →
  ∃ l' rc', rc_copy fuel junk rc (ic_container s) = (l', Ret rc') ∧ indexed (rc_pointers rc') ∧
    rc_pairs rc' ≡ₚ job_pair <$> J ∧ rc_inserted rc' = 0.
Proof.
  intros Hreg Hf. destruct (registers_stored _ _ Hreg) as (l & J' & Hs & HJ & Hst). destruct (registers_unique _ _ Hreg) as [He Hc].
  unfold Table.edgs, Table.condors in He, Hc. rewrite HJ in He, Hc, Hf.
  destruct (rc_copy_table fuel junk rc (ic_container s) l J') as (l' & rc' & E & _ & Hi & Hp & Hn); [by rewrite (Forall2_length _ _ _ Hst)|done..|].
  exists l', rc'. by rewrite Hp, HJ.
Qed.

(** [RamContainer::insert] of two new ids appends the pair and counts
    it; when both ids are known, with each other or not, it does nothing;
    [remove_by_condor_id] takes a pair out and reports an unknown id. *)
Theorem ram_insert_and_remove rc e c fuel :
  indexed (rc_pointers rc) → (0 < fuel)%nat →
  (e ∉ (rc_pairs rc).*1 → c ∉ (rc_pairs rc).*2 →
     ∃ rc', rc_insert fuel e c rc = (rc', Ret tt) ∧ indexed (rc_pointers rc') ∧ rc_pairs rc' = rc_pairs rc ++ [(e, c)] ∧
       rc_inserted rc' = rc_inserted rc + 1) ∧
  (e ∈ (rc_pairs rc).*1 → c ∈ (rc_pairs rc).*2 → rc_insert fuel e c rc = (rc, Ret tt)) ∧
  (c ∈ (rc_pairs rc).*2 → ∃ rc' e', rc_remove_by_condor_id c rc = (rc', Ret false) ∧ indexed (rc_pointers rc') ∧ rc_pairs rc ≡ₚ (e', c) :: rc_pairs rc') ∧
  (c ∉ (rc_pairs rc).*2 → rc_remove_by_condor_id c rc = (rc, Ret true)).
Proof.
  intros Hi Hf. destruct fuel as [|f]; [lia|]. split; [by apply rc_insert_fresh|]. split; [by apply rc_insert_known|]. split; [|by apply rc_remove_unknown].
  intros Hc. unfold rc_pairs in Hc. rewrite pairs_condors in Hc. apply in_ids in Hc as (L1 & n & p & L2 & El & <-).
  destruct (rc_remove_known rc L1 n p L2 Hi El) as (rc' & E & Hi' & Hp & _). exists rc', (pi_edgId p). split; [done|]. split; [done|].
  rewrite Hp. unfold rc_pairs. rewrite El. unfold pairs_of. by rewrite !fmap_app, fmap_cons, <- Permutation_middle.
Qed.

(**  [RamContainer::insert] of a known edg id with a new condor id
    replaces the pair, but leaves the entry of the old condor id in the
    index: [edg_id] of that condor id then follows a pointer to an erased
    node. *)
Theorem ram_insert_dangles rc e c c' fuel :
  indexed (rc_pointers rc) → (e, c) ∈ rc_pairs rc → c' ∉ (rc_pairs rc).*2 → (2 ≤ fuel)%nat →
  ∃ rc', rc_insert fuel e c' rc = (rc', Ret tt) ∧ (e, c') ∈ rc_pairs rc' ∧ rc_edg_id c rc' = (rc', Stuck).
Proof.
  intros Hi Hin Hc Hf. destruct fuel as [|[|f]]; [lia..|]. unfold rc_pairs, pairs_of in Hin. apply list_elem_of_fmap in Hin as ([n p] & Ep & Hin).
  cbn in Ep. simplify_eq. apply list_elem_of_split in Hin as (L1 & L2 & El).
  destruct (rc_insert_edg_known f rc L1 n p L2 c' Hi El Hc) as (rc' & E & Hp & Hd). exists rc'. split; [done|]. split; [|done].
  rewrite Hp. apply elem_of_app. right. by apply list_elem_of_singleton.
Qed.

(** While no other process has touched the file [refresh] returns
    and keeps everything. *)
Theorem refresh_unmodified s J fuel :
  registers s J → ∃ s', refresh fuel s = (s', Ret tt) ∧ registers s' J.
Proof.
  intros (l & K & [Hh Hb] & Hi & Hl & HJ & Hf). destruct s as [n [addr c last] ps lastn]. cbn [ic_container fs_container ic_pointers fs_addr fs_last] in *.
  destruct Hh as (m & d & p & j & -> & Hp & Hr & Hst & Hm). pose proof (rep_ok _ _ Hr) as Hd. eexists. split.
  - unfold refresh. erewrite bind_Ret.
    2: { apply on_list_Ret, call_Ret. cbn [ic_container fs_container]. exact (modified_con m d p j Hd Hp (mem_init _ _ Hm)). }
    rewrite (mem_fresh _ _ Hm). reflexivity.
  - exists l, K. split; [|done]. split; [|exact Hb]. exists m, d, 26, j. split; [done|]. split; [lia|done].
Qed.

(**  When another process has changed the file [refresh] throws
    [container_modified]: the header is read again, but the pointers and the
    indexes are still the old ones. *)
Theorem refresh_throws_when_modified s l fuel :
  stale (fs_container (ic_container s)) l →
  ∃ s', refresh fuel s = (s', Fail container_modified) ∧ ic_pointers s' = ic_pointers s ∧ rep (fs_container (ic_container s')) l.
Proof. apply refresh_modified. Qed.
End properties.

(** * The job id repository on a concrete file

    A small ClassAd library (ads of the six attributes, printed as the bits
    of their code) shows that the laws can hold; the theorems of the
    repository are applied to a file with two jobs. *)

(** ** A ClassAd library *)
#[global] Instance literal_eqdec : EqDecision literal.
Proof. solve_decision. Defined.
#[global] Instance literal_countable : Countable literal :=
  inj_countable' (λ v, match v with Str s => inl s | Num z => inr z end) (λ x, match x with inl s => Str s | inr z => Num z end)
    (λ v, match v with Str _ | Num _ => eq_refl end).

Record ad := Ad { ad_condor : option literal; ad_edg : option literal; ad_code : option literal;
                  ad_status : option literal; ad_last : option literal; ad_retry : option literal }.
Definition ad_tuple (a : ad) := (ad_condor a, ad_edg a, ad_code a, ad_status a, ad_last a, ad_retry a).
#[global] Instance ad_eqdec : EqDecision ad.
Proof. solve_decision. Defined.
#[global] Instance ad_countable : Countable ad :=
  inj_countable' ad_tuple (λ '(x1, x2, x3, x4, x5, x6), Ad x1 x2 x3 x4 x5 x6) (λ a, match a with Ad _ _ _ _ _ _ => eq_refl end).

Definition ad_get (a : ad) (n : attr) : option literal :=
  match n with
  | ACondorId => ad_condor a | AEdgId => ad_edg a | ASequenceCode => ad_code a
  | ACondorStatus => ad_status a | ALastStatus => ad_last a | ARetryCount => ad_retry a
  end.
Definition ad_set (n : attr) (v : literal) (a : ad) : ad :=
  let f m := if bool_decide (m = n) then Some v else ad_get a m in
  Ad (f ACondorId) (f AEdgId) (f ASequenceCode) (f ACondorStatus) (f ALastStatus) (f ARetryCount).
Definition attrs : list attr := [ACondorId; AEdgId; ASequenceCode; ACondorStatus; ALastStatus; ARetryCount].
Definition attr_of (name : bytes) : option attr := snd <$> list_find (λ n, attr_name n = name) attrs.

#[global] Instance ad_ClassAd : ClassAd ad := {
  ad_empty := Ad None None None None None None;
  InsertAttr := λ name v a, match attr_of name with Some n => ad_set n v a | None => a end;
  EvaluateAttrString := λ name a,
    match attr_of name with Some n => match ad_get a n with Some (Str s) => Some s | _ => None end | None => None end;
  EvaluateAttrNumber := λ name a,
    match attr_of name with Some n => match ad_get a n with Some (Num z) => Some z | _ => None end | None => None end;
  Update := λ a _, a
}.

Fixpoint bits (p : positive) : bytes :=
  match p with xH => ["."%char] | xO p => "0"%char :: bits p | xI p => "1"%char :: bits p end.
Fixpoint unbits (d : bytes) : option positive :=
  match d with
  | [] => None
  | c :: d => if bool_decide (c = "."%char) then Some xH
              else (if bool_decide (c = "0"%char) then xO else xI) <$> unbits d
  end.
Lemma unbits_bits p : unbits (bits p) = Some p.
Proof. induction p as [p IH|p IH|]; cbn; rewrite ?IH; reflexivity. Qed.
#[global] Instance ad_Converter : Converter ad := {
  to_string := λ a, Some (bits (encode a));
  from_string := λ d, unbits d ≫= decode
}.

Lemma attr_of_name n : attr_of (attr_name n) = Some n.
Proof. by destruct n. Qed.
Lemma ad_get_set n m v a : ad_get (ad_set n v a) m = if bool_decide (m = n) then Some v else ad_get a m.
Proof. by destruct m. Qed.

#[global] Instance ad_laws : ClassAdLaws ad.
Proof.
  refine {| wf_ad := λ _, True; bound := λ a n v, ad_get a n = Some v; absent := λ a n, ad_get a n = None |}.
  - done.
  - by intros [].
  - done.
  - intros a n v. unfold InsertAttr, ad_ClassAd. by rewrite attr_of_name, ad_get_set, bool_decide_true.
  - intros a n m v w Hn. unfold InsertAttr, ad_ClassAd. by rewrite attr_of_name, ad_get_set, bool_decide_false.
  - intros a n m w Hn. unfold InsertAttr, ad_ClassAd. by rewrite attr_of_name, ad_get_set, bool_decide_false.
  - intros a n z E. unfold EvaluateAttrString, ad_ClassAd. by rewrite attr_of_name, E.
  - intros a n z E. unfold EvaluateAttrNumber, ad_ClassAd. by rewrite attr_of_name, E.
  - intros a n E. unfold EvaluateAttrNumber, ad_ClassAd. by rewrite attr_of_name, E.
  - done.
  - done.
  - intros a _. exists (bits (encode a)), a. split; [done|]. split; [by destruct (encode a)|]. split; [|done].
    unfold from_string, ad_Converter. rewrite unbits_bits. apply decode_encode.
Defined.

(** The size of an ad for a job: the two numbers may be left out. *)
Definition job_ad (j : job) (last retry : option literal) : ad :=
  Ad (Some (Str (j_condor j))) (Some (Str (j_edg j))) (Some (Str (j_code j))) (Some (Num (j_status j))) last retry.
Definition ad_size (a : ad) : Z := calculateDataSize (Z.of_nat (length (bits (encode a)))).
Definition job_size (j : job) : Z :=
  ad_size (job_ad j (Some (Num (j_last j))) (Some (Num (j_retry j)))) + ad_size (job_ad j (Some (Num (j_last j))) None) +
  ad_size (job_ad j None (Some (Num (j_retry j)))) + ad_size (job_ad j None None).

Lemma ad_size_nonneg a : 0 ≤ ad_size a.
Proof. unfold ad_size. rewrite calculateDataSize_eq. lia. Qed.
Lemma job_size_nonneg j : 0 ≤ job_size j.
Proof. unfold job_size. repeat (apply Z.add_nonneg_nonneg; [|apply ad_size_nonneg]). apply ad_size_nonneg. Qed.
Lemma job_sized : sized (A := ad) job_size.
Proof.
  intros a j d _ [H1 H2 H3 H4 H5 H6] [= <-]. change (ad_size a ≤ job_size j). destruct a as [x1 x2 x3 x4 x5 x6]. cbn in H1, H2, H3, H4, H5, H6. simplify_eq.
  pose proof (ad_size_nonneg (job_ad j (Some (Num (j_last j))) (Some (Num (j_retry j))))). pose proof (ad_size_nonneg (job_ad j (Some (Num (j_last j))) None)).
  pose proof (ad_size_nonneg (job_ad j None (Some (Num (j_retry j))))). pose proof (ad_size_nonneg (job_ad j None None)).
  destruct H5 as [H5|[H5 _]], H6 as [H6|[H6 _]]; cbn in H5, H6; rewrite H5, H6; unfold job_size, job_ad in *; lia.
Qed.

(** ** Two jobs *)
Definition e1 : bytes := of_string "https://lb:9000/1".
Definition e2 : bytes := of_string "https://lb:9000/2".
Definition c1 : bytes := of_string "17".
Definition c2 : bytes := of_string "9".
Definition code : bytes := of_string "UI=0".

Definition repository0 : IdContainer FileContainer ad := new_ids (new_sequence 1 queue0).
Lemma repository0_registers : registers repository0 [].
Proof.
  exists [], []. split; [split; [apply rep_ready, queue0_rep|done]|]. split; [apply indexed_none|]. by split_and!.
Qed.

Definition calls2 : list request := [Insert e2 c2 code 1; Insert e1 c1 code 1].
Definition jobs2 : list job := [Job e2 c2 code 1 undefined_status 0; Job e1 c1 code 1 undefined_status 0].
Definition repository2 : IdContainer FileContainer ad := (perform_calls 5 calls2 repository0).1.
Lemma repository2_gives : gives_table repository0 (perform_calls 5 calls2) [Failed false; Failed false] jobs2 (cost_of job_size jobs2).
Proof.
  apply (run_table job_size job_sized job_size_nonneg 5 calls2 repository0 [] jobs2 [Failed false; Failed false] jobs2 repository0_registers); [reflexivity| |cbn; lia].
  change (send (ic_container repository0)) with (end_of queue0). rewrite queue0_end. vm_compute. discriminate.
Qed.
Lemma repository2_registers : registers repository2 jobs2.
Proof. destruct repository2_gives as (s & E & H & _). unfold repository2. by rewrite E. Qed.

Lemma id_container_refines_table_witness :
  ∃ s', perform_calls 20 [Insert e1 c1 code 1; Insert e2 c1 code 1; Insert e2 c2 code 1; Set_ e1 (of_string "UI=1") 5 (-1); Retry e2; CompactAll;
                          CondorOf e2; EdgOf c1; RemoveEdg e2; CondorOf e2; RemoveCondor c2] repository0 =
      (s', Ret [Failed false; Failed true; Failed false; Failed false; Failed false; Nothing; Id c2; Id e1; Failed false; Id []; Failed true]) ∧
    registers s' [Job e1 c1 (of_string "UI=1") 5 (-1) 0].
Proof.
  eapply (id_container_refines_table repository0 [] [Job e1 c1 (of_string "UI=1") 5 (-1) 0]
           [Insert e1 c1 code 1; Insert e2 c1 code 1; Insert e2 c2 code 1; Set_ e1 (of_string "UI=1") 5 (-1); Retry e2; CompactAll;
            CondorOf e2; EdgOf c1; RemoveEdg e2; CondorOf e2; RemoveCondor c2] _ _ job_size 20 repository0_registers);
    [reflexivity|apply job_sized|apply job_size_nonneg| |cbn; lia].
  change (send (ic_container repository0)) with (end_of queue0). rewrite queue0_end. vm_compute. discriminate.
Defined.

Lemma restart_keeps_jobs_witness :
  ∃ s', IdContainer_construct 3 (new_ids (ic_container repository2)) = (s', Ret tt) ∧ registers s' jobs2.
Proof. apply (restart_keeps_jobs repository2 jobs2 3); [apply repository2_registers|cbn; lia]. Defined.

Lemma lookups_equal_scan_witness :
  condor_id e1 repository2 = (repository2, Ret (scan pi_edgId pi_condorId (ps_list (ic_pointers repository2)) e1)) ∧
  edg_id e1 repository2 = (repository2, Ret (scan pi_condorId pi_edgId (ps_list (ic_pointers repository2)) e1)).
Proof. apply (lookups_equal_scan repository2 e1). exact (registers_indexed _ _ repository2_registers). Defined.

Lemma ram_copy_mirrors_witness :
  ∃ l' rc', rc_copy 3 (7, 8, 9) rc_new (ic_container repository2) = (l', Ret rc') ∧ indexed (rc_pointers rc') ∧
    rc_pairs rc' ≡ₚ [(e2, c2); (e1, c1)] ∧ rc_inserted rc' = 0.
Proof. apply (ram_copy_mirrors repository2 jobs2 rc_new (7, 8, 9) 3); [apply repository2_registers|cbn; lia]. Defined.

(** A copy with one pair. *)
Definition ram1 : RamContainer ad := (rc_insert 1 e1 c1 rc_new).1.
Lemma ram1_indexed : indexed (rc_pointers ram1).
Proof.
  destruct (rc_insert_fresh (A := ad) 0 rc_new e1 c1 indexed_none) as (s & E & H & _); [apply not_elem_of_nil..|]. unfold ram1. by rewrite E.
Qed.

Lemma ram_insert_and_remove_witness :
  (∃ rc', rc_insert 1 e2 c2 ram1 = (rc', Ret tt) ∧ rc_pairs rc' = [(e1, c1); (e2, c2)]) ∧ rc_insert 1 e1 c1 ram1 = (ram1, Ret tt) ∧
  (∃ rc', rc_remove_by_condor_id c1 ram1 = (rc', Ret false)) ∧ rc_remove_by_condor_id c2 ram1 = (ram1, Ret true).
Proof.
  destruct (ram_insert_and_remove ram1 e2 c2 1 ram1_indexed) as (H1 & _ & _ & H4); [lia|].
  destruct (ram_insert_and_remove ram1 e1 c1 1 ram1_indexed) as (_ & H2 & H3 & _); [lia|]. split_and!.
  - destruct H1 as (rc' & E & _ & Hp & _); [by apply (bool_decide_unpack _); vm_compute|by apply (bool_decide_unpack _); vm_compute|].
    exists rc'. split; [exact E|]. rewrite Hp. vm_compute. reflexivity.
  - apply H2; by apply (bool_decide_unpack _); vm_compute.
  - destruct H3 as (rc' & e' & E & _); [by apply (bool_decide_unpack _); vm_compute|]. exists rc'. exact E.
  - apply H4. by apply (bool_decide_unpack _); vm_compute.
Defined.

Lemma ram_insert_dangles_witness :
  ∃ rc', rc_insert 2 e1 c2 ram1 = (rc', Ret tt) ∧ (e1, c2) ∈ rc_pairs rc' ∧ rc_edg_id c1 rc' = (rc', Stuck).
Proof.
  apply (ram_insert_dangles ram1 e1 c1 c2 2 ram1_indexed); [by apply (bool_decide_unpack _); vm_compute|by apply (bool_decide_unpack _); vm_compute|lia].
Defined.

(** The conflicting pair of two known jobs is dropped without a word. *)
Example ram_conflict_ignored :
  let rc := (rc_insert 1 e2 c2 ram1).1 in rc_insert 1 e1 c2 rc = (rc, Ret tt).
Proof. vm_compute. reflexivity. Qed.

Lemma refresh_unmodified_witness : ∃ s', refresh 3 repository2 = (s', Ret tt) ∧ registers s' jobs2.
Proof. apply (refresh_unmodified repository2 jobs2 3). apply repository2_registers. Defined.

(** Another process has appended to the file of [queue2]. *)
Definition changed : FileContainer := see (add_data (of_string "x") (end_of queue2) nullIterator queue2).1 queue2.
Lemma changed_stale : stale changed [(391, of_string "ab"); (488, of_string "cde"); (end_of queue2, of_string "x")].
Proof.
  destruct (share_append queue2 queue2 (fc_stamp queue2) _ (of_string "x") nullIterator queue2_share) as (w & it & m & d & p & j & E & _ & Es & H);
    [discriminate|rewrite queue2_end; vm_compute; discriminate|]. unfold changed. rewrite E. cbn [fst]. exists m, d, p, j.
  rewrite bool_decide_true in H by (left; vm_compute; reflexivity). split; [exact Es|exact H].
Qed.
Lemma refresh_throws_when_modified_witness :
  ∃ s' : IdContainer FileContainer ad, refresh 3 (new_ids (new_sequence 1 changed)) = (s', Fail container_modified) ∧ ic_pointers s' = no_pointers ∧
    rep (fs_container (ic_container s')) [(391, of_string "ab"); (488, of_string "cde"); (end_of queue2, of_string "x")].
Proof.
  apply (refresh_throws_when_modified (A := ad) (new_ids (new_sequence 1 changed))
           [(391, of_string "ab"); (488, of_string "cde"); (end_of queue2, of_string "x")] 3). apply changed_stale.
Defined.
