(* ===== verification/RequestMachine.v ===== *)
(** * Requests of the workload manager

    Model of [core/src/helper/HelperFactory.cpp], [Helper.cpp],
    [RequestStateMachine.cpp], [Request.cpp] and [core/src/plan.cpp]: a
    request is carried from its initial state to the final one by helpers
    that the factory creates by name.

    [std::map] is a vector sorted by its keys; iteration is in that order.
    A ClassAd, the match of an ad with an expression and the helpers' own
    [resolve] are parameters.  A failed [assert] ends the process and is
    [Stuck]. *)

From S2P Require Import Prelude Vectors.

(** ** [std::map<std::string, V>] *)
Section std_map.
Context {V : Type}.
Implicit Types (m : list (bytes * V)) (k : bytes).

Definition map_find m k : option V := match found fst m k with Some (_, (_, v)) => Some v | None => None end.
(** [insert( make_pair(k, v) )] does nothing when the key is there. *)
Definition map_insert k (v : V) m : list (bytes * V) * bool :=
  match found fst m k with
  | Some _ => (m, false)
  | None => (insert_at (lower_bound fst m k) (k, v) m, true)
  end.
(** [erase( k )] answers the number of erased elements. *)
Definition map_erase k m : list (bytes * V) * nat :=
  match found fst m k with
  | Some (i, _) => (delete i m, 1%nat)
  | None => (m, 0%nat)
  end.
End std_map.

Section helpers.
(** The ad of a request, and what a helper throws. *)
Context {Ad Exn : Type}.

(** [HelperImpl::resolve]: an ad, a null pointer or an exception. *)
Definition HelperImpl : Type := Ad → option bytes → outcome Exn (option Ad).
(** [product_creator_type]: a new helper, or a null pointer. *)
Definition product_creator : Type := option HelperImpl.

(** ** [HelperFactory] *)
Definition factory_type : Type := list (bytes * product_creator).
Definition register_helper (id : bytes) (creator : product_creator) (f : factory_type) : factory_type * bool := map_insert id creator f.
Definition unregister_helper (id : bytes) (f : factory_type) : factory_type * bool :=
  let '(f, n) := map_erase id f in (f, bool_decide (n = 1%nat)).
(** [None]: [NoCreateHelperException]. *)
Definition create_helper (id : bytes) (f : factory_type) : option product_creator := map_find f id.
Definition list_helpers (f : factory_type) : list bytes := f.*1.

(** ** Exceptions of a request *)
Inductive request_error :=
| NoValidState
| NoSuchHelper (helper : bytes)
| InvalidArgument
| HelperThrew (e : Exn).

(** [Helper( id )]: an unknown helper and a null one are the same error. *)
Definition Helper (id : bytes) (f : factory_type) : request_error + HelperImpl :=
  match create_helper id f with
  | Some (Some h) => inr h
  | _ => inl (NoSuchHelper id)
  end.

(** ** [RequestStateMachine] *)
Record RequestStateMachine := Machine {
  m_initial_states : list (bytes * bytes);
  m_transition_table : list (bytes * (bytes * bytes));
  m_final_states : list bytes;
  m_current_state : bytes
}.

Definition dq : ascii := "034"%char.
Definition SimpleLogicalJob : bytes := of_string "SimpleLogicalJob".
Definition SimplePhysicalJob : bytes := of_string "SimplePhysicalJob".
Definition DAGJob : bytes := of_string "DAGJob".
Definition AdaptedJob : bytes := of_string "AdaptedJob".
Definition type_is (t : bytes) : bytes := of_string "other.type==" ++ [dq] ++ t ++ [dq].

Definition init_initial_states (s : list (bytes * bytes)) : list (bytes * bytes) :=
  (map_insert DAGJob (type_is (of_string "dag")) (map_insert SimpleLogicalJob (type_is (of_string "job")) s).1).1.
Definition init_transition_table (t : list (bytes * (bytes * bytes))) : list (bytes * (bytes * bytes)) :=
  (map_insert DAGJob (of_string "DAGManHelper", AdaptedJob)
    (map_insert SimplePhysicalJob (of_string "JobAdapterHelper", AdaptedJob)
      (map_insert SimpleLogicalJob (of_string "BrokerHelper", SimplePhysicalJob) t).1).1).1.
Definition init_final_states (s : list bytes) : list bytes := if bool_decide (AdaptedJob ∈ s) then s else s ++ [AdaptedJob].
Definition state_is_final (state : bytes) (final_states : list bytes) : bool := bool_decide (state ∈ final_states).

Definition new_machine : RequestStateMachine :=
  Machine (init_initial_states []) (init_transition_table []) (init_final_states []) [].
(** [operator!] *)
Definition is_final (m : RequestStateMachine) : bool := state_is_final (m_current_state m) (m_final_states m).
Definition set_current_state (s : bytes) (m : RequestStateMachine) : RequestStateMachine :=
  Machine (m_initial_states m) (m_transition_table m) (m_final_states m) s.

(** [left_matches_right( ad, rhs )], the right ad given by its text. *)
Context (left_matches_right : Ad → bytes → bool).
Definition MatchAd (ad : Ad) (v : bytes * bytes) : bool := left_matches_right ad (of_string "[requirements=" ++ v.2 ++ of_string "]").

Definition start (ad : Ad) (m : RequestStateMachine) : request_error + RequestStateMachine :=
  match find (MatchAd ad) (m_initial_states m) with
  | Some it => inr (set_current_state it.1 m)
  | None => inl NoValidState
  end.

(** ** [Request] *)
Record Request := Req {
  r_machine : RequestStateMachine;
  r_original : Ad;
  r_current : Ad;
  r_template : option bytes
}.
#[local] Abbreviation RM := (M Request request_error).
Definition upd_machine (g : RequestStateMachine → RequestStateMachine) (r : Request) : Request :=
  Req (g (r_machine r)) (r_original r) (r_current r) (r_template r).
Definition change_ad (ad : Ad) (r : Request) : Request := Req (r_machine r) (r_original r) ad (r_template r).

(** The helper runs first: an exception leaves the state as it was.  The
    state moves on before the null pointer is asserted. *)
Definition next_step (f : factory_type) : RM Ad :=
  r ← get_st;
  match map_find (m_transition_table (r_machine r)) (m_current_state (r_machine r)) with
  | None => fail NoValidState
  | Some (helper, next_state) =>
      match Helper helper f with
      | inl e => fail e
      | inr h =>
          match h (r_current r) (r_template r) with
          | Ret result =>
              modify (upd_machine (set_current_state next_state));;
              match result with Some ad => mret ad | None => stuck end
          | Fail e => fail (HelperThrew e)
          | Stuck => stuck
          end
      end
  end.

Definition is_resolved (r : Request) : bool := is_final (r_machine r).
Definition resolve (f : factory_type) : RM unit :=
  r ← get_st;
  if is_resolved r then stuck
  else
    ad ← catch (next_step f) (λ e, match e with NoValidState => fail InvalidArgument | _ => fail e end);
    modify (change_ad ad).

(** [Request( ad, jw_template )] *)
Definition new_request (ad : Ad) (jw_template : option bytes) : request_error + Request :=
  match start ad new_machine with
  | inr m => inr (Req m ad ad jw_template)
  | inl NoValidState => inl InvalidArgument
  | inl e => inl e
  end.
Definition resolved_ad (r : Request) : option Ad := if is_resolved r then Some (r_current r) else None.

(** ** [Plan]: one unit of fuel per round of the loop *)
Fixpoint resolve_loop (fuel : nat) (f : factory_type) : RM unit :=
  match fuel with
  | O => stuck
  | S n =>
      r ← get_st;
      if is_resolved r then mret tt else resolve f;; resolve_loop n f
  end.
Definition Plan (fuel : nat) (f : factory_type) (ad : Ad) (jw_template : option bytes) : outcome request_error (option Ad) :=
  match new_request ad jw_template with
  | inl e => Fail e
  | inr r => match resolve_loop fuel f r with
             | (r, Ret _) => Ret (resolved_ad r)
             | (_, Fail e) => Fail e
             | (_, Stuck) => Stuck
             end
  end.
End helpers.
Arguments HelperImpl : clear implicits.
Arguments product_creator : clear implicits.
Arguments factory_type : clear implicits.
Arguments request_error : clear implicits.
Arguments Request : clear implicits.
