(* ===== verification/RequestProps.v ===== *)
(** * Properties of requests

    The machine, the factory and the loop of [Plan] amount to a fixed
    pipeline of helpers; no reachable request is without a transition. *)

From S2P Require Import Prelude Vectors RequestMachine.

(** ** Maps *)
Section std_map.
Context {V : Type}.
Implicit Types (m : list (bytes * V)) (k : bytes).

Lemma map_find_elem m k v : sorted fst m → map_find m k = Some v ↔ (k, v) ∈ m.
Proof.
  intros Hs. unfold map_find. split.
  - destruct (found fst m k) as [[i [k' v']]|] eqn:E; [|done]. intros [= ->]. apply found_inv in E as (Hi & Hk & _). cbn in Hk. subst k'.
    by eapply list_elem_of_lookup_2.
  - intros Hin. destruct (found_elem fst m (k, v) Hs Hin) as (i & E & _). cbn in E. by rewrite E.
Qed.
Lemma map_find_None m k : sorted fst m → map_find m k = None ↔ k ∉ m.*1.
Proof.
  intros Hs. split.
  - intros E ([k' v] & -> & Hin)%list_elem_of_fmap. apply (map_find_elem m _ v Hs) in Hin. cbn in E. congruence.
  - intros Hk. unfold map_find. by rewrite found_None.
Qed.
Lemma found_find m k : map_find m k = None → found fst m k = None.
Proof. unfold map_find. by destruct (found fst m k) as [[i [k' v']]|]. Qed.
Lemma map_find_ext m m' k : sorted fst m → sorted fst m' → (∀ v, (k, v) ∈ m ↔ (k, v) ∈ m') → map_find m k = map_find m' k.
Proof.
  intros H1 H2 H. destruct (map_find m' k) as [v|] eqn:E.
  - apply (map_find_elem m' k v H2) in E. by apply (map_find_elem m k v H1), H.
  - apply (map_find_None m' k H2) in E. apply (map_find_None m k H1). intros ([k' v] & -> & Hin)%list_elem_of_fmap. apply E. cbn in *.
    apply H in Hin. by apply (list_elem_of_fmap_2 fst) in Hin.
Qed.

Lemma map_insert_new m k v : sorted fst m → k ∉ m.*1 →
  ∃ m', map_insert k v m = (m', true) ∧ sorted fst m' ∧ m' ≡ₚ (k, v) :: m.
Proof.
  intros Hs Hk. eexists. split; [unfold map_insert; rewrite found_None by done; reflexivity|]. split; [|apply insert_at_perm].
  by apply (insert_sorted fst m (k, v)).
Qed.
Lemma map_insert_old m k v : sorted fst m → k ∈ m.*1 → map_insert k v m = (m, false).
Proof. intros Hs ([k' v'] & -> & Hin)%list_elem_of_fmap. unfold map_insert. by destruct (found_elem fst m _ Hs Hin) as (i & -> & _). Qed.
Lemma map_erase_old m k : sorted fst m → k ∈ m.*1 → ∃ m' v, map_erase k m = (m', 1%nat) ∧ sorted fst m' ∧ m ≡ₚ (k, v) :: m'.
Proof.
  intros Hs ([k' v] & -> & Hin)%list_elem_of_fmap. unfold map_erase. destruct (found_elem fst m _ Hs Hin) as (i & E & Hi). rewrite E.
  exists (delete i m), v. split; [done|]. split; [by apply erase_sorted|]. by apply delete_Permutation.
Qed.
Lemma map_erase_new m k : k ∉ m.*1 → map_erase k m = (m, 0%nat).
Proof. intros Hk. unfold map_erase. by rewrite found_None. Qed.
Lemma sorted_keys m : sorted fst m → NoDup m.*1.
Proof.
  induction 1 as [|[k v] m Hs IH Hx]; [constructor|]. cbn. constructor; [|done]. intros ([k' v'] & -> & Hin)%list_elem_of_fmap.
  rewrite Forall_forall in Hx. specialize (Hx _ Hin). cbn in Hx. unfold str_lt in Hx. by rewrite str_lt_irrefl in Hx.
Qed.
End std_map.

Section requests.
Context {Ad Exn : Type} (left_matches_right : Ad → bytes → bool).
Implicit Types (f : factory_type Ad Exn) (r : Request Ad) (ad : Ad).
#[local] Abbreviation resolve := (@resolve Ad Exn).

(** ** The tables of the machine *)
Lemma initial_states_eq : init_initial_states [] = [(DAGJob, type_is (of_string "dag")); (SimpleLogicalJob, type_is (of_string "job"))].
Proof. reflexivity. Qed.
Definition next_of (s : bytes) : option (bytes * bytes) := map_find (init_transition_table []) s.
Lemma next_SimpleLogicalJob : next_of SimpleLogicalJob = Some (of_string "BrokerHelper", SimplePhysicalJob).
Proof. reflexivity. Qed.
Lemma next_SimplePhysicalJob : next_of SimplePhysicalJob = Some (of_string "JobAdapterHelper", AdaptedJob).
Proof. reflexivity. Qed.
Lemma next_DAGJob : next_of DAGJob = Some (of_string "DAGManHelper", AdaptedJob).
Proof. reflexivity. Qed.

(** ** One helper *)
Definition run_helper f (id : bytes) ad (jw : option bytes) : outcome (request_error Exn) Ad :=
  match Helper id f with
  | inl e => Fail e
  | inr h => match h ad jw with
             | Ret (Some a) => Ret a
             | Ret None => Stuck
             | Fail e => Fail (HelperThrew e)
             | Stuck => Stuck
             end
  end.
Lemma Helper_error f id e : Helper id f = inl e → e = NoSuchHelper id.
Proof. unfold Helper. destruct (create_helper id f) as [[h|]|]; naive_solver. Qed.

(** The request in the state [s] with the ad [a]. *)
Definition at_state (s : bytes) (original a : Ad) (jw : option bytes) : Request Ad :=
  Req (set_current_state s new_machine) original a jw.

Definition outcome_of (p : Request Ad * outcome (request_error Exn) unit) : outcome (request_error Exn) (Request Ad) :=
  match p with (r, Ret _) => Ret r | (_, Fail e) => Fail e | (_, Stuck) => Stuck end.

Lemma not_final s o a jw : s ≠ AdaptedJob → is_resolved (at_state s o a jw) = false.
Proof.
  intros Hs. change (bool_decide (s ∈ [AdaptedJob]) = false). apply bool_decide_false. by intros ?%list_elem_of_singleton.
Qed.

Lemma resolve_step f s helper next o a jw :
  next_of s = Some (helper, next) → s ≠ AdaptedJob →
  match run_helper f helper a jw with
  | Ret b => resolve f (at_state s o a jw) = (at_state next o b jw, Ret tt)
  | Fail e => resolve f (at_state s o a jw) = (at_state s o a jw, Fail e)
  | Stuck => ∃ r', resolve f (at_state s o a jw) = (r', Stuck)
  end.
Proof.
  intros Hn Hs. unfold run_helper, RequestMachine.resolve. rewrite (bind_Ret get_st _ _ _ _ eq_refl).
  rewrite (not_final s o a jw Hs).
  assert (∀ k : Ad → M (Request Ad) (request_error Exn) unit, (catch (next_step f) (λ e, match e with NoValidState => fail InvalidArgument | _ => fail e end) ≫= k) (at_state s o a jw) =
    match Helper helper f with
    | inl e => (at_state s o a jw, Fail e)
    | inr h => match h a jw with
               | Ret (Some b) => k b (at_state next o a jw)
               | Ret None => (at_state next o a jw, Stuck)
               | Fail e => (at_state s o a jw, Fail (HelperThrew e))
               | Stuck => (at_state s o a jw, Stuck)
               end
    end) as E.
  { intros k. unfold mbind at 1, M_bind at 1, catch, next_step. rewrite (bind_Ret get_st _ _ _ _ eq_refl).
    change (map_find _ (m_current_state (r_machine (at_state s o a jw)))) with (next_of s). rewrite Hn.
    destruct (Helper helper f) as [e|h] eqn:Eh; [by rewrite (Helper_error _ _ _ Eh)|]. cbn [at_state r_current r_template].
    by destruct (h a jw) as [[b|]|e|]. }
  rewrite E. destruct (Helper helper f) as [e|h]; [done|]. destruct (h a jw) as [[b|]|e|]; eauto.
Qed.

(** ** The pipeline *)
Definition pipeline f ad (jw : option bytes) : outcome (request_error Exn) (option Ad) :=
  if left_matches_right ad (of_string "[requirements=" ++ type_is (of_string "dag") ++ of_string "]") then
    match run_helper f (of_string "DAGManHelper") ad jw with Ret a => Ret (Some a) | Fail e => Fail e | Stuck => Stuck end
  else if left_matches_right ad (of_string "[requirements=" ++ type_is (of_string "job") ++ of_string "]") then
    match run_helper f (of_string "BrokerHelper") ad jw with
    | Ret a => match run_helper f (of_string "JobAdapterHelper") a jw with Ret b => Ret (Some b) | Fail e => Fail e | Stuck => Stuck end
    | Fail e => Fail e
    | Stuck => Stuck
    end
  else Fail InvalidArgument.

Lemma loop_final n f o a jw : resolve_loop (S n) f (at_state AdaptedJob o a jw) = (at_state AdaptedJob o a jw, Ret tt).
Proof. reflexivity. Qed.
Lemma loop_step n f s o a jw helper next :
  next_of s = Some (helper, next) → s ≠ AdaptedJob →
  outcome_of (resolve_loop (S n) f (at_state s o a jw)) =
    match run_helper f helper a jw with
    | Ret b => outcome_of (resolve_loop n f (at_state next o b jw))
    | Fail e => Fail e
    | Stuck => Stuck
    end.
Proof.
  intros Hn Hs. cbn [resolve_loop]. rewrite (bind_Ret get_st _ _ _ _ eq_refl).
  rewrite (not_final s o a jw Hs).
  pose proof (resolve_step f s helper next o a jw Hn Hs) as H. destruct (run_helper f helper a jw) as [b|e|].
  - by rewrite (bind_Ret _ _ _ _ _ H).
  - by rewrite (bind_Fail _ _ _ _ _ H).
  - destruct H as [r' H]. by rewrite (bind_Stuck _ _ _ _ H).
Qed.

Lemma Plan_outcome fuel f ad jw s :
  new_request (Exn := Exn) left_matches_right ad jw = inr (at_state s ad ad jw) →
  Plan left_matches_right fuel f ad jw = match outcome_of (resolve_loop fuel f (at_state s ad ad jw)) with
                                         | Ret r => Ret (resolved_ad r) | Fail e => Fail e | Stuck => Stuck end.
Proof. intros E. unfold Plan. rewrite E. by destruct (resolve_loop fuel f _) as [r [[]|e|]]. Qed.

(** ** Reachable requests *)
Inductive reachable f ad (jw : option bytes) : Request Ad → Prop :=
| reach_new r : new_request (Exn := Exn) left_matches_right ad jw = inr r → reachable f ad jw r
| reach_resolve r r' : reachable f ad jw r → resolve f r = (r', Ret tt) → reachable f ad jw r'.

Lemma new_request_cases ad jw :
  (left_matches_right ad (of_string "[requirements=" ++ type_is (of_string "dag") ++ of_string "]") = true ∧
     new_request (Exn := Exn) left_matches_right ad jw = inr (at_state DAGJob ad ad jw)) ∨
  (left_matches_right ad (of_string "[requirements=" ++ type_is (of_string "dag") ++ of_string "]") = false ∧
     left_matches_right ad (of_string "[requirements=" ++ type_is (of_string "job") ++ of_string "]") = true ∧
     new_request (Exn := Exn) left_matches_right ad jw = inr (at_state SimpleLogicalJob ad ad jw)) ∨
  (left_matches_right ad (of_string "[requirements=" ++ type_is (of_string "dag") ++ of_string "]") = false ∧
     left_matches_right ad (of_string "[requirements=" ++ type_is (of_string "job") ++ of_string "]") = false ∧
     new_request (Exn := Exn) left_matches_right ad jw = inl InvalidArgument).
Proof.
  unfold new_request, start, new_machine. cbn [m_initial_states]. rewrite initial_states_eq. cbn [find]. unfold MatchAd. cbn [snd fst].
  destruct (left_matches_right ad (of_string "[requirements=" ++ type_is (of_string "dag") ++ of_string "]")); [by left|right].
  destruct (left_matches_right ad (of_string "[requirements=" ++ type_is (of_string "job") ++ of_string "]")); [by left|by right].
Qed.

(** The states that can be reached, each but the last with its helper. *)
Definition live (s : bytes) : Prop := s = DAGJob ∨ s = SimpleLogicalJob ∨ s = SimplePhysicalJob.
Lemma live_next s : live s → s ≠ AdaptedJob ∧ ∃ helper next, next_of s = Some (helper, next) ∧ (live next ∨ next = AdaptedJob).
Proof.
  intros [-> |[-> | ->]]; (split; [discriminate|]); do 2 eexists; (split; [reflexivity|]); unfold live; auto.
Qed.
Lemma reachable_states f ad jw r : reachable f ad jw r → ∃ s a, r = at_state s ad a jw ∧ (live s ∨ s = AdaptedJob).
Proof.
  induction 1 as [r E|r r' _ (s & a & -> & Hs) E].
  - destruct (new_request_cases ad jw) as [(_ & H)|[(_ & _ & H)|(_ & _ & H)]]; rewrite H in E; simplify_eq; do 2 eexists; (split; [reflexivity|]); unfold live; auto.
  - destruct Hs as [Hs| ->].
    + destruct (live_next s Hs) as (Hne & helper & next & Hn & Hnext). pose proof (resolve_step f s helper next ad a jw Hn Hne) as H.
      destruct (run_helper f helper a jw) as [b|e|]; [|by rewrite H in E|by destruct H as [? H]; rewrite H in E].
      rewrite H in E. simplify_eq. by exists next, b.
    + unfold RequestMachine.resolve in E. by rewrite (bind_Ret get_st _ _ _ _ eq_refl) in E.
Qed.
End requests.

(** ** Properties *)
Section properties.
Context {Ad Exn : Type} (left_matches_right : Ad → bytes → bool).

(** C37.  [Plan] is a fixed pipeline: three rounds of its loop are always
    enough, and the result, the exception or the abort is that of the
    DAGMan helper for a DAG, of the broker and then the job adapter for a
    job, and an invalid argument for anything else; an ad that is both is
    a DAG. *)
Theorem plan_is_pipeline (f : factory_type Ad Exn) ad jw fuel :
  (3 ≤ fuel)%nat → Plan left_matches_right fuel f ad jw = pipeline left_matches_right f ad jw.
Proof.
  intros Hf. destruct fuel as [|[|[|n]]]; [lia..|]. unfold pipeline.
  destruct (new_request_cases (Exn := Exn) left_matches_right ad jw) as [(-> & E)|[(-> & -> & E)|(-> & -> & E)]].
  - rewrite (Plan_outcome left_matches_right _ f ad jw DAGJob E), (loop_step _ f DAGJob ad ad jw _ _ next_DAGJob) by discriminate.
    by destruct (run_helper f _ ad jw).
  - rewrite (Plan_outcome left_matches_right _ f ad jw SimpleLogicalJob E), (loop_step _ f SimpleLogicalJob ad ad jw _ _ next_SimpleLogicalJob) by discriminate.
    destruct (run_helper f _ ad jw) as [a|e|]; [|done|done]. rewrite (loop_step _ f SimplePhysicalJob ad a jw _ _ next_SimplePhysicalJob) by discriminate.
    by destruct (run_helper f _ a jw).
  - unfold Plan. by rewrite E.
Qed.

(** A request that has been accepted keeps its original ad, is always
    in one of the four states, and resolving it never answers that the
    request is invalid: every state but the final one has a transition. *)
Theorem reachable_never_invalid (f : factory_type Ad Exn) ad jw r :
  reachable left_matches_right f ad jw r →
  r_original r = ad ∧ m_current_state (r_machine r) ∈ [DAGJob; SimpleLogicalJob; SimplePhysicalJob; AdaptedJob] ∧
  (∀ r', resolve f r ≠ (r', Fail InvalidArgument)) ∧ (is_resolved r = true ↔ m_current_state (r_machine r) = AdaptedJob).
Proof.
  intros (s & a & -> & Hs)%reachable_states. cbn [at_state r_original r_machine]. change (m_current_state (set_current_state s new_machine)) with s.
  split; [done|]. split; [unfold live in Hs; rewrite !elem_of_cons; naive_solver|]. destruct Hs as [Hs| ->].
  - destruct (live_next s Hs) as (Hne & helper & next & Hn & _). split; [|rewrite (not_final s ad a jw Hne); naive_solver].
    intros r' E. pose proof (resolve_step f s helper next ad a jw Hn Hne) as H. unfold run_helper in H. destruct (Helper helper f) as [e|h] eqn:Eh.
    + apply Helper_error in Eh as ->. rewrite H in E. simplify_eq.
    + destruct (h a jw) as [[b|]|e|]; [rewrite H in E|destruct H as [? H]; rewrite H in E|rewrite H in E|destruct H as [? H]; rewrite H in E]; simplify_eq.
  - split; [|done]. intros r' E. unfold resolve in E. rewrite (bind_Ret get_st _ _ _ _ eq_refl) in E. discriminate E.
Qed.

(** The factory is a registry: the first registration of a name wins
    and is found under that name only, the listing is sorted and without
    repetition, and unregistering gives the name free again. *)
Theorem factory_is_registry (f : factory_type Ad Exn) id c :
  sorted fst f →
  let '(f', fresh) := register_helper id c f in
  sorted fst f' ∧ fresh = bool_decide (create_helper id f = None) ∧
  create_helper id f' = Some (default c (create_helper id f)) ∧ (∀ other, other ≠ id → create_helper other f' = create_helper other f) ∧
  NoDup (list_helpers f') ∧ create_helper id (unregister_helper id f').1 = None ∧ (unregister_helper id f').2 = true.
Proof.
  intros Hs. unfold register_helper, create_helper, list_helpers, unregister_helper. destruct (map_find f id) as [v|] eqn:E.
  - assert (id ∈ f.*1) as Hin by (apply (map_find_elem f id v Hs) in E; by apply (list_elem_of_fmap_2 fst) in E).
    rewrite (map_insert_old f id c Hs Hin). destruct (map_erase_old f id Hs Hin) as (f' & v' & -> & Hs' & Hp).
    split_and!; [done|done|done|done|by apply sorted_keys| |done]. apply (map_find_None f' id Hs'). pose proof (sorted_keys f Hs) as Hn. rewrite Hp in Hn.
    by apply NoDup_cons in Hn as [Hn _].
  - apply (map_find_None f id Hs) in E. destruct (map_insert_new f id c Hs E) as (f' & -> & Hs' & Hp).
    assert (id ∈ f'.*1) as Hin by (rewrite Hp; apply elem_of_cons; by left).
    destruct (map_erase_old f' id Hs' Hin) as (f2 & v' & -> & Hs2 & Hp2). split_and!; [done|done| | |by apply sorted_keys| |done].
    + apply (map_find_elem f' id c Hs'). rewrite Hp. apply elem_of_cons. by left.
    + intros other Ho. apply map_find_ext; [done|done|]. intros v. rewrite Hp, elem_of_cons. naive_solver.
    + apply (map_find_None f2 id Hs2). pose proof (sorted_keys f' Hs') as Hn. rewrite Hp2 in Hn. by apply NoDup_cons in Hn as [Hn _].
Qed.
End properties.

(** ** On a concrete factory

    Ads are their type; the broker marks a job, the adapter accepts a marked
    one; there is no helper for DAGs, as in the sources. *)
Section example.
Inductive ad_type := Job_ | Dag_ | Planned_ | Adapted_.
Definition matches_text (a : ad_type) (rhs : bytes) : bool :=
  match a with
  | Job_ => bool_decide (rhs = of_string "[requirements=" ++ type_is (of_string "job") ++ of_string "]")
  | Dag_ => bool_decide (rhs = of_string "[requirements=" ++ type_is (of_string "dag") ++ of_string "]")
  | _ => false
  end.
Definition broker : HelperImpl ad_type unit := λ a _, match a with Job_ => Ret (Some Planned_) | _ => Fail tt end.
Definition adapter : HelperImpl ad_type unit := λ a _, match a with Planned_ => Ret (Some Adapted_) | _ => Fail tt end.
Definition factory : factory_type ad_type unit :=
  (register_helper (of_string "JobAdapterHelper") (Some adapter) (register_helper (of_string "BrokerHelper") (Some broker) []).1).1.
Lemma factory_sorted : sorted fst factory.
Proof. repeat constructor. Qed.

Lemma plan_is_pipeline_witness :
  Plan matches_text 3 factory Job_ None = Ret (Some Adapted_) ∧
  Plan matches_text 3 factory Dag_ None = Fail (NoSuchHelper (of_string "DAGManHelper")) ∧ Plan matches_text 3 factory Adapted_ None = Fail InvalidArgument.
Proof.
  split; [|split]; (rewrite (plan_is_pipeline matches_text factory _ None 3); [reflexivity|lia]).
Defined.

Lemma reachable_never_invalid_witness :
  ∃ r, reachable matches_text factory Job_ None r ∧ m_current_state (r_machine r) = SimplePhysicalJob ∧ r_original r = Job_ ∧
    ∀ r', resolve factory r ≠ (r', Fail InvalidArgument).
Proof.
  assert (reachable matches_text factory Job_ None (at_state SimplePhysicalJob Job_ Planned_ None)) as H.
  { apply (reach_resolve _ _ _ _ (at_state SimpleLogicalJob Job_ Job_ None)); [|reflexivity]. apply reach_new. reflexivity. }
  exists (at_state SimplePhysicalJob Job_ Planned_ None). split; [exact H|].
  destruct (reachable_never_invalid matches_text factory Job_ None _ H) as (H1 & _ & H2 & _). split; [reflexivity|]. split; [exact H1|exact H2].
Defined.

Lemma factory_is_registry_witness :
  create_helper (of_string "DAGManHelper") (register_helper (of_string "DAGManHelper") (Some broker) factory).1 = Some (Some broker).
Proof.
  pose proof (factory_is_registry factory (of_string "DAGManHelper") (Some broker) factory_sorted) as H.
  destruct (register_helper _ _ factory) as [f' b]. destruct H as (_ & _ & H & _). exact H.
Defined.
End example.
