(* ===== verification/Url.v ===== *)
(** * URLs of the job adapter

    Model of [core/src/helper/jobadapter/url.{h,cpp}].  The regular
    expression of the constructor is matched from left to right: none of its
    parts can end at two places, because the characters that may follow a
    part are not among its own.  Characters are classified as in the C
    locale. *)

From S2P Require Import Prelude.

(** ** Character classes *)
Definition between (lo hi : ascii) (c : ascii) : bool := (N_of_ascii lo <=? N_of_ascii c)%N && (N_of_ascii c <=? N_of_ascii hi)%N.
Definition is_alpha (c : ascii) : bool := between "a" "z" c || between "A" "Z" c.
Definition is_digit10 (c : ascii) : bool := between "0" "9" c.
Definition is_alnum (c : ascii) : bool := is_alpha c || is_digit10 c.
Definition is_xdigit (c : ascii) : bool := is_digit10 c || between "a" "f" c || between "A" "F" c.
Definition one_of (s : bytes) (c : ascii) : bool := bool_decide (c ∈ s).
(** [[[:alnum:]+.-]] *)
Definition scheme_char (c : ascii) : bool := is_alnum c || one_of (of_string "+.-") c.
(** [[[:alnum:]_.~!$&'()-]] *)
Definition url_char (c : ascii) : bool := is_alnum c || one_of (of_string "_.~!$&'()-") c.

(** ** Parts of the expression *)

(** [(url_char|%[[:xdigit:]]{2})*], the longest match. *)
Fixpoint tokens (s : bytes) : bytes * bytes :=
  match s with
  | [] => ([], [])
  | c :: s1 =>
      if url_char c then let '(a, b) := tokens s1 in (c :: a, b)
      else if bool_decide (c = "%"%char) then
        match s1 with
        | x :: y :: s2 => if is_xdigit x && is_xdigit y then let '(a, b) := tokens s2 in (c :: x :: y :: a, b) else ([], s)
        | _ => ([], s)
        end
      else ([], s)
  end.
(** [(/(url_char|%[[:xdigit:]]{2})+)*], one unit of fuel per segment. *)
Fixpoint segments (fuel : nat) (s : bytes) : bytes * bytes :=
  match fuel, s with
  | S f, c :: s1 =>
      if bool_decide (c = "/"%char) then
        let '(t, r) := tokens s1 in
        if bool_decide (t = []) then ([], s) else let '(p, r) := segments f r in (c :: t ++ p, r)
      else ([], s)
  | _, _ => ([], s)
  end.
(** [(:([[:digit:]]* ))?] *)
Definition port_part (s : bytes) : bytes * bytes :=
  match s with
  | c :: s1 => if bool_decide (c = ":"%char) then span is_digit10 s1 else ([], s)
  | [] => ([], [])
  end.
Definition scheme_part (s : bytes) : option (bytes * bytes) :=
  match s with
  | c :: s1 => if is_alpha c then let '(a, b) := span scheme_char s1 in Some (c :: a, b) else None
  | [] => None
  end.
Definition separator : bytes := of_string "://".
Definition slash : bytes := of_string "/".

Record URL := Url { m_protocol : bytes; m_host : bytes; m_path : bytes; m_port : bytes }.

(** [URL( url )]; [None] is [InvalidURL]. *)
Definition new_URL (url : bytes) : option URL :=
  '(protocol, r) ← scheme_part url;
  if bool_decide (take 3 r = separator) then
    let '(host, r) := tokens (drop 3 r) in
    if bool_decide (host = []) then None
    else
      let '(port, r) := port_part r in
      let '(path, r) := segments (length r) r in
      if bool_decide (r = [] ∨ r = slash) then Some (Url protocol host path port) else None
  else None.

Definition as_string (u : URL) : bytes :=
  m_protocol u ++ separator ++ m_host u ++ (if bool_decide (m_port u ≠ []) then of_string ":" ++ m_port u else []) ++ m_path u.

(** ** What the parts match *)
Inductive toks : bytes → Prop :=
| toks_nil : toks []
| toks_char c t : url_char c = true → toks t → toks (c :: t)
| toks_hex x y t : is_xdigit x = true → is_xdigit y = true → toks t → toks ("%"%char :: x :: y :: t).
Inductive segs : bytes → Prop :=
| segs_nil : segs []
| segs_cons t p : t ≠ [] → toks t → segs p → segs ("/"%char :: t ++ p).

(** What may follow a host or a segment. *)
Definition stops (r : bytes) : Prop := match r with [] => True | c :: _ => c = ":"%char ∨ c = "/"%char end.

Lemma tokens_sound : ∀ n s a b, (length s ≤ n)%nat → tokens s = (a, b) → toks a ∧ s = a ++ b.
Proof.
  induction n as [|n IH]; intros [|c s] a b Hn E; cbn in Hn, E; try lia; [simplify_eq; by split; [constructor|]..|].
  destruct (url_char c) eqn:Hc.
  - destruct (tokens s) as [a' b'] eqn:E'. simplify_eq. destruct (IH s a' b ltac:(lia) E') as [H ->]. split; [by constructor|done].
  - case_bool_decide as Hp; [|simplify_eq; by split; [constructor|]].
    destruct s as [|x [|y s]]; [simplify_eq; by split; [constructor|]..|]. destruct (is_xdigit x && is_xdigit y) eqn:Hx; [|simplify_eq; by split; [constructor|]].
    apply andb_true_iff in Hx as [Hx Hy]. destruct (tokens s) as [a' b'] eqn:E'. simplify_eq. cbn in Hn. destruct (IH s a' b ltac:(lia) E') as [H ->].
    split; [by constructor|done].
Qed.
Lemma tokens_stop r : stops r → tokens r = ([], r).
Proof. destruct r as [|c r]; [done|]. by intros [-> | ->]. Qed.
Lemma tokens_complete t r : toks t → stops r → tokens (t ++ r) = (t, r).
Proof.
  intros Ht Hr. induction Ht as [|c t Hc _ IH|x y t Hx Hy _ IH]; cbn [app tokens].
  - by apply tokens_stop.
  - by rewrite Hc, IH.
  - change (url_char "%") with false. cbv iota. rewrite bool_decide_true by done. by rewrite Hx, Hy, IH.
Qed.

Lemma segments_sound n : ∀ s a b, segments n s = (a, b) → segs a ∧ s = a ++ b.
Proof.
  induction n as [|n IH]; intros s a b E; cbn in E; [simplify_eq; by split; [constructor|]|].
  destruct s as [|c s]; [simplify_eq; by split; [constructor|]|]. case_bool_decide as Hc; [subst c|simplify_eq; by split; [constructor|]].
  destruct (tokens s) as [t r] eqn:Et. destruct (tokens_sound (length s) s t r (le_n _) Et) as [Ht ->].
  case_bool_decide as Hne; [simplify_eq; by split; [constructor|]|]. destruct (segments n r) as [p r'] eqn:Es. simplify_eq.
  destruct (IH r p b Es) as [Hp ->]. split; [by constructor|]. cbn [app]. by rewrite <- app_assoc.
Qed.
Lemma segs_stops p r : segs p → stops r → stops (p ++ r).
Proof. intros [|t p' _ _ _] Hr; [done|]. by right. Qed.
Lemma segments_complete p r : segs p → r = [] ∨ r = slash → ∀ n, (length (p ++ r) ≤ n)%nat → segments n (p ++ r) = (p, r).
Proof.
  intros Hp Hr. assert (stops r) as Hs by (destruct Hr as [-> | ->]; cbn; auto).
  induction Hp as [|t p Hne Ht Hp IH]; intros n Hn.
  - destruct Hr as [-> | ->]; by destruct n.
  - destruct n as [|n]; [cbn in Hn; lia|]. cbn [app segments]. rewrite bool_decide_true by done. rewrite <- app_assoc.
    rewrite (tokens_complete t (p ++ r) Ht (segs_stops p r Hp Hs)). rewrite bool_decide_false by done. rewrite IH; [done|].
    cbn in Hn. rewrite !length_app in *. lia.
Qed.

(** ** Well-formed URLs *)
Record wf_url (u : URL) : Prop := {
  wf_protocol : ∃ c s, m_protocol u = c :: s ∧ is_alpha c = true ∧ Forall (λ c, scheme_char c = true) s;
  wf_host : toks (m_host u);
  wf_host_ne : m_host u ≠ [];
  wf_port : Forall (λ c, is_digit10 c = true) (m_port u);
  wf_path : segs (m_path u)
}.

Lemma span_Forall {A} (p : A → bool) l a b : span p l = (a, b) → Forall (λ c, p c = true) a ∧ l = a ++ b.
Proof.
  revert a b. induction l as [|x l IH]; intros a b E; cbn in E; [by simplify_eq|]. destruct (p x) eqn:Hx; [|by simplify_eq].
  destruct (span p l) as [a' b'] eqn:E'. simplify_eq. destruct (IH a' b eq_refl) as [H ->]. split; [by constructor|done].
Qed.
Lemma port_sound s a b : port_part s = (a, b) → Forall (λ c, is_digit10 c = true) a ∧ (s = of_string ":" ++ a ++ b ∨ a = [] ∧ s = b).
Proof.
  destruct s as [|c s]; cbn; [intros; simplify_eq; by split; [constructor|right]|]. case_bool_decide as Hc; [subst c|intros; simplify_eq; by split; [constructor|right]].
  intros (H & ->)%span_Forall. split; [done|by left].
Qed.
Lemma scheme_sound s a b : scheme_part s = Some (a, b) →
  (∃ c l, a = c :: l ∧ is_alpha c = true ∧ Forall (λ c, scheme_char c = true) l) ∧ s = a ++ b.
Proof.
  destruct s as [|c s]; cbn; [done|]. destruct (is_alpha c) eqn:Hc; [|done]. destruct (span scheme_char s) as [l r] eqn:E. intros. simplify_eq.
  apply span_Forall in E as [H ->]. split; [by exists c, l|done].
Qed.

(** The mark of a port: its digits after a colon, or nothing. *)
Definition port_mark (u : URL) (mark : bytes) : Prop := mark = of_string ":" ++ m_port u ∨ mark = [] ∧ m_port u = [].

Lemma new_URL_sound s u : new_URL s = Some u →
  wf_url u ∧ ∃ mark tail, s = m_protocol u ++ separator ++ m_host u ++ mark ++ m_path u ++ tail ∧ port_mark u mark ∧ (tail = [] ∨ tail = slash).
Proof.
  unfold new_URL. destruct (scheme_part s) as [[pr r]|] eqn:E1; [|done]. cbn [mbind option_bind]. apply scheme_sound in E1 as [Hpr ->].
  case_bool_decide as H3; [|done]. destruct (tokens (drop 3 r)) as [h r1] eqn:E2. apply (tokens_sound _ _ _ _ (le_n _)) in E2 as [Hh E2].
  case_bool_decide as Hne; [done|]. destruct (port_part r1) as [po r2] eqn:E4. apply port_sound in E4 as [Hpo E4].
  destruct (segments (length r2) r2) as [pa r3] eqn:E5. apply segments_sound in E5 as [Hpa ->]. case_bool_decide as Ht; [|done]. intros [= <-].
  split; [by split|]. cbn. rewrite <- (take_drop 3 r), H3, E2. destruct E4 as [-> |[-> ->]].
  - exists (of_string ":" ++ po), r3. split; [by rewrite <- ?app_assoc|]. split; [by left|done].
  - exists [], r3. split; [done|]. split; [by right|done].
Qed.

Lemma new_URL_complete u mark tail :
  wf_url u → port_mark u mark → tail = [] ∨ tail = slash → new_URL (m_protocol u ++ separator ++ m_host u ++ mark ++ m_path u ++ tail) = Some u.
Proof.
  destruct u as [pr h pa po]. intros [(c & l & Ep & Hc & Hl) Hh Hhne Hpo Hpa] Hm Ht. unfold port_mark in Hm. cbn [m_protocol m_host m_path m_port] in *. subst pr.
  assert (stops (pa ++ tail)) as Hs by (apply segs_stops; [done|]; destruct Ht as [-> | ->]; cbn; auto).
  unfold new_URL. assert (scheme_part ((c :: l) ++ separator ++ h ++ mark ++ pa ++ tail) = Some (c :: l, separator ++ h ++ mark ++ pa ++ tail)) as ->.
  { cbn [app scheme_part]. rewrite Hc. change (separator ++ h ++ mark ++ pa ++ tail) with (":"%char :: "/"%char :: "/"%char :: h ++ mark ++ pa ++ tail).
    by rewrite (span_app_stop scheme_char l _ ":"%char Hl eq_refl). }
  cbn [mbind option_bind]. change (take 3 (separator ++ h ++ mark ++ pa ++ tail)) with separator. rewrite bool_decide_true by done.
  change (drop 3 (separator ++ h ++ mark ++ pa ++ tail)) with (h ++ mark ++ pa ++ tail).
  rewrite (tokens_complete h (mark ++ pa ++ tail) Hh).
  2: { destruct Hm as [-> |[-> _]]; [by left|done]. }
  rewrite bool_decide_false by done.
  assert (port_part (mark ++ pa ++ tail) = (po, pa ++ tail)) as ->.
  { destruct Hm as [-> |[-> ->]]; cbn [app of_string].
    - change (port_part (":"%char :: po ++ pa ++ tail) = (po, pa ++ tail)). cbn [port_part]. rewrite bool_decide_true by done.
      destruct (pa ++ tail) as [|x r]; [rewrite app_nil_r; by apply span_all|]. destruct Hs as [-> | ->]; by apply span_app_stop.
    - destruct (pa ++ tail) as [|x r] eqn:E; [done|]. cbn [port_part]. rewrite bool_decide_false; [done|]. intros ->.
      destruct Hpa as [|t p]; [destruct Ht as [-> | ->]|]; discriminate E. }
  rewrite (segments_complete pa tail Hpa Ht) by done. rewrite bool_decide_true by exact Ht. done.
Qed.

(** ** Properties *)

(** C38.  A URL that is accepted is its parts in order: only the final
    slash and the colon of an empty port are dropped, and printing the parts
    gives a text that is accepted again, with the same parts. *)
Theorem url_roundtrip s u :
  new_URL s = Some u →
  new_URL (as_string u) = Some u ∧
  ∃ mark tail, s = m_protocol u ++ separator ++ m_host u ++ mark ++ m_path u ++ tail ∧ port_mark u mark ∧ (tail = [] ∨ tail = slash).
Proof.
  intros [Hw Hs]%new_URL_sound. split; [|done]. unfold as_string. rewrite <- (app_nil_r (m_path u)).
  apply (new_URL_complete u _ []); [done| |by left]. unfold port_mark. case_bool_decide as Hp; [by left|right]. split; [done|]. destruct (m_port u); naive_solver.
Qed.


(** The examples in the comment of [url.cpp]. *)
Definition accepts (s : bytes) : bool := bool_decide (is_Some (new_URL s)).
Example url_examples :
  (accepts <$> [of_string "http://www.cnaf.infn.it"; of_string "http://www.cnaf.infn.it:"; of_string "h ttp://www.cnaf.infn.it";
     of_string "http://www.c naf.infn.it"; of_string "http://www.ics.uci.edu:8080/pub/ietf/uri/"; of_string "http://www.ics.uci.edu:8080/pub/ietf/uri";
     of_string "http://www.ics.uci.edu:8080"; of_string "http://www.ics.uci.edu:8080:16"; of_string "http://www.ics.uci.edu:8080/pub/i:etf/uri";
     of_string "http://www.ics.uci.edu:8080/pub/i%20f/uri"; of_string "http://www.ics.uci.edu:8080/pub/i%2tf/uri"; []]) =
  [true; true; false; false; true; true; true; false; false; true; false; false].
Proof. vm_compute. reflexivity. Qed.

Lemma url_roundtrip_witness :
  ∃ u, new_URL (of_string "gsiftp://se.cern.ch:2811/data/f%20x/") = Some u ∧ as_string u = of_string "gsiftp://se.cern.ch:2811/data/f%20x" ∧
    new_URL (as_string u) = Some u.
Proof.
  eexists. split; [vm_compute; reflexivity|]. split; [vm_compute; reflexivity|].
  refine (proj1 (url_roundtrip (of_string "gsiftp://se.cern.ch:2811/data/f%20x/") _ _)). vm_compute. reflexivity.
Defined.
