(* ===== verification/Transition.v ===== *)
(** * Transition systems

    Runs of the components that are modelled as steps with labels and
    events: the thread pool, the event queue and the pipes. *)

From S2P Require Import Prelude.

Section runs.
Context {S L E : Type} (step : L → S → option (S * list E)).
Implicit Types (s : S) (ls : list L) (es : list E).

(** [reach s0 ls es s]: the labels [ls] lead from [s0] to [s], with the
    events [es]. *)
Inductive reach s0 : list L → list E → S → Prop :=
| reach_nil : reach s0 [] [] s0
| reach_snoc ls es s l s' e : reach s0 ls es s → step l s = Some (s', e) → reach s0 (ls ++ [l]) (es ++ e) s'.
Fixpoint exec ls s : option (S * list E) :=
  match ls with
  | [] => Some (s, [])
  | l :: ls => '(s1, e1) ← step l s; '(s2, e2) ← exec ls s1; Some (s2, e1 ++ e2)
  end.

Lemma reach_app s0 s1 s2 ls1 ls2 es1 es2 : reach s0 ls1 es1 s1 → reach s1 ls2 es2 s2 → reach s0 (ls1 ++ ls2) (es1 ++ es2) s2.
Proof. intros H. induction 1 as [|ls es s l s' e _ IH Hs]; [by rewrite !app_nil_r|]. rewrite !(assoc_L (++)). by econstructor. Qed.
Lemma exec_reach ls : ∀ s s' es, exec ls s = Some (s', es) → reach s ls es s'.
Proof.
  induction ls as [|l ls IH]; intros s s' es; cbn [exec]; [intros [= <- <-]; constructor|].
  intros ([s1 e1] & H1 & H)%bind_Some. apply bind_Some in H as ([s2 e2] & H2 & [= <- <-]).
  apply (reach_app s s1 s2 [l] ls); [|by apply IH]. by apply (reach_snoc s [] [] s l s1 e1); [constructor|].
Qed.
Lemma exec_app ls1 ls2 s s1 s2 es1 es2 : exec ls1 s = Some (s1, es1) → exec ls2 s1 = Some (s2, es2) → exec (ls1 ++ ls2) s = Some (s2, es1 ++ es2).
Proof.
  revert s es1. induction ls1 as [|l ls1 IH]; intros s es1; cbn [exec app].
  - by intros [= <- <-] ->.
  - intros ([s3 e3] & H1 & H)%bind_Some H2. apply bind_Some in H as ([s4 e4] & H4 & [= <- <-]).
    rewrite H1. cbn. rewrite (IH _ _ H4 H2). cbn. by rewrite (assoc_L (++)).
Qed.

(** What every step with a label in [A] keeps, or makes smaller. *)
Lemma reach_invariant (P : S → Prop) (A : L → Prop) s0 ls es s :
  (∀ l s s' e, A l → P s → step l s = Some (s', e) → P s') → P s0 → reach s0 ls es s → Forall A ls → P s.
Proof. intros Hp H0. induction 1 as [|ls es s l s' e _ IH Hs]; intros Hf; [done|]. apply Forall_app in Hf as [Hf [Hl _]%Forall_cons]. eauto. Qed.
Lemma reach_always (P : S → Prop) s0 ls es s : (∀ l s s' e, P s → step l s = Some (s', e) → P s') → P s0 → reach s0 ls es s → P s.
Proof. intros Hp H0. induction 1 as [|ls es s l s' e _ IH Hs]; [done|]. eauto. Qed.
Lemma reach_bounded (measure : S → nat) (A : L → Prop) s0 ls es s :
  (∀ l s s' e, A l → step l s = Some (s', e) → (measure s' < measure s)%nat) → reach s0 ls es s → Forall A ls → (length ls + measure s ≤ measure s0)%nat.
Proof.
  intros Hm. induction 1 as [|ls es s l s' e _ IH Hs]; intros Hf; [done|]. apply Forall_app in Hf as [Hf [Hl _]%Forall_cons].
  specialize (IH Hf). pose proof (Hm _ _ _ _ Hl Hs). rewrite length_app. cbn [length]. lia.
Qed.
End runs.
