(* ===== verification/ThreadPool.v ===== *)
(** * ice/src/threads: the thread pool of ICE

    A fixed number of worker threads take commands from one queue.  Two
    commands of the same grid job never run at the same time: a worker takes
    the first command whose job is not being worked on, and sleeps on a
    condition variable when there is none.

    The model is a transition system over the state that the threads share.
    A step is what one thread does between two points where another thread
    can come in: a critical section of [m_mutex], from its lock to its end or
    to [wait], is one step; the reads and writes of [m_stopped], which no lock
    protects, are steps of their own.  A woken thread gets its lock back in a
    later step.  The command itself is a parameter: it returns or throws, and
    a [soap_runtime_ex] ends the process. *)

From stdpp Require Import gmap strings relations.
From S2P Require Import Prelude.

(** ** The state *)
Section state.
Context {Cmd : Type}.

(** Where a worker is in [IceThreadPoolWorker::body]: [Created] before
    [operator()] runs, [Top] at the test of the outer loop, [Locking] past
    the test and before the lock, [Asleep] in [wait], [Woken] after a
    notification and before the lock is got back, [Executing] a command with
    no lock held, [Finishing] after it and before the last lock; [Returned]
    left from within the wait loop, [Left] by the test of the outer loop. *)
Inductive pc :=
| Created | Top | Locking | Asleep | Woken
| Executing (cmd : Cmd) | Finishing (cmd : Cmd) | Returned | Left.

Record IceThreadPoolWorker := Worker {
  w_pc : pc;
  m_running : bool;
  m_stopped : bool
}.

(** The caller of [stopAllThreads]: not called, in the loop at the thread
    with this index, in [join_all], returned. *)
Inductive stopper := NotCalled | Stopping (next : nat) | Joining | Joined.

Record IceThreadPool := Pool {
  m_num_running : Z;
  m_requests_queue : list Cmd;
  m_pending_jobs : gset (list ascii);
  m_all_threads : list IceThreadPoolWorker;
  stop_caller : stopper;
  exited : bool
}.

Definition set_num_running z (s : IceThreadPool) :=
  Pool z (m_requests_queue s) (m_pending_jobs s) (m_all_threads s) (stop_caller s) (exited s).
Definition set_queue q (s : IceThreadPool) :=
  Pool (m_num_running s) q (m_pending_jobs s) (m_all_threads s) (stop_caller s) (exited s).
Definition set_pending p (s : IceThreadPool) :=
  Pool (m_num_running s) (m_requests_queue s) p (m_all_threads s) (stop_caller s) (exited s).
Definition set_threads ws (s : IceThreadPool) :=
  Pool (m_num_running s) (m_requests_queue s) (m_pending_jobs s) ws (stop_caller s) (exited s).
Definition set_stopper c (s : IceThreadPool) :=
  Pool (m_num_running s) (m_requests_queue s) (m_pending_jobs s) (m_all_threads s) c (exited s).
Definition set_exited (s : IceThreadPool) :=
  Pool (m_num_running s) (m_requests_queue s) (m_pending_jobs s) (m_all_threads s) (stop_caller s) true.

Definition with_pc p (w : IceThreadPoolWorker) := Worker p (m_running w) (m_stopped w).
Definition set_worker i w (s : IceThreadPool) := set_threads (<[i := w]> (m_all_threads s)) s.
End state.
Arguments pc : clear implicits.
Arguments IceThreadPoolWorker : clear implicits.
Arguments IceThreadPool : clear implicits.

(** How [cmd->execute] ends; every exception but one is caught and logged. *)
Inductive executed :=
| Completed | IceCommandFatalException | IceCommandTransientException
| soap_runtime_ex | std_exception | unknown_exception.

(** ** The operations *)
Section operations.
Context {Cmd : Type} (get_grid_job_id : Cmd → bytes).
Implicit Types (s : IceThreadPool Cmd) (w : IceThreadPoolWorker Cmd) (q : list Cmd).

Definition new_IceThread : IceThreadPoolWorker Cmd := Worker Created false false.
(** [IceThreadPoolState] and the loop that creates the threads. *)
Definition new_IceThreadPool (n : Z) : IceThreadPool Cmd :=
  let n_threads := if n <? 1 then 1 else n in
  Pool n_threads [] ∅ (replicate (Z.to_nat n_threads) new_IceThread) NotCalled false.

(** The iterator is an index, [None] is [end()]. *)
Fixpoint get_first_request q (pending : gset bytes) : option nat :=
  match q with
  | [] => None
  | c :: q => if decide (get_grid_job_id c ∈ pending) then S <$> get_first_request q pending else Some 0%nat
  end.

Definition wake w := match w_pc w with Asleep => with_pc Woken w | _ => w end.
Definition notify_all s := set_threads (wake <$> m_all_threads s) s.

(** What a step lets the outside see. *)
Inductive event := Started (i : nat) (cmd : Cmd) | Finished (i : nat) (cmd : Cmd).

(** The wait loop with the lock held: go to sleep, or take a command out of
    the queue. *)
Definition look (i : nat) w s : IceThreadPool Cmd * list event :=
  match get_first_request (m_requests_queue s) (m_pending_jobs s) with
  | None => (set_worker i (with_pc Asleep w) (set_num_running (m_num_running s - 1) s), [])
  | Some k =>
      match m_requests_queue s !! k with
      | None => (s, [])
      | Some cmd =>
          (set_worker i (with_pc (Executing cmd) w)
             (set_pending ({[get_grid_job_id cmd]} ∪ m_pending_jobs s) (set_queue (delete k (m_requests_queue s)) s)),
           [Started i cmd])
      end
  end.

(** [operator()] calls [body]. *)
Definition start_thread i w s := (set_worker i (Worker Top true (m_stopped w)) s, @nil event).
(** [while( !isStopped() )]; leaving ends the thread. *)
Definition test_stopped i w s :=
  (set_worker i (if m_stopped w then Worker Left false true else with_pc Locking w) s, @nil event).
(** Back from [wait] with the lock. *)
Definition wait_returns i w s :=
  if m_stopped w then (set_worker i (Worker Returned false true) s, [])
  else look i w (set_num_running (m_num_running s + 1) s).
Definition execute_ends i w cmd (r : executed) s :=
  match r with
  | soap_runtime_ex => (set_exited s, @nil event)
  | _ => (set_worker i (with_pc (Finishing cmd) w) s, [])
  end.
(** The last critical section of a round. *)
Definition finish i w cmd s :=
  (notify_all (set_worker i (with_pc Top w) (set_pending (m_pending_jobs s ∖ {[get_grid_job_id cmd]}) s)),
   [Finished i cmd]).

Definition add_request (req : Cmd) s := notify_all (set_queue (m_requests_queue s ++ [req]) s).
Definition get_command_count s : Z := Z.of_nat (length (m_requests_queue s)).

(** [stopAllThreads]: one [stop()] after the other, the notification, and
    [join_all], which returns when every thread has ended. *)
Definition stop w := Worker (w_pc w) (m_running w) true.
Definition ended w : bool := match w_pc w with Returned | Left => true | _ => false end.
Definition stop_step s : option (IceThreadPool Cmd) :=
  match stop_caller s with
  | NotCalled => Some (set_stopper (Stopping 0) s)
  | Stopping k =>
      match m_all_threads s !! k with
      | Some w => Some (set_stopper (Stopping (S k)) (set_worker k (stop w) s))
      | None => Some (set_stopper Joining (notify_all s))
      end
  | Joining => if forallb ended (m_all_threads s) then Some (set_stopper Joined s) else None
  | Joined => None
  end.

(** ** Steps

    [Run i] is the next step of worker [i]; [Execute i r] ends its command
    with [r]; [Spurious i] wakes it up without a notification. *)
Inductive label := Run (i : nat) | Execute (i : nat) (r : executed) | Spurious (i : nat) | Add (req : Cmd) | StopAll.

Definition run_worker i w s : option (IceThreadPool Cmd * list event) :=
  match w_pc w with
  | Created => Some (start_thread i w s)
  | Top => Some (test_stopped i w s)
  | Locking => Some (look i w s)
  | Woken => Some (wait_returns i w s)
  | Finishing cmd => Some (finish i w cmd s)
  | Asleep | Executing _ | Returned | Left => None
  end.
Definition step (l : label) s : option (IceThreadPool Cmd * list event) :=
  if exited s then None else
  match l with
  | Run i => w ← m_all_threads s !! i; run_worker i w s
  | Execute i r =>
      w ← m_all_threads s !! i;
      match w_pc w with Executing cmd => Some (execute_ends i w cmd r s) | _ => None end
  | Spurious i =>
      w ← m_all_threads s !! i;
      match w_pc w with Asleep => Some (set_worker i (with_pc Woken w) s, []) | _ => None end
  | Add req => Some (add_request req s, [])
  | StopAll => s' ← stop_step s; Some (s', [])
  end.

(** A step of the workers alone: no new command, no spurious wake-up, and
    no command that ends the process. *)
Definition working (l : label) : Prop :=
  match l with Run _ => True | Execute _ r => r ≠ soap_runtime_ex | _ => False end.
Definition work s s' : Prop := ∃ l e, working l ∧ step l s = Some (s', e).
End operations.
Arguments event : clear implicits.
Arguments label : clear implicits.
