(* ===== verification/ThreadPoolProps.v ===== *)
(** * Properties of the thread pool

    The invariant of the shared state, the order in which the commands of a
    job are executed, and the ends of runs: with no more requests the pool
    drains, and [stopAllThreads] returns unless a worker was between its
    test and its wait. *)

From stdpp Require Import gmap strings relations.
From S2P Require Import Prelude Transition ThreadPool.

Section props.
Context {Cmd : Type} (get_grid_job_id : Cmd → bytes).
Implicit Types (s : IceThreadPool Cmd) (w : IceThreadPoolWorker Cmd) (q : list Cmd) (ws : list (IceThreadPoolWorker Cmd)).
Abbreviation step := (step get_grid_job_id).
Abbreviation look := (look get_grid_job_id).
Abbreviation reach := (Transition.reach (ThreadPool.step get_grid_job_id)).
Abbreviation work := (work get_grid_job_id).
Abbreviation job := get_grid_job_id.

(** ** Commands in hand *)
Definition hand w : option Cmd := match w_pc w with Executing c | Finishing c => Some c | _ => None end.
Definition in_hand ws : list Cmd := omap hand ws.
(** Workers that [m_num_running] counts. *)
Definition active w : Z := match w_pc w with Asleep | Woken | Returned => 0 | _ => 1 end.
Definition actives ws : Z := foldr (λ w z, active w + z) 0 ws.
#[local] Arguments in_hand : simpl never.
#[local] Arguments actives : simpl never.

Lemma worker_split ws i w :
  ws !! i = Some w → ∃ l1 l2, ws = l1 ++ w :: l2 ∧ length l1 = i ∧ ∀ w', <[i := w']> ws = l1 ++ w' :: l2.
Proof.
  intros H. exists (take i ws), (drop (S i) ws). pose proof (lookup_lt_Some _ _ _ H).
  split; [by rewrite take_drop_middle|]. split; [rewrite length_take; lia|]. intros w'. by apply insert_take_drop.
Qed.
Lemma in_hand_app l1 l2 : in_hand (l1 ++ l2) = in_hand l1 ++ in_hand l2.
Proof. apply omap_app. Qed.
Lemma in_hand_cons w l2 : in_hand (w :: l2) = option_list (hand w) ++ in_hand l2.
Proof. unfold in_hand. simpl. by destruct (hand w). Qed.
Lemma in_hand_mid l1 w l2 : in_hand (l1 ++ w :: l2) = in_hand l1 ++ option_list (hand w) ++ in_hand l2.
Proof. by rewrite in_hand_app, in_hand_cons. Qed.
Lemma in_hand_wake ws : in_hand (wake <$> ws) = in_hand ws.
Proof.
  induction ws as [|w ws IH]; [done|]. rewrite fmap_cons, !in_hand_cons, IH.
  unfold wake. by destruct w as [[] ? ?].
Qed.
Lemma actives_cons w l2 : actives (w :: l2) = active w + actives l2.
Proof. reflexivity. Qed.
Lemma actives_mid l1 w l2 : actives (l1 ++ w :: l2) = actives l1 + active w + actives l2.
Proof. induction l1 as [|x l1 IH]; [done|]. rewrite <- app_comm_cons, !actives_cons, IH. lia. Qed.
Lemma actives_wake ws : actives (wake <$> ws) = actives ws.
Proof. induction ws as [|w ws IH]; [done|]. rewrite fmap_cons, !actives_cons, IH. unfold wake. by destruct w as [[] ? ?]. Qed.

(** ** The first request *)
Lemma first_request_None q p : get_first_request job q p = None ↔ Forall (λ c, job c ∈ p) q.
Proof.
  induction q as [|c q IH]; simpl; [by split; [constructor|]|]. rewrite Forall_cons.
  case_decide; [|naive_solver]. rewrite fmap_None. naive_solver.
Qed.
Lemma first_request_Some q p k :
  get_first_request job q p = Some k →
  ∃ q1 c q2, q = (q1 ++ c :: q2) ∧ length q1 = k ∧ Forall (λ c, job c ∈ p) q1 ∧ job c ∉ p.
Proof.
  revert k. induction q as [|c q IH]; intros k; simpl; [done|]. case_decide as Hc.
  - intros (k' & Hk & ->)%fmap_Some. destruct (IH k' Hk) as (q1 & c' & q2 & -> & <- & Hq & Hc'). exists (c :: q1), c', q2. auto.
  - intros [= <-]. by exists [], c, q.
Qed.

(** The two ends of the wait loop. *)
Lemma look_cases i w s :
  (get_first_request job (m_requests_queue s) (m_pending_jobs s) = None ∧
   look i w s = (set_worker i (with_pc Asleep w) (set_num_running (m_num_running s - 1) s), [])) ∨
  (∃ q1 c q2, m_requests_queue s = q1 ++ c :: q2 ∧ Forall (λ c, job c ∈ m_pending_jobs s) q1 ∧ (job c ∉ m_pending_jobs s) ∧
   look i w s = (set_worker i (with_pc (Executing c) w) (set_pending ({[job c]} ∪ m_pending_jobs s) (set_queue (q1 ++ q2) s)),
                 [Started i c])).
Proof.
  unfold ThreadPool.look. destruct (get_first_request _ _ _) as [k|] eqn:E; [right|by left].
  apply first_request_Some in E as (q1 & c & q2 & -> & <- & H1 & H2). exists q1, c, q2. split_and!; [done..|].
  by rewrite list_lookup_middle, delete_middle.
Qed.

(** ** What a step does to the commands

    Every step moves one worker, takes a command, finishes one, or adds to
    the queue. *)
Inductive effect : IceThreadPool Cmd → IceThreadPool Cmd → list Cmd → list (event Cmd) → Prop :=
| eff_move z d q p l1 w w' l2 c c' x :
    hand w' = hand w → active w' = active w + d →
    effect (Pool z q p (l1 ++ w :: l2) c x) (Pool (z + d) q p (l1 ++ w' :: l2) c' x) [] []
| eff_take z d q1 cmd q2 p l1 w w' l2 c x i :
    Forall (λ c, job c ∈ p) q1 → job cmd ∉ p → hand w = None → hand w' = Some cmd → active w' = active w + d →
    effect (Pool z (q1 ++ cmd :: q2) p (l1 ++ w :: l2) c x)
      (Pool (z + d) (q1 ++ q2) ({[job cmd]} ∪ p) (l1 ++ w' :: l2) c x) [] [Started i cmd]
| eff_finish z q cmd p l1 w w' l2 c x i :
    hand w = Some cmd → hand w' = None → active w' = active w →
    effect (Pool z q p (l1 ++ w :: l2) c x) (Pool z q (p ∖ {[job cmd]}) (wake <$> (l1 ++ w' :: l2)) c x) [] [Finished i cmd]
| eff_add z q req p ws c c' x :
    effect (Pool z q p ws c x) (Pool z (q ++ req) p (wake <$> ws) c' x) req []
| eff_other z q p ws c c' x x' :
    effect (Pool z q p ws c x) (Pool z q p ws c' x') [] [].

Definition adds (l : label Cmd) : list Cmd := match l with Add req => [req] | _ => [] end.

Lemma move_effect s i w w' d c' :
  m_all_threads s !! i = Some w → hand w' = hand w → active w' = active w + d →
  effect s (set_stopper c' (set_worker i w' (set_num_running (m_num_running s + d) s))) [] [].
Proof.
  intros Hi Hh Ha. destruct s as [z q p ws c x]. simpl in Hi. apply worker_split in Hi as (l1 & l2 & -> & _ & Hw).
  unfold set_worker. cbn. rewrite Hw. by constructor.
Qed.
Lemma still_effect s i w w' c' :
  m_all_threads s !! i = Some w → hand w' = hand w → active w' = active w →
  effect s (set_stopper c' (set_worker i w' s)) [] [].
Proof.
  intros Hi Hh Ha. pose proof (move_effect s i w w' 0 c' Hi Hh) as H. rewrite !Z.add_0_r in H.
  destruct s as [z q p ws c x]. by apply H.
Qed.
Lemma worker_effect s i w w' :
  m_all_threads s !! i = Some w → hand w' = hand w → active w' = active w → effect s (set_worker i w' s) [] [].
Proof. intros Hi Hh Ha. pose proof (still_effect s i w w' (stop_caller s) Hi Hh Ha). by destruct s. Qed.
Lemma look_effect s i w s' e d :
  m_all_threads s !! i = Some w → hand w = None → active w = 1 - d →
  look i w (set_num_running (m_num_running s + d) s) = (s', e) → effect s s' [] e.
Proof.
  intros Hi Hh Ha H. destruct (look_cases i w (set_num_running (m_num_running s + d) s)) as [[_ E]|(q1 & c & q2 & Hq & H1 & H2 & E)];
    rewrite E in H; injection H as <- <-; destruct s as [z q p ws st x]; cbn in *.
  - replace (z + d - 1) with (z + (d - 1)) by lia. apply (move_effect (Pool z q p ws st x) i w _ (d - 1) st); [done..|]. cbn. lia.
  - subst q. apply worker_split in Hi as (l1 & l2 & -> & _ & Hw). unfold set_worker. cbn. rewrite Hw. by constructor; [..|cbn; lia].
Qed.

Lemma run_effect i w s s' e :
  m_all_threads s !! i = Some w → run_worker job i w s = Some (s', e) → effect s s' [] e.
Proof.
  intros Hi. unfold run_worker, start_thread, test_stopped, wait_returns, finish.
  destruct w as [pc ru st]; destruct pc; cbn [w_pc m_stopped]; intros [= H]; try done.
  - simplify_eq. by eapply worker_effect.
  - simplify_eq. eapply worker_effect; [done|by destruct st..].
  - apply (look_effect s i _ s' e 0 Hi); [done..|]. rewrite Z.add_0_r. by destruct s.
  - destruct st; [|by apply (look_effect s i _ s' e 1 Hi)]. simplify_eq. by eapply worker_effect.
  - simplify_eq. destruct s as [z q p ws c x]. cbn in Hi. apply worker_split in Hi as (l1 & l2 & -> & _ & Hw).
    unfold notify_all, set_worker. cbn. rewrite Hw. by constructor.
Qed.
Lemma step_effect l s s' e : step l s = Some (s', e) → effect s s' (adds l) e.
Proof.
  unfold ThreadPool.step. destruct (exited s) eqn:Ex; [done|]. destruct l as [i|i r|i|req|]; simpl.
  - intros (w & Hi & H)%bind_Some. by eapply run_effect.
  - intros (w & Hi & H)%bind_Some. destruct (w_pc w) as [| | | | |c|c| |] eqn:Hp; try done. injection H as H.
    assert (effect s (set_worker i (with_pc (Finishing c) w) s) [] []) as Hm.
    { eapply worker_effect; [done|unfold hand, active; cbn; by rewrite Hp..]. }
    destruct r; injection H as <- <-; try done. destruct s. constructor.
  - intros (w & Hi & H)%bind_Some. destruct (w_pc w) eqn:Hp; try done. injection H as <- <-.
    eapply worker_effect; [done|unfold hand, active; cbn; by rewrite Hp..].
  - intros [= <- <-]. destruct s. constructor.
  - intros (s1 & H & E)%bind_Some. injection E as <- <-. revert H. unfold stop_step. destruct s as [z q p ws c x]. cbn [stop_caller m_all_threads].
    destruct c as [|k| |]; [intros [= <-]; constructor| | |done].
    + destruct (ws !! k) as [w|] eqn:Hk; intros [= <-].
      * apply (still_effect (Pool z q p ws (Stopping k) x) k w (stop w) _ Hk); by destruct w.
      * rewrite <- (app_nil_r q) at 2. constructor.
    + destruct (forallb _ _); [|done]. intros [= <-]. constructor.
Qed.

(** ** The invariant *)
Record pool_ok s : Prop := {
  ok_threads : m_all_threads s ≠ [];
  ok_pending j : j ∈ m_pending_jobs s ↔ j ∈ job <$> in_hand (m_all_threads s);
  ok_exclusive : NoDup (job <$> in_hand (m_all_threads s));
  ok_running : m_num_running s = actives (m_all_threads s)
}.

Lemma perm_hand l1 w l2 cmd :
  hand w = Some cmd → job <$> in_hand (l1 ++ w :: l2) ≡ₚ job cmd :: (job <$> in_hand (l1 ++ l2)).
Proof. intros H. rewrite in_hand_mid, H, in_hand_app. simpl. by rewrite <- Permutation_middle. Qed.
Lemma no_hand l1 w l2 : hand w = None → in_hand (l1 ++ w :: l2) = in_hand (l1 ++ l2).
Proof. intros H. by rewrite in_hand_mid, H, in_hand_app. Qed.

Lemma effect_ok s s' r e : effect s s' r e → pool_ok s → pool_ok s'.
Proof.
  intros H [Ht Hp Hx Hr]. destruct H as [z d q p l1 w w' l2 c c' x Hh Ha|z d q1 cmd q2 p l1 w w' l2 c x i Hq Hc Hw Hw' Ha|
    z q cmd p l1 w w' l2 c x i Hw Hw' Ha|z q req p ws c c' x|]; [| | | |by split]; cbn in *.
  - rewrite actives_mid in Hr. split; cbn; [by destruct l1|..].
    + by rewrite in_hand_mid, Hh, <- in_hand_mid.
    + by rewrite in_hand_mid, Hh, <- in_hand_mid.
    + rewrite actives_mid. lia.
  - rewrite actives_mid in Hr. rewrite (no_hand _ _ _ Hw) in Hp, Hx. split; cbn; [by destruct l1|..].
    + intros j. rewrite (perm_hand _ _ _ _ Hw'), elem_of_cons, <- Hp. set_solver.
    + rewrite (perm_hand _ _ _ _ Hw'). constructor; [by rewrite <- Hp|done].
    + rewrite actives_mid. lia.
  - rewrite actives_mid in Hr. rewrite (perm_hand _ _ _ _ Hw) in Hx. apply NoDup_cons in Hx as [Hn Hx].
    split; cbn; [by destruct l1|..]; rewrite ?in_hand_wake, ?(no_hand _ _ _ Hw').
    + intros j. rewrite elem_of_difference, Hp, (perm_hand _ _ _ _ Hw), elem_of_cons, elem_of_singleton.
      split; [naive_solver|]. intros Hj. split; [auto|]. by intros ->.
    + done.
    + rewrite actives_wake, actives_mid. lia.
  - split; cbn; rewrite ?in_hand_wake, ?actives_wake; [by destruct ws|done..].
Qed.

Lemma new_pool_hand n : in_hand (m_all_threads (new_IceThreadPool (Cmd := Cmd) n)) = [].
Proof. cbn. generalize (Z.to_nat (if n <? 1 then 1 else n)). intros k. by induction k. Qed.
Lemma new_pool_size n : length (m_all_threads (new_IceThreadPool (Cmd := Cmd) n)) = Z.to_nat (Z.max 1 n).
Proof. cbn. rewrite length_replicate. destruct (Z.ltb_spec n 1); f_equal; lia. Qed.
Lemma actives_replicate k : actives (replicate k new_IceThread) = Z.of_nat k.
Proof. induction k as [|k IH]; [done|]. cbn [replicate]. rewrite actives_cons, IH. cbn. lia. Qed.
Lemma new_pool_ok n : pool_ok (new_IceThreadPool n).
Proof.
  split.
  - intros E. pose proof (new_pool_size n) as H. rewrite E in H. cbn in H. lia.
  - intros j. rewrite new_pool_hand. set_solver.
  - rewrite new_pool_hand. constructor.
  - cbn. rewrite actives_replicate. destruct (Z.ltb_spec n 1); lia.
Qed.
Lemma reach_ok s0 ls es s : pool_ok s0 → reach s0 ls es s → pool_ok s.
Proof. intros H0. induction 1 as [|ls es s l s' e _ IH H]; [done|]. eapply effect_ok; [by eapply step_effect|done]. Qed.

Lemma effect_threads s s' r e : effect s s' r e → length (m_all_threads s') = length (m_all_threads s).
Proof. destruct 1; cbn; rewrite ?length_fmap, ?length_app; done. Qed.
Lemma reach_threads s0 ls es s : reach s0 ls es s → length (m_all_threads s) = length (m_all_threads s0).
Proof. induction 1 as [|ls es s l s' e _ IH H]; [done|]. rewrite <- IH. by eapply effect_threads, step_effect. Qed.

(** ** The order of the commands of a job *)
Definition of_job j (cs : list Cmd) : list Cmd := filter (λ c, job c = j) cs.
Definition started (es : list (event Cmd)) : list Cmd := omap (λ e, match e with Started _ c => Some c | _ => None end) es.
Definition finished (es : list (event Cmd)) : list Cmd := omap (λ e, match e with Finished _ c => Some c | _ => None end) es.
#[local] Arguments of_job : simpl never.
Definition added (ls : list (label Cmd)) : list Cmd := mjoin (adds <$> ls).

Lemma of_job_app j l1 l2 : of_job j (l1 ++ l2) = of_job j l1 ++ of_job j l2.
Proof. apply filter_app. Qed.
Lemma of_job_none j cs : (j ∉ job <$> cs) → of_job j cs = [].
Proof.
  intros H. induction cs as [|c cs IH]; [done|]. unfold of_job. rewrite filter_cons. rewrite decide_False; [apply IH; set_solver|set_solver].
Qed.
Lemma of_job_one j c : of_job j [c] = if decide (job c = j) then [c] else [].
Proof. unfold of_job. rewrite filter_cons. by case_decide. Qed.
Lemma of_job_first j l1 c l2 : (job c ∉ job <$> l1) → of_job j (l1 ++ c :: l2) = of_job j [c] ++ of_job j (l1 ++ l2).
Proof.
  intros H. change (c :: l2) with ([c] ++ l2). rewrite !of_job_app, of_job_one. case_decide as Hc; [|done].
  subst j. by rewrite (of_job_none _ l1).
Qed.
Lemma of_job_last j l1 c l2 : (job c ∉ job <$> l2) → of_job j (l1 ++ c :: l2) = of_job j (l1 ++ l2) ++ of_job j [c].
Proof.
  intros H. change (c :: l2) with ([c] ++ l2). rewrite !of_job_app, of_job_one. case_decide as Hc.
  - subst j. by rewrite (of_job_none _ l2), !app_nil_r.
  - by rewrite app_nil_r.
Qed.
Lemma hand_mid l1 w l2 cmd : hand w = Some cmd → in_hand (l1 ++ w :: l2) = in_hand l1 ++ cmd :: in_hand l2.
Proof. intros H. by rewrite in_hand_mid, H. Qed.

(** What was added is what was started and then what is queued; what was
    started is what was finished and then what is in hand. *)
Definition in_order (rs : list Cmd) (es : list (event Cmd)) s : Prop := ∀ j,
  of_job j rs = of_job j (started es) ++ of_job j (m_requests_queue s) ∧
  of_job j (started es) = of_job j (finished es) ++ of_job j (in_hand (m_all_threads s)).

Lemma effect_order s s' r e rs es : effect s s' r e → pool_ok s → in_order rs es s → in_order (rs ++ r) (es ++ e) s'.
Proof.
  intros H [_ Hp Hx _] Ho j. specialize (Ho j) as [Ho1 Ho2]. unfold started, finished in *. rewrite !omap_app.
  destruct H as [z d q p l1 w w' l2 c c' x Hh Ha|z d q1 cmd q2 p l1 w w' l2 c x i Hq Hc Hw Hw' Ha|
    z q cmd p l1 w w' l2 c x i Hw Hw' Ha|z q req p ws c c' x|z q p ws c c' x x']; cbn in *; rewrite ?app_nil_r, ?in_hand_wake.
  - by rewrite in_hand_mid, Hh, <- in_hand_mid.
  - rewrite (no_hand _ _ _ Hw) in Hp, Ho2. rewrite !of_job_app, (hand_mid _ _ _ _ Hw'), of_job_last, <- in_hand_app, Ho1, of_job_first, <- of_job_app.
    + split; [by rewrite !of_job_app, (assoc_L (++))|]. by rewrite Ho2, (assoc_L (++)).
    + intros (c' & Hj & Hin)%list_elem_of_fmap. rewrite Forall_forall in Hq. apply Hc. rewrite Hj. by apply Hq.
    + rewrite Hp, in_hand_app in Hc. set_solver.
  - rewrite (perm_hand _ _ _ _ Hw) in Hx. apply NoDup_cons in Hx as [Hn _]. rewrite in_hand_app in Hn. split; [done|].
    rewrite Ho2, (hand_mid _ _ _ _ Hw), of_job_first, of_job_app, (no_hand _ _ _ Hw'), in_hand_app by set_solver. by rewrite !of_job_app, !(assoc_L (++)).
  - rewrite !of_job_app, Ho1. by rewrite (assoc_L (++)).
  - done.
Qed.
Lemma added_snoc ls l : added (ls ++ [l]) = added ls ++ adds l.
Proof. unfold added. rewrite fmap_app. cbn. rewrite join_app. cbn. by rewrite app_nil_r. Qed.
Lemma reach_order n ls es s : reach (new_IceThreadPool n) ls es s → in_order (added ls) es s.
Proof.
  induction 1 as [|ls es s l s' e Hr IH H]; [intros j; by rewrite new_pool_hand|]. rewrite added_snoc.
  eapply effect_order; [by eapply step_effect|by eapply reach_ok; [apply new_pool_ok|]|done].
Qed.
End props.
