(* ===== verification/ThreadPoolSpec.v ===== *)
(** * What the thread pool promises

    Exclusion and order of the commands of a job, the end of every run, and
    the two ways in which stopping a pool can end; at the end, runs of a
    small pool. *)

From stdpp Require Import gmap strings relations.
From S2P Require Import Prelude Transition ThreadPool ThreadPoolProps.

(** * Runs of the thread pool to their end

    Each step of the workers lowers a measure, so that runs without new
    requests end; what holds where they end is shown for a pool at work and
    for a pool being stopped. *)

Section runs.
Context {Cmd : Type} (get_grid_job_id : Cmd → bytes).
Implicit Types (s : IceThreadPool Cmd) (w : IceThreadPoolWorker Cmd) (ws : list (IceThreadPoolWorker Cmd)).
Abbreviation step := (step get_grid_job_id).
Abbreviation look := (look get_grid_job_id).
Abbreviation reach := (Transition.reach (ThreadPool.step get_grid_job_id)).
Abbreviation work := (work get_grid_job_id).
Abbreviation job := get_grid_job_id.
Open Scope nat_scope.

(** ** The measure

    A worker counts the steps to its next wait; a command, in the queue or
    in hand, pays for the workers that its end wakes up. *)
Definition weight (n : nat) w : nat :=
  match w_pc w with
  | Created => 3 | Top => 2 | Locking | Woken => 1
  | Executing _ => n + 4 | Finishing _ => n + 3
  | Asleep | Returned | Left => 0
  end.
Definition total (n : nat) ws : nat := sum_list (weight n <$> ws).
#[local] Arguments total : simpl never.
Definition measure s : nat :=
  let n := length (m_all_threads s) in total n (m_all_threads s) + (n + 4) * length (m_requests_queue s).

Lemma total_mid n l1 w l2 : total n (l1 ++ w :: l2) = total n l1 + weight n w + total n l2.
Proof. unfold total. rewrite fmap_app, sum_list_with_app. cbn. lia. Qed.
Lemma total_wake n ws : total n (wake <$> ws) ≤ total n ws + length ws.
Proof.
  unfold total. induction ws as [|w ws IH]; [done|]. cbn. enough (weight n (wake w) ≤ weight n w + 1) by (cbn in *; lia).
  unfold wake. destruct w as [[] ? ?]; cbn; lia.
Qed.

Lemma worker_measure s i w w' :
  m_all_threads s !! i = Some w → let n := length (m_all_threads s) in
  length (m_all_threads (set_worker i w' s)) = n ∧
  total n (m_all_threads (set_worker i w' s)) + weight n w = total n (m_all_threads s) + weight n w'.
Proof.
  intros Hi n. cbn. apply worker_split in Hi as (l1 & l2 & E & _ & Hw). subst n. rewrite Hw, E, !total_mid, !length_app. split; [done|lia].
Qed.

Lemma set_worker_decreases s i w w' z p :
  m_all_threads s !! i = Some w → weight (length (m_all_threads s)) w' < weight (length (m_all_threads s)) w →
  measure (set_worker i w' (set_num_running z (set_pending p s))) < measure s.
Proof.
  intros Hi Hw. pose proof (worker_measure s i w w' Hi) as [Hn Ht]. unfold measure in *. cbn in *. rewrite Hn. lia.
Qed.
Lemma worker_decreases s i w w' :
  m_all_threads s !! i = Some w → weight (length (m_all_threads s)) w' < weight (length (m_all_threads s)) w →
  measure (set_worker i w' s) < measure s.
Proof. intros Hi Hw. pose proof (set_worker_decreases s i w w' (m_num_running s) (m_pending_jobs s) Hi Hw). by destruct s. Qed.
Lemma num_same s : set_num_running (m_num_running s) s = s.
Proof. by destruct s. Qed.
Lemma look_decreases s i w s' e z :
  m_all_threads s !! i = Some w → weight (length (m_all_threads s)) w = 1 →
  look i w (set_num_running z s) = (s', e) → measure s' < measure s.
Proof.
  intros Hi Hw H. destruct (look_cases job i w (set_num_running z s)) as [[_ E]|(q1 & c & q2 & Hq & _ & _ & E)];
    rewrite E in H; injection H as <- <-.
  - apply (set_worker_decreases s i w _ _ (m_pending_jobs s) Hi). rewrite Hw. cbn. lia.
  - pose proof (worker_measure s i w (with_pc (Executing c) w) Hi) as [Hn Ht]. unfold measure. cbn in *.
    rewrite Hn, Hq, !length_app. cbn. lia.
Qed.
Lemma finish_decreases s i w c :
  m_all_threads s !! i = Some w → w_pc w = Finishing c → measure (finish job i w c s).1 < measure s.
Proof.
  intros Hi Hp. pose proof (worker_measure s i w (with_pc Top w) Hi) as [Hn Ht].
  pose proof (total_wake (length (m_all_threads s)) (<[i := with_pc Top w]> (m_all_threads s))) as Hl.
  unfold measure. cbn in *. rewrite length_fmap, Hn in *. unfold weight at 1 in Ht. rewrite Hp in Ht. cbn in Ht. lia.
Qed.

Lemma work_decreases s s' : work s s' → measure s' < measure s.
Proof.
  intros (l & e & Hl & H). unfold ThreadPool.step in H. destruct (exited s) eqn:Ex; [done|].
  destruct l as [i|i r|i|req|]; try done; apply bind_Some in H as (w & Hi & H).
  - unfold run_worker, start_thread, test_stopped in H. destruct (w_pc w) as [| | | | |c|c| |] eqn:Hp; try done; apply (inj Some) in H.
    + injection H as <- <-. apply (worker_decreases s i w _ Hi). unfold weight. rewrite Hp. cbn. lia.
    + injection H as <- <-. apply (worker_decreases s i w _ Hi). unfold weight. rewrite Hp. destruct (m_stopped w); cbn; lia.
    + apply (look_decreases s i w s' e (m_num_running s) Hi); [unfold weight; by rewrite Hp|by destruct s].
    + unfold wait_returns in H. destruct (m_stopped w).
      * injection H as <- <-. apply (worker_decreases s i w _ Hi). unfold weight. rewrite Hp. cbn. lia.
      * eapply (look_decreases s i w s' e _ Hi); [unfold weight; by rewrite Hp|exact H].
    + replace s' with (finish job i w c s).1 by (by rewrite H). by apply finish_decreases.
  - destruct (w_pc w) as [| | | | |c|c| |] eqn:Hp; try done. apply (inj Some) in H.
    assert (measure (set_worker i (with_pc (Finishing c) w) s) < measure s).
    { apply (worker_decreases s i w _ Hi). unfold weight. rewrite Hp. cbn. lia. }
    destruct r; by injection H as <- <-.
Qed.

Lemma work_decreases_step l s s' e : working l → ThreadPool.step job l s = Some (s', e) → measure s' < measure s.
Proof. intros Hl Hs. apply work_decreases. by exists l, e. Qed.

(** ** A pool at work

    [lively]: nobody was told to stop, and when a command could be taken some
    worker is not asleep. *)
Definition calm (l : label Cmd) : Prop := match l with StopAll => False | Execute _ r => r ≠ soap_runtime_ex | _ => True end.
Definition unstopped w : Prop := m_stopped w = false ∧ ended w = false.
Record lively s : Prop := {
  lv_here : exited s = false;
  lv_threads : m_all_threads s ≠ [];
  lv_unstopped : Forall unstopped (m_all_threads s);
  lv_awake : Exists (λ w, w_pc w ≠ Asleep) (m_all_threads s) ∨ get_first_request job (m_requests_queue s) (m_pending_jobs s) = None
}.

Lemma lively_worker s i w w' z q p :
  lively s → m_all_threads s !! i = Some w → unstopped w' →
  (w_pc w' ≠ Asleep ∨ get_first_request job q p = None) →
  lively (set_worker i w' (set_num_running z (set_queue q (set_pending p s)))).
Proof.
  intros [Hx Ht Hu _] Hi Hw' Ha. pose proof (lookup_lt_Some _ _ _ Hi). split; cbn; [done|..].
  - intros E%(f_equal length). rewrite length_insert in E. cbn in E. lia.
  - by apply Forall_insert.
  - destruct Ha as [Ha|Ha]; [left|by right]. apply Exists_exists. exists w'. split; [|done].
    eapply list_elem_of_lookup_2. by rewrite list_lookup_insert_eq.
Qed.
Lemma lively_wake s : lively s → lively (notify_all s).
Proof.
  intros [Hx Ht Hu _]. split; cbn; [done|by destruct (m_all_threads s)|..].
  - rewrite Forall_fmap. eapply Forall_impl; [exact Hu|]. intros w [H1 H2]. unfold wake. destruct w as [[] ? ?]; by split.
  - left. destruct (m_all_threads s) as [|w ws]; [done|]. left. unfold wake. by destruct w as [[] ? ?].
Qed.
Lemma look_lively s i w z : lively s → m_all_threads s !! i = Some w → m_stopped w = false → lively (look i w (set_num_running z s)).1.
Proof.
  intros Hl Hi Hw. destruct (look_cases job i w (set_num_running z s)) as [[Hn ->]|(q1 & c & q2 & _ & _ & _ & ->)].
  - pose proof (lively_worker s i w (with_pc Asleep w) (z - 1) (m_requests_queue s) (m_pending_jobs s) Hl Hi) as H.
    by destruct s; apply H; [|right].
  - pose proof (lively_worker s i w (with_pc (Executing c) w) z (q1 ++ q2) ({[job c]} ∪ m_pending_jobs s) Hl Hi) as H.
    by destruct s; apply H; [|left].
Qed.
Lemma lively_moved s i w w' :
  lively s → m_all_threads s !! i = Some w → unstopped w' → w_pc w' ≠ Asleep → lively (set_worker i w' s).
Proof.
  intros Hl Hi Hw Ha. pose proof (lively_worker s i w w' (m_num_running s) (m_requests_queue s) (m_pending_jobs s) Hl Hi) as H.
  by destruct s; apply H; [|left].
Qed.

Lemma lively_step l s s' e : calm l → lively s → step l s = Some (s', e) → lively s'.
Proof.
  intros Hc Hl H. unfold ThreadPool.step in H. rewrite (lv_here _ Hl) in H.
  destruct l as [i|i r|i|req|]; [..|by apply bind_Some in H as (? & _ & _)].
  - apply bind_Some in H as (w & Hi & H). destruct (Forall_lookup_1 _ _ _ _ (lv_unstopped _ Hl) Hi) as [Hs _].
    unfold run_worker, start_thread, test_stopped, wait_returns in H. destruct (w_pc w) as [| | | | |c|c| |] eqn:Hp; try done; apply (inj Some) in H.
    + injection H as <- <-. by eapply lively_moved.
    + injection H as <- <-. rewrite Hs. by eapply lively_moved.
    + pose proof (look_lively s i w (m_num_running s) Hl Hi Hs) as H'. by rewrite num_same, H in H'.
    + rewrite Hs in H. pose proof (look_lively s i w (m_num_running s + 1) Hl Hi Hs) as H'. by rewrite H in H'.
    + injection H as <- <-. apply lively_wake.
      pose proof (lively_worker s i w (with_pc Top w) (m_num_running s) (m_requests_queue s) (m_pending_jobs s ∖ {[job c]}) Hl Hi) as H.
      by destruct s; apply H; [|left].
  - apply bind_Some in H as (w & Hi & H). destruct (Forall_lookup_1 _ _ _ _ (lv_unstopped _ Hl) Hi) as [Hs _].
    destruct (w_pc w) as [| | | | |c|c| |] eqn:Hp; try done. apply (inj Some) in H.
    assert (lively (set_worker i (with_pc (Finishing c) w) s)) by (by eapply lively_moved). destruct r; by injection H as <- <-.
  - apply bind_Some in H as (w & Hi & H). destruct (Forall_lookup_1 _ _ _ _ (lv_unstopped _ Hl) Hi) as [Hs _].
    destruct (w_pc w) eqn:Hp; try done. injection H as <- <-. by eapply lively_moved.
  - injection H as <- <-. unfold add_request. destruct (lively_wake _ Hl) as [Hx Ht Hu Ha]. split; [exact Hx|exact Ht|exact Hu|]. left.
    cbn. pose proof (lv_threads _ Hl). destruct (m_all_threads s) as [|w ws]; [done|]. left. unfold wake. by destruct w as [[] ? ?].
Qed.

Definition resting w : bool := match w_pc w with Asleep | Returned | Left => true | _ => false end.
Lemma can_work s i w :
  exited s = false → m_all_threads s !! i = Some w → resting w = false → ∃ s', work s s'.
Proof.
  intros Hx Hi Hr. destruct (w_pc w) as [| | | | |c|c| |] eqn:Hp; unfold resting in Hr; rewrite Hp in Hr; try done.
  6: by destruct (finish job i w c s) as [s' e] eqn:E; exists s', (Run i), e; (split; [done|]);
       unfold ThreadPool.step; rewrite Hx, Hi; cbn; unfold run_worker; rewrite Hp; f_equal.
  5: by eexists _, (Execute i Completed), _; (split; [done|]); unfold ThreadPool.step; rewrite Hx, Hi; cbn; rewrite Hp.
  all: destruct (run_worker job i w s) as [[s' e]|] eqn:E; [|unfold run_worker in E; by rewrite Hp in E].
  all: exists s', (Run i), e; split; [done|]; unfold ThreadPool.step; by rewrite Hx, Hi.
Qed.
Lemma all_resting s : exited s = false → (∀ s', ¬ work s s') → Forall (λ w, resting w = true) (m_all_threads s).
Proof.
  intros Hx Hn. apply Forall_lookup. intros i w Hi. destruct (resting w) eqn:E; [done|].
  destruct (can_work s i w Hx Hi E) as [s' Hs]. by destruct (Hn s').
Qed.

Lemma lively_end s : lively s → pool_ok job s → (∀ s', ¬ work s s') →
  m_requests_queue s = [] ∧ in_hand (m_all_threads s) = [] ∧ Forall (λ w, w_pc w = Asleep) (m_all_threads s).
Proof.
  intros [Hx Ht Hu Ha] [_ Hp _ _] Hn.
  assert (Forall (λ w, w_pc w = Asleep) (m_all_threads s)) as Hs.
  { apply Forall_lookup. intros i w Hi. destruct (Forall_lookup_1 _ _ _ _ Hu Hi) as [_ Hw].
    pose proof (Forall_lookup_1 _ _ _ _ (all_resting s Hx Hn) Hi) as Hr. unfold resting, ended in *. by destruct (w_pc w). }
  assert (in_hand (m_all_threads s) = []) as Hh.
  { clear -Hs. induction Hs as [|w ws Hw _ IH]; [done|]. rewrite in_hand_cons, IH. unfold hand. by rewrite Hw. }
  split_and!; [|done..]. destruct Ha as [(w & Hin & Hw)%Exists_exists|Ha%first_request_None].
  { rewrite Forall_forall in Hs. by destruct Hw; apply Hs. }
  destruct (m_requests_queue s) as [|c q]; [done|]. apply Forall_cons in Ha as [Hc _]. rewrite Hp, Hh in Hc. by apply not_elem_of_nil in Hc.
Qed.
Lemma new_lively n : lively (new_IceThreadPool n).
Proof.
  pose proof (ok_threads job _ (new_pool_ok job n)) as Ht. split; [done|done| |].
  - cbn. apply Forall_replicate. by split.
  - left. cbn in *. destruct (Z.to_nat _); [done|]. by left.
Qed.
Lemma reach_lively n ls es s : reach (new_IceThreadPool n) ls es s → Forall calm ls → lively s.
Proof. intros Hr. apply (reach_invariant (ThreadPool.step job) lively calm _ _ _ _ lively_step (new_lively n) Hr). Qed.
Lemma working_calm (ls : list (label Cmd)) : Forall working ls → Forall calm ls.
Proof. intros H. eapply Forall_impl; [exact H|]. by intros []. Qed.
Lemma added_app (ls1 ls2 : list (label Cmd)) : added (ls1 ++ ls2) = added ls1 ++ added ls2.
Proof. unfold added. by rewrite fmap_app, join_app. Qed.
Lemma working_added (ls : list (label Cmd)) : Forall working ls → added ls = [].
Proof. induction 1 as [|l ls Hl _ IH]; [done|]. change (l :: ls) with ([l] ++ ls). rewrite added_app, IH. by destruct l. Qed.

(** ** A pool being stopped *)
Definition flags s : list bool := m_stopped <$> m_all_threads s.
Definition stops s : Prop :=
  match stop_caller s with
  | NotCalled => True
  | Stopping k => Forall (eq true) (take k (flags s))
  | Joining | Joined => Forall (eq true) (flags s)
  end.
(** Nobody is before its wait, or in it. *)
Definition clear_of_wait w : Prop := m_stopped w = true ∧ w_pc w ≠ Locking ∧ w_pc w ≠ Asleep.
Record leaving s : Prop := {
  le_here : exited s = false;
  le_joining : stop_caller s = Joining;
  le_clear : Forall clear_of_wait (m_all_threads s)
}.

Lemma leaving_worker s i w' p : leaving s → clear_of_wait w' → leaving (set_worker i w' (set_pending p s)).
Proof. intros [Hx Hj Hc] Hw. split; [done..|]. cbn. by apply Forall_insert. Qed.
Lemma leaving_moved s i w' : leaving s → clear_of_wait w' → leaving (set_worker i w' s).
Proof. intros Hl Hw. pose proof (leaving_worker s i w' (m_pending_jobs s) Hl Hw). by destruct s. Qed.
Lemma leaving_wake s : leaving s → leaving (notify_all s).
Proof.
  intros [Hx Hj Hc]. split; [done..|]. cbn. apply Forall_fmap. eapply Forall_impl; [exact Hc|].
  intros [[] ? ?] (? & ? & ?); by split_and!.
Qed.
Lemma leaving_step l s s' e : working l → leaving s → step l s = Some (s', e) → leaving s'.
Proof.
  intros Hw Hl H. unfold ThreadPool.step in H. rewrite (le_here _ Hl) in H. destruct l as [i|i r|i|req|]; try done.
  - apply bind_Some in H as (w & Hi & H). destruct (Forall_lookup_1 _ _ _ _ (le_clear _ Hl) Hi) as (Hs & Hp1 & _).
    unfold run_worker, start_thread, test_stopped, wait_returns in H. rewrite Hs in H.
    destruct (w_pc w) as [| | | | |c|c| |] eqn:Hp; try done; injection H as <- <-.
    4: apply leaving_wake, leaving_worker; [done|]. 1-3: apply leaving_moved; [done|].
    all: by split_and!.
  - apply bind_Some in H as (w & Hi & H). destruct (Forall_lookup_1 _ _ _ _ (le_clear _ Hl) Hi) as (Hs & _).
    destruct (w_pc w) as [| | | | |c|c| |] eqn:Hp; try done. apply (inj Some) in H.
    assert (leaving (set_worker i (with_pc (Finishing c) w) s)) by (by apply leaving_moved; [|split_and!]).
    destruct r; by injection H as <- <-.
Qed.
Lemma leaving_end s : leaving s → (∀ s', ¬ work s s') → stop_step s = Some (set_stopper Joined s).
Proof.
  intros [Hx Hj Hc] Hn. unfold stop_step. rewrite Hj. replace (forallb ended (m_all_threads s)) with true; [done|].
  symmetry. apply Is_true_eq_true, forallb_True, Forall_lookup. intros i w Hi. pose proof (Forall_lookup_1 _ _ _ _ (all_resting s Hx Hn) Hi) as Hr.
  destruct (Forall_lookup_1 _ _ _ _ Hc Hi) as (_ & _ & Ha). unfold resting, ended in *. by destruct (w_pc w).
Qed.

Lemma set_worker_flags s i w w' :
  m_all_threads s !! i = Some w → m_stopped w' = m_stopped w → m_stopped <$> <[i := w']> (m_all_threads s) = flags s.
Proof. intros Hi Hw. unfold flags. rewrite list_fmap_insert. apply list_insert_id. by rewrite list_lookup_fmap, Hi, Hw. Qed.
Lemma wake_flags ws : m_stopped <$> (wake <$> ws) = m_stopped <$> ws.
Proof. rewrite <- list_fmap_compose. apply list_fmap_ext. by intros _ [[] ? ?] _. Qed.
Lemma look_flags s i w z :
  m_all_threads s !! i = Some w → let s' := (look i w (set_num_running z s)).1 in flags s' = flags s ∧ stop_caller s' = stop_caller s.
Proof.
  intros Hi. destruct (look_cases job i w (set_num_running z s)) as [[_ ->]|(q1 & c & q2 & _ & _ & _ & ->)];
    (split; [by apply (set_worker_flags s i w)|done]).
Qed.
(** Only [stopAllThreads] changes the flags. *)
Lemma step_flags l s s' e : l ≠ StopAll → step l s = Some (s', e) → flags s' = flags s ∧ stop_caller s' = stop_caller s.
Proof.
  intros Hl H. unfold ThreadPool.step in H. destruct (exited s); [done|]. destruct l as [i|i r|i|req|]; [..|done].
  - apply bind_Some in H as (w & Hi & H). unfold run_worker, start_thread, test_stopped, wait_returns in H.
    destruct (w_pc w) as [| | | | |c|c| |] eqn:Hp; try done; apply (inj Some) in H.
    + injection H as <- <-. split; [by apply (set_worker_flags s i w)|done].
    + injection H as <- <-. split; [|done]. apply (set_worker_flags s i w); [done|]. by destruct (m_stopped w) eqn:E.
    + pose proof (look_flags s i w (m_num_running s) Hi) as H'. by rewrite num_same, H in H'.
    + destruct (m_stopped w) eqn:Hs.
      * injection H as <- <-. split; [by apply (set_worker_flags s i w)|done].
      * pose proof (look_flags s i w (m_num_running s + 1) Hi) as H'. by rewrite H in H'.
    + injection H as <- <-. split; [|done]. unfold flags. cbn. rewrite wake_flags. by apply (set_worker_flags s i w).
  - apply bind_Some in H as (w & Hi & H). destruct (w_pc w) as [| | | | |c|c| |]; try done. apply (inj Some) in H.
    destruct r; injection H as <- <-; (split; [by (apply (set_worker_flags s i w) || reflexivity)|done]).
  - apply bind_Some in H as (w & Hi & H). destruct (w_pc w); try done. injection H as <- <-.
    split; [by apply (set_worker_flags s i w)|done].
  - injection H as <- <-. split; [|done]. unfold flags. cbn. apply wake_flags.
Qed.
Lemma stop_step_stops s s' : stops s → stop_step s = Some s' → stops s'.
Proof.
  unfold stop_step, stops. destruct (stop_caller s) as [|k| |] eqn:E; intros Hs H; [..|done].
  - injection H as <-. constructor.
  - destruct (m_all_threads s !! k) as [w|] eqn:Hk; injection H as <-; unfold flags in *; cbn.
    + rewrite list_fmap_insert, (take_S_r _ _ true).
      * apply Forall_app. split; [by rewrite take_insert_ge by lia|by constructor].
      * apply list_lookup_insert_eq. rewrite length_fmap. by eapply lookup_lt_Some.
    + rewrite wake_flags. rewrite take_ge in Hs; [done|]. rewrite length_fmap. by apply lookup_ge_None.
  - destruct (forallb _ _); [|done]. by injection H as <-.
Qed.
Lemma reach_stops n ls es s : reach (new_IceThreadPool n) ls es s → stops s.
Proof.
  intros H. apply (reach_invariant (ThreadPool.step job) stops (λ _, True) _ _ _ _) with (3 := H); [|done|by apply Forall_true].
  intros l t t' e _ Ht Hs. destruct l; [..|unfold ThreadPool.step in Hs; destruct (exited t); [done|];
    apply bind_Some in Hs as (t1 & Ht1 & [= <- <-]); by eapply stop_step_stops].
  all: apply step_flags in Hs as [Hf Hc]; [|done]; unfold stops in *; by rewrite Hf, Hc.
Qed.

(** ** Schedules

    Each worker in its turn makes the same step. *)
Lemma sweep (L : nat → label Cmd) (P : nat → IceThreadPool Cmd → Prop) w w' m :
  (∀ k s, P k s → m_all_threads s !! k = Some w →
    ∃ s', step (L k) s = Some (s', []) ∧ P (S k) s' ∧ m_all_threads s' = <[k := w']> (m_all_threads s)) →
  ∀ k s, P k s → m_all_threads s = replicate k w' ++ replicate m w →
  ∃ s', exec (ThreadPool.step job) (L <$> seq k m) s = Some (s', []) ∧ P (k + m) s' ∧ m_all_threads s' = replicate (k + m) w'.
Proof.
  intros Hstep. induction m as [|m IH]; intros k s Hp Hs.
  - exists s. rewrite Nat.add_0_r. cbn in Hs. rewrite app_nil_r in Hs. done.
  - destruct (Hstep k s Hp) as (s1 & H1 & P1 & T1).
    { rewrite Hs, lookup_app_r; rewrite length_replicate; [|done]. by rewrite Nat.sub_diag. }
    destruct (IH (S k) s1 P1) as (s2 & H2 & P2 & T2).
    { rewrite T1, Hs, insert_app_r_alt; rewrite length_replicate; [|done]. rewrite Nat.sub_diag.
      by rewrite (replicate_S_end k), <- (assoc_L (++)). }
    exists s2. replace (k + S m) with (S k + m) by lia. split; [|done]. cbn [seq fmap list_fmap exec]. rewrite H1. cbn in *. by rewrite H2.
Qed.

(** Workers that have passed their test when [stopAllThreads] is called, and
    reach their wait only after the notification. *)
Definition late_schedule (m : nat) : list (label Cmd) :=
  (Run <$> seq 0 m) ++ (Run <$> seq 0 m) ++ [StopAll] ++ ((λ _, StopAll) <$> seq 0 m) ++ [StopAll] ++ (Run <$> seq 0 m).
Definition at_rest (c : stopper) s : Prop := exited s = false ∧ m_requests_queue s = [] ∧ stop_caller s = c.
Lemma run_sweep c w w' m s :
  at_rest c s → m_all_threads s = replicate m w →
  (∀ i t, m_requests_queue t = [] → ∃ z, run_worker job i w t = Some (set_worker i w' (set_num_running z t), [])) →
  ∃ s', exec (ThreadPool.step job) (Run <$> seq 0 m) s = Some (s', []) ∧ at_rest c s' ∧ m_all_threads s' = replicate m w'.
Proof.
  intros Hs Ht Hrun. apply (sweep Run (λ _, at_rest c) w w' m) with (k := 0); [|done..].
  intros k t (Hx & Hq & Hc) Hk. destruct (Hrun k t Hq) as [z Hz]. exists (set_worker k w' (set_num_running z t)). split; [|done].
  unfold ThreadPool.step. rewrite Hx, Hk. exact Hz.
Qed.
Lemma late_schedule_runs n :
  let m := Z.to_nat (Z.max 1 n) in
  ∃ s, exec (ThreadPool.step job) (late_schedule m) (new_IceThreadPool n) = Some (s, []) ∧ at_rest Joining s ∧
       m_all_threads s = replicate m (Worker Asleep true true).
Proof.
  intros m. set (s0 := new_IceThreadPool n).
  assert (m_all_threads s0 = replicate m new_IceThread) as T0. { cbn. f_equal. subst m. destruct (Z.ltb_spec n 1); f_equal; lia. }
  destruct (run_sweep NotCalled new_IceThread (Worker Top true false) m s0) as (s1 & E1 & R1 & T1); [done..| |].
  { intros i t _. exists (m_num_running t). by rewrite num_same. }
  destruct (run_sweep NotCalled _ (Worker Locking true false) m s1 R1 T1) as (s2 & E2 & R2 & T2).
  { intros i t _. exists (m_num_running t). by rewrite num_same. }
  destruct R2 as (Hx2 & Hq2 & Hc2).
  destruct (sweep (λ _, StopAll) (λ k, at_rest (Stopping k)) (Worker Locking true false) (Worker Locking true true) m) with (k := 0)
    (s := set_stopper (Stopping 0) s2) as (s3 & E3 & (Hx3 & Hq3 & Hc3) & T3); [|done|done|].
  { intros k t (Hx & Hq & Hc) Hk. exists (set_stopper (Stopping (S k)) (set_worker k (Worker Locking true true) t)).
    split; [|by split_and!]. unfold ThreadPool.step, stop_step. by rewrite Hx, Hc, Hk. }
  cbn in Hc3, T3.
  destruct (run_sweep Joining (Worker Locking true true) (Worker Asleep true true) m (set_stopper Joining (notify_all s3)))
    as (s4 & E4 & R4 & T4); [done|cbn; by rewrite T3, fmap_replicate| |].
  { intros i t Hq. exists (m_num_running t - 1)%Z. cbn. unfold ThreadPool.look. by rewrite Hq. }
  exists s4. split; [|done]. unfold late_schedule.
  apply (exec_app (ThreadPool.step job) _ _ _ s1 s4 [] [] E1). apply (exec_app (ThreadPool.step job) _ _ _ s2 s4 [] [] E2).
  apply (exec_app (ThreadPool.step job) [StopAll] _ _ (set_stopper (Stopping 0) s2) s4 [] []); [cbn [exec]; unfold ThreadPool.step, stop_step; by rewrite Hx2, Hc2|].
  apply (exec_app (ThreadPool.step job) _ _ _ s3 s4 [] [] E3). apply (exec_app (ThreadPool.step job) [StopAll] _ _ (set_stopper Joining (notify_all s3)) s4 [] []); [|done].
  cbn [exec]. unfold ThreadPool.step, stop_step. rewrite Hx3, Hc3, T3, lookup_ge_None_2; [done|]. by rewrite length_replicate.
Qed.
End runs.

(** * Theorems *)

Section spec.
Context {Cmd : Type} (get_grid_job_id : Cmd → bytes).
Implicit Types (s : IceThreadPool Cmd) (ws : list (IceThreadPoolWorker Cmd)).
Abbreviation reach := (Transition.reach (ThreadPool.step get_grid_job_id)).
Abbreviation work := (work get_grid_job_id).
Abbreviation step := (step get_grid_job_id).
Abbreviation job := get_grid_job_id.

Lemma elem_in_hand ws c : c ∈ in_hand ws ↔ ∃ i w, ws !! i = Some w ∧ hand w = Some c.
Proof.
  unfold in_hand. rewrite list_elem_of_omap. split.
  - intros (w & [i Hi]%list_elem_of_lookup & Hw). by exists i, w.
  - intros (i & w & Hi & Hw). exists w. split; [by eapply list_elem_of_lookup_2|done].
Qed.
Lemma hands_apart ws i k w v c d :
  NoDup (job <$> in_hand ws) → i ≠ k → ws !! i = Some w → ws !! k = Some v → hand w = Some c → hand v = Some d → job c ≠ job d.
Proof.
  intros Hn Hik Hi Hk Hw Hv E. apply worker_split in Hi as (l1 & l2 & -> & Hl & _).
  rewrite (perm_hand job _ _ _ _ Hw) in Hn. apply NoDup_cons in Hn as [Hn _]. apply Hn. rewrite E. apply list_elem_of_fmap_2.
  apply elem_in_hand. destruct (decide (k < i)%nat).
  - exists k, v. rewrite lookup_app_l in Hk by lia. by rewrite lookup_app_l by lia.
  - exists (k - 1)%nat, v. rewrite lookup_app_r in Hk |- * by lia. rewrite lookup_cons_ne_0 in Hk by lia.
    split; [|done]. rewrite <- Hk. f_equal. lia.
Qed.
Lemma actives_bounds ws : 0 ≤ actives ws ≤ Z.of_nat (length ws).
Proof.
  induction ws as [|w ws IH]; [done|]. rewrite actives_cons. cbn [length]. unfold active. destruct (w_pc w); lia.
Qed.
Lemma one_in_hand j ws : NoDup (job <$> in_hand ws) → (length (of_job job j (in_hand ws)) ≤ 1)%nat.
Proof.
  generalize (in_hand ws). intros cs H. induction cs as [|c cs IH]; [cbn; lia|]. apply NoDup_cons in H as [Hn H].
  unfold of_job in *. rewrite filter_cons. case_decide as Hc; [|by apply IH]. cbn. fold (of_job job j cs). rewrite of_job_none; [done|by subst].
Qed.

(** C8.  Two workers never have commands of the same job in hand, at any
    point of any run; the pending set is exactly the set of the jobs in
    hand; [m_num_running] is the number of workers that are not waiting and
    have not returned from a wait, so it stays between zero and the size of
    the pool; the pool has one worker when it was asked for fewer. *)
Theorem pool_exclusive n ls es s :
  reach (new_IceThreadPool n) ls es s →
  length (m_all_threads s) = Z.to_nat (Z.max 1 n) ∧
  (∀ i k w v c d, i ≠ k → m_all_threads s !! i = Some w → m_all_threads s !! k = Some v →
     hand w = Some c → hand v = Some d → job c ≠ job d) ∧
  (∀ j, j ∈ m_pending_jobs s ↔ ∃ i w c, m_all_threads s !! i = Some w ∧ hand w = Some c ∧ job c = j) ∧
  m_num_running s = actives (m_all_threads s) ∧ 0 ≤ m_num_running s ≤ Z.max 1 n.
Proof.
  intros Hr. destruct (reach_ok job _ _ _ _ (new_pool_ok job n) Hr) as [_ Hp Hx Hn].
  pose proof (reach_threads job _ _ _ _ Hr) as Hl. rewrite new_pool_size in Hl. split_and!; [done| | |done|..].
  - intros i k w v c d. by apply hands_apart.
  - intros j. rewrite Hp, list_elem_of_fmap. split.
    + intros (c & -> & (i & w & Hi & Hw)%elem_in_hand). by exists i, w, c.
    + intros (i & w & c & Hi & Hw & <-). exists c. split; [done|]. apply elem_in_hand. by exists i, w.
  - rewrite Hn. apply actives_bounds.
  - rewrite Hn. pose proof (actives_bounds (m_all_threads s)). lia.
Qed.

(** C9.  The commands of one job are executed one at a time, each once, in
    the order in which they were added: at any point of any run they are
    those finished, at most one in hand, and those still queued. *)
Theorem pool_job_order n ls es s j :
  reach (new_IceThreadPool n) ls es s →
  of_job job j (added ls) =
    of_job job j (finished es) ++ of_job job j (in_hand (m_all_threads s)) ++ of_job job j (m_requests_queue s) ∧
  of_job job j (started es) = of_job job j (finished es) ++ of_job job j (in_hand (m_all_threads s)) ∧
  (length (of_job job j (in_hand (m_all_threads s))) ≤ 1)%nat.
Proof.
  intros Hr. destruct (reach_order job _ _ _ _ Hr j) as [Ha Hs].
  pose proof (ok_exclusive job _ (reach_ok job _ _ _ _ (new_pool_ok job n) Hr)).
  split_and!; [by rewrite Ha, Hs, (assoc_L (++))|done|by apply one_in_hand].
Qed.

(** C10.  No command is left behind: from any state of a pool that nobody
    stops, the workers alone can make only a bounded number of steps, and
    where they can make no more every command that was added has been
    executed, in order within each job, and all workers sleep.  So no
    notification is lost. *)
Theorem pool_drains n ls es s :
  reach (new_IceThreadPool n) ls es s → Forall calm ls →
  ∃ bound, ∀ ls' es' s', reach s ls' es' s' → Forall working ls' →
    (length ls' ≤ bound)%nat ∧
    ((∀ s'', ¬ work s' s'') →
     get_command_count s' = 0 ∧ Forall (λ w, w_pc w = Asleep) (m_all_threads s') ∧
     ∀ j, of_job job j (finished (es ++ es')) = of_job job j (added ls)).
Proof.
  intros Hr Hc. exists (measure s). intros ls' es' s' Hr' Hw. pose proof (reach_app (ThreadPool.step job) _ _ _ _ _ _ _ Hr Hr') as Hr2.
  split; [pose proof (reach_bounded (ThreadPool.step job) measure working _ _ _ _ (work_decreases_step job) Hr' Hw); lia|]. intros Hend.
  assert (lively job s') as Hl. { apply (reach_lively job n _ _ _ Hr2), Forall_app. by split; [|apply working_calm]. }
  destruct (lively_end job s' Hl (reach_ok job _ _ _ _ (new_pool_ok job n) Hr2) Hend) as (Hq & Hh & Ha).
  split_and!; [unfold get_command_count; by rewrite Hq|done|]. intros j. destruct (reach_order job _ _ _ _ Hr2 j) as [E1 E2].
  rewrite Hq, Hh in *. rewrite added_app, (working_added ls' Hw) in E1. cbn in E1, E2. rewrite !app_nil_r in *. by rewrite E1, E2.
Qed.

(** [stopAllThreads] returns when no worker is between its test of the
    flag and its wait at the moment of the notification: the workers then
    make a bounded number of steps, after which all have ended and
    [join_all] returns. *)
Theorem stop_returns n ls es s s1 e1 :
  reach (new_IceThreadPool n) ls es s → exited s = false →
  stop_caller s = Stopping (length (m_all_threads s)) → Forall (λ w, w_pc w ≠ Locking) (m_all_threads s) →
  step StopAll s = Some (s1, e1) →
  ∃ bound, ∀ ls' es' s', reach s1 ls' es' s' → Forall working ls' →
    (length ls' ≤ bound)%nat ∧ ((∀ s'', ¬ work s' s'') → step StopAll s' = Some (set_stopper Joined s', [])).
Proof.
  intros Hr Hx Hst Hlock H1. unfold ThreadPool.step, stop_step in H1. rewrite Hx, Hst, lookup_ge_None_2 in H1 by done. injection H1 as <- <-.
  pose proof (reach_stops job _ _ _ _ Hr) as Hf. unfold stops, flags in Hf. rewrite Hst, take_ge, Forall_fmap in Hf by (by rewrite length_fmap).
  assert (leaving (set_stopper Joining (notify_all s))) as Hl.
  { split; [done..|]. cbn. apply Forall_fmap. apply Forall_lookup. intros i w Hi. pose proof (Forall_lookup_1 _ _ _ _ Hf Hi) as Hw.
    pose proof (Forall_lookup_1 _ _ _ _ Hlock Hi) as Hp. unfold wake, clear_of_wait. cbn in *. destruct w as [[] ? ?]; by split_and!. }
  eexists. intros ls' es' s' Hr' Hw. split; [pose proof (reach_bounded (ThreadPool.step job) measure working _ _ _ _ (work_decreases_step job) Hr' Hw) as Hb; etrans; [|exact Hb]; lia|].
  intros Hend. pose proof (reach_invariant (ThreadPool.step job) leaving working _ _ _ _ (leaving_step job) Hl Hr' Hw) as Hl'.
  unfold ThreadPool.step. rewrite (le_here _ Hl'). by rewrite (leaving_end job _ Hl' Hend).
Qed.

(** C40.  A notification that comes too early is lost: in a pool of any size
    the workers may pass their test, then be stopped and notified, and only
    then go to sleep.  Every flag is set and [stopAllThreads] waits in
    [join_all], which cannot return, and no worker can make a step. *)
Theorem stop_hangs n :
  ∃ ls s, reach (new_IceThreadPool n) ls [] s ∧ added ls = [] ∧ exited s = false ∧ stop_caller s = Joining ∧
    Forall (λ w, m_stopped w = true) (m_all_threads s) ∧ (∀ s', ¬ work s s') ∧ step StopAll s = None.
Proof.
  destruct (late_schedule_runs job n) as (s & He & (Hx & Hq & Hst) & Ht). exists (late_schedule (Z.to_nat (Z.max 1 n))), s.
  assert (Forall (λ w, w = Worker Asleep true true) (m_all_threads s)) as Hw by (rewrite Ht; by apply Forall_replicate).
  split_and!; [by apply exec_reach| |done..| | |].
  - unfold late_schedule. rewrite !added_app. assert (∀ (L : nat → label Cmd) k m, (∀ i, adds (L i) = []) → added (L <$> seq k m) = []) as Ha.
    { intros L k m HL. revert k. induction m as [|m IH]; intros k; [done|]. change (added ([L k] ++ (L <$> seq (S k) m)) = []).
      rewrite added_app, IH. unfold added. cbn. by rewrite HL. }
    by rewrite !Ha.
  - eapply Forall_impl; [exact Hw|]. by intros ? ->.
  - intros s' (l & e & Hl & Hs). unfold ThreadPool.step in Hs. rewrite Hx in Hs. destruct l as [i|i r|i|req|]; try done;
      apply bind_Some in Hs as (w & Hi & Hs); by rewrite (Forall_lookup_1 _ _ _ _ Hw Hi) in Hs.
  - unfold ThreadPool.step, stop_step. rewrite Hx, Hst, Ht. replace (Z.to_nat (Z.max 1 n)) with (S (Z.to_nat (Z.max 1 n) - 1)) by lia. done.
Qed.
End spec.

(** ** A pool of two workers

    Commands are pairs of a job and a number. *)
Definition job_a : bytes := of_string "/aaa".
Definition job_b : bytes := of_string "/bbb".
Definition small_run : list (label (bytes * nat)) :=
  [Run 0; Run 0; Add (job_a, 1); Add (job_a, 2); Add (job_b, 1); Run 0; Run 1; Run 1; Run 1]%nat.
(** The workers alone, to their end. *)
Definition rest_run : list (label (bytes * nat)) :=
  [Execute 0 std_exception; Run 0; Run 0; Run 0; Execute 0 Completed; Execute 1 Completed; Run 1; Run 1; Run 1; Run 0; Run 0; Run 0; Run 1]%nat.
Definition idle_run : list (label (bytes * nat)) :=
  [Run 0; Run 0; Run 0; Run 1; Run 1; Run 1; StopAll; StopAll; StopAll]%nat.
Definition result_of (ls : list (label (bytes * nat))) : IceThreadPool (bytes * nat) * list (event (bytes * nat)) :=
  default (new_IceThreadPool 2, []) (exec (ThreadPool.step fst) ls (new_IceThreadPool 2)).
Definition pool_after ls := (result_of ls).1.
Definition events_of ls := (result_of ls).2.

(** The second command of the first job waits, that of the other job does
    not; at the end every worker sleeps. *)
Lemma small_run_events :
  events_of small_run = [Started 0 (job_a, 1); Started 1 (job_b, 1)]%nat ∧
  finished (events_of (small_run ++ rest_run)) = [(job_a, 1); (job_b, 1); (job_a, 2)]%nat ∧
  (w_pc <$> m_all_threads (pool_after (small_run ++ rest_run))) = [Asleep; Asleep].
Proof. split_and!; by vm_compute. Qed.

Lemma small_run_reach : Transition.reach (ThreadPool.step fst) (new_IceThreadPool 2) small_run (events_of small_run) (pool_after small_run).
Proof. apply exec_reach. by vm_compute. Qed.
Lemma idle_run_reach : Transition.reach (ThreadPool.step fst) (new_IceThreadPool 2) idle_run (events_of idle_run) (pool_after idle_run).
Proof. apply exec_reach. by vm_compute. Qed.

Lemma pool_exclusive_witness : length (m_all_threads (pool_after small_run)) = 2%nat ∧ m_num_running (pool_after small_run) = 2.
Proof. destruct (pool_exclusive fst 2 _ _ _ small_run_reach) as (H1 & _ & _ & H2 & _). split; [exact H1|]. rewrite H2. by vm_compute. Defined.

Lemma pool_job_order_witness :
  [(job_a, 1); (job_a, 2)]%nat =
  of_job fst job_a (finished (events_of small_run)) ++ of_job fst job_a (in_hand (m_all_threads (pool_after small_run))) ++
  of_job fst job_a (m_requests_queue (pool_after small_run)).
Proof. destruct (pool_job_order fst 2 _ _ _ job_a small_run_reach) as [H _]. rewrite <- H. by vm_compute. Defined.

Lemma pool_drains_witness : ∃ bound, ∀ ls' es' s',
  Transition.reach (ThreadPool.step fst) (pool_after small_run) ls' es' s' → Forall working ls' → (length ls' ≤ bound)%nat.
Proof.
  destruct (pool_drains fst 2 _ _ _ small_run_reach) as [bound Hb]; [by repeat constructor|].
  exists bound. intros ls' es' s' H1 H2. by destruct (Hb ls' es' s' H1 H2).
Defined.

Lemma stop_returns_witness : ∃ bound, ∀ ls' es' s',
  Transition.reach (ThreadPool.step fst) (set_stopper Joining (notify_all (pool_after idle_run))) ls' es' s' → Forall working ls' → (length ls' ≤ bound)%nat.
Proof.
  destruct (stop_returns fst 2 _ _ _ (set_stopper Joining (notify_all (pool_after idle_run))) [] idle_run_reach) as [bound Hb]; [by vm_compute|by vm_compute|by repeat constructor|by vm_compute|].
  exists bound. intros ls' es' s' H1 H2. by destruct (Hb ls' es' s' H1 H2).
Defined.
