(* ===== verification/JobDir.v ===== *)
(** * common/src/utilities/jobdir.cpp: the job directory

    Requests travel between daemons as files.  A request is written to tmp,
    renamed to new when it is complete, renamed to old by the daemon that
    takes it, and removed when it is done.  The daemon here is the job
    controller client (jobsubmission/src/controller/JobControllerClientJD.cpp),
    which after a restart goes on with the files it finds in old.

    Any number of deliveries, by any number of processes, interleave with
    the daemon; a step is one system call.  Every process may be killed
    between two steps, and calls of a delivery may fail. *)

From stdpp Require Import gmap strings.
From S2P Require Import Prelude Vectors.

(** ** The directories *)
Record JobDir := Dirs {
  tmp_dir : gmap bytes bytes;
  new_dir : gmap bytes bytes;
  old_dir : gmap bytes bytes
}.
Definition set_tmp t (d : JobDir) := Dirs t (new_dir d) (old_dir d).

(** [fs::ofstream tmp_file( tmp_path )]: created or truncated. *)
Definition open_tmp (name : bytes) (d : JobDir) : JobDir := set_tmp (<[name := []]> (tmp_dir d)) d.
Definition append_tmp (name text : bytes) (d : JobDir) : JobDir := set_tmp (alter (λ c, c ++ text) name (tmp_dir d)) d.
(** [std::rename( tmp_path, new_path )]; a file of that name is replaced. *)
Definition rename_new (name : bytes) (d : JobDir) : option JobDir :=
  c ← tmp_dir d !! name; Some (Dirs (delete name (tmp_dir d)) (<[name := c]> (new_dir d)) (old_dir d)).
Definition set_old (name : bytes) (d : JobDir) : option JobDir :=
  c ← new_dir d !! name; Some (Dirs (tmp_dir d) (delete name (new_dir d)) (<[name := c]> (old_dir d))).
Definition leafs (files : gmap bytes bytes) : list bytes := (map_to_list files).*1.
Definition new_entries (d : JobDir) : list bytes := sort id (leafs (new_dir d)).
Definition old_entries (d : JobDir) : list bytes := sort id (leafs (old_dir d)).

(** The name of a delivery: the time in ISO format, with six digits for the
    fraction of a second, the thread, and a tag.  [None] is a failed
    assertion. *)
Definition num_fractional_digits : nat := 6.
Definition file_name (iso id_str tag : bytes) : option bytes :=
  let tail := of_string "_" ++ id_str ++ (if decide (tag = []) then [] else of_string "_" ++ tag) in
  if decide (length iso = 15%nat) then Some (iso ++ of_string "." ++ replicate num_fractional_digits "0"%char ++ tail)
  else if decide (length iso = (16 + num_fractional_digits)%nat) then Some (iso ++ tail)
  else None.

(** ** A delivery

    [Writing k]: [k] characters are in the file. *)
Inductive delivery_pc := Opening | Writing (k : nat) | Renaming | Delivered | Threw | Killed.
Record delivery := Delivery { dl_name : bytes; dl_contents : bytes; dl_pc : delivery_pc }.
Definition at_pc p (d : delivery) := Delivery (dl_name d) (dl_contents d) p.

(** The next system call of [deliver]: it succeeds, a write with [n] more
    characters, or [ok] is false and the call throws. *)
Definition deliver_step (ok : bool) (n : nat) (c : delivery) (d : JobDir) : option (JobDir * delivery) :=
  match dl_pc c with
  | Opening => if ok then Some (open_tmp (dl_name c) d, at_pc (Writing 0) c) else Some (d, at_pc Threw c)
  | Writing k =>
      let text := take n (drop k (dl_contents c)) in
      let k' := (k + length text)%nat in
      Some (append_tmp (dl_name c) text d,
            at_pc (if ok then if decide (k' = length (dl_contents c)) then Renaming else Writing k' else Threw) c)
  | Renaming =>
      match rename_new (dl_name c) d with
      | Some d' => if ok then Some (d', at_pc Delivered c) else Some (d, at_pc Threw c)
      | None => Some (d, at_pc Threw c)
      end
  | Delivered | Threw | Killed => None
  end.

(** ** The job controller client *)
Record JobControllerClientJD := Client {
  jccjd_currentGood : bool;
  jccjd_current : bytes;
  jccjd_queue : list bytes
}.
(** What is left of the entries that [extract_next_request] has listed. *)
Inductive client_pc := Serving | Moving (rest : list bytes).

Definition new_JobControllerClientJD (d : JobDir) : JobControllerClientJD := Client false [] (old_entries d).
Definition push (name : bytes) (c : JobControllerClientJD) :=
  Client (jccjd_currentGood c) (jccjd_current c) (jccjd_queue c ++ [name]).
(** [None]: [front] of an empty queue is not reached. *)
Definition take_front (c : JobControllerClientJD) : option JobControllerClientJD :=
  match jccjd_queue c with [] => None | n :: _ => Some (Client true n (jccjd_queue c)) end.
Definition release_request (c : JobControllerClientJD) (d : JobDir) : JobControllerClientJD * JobDir :=
  if jccjd_currentGood c
  then (Client false (jccjd_current c) (tail (jccjd_queue c)), Dirs (tmp_dir d) (new_dir d) (delete (jccjd_current c) (old_dir d)))
  else (c, d).

(** The request is parsed by the ClassAd library from a stream on the file
    ([None] when there is no such file); the null pointer of a text that is
    no ClassAd is dereferenced. *)
Definition get_current_request {Ad} (ParseClassAd : option bytes → option Ad) (c : JobControllerClientJD) (d : JobDir) : outcome Empty_set Ad :=
  match ParseClassAd (old_dir d !! jccjd_current c) with Some ad => Ret ad | None => Stuck end.

(** One pass of the loop of [extract_next_request] with nobody else about;
    [None] when a rename fails. *)
Fixpoint move_all (names : list bytes) (c : JobControllerClientJD) (d : JobDir) : option (JobControllerClientJD * JobDir) :=
  match names with
  | [] => Some (c, d)
  | n :: names => d' ← set_old n d; move_all names (push n c) d'
  end.
Definition extract_pass (c : JobControllerClientJD) (d : JobDir) : option (JobControllerClientJD * JobDir) :=
  match jccjd_queue c with [] => move_all (new_entries d) c d | _ :: _ => Some (c, d) end.

(** ** The system

    [released] remembers the requests that were removed, in order. *)
Record system := Sys {
  dirs : JobDir;
  deliveries : list delivery;
  client : option (JobControllerClientJD * client_pc);
  released : list bytes
}.
Inductive action :=
| Call (name contents : bytes)          (* deliver is called *)
| Proceed (i : nat) (ok : bool) (n : nat)  (* the next call of a delivery *)
| Kill (i : nat)
| StartClient | KillClient
| ListNew                               (* extract_next_request, queue empty *)
| MoveNext                              (* its loop body *)
| Front                                 (* its end *)
| Release.

Definition act (a : action) (s : system) : option system :=
  match a with
  | Call name contents => Some (Sys (dirs s) (deliveries s ++ [Delivery name contents Opening]) (client s) (released s))
  | Proceed i ok n =>
      c ← deliveries s !! i; '(d, c') ← deliver_step ok n c (dirs s);
      Some (Sys d (<[i := c']> (deliveries s)) (client s) (released s))
  | Kill i =>
      c ← deliveries s !! i;
      match dl_pc c with
      | Delivered => None
      | _ => Some (Sys (dirs s) (<[i := at_pc Killed c]> (deliveries s)) (client s) (released s))
      end
  | StartClient =>
      match client s with
      | None => Some (Sys (dirs s) (deliveries s) (Some (new_JobControllerClientJD (dirs s), Serving)) (released s))
      | Some _ => None
      end
  | KillClient => Some (Sys (dirs s) (deliveries s) None (released s))
  | ListNew =>
      match client s with
      | Some (Client good cur [] as c, Serving) => Some (Sys (dirs s) (deliveries s) (Some (c, Moving (new_entries (dirs s)))) (released s))
      | _ => None
      end
  | MoveNext =>
      match client s with
      | Some (c, Moving (n :: rest)) =>
          d ← set_old n (dirs s); Some (Sys d (deliveries s) (Some (push n c, Moving rest)) (released s))
      | _ => None
      end
  | Front =>
      match client s with
      | Some (c, Moving []) =>
          match take_front c with
          | Some c' => Some (Sys (dirs s) (deliveries s) (Some (c', Serving)) (released s))
          | None => Some (Sys (dirs s) (deliveries s) (Some (c, Serving)) (released s))
          end
      | Some (c, Serving) =>
          c' ← take_front c; Some (Sys (dirs s) (deliveries s) (Some (c', Serving)) (released s))
      | _ => None
      end
  | Release =>
      match client s with
      | Some (c, Serving) =>
          if jccjd_currentGood c
          then let '(c', d) := release_request c (dirs s) in
               Some (Sys d (deliveries s) (Some (c', Serving)) (released s ++ [jccjd_current c]))
          else None
      | _ => None
      end
  end.

Definition empty_system : system := Sys (Dirs ∅ ∅ ∅) [] None [].
Inductive reachable : system → Prop :=
| reachable_init : reachable empty_system
| reachable_act a s s' : reachable s → act a s = Some s' → reachable s'.
Fixpoint acts (l : list action) (s : system) : option system :=
  match l with [] => Some s | a :: l => s' ← act a s; acts l s' end.
