(* ===== verification/JobDirProps.v ===== *)
(** * Properties of the job directory

    No request is lost, duplicated or seen half written, whatever the
    interleaving and whoever is killed; the client serves what it finds in
    order; a request that cannot be parsed stops it for good. *)

From stdpp Require Import gmap strings.
From S2P Require Import Prelude Vectors JobDir.

(** ** Where a request is *)
Record whereabouts := View { v_tmp : option bytes; v_new : option bytes; v_old : option bytes; v_released : bool }.
Definition view (s : system) (n : bytes) : whereabouts :=
  View (tmp_dir (dirs s) !! n) (new_dir (dirs s) !! n) (old_dir (dirs s) !! n) (bool_decide (n ∈ released s)).

Definition placed (v : whereabouts) (c : delivery) : Prop :=
  let x := dl_contents c in
  match dl_pc c with
  | Opening => v = View None None None false
  | Writing k => v = View (Some (take k x)) None None false ∧ (k ≤ length x)%nat
  | Renaming => v = View (Some x) None None false
  | Delivered => v = View None (Some x) None false ∨ v = View None None (Some x) false ∨ v = View None None None true
  | Threw | Killed => ∃ t, v = View t None None false
  end.

Definition client_ok (d : JobDir) (c : JobControllerClientJD) (p : client_pc) : Prop :=
  NoDup (jccjd_queue c) ∧ (∀ n, n ∈ jccjd_queue c ↔ is_Some (old_dir d !! n)) ∧
  (jccjd_currentGood c = true → head (jccjd_queue c) = Some (jccjd_current c)) ∧
  match p with
  | Serving => True
  | Moving rest => jccjd_currentGood c = false ∧ NoDup rest ∧ ∀ n, n ∈ rest → is_Some (new_dir d !! n)
  end.

Definition names (s : system) : list bytes := dl_name <$> deliveries s.
Record sys_ok (s : system) : Prop := {
  ok_placed : Forall (λ c, placed (view s (dl_name c)) c) (deliveries s);
  ok_known n : view s n ≠ View None None None false → n ∈ names s;
  ok_client : match client s with Some (c, p) => client_ok (dirs s) c p | None => True end;
  ok_released : NoDup (released s)
}.

(** Names are only added. *)
Lemma act_names a s s' : act a s = Some s' → ∃ l, names s' = names s ++ l.
Proof.
  destruct s as [d ds cl rel]. unfold names. destruct a as [n x|i ok n|i| | | | | |]; cbn.
  - intros [= <-]. cbn. exists [n]. by rewrite fmap_app.
  - intros (c & Hi & H)%bind_Some. apply bind_Some in H as ([d' c'] & H & [= <-]). exists []. cbn. rewrite app_nil_r, list_fmap_insert.
    apply list_insert_id. rewrite list_lookup_fmap, Hi. cbn. f_equal.
    unfold deliver_step in H. repeat case_match; by simplify_eq.
  - intros (c & Hi & H)%bind_Some. exists []. rewrite app_nil_r. destruct (dl_pc c); simplify_eq; cbn; rewrite ?list_fmap_insert;
      apply list_insert_id; by rewrite list_lookup_fmap, Hi.
  - destruct cl; [done|]. intros [= <-]. exists []. by rewrite app_nil_r.
  - intros [= <-]. exists []. by rewrite app_nil_r.
  - intros H. exists []. rewrite app_nil_r. repeat case_match; by simplify_eq.
  - intros H. exists []. rewrite app_nil_r. destruct cl as [[c [|[|n rest]]]|]; try done. by apply bind_Some in H as (d' & _ & [= <-]).
  - intros H. exists []. rewrite app_nil_r. destruct cl as [[c [|[|n rest]]]|]; try done.
    + by apply bind_Some in H as (c' & _ & [= <-]).
    + by destruct (take_front c); injection H as <-.
  - intros H. exists []. rewrite app_nil_r. destruct cl as [[c [|r]]|]; try done. destruct (jccjd_currentGood c) eqn:E; [|done].
    by destruct (release_request c d); injection H as <-.
Qed.

(** ** Steps of a delivery *)
Lemma delivery_ok s i c c' d :
  sys_ok s → NoDup (names s) → deliveries s !! i = Some c → dl_name c' = dl_name c →
  let s' := Sys d (<[i := c']> (deliveries s)) (client s) (released s) in
  (∀ n, n ≠ dl_name c → view s' n = view s n) → placed (view s' (dl_name c)) c' →
  (match client s with Some (k, p) => client_ok d k p | None => True end) → sys_ok s'.
Proof.
  intros [Hp Hk Hc Hr] Hnd Hi Hn s' Hv Hp' Hc'. split; [| |done..].
  - apply Forall_lookup. intros j e. cbn. rewrite list_lookup_insert_Some. intros [(-> & <- & _)|[Hj He]]; [by rewrite Hn|].
    rewrite Hv; [by apply (Forall_lookup_1 _ _ _ _ Hp He)|]. intros E. apply Hj. symmetry. eapply (NoDup_lookup (names s)); [done| |];
      unfold names; rewrite list_lookup_fmap; [by rewrite He|by rewrite Hi, E].
  - intros n. unfold names. cbn. rewrite list_fmap_insert, list_insert_id by (by rewrite list_lookup_fmap, Hi, Hn). destruct (decide (n = dl_name c)) as [->|Hne].
    + intros _. by eapply list_elem_of_fmap_2, list_elem_of_lookup_2.
    + rewrite Hv by done. apply Hk.
Qed.

Lemma take_more k n (x : bytes) : take k x ++ take n (drop k x) = take (k + length (take n (drop k x))) x.
Proof.
  rewrite length_take, length_drop, take_take_drop. destruct (decide (n ≤ length x - k)%nat); [by rewrite Nat.min_l|].
  rewrite Nat.min_r by lia. by rewrite (take_ge x (k + n)), (take_ge x (k + (length x - k))) by lia.
Qed.
Lemma client_grows d d' k p :
  old_dir d' = old_dir d → (∀ n, is_Some (new_dir d !! n) → is_Some (new_dir d' !! n)) → client_ok d k p → client_ok d' k p.
Proof. intros Ho Hn (H1 & H2 & H3 & H4). unfold client_ok. rewrite Ho. destruct p; naive_solver. Qed.
Lemma client_grows_opt d d' (c : option (JobControllerClientJD * client_pc)) :
  old_dir d' = old_dir d → (∀ n, is_Some (new_dir d !! n) → is_Some (new_dir d' !! n)) →
  match c with Some (k, p) => client_ok d k p | None => True end → match c with Some (k, p) => client_ok d' k p | None => True end.
Proof. intros Ho Hn. destruct c as [[k p]|]; [by apply client_grows|done]. Qed.

Lemma view_fields s n t m o r :
  view s n = View t m o r →
  tmp_dir (dirs s) !! n = t ∧ new_dir (dirs s) !! n = m ∧ old_dir (dirs s) !! n = o ∧ bool_decide (n ∈ released s) = r.
Proof. unfold view. by intros [= -> -> -> ->]. Qed.

Lemma proceed_ok s i ok n c d c' :
  sys_ok s → NoDup (names s) → deliveries s !! i = Some c → deliver_step ok n c (dirs s) = Some (d, c') →
  sys_ok (Sys d (<[i := c']> (deliveries s)) (client s) (released s)).
Proof.
  intros Hs Hnd Hi H. pose proof (Forall_lookup_1 _ _ _ _ (ok_placed _ Hs) Hi) as Hp. pose proof (ok_client _ Hs) as Hc.
  unfold deliver_step in H. unfold placed in Hp. destruct (dl_pc c) as [|k| | | |] eqn:Epc; try done.
  - apply view_fields in Hp as (Ht & Hn & Ho & Hr). destruct ok; injection H as <- <-; apply (delivery_ok s i c); try done.
    + intros m Hm. unfold view. cbn. by rewrite lookup_insert_ne.
    + unfold placed, view. cbn. rewrite lookup_insert_eq, Hn, Ho, Hr. split; [done|lia].
    + unfold placed, view. cbn. rewrite Ht, Hn, Ho, Hr. by eexists.
  - destruct Hp as [Hp Hk]. apply view_fields in Hp as (Ht & Hn & Ho & Hr). injection H as <- <-. apply (delivery_ok s i c); try done.
    + intros m Hm. unfold view. cbn. by rewrite lookup_alter_ne.
    + unfold placed, view. cbn. rewrite lookup_alter_eq, Ht, Hn, Ho, Hr. cbn. destruct ok; [|by eexists]. rewrite take_more.
      destruct (decide (_ = length (dl_contents c))) as [E|E]; [by rewrite E, take_ge|]. split; [done|]. rewrite length_take, length_drop. lia.
  - apply view_fields in Hp as (Ht & Hn & Ho & Hr). unfold rename_new in H. rewrite Ht in H. cbn in H.
    destruct ok; injection H as <- <-; apply (delivery_ok s i c); try done.
    + intros m Hm. unfold view. cbn. by rewrite lookup_delete_ne, lookup_insert_ne.
    + unfold placed, view. cbn. rewrite lookup_delete_eq, lookup_insert_eq, Ho, Hr. by left.
    + apply (client_grows_opt (dirs s)); [done| |exact Hc]. intros m Hm. cbn. destruct (decide (m = dl_name c)) as [->|Hne]; [by rewrite lookup_insert_eq|by rewrite lookup_insert_ne].
    + unfold placed, view. cbn. rewrite Ht, Hn, Ho, Hr. by eexists.
Qed.
Lemma kill_ok s i c :
  sys_ok s → NoDup (names s) → deliveries s !! i = Some c → dl_pc c ≠ Delivered →
  sys_ok (Sys (dirs s) (<[i := at_pc Killed c]> (deliveries s)) (client s) (released s)).
Proof.
  intros Hs Hnd Hi Hd. pose proof (Forall_lookup_1 _ _ _ _ (ok_placed _ Hs) Hi) as Hp. apply (delivery_ok s i c); try done; [|apply Hs].
  cbn. unfold placed in *. change (view (Sys _ _ _ _) ?n) with (view s n). cbn. destruct (dl_pc c); naive_solver.
Qed.
Lemma call_ok s n x :
  sys_ok s → n ∉ names s → sys_ok (Sys (dirs s) (deliveries s ++ [Delivery n x Opening]) (client s) (released s)).
Proof.
  intros [Hp Hk Hc Hr] Hn. split; [| |done..].
  - apply Forall_app. split; [done|]. constructor; [|constructor]. unfold placed. cbn. change (view (Sys _ _ _ _) ?n) with (view s n).
    destruct (view s n) as [[] [] [] []] eqn:E; try done; destruct Hn; apply Hk; by rewrite E.
  - intros m Hm. unfold names. cbn. rewrite fmap_app. apply elem_of_app. left. by apply Hk.
Qed.

(** ** Steps of the client *)
Lemma client_step_ok s d cl rel :
  let s' := Sys d (deliveries s) cl rel in
  sys_ok s → (∀ c, placed (view s (dl_name c)) c → placed (view s' (dl_name c)) c) →
  (∀ n, view s' n ≠ View None None None false → view s n ≠ View None None None false) →
  match cl with Some (k, p) => client_ok d k p | None => True end → NoDup rel → sys_ok s'.
Proof.
  intros s' [Hp Hk _ _] Hv Hn Hc Hr. split; [|intros n H; by apply Hk, Hn|done..].
  cbn. eapply Forall_impl; [exact Hp|]. intros c. apply Hv.
Qed.
Lemma client_only_ok s cl :
  sys_ok s → match cl with Some (k, p) => client_ok (dirs s) k p | None => True end → sys_ok (Sys (dirs s) (deliveries s) cl (released s)).
Proof. intros Hs Hc. apply client_step_ok; try done. apply Hs. Qed.

Lemma placed_new v c x : placed v c → v_new v = Some x → v = View None (Some x) None false ∧ dl_pc c = Delivered ∧ dl_contents c = x.
Proof. unfold placed. intros H E. destruct (dl_pc c); naive_solver. Qed.
Lemma placed_old v c x : placed v c → v_old v = Some x → v = View None None (Some x) false ∧ dl_pc c = Delivered ∧ dl_contents c = x.
Proof. unfold placed. intros H E. destruct (dl_pc c); naive_solver. Qed.
Lemma known_delivery s n : sys_ok s → view s n ≠ View None None None false → ∃ i c, deliveries s !! i = Some c ∧ dl_name c = n ∧ placed (view s n) c.
Proof.
  intros Hs Hn. apply (ok_known _ Hs) in Hn. unfold names in Hn. apply list_elem_of_fmap in Hn as (c & -> & [i Hi]%list_elem_of_lookup).
  exists i, c. split_and!; [done..|]. by apply (Forall_lookup_1 _ _ _ _ (ok_placed _ Hs) Hi).
Qed.

Lemma elem_of_leafs (m : gmap bytes bytes) n : n ∈ sort id (leafs m) ↔ is_Some (m !! n).
Proof.
  rewrite sort_perm. unfold leafs. rewrite list_elem_of_fmap. split.
  - intros ([k x] & -> & H%elem_of_map_to_list). by exists x.
  - intros [x H]. exists (n, x). split; [done|]. by apply elem_of_map_to_list.
Qed.
Lemma NoDup_leafs (m : gmap bytes bytes) : NoDup (sort id (leafs m)).
Proof. rewrite sort_perm. apply NoDup_fst_map_to_list. Qed.
Lemma sorted_leafs (m : gmap bytes bytes) : sorted id (sort id (leafs m)).
Proof. apply sort_sorted. rewrite list_fmap_id. apply NoDup_fst_map_to_list. Qed.

Lemma start_ok s : sys_ok s → sys_ok (Sys (dirs s) (deliveries s) (Some (new_JobControllerClientJD (dirs s), Serving)) (released s)).
Proof. intros Hs. apply client_only_ok; [done|]. split_and!; [apply NoDup_leafs|intros n; apply elem_of_leafs|done..]. Qed.

Lemma list_ok s c :
  sys_ok s → client s = Some (c, Serving) → jccjd_queue c = [] →
  sys_ok (Sys (dirs s) (deliveries s) (Some (c, Moving (new_entries (dirs s)))) (released s)).
Proof.
  intros Hs Hcl Hq. apply client_only_ok; [done|]. pose proof (ok_client _ Hs) as Hc. rewrite Hcl in Hc. destruct Hc as (H1 & H2 & H3 & _).
  split_and!; [done..| |apply NoDup_leafs|intros n; apply elem_of_leafs]. destruct (jccjd_currentGood c); [|done]. rewrite Hq in H3. by specialize (H3 eq_refl).
Qed.

Lemma move_ok s c n rest :
  sys_ok s → client s = Some (c, Moving (n :: rest)) →
  ∃ d, set_old n (dirs s) = Some d ∧ sys_ok (Sys d (deliveries s) (Some (push n c, Moving rest)) (released s)).
Proof.
  intros Hs Hcl. pose proof (ok_client _ Hs) as Hc. rewrite Hcl in Hc. destruct Hc as (H1 & H2 & H3 & H4 & H5 & H6).
  apply NoDup_cons in H5 as [H5 H7]. destruct (H6 n (list_elem_of_here _ _)) as [x Hx]. unfold set_old. rewrite Hx. cbn.
  destruct (known_delivery s n Hs) as (i & e & _ & He & Hp). { unfold view. by rewrite Hx. }
  destruct (placed_new _ _ x Hp Hx) as (Hv & _). apply view_fields in Hv as (Ht & _ & Ho & Hr).
  eexists. split; [reflexivity|]. apply client_step_ok; [done|..|apply Hs].
  - intros e' Hp'. destruct (decide (dl_name e' = n)) as [E|Hne]; [rewrite E in Hp' |- *|].
    + destruct (placed_new _ _ x Hp' Hx) as (_ & Hd & Hx'). unfold placed, view. rewrite Hd. cbn.
      rewrite lookup_delete_eq, lookup_insert_eq, Ht, Hr, Hx'. by right; left.
    + unfold view in *. cbn. by rewrite lookup_delete_ne, lookup_insert_ne.
  - intros m. destruct (decide (m = n)) as [->|Hne]; [by unfold view; rewrite Hx|]. unfold view. cbn. by rewrite lookup_delete_ne, lookup_insert_ne.
  - split_and!; cbn; [|intros m|by rewrite H4|done|done|].
    + apply NoDup_app. split_and!; [done| |apply NoDup_singleton]. intros m Hm ->%list_elem_of_singleton. rewrite H2, Ho in Hm. by destruct Hm.
    + rewrite elem_of_app, list_elem_of_singleton, H2. destruct (decide (m = n)) as [->|Hne].
      * rewrite lookup_insert_eq. split; [by eexists|by right].
      * rewrite lookup_insert_ne by done. naive_solver.
    + intros m Hm. rewrite lookup_delete_ne by (by intros ->). apply H6. by right.
Qed.

Lemma front_ok s c c' p :
  sys_ok s → client s = Some (c, p) → take_front c = Some c' → sys_ok (Sys (dirs s) (deliveries s) (Some (c', Serving)) (released s)).
Proof.
  intros Hs Hcl Hf. apply client_only_ok; [done|]. pose proof (ok_client _ Hs) as Hc. rewrite Hcl in Hc. destruct Hc as (H1 & H2 & _).
  unfold take_front in Hf. destruct (jccjd_queue c) as [|n q]; [done|]. injection Hf as <-. by split_and!.
Qed.

Lemma release_ok s c :
  sys_ok s → client s = Some (c, Serving) → jccjd_currentGood c = true →
  sys_ok (Sys (release_request c (dirs s)).2 (deliveries s) (Some ((release_request c (dirs s)).1, Serving)) (released s ++ [jccjd_current c])).
Proof.
  intros Hs Hcl Hg. pose proof (ok_client _ Hs) as Hc. rewrite Hcl in Hc. destruct Hc as (H1 & H2 & H3 & _). specialize (H3 Hg).
  unfold release_request. rewrite Hg. cbn. set (n := jccjd_current c) in *.
  destruct (jccjd_queue c) as [|m q] eqn:Eq; [done|]. injection H3 as ->. apply NoDup_cons in H1 as [H1 Hq].
  destruct (proj1 (H2 n) (list_elem_of_here _ _)) as [x Hx].
  destruct (known_delivery s n Hs) as (i & e & _ & He & Hp). { unfold view. rewrite Hx. by destruct (_ !! n), (_ !! n). }
  destruct (placed_old _ _ x Hp Hx) as (Hv & _). apply view_fields in Hv as (Ht & Hn & _ & Hr%bool_decide_eq_false).
  apply client_step_ok; [done|..].
  - intros e' Hp'. destruct (decide (dl_name e' = n)) as [E|Hne]; [rewrite E in Hp' |- *|].
    + destruct (placed_old _ _ x Hp' Hx) as (_ & Hd & _). unfold placed, view. rewrite Hd. cbn.
      rewrite lookup_delete_eq, Ht, Hn, bool_decide_true by (apply elem_of_app; right; by apply list_elem_of_singleton). by right; right.
    + unfold view in *. cbn. rewrite lookup_delete_ne by done. rewrite (bool_decide_ext (dl_name e' ∈ released s ++ [n]) (dl_name e' ∈ released s)); [done|].
      rewrite elem_of_app, list_elem_of_singleton. naive_solver.
  - intros k. destruct (decide (k = n)) as [->|Hne].
    + intros _. unfold view. rewrite Hx. by destruct (_ !! n), (_ !! n).
    + unfold view. cbn. rewrite lookup_delete_ne by done. rewrite (bool_decide_ext (k ∈ released s ++ [n]) (k ∈ released s)); [done|].
      rewrite elem_of_app, list_elem_of_singleton. naive_solver.
  - split_and!; cbn; [done|intros k|done..]. destruct (decide (k = n)) as [->|Hne].
    + rewrite lookup_delete_eq. split; [done|by intros [? ?]].
    + rewrite lookup_delete_ne, <- H2, elem_of_cons by done. naive_solver.
  - apply NoDup_app. split_and!; [apply Hs| |apply NoDup_singleton]. by intros k Hk ->%list_elem_of_singleton.
Qed.

Lemma act_ok a s s' : sys_ok s → NoDup (names s') → act a s = Some s' → sys_ok s'.
Proof.
  intros Hs Hnd H. destruct (act_names a s s' H) as [l El]. rewrite El in Hnd. apply NoDup_app in Hnd as (Hnd & Hl & _).
  destruct a as [n x|i ok n|i| | | | | |]; cbn in H.
  - injection H as <-. apply call_ok; [done|]. unfold names in El at 1. cbn in El. rewrite fmap_app in El. apply app_inv_head in El. subst l.
    intros Hn. apply (Hl n Hn). by apply list_elem_of_singleton.
  - apply bind_Some in H as (c & Hi & H). apply bind_Some in H as ([d c'] & H & [= <-]). by eapply proceed_ok.
  - apply bind_Some in H as (c & Hi & H). destruct (dl_pc c) eqn:E; simplify_eq; apply kill_ok; try done; by rewrite E.
  - destruct (client s); [done|]. injection H as <-. by apply start_ok.
  - injection H as <-. by apply client_only_ok.
  - destruct (client s) as [[[g cur [|m q]] [|r]]|] eqn:E; try done. injection H as <-. by apply list_ok.
  - destruct (client s) as [[c [|[|m r]]]|] eqn:E; try done. destruct (move_ok s c m r Hs E) as (d & Hd & Hok). rewrite Hd in H. by injection H as <-.
  - destruct (client s) as [[c [|[|m r]]]|] eqn:E; try done.
    + apply bind_Some in H as (c' & Hf & [= <-]). by eapply front_ok.
    + destruct (take_front c) eqn:Hf; injection H as <-; [by eapply front_ok|]. apply client_only_ok; [done|].
      pose proof (ok_client _ Hs) as Hc. rewrite E in Hc. by destruct Hc as (? & ? & ? & _).
  - destruct (client s) as [[c [|r]]|] eqn:E; try done. destruct (jccjd_currentGood c) eqn:Hg; [|done].
    pose proof (release_ok s c Hs E Hg) as Hok. destruct (release_request c (dirs s)) as [c' d]. by injection H as <-.
Qed.
Lemma reachable_ok s : reachable s → NoDup (names s) → sys_ok s.
Proof.
  induction 1 as [|a s s' Hr IH H]; intros Hnd.
  - split; cbn; [constructor|done|done|constructor].
  - eapply act_ok; [|done|exact H]. apply IH. destruct (act_names _ _ _ H) as [l E]. rewrite E in Hnd. by apply NoDup_app in Hnd as [? _].
Qed.

(** ** The client alone *)
Definition apart (d : JobDir) : Prop := ∀ n, is_Some (new_dir d !! n) → old_dir d !! n = None.
(** One round of the daemon: extract a request, work on it, release it. *)
Definition serve (c : JobControllerClientJD) (d : JobDir) : option (JobControllerClientJD * JobDir * bytes) :=
  '(c1, d1) ← extract_pass c d; c2 ← take_front c1; Some (release_request c2 d1, jccjd_current c2).
Fixpoint serve_all (k : nat) (c : JobControllerClientJD) (d : JobDir) : option (JobControllerClientJD * JobDir * list bytes) :=
  match k with
  | O => Some (c, d, [])
  | S k => '(c1, d1, n) ← serve c d; '(c2, d2, ns) ← serve_all k c1 d1; Some (c2, d2, n :: ns)
  end.

Lemma sys_apart s : sys_ok s → apart (dirs s).
Proof.
  intros Hs n [x Hx]. destruct (known_delivery s n Hs) as (i & c & _ & _ & Hp). { unfold view. by rewrite Hx. }
  destruct (placed_new _ _ x Hp Hx) as [Hv _]. by apply view_fields in Hv as (_ & _ & ? & _).
Qed.

Definition queued (q : list bytes) (d : JobDir) : Prop := NoDup q ∧ ∀ n, n ∈ q ↔ is_Some (old_dir d !! n).
Lemma queued_nil d : queued [] d → old_dir d = ∅.
Proof. intros [_ H]. apply map_empty. intros n. destruct (old_dir d !! n) eqn:E; [|done]. by destruct (proj1 (elem_of_nil _) (proj2 (H n) (ex_intro _ _ E))). Qed.

Lemma serve_queue q : ∀ g cur d, queued q d → ∃ g' cur' d',
  serve_all (length q) (Client g cur q) d = Some (Client g' cur' [], d', q) ∧ new_dir d' = new_dir d ∧ old_dir d' = ∅.
Proof.
  induction q as [|n q IH]; intros g cur d Hq; cbn [length serve_all].
  - exists g, cur, d. split_and!; [done..|]. by apply queued_nil.
  - unfold serve. cbn. destruct Hq as [[Hn Hq]%NoDup_cons Ho].
    destruct (IH false n (Dirs (tmp_dir d) (new_dir d) (delete n (old_dir d)))) as (g' & cur' & d' & -> & H1 & H2).
    { split; [done|]. intros m. cbn. destruct (decide (m = n)) as [->|Hne]; [rewrite lookup_delete_eq; split; [done|by intros [? ?]]|].
      rewrite lookup_delete_ne, <- Ho, elem_of_cons by done. naive_solver. }
    by exists g', cur', d'.
Qed.
Lemma move_all_moves ns : ∀ c d,
  NoDup ns → (∀ n, n ∈ ns → is_Some (new_dir d !! n)) → queued (jccjd_queue c) d → apart d → ∃ d',
  move_all ns c d = Some (Client (jccjd_currentGood c) (jccjd_current c) (jccjd_queue c ++ ns), d') ∧
  queued (jccjd_queue c ++ ns) d' ∧ ∀ n, new_dir d' !! n = if decide (n ∈ ns) then None else new_dir d !! n.
Proof.
  induction ns as [|n ns IH]; intros c d Hnd Hin Hq Ha; cbn [move_all].
  - exists d. rewrite app_nil_r. split_and!; [by destruct c|done|]. intros n. by rewrite decide_False by (apply not_elem_of_nil).
  - apply NoDup_cons in Hnd as [Hn Hnd]. destruct (Hin n (list_elem_of_here _ _)) as [x Hx]. unfold set_old. rewrite Hx. cbn.
    destruct (IH (push n c) (Dirs (tmp_dir d) (delete n (new_dir d)) (<[n := x]> (old_dir d)))) as (d' & E & Hq' & Hl).
    + done.
    + intros m Hm. cbn. rewrite lookup_delete_ne by (by intros ->). apply Hin. by right.
    + destruct Hq as [Hq1 Hq2]. split; cbn.
      * apply NoDup_app. split_and!; [done| |apply NoDup_singleton]. intros m Hm ->%list_elem_of_singleton.
        rewrite Hq2, Ha in Hm by (by rewrite Hx). by destruct Hm.
      * intros m. rewrite elem_of_app, list_elem_of_singleton, Hq2. destruct (decide (m = n)) as [->|Hne].
        -- rewrite lookup_insert_eq. split; [by eexists|by right].
        -- rewrite lookup_insert_ne by done. naive_solver.
    + intros m. cbn. destruct (decide (m = n)) as [->|Hne]; [rewrite lookup_delete_eq; by intros [? ?]|].
      rewrite lookup_delete_ne, lookup_insert_ne by done. apply Ha.
    + exists d'. rewrite E. cbn in *. rewrite <- (assoc_L (++)) in *. split_and!; [done|done|]. intros m. rewrite Hl. destruct (decide (m = n)) as [->|Hne].
      * rewrite (decide_True _ _ (list_elem_of_here n ns)). by destruct (decide (n ∈ ns)); [|rewrite lookup_delete_eq].
      * rewrite lookup_delete_ne by done. destruct (decide (m ∈ ns)) as [Hm|Hm].
        -- by rewrite decide_True by (by right).
        -- rewrite decide_False; [done|]. rewrite elem_of_cons. naive_solver.
Qed.
Lemma serve_all_app k1 k2 c d c1 d1 ns1 :
  serve_all k1 c d = Some (c1, d1, ns1) → serve_all (k1 + k2) c d = '(c2, d2, ns2) ← serve_all k2 c1 d1; Some (c2, d2, ns1 ++ ns2).
Proof.
  revert c d ns1. induction k1 as [|k1 IH]; intros c d ns1; cbn [serve_all Nat.add].
  - intros [= <- <- <-]. cbn. by destruct (serve_all k2 c d) as [[[? ?] ?]|].
  - intros ([[c3 d3] n] & -> & H)%bind_Some. apply bind_Some in H as ([[c4 d4] ns] & H & [= <- <- <-]). cbn. rewrite (IH _ _ _ H).
    by destruct (serve_all k2 c4 d4) as [[[? ?] ?]|].
Qed.

Lemma serve_new d g cur :
  apart d → old_dir d = ∅ → ∃ g' cur' d',
  serve_all (length (new_entries d)) (Client g cur []) d = Some (Client g' cur' [], d', new_entries d) ∧ new_dir d' = ∅ ∧ old_dir d' = ∅.
Proof.
  intros Ha Ho. destruct (move_all_moves (new_entries d) (Client g cur []) d) as (d1 & E & Hq & Hl); [apply NoDup_leafs|intros n; apply elem_of_leafs| |done|].
  { split; [constructor|]. intros n. cbn. rewrite Ho, lookup_empty. split; [by intros ?%not_elem_of_nil|by intros [? ?]]. }
  assert (new_dir d1 = ∅) as Hn1.
  { apply map_empty. intros n. rewrite Hl. case_decide as Hn; [done|]. destruct (new_dir d !! n) eqn:En; [|done]. destruct Hn. apply elem_of_leafs. by rewrite En. }
  cbn in E, Hq. destruct (new_entries d) as [|n ns] eqn:En.
  { exists g, cur, d. split_and!; [done| |done]. apply map_empty. intros n. destruct (new_dir d !! n) eqn:Ex; [|done].
    destruct (proj1 (elem_of_nil n)). rewrite <- En. apply elem_of_leafs. by rewrite Ex. }
  destruct (serve_queue (n :: ns) g cur d1 Hq) as (g' & cur' & d' & Es & H1 & H2). exists g', cur', d'.
  split_and!; [|by rewrite H1|done]. rewrite <- Es. cbn [length serve_all]. unfold serve, extract_pass. cbn [jccjd_queue]. rewrite En, E. done.
Qed.

(** ** Names

    Two deliveries of different threads, or of one thread at different times,
    have different names, since no thread id has an underscore in it. *)
Lemma file_name_inj iso iso' id id' tag tag' n :
  length iso = 22%nat → length iso' = 22%nat → "_"%char ∉ id → "_"%char ∉ id' →
  file_name iso id tag = Some n → file_name iso' id' tag' = Some n → iso = iso' ∧ id = id' ∧ tag = tag'.
Proof.
  intros Hl Hl' Hi Hi'. unfold file_name. rewrite Hl, Hl'. cbn. intros [= <-] [= E].
  apply app_inj_1 in E as [-> E]; [|lia]. injection E as E. split; [done|].
  assert (∀ a b t u : bytes, "_"%char ∉ a → "_"%char ∉ b → let f t := if decide (t = []) then [] else "_"%char :: t in a ++ f t = b ++ f u → a = b ∧ t = u) as H.
  { clear. induction a as [|x a IH]; intros [|y b] t u Ha Hb; cbn.
    - destruct (decide (t = [])), (decide (u = [])); naive_solver.
    - destruct (decide (t = [])); intros E; [done|]. injection E as <- _. by destruct Hb; left.
    - destruct (decide (u = [])); intros E; [done|]. injection E as -> _. by destruct Ha; left.
    - intros [= <- E]. apply IH in E as [-> ->]; set_solver. }
  symmetry in E. by apply H in E.
Qed.

(** ** A request that is no ClassAd *)
Definition stays (d0 : JobDir) (s : system) : Prop :=
  old_dir (dirs s) = old_dir d0 ∧
  match client s with None => True | Some (c, p) => p = Serving ∧ jccjd_queue c = old_entries d0 end.
Lemma act_stays d0 a s s' : old_entries d0 ≠ [] → stays d0 s → a ≠ Release → act a s = Some s' → stays d0 s'.
Proof.
  intros Hne [Ho Hc] Ha H. destruct a as [n x|i ok n|i| | | | | |]; cbn in H; [..|done].
  - by injection H as <-.
  - apply bind_Some in H as (c & _ & H). apply bind_Some in H as ([d c'] & H & [= <-]). split; [|done]. cbn. rewrite <- Ho.
    unfold deliver_step, rename_new in H. destruct (dl_pc c); try done; [destruct ok|destruct ok|]; try by injection H as <- <-.
    destruct (_ !! _); cbn in H; [destruct ok|]; by injection H as <- <-.
  - apply bind_Some in H as (c & _ & H). by destruct (dl_pc c); try done; injection H as <-.
  - destruct (client s); [done|]. injection H as <-. split; [done|]. cbn. split; [done|]. unfold old_entries. by rewrite Ho.
  - by injection H as <-.
  - destruct (client s) as [[[g cur [|m q]] [|r]]|]; try done. by destruct Hc as [_ E]; destruct Hne; rewrite <- E.
  - destruct (client s) as [[c [|[|m r]]]|]; try done. by destruct Hc.
  - destruct (client s) as [[c [|[|m r]]]|]; try done; [|by destruct Hc]. apply bind_Some in H as (c' & Hf & [= <-]). split; [done|].
    cbn. split; [done|]. destruct Hc as [_ <-]. unfold take_front in Hf. destruct (jccjd_queue c) eqn:E; [done|]. injection Hf as <-. by cbn.
Qed.
Lemma acts_stay d0 l : ∀ s s', old_entries d0 ≠ [] → stays d0 s → Release ∉ l → acts l s = Some s' → stays d0 s'.
Proof.
  induction l as [|a l IH]; intros s s' Hne Hs Hl H; cbn in H; [by injection H as <-|]. apply not_elem_of_cons in Hl as [Ha Hl].
  apply bind_Some in H as (s1 & H1 & H). eapply IH; [done| |done|exact H]. eapply act_stays; [done|exact Hs|done|exact H1].
Qed.

(** C7.  No request is lost, duplicated or seen half written.  Whatever the
    interleaving of deliveries and of the client, and whichever processes
    were killed, a request whose delivery returned is in exactly one place
    with its full contents: in new, in old, or released; every file in new
    and old is such a request; nothing is released twice; a running client
    has queued exactly the files in old, and the rename of the next file it
    has listed cannot fail. *)
Theorem jobdir_keeps_requests s :
  reachable s → NoDup (names s) →
  (∀ c, c ∈ deliveries s → dl_pc c = Delivered →
     view s (dl_name c) = View None (Some (dl_contents c)) None false ∨
     view s (dl_name c) = View None None (Some (dl_contents c)) false ∨
     view s (dl_name c) = View None None None true) ∧
  (∀ n x, new_dir (dirs s) !! n = Some x ∨ old_dir (dirs s) !! n = Some x →
     ∃ c, c ∈ deliveries s ∧ dl_pc c = Delivered ∧ dl_name c = n ∧ dl_contents c = x) ∧
  NoDup (released s) ∧
  (∀ c p, client s = Some (c, p) → NoDup (jccjd_queue c) ∧ ∀ n, n ∈ jccjd_queue c ↔ is_Some (old_dir (dirs s) !! n)) ∧
  (∀ c n rest, client s = Some (c, Moving (n :: rest)) → is_Some (act MoveNext s)).
Proof.
  intros Hr Hn. pose proof (reachable_ok s Hr Hn) as Hs. split_and!; [| |apply Hs|..].
  - intros c [i Hi]%list_elem_of_lookup Hd. pose proof (Forall_lookup_1 _ _ _ _ (ok_placed _ Hs) Hi) as Hp. unfold placed in Hp. by rewrite Hd in Hp.
  - intros n x Hx. destruct (known_delivery s n Hs) as (i & c & Hi & <- & Hp).
    { unfold view. destruct Hx as [-> | ->]; [done|]. by destruct (tmp_dir _ !! n), (new_dir _ !! n). }
    exists c. split; [by eapply list_elem_of_lookup_2|]. destruct Hx as [Hx|Hx]; [apply (placed_new _ _ x Hp) in Hx|apply (placed_old _ _ x Hp) in Hx]; naive_solver.
  - intros c p Hc. pose proof (ok_client _ Hs) as H. rewrite Hc in H. by destruct H as (? & ? & _).
  - intros c n rest Hc. cbn. rewrite Hc. destruct (move_ok s c n rest Hs Hc) as (d & -> & _). by eexists.
Qed.

(** C11.  The client serves everything, in order: from any reachable state, as
    many rounds as there are requests in old and new release first those in
    its queue and then those in new, by name, and leave both directories
    empty. *)
Theorem client_serves_all s c :
  reachable s → NoDup (names s) → client s = Some (c, Serving) →
  ∃ c' d', serve_all (length (jccjd_queue c) + length (new_entries (dirs s))) c (dirs s) =
             Some (c', d', jccjd_queue c ++ new_entries (dirs s)) ∧
           jccjd_queue c' = [] ∧ new_dir d' = ∅ ∧ old_dir d' = ∅ ∧ sorted id (new_entries (dirs s)).
Proof.
  intros Hr Hn Hc. pose proof (reachable_ok s Hr Hn) as Hs. pose proof (ok_client _ Hs) as Hk. rewrite Hc in Hk. destruct Hk as (Hk1 & Hk2 & _).
  destruct c as [g cur q]. destruct (serve_queue q g cur (dirs s)) as (g1 & cur1 & d1 & E1 & Hn1 & Ho1); [by split|].
  assert (apart d1) as Ha by (intros n _; by rewrite Ho1, lookup_empty).
  destruct (serve_new d1 g1 cur1 Ha Ho1) as (g2 & cur2 & d2 & E2 & Hn2 & Ho2).
  assert (new_entries d1 = new_entries (dirs s)) as En by (unfold new_entries; by rewrite Hn1). rewrite En in E2.
  exists (Client g2 cur2 []), d2. cbn. rewrite (serve_all_app _ _ _ _ _ _ _ E1), E2. split_and!; [done..|apply sorted_leafs].
Qed.

(**  A request that the ClassAd library does not parse blocks the
    client: it dies of it, whenever it is restarted it starts with the same
    request again, and deliveries do not help; the file stays until somebody
    removes it by hand. *)
Theorem unparsable_request_blocks {Ad} (ParseClassAd : option bytes → option Ad) s n rest x l s' :
  client s = None → old_entries (dirs s) = n :: rest → old_dir (dirs s) !! n = Some x → ParseClassAd (Some x) = None →
  acts l s = Some s' → Release ∉ l →
  old_dir (dirs s') = old_dir (dirs s) ∧
  ∀ c p, client s' = Some (c, p) →
    ∃ c', extract_pass c (dirs s') = Some (c, dirs s') ∧ take_front c = Some c' ∧ get_current_request ParseClassAd c' (dirs s') = Stuck.
Proof.
  intros Hc He Hx Hp Ha Hl. destruct (acts_stay (dirs s) l s s') as [Ho Hs]; [by rewrite He| |done|done|]. { split; [done|]. by rewrite Hc. }
  split; [done|]. intros c p Hcl. rewrite Hcl, He in Hs. destruct Hs as [_ Hq]. unfold extract_pass, take_front, get_current_request. rewrite Hq.
  eexists. split_and!; [done..|]. cbn. by rewrite Ho, Hx, Hp.
Qed.

(** ** A small run *)
Lemma acts_reachable l : ∀ s s', reachable s → acts l s = Some s' → reachable s'.
Proof.
  induction l as [|a l IH]; intros s s' Hr H; cbn in H; [by injection H as <-|]. apply bind_Some in H as (s1 & H1 & H).
  eapply IH; [|exact H]. by econstructor.
Qed.
Definition name_a : bytes := of_string "a_1".
Definition name_b : bytes := of_string "b_1".
(** Two deliveries; the client starts in the midst of the first. *)
Definition two_requests : list action :=
  [Call name_b (of_string "[two]"); Call name_a (of_string "one"); Proceed 0 true 0; Proceed 0 true 3; StartClient; ListNew; Front;
   Proceed 0 true 9; Proceed 0 true 0; Proceed 1 true 0; Proceed 1 true 9; Proceed 1 true 0]%nat.
Definition after (l : list action) : system := default empty_system (acts l empty_system).
Definition taken : list action := two_requests ++ [ListNew; MoveNext; MoveNext; Front; KillClient].
Definition parse_bracket (t : option bytes) : option unit := match t with Some (c :: _) => if decide (c = "["%char) then Some tt else None | _ => None end.

Lemma two_requests_run : acts two_requests empty_system = Some (after two_requests) ∧ new_entries (dirs (after two_requests)) = [name_a; name_b].
Proof. split; by vm_compute. Qed.
Lemma two_requests_reachable : reachable (after two_requests) ∧ NoDup (names (after two_requests)).
Proof.
  split; [eapply acts_reachable; [constructor|apply two_requests_run]|]. refine (bool_decide_unpack _ _). by vm_compute.
Qed.
Lemma jobdir_keeps_requests_witness : NoDup (released (after two_requests)).
Proof. by apply (jobdir_keeps_requests _ (proj1 two_requests_reachable) (proj2 two_requests_reachable)). Defined.
Lemma client_serves_all_witness : ∃ c' d',
  serve_all 2 (Client false [] []) (dirs (after two_requests)) = Some (c', d', [name_a; name_b]) ∧ new_dir d' = ∅.
Proof.
  destruct (client_serves_all (after two_requests) (Client false [] []) (proj1 two_requests_reachable) (proj2 two_requests_reachable))
    as (c' & d' & H & _ & Hn & _); [by vm_compute|].
  rewrite (proj2 two_requests_run) in H. cbn [length jccjd_queue app Nat.add] in H. exists c', d'. split; [exact H|exact Hn].
Defined.
Lemma unparsable_request_blocks_witness :
  old_dir (dirs (after (taken ++ [StartClient; Front; KillClient; StartClient]))) = old_dir (dirs (after taken)).
Proof.
  eapply (unparsable_request_blocks parse_bracket (after taken) name_a [name_b] (of_string "one") [StartClient; Front; KillClient; StartClient]);
    [by vm_compute..|]. repeat (apply not_elem_of_cons; split; [done|]). apply not_elem_of_nil.
Defined.
