(* ===== verification/Numbers.v ===== *)
(** * Numbers of the log monitor

    [boost::lexical_cast] between [long] and text, and the IEEE formats of
    [float] and [double] with the conversions between them: what the events
    of the Condor log carry and what their ClassAds keep. *)

From Stdlib Require Export SpecFloat.
From S2P Require Import Prelude Digits.

(** ** [lexical_cast<string>( long )] and [lexical_cast<long>( string )] *)

Definition long_min : Z := - 2 ^ 63.
Definition long_max : Z := 2 ^ 63 - 1.
Definition minus : ascii := "-"%char.
Definition plus : ascii := "+"%char.

Definition text_of_nonneg (n : Z) : bytes := to_digits (Z.to_nat (Z.log2 n)) 10 n.
Definition text_of_long (n : Z) : bytes :=
  if bool_decide (n < 0) then minus :: text_of_nonneg (- n) else text_of_nonneg n.

(** A sign and digits, nothing else, with a value that fits; [None] is
    [bad_lexical_cast]. *)
Definition unsigned_of_text (s : bytes) : option Z :=
  if bool_decide (s ≠ []) && forallb (is_digit 10) s then Some (digits_value 10 s) else None.
Definition in_long (n : Z) : option Z := if bool_decide (long_min ≤ n ≤ long_max) then Some n else None.
Definition long_of_text (s : bytes) : option Z :=
  match s with
  | c :: s' =>
      if bool_decide (c = minus) then n ← unsigned_of_text s'; in_long (- n)
      else if bool_decide (c = plus) then n ← unsigned_of_text s'; in_long n
      else n ← unsigned_of_text s; in_long n
  | [] => None
  end.

Example text_of_long_ex : text_of_long (-120) = of_string "-120".
Proof. reflexivity. Qed.
Example long_of_text_ex : (λ s, long_of_text (of_string s)) <$> ["1372"; "-5"; " 5"; ""; "9223372036854775808"]%string = [Some 1372; Some (-5); None; None; None].
Proof. reflexivity. Qed.

Lemma digits_value_zeros k s : digits_value 10 (replicate k "0"%char ++ s) = digits_value 10 s.
Proof. unfold digits_value. rewrite fold_left_app. f_equal. induction k as [|k IH]; [done|]. exact IH. Qed.

Section nonneg.
Context (n : Z) (Hn : 0 ≤ n).

Lemma text_of_nonneg_fixed : ∃ w, replicate (w - length (text_of_nonneg n)) "0"%char ++ text_of_nonneg n = fixed 10 w n ∧ 0 ≤ n < 10 ^ Z.of_nat w.
Proof using Hn.
  assert (n < 10 ^ Z.of_nat (S (Z.to_nat n))) as Hw.
  { rewrite Nat2Z.inj_succ, Z2Nat.id by done. apply Z.lt_trans with (10 ^ n); [apply Z.pow_gt_lin_r; lia|apply Z.pow_lt_mono_r; lia]. }
  exists (S (Z.to_nat n)). split; [|done]. apply to_digits_fixed; [lia|done|lia|].
  rewrite Nat2Z.inj_succ, Z2Nat.id by apply Z.log2_nonneg. destruct (decide (n = 0)) as [->|]; [done|]. apply Z.log2_spec. lia.
Qed.
Lemma text_of_nonneg_value : digits_value 10 (text_of_nonneg n) = n.
Proof using Hn.
  destruct text_of_nonneg_fixed as (w & E & H). rewrite <- (digits_value_zeros (w - length (text_of_nonneg n))), E. by apply (digits_value_fixed 10 ltac:(lia)).
Qed.
Lemma text_of_nonneg_digits : Forall (λ c, is_digit 10 c = true) (text_of_nonneg n).
Proof using Hn.
  destruct text_of_nonneg_fixed as (w & E & _). pose proof (fixed_digits 10 ltac:(lia) w n) as H. rewrite <- E in H. apply Forall_app in H as [_ H]. exact H.
Qed.
Lemma text_of_nonneg_cons : ∃ c s, text_of_nonneg n = c :: s.
Proof using.
  clear Hn. unfold text_of_nonneg. destruct (Z.to_nat (Z.log2 n)) as [|f]; cbn; [eauto|]. case_bool_decide; [eauto|].
  destruct (to_digits f 10 (n `div` 10)); cbn; eauto.
Qed.
Lemma unsigned_of_text_of : unsigned_of_text (text_of_nonneg n) = Some n.
Proof using Hn.
  assert (forallb (is_digit 10) (text_of_nonneg n) = true) as E.
  { apply Is_true_true, forallb_True. eapply Forall_impl; [apply text_of_nonneg_digits|]. intros c Hc. by apply Is_true_true. }
  unfold unsigned_of_text. rewrite text_of_nonneg_value, E, bool_decide_true; [done|]. by destruct text_of_nonneg_cons as (c & s & ->).
Qed.
End nonneg.

Lemma long_of_text_of n : long_min ≤ n ≤ long_max → long_of_text (text_of_long n) = Some n.
Proof.
  intros Hn. unfold text_of_long, in_long. case_bool_decide as E.
  - cbn. rewrite unsigned_of_text_of by lia. cbn. rewrite Z.opp_involutive. unfold in_long. rewrite (bool_decide_true _ Hn). reflexivity.
  - destruct (text_of_nonneg_cons n) as (c & s & Es). unfold long_of_text. rewrite Es.
    assert (is_digit 10 c = true) as Hc by (pose proof (text_of_nonneg_digits n ltac:(lia)) as H; rewrite Es in H; by inversion H).
    rewrite !bool_decide_false by (intros ->; discriminate Hc). rewrite <- Es, unsigned_of_text_of by lia. cbn. unfold in_long. rewrite (bool_decide_true _ Hn). reflexivity.
Qed.
Lemma text_of_long_chars n : Forall (λ c, c ≠ "000"%char) (text_of_long n).
Proof.
  assert (∀ n, 0 ≤ n → Forall (λ c, c ≠ "000"%char) (text_of_nonneg n)) as H.
  { intros k Hk. eapply Forall_impl; [by apply text_of_nonneg_digits|]. intros c Hc ->. discriminate Hc. }
  unfold text_of_long. case_bool_decide; [constructor; [done|]|]; apply H; lia.
Qed.

(** ** [float] and [double]

    The two IEEE formats, as mantissa and exponent; conversions round to
    the nearest value, ties to the even mantissa. *)
Definition float_format (x : spec_float) : Prop := valid_binary 24 128 x = true.
Definition convert_float (prec emax : Z) (x : spec_float) : spec_float :=
  match x with S754_finite s m e => binary_round prec emax s m e | _ => x end.
Definition to_double : spec_float → spec_float := convert_float 53 1024.
Definition to_float : spec_float → spec_float := convert_float 24 128.

(** [static_cast<long int>( double )] truncates; [None]: no defined value. *)
Definition long_of_double (x : spec_float) : option Z :=
  match x with
  | S754_zero _ => Some 0
  | S754_finite s m e => let n := Z.shiftl (Zpos m) e in in_long (if s then - n else n)
  | _ => None
  end.

Example to_double_third : to_double (S754_finite false 11184811 (-25)) = S754_finite false 6004799682117632 (-54).
Proof. vm_compute. reflexivity. Qed.
Example to_float_third : to_float (S754_finite false 6004799503160661 (-54)) = S754_finite false 11184811 (-25).
Proof. vm_compute. reflexivity. Qed.

(** A [float] goes through [double] unchanged. *)
Lemma digits_iter_xO k m : Zpos (digits2_pos (Pos.iter xO m k)) = Zpos (digits2_pos m) + Zpos k.
Proof.
  induction k as [|k IH] using Pos.peano_ind; [cbn; lia|]. rewrite Pos.iter_succ. cbn [digits2_pos]. rewrite !Pos2Z.inj_succ, IH. lia.
Qed.
Lemma iter_pos_iter {A} (f : A → A) k x : SpecFloat.iter_pos f k x = Pos.iter f x k.
Proof.
  revert x. induction k as [k IH|k IH|]; intros x; cbn; [rewrite !IH|rewrite !IH|done]; [|done].
  rewrite <- !Pos.iter_swap. done.
Qed.
Lemma iter_shr k m : SpecFloat.iter_pos shr_1 k (Build_shr_record (Zpos (Pos.iter xO m k)) false false) = Build_shr_record (Zpos m) false false.
Proof.
  rewrite iter_pos_iter. induction k as [|k IH] using Pos.peano_ind; [done|].
  rewrite (Pos.iter_succ_r _ _ shr_1), Pos.iter_succ. cbn [shr_1 orb]. exact IH.
Qed.

Section round_exact.
Context (prec emax : Z) (s : bool).
#[local] Abbreviation fexp := (fexp prec emax).

Lemma shr_fexp_id m e : fexp (Zpos (digits2_pos m) + e) ≤ e →
  shr_fexp prec emax (Zpos m) e loc_Exact = (Build_shr_record (Zpos m) false false, e).
Proof using. intros H. unfold shr_fexp. cbn [Zdigits2 shr_record_of_loc]. destruct (fexp _ - e) eqn:E; [done|lia|done]. Qed.

(** [m * 2^k] at exponent [e - k] rounds to [m] at [e], when that is its
    canonical form. *)
Lemma binary_round_down m e k : fexp (Zpos (digits2_pos m) + e) = e → e ≤ emax - prec →
  binary_round prec emax s (Pos.iter xO m k) (e - Zpos k) = S754_finite s m e.
Proof using.
  intros Hc He. unfold binary_round, shl_align. rewrite digits_iter_xO.
  replace (Zpos (digits2_pos m) + Zpos k + (e - Zpos k)) with (Zpos (digits2_pos m) + e) by lia. rewrite Hc.
  replace (e - (e - Zpos k)) with (Zpos k) by lia. unfold binary_round_aux, shr_fexp at 1. cbn [Zdigits2 shr_record_of_loc].
  rewrite digits_iter_xO. replace (Zpos (digits2_pos m) + Zpos k + (e - Zpos k)) with (Zpos (digits2_pos m) + e) by lia. rewrite Hc.
  replace (e - (e - Zpos k)) with (Zpos k) by lia. cbn [shr]. rewrite iter_shr. cbn [shr_m loc_of_shr_record round_nearest_even].
  replace (e - Zpos k + Zpos k) with e by lia. rewrite shr_fexp_id by lia. cbn [shr_m]. by rewrite (proj2 (Z.leb_le _ _)).
Qed.
(** Rounding aligns the mantissa with the canonical exponent. *)
Lemma binary_round_up m e k : fexp (Zpos (digits2_pos m) + e) = e - Zpos k → e - Zpos k ≤ emax - prec →
  binary_round prec emax s m e = S754_finite s (Pos.iter xO m k) (e - Zpos k).
Proof using.
  intros Hc He. unfold binary_round, shl_align. rewrite Hc. replace (e - Zpos k - e) with (Zneg k) by lia. unfold binary_round_aux.
  assert (fexp (Zpos (digits2_pos (Pos.iter xO m k)) + (e - Zpos k)) ≤ e - Zpos k) as H.
  { rewrite digits_iter_xO. replace (Zpos (digits2_pos m) + Zpos k + (e - Zpos k)) with (Zpos (digits2_pos m) + e) by lia. lia. }
  rewrite shr_fexp_id by done. cbn [shr_m loc_of_shr_record round_nearest_even]. rewrite shr_fexp_id by done. cbn [shr_m]. by rewrite (proj2 (Z.leb_le _ _)).
Qed.
End round_exact.

Lemma to_float_to_double x : float_format x → to_float (to_double x) = x.
Proof.
  unfold float_format, to_float, to_double. destruct x as [s|s| |s m e]; try done. cbn [valid_binary convert_float]. unfold bounded, canonical_mantissa.
  intros [Hc He]%andb_prop. apply Z.eqb_eq in Hc. apply Z.leb_le in He. pose proof Hc as Hd. unfold fexp, emin in Hd.
  assert (∃ k, fexp 53 1024 (Zpos (digits2_pos m) + e) = e - Zpos k) as [k Hk].
  { exists (Z.to_pos (e - fexp 53 1024 (Zpos (digits2_pos m) + e))). unfold fexp, emin. lia. }
  assert (Zpos k ≤ 53 + 1074) as Hk' by (unfold fexp, emin in Hk; lia).
  rewrite (binary_round_up 53 1024 s m e k Hk) by lia. cbn [convert_float]. by apply binary_round_down.
Qed.
