(* ===== verification/CondorLog.v ===== *)
(** * Events of the Condor log and their ClassAds

    What [logmonitor/Timer.cpp] and [logmonitor/EventAd.cpp] share: the
    event classes of [user_log.c++.h] with the members that the two files
    read and write, the ClassAd operations that they call, and the local
    variables of the conversions back from an ad.

    Condor and the ClassAd library are not part of the repository: the
    numbers of the events, [instantiateEvent], the C library's calendar and
    the ads are parameters.  A [set...] member of an event stores what the
    matching [get...] member answers. *)

From S2P Require Import Prelude Digits Numbers Stream FileContainer FileList.

(** ** C strings

    [char *] is [None] for [NULL].  A [std::string] that is handed to a C
    function ends at its first NUL. *)
Abbreviation cstr := (option bytes).
Definition nul : ascii := "000"%char.
Definition c_str (s : bytes) : bytes := (span (λ c, bool_decide (c ≠ nul)) s).1.
Definition NullString (c : cstr) : bytes := default [] c.
Definition myStrdup (s : bytes) : cstr := Some (c_str s).
(** [strncpy( array, s.c_str(), n )]: the characters of the array up to the
    first NUL; with [n] of them there is no NUL left. *)
Definition strncpy (s : bytes) (n : nat) : bytes := take n (c_str s).
Definition BUFSIZ : nat := Z.to_nat 8192.

Definition no_nul (s : bytes) : Prop := Forall (λ c, c ≠ nul) s.
Lemma c_str_id s : no_nul s → c_str s = s.
Proof. intros H. unfold c_str. rewrite span_all; [done|]. eapply Forall_impl; [exact H|]. intros c Hc. by rewrite bool_decide_true. Qed.
Lemma strncpy_id s n : no_nul s → (length s < n)%nat → strncpy s n = s.
Proof. intros H Hn. unfold strncpy. rewrite c_str_id by done. apply take_ge. lia. Qed.

(** ** Events *)

Record Rusage := Usage {
  ru_maxrss : Z; ru_ixrss : Z; ru_idrss : Z; ru_isrss : Z; ru_minflt : Z; ru_majflt : Z; ru_nswap : Z; ru_inblock : Z;
  ru_oublock : Z; ru_msgsnd : Z; ru_msgrcv : Z; ru_nsignals : Z; ru_nvcsw : Z; ru_nivcsw : Z;
  ru_utime : Z * Z; ru_stime : Z * Z
}.

(** The enumerators of [ULogEventNumber] that the code names. *)
Inductive ULogEventNumber :=
| ULOG_SUBMIT | ULOG_EXECUTE | ULOG_EXECUTABLE_ERROR | ULOG_CHECKPOINTED | ULOG_JOB_EVICTED | ULOG_JOB_TERMINATED
| ULOG_IMAGE_SIZE | ULOG_SHADOW_EXCEPTION | ULOG_GENERIC | ULOG_JOB_ABORTED | ULOG_JOB_SUSPENDED | ULOG_JOB_UNSUSPENDED
| ULOG_JOB_HELD | ULOG_JOB_RELEASED | ULOG_NODE_EXECUTE | ULOG_NODE_TERMINATED | ULOG_POST_SCRIPT_TERMINATED
| ULOG_GLOBUS_SUBMIT | ULOG_GLOBUS_SUBMIT_FAILED | ULOG_GLOBUS_RESOURCE_UP | ULOG_GLOBUS_RESOURCE_DOWN | ULOG_REMOTE_ERROR
| ULOG_JOB_DISCONNECTED | ULOG_JOB_RECONNECTED | ULOG_JOB_RECONNECT_FAILED | ULOG_GRID_SUBMIT | ULOG_GRID_RESOURCE_UP
| ULOG_GRID_RESOURCE_DOWN.

(** The classes derived from [ULogEvent]. *)
Inductive event_body :=
| SubmitEvent (submitEventLogNotes submitEventUserNotes : cstr)
| ExecuteEvent (executeHost : cstr)
| ExecutableErrorEvent (errType : Z)
| CheckpointedEvent (run_local_rusage run_remote_rusage : Rusage)
| JobEvictedEvent (checkpointed : bool) (sent_bytes recvd_bytes : spec_float) (terminate_and_requeued normal : bool)
    (return_value signal_number : Z) (reason core_file : cstr) (run_local_rusage run_remote_rusage : Rusage)
| JobTerminatedEvent (normal : bool) (returnValue signalNumber : Z)
    (sent_bytes recvd_bytes total_sent_bytes total_recvd_bytes : spec_float) (core_file : cstr)
    (run_local_rusage run_remote_rusage total_local_rusage total_remote_rusage : Rusage)
| JobImageSizeEvent (image_size_kb : Z)
| ShadowExceptionEvent (message : bytes) (sent_bytes recvd_bytes : spec_float)
| GenericEvent (info : bytes)
| JobAbortedEvent (reason : cstr)
| JobSuspendedEvent (num_pids : Z)
| JobUnsuspendedEvent
| JobHeldEvent (reason : cstr) (code subcode : Z)
| JobReleasedEvent (reason : cstr)
| NodeExecuteEvent (node : Z) (executeHost : cstr)
| NodeTerminatedEvent (normal : bool) (returnValue signalNumber node : Z)
    (sent_bytes recvd_bytes total_sent_bytes total_recvd_bytes : spec_float) (core_file : cstr)
    (run_local_rusage run_remote_rusage total_local_rusage total_remote_rusage : Rusage)
| PostScriptTerminatedEvent (normal : bool) (returnValue signalNumber : Z)
| GlobusSubmitEvent (rmContact jmContact : cstr) (restartableJM : bool)
| GlobusSubmitFailedEvent (reason : cstr)
| GlobusResourceUpEvent (rmContact : cstr)
| GlobusResourceDownEvent (rmContact : cstr)
| RemoteErrorEvent (execute_host daemon_name error_str : cstr) (critical_error : bool)
| JobDisconnectedEvent (startd_addr startd_name disconnect_reason no_reconnect_reason : cstr) (can_reconnect : bool)
| JobReconnectedEvent (startd_addr startd_name starter_addr : cstr)
| JobReconnectFailedEvent (startd_name reason : cstr)
| GridSubmitEvent (resourceName jobId : cstr)
| GridResourceUpEvent (resourceName : cstr)
| GridResourceDownEvent (resourceName : cstr)
(** A class whose number no [case] names. *)
| OtherEvent (number : Z).

Definition kind_of (b : event_body) : ULogEventNumber + Z :=
  match b with
  | SubmitEvent _ _ => inl ULOG_SUBMIT
  | ExecuteEvent _ => inl ULOG_EXECUTE
  | ExecutableErrorEvent _ => inl ULOG_EXECUTABLE_ERROR
  | CheckpointedEvent _ _ => inl ULOG_CHECKPOINTED
  | JobEvictedEvent _ _ _ _ _ _ _ _ _ _ _ => inl ULOG_JOB_EVICTED
  | JobTerminatedEvent _ _ _ _ _ _ _ _ _ _ _ _ => inl ULOG_JOB_TERMINATED
  | JobImageSizeEvent _ => inl ULOG_IMAGE_SIZE
  | ShadowExceptionEvent _ _ _ => inl ULOG_SHADOW_EXCEPTION
  | GenericEvent _ => inl ULOG_GENERIC
  | JobAbortedEvent _ => inl ULOG_JOB_ABORTED
  | JobSuspendedEvent _ => inl ULOG_JOB_SUSPENDED
  | JobUnsuspendedEvent => inl ULOG_JOB_UNSUSPENDED
  | JobHeldEvent _ _ _ => inl ULOG_JOB_HELD
  | JobReleasedEvent _ => inl ULOG_JOB_RELEASED
  | NodeExecuteEvent _ _ => inl ULOG_NODE_EXECUTE
  | NodeTerminatedEvent _ _ _ _ _ _ _ _ _ _ _ _ _ => inl ULOG_NODE_TERMINATED
  | PostScriptTerminatedEvent _ _ _ => inl ULOG_POST_SCRIPT_TERMINATED
  | GlobusSubmitEvent _ _ _ => inl ULOG_GLOBUS_SUBMIT
  | GlobusSubmitFailedEvent _ => inl ULOG_GLOBUS_SUBMIT_FAILED
  | GlobusResourceUpEvent _ => inl ULOG_GLOBUS_RESOURCE_UP
  | GlobusResourceDownEvent _ => inl ULOG_GLOBUS_RESOURCE_DOWN
  | RemoteErrorEvent _ _ _ _ => inl ULOG_REMOTE_ERROR
  | JobDisconnectedEvent _ _ _ _ _ => inl ULOG_JOB_DISCONNECTED
  | JobReconnectedEvent _ _ _ => inl ULOG_JOB_RECONNECTED
  | JobReconnectFailedEvent _ _ => inl ULOG_JOB_RECONNECT_FAILED
  | GridSubmitEvent _ _ => inl ULOG_GRID_SUBMIT
  | GridResourceUpEvent _ => inl ULOG_GRID_RESOURCE_UP
  | GridResourceDownEvent _ => inl ULOG_GRID_RESOURCE_DOWN
  | OtherEvent n => inr n
  end.

(** [T] is the type [struct tm]. *)
Record ULogEvent (T : Type) := Event {
  eventTime : T;
  cluster : Z;
  proc : Z;
  subproc : Z;
  body : event_body
}.
Arguments Event {T}.
Arguments eventTime {T}.
Arguments cluster {T}.
Arguments proc {T}.
Arguments subproc {T}.
Arguments body {T}.
Definition set_time {T} (t : T) (e : ULogEvent T) : ULogEvent T := Event t (cluster e) (proc e) (subproc e) (body e).

Class Condor (T : Type) := {
  (** [static_cast<int>] of an enumerator *)
  ulog : ULogEventNumber → Z;
  (** [None] is [NULL]. *)
  instantiateEvent : Z → option (ULogEvent T);
  (** What [setNoReconnectReason] makes of [can_reconnect]. *)
  after_no_reconnect : bool → bool;
  (** [mktime] also puts its argument in normal form. *)
  mktime : T → Z * T;
  localtime_r : Z → T
}.
Definition number_of {T} `{Condor T} (b : event_body) : Z :=
  match kind_of b with inl k => ulog k | inr n => n end.
Definition eventNumber {T} `{Condor T} (e : ULogEvent T) : Z := number_of (T := T) (body e).

(** ** ClassAds *)

(** Attribute names are compared without their case. *)
Definition to_lower (c : ascii) : ascii :=
  let n := N_of_ascii c in if bool_decide (65 ≤ n ≤ 90)%N then ascii_of_N (n + 32) else c.
Definition same_name (m n : bytes) : bool := bool_decide (to_lower <$> m = to_lower <$> n).

Inductive value := VStr (s : bytes) | VInt (z : Z) | VBool (b : bool) | VReal (r : spec_float).

Class EventClassAd (A : Type) := {
  ca_empty : A;
  (** [InsertAttr( name, value )] and [Insert( name, ad )] *)
  ca_InsertAttr : bytes → value → A → A;
  ca_Insert : bytes → A → A → A;
  (** [dynamic_cast<ClassAd *>( Lookup( name ) )] *)
  ca_Lookup : bytes → A → option A;
  (** [None]: the call returns false and leaves its reference alone. *)
  ca_EvaluateAttrString : bytes → A → option bytes;
  ca_EvaluateAttrInt : bytes → A → option Z;
  ca_EvaluateAttrNumber : bytes → A → option Z;
  ca_EvaluateAttrReal : bytes → A → option spec_float;
  ca_EvaluateAttrBool : bytes → A → option bool
}.

(** One insertion of a conversion, and the ad that a sequence of them
    makes. *)
Inductive insertion (A : Type) :=
| Attr (name : bytes) (v : value)
| Nested (name : bytes) (a : A).
Arguments Attr {A}.
Arguments Nested {A}.

Section ads.
Context {A : Type} `{EventClassAd A}.

Definition put (a : A) (i : insertion A) : A :=
  match i with Attr n v => ca_InsertAttr n v a | Nested n b => ca_Insert n b a end.
Definition put_all (l : list (insertion A)) (a : A) : A := fold_left put l a.
(** The kinds of argument that [InsertAttr] is called with. *)
Definition AttrS (n : bytes) (c : cstr) : insertion A := Attr n (VStr (NullString c)).
Definition AttrI (n : bytes) (z : Z) : insertion A := Attr n (VInt z).
Definition AttrB (n : bytes) (b : bool) : insertion A := Attr n (VBool b).
Definition AttrF (n : bytes) (f : spec_float) : insertion A := Attr n (VReal (to_double f)).
End ads.

(** ** The local variables of a conversion from an ad

    They keep their value, at first whatever was in memory, when an
    attribute cannot be evaluated.  [u_val] is that content of the local
    variable of the conversion of a resource usage, by the name of the
    usage. *)
Record uninitialised := Junk { u_ival : Z; u_dval : spec_float; u_bval : bool; u_val : bytes → spec_float }.
Record locals := Locals { ival : Z; dval : spec_float; sval : bytes }.
Inductive cast_error := bad_lexical_cast.

Section reading.
Context {A : Type} `{EventClassAd A}.
#[local] Abbreviation R := (M locals cast_error).

(** [EvaluateAttrString( name, sval )] *)
Definition get_string (ad : A) (name : bytes) : R bool := λ v,
  match ca_EvaluateAttrString name ad with
  | Some s => (Locals (ival v) (dval v) s, Ret true)
  | None => (v, Ret false)
  end.
(** The same, and then a use of [sval]. *)
Definition get_sval : R bytes := λ v, (v, Ret (sval v)).
Definition read_sval (ad : A) (name : bytes) : R bytes := get_string ad name;; get_sval.
(** [EvaluateAttrNumber( name, ival )] and [EvaluateAttrNumber( name, dval )]
    with a use of the variable; the [double] becomes a [float]. *)
Definition read_ival (ad : A) (name : bytes) : R Z := λ v,
  let i := default (ival v) (ca_EvaluateAttrNumber name ad) in (Locals i (dval v) (sval v), Ret i).
Definition read_float (ad : A) (name : bytes) : R spec_float := λ v,
  let d := default (dval v) (ca_EvaluateAttrReal name ad) in (Locals (ival v) d (sval v), Ret (to_float d)).
(** [lexical_cast<time_t>( sval )] *)
Definition cast_sval : R Z := λ v, match long_of_text (sval v) with Some t => (v, Ret t) | None => (v, Fail bad_lexical_cast) end.
(** Calls that evaluate into a member of the event. *)
Definition number_member (ad : A) (name : bytes) (old : Z) : Z := default old (ca_EvaluateAttrNumber name ad).
Definition bool_member (ad : A) (name : bytes) (old : bool) : bool := default old (ca_EvaluateAttrBool name ad).
End reading.

(** * Ads of events: what the conversions rely on

    The laws of the ClassAd library and of Condor that the conversions of
    events need, and the lemmas that run a conversion from an ad against the
    list of insertions that made it. *)

(** ** Laws *)

(** What an attribute of an ad is. *)
Inductive entry_of (A : Type) := Scalar (v : value) | SubAd (a : A).
Arguments Scalar {A}.
Arguments SubAd {A}.

(** Reals may lose digits in the text of an ad; a [float] survives. *)
Definition value_equiv (v w : value) : Prop :=
  match v, w with
  | VStr s, VStr s' => s = s'
  | VInt z, VInt z' => z = z'
  | VBool b, VBool b' => b = b'
  | VReal r, VReal r' => to_float r = to_float r'
  | _, _ => False
  end.
Definition entry_equiv {A} (R : A → A → Prop) (x y : entry_of A) : Prop :=
  match x, y with
  | Scalar v, Scalar w => value_equiv v w
  | SubAd a, SubAd b => R a b
  | _, _ => False
  end.
(** Values whose text can be read back: C strings, [int]s and finite
    [float]s. *)
Definition finite (x : spec_float) : Prop := match x with S754_zero _ | S754_finite _ _ _ => True | _ => False end.
Definition int_range (z : Z) : Prop := - 2 ^ 31 ≤ z < 2 ^ 31.
Definition finite_float (x : spec_float) : Prop := float_format x ∧ finite x.
Definition plain_value (v : value) : Prop :=
  match v with
  | VStr s => no_nul s
  | VInt z => int_range z
  | VBool _ => True
  | VReal r => ∃ x, finite_float x ∧ r = to_double x
  end.

Class EventAdLaws (A : Type) {HT : Converter A} {HA : EventClassAd A} := {
  ca_get : A → bytes → option (entry_of A);
  (** [ca_equiv]: the same attributes; [ca_wf]: the text can be read back. *)
  ca_equiv : A → A → Prop;
  ca_wf : A → Prop;
  get_empty n : ca_get ca_empty n = None;
  get_insert_attr m v a n : ca_get (ca_InsertAttr m v a) n = if same_name m n then Some (Scalar v) else ca_get a n;
  get_insert m b a n : ca_get (ca_Insert m b a) n = if same_name m n then Some (SubAd b) else ca_get a n;
  lookup_sub a n b : ca_get a n = Some (SubAd b) → ca_Lookup n a = Some b;
  lookup_absent a n : ca_get a n = None → ca_Lookup n a = None;
  evaluate_string a n s : ca_get a n = Some (Scalar (VStr s)) → ca_EvaluateAttrString n a = Some s;
  evaluate_int a n z : ca_get a n = Some (Scalar (VInt z)) → ca_EvaluateAttrInt n a = Some z;
  evaluate_number a n z : ca_get a n = Some (Scalar (VInt z)) → ca_EvaluateAttrNumber n a = Some z;
  evaluate_real a n r : ca_get a n = Some (Scalar (VReal r)) → ca_EvaluateAttrReal n a = Some r;
  evaluate_bool a n b : ca_get a n = Some (Scalar (VBool b)) → ca_EvaluateAttrBool n a = Some b;
  (** A string is not a number, and an absent attribute is nothing. *)
  evaluate_real_string a n s : ca_get a n = Some (Scalar (VStr s)) → ca_EvaluateAttrReal n a = None;
  evaluate_absent a n : ca_get a n = None →
    ca_EvaluateAttrString n a = None ∧ ca_EvaluateAttrNumber n a = None ∧ ca_EvaluateAttrReal n a = None ∧ ca_EvaluateAttrBool n a = None;
  ca_equiv_get a b n : ca_equiv a b → option_Forall2 (entry_equiv ca_equiv) (ca_get a n) (ca_get b n);
  ca_equiv_refl a : ca_equiv a a;
  wf_empty : ca_wf ca_empty;
  wf_insert_attr n v a : plain_value v → ca_wf a → ca_wf (ca_InsertAttr n v a);
  wf_insert n b a : ca_wf b → ca_wf a → ca_wf (ca_Insert n b a);
  ca_unparse_parse a : ca_wf a → ∃ d a', to_string a = Some d ∧ d ≠ [] ∧ from_string d = Some a' ∧ ca_equiv a a'
}.

(** Calendar times that [mktime] can represent come back from
    [localtime_r] in normal form. *)
Class CondorLaws (T : Type) {HC : Condor T} := {
  calendar : T → Prop;
  mktime_normal t : calendar t → localtime_r (mktime t).1 = (mktime t).2;
  mktime_range t : calendar t → long_min ≤ (mktime t).1 ≤ long_max;
  ulog_range k : int_range (ulog k);
  (** [instantiateEvent] makes an event of the class of the number. *)
  instantiate_kind k : ∃ e, instantiateEvent (ulog k) = Some e ∧ kind_of (body e) = inl k;
  (** A submit event starts without notes. *)
  instantiate_submit e : instantiateEvent (ulog ULOG_SUBMIT) = Some e → body e = SubmitEvent None None
}.

(** ** Ads made by insertions *)
Section insertions.
Context {A : Type} {HT : Converter A} {HA : EventClassAd A} {HAL : EventAdLaws A}.
Implicit Types (a ad : A) (l : list (insertion A)) (n : bytes).

Definition entry_in (i : insertion A) : entry_of A := match i with Attr _ v => Scalar v | Nested _ b => SubAd b end.
Definition name_in (i : insertion A) : bytes := match i with Attr m _ | Nested m _ => m end.
(** The last insertion for [n] counts. *)
Fixpoint named n l (r : option (entry_of A)) : option (entry_of A) :=
  match l with
  | [] => r
  | i :: l => named n l (if same_name (name_in i) n then Some (entry_in i) else r)
  end.
Lemma named_app n l k r : named n (l ++ k) r = named n k (named n l r).
Proof. revert r. induction l as [|i l IH]; intros r; [done|]. apply IH. Qed.
Lemma get_put_all l a n : ca_get (put_all l a) n = named n l (ca_get a n).
Proof.
  revert a. induction l as [|i l IH]; intros a; [done|]. cbn [put_all fold_left named]. change (fold_left put l (put a i)) with (put_all l (put a i)).
  rewrite IH. f_equal. destruct i; [apply get_insert_attr|apply get_insert].
Qed.

Definition plain_insertion (i : insertion A) : Prop := match i with Attr _ v => plain_value v | Nested _ b => ca_wf b end.
Lemma wf_put_all l a : Forall plain_insertion l → ca_wf a → ca_wf (put_all l a).
Proof. intros Hl. revert a. induction Hl as [|i l Hi _ IH]; intros a Ha; [done|]. apply IH. destruct i; [by apply wf_insert_attr|by apply wf_insert]. Qed.

(** [ad] has the attributes that [l] inserts, and no other. *)
Definition made_by l ad : Prop := ca_equiv (put_all l ca_empty) ad.

Section made.
Context {l ad} (Hm : made_by l ad).

Lemma made_get n x : named n l None = Some x → ∃ y, ca_get ad n = Some y ∧ entry_equiv ca_equiv x y.
Proof using Hm. intros E. pose proof (ca_equiv_get _ _ n Hm) as H. rewrite get_put_all, get_empty, E in H. inversion H; subst. eauto. Qed.
Lemma made_none n : named n l None = None → ca_get ad n = None.
Proof using Hm. intros E. pose proof (ca_equiv_get _ _ n Hm) as H. rewrite get_put_all, get_empty, E in H. by inversion H. Qed.

Lemma made_string n s : named n l None = Some (Scalar (VStr s)) → ca_EvaluateAttrString n ad = Some s.
Proof using Hm. intros (y & E & Hy)%made_get. destruct y as [[]|]; cbn in Hy; try done. subst. by apply evaluate_string. Qed.
Lemma made_int n z : named n l None = Some (Scalar (VInt z)) → ca_EvaluateAttrInt n ad = Some z.
Proof using Hm. intros (y & E & Hy)%made_get. destruct y as [[]|]; cbn in Hy; try done. subst. by apply evaluate_int. Qed.
Lemma made_number n z : named n l None = Some (Scalar (VInt z)) → ca_EvaluateAttrNumber n ad = Some z.
Proof using Hm. intros (y & E & Hy)%made_get. destruct y as [[]|]; cbn in Hy; try done. subst. by apply evaluate_number. Qed.
Lemma made_bool n b : named n l None = Some (Scalar (VBool b)) → ca_EvaluateAttrBool n ad = Some b.
Proof using Hm. intros (y & E & Hy)%made_get. destruct y as [[]|]; cbn in Hy; try done. subst. by apply evaluate_bool. Qed.
Lemma made_real n x : named n l None = Some (Scalar (VReal (to_double x))) → float_format x →
  ∃ r, ca_EvaluateAttrReal n ad = Some r ∧ to_float r = x.
Proof using Hm.
  intros (y & E & Hy)%made_get Hx. destruct y as [[]|]; cbn in Hy; try done. eexists. split; [by apply evaluate_real|].
  by rewrite <- Hy, to_float_to_double.
Qed.
Lemma made_sub n b : named n l None = Some (SubAd b) → ∃ b', ca_Lookup n ad = Some b' ∧ ca_equiv b b'.
Proof using Hm. intros (y & E & Hy)%made_get. destruct y as [|b']; cbn in Hy; [done|]. exists b'. split; [by apply lookup_sub|done]. Qed.

(** The reads of a conversion: the new value of the local variables, and
    the value that is used. *)
Lemma read_sval_made n s v : named n l None = Some (Scalar (VStr s)) → read_sval ad n v = (Locals (ival v) (dval v) s, Ret s).
Proof using Hm. intros E. unfold read_sval, get_string, mbind, M_bind. by rewrite (made_string _ _ E). Qed.
Lemma read_sval_absent n v : named n l None = None → read_sval ad n v = (v, Ret (sval v)).
Proof using Hm. intros E. unfold read_sval, get_string, mbind, M_bind. by rewrite (proj1 (evaluate_absent _ _ (made_none _ E))). Qed.
Lemma get_string_made n s v : named n l None = Some (Scalar (VStr s)) → get_string ad n v = (Locals (ival v) (dval v) s, Ret true).
Proof using Hm. intros E. unfold get_string. by rewrite (made_string _ _ E). Qed.
Lemma get_string_absent n v : named n l None = None → get_string ad n v = (v, Ret false).
Proof using Hm. intros E. unfold get_string. by rewrite (proj1 (evaluate_absent _ _ (made_none _ E))). Qed.
Lemma read_ival_made n z v : named n l None = Some (Scalar (VInt z)) → read_ival ad n v = (Locals z (dval v) (sval v), Ret z).
Proof using Hm. intros E. unfold read_ival. by rewrite (made_number _ _ E). Qed.
Lemma read_float_made n x v : named n l None = Some (Scalar (VReal (to_double x))) → float_format x →
  read_float ad n v = (Locals (ival v) (default S754_nan (ca_EvaluateAttrReal n ad)) (sval v), Ret x).
Proof using Hm. intros E Hx. destruct (made_real n x E Hx) as (r & E' & Hr). unfold read_float. by rewrite E', <- Hr. Qed.
Lemma number_member_made n z old : named n l None = Some (Scalar (VInt z)) → number_member ad n old = z.
Proof using Hm. intros E. unfold number_member. by rewrite (made_number _ _ E). Qed.
Lemma bool_member_made n b old : named n l None = Some (Scalar (VBool b)) → bool_member ad n old = b.
Proof using Hm. intros E. unfold bool_member. by rewrite (made_bool _ _ E). Qed.
Lemma number_member_absent n old : named n l None = None → number_member ad n old = old.
Proof using Hm. intros E. unfold number_member. by rewrite (proj1 (proj2 (evaluate_absent _ _ (made_none _ E)))). Qed.
Lemma bool_member_absent n old : named n l None = None → bool_member ad n old = old.
Proof using Hm. intros E. unfold bool_member. by rewrite (proj2 (proj2 (proj2 (evaluate_absent _ _ (made_none _ E))))). Qed.
Lemma read_ival_absent n v : named n l None = None → read_ival ad n v = (v, Ret (ival v)).
Proof using Hm. intros E. unfold read_ival. rewrite (proj1 (proj2 (evaluate_absent _ _ (made_none _ E)))). by destruct v. Qed.
Lemma read_float_absent n v : named n l None = None → read_float ad n v = (v, Ret (to_float (dval v))).
Proof using Hm. intros E. unfold read_float. rewrite (proj1 (proj2 (proj2 (evaluate_absent _ _ (made_none _ E))))). by destruct v. Qed.
End made.

(** Written to the file and read back. *)
Lemma made_of_text l : Forall plain_insertion l →
  ∃ d ad, to_string (put_all l ca_empty) = Some d ∧ d ≠ [] ∧ from_string d = Some ad ∧ made_by l ad.
Proof using. intros Hl. exact (ca_unparse_parse _ (wf_put_all l _ Hl wf_empty)). Qed.
End insertions.

(** One read of a conversion whose ad is [Hm : made_by l ad]: the value is
    found in [l], or the attribute is not there. *)
Ltac read_step Hm :=
  match goal with
  | |- context [number_member _ _ _] =>
      first [erewrite (number_member_made Hm) by reflexivity | rewrite (number_member_absent Hm) by reflexivity]
  | |- context [bool_member _ _ _] =>
      first [erewrite (bool_member_made Hm) by reflexivity | rewrite (bool_member_absent Hm) by reflexivity]
  | |- context [(read_sval _ _ ≫= _) _] =>
      first [erewrite bind_Ret by (apply (read_sval_made Hm); reflexivity) | erewrite bind_Ret by (apply (read_sval_absent Hm); reflexivity)]
  | |- context [(get_string _ _ ≫= _) _] =>
      first [erewrite bind_Ret by (apply (get_string_made Hm); reflexivity) | erewrite bind_Ret by (apply (get_string_absent Hm); reflexivity)]
  | |- context [(get_sval ≫= _) _] => erewrite bind_Ret by reflexivity
  | |- context [(read_ival _ _ ≫= _) _] =>
      first [erewrite bind_Ret by (apply (read_ival_made Hm); reflexivity) | erewrite bind_Ret by (apply (read_ival_absent Hm); reflexivity)]
  | |- context [(read_float _ _ ≫= _) _] =>
      first [erewrite bind_Ret by (apply (read_float_made Hm); [reflexivity|assumption]) | erewrite bind_Ret by (apply (read_float_absent Hm); reflexivity)]
  end; cbv beta iota; cbn [ival dval sval].
