(* ===== verification/TimeoutEvent.v ===== *)
(** * Timeouts: events that wait, and their ClassAds

    Model of class [TimeoutEvent] of [jobsubmission/src/logmonitor/
    Timer.{h,cpp}]: an event of the Condor log with the time at which it has
    to be looked at again, the ClassAd that keeps it in the backup file and
    the event that is made from the ClassAd after a restart.

    One definition per [case] of the two [switch] statements: [te_put_X]
    lists the insertions of [to_classad], [te_get_X] fills the fresh event of
    [to_event].  A null dereference, and a conversion of a [double] that no
    [long] can hold, are [Stuck]. *)

From S2P Require Import Prelude Digits Stream FileContainer FileList IdContainer Numbers CondorLog.

(** ** The attributes *)
Definition te_s_Timeout : bytes := of_string "Timeout".
Definition te_s_EventNumber : bytes := of_string "EventNumber".
Definition te_s_EventTime : bytes := of_string "EventTime".
Definition te_s_Cluster : bytes := of_string "Cluster".
Definition te_s_Proc : bytes := of_string "Proc".
Definition te_s_SubProc : bytes := of_string "SubProc".
Definition te_s_LogNotes : bytes := of_string "LogNotes".
Definition te_s_ExecuteHost : bytes := of_string "ExecuteHost".
Definition te_s_Node : bytes := of_string "Node".
Definition te_s_ExecErrorType : bytes := of_string "ExecErrorType".
Definition te_s_RunLocalRusage : bytes := of_string "RunLocalRusage".
Definition te_s_RunRemoteRusage : bytes := of_string "RunRemoteRusage".
Definition te_s_TotalLocalRusage : bytes := of_string "TotalLocalRusage".
Definition te_s_TotalRemoteRusage : bytes := of_string "TotalRemoteRusage".
Definition te_s_SentBytes : bytes := of_string "SentBytes".
Definition te_s_RecvdBytes : bytes := of_string "RecvdBytes".
Definition te_s_Terminate : bytes := of_string "Terminate".
Definition te_s_Normal : bytes := of_string "Normal".
Definition te_s_ReturnValue : bytes := of_string "ReturnValue".
Definition te_s_SignalNumber : bytes := of_string "SignalNumber".
Definition te_s_Reason : bytes := of_string "Reason".
Definition te_s_CoreFile : bytes := of_string "CoreFile".
Definition te_s_TotalSentBytes : bytes := of_string "TotalSentBytes".
Definition te_s_TotalRecvdBytes : bytes := of_string "TotalRecvdBytes".
Definition te_s_Size : bytes := of_string "Size".
Definition te_s_NumPids : bytes := of_string "NumPids".
Definition te_s_Message : bytes := of_string "Message".
Definition te_s_Info : bytes := of_string "Info".
Definition te_s_RmContact : bytes := of_string "RmContact".
Definition te_s_JmContact : bytes := of_string "JmContact".
Definition te_s_RestartableJM : bytes := of_string "RestartableJM".
Definition te_s_CheckPointed : bytes := of_string "CheckPointed".
Definition te_s_DaemonName : bytes := of_string "DaemonName".
Definition te_s_ErrorStr : bytes := of_string "ErrorText".
Definition te_s_CriticalError : bytes := of_string "CriticalError".
Definition te_s_ReasonCode : bytes := of_string "ReasonCode".
Definition te_s_ReasonSubCode : bytes := of_string "ReasonSubCode".
Definition te_s_UserNotes : bytes := of_string "UserNotes".
Definition te_s_StartdAddr : bytes := of_string "StartdAddr".
Definition te_s_StartdName : bytes := of_string "StartdName".
Definition te_s_StarterAddr : bytes := of_string "StartesAddr".
Definition te_s_DisconnReason : bytes := of_string "DisconnReason".
Definition te_s_NoReconnReason : bytes := of_string "NoReconnReason".
Definition te_s_CanReconn : bytes := of_string "CanReconn".
Definition te_s_ResourceName : bytes := of_string "GridResource".
Definition te_s_JobId : bytes := of_string "GridJobId".

(** ** Resource usages *)
Section usage.
Context {A : Type} `{EventClassAd A}.

(** Every member goes in as text. *)
Definition usage_insertions (ru : Rusage) : list (insertion A) :=
  (λ '(n, z), Attr (of_string n) (VStr (text_of_long z))) <$>
    [("ru_maxrss", ru_maxrss ru); ("ru_ixrss", ru_ixrss ru); ("ru_idrss", ru_idrss ru); ("ru_isrss", ru_isrss ru);
     ("ru_minflt", ru_minflt ru); ("ru_majflt", ru_majflt ru); ("ru_nswap", ru_nswap ru); ("ru_inblock", ru_inblock ru);
     ("ru_oublock", ru_oublock ru); ("ru_msgsnd", ru_msgsnd ru); ("ru_msgrcv", ru_msgrcv ru); ("ru_nsignals", ru_nsignals ru);
     ("ru_nvcsw", ru_nvcsw ru); ("ru_nivcsw", ru_nivcsw ru); ("ru_utime", (ru_utime ru).1); ("ru_stime", (ru_stime ru).1)]%string.
Definition toClassAd (ru : Rusage) : A := put_all (usage_insertions ru) ca_empty.

(** [EvaluateAttrNumber( name, val )] and [static_cast<long int>( val )]. *)
Definition usage_value (ad : A) (val : spec_float) (name : bytes) : option (spec_float * Z) :=
  let val := default val (ca_EvaluateAttrReal name ad) in
  z ← long_of_double val; Some (val, z).
Definition toRusage (ad : A) (val : spec_float) : option Rusage :=
  '(val, maxrss) ← usage_value ad val (of_string "ru_maxrss");
  '(val, ixrss) ← usage_value ad val (of_string "ru_ixrss");
  '(val, idrss) ← usage_value ad val (of_string "ru_idrss");
  '(val, isrss) ← usage_value ad val (of_string "ru_isrss");
  '(val, minflt) ← usage_value ad val (of_string "ru_minflt");
  '(val, majflt) ← usage_value ad val (of_string "ru_majflt");
  '(val, nswap) ← usage_value ad val (of_string "ru_nswap");
  '(val, inblock) ← usage_value ad val (of_string "ru_inblock");
  '(val, oublock) ← usage_value ad val (of_string "ru_oublock");
  '(val, msgsnd) ← usage_value ad val (of_string "ru_msgsnd");
  '(val, msgrcv) ← usage_value ad val (of_string "ru_msgrcv");
  '(val, nsignals) ← usage_value ad val (of_string "ru_nsignals");
  '(val, nvcsw) ← usage_value ad val (of_string "ru_nvcsw");
  '(val, nivcsw) ← usage_value ad val (of_string "ru_nivcsw");
  '(val, utime) ← usage_value ad val (of_string "ru_utime");
  '(val, stime) ← usage_value ad val (of_string "ru_stime");
  Some (Usage maxrss ixrss idrss isrss minflt majflt nswap inblock oublock msgsnd msgrcv nsignals nvcsw nivcsw (utime, 0) (stime, 0)).
End usage.

(** ** [to_classad] *)
Section to_classad.
Context {T : Type} `{Condor T} {A : Type} `{EventClassAd A}.
#[local] Abbreviation Ins := (list (insertion A)).

Definition te_put_Submit (lnotes unotes : cstr) : Ins :=
  (if lnotes is Some _ then [AttrS te_s_LogNotes lnotes] else []) ++
  (if unotes is Some _ then [AttrS te_s_UserNotes unotes] else []).
Definition te_put_ExecutableError (errType : Z) : Ins := [AttrI te_s_ExecErrorType errType].
Definition te_put_Checkpointed (local remote : Rusage) : Ins :=
  [Nested te_s_RunLocalRusage (toClassAd local); Nested te_s_RunRemoteRusage (toClassAd remote)].
Definition te_put_JobEvicted (checkpointed : bool) (sent recvd : spec_float) (terminate normal : bool)
    (return_value signal_number : Z) (reason corefile : cstr) (local remote : Rusage) : Ins :=
  [AttrB te_s_CheckPointed checkpointed; AttrF te_s_SentBytes sent; AttrF te_s_RecvdBytes recvd;
   AttrB te_s_Terminate terminate; AttrB te_s_Normal normal; AttrI te_s_ReturnValue return_value;
   AttrI te_s_SignalNumber signal_number; AttrS te_s_Reason reason; AttrS te_s_CoreFile corefile;
   Nested te_s_RunLocalRusage (toClassAd local); Nested te_s_RunRemoteRusage (toClassAd remote)].
Definition te_put_JobTerminated (normal : bool) (returnValue signalNumber : Z) (sent recvd tsent trecvd : spec_float)
    (corefile : cstr) (local remote tlocal tremote : Rusage) : Ins :=
  [AttrB te_s_Normal normal; AttrI te_s_ReturnValue returnValue; AttrI te_s_SignalNumber signalNumber;
   AttrF te_s_SentBytes sent; AttrF te_s_RecvdBytes recvd; AttrF te_s_TotalSentBytes tsent; AttrF te_s_TotalRecvdBytes trecvd;
   AttrS te_s_CoreFile corefile;
   Nested te_s_RunLocalRusage (toClassAd local); Nested te_s_RunRemoteRusage (toClassAd remote);
   Nested te_s_TotalLocalRusage (toClassAd tlocal); Nested te_s_TotalRemoteRusage (toClassAd tremote)].
Definition te_put_ImageSize (size : Z) : Ins := [AttrI te_s_Size size].
Definition te_put_ShadowException (message : bytes) (sent recvd : spec_float) : Ins :=
  [Attr te_s_Message (VStr message); AttrF te_s_SentBytes sent; AttrF te_s_RecvdBytes recvd].
Definition te_put_Generic (info : bytes) : Ins := [Attr te_s_Info (VStr info)].
Definition te_put_JobAborted (reason : cstr) : Ins := [AttrS te_s_Reason reason].
Definition te_put_JobSuspended (num_pids : Z) : Ins := [AttrI te_s_NumPids num_pids].
Definition te_put_JobHeld (reason : cstr) (code subcode : Z) : Ins :=
  [AttrS te_s_Reason reason; AttrI te_s_ReasonCode code; AttrI te_s_ReasonSubCode subcode].
Definition te_put_JobReleased (reason : cstr) : Ins := [AttrS te_s_Reason reason].
Definition te_put_NodeExecute (node : Z) : Ins := [AttrI te_s_Node node].
Definition te_put_NodeTerminated (normal : bool) (returnValue signalNumber node : Z) (sent recvd tsent trecvd : spec_float)
    (corefile : cstr) (local remote tlocal tremote : Rusage) : Ins :=
  [AttrB te_s_Normal normal; AttrI te_s_ReturnValue returnValue; AttrI te_s_SignalNumber signalNumber; AttrI te_s_Node node;
   AttrF te_s_SentBytes sent; AttrF te_s_RecvdBytes recvd; AttrF te_s_TotalSentBytes tsent; AttrF te_s_TotalRecvdBytes trecvd;
   AttrS te_s_CoreFile corefile;
   Nested te_s_RunLocalRusage (toClassAd local); Nested te_s_RunRemoteRusage (toClassAd remote);
   Nested te_s_TotalLocalRusage (toClassAd tlocal); Nested te_s_TotalRemoteRusage (toClassAd tremote)].
Definition te_put_PostScriptTerminated (normal : bool) (returnValue signalNumber : Z) : Ins :=
  [AttrB te_s_Normal normal; AttrI te_s_ReturnValue returnValue; AttrI te_s_SignalNumber signalNumber].
Definition te_put_GlobusSubmit (rmContact jmContact : cstr) (restartableJM : bool) : Ins :=
  [AttrS te_s_RmContact rmContact; AttrS te_s_JmContact jmContact; AttrB te_s_RestartableJM restartableJM].
Definition te_put_GlobusSubmitFailed (reason : cstr) : Ins := [AttrS te_s_Reason reason].
Definition te_put_GlobusResourceUp (rmContact : cstr) : Ins := [AttrS te_s_RmContact rmContact].
Definition te_put_GlobusResourceDown (rmContact : cstr) : Ins := [AttrS te_s_RmContact rmContact].
Definition te_put_RemoteError (exeHost daemonName errorStr : cstr) (critical : bool) : Ins :=
  [AttrS te_s_ExecuteHost exeHost; AttrS te_s_DaemonName daemonName; AttrS te_s_ErrorStr errorStr; AttrB te_s_CriticalError critical].
Definition te_put_JobDisconnected (startdAddr startdName disconnReason noreconnReason : cstr) (can : bool) : Ins :=
  [AttrS te_s_StartdAddr startdAddr; AttrS te_s_StartdName startdName; AttrS te_s_DisconnReason disconnReason;
   AttrS te_s_NoReconnReason noreconnReason; AttrB te_s_CanReconn can].
Definition te_put_JobReconnected (startdAddr startdName starterAddr : cstr) : Ins :=
  [AttrS te_s_StartdAddr startdAddr; AttrS te_s_StartdName startdName; AttrS te_s_StarterAddr starterAddr].
Definition te_put_JobReconnectFailed (startdName reason : cstr) : Ins := [AttrS te_s_StartdName startdName; AttrS te_s_Reason reason].
Definition te_put_GridSubmit (resourceName jobId : cstr) : Ins := [AttrS te_s_ResourceName resourceName; AttrS te_s_JobId jobId].
Definition te_put_GridResourceUp (resourceName : cstr) : Ins := [AttrS te_s_ResourceName resourceName].
Definition te_put_GridResourceDown (resourceName : cstr) : Ins := [AttrS te_s_ResourceName resourceName].

(** The [switch]. *)
Definition te_put (b : event_body) : Ins :=
  match b with
  | SubmitEvent l u => te_put_Submit l u
  | ExecuteEvent _ => []
  | ExecutableErrorEvent t => te_put_ExecutableError t
  | CheckpointedEvent l r => te_put_Checkpointed l r
  | JobEvictedEvent c s r t n v g e f rl rr => te_put_JobEvicted c s r t n v g e f rl rr
  | JobTerminatedEvent n v g s r ts tr f rl rr tl tr' => te_put_JobTerminated n v g s r ts tr f rl rr tl tr'
  | JobImageSizeEvent s => te_put_ImageSize s
  | ShadowExceptionEvent m s r => te_put_ShadowException m s r
  | GenericEvent i => te_put_Generic i
  | JobAbortedEvent r => te_put_JobAborted r
  | JobSuspendedEvent n => te_put_JobSuspended n
  | JobUnsuspendedEvent => []
  | JobHeldEvent r c s => te_put_JobHeld r c s
  | JobReleasedEvent r => te_put_JobReleased r
  | NodeExecuteEvent n _ => te_put_NodeExecute n
  | NodeTerminatedEvent n v g o s r ts tr f rl rr tl tr' => te_put_NodeTerminated n v g o s r ts tr f rl rr tl tr'
  | PostScriptTerminatedEvent n v g => te_put_PostScriptTerminated n v g
  | GlobusSubmitEvent r j m => te_put_GlobusSubmit r j m
  | GlobusSubmitFailedEvent r => te_put_GlobusSubmitFailed r
  | GlobusResourceUpEvent r => te_put_GlobusResourceUp r
  | GlobusResourceDownEvent r => te_put_GlobusResourceDown r
  | RemoteErrorEvent h d e c => te_put_RemoteError h d e c
  | JobDisconnectedEvent a n d r c => te_put_JobDisconnected a n d r c
  | JobReconnectedEvent a n s => te_put_JobReconnected a n s
  | JobReconnectFailedEvent n r => te_put_JobReconnectFailed n r
  | GridSubmitEvent r j => te_put_GridSubmit r j
  | GridResourceUpEvent r => te_put_GridResourceUp r
  | GridResourceDownEvent r => te_put_GridResourceDown r
  | OtherEvent _ => []
  end.

(** The attributes of every event, then its own. *)
Definition te_insertions (timeout epoch : Z) (e : ULogEvent T) : Ins :=
  [Attr te_s_Timeout (VStr (text_of_long timeout)); AttrI te_s_EventNumber (eventNumber e);
   Attr te_s_EventTime (VStr (text_of_long epoch)); AttrI te_s_Cluster (cluster e); AttrI te_s_Proc (proc e);
   AttrI te_s_SubProc (subproc e)] ++ te_put (body e).
End to_classad.

(** ** [to_event] *)
Section to_event.
Context {T : Type} `{Condor T} {A : Type} `{EventClassAd A}.
Context (u : uninitialised) (ad : A).
#[local] Abbreviation R := (M locals cast_error).

(** [toRusage( dynamic_cast<ClassAd *>( Lookup( name ) ) )] *)
Definition te_usage (name : bytes) : R Rusage :=
  match (a ← ca_Lookup name ad; toRusage a (u_val u name)) with Some ru => mret ru | None => stuck end.

Definition te_get_Submit (lnotes unotes : cstr) : R event_body :=
  has ← get_string ad te_s_LogNotes;
  lval ← get_sval;
  let lnotes := if (has : bool) then myStrdup lval else lnotes in
  has ← get_string ad te_s_UserNotes;
  uval ← get_sval;
  let unotes := if (has : bool) then myStrdup uval else unotes in
  mret (SubmitEvent lnotes unotes).
Definition te_get_Execute : R event_body :=
  host ← read_sval ad te_s_ExecuteHost;
  mret (ExecuteEvent (myStrdup (take 128 host))).
Definition te_get_ExecutableError : R event_body :=
  t ← read_ival ad te_s_ExecErrorType;
  mret (ExecutableErrorEvent t).
Definition te_get_Checkpointed : R event_body :=
  local ← te_usage te_s_RunLocalRusage;
  remote ← te_usage te_s_RunRemoteRusage;
  mret (CheckpointedEvent local remote).
Definition te_get_JobEvicted (checkpointed terminate normal : bool) (return_value signal_number : Z) : R event_body :=
  let checkpointed := bool_member ad te_s_CheckPointed checkpointed in
  sent ← read_float ad te_s_SentBytes;
  recvd ← read_float ad te_s_RecvdBytes;
  let terminate := bool_member ad te_s_Terminate terminate in
  let normal := bool_member ad te_s_Normal normal in
  let return_value := number_member ad te_s_ReturnValue return_value in
  let signal_number := number_member ad te_s_SignalNumber signal_number in
  reason ← read_sval ad te_s_Reason;
  corefile ← read_sval ad te_s_CoreFile;
  local ← te_usage te_s_RunLocalRusage;
  remote ← te_usage te_s_RunRemoteRusage;
  mret (JobEvictedEvent checkpointed sent recvd terminate normal return_value signal_number
          (myStrdup reason) (myStrdup corefile) local remote).
Definition te_get_JobTerminated (normal : bool) (returnValue signalNumber : Z) : R event_body :=
  let normal := bool_member ad te_s_Normal normal in
  let returnValue := number_member ad te_s_ReturnValue returnValue in
  let signalNumber := number_member ad te_s_SignalNumber signalNumber in
  sent ← read_float ad te_s_SentBytes;
  recvd ← read_float ad te_s_RecvdBytes;
  tsent ← read_float ad te_s_TotalSentBytes;
  trecvd ← read_float ad te_s_TotalRecvdBytes;
  corefile ← read_sval ad te_s_CoreFile;
  local ← te_usage te_s_RunLocalRusage;
  remote ← te_usage te_s_RunRemoteRusage;
  tlocal ← te_usage te_s_TotalLocalRusage;
  tremote ← te_usage te_s_TotalRemoteRusage;
  mret (JobTerminatedEvent normal returnValue signalNumber sent recvd tsent trecvd (myStrdup corefile) local remote tlocal tremote).
(** The number goes into a local variable [size]: the event is left as it is. *)
Definition te_get_ImageSize (image_size_kb : Z) : R event_body :=
  let size := number_member ad te_s_Size image_size_kb in
  mret (JobImageSizeEvent image_size_kb).
Definition te_get_ShadowException : R event_body :=
  message ← read_sval ad te_s_Message;
  sent ← read_float ad te_s_SentBytes;
  recvd ← read_float ad te_s_RecvdBytes;
  mret (ShadowExceptionEvent (strncpy message BUFSIZ) sent recvd).
Definition te_get_Generic : R event_body :=
  info ← read_sval ad te_s_Info;
  mret (GenericEvent (strncpy info 128)).
Definition te_get_JobAborted : R event_body :=
  reason ← read_sval ad te_s_Reason;
  mret (JobAbortedEvent (myStrdup reason)).
Definition te_get_JobSuspended (num_pids : Z) : R event_body :=
  mret (JobSuspendedEvent (number_member ad te_s_NumPids num_pids)).
Definition te_get_JobHeld : R event_body :=
  reason ← read_sval ad te_s_Reason;
  code ← read_ival ad te_s_ReasonCode;
  subcode ← read_ival ad te_s_ReasonSubCode;
  mret (JobHeldEvent (myStrdup reason) code subcode).
Definition te_get_JobReleased : R event_body :=
  reason ← read_sval ad te_s_Reason;
  mret (JobReleasedEvent (myStrdup reason)).
Definition te_get_NodeExecute (node : Z) : R event_body :=
  let node := number_member ad te_s_Node node in
  host ← read_sval ad te_s_ExecuteHost;
  mret (NodeExecuteEvent node (myStrdup (take 128 host))).
Definition te_get_NodeTerminated (normal : bool) (returnValue signalNumber node : Z) : R event_body :=
  let normal := bool_member ad te_s_Normal normal in
  let returnValue := number_member ad te_s_ReturnValue returnValue in
  let signalNumber := number_member ad te_s_SignalNumber signalNumber in
  let node := number_member ad te_s_Node node in
  sent ← read_float ad te_s_SentBytes;
  recvd ← read_float ad te_s_RecvdBytes;
  tsent ← read_float ad te_s_TotalSentBytes;
  trecvd ← read_float ad te_s_TotalRecvdBytes;
  corefile ← read_sval ad te_s_CoreFile;
  local ← te_usage te_s_RunLocalRusage;
  remote ← te_usage te_s_RunRemoteRusage;
  tlocal ← te_usage te_s_TotalLocalRusage;
  tremote ← te_usage te_s_TotalRemoteRusage;
  mret (NodeTerminatedEvent normal returnValue signalNumber node sent recvd tsent trecvd (myStrdup corefile) local remote tlocal tremote).
Definition te_get_PostScriptTerminated (normal : bool) (returnValue signalNumber : Z) : R event_body :=
  mret (PostScriptTerminatedEvent (bool_member ad te_s_Normal normal) (number_member ad te_s_ReturnValue returnValue)
          (number_member ad te_s_SignalNumber signalNumber)).
Definition te_get_GlobusSubmit (restartableJM : bool) : R event_body :=
  let restartableJM := bool_member ad te_s_RestartableJM restartableJM in
  rmContact ← read_sval ad te_s_RmContact;
  jmContact ← read_sval ad te_s_JmContact;
  mret (GlobusSubmitEvent (myStrdup rmContact) (myStrdup jmContact) restartableJM).
Definition te_get_GlobusSubmitFailed : R event_body :=
  reason ← read_sval ad te_s_Reason;
  mret (GlobusSubmitFailedEvent (myStrdup reason)).
Definition te_get_GlobusResourceUp : R event_body :=
  rmContact ← read_sval ad te_s_RmContact;
  mret (GlobusResourceUpEvent (myStrdup rmContact)).
Definition te_get_GlobusResourceDown : R event_body :=
  rmContact ← read_sval ad te_s_RmContact;
  mret (GlobusResourceDownEvent (myStrdup rmContact)).
Definition te_get_RemoteError : R event_body :=
  host ← read_sval ad te_s_ExecuteHost;
  daemon ← read_sval ad te_s_DaemonName;
  text ← read_sval ad te_s_ErrorStr;
  mret (RemoteErrorEvent (myStrdup host) (myStrdup daemon) (myStrdup text) (bool_member ad te_s_CriticalError (u_bval u))).
Definition te_get_JobDisconnected (can : bool) : R event_body :=
  startdAddr ← read_sval ad te_s_StartdAddr;
  startdName ← read_sval ad te_s_StartdName;
  disconnReason ← read_sval ad te_s_DisconnReason;
  noreconnReason ← read_sval ad te_s_NoReconnReason;
  mret (JobDisconnectedEvent (myStrdup startdAddr) (myStrdup startdName) (myStrdup disconnReason) (myStrdup noreconnReason)
          (after_no_reconnect can)).
Definition te_get_JobReconnected : R event_body :=
  startdAddr ← read_sval ad te_s_StartdAddr;
  startdName ← read_sval ad te_s_StartdName;
  starterAddr ← read_sval ad te_s_StarterAddr;
  mret (JobReconnectedEvent (myStrdup startdAddr) (myStrdup startdName) (myStrdup starterAddr)).
Definition te_get_JobReconnectFailed : R event_body :=
  startdName ← read_sval ad te_s_StartdName;
  reason ← read_sval ad te_s_Reason;
  mret (JobReconnectFailedEvent (myStrdup startdName) (myStrdup reason)).
Definition te_get_GridSubmit : R event_body :=
  resourceName ← read_sval ad te_s_ResourceName;
  jobId ← read_sval ad te_s_JobId;
  mret (GridSubmitEvent (myStrdup resourceName) (myStrdup jobId)).
Definition te_get_GridResourceUp : R event_body :=
  resourceName ← read_sval ad te_s_ResourceName;
  mret (GridResourceUpEvent (myStrdup resourceName)).
Definition te_get_GridResourceDown : R event_body :=
  resourceName ← read_sval ad te_s_ResourceName;
  mret (GridResourceDownEvent (myStrdup resourceName)).

(** The [switch], on the fresh event. *)
Definition te_get (fresh : event_body) : R event_body :=
  match fresh with
  | SubmitEvent l n => te_get_Submit l n
  | ExecuteEvent _ => te_get_Execute
  | ExecutableErrorEvent _ => te_get_ExecutableError
  | CheckpointedEvent _ _ => te_get_Checkpointed
  | JobEvictedEvent c _ _ t n v g _ _ _ _ => te_get_JobEvicted c t n v g
  | JobTerminatedEvent n v g _ _ _ _ _ _ _ _ _ => te_get_JobTerminated n v g
  | JobImageSizeEvent s => te_get_ImageSize s
  | ShadowExceptionEvent _ _ _ => te_get_ShadowException
  | GenericEvent _ => te_get_Generic
  | JobAbortedEvent _ => te_get_JobAborted
  | JobSuspendedEvent n => te_get_JobSuspended n
  | JobUnsuspendedEvent => mret JobUnsuspendedEvent
  | JobHeldEvent _ _ _ => te_get_JobHeld
  | JobReleasedEvent _ => te_get_JobReleased
  | NodeExecuteEvent n _ => te_get_NodeExecute n
  | NodeTerminatedEvent n v g o _ _ _ _ _ _ _ _ _ => te_get_NodeTerminated n v g o
  | PostScriptTerminatedEvent n v g => te_get_PostScriptTerminated n v g
  | GlobusSubmitEvent _ _ r => te_get_GlobusSubmit r
  | GlobusSubmitFailedEvent _ => te_get_GlobusSubmitFailed
  | GlobusResourceUpEvent _ => te_get_GlobusResourceUp
  | GlobusResourceDownEvent _ => te_get_GlobusResourceDown
  | RemoteErrorEvent _ _ _ _ => te_get_RemoteError
  | JobDisconnectedEvent _ _ _ _ c => te_get_JobDisconnected c
  | JobReconnectedEvent _ _ _ => te_get_JobReconnected
  | JobReconnectFailedEvent _ _ => te_get_JobReconnectFailed
  | GridSubmitEvent _ _ => te_get_GridSubmit
  | GridResourceUpEvent _ => te_get_GridResourceUp
  | GridResourceDownEvent _ => te_get_GridResourceDown
  | OtherEvent n => mret (OtherEvent n)
  end.

(** The whole body of the function: the timeout and the event. *)
Definition te_read : R (Z * ULogEvent T) :=
  number ← read_ival ad te_s_EventNumber;
  get_string ad te_s_Timeout;;
  timeout ← cast_sval;
  match instantiateEvent number with
  | None => stuck
  | Some fresh =>
      get_string ad te_s_EventTime;;
      tval ← cast_sval;
      b ← te_get (body fresh);
      mret (timeout, Event (localtime_r tval) (number_member ad te_s_Cluster (cluster fresh))
                       (number_member ad te_s_Proc (proc fresh)) (number_member ad te_s_SubProc (subproc fresh)) b)
  end.
(** [string] starts empty, the numbers are not initialised. *)
Definition te_locals : locals := Locals (u_ival u) (u_dval u) [].
End to_event.

(** ** The class *)
Record TimeoutEvent (T A : Type) := Timeout {
  te_epoch : Z;
  te_event : option (ULogEvent T);
  te_classad : option A;
  te_pointer : FLIterator A
}.
Arguments Timeout {T A}.
Arguments te_epoch {T A}.
Arguments te_event {T A}.
Arguments te_classad {T A}.
Arguments te_pointer {T A}.

Section timeout_event.
Context {T : Type} `{Condor T} {A : Type} `{EventClassAd A}.
Implicit Types te : TimeoutEvent T A.

(** [TimeoutEvent( epoch, event )] and [TimeoutEvent( ad )]. *)
Definition TimeoutEvent_new (epoch : Z) (event : ULogEvent T) : TimeoutEvent T A := Timeout epoch (Some event) None fli_null.
Definition TimeoutEvent_of_ad (ad : A) : TimeoutEvent T A := Timeout 0 None (Some ad) fli_null.
(** [pointer( ptr )] *)
Definition set_pointer (p : FLIterator A) te : TimeoutEvent T A := Timeout (te_epoch te) (te_event te) (te_classad te) (fli_assign p).

Definition to_classad te : option (TimeoutEvent T A * A) :=
  match te_classad te, te_event te with
  | Some ad, _ => Some (te, ad)
  | None, Some e =>
      let '(epoch, t) := mktime (eventTime e) in
      let ad := put_all (te_insertions (te_epoch te) epoch e) ca_empty in
      Some (Timeout (te_epoch te) (Some (set_time t e)) (Some ad) (te_pointer te), ad)
  | None, None => None
  end.
Definition to_event (u : uninitialised) te : outcome cast_error (TimeoutEvent T A * ULogEvent T) :=
  match te_event te, te_classad te with
  | Some e, _ => Ret (te, e)
  | None, None => Stuck
  | None, Some ad =>
      match te_read u ad (te_locals u) with
      | (_, Ret (timeout, e)) => Ret (Timeout timeout (Some e) (te_classad te) (te_pointer te), e)
      | (_, Fail err) => Fail err
      | (_, Stuck) => Stuck
      end
  end.
(** [timeout()] and [expired()]; [now] is what [time( NULL )] answers. *)
Definition timeout (u : uninitialised) te : outcome cast_error (TimeoutEvent T A * Z) :=
  match to_event u te with
  | Ret (te, _) => Ret (te, te_epoch te)
  | Fail e => Fail e
  | Stuck => Stuck
  end.
Definition expired (u : uninitialised) (now : Z) te : outcome cast_error (TimeoutEvent T A * bool) :=
  match to_event u te with
  | Ret (te, _) => Ret (te, bool_decide (te_epoch te ≤ now))
  | Fail e => Fail e
  | Stuck => Stuck
  end.
End timeout_event.
