(* ===== verification/TimeoutEventProps.v ===== *)
(** * What comes back of a timeout

    [to_event] on the ad that [to_classad] made, once it has been written to
    the backup file and read back: [restored] says, for every kind of event,
    what the members are. *)

From S2P Require Import Prelude Digits Stream FileContainer FileList IdContainer Numbers CondorLog TimeoutEvent.

(** ** Events that can be written *)
Definition good_cstr (c : cstr) : Prop := match c with Some s => no_nul s | None => True end.

(** Numbers of the width of their C type, strings without NUL, finite
    [float]s, character arrays with their final NUL. *)
Definition good_body (b : event_body) : Prop :=
  match b with
  | SubmitEvent l n => good_cstr l ∧ good_cstr n
  | ExecuteEvent _ => True
  | ExecutableErrorEvent t => int_range t
  | CheckpointedEvent _ _ => True
  | JobEvictedEvent _ s r _ _ v g e f _ _ =>
      finite_float s ∧ finite_float r ∧ int_range v ∧ int_range g ∧ good_cstr e ∧ good_cstr f
  | JobTerminatedEvent _ v g s r ts tr f _ _ _ _ =>
      int_range v ∧ int_range g ∧ finite_float s ∧ finite_float r ∧ finite_float ts ∧ finite_float tr ∧ good_cstr f
  | JobImageSizeEvent s => int_range s
  | ShadowExceptionEvent m s r => no_nul m ∧ (length m < BUFSIZ)%nat ∧ finite_float s ∧ finite_float r
  | GenericEvent i => no_nul i ∧ (length i < 128)%nat
  | JobAbortedEvent r | JobReleasedEvent r | GlobusSubmitFailedEvent r => good_cstr r
  | JobSuspendedEvent n => int_range n
  | JobUnsuspendedEvent => True
  | JobHeldEvent r c s => good_cstr r ∧ int_range c ∧ int_range s
  | NodeExecuteEvent n _ => int_range n
  | NodeTerminatedEvent _ v g o s r ts tr f _ _ _ _ =>
      int_range v ∧ int_range g ∧ int_range o ∧ finite_float s ∧ finite_float r ∧ finite_float ts ∧ finite_float tr ∧ good_cstr f
  | PostScriptTerminatedEvent _ v g => int_range v ∧ int_range g
  | GlobusSubmitEvent r j _ => good_cstr r ∧ good_cstr j
  | GlobusResourceUpEvent r | GlobusResourceDownEvent r => good_cstr r
  | RemoteErrorEvent h d e _ => good_cstr h ∧ good_cstr d ∧ good_cstr e
  | JobDisconnectedEvent a n d r _ => good_cstr a ∧ good_cstr n ∧ good_cstr d ∧ good_cstr r
  | JobReconnectedEvent a n s => good_cstr a ∧ good_cstr n ∧ good_cstr s
  | JobReconnectFailedEvent n r => good_cstr n ∧ good_cstr r
  | GridSubmitEvent r j => good_cstr r ∧ good_cstr j
  | GridResourceUpEvent r | GridResourceDownEvent r => good_cstr r
  | OtherEvent n => int_range n
  end.

Section restored.
Context {T : Type} {HC : Condor T}.

Record good_event {HCL : CondorLaws T} (e : ULogEvent T) : Prop := {
  ge_time : calendar (eventTime e);
  ge_cluster : int_range (cluster e);
  ge_proc : int_range (proc e);
  ge_subproc : int_range (subproc e);
  ge_body : good_body (body e);
  (** Condor knows the event by its number. *)
  ge_known : ∃ fresh, instantiateEvent (eventNumber e) = Some fresh ∧ kind_of (body fresh) = kind_of (body e)
}.

(** A resource usage comes back with whatever was in memory, in every
    member. *)
Definition junk_usage (u : uninitialised) (name : bytes) : Rusage :=
  let z := default 0 (long_of_double (u_val u name)) in
  Usage z z z z z z z z z z z z z z (z, 0) (z, 0).
Definition junk_defined (u : uninitialised) : Prop := ∀ name, is_Some (long_of_double (u_val u name)).
Definition has_usage (b : event_body) : bool :=
  match b with
  | CheckpointedEvent _ _ | JobEvictedEvent _ _ _ _ _ _ _ _ _ _ _ | JobTerminatedEvent _ _ _ _ _ _ _ _ _ _ _ _
  | NodeTerminatedEvent _ _ _ _ _ _ _ _ _ _ _ _ _ => true
  | _ => false
  end.
(** A string that was [NULL] comes back empty. *)
Definition filled (c : cstr) : cstr := Some (NullString c).

(** [text] is the text of the event's time, [fresh] the event that
    [instantiateEvent] makes. *)
Definition restored (u : uninitialised) (text : bytes) (fresh b : event_body) : event_body :=
  match b with
  | ExecuteEvent _ => ExecuteEvent (Some text)
  | NodeExecuteEvent n _ => NodeExecuteEvent n (Some text)
  | CheckpointedEvent _ _ => CheckpointedEvent (junk_usage u te_s_RunLocalRusage) (junk_usage u te_s_RunRemoteRusage)
  | JobEvictedEvent c s r t n v g e f _ _ =>
      JobEvictedEvent c s r t n v g (filled e) (filled f) (junk_usage u te_s_RunLocalRusage) (junk_usage u te_s_RunRemoteRusage)
  | JobTerminatedEvent n v g s r ts tr f _ _ _ _ =>
      JobTerminatedEvent n v g s r ts tr (filled f) (junk_usage u te_s_RunLocalRusage) (junk_usage u te_s_RunRemoteRusage)
        (junk_usage u te_s_TotalLocalRusage) (junk_usage u te_s_TotalRemoteRusage)
  | JobImageSizeEvent _ => match fresh with JobImageSizeEvent s => JobImageSizeEvent s | _ => b end
  | JobAbortedEvent r => JobAbortedEvent (filled r)
  | JobHeldEvent r c s => JobHeldEvent (filled r) c s
  | JobReleasedEvent r => JobReleasedEvent (filled r)
  | NodeTerminatedEvent n v g o s r ts tr f _ _ _ _ =>
      NodeTerminatedEvent n v g o s r ts tr (filled f) (junk_usage u te_s_RunLocalRusage) (junk_usage u te_s_RunRemoteRusage)
        (junk_usage u te_s_TotalLocalRusage) (junk_usage u te_s_TotalRemoteRusage)
  | GlobusSubmitEvent r j m => GlobusSubmitEvent (filled r) (filled j) m
  | GlobusSubmitFailedEvent r => GlobusSubmitFailedEvent (filled r)
  | GlobusResourceUpEvent r => GlobusResourceUpEvent (filled r)
  | GlobusResourceDownEvent r => GlobusResourceDownEvent (filled r)
  | RemoteErrorEvent h d e c => RemoteErrorEvent (filled h) (filled d) (filled e) c
  | JobDisconnectedEvent a n d r _ =>
      JobDisconnectedEvent (filled a) (filled n) (filled d) (filled r)
        (match fresh with JobDisconnectedEvent _ _ _ _ c => after_no_reconnect (T := T) c | _ => false end)
  | JobReconnectedEvent a n s => JobReconnectedEvent (filled a) (filled n) (filled s)
  | JobReconnectFailedEvent n r => JobReconnectFailedEvent (filled n) (filled r)
  | GridSubmitEvent r j => GridSubmitEvent (filled r) (filled j)
  | GridResourceUpEvent r => GridResourceUpEvent (filled r)
  | GridResourceDownEvent r => GridResourceDownEvent (filled r)
  | SubmitEvent _ _ | ExecutableErrorEvent _ | ShadowExceptionEvent _ _ _ | GenericEvent _ | JobSuspendedEvent _
  | JobUnsuspendedEvent | PostScriptTerminatedEvent _ _ _ | OtherEvent _ => b
  end.
End restored.

(** ** Usages *)
Section usage.
Context {A : Type} {HT : Converter A} {HA : EventClassAd A} {HAL : EventAdLaws A}.

Lemma usage_plain ru : Forall (plain_insertion (A := A)) (usage_insertions ru).
Proof. unfold usage_insertions. apply Forall_fmap, Forall_forall. intros [n z] _. apply text_of_long_chars. Qed.
Lemma toClassAd_wf ru : ca_wf (toClassAd (A := A) ru).
Proof. apply wf_put_all; [apply usage_plain|apply wf_empty]. Qed.
Lemma toRusage_junk ru (a : A) val z : ca_equiv (toClassAd ru) a → long_of_double val = Some z →
  toRusage a val = Some (Usage z z z z z z z z z z z z z z (z, 0) (z, 0)).
Proof.
  intros Hm Hz.
  assert (∀ n s, named n (usage_insertions (A := A) ru) None = Some (Scalar (VStr s)) → usage_value a val n = Some (val, z)) as H.
  { intros n s E. destruct (made_get (l := usage_insertions ru) (ad := a) Hm n _ E) as ([[]|] & E' & Hy); cbn in Hy; try done.
    unfold usage_value. rewrite (evaluate_real_string _ _ _ E'). cbn. by rewrite Hz. }
  unfold toRusage. repeat (erewrite H by reflexivity; cbn [mbind option_bind]). done.
Qed.
End usage.

(** ** The conversion back *)
Lemma length_text_of_long n : long_min ≤ n ≤ long_max → (length (text_of_long n) ≤ 20)%nat.
Proof.
  assert (∀ n, 0 ≤ n ≤ 2 ^ 63 → (length (text_of_nonneg n) ≤ 19)%nat) as H.
  { intros k Hk. unfold text_of_nonneg.
    assert (0 ≤ k < 10 ^ Z.of_nat 19) as Hk' by (split; [lia|]; apply Z.le_lt_trans with (2 ^ 63); [lia|reflexivity]).
    assert (k < 2 ^ Z.of_nat (S (Z.to_nat (Z.log2 k)))) as Hf.
    { rewrite Nat2Z.inj_succ, Z2Nat.id by apply Z.log2_nonneg. destruct (decide (k = 0)) as [->|]; [done|]. apply Z.log2_spec. lia. }
    pose proof (to_digits_fixed 10 ltac:(lia) (Z.to_nat (Z.log2 k)) 19 k Hk' ltac:(lia) Hf) as E.
    apply (f_equal length) in E. rewrite length_fixed, length_app, length_replicate in E. lia. }
  intros Hn. unfold long_min, long_max in Hn. unfold text_of_long. case_bool_decide; cbn [length]; [specialize (H (- n))|specialize (H n)]; lia.
Qed.

Lemma good_cstr_filled c : good_cstr c → myStrdup (NullString c) = filled c.
Proof. intros Hc. unfold myStrdup, filled. rewrite c_str_id; [done|]. destruct c; [done|constructor]. Qed.

Section te_get.
Context {T : Type} {HC : Condor T} {A : Type} {HT : Converter A} {HA : EventClassAd A} {HAL : EventAdLaws A}.
Context (u : uninitialised) (Hu : junk_defined u).
Context (timeout epoch : Z) (e : ULogEvent T) (ad : A) (Hm : made_by (te_insertions timeout epoch e) ad).

Lemma te_usage_junk name ru v : named name (te_insertions (A := A) timeout epoch e) None = Some (SubAd (toClassAd ru)) →
  te_usage u ad name v = (v, Ret (junk_usage u name)).
Proof using Hu Hm.
  intros E. destruct (made_sub Hm _ _ E) as (b & Eb & Hb). unfold te_usage. rewrite Eb. cbn [mbind option_bind].
  destruct (Hu name) as [z Hz]. rewrite (toRusage_junk ru b _ z Hb Hz). unfold junk_usage. by rewrite Hz.
Qed.
End te_get.

(** No event inserts an attribute with a name of the first six. *)
Lemma te_named_header {T} {HC : Condor T} {A} {HA : EventClassAd A} timeout epoch (e : ULogEvent T) :
  Forall (λ n, named (A := A) n (te_insertions timeout epoch e) None =
    named n [Attr te_s_Timeout (VStr (text_of_long timeout)); AttrI te_s_EventNumber (eventNumber e);
      Attr te_s_EventTime (VStr (text_of_long epoch)); AttrI te_s_Cluster (cluster e); AttrI te_s_Proc (proc e);
      AttrI te_s_SubProc (subproc e)] None)
    [te_s_Timeout; te_s_EventNumber; te_s_EventTime; te_s_Cluster; te_s_Proc; te_s_SubProc].
Proof.
  destruct e as [t c p s b]. repeat constructor; unfold te_insertions; rewrite named_app; cbn [body].
  all: destruct b as [[] []| | | | | | | | | | | | | | | | | | | | | | | | | | | |]; reflexivity.
Qed.

Lemma host_text n : long_min ≤ n ≤ long_max → myStrdup (take 128 (text_of_long n)) = Some (text_of_long n).
Proof.
  intros Hn. unfold myStrdup. rewrite take_ge by (pose proof (length_text_of_long n Hn); lia). by rewrite c_str_id by apply text_of_long_chars.
Qed.

Section te_get_all.
Context {T : Type} {HC : Condor T} {A : Type} {HT : Converter A} {HA : EventClassAd A} {HAL : EventAdLaws A}.
Context (u : uninitialised).

Lemma te_get_restored timeout epoch t c p s b fresh (ad : A) v :
  (has_usage b = true → junk_defined u) → made_by (te_insertions timeout epoch (Event t c p s b)) ad → good_body b → kind_of fresh = kind_of b →
  (∀ l n, fresh = SubmitEvent l n → l = None ∧ n = None) →
  long_min ≤ epoch ≤ long_max → sval v = text_of_long epoch →
  ∃ v', te_get (T := T) u ad fresh v = (v', Ret (restored (T := T) u (text_of_long epoch) fresh b)).
Proof using.
  intros Hu Hm Hb Hk Hs He Hv. pose proof (host_text epoch He) as Hh. clear He. destruct v as [iv dv sv]. cbn [sval] in Hv. subst sv.
  destruct b, fresh; try discriminate Hk; cbn [te_get restored].
  all: repeat match goal with H : good_body _ |- _ => cbn [good_body] in H | H : _ ∧ _ |- _ => destruct H | H : finite_float _ |- _ => destruct H end.
  all: try match goal with |- context [te_get_Submit _ ?l ?n] =>
         destruct (Hs l n eq_refl) as [-> ->]; destruct submitEventLogNotes as [x|], submitEventUserNotes as [y|] end.
  all: unfold te_get_Submit, te_get_Execute, te_get_ExecutableError, te_get_Checkpointed, te_get_JobEvicted, te_get_JobTerminated, te_get_ImageSize,
         te_get_ShadowException, te_get_Generic, te_get_JobAborted, te_get_JobSuspended, te_get_JobHeld, te_get_JobReleased, te_get_NodeExecute,
         te_get_NodeTerminated, te_get_PostScriptTerminated, te_get_GlobusSubmit, te_get_GlobusSubmitFailed, te_get_GlobusResourceUp,
         te_get_GlobusResourceDown, te_get_RemoteError, te_get_JobDisconnected, te_get_JobReconnected, te_get_JobReconnectFailed,
         te_get_GridSubmit, te_get_GridResourceUp, te_get_GridResourceDown.
  all: repeat first [read_step Hm | erewrite bind_Ret by (eapply (te_usage_junk _ (Hu eq_refl) _ _ _ _ Hm); reflexivity); cbv beta iota].
  all: rewrite ?good_cstr_filled by assumption.
  all: rewrite ?strncpy_id by assumption.
  all: rewrite ?Hh.
  all: try by eexists.
  injection Hk as ->. by eexists.
Qed.

(** The whole conversion. *)
Lemma te_read_restored {HCL : CondorLaws T} timeout e (ad : A) :
  (has_usage (body e) = true → junk_defined u) → good_event e → long_min ≤ timeout ≤ long_max →
  made_by (te_insertions timeout (mktime (eventTime e)).1 e) ad →
  ∃ fresh v', instantiateEvent (eventNumber e) = Some fresh ∧
    te_read u ad (te_locals u) = (v', Ret (timeout, Event (mktime (eventTime e)).2 (cluster e) (proc e) (subproc e)
      (restored (T := T) u (text_of_long (mktime (eventTime e)).1) (body fresh) (body e)))).
Proof using.
  intros Hu [Ht Hc Hp Hsp Hb (fresh & Ef & Hk)] Hto Hm. destruct e as [t c p s b]. cbn [eventTime cluster proc subproc body] in *.
  set (epoch := (mktime t).1) in *. assert (long_min ≤ epoch ≤ long_max) as Hep by by apply mktime_range.
  exists fresh. unfold te_read, te_locals.
  pose proof (te_named_header (A := A) timeout epoch (Event t c p s b)) as Hh. rewrite !Forall_cons in Hh. destruct Hh as (N1 & N2 & N3 & N4 & N5 & N6 & _).
  erewrite bind_Ret by (apply (read_ival_made Hm); rewrite N2; reflexivity). cbv beta iota. cbn [ival dval sval].
  erewrite bind_Ret by (apply (get_string_made Hm); rewrite N1; reflexivity). cbv beta iota. cbn [ival dval sval].
  erewrite bind_Ret; [|unfold cast_sval; cbn [sval]; rewrite (long_of_text_of timeout Hto); reflexivity].
  cbv beta iota. rewrite Ef.
  erewrite bind_Ret by (apply (get_string_made Hm); rewrite N3; reflexivity). cbv beta iota. cbn [ival dval sval].
  erewrite bind_Ret; [|unfold cast_sval; cbn [sval]; rewrite (long_of_text_of epoch Hep); reflexivity].
  match goal with |- context [(te_get _ _ _ ≫= _) ?v] =>
    destruct (te_get_restored timeout epoch t c p s b (body fresh) ad v Hu Hm Hb Hk) as [v' E]; [|done|reflexivity|] end.
  - intros l n El. rewrite El in Hk. symmetry in Hk. unfold eventNumber, number_of in Ef. cbn [body] in Ef. rewrite Hk in Ef. cbn in Ef.
    rewrite (instantiate_submit _ Ef) in El. by simplify_eq.
  - exists v'. split; [done|]. erewrite bind_Ret by exact E. erewrite (number_member_made Hm te_s_Cluster) by (rewrite N4; reflexivity).
    erewrite (number_member_made Hm te_s_Proc) by (rewrite N5; reflexivity). erewrite (number_member_made Hm te_s_SubProc) by (rewrite N6; reflexivity). rewrite <- (mktime_normal t Ht). reflexivity.
Qed.
End te_get_all.

(** ** Through the file *)
Definition some_cstr (c : cstr) : bool := if c is Some _ then true else false.
(** The events that lose nothing. *)
Definition faithful (b : event_body) : bool :=
  match b with
  | SubmitEvent _ _ | ExecutableErrorEvent _ | ShadowExceptionEvent _ _ _ | GenericEvent _ | JobSuspendedEvent _ | JobUnsuspendedEvent
  | PostScriptTerminatedEvent _ _ _ | OtherEvent _ => true
  | JobAbortedEvent r | JobHeldEvent r _ _ | JobReleasedEvent r | GlobusSubmitFailedEvent r | GlobusResourceUpEvent r
  | GlobusResourceDownEvent r | GridResourceUpEvent r | GridResourceDownEvent r => some_cstr r
  | GlobusSubmitEvent r j _ | JobReconnectFailedEvent r j | GridSubmitEvent r j => some_cstr r && some_cstr j
  | RemoteErrorEvent h d e _ => some_cstr h && some_cstr d && some_cstr e
  | JobReconnectedEvent a n s => some_cstr a && some_cstr n && some_cstr s
  | ExecuteEvent _ | CheckpointedEvent _ _ | JobEvictedEvent _ _ _ _ _ _ _ _ _ _ _ | JobTerminatedEvent _ _ _ _ _ _ _ _ _ _ _ _
  | JobImageSizeEvent _ | NodeExecuteEvent _ _ | NodeTerminatedEvent _ _ _ _ _ _ _ _ _ _ _ _ _ | JobDisconnectedEvent _ _ _ _ _ => false
  end.

Section through.
Context {T : Type} {HC : Condor T} {HCL : CondorLaws T} {A : Type} {HT : Converter A} {HA : EventClassAd A} {HAL : EventAdLaws A}.

Lemma good_cstr_plain c : good_cstr c → no_nul (NullString c).
Proof. destruct c; [done|constructor]. Qed.
Lemma float_plain x : finite_float x → plain_value (VReal (to_double x)).
Proof. intros Hx. by exists x. Qed.

Lemma te_put_plain b : good_body b → Forall (plain_insertion (A := A)) (te_put b).
Proof.
  intros Hb. destruct b as [[] []| | | | | | | | | | | | | | | | | | | | | | | | | | | |]; cbn [te_put good_body] in *;
    repeat match goal with H : _ ∧ _ |- _ => destruct H end;
    repeat first [apply Forall_nil_2 | apply Forall_cons_2]; cbn [plain_insertion AttrS AttrI AttrB AttrF plain_value];
    first [done | by apply good_cstr_plain | by apply float_plain | apply toClassAd_wf].
Qed.
Lemma te_insertions_plain timeout epoch e : good_event e → Forall (plain_insertion (A := A)) (te_insertions timeout epoch e).
Proof.
  intros [Ht Hc Hp Hs Hb _]. apply Forall_app. split; [|by apply te_put_plain].
  repeat first [apply Forall_nil_2 | apply Forall_cons_2]; cbn [plain_insertion AttrI plain_value]; try done; try apply text_of_long_chars.
  unfold eventNumber, number_of. destruct (body e); cbn [kind_of]; try apply ulog_range. exact Hb.
Qed.

(** A timeout that was started, as the backup file has it. *)
Definition kept_text (timeout : Z) (e : ULogEvent T) (d : bytes) : Prop :=
  ∃ ad, from_string d = Some ad ∧ made_by (A := A) (te_insertions timeout (mktime (eventTime e)).1 e) ad.

Definition timeout_ad (timeout : Z) (e : ULogEvent T) : A := put_all (te_insertions timeout (mktime (eventTime e)).1 e) ca_empty.

Lemma to_classad_kept timeout e : good_event e →
  ∃ d, to_classad (A := A) (TimeoutEvent_new timeout e) =
      Some (Timeout timeout (Some (set_time (mktime (eventTime e)).2 e)) (Some (timeout_ad timeout e)) fli_null, timeout_ad timeout e) ∧
    to_string (timeout_ad timeout e) = Some d ∧ d ≠ [] ∧ kept_text timeout e d.
Proof.
  intros Hg. destruct (made_of_text (te_insertions timeout (mktime (eventTime e)).1 e)) as (d & ad & Ed & Hd & Ead & Hm); [by apply te_insertions_plain|].
  exists d. split; [|split; [done|]; split; [done|]; by exists ad].
  unfold to_classad, timeout_ad. cbn [te_classad te_event TimeoutEvent_new te_epoch te_pointer]. by destruct (mktime (eventTime e)).
Qed.

(** The event that a kept timeout comes back as. *)
Definition restored_event (u : uninitialised) (fresh e : ULogEvent T) : ULogEvent T :=
  Event (mktime (eventTime e)).2 (cluster e) (proc e) (subproc e)
    (restored (T := T) u (text_of_long (mktime (eventTime e)).1) (body fresh) (body e)).

Lemma to_event_kept u timeout e d te ad : (has_usage (body e) = true → junk_defined u) → good_event e → long_min ≤ timeout ≤ long_max →
  kept_text timeout e d → from_string d = Some ad → te_event te = None → te_classad te = Some ad →
  ∃ fresh, instantiateEvent (eventNumber e) = Some fresh ∧
    to_event u te = Ret (Timeout timeout (Some (restored_event u fresh e)) (Some ad) (te_pointer te), restored_event u fresh e).
Proof.
  intros Hu Hg Ht (ad' & Ead' & Hm) Ead E1 E2. assert (ad' = ad) as -> by congruence.
  destruct (te_read_restored u timeout e ad Hu Hg Ht Hm) as (fresh & v' & Ef & E).
  exists fresh. split; [done|]. unfold to_event. rewrite E1, E2, E. done.
Qed.

Lemma faithful_restored u text fresh b : faithful b = true → restored (T := T) u text fresh b = b.
Proof. destruct b; cbn; try done; intros H; repeat match goal with c : cstr |- _ => destruct c; try done end. Qed.
Lemma faithful_no_usage b : faithful b = true → has_usage b = false.
Proof. by destruct b. Qed.
End through.
