(* ===== verification/ContainerReopen.v ===== *)
(** * Closing a container and opening it again

    Users of a list that keep its file closed between two operations rely
    on [ReopenContainer]: an object that is opened on the contents that
    another one left answers the same list, from its first use on.
    [FileContainer] is an instance. *)

From S2P Require Import Prelude Digits Stream FileContainer ContainerFields ContainerDisk ContainerCells ContainerList ContainerAdd.
From S2P Require Import ContainerInsert ContainerRead ContainerRemove ContainerCreate ContainerCompact ContainerRecovery FileList ListContainer.

(** The contents of the file that an object is open on. *)
Class DiskContainer (C : Type) := { disk_of : C → bytes }.
#[export] Instance FileContainer_DiskContainer : DiskContainer FileContainer := { disk_of := λ c, from_option f_data [] (fc_stream c) }.

Class ReopenContainer (C : Type) `{LC : ListContainer C} `{DiskContainer C} := {
  (** The clock of the object can be written in a time stamp. *)
  openable : C → Prop;
  (** Opened on a file with the list [l] that ends at [e], and not used yet. *)
  unused : C → list entry → Z → Prop;
  rc_openable c l : holds c l → openable c;
  rc_close c : openable c → ∃ c', c_close c = (c', Ret tt) ∧ openable c';
  rc_open c l c0 name : holds c l → openable c0 →
    ∃ c1, c_open name (Some (disk_of c)) true false c0 = (c1, Ret tt) ∧ unused c1 l (cend c);
  rc_create c0 name : openable c0 → ∃ c1, c_open name None true false c0 = (c1, Ret tt) ∧ holds c1 [] ∧ cend c1 = fc_s_headerSize;
  (** Asking for the end a second time changes nothing. *)
  rc_first_use c l e : unused c l e →
    ∃ c', c_read_end c = (c', Ret e) ∧ c_read_end c' = (c', Ret e) ∧ holds c' l ∧ cend c' = e
}.

(** ** [FileContainer] *)

Definition just_opened (c : FileContainer) (l : list entry) (e : Z) : Prop :=
  ∃ m d p j, c = con m d p j ∧ 0 ≤ p ∧ fc_initialized m = false ∧ repr d l ∧
    (h_status (d_header d) = closed ∨ h_status (d_header d) = ft_end) ∧ off_ok (fc_now m) ∧ e = disk_end d.

Lemma initContainer_ft_end m d p j :
  disk_ok d → 0 ≤ p → off_ok (fc_now m) → h_status (d_header d) = ft_end →
  ∃ m' j', initContainer (con m d p j) = (con m' (with_status closed (with_status closed d)) 0 j', Ret tt) ∧
    mem_ok m' (with_status closed (with_status closed d)).
Proof.
  intros Hd Hp Hn Hst. pose proof (loaded_mem_ok d m Hd Hn) as Hm. unfold initContainer. rewrite bind_field.
  cbn [con upd_stream fc_stream bad f_bad at_]. recon. rewrite load_con by done. erewrite bind_Ret by by apply readFileStatus_con.
  rewrite Hst, bool_decide_true by done. unfold recover_unchecked.
  rewrite bind_assoc, (bind_Ret _ _ _ _ _ (backupFile_con _ _ _ _)). set (mb := upd_bak _ _).
  rewrite bool_decide_false by done. rewrite bind_assoc, bind_mret, bind_assoc. unfold con at 1. rewrite bind_on, sync_at. recon.
  cbn [recover_switch]. rewrite bind_assoc. erewrite bind_Ret by (by apply (writeFileStatus_con d Hd)).
  rewrite bool_decide_true by done. erewrite bind_Ret by (apply writeFileStatus_con; [by apply with_status_ok|done]).
  exists (upd_initialized true mb). eexists. split; [reflexivity|]. destruct Hm; by split.
Qed.

Lemma first_use c l e : just_opened c l e →
  ∃ c', read_end c = (c', Ret e) ∧ read_end c' = (c', Ret e) ∧ ready c' l ∧ end_of c' = e.
Proof.
  intros (m & d & p & j & -> & Hp & Hi & Hr & Hst & Hn & ->). pose proof (rep_ok _ _ Hr) as Hd. unfold read_end, prologue.
  rewrite bind_assoc, bind_field. cbn [con upd_stream fc_initialized]. rewrite Hi. recon. destruct Hst as [Hst|Hst].
  - rewrite (bind_Ret _ _ _ _ _ (initContainer_closed m d p j Hd Hp Hst)), (getEnd_con _ _ _ _ Hd).
    eexists. split; [reflexivity|]. split; [by apply (read_end_con _ _ _ _ l); [apply disk_end_ge0|..|apply loaded_mem_ok]|].
    split; [|by apply end_of_con]. do 4 eexists. split; [reflexivity|]. split; [apply disk_end_ge0|]. split; [done|]. split; [by left|by apply loaded_mem_ok].
  - destruct (initContainer_ft_end m d p j Hd Hp Hn Hst) as (m' & j' & E & Hm). rewrite (bind_Ret _ _ _ _ _ E).
    assert (disk_ok (with_status closed (with_status closed d))) as Hd' by (by apply with_status_ok, with_status_ok).
    assert (repr (with_status closed (with_status closed d)) l) as Hr' by (by apply with_status_repr, with_status_repr).
    rewrite (getEnd_con _ _ _ _ Hd'). eexists. split; [reflexivity|].
    split; [exact (read_end_con _ (with_status closed (with_status closed d)) _ j' l (disk_end_ge0 _) Hr' eq_refl Hm)|].
    split; [|by rewrite end_of_con].
    do 4 eexists. split; [reflexivity|]. split; [apply disk_end_ge0|]. split; [done|]. split; [by left|done].
Qed.

Lemma close_now c : ∃ c', close c = (c', Ret tt) ∧ fc_now c' = fc_now c.
Proof. destruct c as [i n [st|] s f l r w b]; eexists; (split; [reflexivity|done]). Qed.

#[export] Program Instance FileContainer_ReopenContainer : ReopenContainer FileContainer := {
  openable := λ c, off_ok (fc_now c);
  unused := just_opened
}.
Next Obligation. intros c l (m & d & p & j & -> & _ & _ & _ & Hm). apply (mem_now _ _ Hm). Qed.
Next Obligation. intros c Hc. destruct (close_now c) as (c' & E & En). exists c'. split; [exact E|]. cbn. by rewrite En. Qed.
Next Obligation.
  intros c l c0 name (m & d & p & j & -> & Hp & Hr & Hst & Hm) Hn.
  destruct (open_prefix c0 name (Some (disk_bytes d)) true false) as (m' & E' & Hn' & Hi & _). eexists. split; [exact E'|].
  exists m', d, 0, []. split; [reflexivity|]. split; [done|]. split; [done|]. split; [done|]. split; [done|].
  split; [by rewrite Hn'|]. apply (end_of_con _ _ _ _ (rep_ok _ _ Hr)).
Qed.
Next Obligation.
  intros c0 name Hn. destruct (open_new_rep c0 name Hn) as (c' & E' & Hr). exists c'. split; [exact E'|].
  split; [by apply rep_ready|]. cbn. destruct Hr as (m & d & p & j & -> & _ & Hr & _). rewrite (end_of_con _ _ _ _ (rep_ok _ _ Hr)). by apply (empty_end _ _ Hr).
Qed.
Next Obligation. intros c l e Hc. exact (first_use c l e Hc). Qed.

(** ** The list layer on an object that was just opened *)
Section first_call.
Context {C : Type} `{ReopenContainer C}.
Implicit Types s : file_sequence C.

(** A call that asks for the end of the list first finds the list there. *)
Lemma first_call {X} (k : Z → FL C X) s l e : unused (fs_container s) l e →
  ∃ c, holds c l ∧ cend c = e ∧ (call c_read_end ≫= k) s = (call c_read_end ≫= k) (Sequence (fs_addr s) c (fs_last s)).
Proof.
  intros Hu. destruct (rc_first_use _ _ _ Hu) as (c & E1 & E2 & Hh & He). exists c. split; [done|]. split; [done|].
  assert (∀ c0, c_read_end c0 = (c, Ret e) → call c_read_end (Sequence (fs_addr s) c0 (fs_last s)) = (Sequence (fs_addr s) c (fs_last s), Ret e)) as Hc.
  { intros c0 E. unfold call, on_container, or_throw, catch. cbn. by rewrite E. }
  rewrite (bind_Ret _ _ _ _ _ (Hc _ E2)). destruct s as [a c0 b]. by rewrite (bind_Ret _ _ _ _ _ (Hc _ E1)).
Qed.
End first_call.
