(* ===== verification/Timer.v ===== *)
(** * The timers of the log monitor

    Model of class [Timer] of [jobsubmission/src/logmonitor/Timer.{h,cpp}]:
    the events that wait, ordered by the time at which they have to be
    looked at again, and their copy in a backup file.  The file is opened
    for every operation and closed after it, to save a file descriptor.

    [std::multimap<time_t, EventPointer>] is a list of nodes in the order of
    their keys; an equal key goes after the ones that are there.  Nodes have
    a number that is never used again, so that an iterator to an erased node
    finds nothing.  [t_disk] is what the backup file contains while it is
    closed, [None] when there is no file. *)

From S2P Require Import Prelude Digits Stream FileContainer FileList IdContainer ContainerReopen Numbers CondorLog TimeoutEvent.

(** ** [std::multimap] *)
Section multimap.
Context {X : Type} (key : X → Z).

(** [insert]: before the first greater key. *)
Fixpoint mm_insert (x : X) (l : list X) : list X :=
  match l with
  | [] => [x]
  | y :: l' => if bool_decide (key x < key y) then x :: l else y :: mm_insert x l'
  end.
End multimap.

(** ** The class *)
Record node (T A : Type) := Node { n_id : nat; n_key : Z; n_event : TimeoutEvent T A }.
Arguments Node {T A}.
Arguments n_id {T A}.
Arguments n_key {T A}.
Arguments n_event {T A}.

Record Timer (C T A : Type) := TimerState {
  t_filename : bytes;
  t_disk : option bytes;
  t_events : list (node T A);
  t_fresh : nat;
  t_backup : file_sequence C
}.
Arguments TimerState {C T A}.
Arguments t_filename {C T A}.
Arguments t_disk {C T A}.
Arguments t_events {C T A}.
Arguments t_fresh {C T A}.
Arguments t_backup {C T A}.

(** What an operation throws: an error of the file, or of a conversion. *)
Inductive timer_error := FileError (e : iostatus_t) | CastError (e : cast_error).

Section timer.
Context {C : Type} `{Container C} `{DiskContainer C} {T : Type} `{Condor T} {A : Type} `{Converter A} `{EventClassAd A}.
(** The uninitialised memory of the conversion of an event, by node. *)
Context (u : nat → uninitialised).
#[local] Abbreviation TM := (M (Timer C T A) timer_error).

(** A call on [this->t_backup]. *)
Definition on_backup {X} (m : FL C X) : TM X := λ s,
  let '(b, r) := m (t_backup s) in
  (TimerState (t_filename s) (t_disk s) (t_events s) (t_fresh s) b,
   match r with Ret x => Ret x | Fail e => Fail (FileError e) | Stuck => Stuck end).
Definition get_events : TM (list (node T A)) := λ s, (s, Ret (t_events s)).
Definition set_events (l : list (node T A)) : TM unit :=
  modify (λ s, TimerState (t_filename s) (t_disk s) l (t_fresh s) (t_backup s)).
(** [t_events.insert( value_type( key, event ) )] *)
Definition insert_event (key : Z) (te : TimeoutEvent T A) : TM unit :=
  modify (λ s, TimerState (t_filename s) (t_disk s) (mm_insert n_key (Node (t_fresh s) key te) (t_events s)) (S (t_fresh s)) (t_backup s)).

(** [t_backup.open( t_filename )] and [t_backup.close()]: the contents stay
    on disk. *)
Definition open_backup : TM unit := s ← get_st; on_backup (fs_open (t_filename s) (t_disk s) true false).
Definition keep_disk : TM unit :=
  modify (λ s, TimerState (t_filename s) (Some (disk_of (fs_container (t_backup s)))) (t_events s) (t_fresh s) (t_backup s)).
Definition close_backup : TM unit := keep_disk;; on_backup fs_close.

(** A call on a [TimeoutEvent]. *)
Definition on_event {X} (r : outcome cast_error X) : TM X :=
  match r with Ret x => mret x | Fail e => fail (CastError e) | Stuck => stuck end.

(** The constructor: the members, the walk over the file, one unit of fuel
    per round. *)
Definition Timer_new (backup : bytes) (disk : option bytes) (addr : nat) (c : C) : Timer C T A :=
  TimerState backup disk [] 0 (new_sequence addr c).
Fixpoint restore_loop (fuel : nat) (fileIt end_ : FLIterator A) : TM unit :=
  match fuel with
  | O => stuck
  | S f =>
      if is_different (fli_base fileIt) (fli_base end_) then
        r ← on_backup (fli_deref fileIt);
        let ptr := set_pointer r.2 (TimeoutEvent_of_ad r.1) in
        s ← get_st;
        r' ← on_event (timeout (u (t_fresh s)) ptr);
        insert_event r'.2 r'.1;;
        fileIt ← on_backup (fli_incr r.2);
        restore_loop f fileIt end_
      else mret tt
  end.
Definition Timer_construct (fuel : nat) : TM unit :=
  s ← get_st;
  on_backup (on_container (c_open (t_filename s) (t_disk s) true false));;
  end_ ← on_backup end_;
  empty ← on_backup fs_empty;
  (if (empty : bool) then mret tt
   else
     first ← on_backup begin_;
     restore_loop fuel (fli_assign first) end_);;
  close_backup.

Definition start_timer (expire : Z) (ptr : ULogEvent T) : TM unit :=
  open_backup;;
  match to_classad (TimeoutEvent_new expire ptr) with
  | None => stuck
  | Some (event, ad) =>
      on_backup (push_back ad);;
      fIt ← on_backup (i ← end_; fli_decr (fli_assign i));
      insert_event expire (set_pointer fIt event);;
      close_backup
  end.

(** [remove_timeout( evIt )]; [None] is [t_events.end()]. *)
Definition find_node (n : nat) (l : list (node T A)) : option (node T A) :=
  snd <$> list_find (λ x, n_id x = n) l.
Definition remove_at (evIt : option nat) : TM unit :=
  match evIt with
  | None => mret tt
  | Some n =>
      l ← get_events;
      match find_node n l with
      | None => stuck
      | Some x =>
          let ptr := fli_assign (te_pointer (n_event x)) in
          open_backup;;
          on_backup (erase ptr);;
          close_backup;;
          l ← get_events;
          set_events (filter (λ x, n_id x ≠ n) l)
      end
  end.

(** The walks of the two other removals: [to_event()] of every node, and
    the nodes whose event passes the test. *)
Fixpoint collect_events (test : ULogEvent T → bool) (l : list (node T A)) : outcome cast_error (list (node T A) * list nat) :=
  match l with
  | [] => Ret ([], [])
  | x :: l =>
      match to_event (u (n_id x)) (n_event x) with
      | Ret (te, e) =>
          match collect_events test l with
          | Ret (l', evList) => Ret (Node (n_id x) (n_key x) te :: l', if test e then n_id x :: evList else evList)
          | r => r
          end
      | Fail err => Fail err
      | Stuck => Stuck
      end
  end.
Fixpoint remove_each (evList : list nat) : TM unit :=
  match evList with
  | [] => mret tt
  | n :: evList => remove_at (Some n);; remove_each evList
  end.
Definition remove_matching (test : ULogEvent T → bool) : TM unit :=
  l ← get_events;
  r ← on_event (collect_events test l);
  set_events r.1;;
  remove_each r.2.
Definition remove_timeout (condorid eventcode : Z) : TM unit :=
  remove_matching (λ e, bool_decide (cluster e = condorid) && bool_decide (eventNumber e = eventcode)).
Definition remove_all_timeouts (condorid : Z) : TM unit :=
  remove_matching (λ e, bool_decide (cluster e = condorid)).
End timer.
