(* ===== verification/TimerProps.v ===== *)
(** * The timers refine an ordered list

    Every operation of [Timer], on any backup file that keeps the promises
    of [ReopenContainer], does to a list of timers ordered by time what its
    name says; a restart finds them all again, in the same order. *)

From Stdlib Require Import Sorting.Sorted.
From S2P Require Import Prelude Vectors Digits Stream FileContainer ContainerFields ContainerDisk ContainerCells ContainerList ContainerAdd.
From S2P Require Import ContainerRead ContainerCompact FileList ListContainer FileListProps FileListDeque FileListOps IdContainer IdContainerProps.
From S2P Require Import ContainerReopen Numbers CondorLog TimeoutEvent TimeoutEventProps Timer.

(** ** Filters *)
Section filters.
Context {X : Type}.
Implicit Types (l : list X).

Lemma filter_filter (P Q : X → Prop) `{∀ x, Decision (P x)} `{∀ x, Decision (Q x)} l : filter P (filter Q l) = filter (λ x, P x ∧ Q x) l.
Proof.
  induction l as [|x l IH]; [done|]. rewrite !filter_cons. destruct (decide (Q x)) as [HQ|HQ].
  - rewrite filter_cons, IH. destruct (decide (P x)); [by rewrite decide_True|by rewrite decide_False by tauto].
  - by rewrite IH, decide_False by tauto.
Qed.
Lemma filter_iff_in (P Q : X → Prop) `{∀ x, Decision (P x)} `{∀ x, Decision (Q x)} l : (∀ x, x ∈ l → P x ↔ Q x) → filter P l = filter Q l.
Proof.
  induction l as [|x l IH]; intros Hl; [done|]. rewrite !filter_cons, IH by (intros y Hy; apply Hl; by right).
  pose proof (Hl x (list_elem_of_here _ _)). destruct (decide (P x)), (decide (Q x)); tauto.
Qed.
Lemma delete_none l k : l !! k = None → delete k l = l.
Proof. revert k. induction l as [|x l IH]; intros [|k] Hk; try done. cbn in *. by rewrite IH. Qed.
End filters.
Lemma filter_map {X Y} (f : X → Y) (P : Y → Prop) `{∀ y, Decision (P y)} (l : list X) : filter P (f <$> l) = f <$> filter (λ x, P (f x)) l.
Proof. induction l as [|x l IH]; [done|]. rewrite fmap_cons, !filter_cons, IH. by destruct (decide (P (f x))). Qed.

(** ** [std::multimap] *)
Section multimap.
Context {X : Type} (key : X → Z).
Implicit Types (x y : X) (l : list X).

Definition in_order l : Prop := StronglySorted (λ x y, key x ≤ key y) l.
(** Insertion of a list, one after the other. *)
Definition mm_inserts (xs l : list X) : list X := fold_left (λ l x, mm_insert key x l) xs l.

Lemma mm_insert_perm x l : mm_insert key x l ≡ₚ x :: l.
Proof using. induction l as [|y l IH]; cbn; [done|]. case_bool_decide; [done|]. rewrite IH. apply Permutation_swap. Qed.
Lemma mm_insert_order x l : in_order l → in_order (mm_insert key x l).
Proof using.
  induction 1 as [|y l Hl IH Hy]; cbn; [by repeat constructor|]. case_bool_decide as E.
  - constructor; [by constructor|]. constructor; [lia|]. eapply Forall_impl; [exact Hy|]. cbn. intros; lia.
  - constructor; [done|]. rewrite mm_insert_perm. constructor; [lia|done].
Qed.
Lemma mm_inserts_perm xs l : mm_inserts xs l ≡ₚ xs ++ l.
Proof using.
  revert l. induction xs as [|x xs IH]; intros l; [done|]. cbn. rewrite (IH (mm_insert key x l)), mm_insert_perm. symmetry. apply Permutation_middle.
Qed.
Lemma mm_inserts_order xs l : in_order l → in_order (mm_inserts xs l).
Proof using. revert l. induction xs as [|x xs IH]; intros l Hl; [done|]. by apply IH, mm_insert_order. Qed.
Lemma mm_inserts_snoc xs x l : mm_inserts (xs ++ [x]) l = mm_insert key x (mm_inserts xs l).
Proof using. unfold mm_inserts. by rewrite fold_left_app. Qed.

(** Removal commutes with insertion. *)
Section filter.
Context (P : X → Prop) `{∀ x, Decision (P x)}.

Lemma mm_insert_head x l : Forall (λ y, key x < key y) l → mm_insert key x l = x :: l.
Proof using. intros Hl. destruct Hl; cbn; [done|]. by rewrite bool_decide_true. Qed.
Lemma filter_mm_insert x l : in_order l →
  filter P (mm_insert key x l) = if decide (P x) then mm_insert key x (filter P l) else filter P l.
Proof using.
  induction 1 as [|y l Hl IH Hy].
  { cbn [mm_insert]. rewrite filter_cons. by destruct (decide (P x)). }
  cbn [mm_insert]. case_bool_decide as E.
  - rewrite filter_cons. destruct (decide (P x)) as [Hx|Hx]; [|done]. symmetry. apply mm_insert_head.
    assert (Forall (λ z, key x < key z) (y :: l)) as Hz.
    { constructor; [done|]. eapply Forall_impl; [exact Hy|]. cbn. intros; lia. }
    rewrite Forall_forall in Hz |- *. intros z [_ Hin]%list_elem_of_filter. by apply Hz.
  - rewrite !filter_cons, IH. destruct (decide (P y)) as [HPy|HPy], (decide (P x)) as [HPx|HPx]; try done. cbn [mm_insert]. by rewrite bool_decide_false by done.
Qed.
Lemma filter_mm_inserts xs l : in_order l → filter P (mm_inserts xs l) = mm_inserts (filter P xs) (filter P l).
Proof using.
  revert l. induction xs as [|x xs IH]; intros l Hl; [done|].
  change (mm_inserts (x :: xs) l) with (mm_inserts xs (mm_insert key x l)). rewrite (IH (mm_insert key x l)) by by apply mm_insert_order.
  rewrite filter_mm_insert, filter_cons by done. by destruct (decide (P x)).
Qed.
End filter.
End multimap.

Section multimap_map.
Context {X Y : Type} (key : X → Z) (key' : Y → Z) (f : X → Y) (Hf : ∀ x, key' (f x) = key x).
Lemma mm_insert_map x l : f <$> mm_insert key x l = mm_insert key' (f x) (f <$> l).
Proof using Hf. induction l as [|y l IH]; [done|]. cbn. rewrite !Hf. case_bool_decide; [done|]. cbn. by rewrite <- IH. Qed.
End multimap_map.

(** ** The specification *)
Module Timers.
(** A timer: when, and the event that was handed over. *)
Definition t (T : Type) : Type := (Z * ULogEvent T)%type.
Inductive command (T : Type) :=
| Start (expire : Z) (e : ULogEvent T)
| RemoveAt (i : nat)
| RemoveEvent (condorid eventcode : Z)
| RemoveAll (condorid : Z)
| Restart.
Arguments Start {T}.
Arguments RemoveAt {T}.
Arguments RemoveEvent {T}.
Arguments RemoveAll {T}.
Arguments Restart {T}.

Section step.
Context {T : Type} `{Condor T}.
Definition step (c : command T) (L : list (t T)) : list (t T) :=
  match c with
  | Start expire e => mm_insert fst (expire, e) L
  | RemoveAt i => delete i L
  | RemoveEvent id code => filter (λ x, ¬ (cluster x.2 = id ∧ eventNumber x.2 = code)) L
  | RemoveAll id => filter (λ x, cluster x.2 ≠ id) L
  | Restart => L
  end.
Definition steps (cs : list (command T)) (L : list (t T)) : list (t T) := fold_left (λ L c, step c L) cs L.
End step.
End Timers.

(** ** Timers in memory and in the file *)
Section runs.
Context {C : Type} {HC : Container C} {HL : ListContainer C} {HD : DiskContainer C} {HR : ReopenContainer C}.
Context {T : Type} {HT : Condor T} {HTL : CondorLaws T}.
Context {A : Type} {HV : Converter A} {HA : EventClassAd A} {HAL : EventAdLaws A}.
Context (u : nat → uninitialised) (Hu : ∀ n, junk_defined (u n)).
Implicit Types (s : Timer C T A) (e : ULogEvent T) (L : list (Timers.t T)).

(** The event in memory: the one that was handed over, with its time in
    normal form, or what a restart made of it. *)
Definition shows e e' : Prop :=
  ∃ b, e' = Event (mktime (eventTime e)).2 (cluster e) (proc e) (subproc e) b ∧
    (b = body e ∨ ∃ n fresh, instantiateEvent (eventNumber e) = Some fresh ∧
      b = restored (T := T) (u n) (text_of_long (mktime (eventTime e)).1) (body fresh) (body e)).
Lemma shows_cluster e e' : shows e e' → cluster e' = cluster e.
Proof using. by intros (b & -> & _). Qed.
Lemma shows_number e e' : shows e e' → eventNumber e' = eventNumber e.
Proof using.
  intros (b & -> & Hb). unfold eventNumber, number_of. cbn [body]. f_equal. destruct Hb as [-> |(n & fresh & _ & ->)]; [done|].
  destruct (body e); try done. cbn. by destruct (body fresh).
Qed.

(** A timer with its entry in the file and its node in memory. *)
Record item := Item { i_entry : entry; i_timer : Timers.t T; i_node : node T A }.
Definition i_key (i : item) : Z := (i_timer i).1.
Record item_ok (addr : nat) (i : item) : Prop := {
  io_good : good_event (i_timer i).2;
  io_range : long_min ≤ (i_timer i).1 ≤ long_max;
  io_text : kept_text (A := A) (i_timer i).1 (i_timer i).2 (i_entry i).2;
  io_key : n_key (i_node i) = (i_timer i).1;
  io_epoch : te_epoch (n_event (i_node i)) = (i_timer i).1;
  io_event : ∃ e', te_event (n_event (i_node i)) = Some e' ∧ shows (i_timer i).2 e';
  io_pointer : on_entry addr (te_pointer (n_event (i_node i))) (i_entry i)
}.
Definition ids (items : list item) : list nat := (λ i, n_id (i_node i)) <$> items.

(** [items] are the timers in the order of the file. *)
Record holds_items s (items : list item) : Prop := {
  hi_ok : Forall (item_ok (fs_addr (t_backup s))) items;
  hi_ids : NoDup (ids items);
  hi_fresh : Forall (λ n, (n < t_fresh s)%nat) (ids items);
  hi_events : t_events s = i_node <$> mm_inserts i_key items [];
  hi_last : bi_container (fs_last (t_backup s)) = Some (fs_addr (t_backup s))
}.
Definition timers_of (items : list item) : list (Timers.t T) := i_timer <$> mm_inserts i_key items [].
(** The file is closed, ends at [z], and stands for the timers [L]. *)
Definition filed s (items : list item) (z : Z) : Prop :=
  ∃ c, t_disk s = Some (disk_of c) ∧ holds c (i_entry <$> items) ∧ cend c = z ∧ openable (fs_container (t_backup s)) ∧ holds_items s items.
Definition runs s L (z : Z) : Prop := ∃ items, filed s items z ∧ L = timers_of items.
Definition gives_runs s (m : M (Timer C T A) timer_error unit) L (z : Z) : Prop :=
  ∃ s' z', m s = (s', Ret tt) ∧ runs s' L z' ∧ z' ≤ z.

(** ** Opening and closing *)
Definition with_backup (b : file_sequence C) s : Timer C T A := TimerState (t_filename s) (t_disk s) (t_events s) (t_fresh s) b.
Lemma on_backup_Ret {X} (m : FL C X) s b x : m (t_backup s) = (b, Ret x) → on_backup m s = (with_backup b s, Ret x).
Proof using. intros E. unfold on_backup. by rewrite E. Qed.

Lemma open_backup_unused s c l : t_disk s = Some (disk_of c) → holds c l → openable (fs_container (t_backup s)) →
  ∃ c1, open_backup s = (with_backup (Sequence (fs_addr (t_backup s)) c1 (fs_last (t_backup s))) s, Ret tt) ∧ unused c1 l (cend c).
Proof using HR.
  intros Ed Hc Ho. destruct (rc_close _ Ho) as (c0 & E0 & Ho0). destruct (rc_open _ _ c0 (t_filename s) Hc Ho0) as (c1 & E1 & Hu1).
  exists c1. split; [|done]. unfold open_backup. rewrite (bind_Ret get_st _ s s s eq_refl). apply on_backup_Ret.
  unfold fs_open, call, on_container. rewrite or_throw_Ret with (c' := c1) (a := tt); [done|].
  erewrite bind_Ret by exact E0. by rewrite Ed.
Qed.
Lemma close_backup_runs s l : holds (fs_container (t_backup s)) l → ∃ c1,
  close_backup s = (TimerState (t_filename s) (Some (disk_of (fs_container (t_backup s)))) (t_events s) (t_fresh s)
    (Sequence (fs_addr (t_backup s)) c1 (fs_last (t_backup s))), Ret tt) ∧ openable c1.
Proof using HR.
  intros Hc. destruct (rc_close _ (rc_openable _ _ Hc)) as (c1 & E1 & Ho). exists c1. split; [|done]. unfold close_backup.
  erewrite bind_Ret by reflexivity. erewrite on_backup_Ret; [reflexivity|]. unfold fs_close, on_container. cbn. by rewrite E1.
Qed.

(** A call that asks for the end of the list first. *)
Definition end_first {X} (m : FL C X) : Prop := ∃ k, ∀ q : file_sequence C, m q = (call c_read_end ≫= k) q.
Lemma push_back_end_first (a : A) : end_first (push_back a).
Proof using. eexists. intros q. unfold push_back, getEnd. by rewrite bind_assoc. Qed.
Lemma erase_end_first (i : FLIterator A) : end_first (erase i).
Proof using. eexists. intros q. unfold erase, erasePointer. by rewrite bind_assoc. Qed.
Lemma end_end_first : end_first (end_ (T := A)).
Proof using. eexists. intros q. unfold end_, getEnd. by rewrite bind_assoc. Qed.

Lemma on_backup_unused {X} (m : FL C X) s l z : end_first m → unused (fs_container (t_backup s)) l z →
  bi_container (fs_last (t_backup s)) = Some (fs_addr (t_backup s)) →
  ∃ b, seq b l ∧ send b = z ∧ fs_addr b = fs_addr (t_backup s) ∧
    ∀ Y (k : X → M (Timer C T A) timer_error Y), (on_backup m ≫= k) s = (on_backup m ≫= k) (with_backup b s).
Proof using HR.
  intros [k0 Hk] Hus Hb. destruct (first_call k0 _ l z Hus) as (c & Hh & He & E).
  exists (Sequence (fs_addr (t_backup s)) c (fs_last (t_backup s))). split; [split; [exact Hh|exact Hb]|]. split; [done|]. split; [done|].
  intros Y k. unfold mbind, M_bind, on_backup. cbn [t_backup with_backup]. by rewrite !Hk, E.
Qed.
Lemma opened_call {X} (m : FL C X) s c l : end_first m → t_disk s = Some (disk_of c) → holds c l →
  openable (fs_container (t_backup s)) → bi_container (fs_last (t_backup s)) = Some (fs_addr (t_backup s)) →
  ∃ b, seq b l ∧ send b = cend c ∧ fs_addr b = fs_addr (t_backup s) ∧
    ∀ Y (k : X → M (Timer C T A) timer_error Y), (open_backup;; on_backup m ≫= k) s = (on_backup m ≫= k) (with_backup b s).
Proof using HR.
  intros Hm Hd Hc Ho Hb. destruct (open_backup_unused s c l Hd Hc Ho) as (c1 & E1 & U1).
  destruct (on_backup_unused m (with_backup (Sequence (fs_addr (t_backup s)) c1 (fs_last (t_backup s))) s) l (cend c) Hm U1 Hb) as (b & H1 & H2 & H3 & H4).
  exists b. split; [done|]. split; [done|]. split; [done|]. intros Y k. by rewrite (bind_Ret _ _ _ _ _ E1), H4.
Qed.

(** ** [start_timer] *)
Lemma holds_items_start s b (d : option bytes) (items : list item) i : holds_items s items → item_ok (fs_addr (t_backup s)) i →
  n_id (i_node i) = t_fresh s → n_key (i_node i) = (i_timer i).1 → fs_addr b = fs_addr (t_backup s) → bi_container (fs_last b) = Some (fs_addr b) →
  holds_items (TimerState (t_filename s) d (mm_insert n_key (i_node i) (t_events s)) (S (t_fresh s)) b) (items ++ [i]).
Proof using.
  intros [H1 H2 H3 H4 H5] Hi Hid Hk Ha Hb. split; cbn [t_backup t_fresh t_events].
  - rewrite Ha. apply Forall_app. by split; [|constructor].
  - unfold ids. rewrite fmap_app. apply NoDup_app. split; [done|]. split; [|apply NoDup_singleton].
    intros x Hx Hx'. apply list_elem_of_singleton in Hx' as ->. rewrite Hid in Hx. eapply Forall_forall in H3; [|exact Hx]. cbn in H3. lia.
  - unfold ids. rewrite fmap_app. apply Forall_app. split; [eapply Forall_impl; [exact H3|]; cbn; intros; lia|]. constructor; [lia|constructor].
  - rewrite mm_inserts_snoc, H4. symmetry.
    assert (∀ l, Forall (λ j, n_key (i_node j) = i_key j) l → i_node <$> mm_insert i_key i l = mm_insert n_key (i_node i) (i_node <$> l)) as Hm.
    { induction 1 as [|j l Hj _ IH]; [done|]. cbn. rewrite Hj, Hk. change (i_timer i).1 with (i_key i). case_bool_decide; [done|]. cbn. f_equal. exact IH. }
    apply Hm. rewrite mm_inserts_perm, app_nil_r. eapply Forall_impl; [exact H1|]. intros j Hj. apply (io_key _ _ Hj).
  - exact Hb.
Qed.

(** The room that a new timer takes in the file. *)
Definition timer_size (expire : Z) e : Z :=
  from_option (λ d, calculateDataSize (Z.of_nat (length d))) 0 (to_string (timeout_ad (A := A) expire e)).

Lemma start_timer_runs s L z expire e : runs s L z → good_event e → long_min ≤ expire ≤ long_max → z + timer_size expire e ≤ off_max →
  gives_runs s (start_timer expire e) (mm_insert fst (expire, e) L) (z + timer_size expire e).
Proof using HR HTL HAL.
  intros (items & (c & Hd & Hc & Hz & Ho & Hi) & ->) He Hx Hroom. destruct (to_classad_kept (A := A) expire e He) as (d & Ead & Ed & Hne & Hk).
  assert (calculateDataSize (Z.of_nat (length d)) = timer_size expire e) as Hsz by (unfold timer_size; by rewrite Ed).
  set (ad := timeout_ad expire e) in *.
  unfold gives_runs, start_timer. rewrite Ead.
  destruct (opened_call (push_back ad) s c _ (push_back_end_first ad) Hd Hc Ho (hi_last _ _ Hi)) as (b0 & S0 & Z0 & A0 & E0). rewrite E0. clear E0.
  destruct (push_back_seq b0 _ ad d S0 Ed Hne) as (b1 & E1 & G1 & G2 & G3); [unfold room; rewrite Z0, Hz, Hsz; lia|].
  rewrite (bind_Ret _ _ _ _ _ (on_backup_Ret _ (with_backup b0 s) _ _ E1)).
  destruct (last_walk (A := A) b1 _ (send b0, d) G1) as (b2 & i & E2 & (K1 & K2 & K3) & Hoe).
  rewrite (bind_Ret _ _ _ _ _ (on_backup_Ret _ (with_backup b1 (with_backup b0 s)) _ _ E2)).
  set (ev := Timeout expire (Some (set_time (mktime (eventTime e)).2 e)) (Some ad) fli_null) in *.
  erewrite bind_Ret by reflexivity. cbn [with_backup t_filename t_disk t_events t_fresh t_backup].
  edestruct close_backup_runs as (c3 & E3 & Ho3); [|rewrite E3]; [cbn [t_backup]; apply K1|]. cbn [t_filename t_disk t_events t_fresh t_backup].
  set (it := Item (send b0, d) (expire, e) (Node (t_fresh s) expire (set_pointer i ev))).
  eexists _, (send b2). split; [reflexivity|]. split; [|rewrite K2, G2, Hsz, Z0; lia].
  exists (items ++ [it]). split; [|unfold timers_of; rewrite mm_inserts_snoc; symmetry; by apply (mm_insert_map i_key fst i_timer (λ _, eq_refl) it)].
  exists (fs_container b2). cbn [t_disk t_backup fs_container]. split; [done|]. split; [rewrite fmap_app; apply K1|]. split; [done|]. split; [done|].
  apply (holds_items_start s (Sequence (fs_addr b2) c3 (fs_last b2)) _ items it Hi); [|done|done|cbn; congruence|apply K1].
  split; cbn; try done.
  - eexists. split; [reflexivity|]. exists (body e). by split; [|left].
  - apply on_entry_assign. replace (fs_addr (t_backup s)) with (fs_addr b2) by congruence. exact Hoe.
Qed.

(** ** Removals *)
Lemma find_node_in (l : list (node T A)) x : NoDup (n_id <$> l) → x ∈ l → find_node (n_id x) l = Some x.
Proof using.
  intros Hn Hx. unfold find_node. destruct (list_find_elem_of (λ y, n_id y = n_id x) l x Hx eq_refl) as [[i y] E]. rewrite E. cbn.
  apply list_find_Some in E as (Hy & E & _). apply list_elem_of_lookup in Hx as [j Hj].
  assert (i = j) as -> by (eapply NoDup_lookup; [exact Hn|rewrite list_lookup_fmap, Hy; cbn; by rewrite E|by rewrite list_lookup_fmap, Hj]). congruence.
Qed.
Lemma filter_ids (I1 I2 : list item) i : NoDup (ids (I1 ++ i :: I2)) →
  filter (λ j, n_id (i_node j) ≠ n_id (i_node i)) (I1 ++ i :: I2) = I1 ++ I2.
Proof using.
  intros Hn. rewrite filter_app, filter_cons. destruct (decide (n_id (i_node i) ≠ n_id (i_node i))) as [E|_]; [done|].
  unfold ids in Hn. rewrite fmap_app, fmap_cons in Hn. apply NoDup_app in Hn as (_ & Hn1 & Hn2). apply NoDup_cons in Hn2 as [Hn2 _].
  rewrite !filter_all; [done| |]; apply Forall_forall; intros j Hj E.
  - apply Hn2. rewrite <- E. apply list_elem_of_fmap. by exists j.
  - apply (Hn1 (n_id (i_node i))); [|apply list_elem_of_here]. rewrite <- E. apply list_elem_of_fmap. by exists j.
Qed.
Lemma ids_inj (S : list item) i j : NoDup (ids S) → n_id (i_node i) = n_id (i_node j) → i ∈ S → j ∈ S → i = j.
Proof using.
  intros Hn E [x Hx]%list_elem_of_lookup [y Hy]%list_elem_of_lookup.
  assert (x = y) as -> by (eapply NoDup_lookup; [exact Hn|unfold ids; rewrite list_lookup_fmap, Hx; reflexivity|unfold ids; rewrite list_lookup_fmap, Hy; cbn; by rewrite E]). congruence.
Qed.
Lemma events_ids s items : holds_items s items → NoDup (n_id <$> t_events s).
Proof using.
  intros Hi. rewrite (hi_events _ _ Hi), <- list_fmap_compose, mm_inserts_perm, app_nil_r. apply (hi_ids _ _ Hi).
Qed.

Lemma remove_at_filed s I1 i I2 z : filed s (I1 ++ i :: I2) z →
  ∃ s' z', remove_at (Some (n_id (i_node i))) s = (s', Ret tt) ∧ filed s' (I1 ++ I2) z' ∧ z' ≤ z.
Proof using HR.
  intros (c & Hd & Hc & Hz & Ho & Hi). pose proof (events_ids _ _ Hi) as Hn. destruct Hi as [H1 H2 H3 H4 H5].
  assert (item_ok (fs_addr (t_backup s)) i) as Hok by (apply Forall_app in H1 as [_ H1]; by inversion H1).
  unfold remove_at. rewrite (bind_Ret get_events _ s s _ eq_refl).
  rewrite find_node_in; [|done|rewrite H4; apply list_elem_of_fmap; exists i; split; [done|]; rewrite mm_inserts_perm, app_nil_r; apply elem_of_app; right; apply list_elem_of_here].
  set (ptr := fli_assign _). destruct (opened_call (erase ptr) s c _ (erase_end_first ptr) Hd Hc Ho H5) as (b0 & S0 & Z0 & A0 & E0). rewrite E0. clear E0.
  rewrite fmap_app, fmap_cons in S0. destruct (i_entry i) as [p d] eqn:Een.
  destruct (erase_at b0 (i_entry <$> I1) p d (i_entry <$> I2) ptr S0) as (b1 & i1 & E1 & (S1 & Z1 & A1) & _).
  { pose proof (oe_position _ _ _ (io_pointer _ _ Hok)) as Hp. rewrite Een in Hp. exact Hp. }
  rewrite (bind_Ret _ _ _ _ _ (on_backup_Ret _ (with_backup b0 s) _ _ E1)).
  destruct (close_backup_runs (with_backup b1 (with_backup b0 s)) _ (proj1 S1)) as (c2 & E2 & Ho2). rewrite (bind_Ret _ _ _ _ _ E2).
  cbn [with_backup t_filename t_disk t_events t_fresh t_backup]. erewrite bind_Ret by reflexivity. cbn [t_events].
  eexists _, (send b1). split; [reflexivity|]. split; [|lia]. exists (fs_container b1). cbn [t_disk t_backup fs_container].
  split; [done|]. split; [rewrite fmap_app; apply S1|]. split; [done|]. split; [done|]. split; cbn [t_backup t_fresh t_events fs_addr fs_last].
  - rewrite A1, A0. apply Forall_app in H1 as [H1 H1']. apply Forall_app. split; [done|by inversion H1'].
  - eapply sublist_NoDup; [exact H2|]. apply fmap_sublist, sublist_app; [done|]. by apply sublist_cons.
  - unfold ids in *. rewrite fmap_app, fmap_cons, !Forall_app, !Forall_cons in *. by destruct H3 as (? & _ & ?).
  - rewrite H4, filter_map. f_equal. rewrite filter_mm_inserts by constructor. by rewrite filter_ids.
  - apply S1.
Qed.

(** The nodes that pass a test, and their removal one after the other. *)
Lemma collect_events_items addr (test : ULogEvent T → bool) (t : item → bool) (S : list item) :
  Forall (item_ok addr) S → (∀ i e', shows (i_timer i).2 e' → test e' = t i) →
  collect_events u test (i_node <$> S) = Ret (i_node <$> S, ids (filter (λ i, t i = true) S)).
Proof using.
  intros HS Ht. induction HS as [|i S Hi _ IH]; [done|]. rewrite fmap_cons, filter_cons. cbn [collect_events].
  destruct (io_event _ _ Hi) as (e' & Ee & Hs). unfold to_event. rewrite Ee, IH, (Ht i e' Hs).
  replace (Node (n_id (i_node i)) (n_key (i_node i)) (n_event (i_node i))) with (i_node i) by by destruct (i_node i).
  destruct (t i); [rewrite decide_True by done|rewrite decide_False by done]; done.
Qed.
Lemma remove_each_filed ns : ∀ s items z, filed s items z → NoDup ns → ns ⊆ ids items →
  ∃ s' z', remove_each ns s = (s', Ret tt) ∧ filed s' (filter (λ i, n_id (i_node i) ∉ ns) items) z' ∧ z' ≤ z.
Proof using HR.
  induction ns as [|n ns IH]; intros s items z Hf Hn Hsub.
  { exists s, z. split; [done|]. split; [|done]. rewrite filter_all; [done|]. apply Forall_forall. intros i _. apply not_elem_of_nil. }
  apply NoDup_cons in Hn as [Hn Hns]. assert (n ∈ ids items) as Hin by (apply Hsub, list_elem_of_here).
  apply list_elem_of_fmap in Hin as (i & -> & Hi). apply list_elem_of_split in Hi as (I1 & I2 & ->).
  assert (NoDup (ids (I1 ++ i :: I2))) as Hid by (destruct Hf as (c & _ & _ & _ & _ & Hi); apply (hi_ids _ _ Hi)).
  destruct (remove_at_filed s I1 i I2 z Hf) as (s1 & z1 & E1 & F1 & Z1). cbn [remove_each]. rewrite (bind_Ret _ _ _ _ _ E1).
  pose proof (filter_ids I1 I2 i Hid) as Hfi.
  destruct (IH s1 (I1 ++ I2) z1 F1 Hns) as (s2 & z2 & E2 & F2 & Z2).
  { intros m Hm. assert (m ∈ ids (I1 ++ i :: I2)) as H by (apply Hsub; by right). apply list_elem_of_fmap in H as (j & -> & Hj).
    apply list_elem_of_fmap. exists j. split; [done|]. rewrite <- Hfi. apply list_elem_of_filter. split; [|done]. intros E. rewrite E in Hm. done. }
  exists s2, z2. split; [done|]. split; [|lia]. rewrite <- Hfi, filter_filter in F2. erewrite list_filter_iff; [exact F2|].
  intros j. rewrite not_elem_of_cons. tauto.
Qed.

Lemma mm_inserts_timers (items : list item) : timers_of items = mm_inserts fst (i_timer <$> items) [].
Proof using.
  unfold timers_of. assert (∀ l, i_timer <$> mm_inserts i_key items l = mm_inserts fst (i_timer <$> items) (i_timer <$> l)) as H; [|by rewrite H].
  induction items as [|i items IH]; intros l; [done|]. change (mm_inserts i_key (i :: items) l) with (mm_inserts i_key items (mm_insert i_key i l)).
  rewrite IH, (mm_insert_map i_key fst i_timer (λ _, eq_refl)). done.
Qed.

Lemma remove_matching_runs (test : ULogEvent T → bool) (P : Timers.t T → Prop) `{∀ x, Decision (P x)} s L z :
  (∀ e e' t, shows e e' → test e' = true ↔ ¬ P (t, e)) → runs s L z → gives_runs s (remove_matching u test) (filter P L) z.
Proof using HR.
  intros Ht (items & Hf & ->). pose proof Hf as (c & Hd & Hc & Hz & Ho & Hi). set (S := mm_inserts i_key items []).
  assert (S ≡ₚ items) as HS by (unfold S; by rewrite mm_inserts_perm, app_nil_r).
  assert (Forall (item_ok (fs_addr (t_backup s))) S) as HokS by (rewrite HS; apply (hi_ok _ _ Hi)).
  unfold gives_runs, remove_matching. rewrite (bind_Ret get_events _ s s _ eq_refl), (hi_events _ _ Hi). fold S.
  rewrite (collect_events_items _ _ (λ i, bool_decide (¬ P (i_timer i))) S HokS).
  2:{ intros i e' Hs. destruct (i_timer i) as [t e] eqn:Et. apply eq_true_iff_eq. rewrite bool_decide_eq_true. by apply Ht. }
  cbn [on_event]. rewrite bind_mret. cbn [fst snd].
  erewrite (bind_Ret (set_events _) _ s); [|unfold set_events, modify; unfold S; rewrite <- (hi_events _ _ Hi); by destruct s].
  set (R := filter _ S). assert (NoDup (ids items)) as Hnd by apply (hi_ids _ _ Hi).
  assert (NoDup (ids S)) as HndS by (unfold ids in *; by rewrite HS).
  assert (R `sublist_of` S) as HR' by apply sublist_filter.
  destruct (remove_each_filed (ids R) s items z Hf) as (s' & z' & E & F & Z).
  { eapply sublist_NoDup; [exact HndS|]. by apply fmap_sublist. }
  { intros n Hn. apply list_elem_of_fmap in Hn as (i & -> & Hi'). apply list_elem_of_fmap. exists i. split; [done|].
    rewrite <- HS. by eapply elem_of_sublist. }
  exists s', z'. split; [done|]. split; [|done]. eexists. split; [exact F|].
  assert (filter (λ i, n_id (i_node i) ∉ ids R) items = filter (λ i, P (i_timer i)) items) as ->.
  { apply filter_iff_in. intros i Hin. rewrite <- HS in Hin. split.
    - intros Hn. destruct (decide (P (i_timer i))) as [|HP]; [done|]. destruct Hn. apply list_elem_of_fmap. exists i. split; [done|].
      apply list_elem_of_filter. split; [by apply bool_decide_eq_true|done].
    - intros HP Hn. apply list_elem_of_fmap in Hn as (j & Ej & Hj). apply list_elem_of_filter in Hj as [Hj1 Hj2].
      assert (i = j) as ->. { by apply (ids_inj S). } by apply bool_decide_eq_true in Hj1. }
  unfold timers_of. fold S. rewrite <- (filter_mm_inserts i_key (λ i, P (i_timer i)) items []) by constructor. fold S. apply filter_map.
Qed.

Lemma remove_nth_runs s L z k : runs s L z → gives_runs s (remove_at (n_id <$> t_events s !! k)) (delete k L) z.
Proof using HR.
  intros (items & Hf & ->). pose proof Hf as (c & _ & _ & _ & _ & Hi). rewrite (hi_events _ _ Hi), list_lookup_fmap. unfold timers_of.
  set (S := mm_inserts i_key items []). assert (S ≡ₚ items) as HS by (unfold S; by rewrite mm_inserts_perm, app_nil_r).
  destruct (S !! k) as [i|] eqn:Ek; cbn.
  - assert (NoDup (ids S)) as HndS by (unfold ids; rewrite HS; apply (hi_ids _ _ Hi)).
    assert (i ∈ items) as Hin by (rewrite <- HS; by eapply list_elem_of_lookup_2). apply list_elem_of_split in Hin as (I1 & I2 & ->).
    destruct (remove_at_filed s I1 i I2 z Hf) as (s' & z' & E & F & Z). exists s', z'. split; [done|]. split; [|done]. eexists. split; [exact F|].
    unfold timers_of. rewrite <- (filter_ids I1 I2 i (hi_ids _ _ Hi)), <- (filter_mm_inserts i_key _ (I1 ++ i :: I2) []) by constructor. fold S.
    apply list_elem_of_split_length in Ek as (S1 & S2 & ES & Hk). rewrite ES in HndS |- *. rewrite filter_ids by done.
    rewrite !fmap_app, fmap_cons. subst k. rewrite <- (length_fmap i_timer S1). apply delete_middle.
  - exists s, z. split; [done|]. split; [|done]. exists items. split; [done|]. unfold timers_of. fold S. apply delete_none.
    by rewrite list_lookup_fmap, Ek.
Qed.

(** ** Restart *)
Lemma restore_loop_items fuel : ∀ s (I1 : list item) l2 J i (e : FLIterator A),
  (length l2 < fuel)%nat → seq (t_backup s) ((i_entry <$> I1) ++ l2) → walk (t_backup s) (i_entry <$> I1) l2 i →
  pos_at (t_backup s) ((i_entry <$> I1) ++ l2) [] (fli_base e) → holds_items s I1 →
  Forall2 (λ en tm, good_event tm.2 ∧ (long_min ≤ tm.1 ≤ long_max) ∧ kept_text (A := A) tm.1 tm.2 en.2) l2 J →
  ∃ s' I2, restore_loop u fuel i e s = (s', Ret tt) ∧ keeps (t_backup s) (t_backup s') ((i_entry <$> I1) ++ l2) ∧
    holds_items s' (I1 ++ I2) ∧ i_entry <$> I2 = l2 ∧ i_timer <$> I2 = J.
Proof using Hu HTL HAL HL.
  induction fuel as [|f IH]; intros s I1 l2 J i e Hf Hs [Hp Hw] He Hi HJ; [lia|]. cbn [restore_loop].
  rewrite (is_different_end _ _ l2 _ _ Hs Hp He). destruct HJ as [|en [t ev] l2 J (Hg & Hr & Hk) HJ].
  { rewrite bool_decide_false by auto. exists s, []. rewrite (app_nil_r I1). split; [done|]. by split_and!. }
  rewrite bool_decide_true by done. pose proof Hk as (ad & Ead & _). cbn [fst snd] in *.
  destruct (deref_entry _ i en ad Hw Ead) as (i1 & E1 & Hoe & Hit).
  rewrite (bind_Ret _ _ _ _ _ (on_backup_Ret _ _ _ _ E1)). cbn [fst snd].
  replace (with_backup (t_backup s) s) with s by by destruct s. rewrite (bind_Ret get_st _ s s s eq_refl).
  destruct (to_event_kept (u (t_fresh s)) t ev en.2 (set_pointer i1 (TimeoutEvent_of_ad ad)) ad (λ _, Hu _) Hg Hr Hk Ead eq_refl eq_refl) as (fresh & Efr & Ete).
  unfold timeout. rewrite Ete. cbn [on_event te_epoch]. rewrite bind_mret. cbn [fst snd].
  set (te := Timeout t _ _ _). erewrite bind_Ret by reflexivity. set (it := Item en (t, ev) (Node (t_fresh s) t te)).
  set (s1 := TimerState _ _ _ _ _).
  assert (holds_items s1 (I1 ++ [it])) as Hi1.
  { apply (holds_items_start s (t_backup s) (t_disk s) I1 it Hi); [|done|done|done|apply Hi]. split; cbn; try done.
    - eexists. split; [reflexivity|]. eexists. split; [reflexivity|]. right. by exists (t_fresh s), fresh.
    - by apply on_entry_assign. }
  assert (pos_at (t_backup s1) (i_entry <$> I1) (en :: l2) (fli_base i1)) as Hp1.
  { split; [rewrite Hit; apply Hp|]. by rewrite (oe_container _ _ _ Hoe). }
  destruct (incr_walk (t_backup s1) _ en l2 i1 Hs Hp1) as (b2 & i2 & E2 & K2 & W2).
  rewrite (bind_Ret _ _ _ _ _ (on_backup_Ret _ s1 _ _ E2)).
  replace ((i_entry <$> I1) ++ en :: l2) with ((i_entry <$> (I1 ++ [it])) ++ l2) in * by by rewrite fmap_app, <- app_assoc.
  replace ((i_entry <$> I1) ++ [en]) with (i_entry <$> (I1 ++ [it])) in W2 by by rewrite fmap_app.
  assert (holds_items (with_backup b2 s1) (I1 ++ [it])) as Hi2.
  { destruct Hi1 as [? ? ? ? ?]. destruct K2 as ((_ & K1) & _ & K3). split; try done. cbn [with_backup t_backup]. by rewrite K3. }
  destruct (IH (with_backup b2 s1) (I1 ++ [it]) l2 J i2 e) as (s3 & I2 & E3 & K3 & H3 & R1 & R2);
    [simpl in Hf; lia|apply K2|done|by eapply keeps_pos|done|done|].
  exists s3, (it :: I2). split; [done|]. split; [by eapply keeps_trans|]. rewrite <- app_assoc in H3. split; [done|].
  cbn. by rewrite R1, R2.
Qed.

(** The constructor, once the file is open. *)
Definition construct_body (fuel : nat) : M (Timer C T A) timer_error unit :=
  end_ ← on_backup end_;
  empty ← on_backup fs_empty;
  (if (empty : bool) then mret tt
   else
     first ← on_backup begin_;
     restore_loop u fuel (fli_assign first) end_);;
  close_backup.

Lemma construct_body_runs s l J fuel : seq (t_backup s) l → holds_items s [] → (length l < fuel)%nat →
  Forall2 (λ en tm, good_event tm.2 ∧ (long_min ≤ tm.1 ≤ long_max) ∧ kept_text (A := A) tm.1 tm.2 en.2) l J →
  gives_runs s (construct_body fuel) (mm_inserts fst J []) (send (t_backup s)).
Proof using Hu HTL HAL HR.
  intros Hs Hi Hf HJ. unfold gives_runs, construct_body.
  destruct (end_walk (A := A) _ l Hs) as (b1 & e & E1 & K1 & [P1 _]). rewrite (bind_Ret _ _ _ _ _ (on_backup_Ret _ _ _ _ E1)).
  destruct (fs_empty_seq b1 l (proj1 K1)) as (b2 & E2 & K2). rewrite (bind_Ret _ _ _ _ _ (on_backup_Ret _ (with_backup b1 s) _ _ E2)).
  pose proof (keeps_trans _ _ _ _ K1 K2) as K12. set (s2 := with_backup b2 (with_backup b1 s)).
  assert (∀ b, keeps (t_backup s) b l → holds_items (with_backup b s) []) as Hib.
  { intros b ((_ & Kb) & _ & Ka). destruct Hi. by split. }
  assert (∃ s' I, (if bool_decide (l = []) then mret tt else first ← on_backup begin_; restore_loop u fuel (fli_assign first) e) s2 = (s', Ret tt) ∧
    keeps (t_backup s) (t_backup s') l ∧ holds_items s' I ∧ i_entry <$> I = l ∧ i_timer <$> I = J) as (s3 & I & E3 & K3 & H3 & R1 & R2).
  { case_bool_decide as El.
    - exists s2, []. split; [done|]. split; [done|]. split; [by apply Hib|]. rewrite El in HJ |- *. by inversion HJ.
    - destruct (begin_walk (A := A) b2 l (proj1 K2)) as (b3 & i & E3 & K3 & [P3 W3]). rewrite (bind_Ret _ _ _ _ _ (on_backup_Ret _ s2 _ _ E3)).
      pose proof (keeps_trans _ _ _ _ K12 K3) as K13.
      destruct (restore_loop_items fuel (with_backup b3 s2) [] l J (fli_assign i) e Hf) as (s4 & I & E4 & K4 & H4 & R1 & R2);
        [apply K3|split; [done|by destruct l; [|apply on_entry_assign]]|exact (keeps_pos _ _ _ _ _ _ K3 (keeps_pos _ _ _ _ _ _ K2 P1))|by apply Hib|done|].
      exists s4, I. split; [done|]. split; [by eapply keeps_trans|]. by split_and!. }
  rewrite (bind_Ret _ _ _ _ _ E3). destruct (close_backup_runs s3 l (proj1 (proj1 K3))) as (c4 & E4 & Ho4). rewrite E4.
  eexists _, (send (t_backup s)). split; [reflexivity|]. split; [|done]. exists I. split; [|by rewrite mm_inserts_timers, R2].
  exists (fs_container (t_backup s3)). cbn [t_disk t_backup fs_container]. split; [done|]. rewrite R1. split; [apply K3|]. split; [apply K3|]. split; [done|].
  destruct H3. by split.
Qed.

Lemma no_items name d addr (c0 c : C) : holds_items (with_backup (Sequence addr c (bi_of_sequence addr)) (Timer_new name d addr c0)) [].
Proof using. split; try done; constructor. Qed.

Lemma restart_runs s L z name addr c0 fuel : runs s L z → openable c0 → (length L < fuel)%nat →
  gives_runs (Timer_new name (t_disk s) addr c0) (Timer_construct u fuel) L z.
Proof using Hu HTL HAL HR.
  intros (items & (c & Hd & Hc & Hz & _ & Hi) & ->) Ho Hf. destruct (rc_open c _ c0 name Hc Ho) as (c1 & E1 & U1).
  set (s1 := with_backup (Sequence addr c1 (bi_of_sequence addr)) (Timer_new name (t_disk s) addr c0)).
  destruct (on_backup_unused end_ s1 _ _ end_end_first U1 eq_refl) as (b & Sb & Zb & Ab & Eb).
  destruct (construct_body_runs (with_backup b s1) (i_entry <$> items) (i_timer <$> items) fuel Sb) as (s' & z' & E & R & Z).
  - destruct (no_items name (t_disk s) addr c0 c1) as [? ? ? ? ?]. split; try done. cbn [with_backup t_backup]. apply Sb.
  - unfold timers_of in Hf. by rewrite length_fmap, mm_inserts_perm, app_nil_r, <- (length_fmap i_entry) in Hf.
  - apply Forall2_fmap, Forall_Forall2_diag. eapply Forall_impl; [apply (hi_ok _ _ Hi)|]. intros i [H1 H2 H3 _ _ _ _]. exact (conj H1 (conj H2 H3)).
  - exists s', z'. rewrite mm_inserts_timers. split; [|split; [done|]; cbn in Z; lia]. unfold Timer_construct. rewrite (bind_Ret get_st _ _ _ _ eq_refl).
    erewrite bind_Ret; [|apply (on_backup_Ret _ _ (Sequence addr c1 (bi_of_sequence addr)) tt); unfold on_container; cbn; by rewrite Hd, E1].
    fold s1. rewrite Eb. exact E.
Qed.
Lemma create_runs name addr c0 fuel : openable c0 → (0 < fuel)%nat →
  gives_runs (Timer_new name None addr c0) (Timer_construct u fuel) [] fc_s_headerSize.
Proof using Hu HTL HAL HR.
  intros Ho Hf. destruct (rc_create c0 name Ho) as (c1 & E1 & H1 & Z1).
  set (s1 := with_backup (Sequence addr c1 (bi_of_sequence addr)) (Timer_new name None addr c0)).
  destruct (construct_body_runs s1 [] [] fuel) as (s' & z' & E & R & Z); [by split|apply no_items|done|constructor|].
  exists s', z'. split; [|split; [done|]; unfold send in Z; cbn in Z; lia]. unfold Timer_construct. rewrite (bind_Ret get_st _ _ _ _ eq_refl).
  erewrite bind_Ret; [|apply (on_backup_Ret _ _ (Sequence addr c1 (bi_of_sequence addr)) tt); unfold on_container; cbn; by rewrite E1]. exact E.
Qed.

(** ** Sequences of operations *)
Definition perform (fuel : nat) (addr : nat) (c0 : C) (c : Timers.command T) : M (Timer C T A) timer_error unit :=
  match c with
  | Timers.Start expire e => start_timer expire e
  | Timers.RemoveAt i => λ s, remove_at (n_id <$> t_events s !! i) s
  | Timers.RemoveEvent condorid eventcode => remove_timeout u condorid eventcode
  | Timers.RemoveAll condorid => remove_all_timeouts u condorid
  | Timers.Restart => λ s, Timer_construct u fuel (Timer_new (t_filename s) (t_disk s) addr c0)
  end.
Fixpoint perform_all (fuel : nat) (addr : nat) (c0 : C) (cs : list (Timers.command T)) : M (Timer C T A) timer_error unit :=
  match cs with
  | [] => mret tt
  | c :: cs => perform fuel addr c0 c;; perform_all fuel addr c0 cs
  end.

Definition command_ok (c : Timers.command T) : Prop :=
  match c with Timers.Start expire e => good_event e ∧ long_min ≤ expire ≤ long_max | _ => True end.
Definition command_size (c : Timers.command T) : Z := match c with Timers.Start expire e => timer_size expire e | _ => 0 end.
Definition commands_size (cs : list (Timers.command T)) : Z := foldr (λ c n, command_size c + n) 0 cs.
Lemma timer_size_nonneg expire e : 0 ≤ timer_size expire e.
Proof using. unfold timer_size. destruct (to_string _); cbn; [|lia]. rewrite calculateDataSize_eq. lia. Qed.
Lemma commands_size_nonneg cs : 0 ≤ commands_size cs.
Proof using.
  induction cs as [|c cs IH]; [done|]. change (commands_size (c :: cs)) with (command_size c + commands_size cs).
  destruct c as [expire e| | | |]; cbn [command_size]; try lia. pose proof (timer_size_nonneg expire e). lia.
Qed.

Lemma timer_step_length c L : (length (Timers.step c L) ≤ S (length L))%nat.
Proof using.
  destruct c; cbn [Timers.step]; [by rewrite mm_insert_perm| | | |lia].
  - destruct (L !! i) eqn:E; [rewrite length_delete by by rewrite E|rewrite delete_none by done]; lia.
  - etrans; [apply length_filter|lia].
  - etrans; [apply length_filter|lia].
Qed.

Lemma perform_runs fuel addr c0 c s L z : runs s L z → openable c0 → command_ok c → z + command_size c ≤ off_max → (length L < fuel)%nat →
  gives_runs s (perform fuel addr c0 c) (Timers.step c L) (z + command_size c).
Proof using Hu HTL HAL HR.
  intros HL0 Ho Hok Hroom Hf. destruct c; cbn [perform Timers.step command_size command_ok] in *; rewrite ?Z.add_0_r.
  - destruct Hok. by apply start_timer_runs.
  - by apply remove_nth_runs.
  - unfold remove_timeout. apply remove_matching_runs; [|done]. intros e e' t Hs. rewrite (shows_cluster _ _ Hs), (shows_number _ _ Hs). cbn [snd].
    rewrite andb_true_iff, !bool_decide_eq_true. split; [intros H1 H2; by apply H2|]. intros H1. destruct (decide (cluster e = condorid ∧ eventNumber e = eventcode)); [done|tauto].
  - unfold remove_all_timeouts. apply remove_matching_runs; [|done]. intros e e' t Hs. rewrite (shows_cluster _ _ Hs). cbn [snd].
    rewrite bool_decide_eq_true. split; [intros H1 H2; by apply H2|]. intros H1. destruct (decide (cluster e = condorid)); [done|tauto].
  - by apply restart_runs.
Qed.

Lemma perform_all_runs fuel addr c0 cs : ∀ s L z, runs s L z → openable c0 → Forall command_ok cs → z + commands_size cs ≤ off_max →
  (length L + length cs < fuel)%nat → gives_runs s (perform_all fuel addr c0 cs) (Timers.steps cs L) (z + commands_size cs).
Proof using Hu HTL HAL HR.
  induction cs as [|c cs IH]; intros s L z HL0 Ho Hok Hroom Hf.
  { exists s, z. split; [done|]. split; [done|]. cbn. lia. }
  apply Forall_cons in Hok as [Hc Hok]. change (commands_size (c :: cs)) with (command_size c + commands_size cs) in *.
  pose proof (commands_size_nonneg cs). cbn [length] in Hf. destruct (perform_runs fuel addr c0 c s L z HL0 Ho Hc) as (s1 & z1 & E1 & R1 & Z1); [lia|lia|].
  pose proof (timer_step_length c L). destruct (IH s1 _ z1 R1 Ho Hok) as (s2 & z2 & E2 & R2 & Z2); [lia|lia|].
  exists s2, z2. split; [|split; [done|lia]]. cbn [perform_all]. by rewrite (bind_Ret _ _ _ _ _ E1).
Qed.

(** What a walk over the timers shows. *)
Definition presents e (n : node T A) (expire : Z) : Prop :=
  n_key n = expire ∧ ∃ e', te_event (n_event n) = Some e' ∧ eventTime e' = (mktime (eventTime e)).2 ∧ cluster e' = cluster e ∧ proc e' = proc e ∧
    subproc e' = subproc e ∧ eventNumber e' = eventNumber e ∧ (faithful (body e) = true → body e' = body e).
Lemma runs_presents s L z : runs s L z → Forall2 (λ n tm, presents tm.2 n tm.1) (t_events s) L ∧ in_order fst L.
Proof using.
  intros (items & (c & _ & _ & _ & _ & Hi) & ->). rewrite (hi_events _ _ Hi). split.
  - apply Forall2_fmap, Forall_Forall2_diag. rewrite mm_inserts_perm, app_nil_r. eapply Forall_impl; [apply (hi_ok _ _ Hi)|]. intros i Hok.
    split; [apply (io_key _ _ Hok)|]. destruct (io_event _ _ Hok) as (e' & Ee & Hs). exists e'. split; [done|].
    pose proof (shows_number _ _ Hs) as Hn. destruct Hs as (b & -> & Hb). split_and!; try done. intros Hfa.
    destruct Hb as [-> |(n & fresh & _ & ->)]; [done|]. by apply faithful_restored.
  - rewrite mm_inserts_timers. apply mm_inserts_order. constructor.
Qed.
End runs.
