(* ===== verification/TimerProperties.v ===== *)
(** * Theorems on timers and timeouts

    The statements on [TimeoutEvent] and [Timer], and their instances for a
    small ClassAd library and a calendar that counts seconds. *)

From stdpp Require Import countable strings.
From S2P Require Import Prelude Vectors Digits Stream FileContainer ContainerFields ContainerDisk ContainerCells ContainerList ContainerAdd.
From S2P Require Import ContainerRead ContainerCompact FileList ListContainer FileListProps FileListDeque FileListOps IdContainer IdContainerProps IdProperties.
From S2P Require Import ContainerReopen Numbers CondorLog TimeoutEvent TimeoutEventProps Timer TimerProps.

Section properties.
Context {T : Type} {HT : Condor T} {HTL : CondorLaws T}.
Context {A : Type} {HV : Converter A} {HA : EventClassAd A} {HAL : EventAdLaws A}.


(**  What is lost: the host of an execute event comes back as the text
    of the event's time, the size of an image and the flag of a
    disconnection as those of a fresh event, every member of a resource
    usage as one value that was in memory, and a missing reason as an empty
    one. *)
Theorem timer_event_losses (u : uninitialised) (timeout : Z) (e : ULogEvent T) (fresh : ULogEvent T) :
  good_event e → long_min ≤ timeout ≤ long_max → junk_defined u → instantiateEvent (eventNumber e) = Some fresh →
  ∃ te ad d ad' te' e', to_classad (A := A) (TimeoutEvent_new timeout e) = Some (te, ad) ∧ to_string ad = Some d ∧ from_string d = Some ad' ∧
    to_event u (TimeoutEvent_of_ad ad') = Ret (te', e') ∧
    match body e with
    | ExecuteEvent _ => body e' = ExecuteEvent (Some (text_of_long (mktime (eventTime e)).1))
    | NodeExecuteEvent n _ => body e' = NodeExecuteEvent n (Some (text_of_long (mktime (eventTime e)).1))
    | CheckpointedEvent _ _ => body e' = CheckpointedEvent (junk_usage u te_s_RunLocalRusage) (junk_usage u te_s_RunRemoteRusage)
    | JobTerminatedEvent n v g s r ts tr f _ _ _ _ =>
        body e' = JobTerminatedEvent n v g s r ts tr (filled f) (junk_usage u te_s_RunLocalRusage) (junk_usage u te_s_RunRemoteRusage)
          (junk_usage u te_s_TotalLocalRusage) (junk_usage u te_s_TotalRemoteRusage)
    | JobImageSizeEvent _ => body e' = body fresh
    | JobDisconnectedEvent a n d r _ =>
        ∃ c, body e' = JobDisconnectedEvent (filled a) (filled n) (filled d) (filled r) (after_no_reconnect (T := T) c) ∧
          ∃ a' n' d' r', body fresh = JobDisconnectedEvent a' n' d' r' c
    | JobAbortedEvent None => body e' = JobAbortedEvent (Some [])
    | _ => True
    end.
Proof.
  intros He Ht Hu Hfr. destruct (to_classad_kept (A := A) timeout e He) as (d & E1 & E2 & _ & Hk). pose proof Hk as (ad' & E3 & _).
  destruct (to_event_kept u timeout e d (TimeoutEvent_of_ad ad') ad') as (fresh' & Ef & E4); try done.
  assert (fresh' = fresh) as -> by congruence. do 6 eexists. split; [exact E1|]. split; [done|]. split; [done|]. split; [exact E4|].
  destruct (ge_known _ He) as (f & Ef' & Hkind). assert (f = fresh) as -> by congruence. unfold restored_event. cbn [body].
  destruct (body e); try done; cbn [restored].
  - by destruct (body fresh).
  - by destruct reason.
  - destruct (body fresh); try done. by do 6 eexists.
Qed.

End properties.

(** ** A ClassAd library

    Ads are lists of attributes, the last insertion first; the text of an ad
    is the bits of its code. *)
#[global] Instance spec_float_eqdec : EqDecision spec_float.
Proof. solve_decision. Defined.
#[global] Instance spec_float_countable : Countable spec_float :=
  inj_countable' (λ x, match x with S754_zero s => inl (inl s) | S754_infinity s => inl (inr (inl s)) | S754_nan => inl (inr (inr tt))
                       | S754_finite s m e => inr (s, m, e) end)
    (λ y, match y with inl (inl s) => S754_zero s | inl (inr (inl s)) => S754_infinity s | inl (inr (inr _)) => S754_nan
          | inr (s, m, e) => S754_finite s m e end)
    (λ x, match x with S754_zero _ | S754_infinity _ | S754_nan | S754_finite _ _ _ => eq_refl end).
#[global] Instance value_eqdec : EqDecision value.
Proof. solve_decision. Defined.
#[global] Instance value_countable : Countable value :=
  inj_countable' (λ v, match v with VStr s => inl (inl s) | VInt z => inl (inr z) | VBool b => inr (inl b) | VReal r => inr (inr r) end)
    (λ y, match y with inl (inl s) => VStr s | inl (inr z) => VInt z | inr (inl b) => VBool b | inr (inr r) => VReal r end)
    (λ v, match v with VStr _ | VInt _ | VBool _ | VReal _ => eq_refl end).

Inductive tree := Leaf | Bind (n : bytes) (v : value) (r : tree) | Below (n : bytes) (b r : tree).
#[global] Instance tree_eqdec : EqDecision tree.
Proof. solve_decision. Defined.
Fixpoint tree_code (t : tree) : gen_tree (bytes * value + bytes) :=
  match t with
  | Leaf => GenNode 0 []
  | Bind n v r => GenNode 1 [GenLeaf (inl (n, v)); tree_code r]
  | Below n b r => GenNode 2 [GenLeaf (inr n); tree_code b; tree_code r]
  end.
Fixpoint tree_decode (g : gen_tree (bytes * value + bytes)) : tree :=
  match g with
  | GenNode 1 [GenLeaf (inl (n, v)); r] => Bind n v (tree_decode r)
  | GenNode 2 [GenLeaf (inr n); b; r] => Below n (tree_decode b) (tree_decode r)
  | _ => Leaf
  end.
Lemma tree_decode_code t : tree_decode (tree_code t) = t.
Proof. induction t; cbn; congruence. Qed.
#[global] Instance tree_countable : Countable tree := inj_countable' tree_code tree_decode tree_decode_code.

Fixpoint tree_get (t : tree) (n : bytes) : option (entry_of tree) :=
  match t with
  | Leaf => None
  | Bind m v r => if same_name m n then Some (Scalar v) else tree_get r n
  | Below m b r => if same_name m n then Some (SubAd b) else tree_get r n
  end.
#[global] Instance tree_EventClassAd : EventClassAd tree := {
  ca_empty := Leaf;
  ca_InsertAttr := Bind;
  ca_Insert := Below;
  ca_Lookup := λ n t, match tree_get t n with Some (SubAd b) => Some b | _ => None end;
  ca_EvaluateAttrString := λ n t, match tree_get t n with Some (Scalar (VStr s)) => Some s | _ => None end;
  ca_EvaluateAttrInt := λ n t, match tree_get t n with Some (Scalar (VInt z)) => Some z | _ => None end;
  ca_EvaluateAttrNumber := λ n t, match tree_get t n with Some (Scalar (VInt z)) => Some z | _ => None end;
  ca_EvaluateAttrReal := λ n t, match tree_get t n with Some (Scalar (VReal r)) => Some r | _ => None end;
  ca_EvaluateAttrBool := λ n t, match tree_get t n with Some (Scalar (VBool b)) => Some b | _ => None end
}.
#[global] Instance tree_Converter : Converter tree := {
  to_string := λ t, Some (bits (encode t));
  from_string := λ d, unbits d ≫= decode
}.
#[global] Instance tree_laws : EventAdLaws tree.
Proof.
  refine {| ca_get := tree_get; ca_equiv := eq; ca_wf := λ _, True |}; try done.
  - intros a n b E. cbn. by rewrite E.
  - intros a n E. cbn. by rewrite E.
  - intros a n s E. cbn. by rewrite E.
  - intros a n z E. cbn. by rewrite E.
  - intros a n z E. cbn. by rewrite E.
  - intros a n r E. cbn. by rewrite E.
  - intros a n b E. cbn. by rewrite E.
  - intros a n s E. cbn. by rewrite E.
  - intros a n E. cbn. by rewrite E.
  - intros a b n ->. destruct (tree_get b n) as [[[]|]|]; constructor; by cbn.
  - intros a _. exists (bits (encode a)), a. split; [done|]. split; [by destruct (encode a)|]. split; [|done].
    cbn. rewrite unbits_bits. apply decode_encode.
Defined.

(** ** Condor, with the seconds for a calendar *)
Definition kinds : list ULogEventNumber :=
  [ULOG_SUBMIT; ULOG_EXECUTE; ULOG_EXECUTABLE_ERROR; ULOG_CHECKPOINTED; ULOG_JOB_EVICTED; ULOG_JOB_TERMINATED; ULOG_IMAGE_SIZE; ULOG_SHADOW_EXCEPTION;
   ULOG_GENERIC; ULOG_JOB_ABORTED; ULOG_JOB_SUSPENDED; ULOG_JOB_UNSUSPENDED; ULOG_JOB_HELD; ULOG_JOB_RELEASED; ULOG_NODE_EXECUTE; ULOG_NODE_TERMINATED;
   ULOG_POST_SCRIPT_TERMINATED; ULOG_GLOBUS_SUBMIT; ULOG_GLOBUS_SUBMIT_FAILED; ULOG_GLOBUS_RESOURCE_UP; ULOG_GLOBUS_RESOURCE_DOWN; ULOG_REMOTE_ERROR;
   ULOG_JOB_DISCONNECTED; ULOG_JOB_RECONNECTED; ULOG_JOB_RECONNECT_FAILED; ULOG_GRID_SUBMIT; ULOG_GRID_RESOURCE_UP; ULOG_GRID_RESOURCE_DOWN].
#[global] Instance kind_eqdec : EqDecision ULogEventNumber.
Proof. solve_decision. Defined.
Definition no_usage : Rusage := Usage 0 0 0 0 0 0 0 0 0 0 0 0 0 0 (0, 0) (0, 0).
Definition zero : spec_float := S754_zero false.
Definition fresh_body (k : ULogEventNumber) : event_body :=
  match k with
  | ULOG_SUBMIT => SubmitEvent None None
  | ULOG_EXECUTE => ExecuteEvent None
  | ULOG_EXECUTABLE_ERROR => ExecutableErrorEvent 0
  | ULOG_CHECKPOINTED => CheckpointedEvent no_usage no_usage
  | ULOG_JOB_EVICTED => JobEvictedEvent false zero zero false false 0 0 None None no_usage no_usage
  | ULOG_JOB_TERMINATED => JobTerminatedEvent false 0 0 zero zero zero zero None no_usage no_usage no_usage no_usage
  | ULOG_IMAGE_SIZE => JobImageSizeEvent 0
  | ULOG_SHADOW_EXCEPTION => ShadowExceptionEvent [] zero zero
  | ULOG_GENERIC => GenericEvent []
  | ULOG_JOB_ABORTED => JobAbortedEvent None
  | ULOG_JOB_SUSPENDED => JobSuspendedEvent 0
  | ULOG_JOB_UNSUSPENDED => JobUnsuspendedEvent
  | ULOG_JOB_HELD => JobHeldEvent None 0 0
  | ULOG_JOB_RELEASED => JobReleasedEvent None
  | ULOG_NODE_EXECUTE => NodeExecuteEvent 0 None
  | ULOG_NODE_TERMINATED => NodeTerminatedEvent false 0 0 0 zero zero zero zero None no_usage no_usage no_usage no_usage
  | ULOG_POST_SCRIPT_TERMINATED => PostScriptTerminatedEvent false 0 0
  | ULOG_GLOBUS_SUBMIT => GlobusSubmitEvent None None false
  | ULOG_GLOBUS_SUBMIT_FAILED => GlobusSubmitFailedEvent None
  | ULOG_GLOBUS_RESOURCE_UP => GlobusResourceUpEvent None
  | ULOG_GLOBUS_RESOURCE_DOWN => GlobusResourceDownEvent None
  | ULOG_REMOTE_ERROR => RemoteErrorEvent None None None true
  | ULOG_JOB_DISCONNECTED => JobDisconnectedEvent None None None None true
  | ULOG_JOB_RECONNECTED => JobReconnectedEvent None None None
  | ULOG_JOB_RECONNECT_FAILED => JobReconnectFailedEvent None None
  | ULOG_GRID_SUBMIT => GridSubmitEvent None None
  | ULOG_GRID_RESOURCE_UP => GridResourceUpEvent None
  | ULOG_GRID_RESOURCE_DOWN => GridResourceDownEvent None
  end.
#[global] Instance seconds_Condor : Condor Z := {
  ulog := λ k, from_option (λ i, Z.of_nat i.1) 0 (list_find (λ k', k' = k) kinds);
  instantiateEvent := λ n, if bool_decide (0 ≤ n) then (λ k, Event 0 (-1) (-1) (-1) (fresh_body k)) <$> kinds !! Z.to_nat n else None;
  after_no_reconnect := λ _, false;
  mktime := λ t, (t, t);
  localtime_r := λ t, t
}.
#[global] Instance seconds_laws : CondorLaws Z.
Proof.
  refine {| calendar := λ t, long_min ≤ t ≤ long_max |}; try done.
  - intros []; vm_compute; done.
  - intros k. exists (Event 0 (-1) (-1) (-1) (fresh_body k)). by destruct k.
  - by intros e [= <-].
Defined.

Definition junk0 : uninitialised := Junk 7 (S754_finite false 3 0) true (λ _, S754_finite true 5 (-1)).
Lemma junk0_defined : junk_defined junk0.
Proof. intros n. vm_compute. by eexists. Qed.

(** A decision procedure for the events of the instance. *)
Lemma good_event_intro (e : ULogEvent Z) :
  long_min ≤ eventTime e ≤ long_max → int_range (cluster e) → int_range (proc e) → int_range (subproc e) → good_body (body e) →
  match body e with OtherEvent _ => False | _ => True end → good_event e.
Proof.
  intros. destruct e as [t c p s b]. cbn in *. split; try done. exists (Event 0 (-1) (-1) (-1) (match kind_of b with inl k => fresh_body k | inr n => b end)).
  unfold eventNumber, number_of. cbn [body]. by destruct b.
Qed.
Lemma no_nul_dec s : forallb (λ c, bool_decide (c ≠ nul)) s = true → no_nul s.
Proof. intros H. apply Is_true_true, forallb_True in H. eapply Forall_impl; [exact H|]. intros c Hc. by apply Is_true_true, bool_decide_eq_true in Hc. Qed.

Definition held1 : ULogEvent Z := Event 1000 17 0 0 (JobHeldEvent (Some (of_string "disk full")) 12 (-3)).
Definition down2 : ULogEvent Z := Event 1001 18 0 0 (GlobusResourceDownEvent (Some (of_string "ce01"))).
Definition evict3 : ULogEvent Z :=
  Event 1002 18 0 1 (JobEvictedEvent true (S754_finite false 11184811 (-25)) zero false true 1 0 None (Some (of_string "core")) no_usage no_usage).
Ltac good_event_solve := apply good_event_intro; cbn; unfold int_range, long_min, long_max; try lia; repeat split; try lia; try done; by apply no_nul_dec.
Lemma held1_good : good_event held1.
Proof. good_event_solve. Qed.
Lemma down2_good : good_event down2.
Proof. good_event_solve. Qed.
Lemma evict3_good : good_event evict3.
Proof. good_event_solve. Qed.


Definition exec4 : ULogEvent Z := Event 1003 19 0 0 (ExecuteEvent (Some (of_string "wn042"))).
Lemma exec4_good : good_event exec4.
Proof. good_event_solve. Qed.
Lemma timer_event_losses_witness :
  ∃ te ad d ad' te' e', to_classad (A := tree) (TimeoutEvent_new 1500 exec4) = Some (te, ad) ∧ to_string ad = Some d ∧ from_string d = Some ad' ∧
    to_event junk0 (TimeoutEvent_of_ad ad') = Ret (te', e') ∧ body e' = ExecuteEvent (Some (of_string "1003")).
Proof. apply (timer_event_losses (A := tree) junk0 1500 exec4 (Event 0 (-1) (-1) (-1) (ExecuteEvent None)) exec4_good); [by vm_compute|apply junk0_defined|reflexivity]. Defined.

Definition commands5 : list (Timers.command Z) :=
  [Timers.Start 1500 held1; Timers.Start 1200 down2; Timers.Start 1500 evict3; Timers.Restart; Timers.Start 1500 down2;
   Timers.RemoveEvent 18 4; Timers.RemoveAt 0; Timers.Restart].
