(* ===== verification/EventAd.v ===== *)
(** * Events as ClassAds ([EventAd])

    Model of [jobsubmission/src/logmonitor/EventAd.{h,cpp}]: an event of the
    Condor log turned into a ClassAd and back.  The class repeats the two
    conversions of [TimeoutEvent] with differences: [from_event] stops at
    the released jobs, [create_event] answers [NULL] for an unknown number
    and keeps the usages of the fresh event when the ad has none. *)

From S2P Require Import Prelude Digits Stream FileContainer FileList IdContainer Numbers CondorLog TimeoutEvent.

(** ** The attributes *)
Definition ea_s_EventTime : bytes := of_string "EventTime".
Definition ea_s_EventNumber : bytes := of_string "EventNumber".
Definition ea_s_Cluster : bytes := of_string "Cluster".
Definition ea_s_Proc : bytes := of_string "Proc".
Definition ea_s_SubProc : bytes := of_string "SubProc".
Definition ea_s_LogNotes : bytes := of_string "LogNotes".
Definition ea_s_ExecuteHost : bytes := of_string "ExecuteHost".
Definition ea_s_ExecErrorType : bytes := of_string "ExecErrorType".
Definition ea_s_Node : bytes := of_string "Node".
Definition ea_s_RunLocalRusage : bytes := of_string "RunLocalRusage".
Definition ea_s_RunRemoteRusage : bytes := of_string "RunRemoteRusage".
Definition ea_s_TotalLocalRusage : bytes := of_string "TotalLocalRusage".
Definition ea_s_TotalRemoteRusage : bytes := of_string "TotalRemoteRusage".
Definition ea_s_CheckPointed : bytes := of_string "CheckPointed".
Definition ea_s_SentBytes : bytes := of_string "SentBytes".
Definition ea_s_RecvdBytes : bytes := of_string "RecvdBytes".
Definition ea_s_Terminate : bytes := of_string "Terminate".
Definition ea_s_Normal : bytes := of_string "Normal".
Definition ea_s_ReturnValue : bytes := of_string "ReturnValue".
Definition ea_s_SignalNumber : bytes := of_string "SignalNumber".
Definition ea_s_Reason : bytes := of_string "Reason".
Definition ea_s_CoreFile : bytes := of_string "CoreFile".
Definition ea_s_TotalSentBytes : bytes := of_string "TotalSentBytes".
Definition ea_s_TotalRecvdBytes : bytes := of_string "TotalRecvdBytes".
Definition ea_s_Size : bytes := of_string "Size".
Definition ea_s_Message : bytes := of_string "Message".
Definition ea_s_Info : bytes := of_string "Info".
Definition ea_s_NumPids : bytes := of_string "NumPids".
Definition ea_s_RestartableJM : bytes := of_string "RestartableJM".
Definition ea_s_RmContact : bytes := of_string "RmContact".
Definition ea_s_JmContact : bytes := of_string "JmContact".
Definition ea_s_DaemonName : bytes := of_string "DaemonName".
Definition ea_s_ErrorStr : bytes := of_string "ErrorStr".
Definition ea_s_CriticalError : bytes := of_string "CriticalError".
Definition ea_s_ReasonCode : bytes := of_string "ReasonCode".
Definition ea_s_ReasonSubCode : bytes := of_string "ReasonSubCode".
Definition ea_s_UserNotes : bytes := of_string "UserNotes".
Definition ea_s_ResourceName : bytes := of_string "GridResource".
Definition ea_s_JobId : bytes := of_string "GridJobId".

(** ** [from_event] *)
Section from_event.
Context {T : Type} `{Condor T} {A : Type} `{EventClassAd A}.
#[local] Abbreviation Ins := (list (insertion A)).

(** The same text as [toClassAd] of Timer.cpp. *)
Definition rusage_to_classad (ru : Rusage) : A := toClassAd ru.

Definition ea_put_Submit (lnotes unotes : cstr) : Ins :=
  (if lnotes is Some _ then [AttrS ea_s_LogNotes lnotes] else []) ++
  (if unotes is Some _ then [AttrS ea_s_UserNotes unotes] else []).
Definition ea_put_ExecutableError (errType : Z) : Ins := [AttrI ea_s_ExecErrorType errType].
Definition ea_put_Checkpointed (local remote : Rusage) : Ins :=
  [Nested ea_s_RunLocalRusage (rusage_to_classad local); Nested ea_s_RunRemoteRusage (rusage_to_classad remote)].
Definition ea_put_JobEvicted (checkpointed : bool) (sent recvd : spec_float) (terminate normal : bool)
    (return_value signal_number : Z) (reason corefile : cstr) (local remote : Rusage) : Ins :=
  [AttrB ea_s_CheckPointed checkpointed; AttrF ea_s_SentBytes sent; AttrF ea_s_RecvdBytes recvd;
   AttrB ea_s_Terminate terminate; AttrB ea_s_Normal normal; AttrI ea_s_ReturnValue return_value;
   AttrI ea_s_SignalNumber signal_number; AttrS ea_s_Reason reason; AttrS ea_s_CoreFile corefile;
   Nested ea_s_RunLocalRusage (rusage_to_classad local); Nested ea_s_RunRemoteRusage (rusage_to_classad remote)].
Definition ea_put_JobTerminated (normal : bool) (returnValue signalNumber : Z) (sent recvd tsent trecvd : spec_float)
    (corefile : cstr) (local remote tlocal tremote : Rusage) : Ins :=
  [AttrB ea_s_Normal normal; AttrI ea_s_ReturnValue returnValue; AttrI ea_s_SignalNumber signalNumber;
   AttrF ea_s_SentBytes sent; AttrF ea_s_RecvdBytes recvd; AttrF ea_s_TotalSentBytes tsent; AttrF ea_s_TotalRecvdBytes trecvd;
   AttrS ea_s_CoreFile corefile;
   Nested ea_s_RunLocalRusage (rusage_to_classad local); Nested ea_s_RunRemoteRusage (rusage_to_classad remote);
   Nested ea_s_TotalLocalRusage (rusage_to_classad tlocal); Nested ea_s_TotalRemoteRusage (rusage_to_classad tremote)].
Definition ea_put_ImageSize (size : Z) : Ins := [AttrI ea_s_Size size].
Definition ea_put_ShadowException (message : bytes) (sent recvd : spec_float) : Ins :=
  [Attr ea_s_Message (VStr message); AttrF ea_s_SentBytes sent; AttrF ea_s_RecvdBytes recvd].
Definition ea_put_Generic (info : bytes) : Ins := [Attr ea_s_Info (VStr info)].
Definition ea_put_JobAborted (reason : cstr) : Ins := [AttrS ea_s_Reason reason].
Definition ea_put_JobSuspended (num_pids : Z) : Ins := [AttrI ea_s_NumPids num_pids].
Definition ea_put_JobHeld (reason : cstr) (code subcode : Z) : Ins :=
  [AttrS ea_s_Reason reason; AttrI ea_s_ReasonCode code; AttrI ea_s_ReasonSubCode subcode].
Definition ea_put_JobReleased (reason : cstr) : Ins := [AttrS ea_s_Reason reason].

(** The [switch]. *)
Definition ea_put (b : event_body) : Ins :=
  match b with
  | SubmitEvent l u => ea_put_Submit l u
  | ExecuteEvent _ => []
  | ExecutableErrorEvent t => ea_put_ExecutableError t
  | CheckpointedEvent l r => ea_put_Checkpointed l r
  | JobEvictedEvent c s r t n v g e f rl rr => ea_put_JobEvicted c s r t n v g e f rl rr
  | JobTerminatedEvent n v g s r ts tr f rl rr tl tr' => ea_put_JobTerminated n v g s r ts tr f rl rr tl tr'
  | JobImageSizeEvent s => ea_put_ImageSize s
  | ShadowExceptionEvent m s r => ea_put_ShadowException m s r
  | GenericEvent i => ea_put_Generic i
  | JobAbortedEvent r => ea_put_JobAborted r
  | JobSuspendedEvent n => ea_put_JobSuspended n
  | JobUnsuspendedEvent => []
  | JobHeldEvent r c s => ea_put_JobHeld r c s
  | JobReleasedEvent r => ea_put_JobReleased r
  | _ => []
  end.
Definition ea_insertions (epoch : Z) (e : ULogEvent T) : Ins :=
  [AttrI ea_s_EventNumber (eventNumber e); Attr ea_s_EventTime (VStr (text_of_long epoch));
   AttrI ea_s_Cluster (cluster e); AttrI ea_s_Proc (proc e); AttrI ea_s_SubProc (subproc e)] ++ ea_put (body e).
(** The ad is cleared first; the event's time is put in normal form. *)
Definition from_event (ea_ad : A) (e : ULogEvent T) : A * ULogEvent T :=
  let '(epoch, t) := mktime (eventTime e) in
  (put_all (ea_insertions epoch e) ca_empty, set_time t e).
(** [set_time( epoch )] *)
Definition ea_set_time (epoch : Z) (ea_ad : A) : A := ca_InsertAttr ea_s_EventTime (VStr (text_of_long epoch)) ea_ad.
End from_event.

(** ** [create_event] *)
Section create_event.
Context {T : Type} `{Condor T} {A : Type} `{EventClassAd A}.
Context (u : uninitialised) (ad : A).
#[local] Abbreviation R := (M locals cast_error).

(** The same text as [myStrdup] and [toRusage] of Timer.cpp. *)
Definition local_strdup (s : bytes) : cstr := myStrdup s.
Definition classad_to_rusage (a : A) (double_value : spec_float) : option Rusage := toRusage a double_value.
(** A usage that the ad does not have stays as it is. *)
Definition ea_usage (name : bytes) (old : Rusage) : R Rusage :=
  match ca_Lookup name ad with
  | None => mret old
  | Some temporary_ad =>
      match classad_to_rusage temporary_ad (u_val u name) with Some ru => mret ru | None => stuck end
  end.

Definition ea_get_Submit (lnotes unotes : cstr) : R event_body :=
  has ← get_string ad ea_s_LogNotes;
  lval ← get_sval;
  let lnotes := if (has : bool) then local_strdup lval else lnotes in
  has ← get_string ad ea_s_UserNotes;
  uval ← get_sval;
  let unotes := if (has : bool) then local_strdup uval else unotes in
  mret (SubmitEvent lnotes unotes).
Definition ea_get_Execute : R event_body :=
  host ← read_sval ad ea_s_ExecuteHost;
  mret (ExecuteEvent (local_strdup (take 128 host))).
Definition ea_get_ExecutableError : R event_body :=
  t ← read_ival ad ea_s_ExecErrorType;
  mret (ExecutableErrorEvent t).
Definition ea_get_Checkpointed (local remote : Rusage) : R event_body :=
  local ← ea_usage ea_s_RunLocalRusage local;
  remote ← ea_usage ea_s_RunRemoteRusage remote;
  mret (CheckpointedEvent local remote).
Definition ea_get_JobEvicted (checkpointed terminate normal : bool) (return_value signal_number : Z)
    (local remote : Rusage) : R event_body :=
  let checkpointed := bool_member ad ea_s_CheckPointed checkpointed in
  sent ← read_float ad ea_s_SentBytes;
  recvd ← read_float ad ea_s_RecvdBytes;
  let terminate := bool_member ad ea_s_Terminate terminate in
  let normal := bool_member ad ea_s_Normal normal in
  let return_value := number_member ad ea_s_ReturnValue return_value in
  let signal_number := number_member ad ea_s_SignalNumber signal_number in
  reason ← read_sval ad ea_s_Reason;
  corefile ← read_sval ad ea_s_CoreFile;
  local ← ea_usage ea_s_RunLocalRusage local;
  remote ← ea_usage ea_s_RunRemoteRusage remote;
  mret (JobEvictedEvent checkpointed sent recvd terminate normal return_value signal_number
          (local_strdup reason) (local_strdup corefile) local remote).
Definition ea_get_JobTerminated (normal : bool) (returnValue signalNumber : Z)
    (local remote tlocal tremote : Rusage) : R event_body :=
  let normal := bool_member ad ea_s_Normal normal in
  let returnValue := number_member ad ea_s_ReturnValue returnValue in
  let signalNumber := number_member ad ea_s_SignalNumber signalNumber in
  sent ← read_float ad ea_s_SentBytes;
  recvd ← read_float ad ea_s_RecvdBytes;
  tsent ← read_float ad ea_s_TotalSentBytes;
  trecvd ← read_float ad ea_s_TotalRecvdBytes;
  corefile ← read_sval ad ea_s_CoreFile;
  local ← ea_usage ea_s_RunLocalRusage local;
  remote ← ea_usage ea_s_RunRemoteRusage remote;
  tlocal ← ea_usage ea_s_TotalLocalRusage tlocal;
  tremote ← ea_usage ea_s_TotalRemoteRusage tremote;
  mret (JobTerminatedEvent normal returnValue signalNumber sent recvd tsent trecvd (local_strdup corefile) local remote tlocal tremote).
Definition ea_get_ImageSize (image_size_kb : Z) : R event_body :=
  let size := number_member ad ea_s_Size image_size_kb in
  mret (JobImageSizeEvent image_size_kb).
Definition ea_get_ShadowException : R event_body :=
  message ← read_sval ad ea_s_Message;
  sent ← read_float ad ea_s_SentBytes;
  recvd ← read_float ad ea_s_RecvdBytes;
  mret (ShadowExceptionEvent (strncpy message BUFSIZ) sent recvd).
Definition ea_get_Generic : R event_body :=
  info ← read_sval ad ea_s_Info;
  mret (GenericEvent (strncpy info 128)).
Definition ea_get_JobAborted : R event_body :=
  reason ← read_sval ad ea_s_Reason;
  mret (JobAbortedEvent (local_strdup reason)).
Definition ea_get_JobSuspended (num_pids : Z) : R event_body :=
  mret (JobSuspendedEvent (number_member ad ea_s_NumPids num_pids)).
Definition ea_get_JobHeld : R event_body :=
  reason ← read_sval ad ea_s_Reason;
  code ← read_ival ad ea_s_ReasonCode;
  subcode ← read_ival ad ea_s_ReasonSubCode;
  mret (JobHeldEvent (local_strdup reason) code subcode).
Definition ea_get_JobReleased : R event_body :=
  reason ← read_sval ad ea_s_Reason;
  mret (JobReleasedEvent (local_strdup reason)).
Definition ea_get_NodeExecute (node : Z) : R event_body :=
  let node := number_member ad ea_s_Node node in
  host ← read_sval ad ea_s_ExecuteHost;
  mret (NodeExecuteEvent node (local_strdup (take 128 host))).
Definition ea_get_NodeTerminated (normal : bool) (returnValue signalNumber node : Z)
    (local remote tlocal tremote : Rusage) : R event_body :=
  let normal := bool_member ad ea_s_Normal normal in
  let returnValue := number_member ad ea_s_ReturnValue returnValue in
  let signalNumber := number_member ad ea_s_SignalNumber signalNumber in
  let node := number_member ad ea_s_Node node in
  sent ← read_float ad ea_s_SentBytes;
  recvd ← read_float ad ea_s_RecvdBytes;
  tsent ← read_float ad ea_s_TotalSentBytes;
  trecvd ← read_float ad ea_s_TotalRecvdBytes;
  corefile ← read_sval ad ea_s_CoreFile;
  local ← ea_usage ea_s_RunLocalRusage local;
  remote ← ea_usage ea_s_RunRemoteRusage remote;
  tlocal ← ea_usage ea_s_TotalLocalRusage tlocal;
  tremote ← ea_usage ea_s_TotalRemoteRusage tremote;
  mret (NodeTerminatedEvent normal returnValue signalNumber node sent recvd tsent trecvd (local_strdup corefile) local remote tlocal tremote).
Definition ea_get_PostScriptTerminated (normal : bool) (returnValue signalNumber : Z) : R event_body :=
  mret (PostScriptTerminatedEvent (bool_member ad ea_s_Normal normal) (number_member ad ea_s_ReturnValue returnValue)
          (number_member ad ea_s_SignalNumber signalNumber)).
Definition ea_get_GlobusSubmit (restartableJM : bool) : R event_body :=
  let restartableJM := bool_member ad ea_s_RestartableJM restartableJM in
  rmContact ← read_sval ad ea_s_RmContact;
  jmContact ← read_sval ad ea_s_JmContact;
  mret (GlobusSubmitEvent (local_strdup rmContact) (local_strdup jmContact) restartableJM).
Definition ea_get_GlobusSubmitFailed : R event_body :=
  reason ← read_sval ad ea_s_Reason;
  mret (GlobusSubmitFailedEvent (local_strdup reason)).
Definition ea_get_GlobusResourceUp : R event_body :=
  rmContact ← read_sval ad ea_s_RmContact;
  mret (GlobusResourceUpEvent (local_strdup rmContact)).
Definition ea_get_GlobusResourceDown : R event_body :=
  rmContact ← read_sval ad ea_s_RmContact;
  mret (GlobusResourceDownEvent (local_strdup rmContact)).
Definition ea_get_RemoteError : R event_body :=
  host ← read_sval ad ea_s_ExecuteHost;
  daemon ← read_sval ad ea_s_DaemonName;
  text ← read_sval ad ea_s_ErrorStr;
  mret (RemoteErrorEvent (local_strdup host) (local_strdup daemon) (local_strdup text) (bool_member ad ea_s_CriticalError false)).
Definition ea_get_GridSubmit : R event_body :=
  resourceName ← read_sval ad ea_s_ResourceName;
  jobId ← read_sval ad ea_s_JobId;
  mret (GridSubmitEvent (local_strdup resourceName) (local_strdup jobId)).
Definition ea_get_GridResourceUp : R event_body :=
  resourceName ← read_sval ad ea_s_ResourceName;
  mret (GridResourceUpEvent (local_strdup resourceName)).
Definition ea_get_GridResourceDown : R event_body :=
  resourceName ← read_sval ad ea_s_ResourceName;
  mret (GridResourceDownEvent (local_strdup resourceName)).

(** The [switch], on the fresh event. *)
Definition ea_get (fresh : event_body) : R event_body :=
  match fresh with
  | SubmitEvent l n => ea_get_Submit l n
  | ExecuteEvent _ => ea_get_Execute
  | ExecutableErrorEvent _ => ea_get_ExecutableError
  | CheckpointedEvent l r => ea_get_Checkpointed l r
  | JobEvictedEvent c _ _ t n v g _ _ rl rr => ea_get_JobEvicted c t n v g rl rr
  | JobTerminatedEvent n v g _ _ _ _ _ rl rr tl tr => ea_get_JobTerminated n v g rl rr tl tr
  | JobImageSizeEvent s => ea_get_ImageSize s
  | ShadowExceptionEvent _ _ _ => ea_get_ShadowException
  | GenericEvent _ => ea_get_Generic
  | JobAbortedEvent _ => ea_get_JobAborted
  | JobSuspendedEvent n => ea_get_JobSuspended n
  | JobUnsuspendedEvent => mret JobUnsuspendedEvent
  | JobHeldEvent _ _ _ => ea_get_JobHeld
  | JobReleasedEvent _ => ea_get_JobReleased
  | NodeExecuteEvent n _ => ea_get_NodeExecute n
  | NodeTerminatedEvent n v g o _ _ _ _ _ rl rr tl tr => ea_get_NodeTerminated n v g o rl rr tl tr
  | PostScriptTerminatedEvent n v g => ea_get_PostScriptTerminated n v g
  | GlobusSubmitEvent _ _ r => ea_get_GlobusSubmit r
  | GlobusSubmitFailedEvent _ => ea_get_GlobusSubmitFailed
  | GlobusResourceUpEvent _ => ea_get_GlobusResourceUp
  | GlobusResourceDownEvent _ => ea_get_GlobusResourceDown
  | RemoteErrorEvent _ _ _ _ => ea_get_RemoteError
  | GridSubmitEvent _ _ => ea_get_GridSubmit
  | GridResourceUpEvent _ => ea_get_GridResourceUp
  | GridResourceDownEvent _ => ea_get_GridResourceDown
  | JobDisconnectedEvent _ _ _ _ _ | JobReconnectedEvent _ _ _ | JobReconnectFailedEvent _ _ | OtherEvent _ => mret fresh
  end.

(** [None] is [NULL]. *)
Definition ea_read : R (option (ULogEvent T)) := λ v,
  let number := default (ival v) (ca_EvaluateAttrInt ea_s_EventNumber ad) in
  let v := Locals number (dval v) (sval v) in
  match instantiateEvent number with
  | None => (v, Ret None)
  | Some fresh =>
      (has ← get_string ad ea_s_EventTime;
       time ← (if (has : bool) then epoch ← cast_sval; mret (localtime_r epoch) else mret (eventTime fresh));
       b ← ea_get (body fresh);
       mret (Some (Event time (number_member ad ea_s_Cluster (cluster fresh)) (number_member ad ea_s_Proc (proc fresh))
                     (number_member ad ea_s_SubProc (subproc fresh)) b))) v
  end.
Definition create_event : outcome cast_error (option (ULogEvent T)) := (ea_read (te_locals u)).2.
End create_event.
