(* ===== verification/EventAdProps.v ===== *)
(** * What comes back of an [EventAd]

    [create_event] on the ad that [from_event] made, with the time that
    [set_time] put into it: [ea_restored] says, for every kind of event,
    what the members are. *)

From S2P Require Import Prelude Digits Stream FileContainer FileList IdContainer Numbers CondorLog TimeoutEvent TimeoutEventProps EventAd TimerProperties.

Section ea_restored.
Context (u : uninitialised) (text : bytes).

(** [text] is the text of the event's time, the last string that was read
    before the event's own members. *)
Definition ea_restored (fresh b : event_body) : event_body :=
  match b, fresh with
  | ExecuteEvent _, _ => ExecuteEvent (Some text)
  | CheckpointedEvent _ _, _ => CheckpointedEvent (junk_usage u ea_s_RunLocalRusage) (junk_usage u ea_s_RunRemoteRusage)
  | JobEvictedEvent c s r t n v g e f _ _, _ =>
      JobEvictedEvent c s r t n v g (filled e) (filled f) (junk_usage u ea_s_RunLocalRusage) (junk_usage u ea_s_RunRemoteRusage)
  | JobTerminatedEvent n v g s r ts tr f _ _ _ _, _ =>
      JobTerminatedEvent n v g s r ts tr (filled f) (junk_usage u ea_s_RunLocalRusage) (junk_usage u ea_s_RunRemoteRusage)
        (junk_usage u ea_s_TotalLocalRusage) (junk_usage u ea_s_TotalRemoteRusage)
  | JobAbortedEvent r, _ => JobAbortedEvent (filled r)
  | JobHeldEvent r c s, _ => JobHeldEvent (filled r) c s
  | JobReleasedEvent r, _ => JobReleasedEvent (filled r)
  (** Nothing was written: the strings are the text of the time, the
      numbers those of the fresh event or of uninitialised memory. *)
  | NodeExecuteEvent _ _, NodeExecuteEvent n _ => NodeExecuteEvent n (Some text)
  | NodeTerminatedEvent _ _ _ _ _ _ _ _ _ _ _ _ _, NodeTerminatedEvent n v g o _ _ _ _ _ rl rr tl tr =>
      let x := to_float (u_dval u) in NodeTerminatedEvent n v g o x x x x (Some text) rl rr tl tr
  | GlobusSubmitEvent _ _ _, GlobusSubmitEvent _ _ m => GlobusSubmitEvent (Some text) (Some text) m
  | GlobusSubmitFailedEvent _, _ => GlobusSubmitFailedEvent (Some text)
  | GlobusResourceUpEvent _, _ => GlobusResourceUpEvent (Some text)
  | GlobusResourceDownEvent _, _ => GlobusResourceDownEvent (Some text)
  | RemoteErrorEvent _ _ _ _, _ => RemoteErrorEvent (Some text) (Some text) (Some text) false
  | GridSubmitEvent _ _, _ => GridSubmitEvent (Some text) (Some text)
  | GridResourceUpEvent _, _ => GridResourceUpEvent (Some text)
  | GridResourceDownEvent _, _ => GridResourceDownEvent (Some text)
  | SubmitEvent _ _, _ | ExecutableErrorEvent _, _ | ShadowExceptionEvent _ _ _, _ | GenericEvent _, _ | JobSuspendedEvent _, _
  | JobUnsuspendedEvent, _ => b
  | _, _ => fresh
  end.
End ea_restored.

Section ea_get.
Context {T : Type} {HC : Condor T} {A : Type} {HT : Converter A} {HA : EventClassAd A} {HAL : EventAdLaws A}.
Context (u : uninitialised).

Lemma ea_usage_junk (l : list (insertion A)) ad name ru old v : junk_defined u → made_by l ad → named name l None = Some (SubAd (rusage_to_classad ru)) →
  ea_usage u ad name old v = (v, Ret (junk_usage u name)).
Proof using HAL.
  intros Hu Hm E. destruct (made_sub Hm _ _ E) as (b & Eb & Hb). unfold ea_usage. rewrite Eb. unfold classad_to_rusage.
  destruct (Hu name) as [z Hz]. rewrite (toRusage_junk ru b _ z Hb Hz). unfold junk_usage. by rewrite Hz.
Qed.
Lemma ea_usage_absent (l : list (insertion A)) ad name old v : made_by l ad → named name l None = None → ea_usage u ad name old v = (v, Ret old).
Proof using HAL. intros Hm E. unfold ea_usage. by rewrite (lookup_absent _ _ (made_none Hm _ E)). Qed.

Definition ea_header (e : ULogEvent T) epoch : list (insertion A) :=
  [AttrI ea_s_EventNumber (eventNumber e); Attr ea_s_EventTime (VStr (text_of_long epoch));
   AttrI ea_s_Cluster (cluster e); AttrI ea_s_Proc (proc e); AttrI ea_s_SubProc (subproc e)].
(** The insertions of [from_event] and of a [set_time] that may follow. *)
Definition ea_all epoch (time : option Z) (e : ULogEvent T) : list (insertion A) :=
  ea_insertions epoch e ++ (if time is Some t then [Attr ea_s_EventTime (VStr (text_of_long t))] else []).

Lemma ea_named_header epoch time e :
  Forall (λ n, named n (ea_all epoch time e) None = named n (ea_header e (default epoch time)) None) [ea_s_EventNumber; ea_s_EventTime; ea_s_Cluster; ea_s_Proc; ea_s_SubProc].
Proof using.
  destruct e as [t c p s b], time; repeat constructor; unfold ea_all, ea_insertions; rewrite !named_app; cbn [body].
  all: destruct b as [[] []| | | | | | | | | | | | | | | | | | | | | | | | | | | |]; reflexivity.
Qed.

Lemma ea_get_restored epoch time t c p s b fresh (ad : A) v :
  (has_usage b = true → junk_defined u) → made_by (ea_all epoch time (Event t c p s b)) ad → good_body b → kind_of fresh = kind_of b →
  (∀ l n, fresh = SubmitEvent l n → l = None ∧ n = None) →
  long_min ≤ default epoch time ≤ long_max → dval v = u_dval u → sval v = text_of_long (default epoch time) →
  ∃ v', ea_get u ad fresh v = (v', Ret (ea_restored u (text_of_long (default epoch time)) fresh b)).
Proof using HAL.
  intros Hu Hm Hb Hk Hs He Hd Hv. pose proof (host_text _ He) as Hh. clear He. destruct v as [iv dv sv]. cbn [sval dval] in Hv, Hd. subst sv dv.
  assert (∀ t, myStrdup (text_of_long t) = Some (text_of_long t)) as Hsd by (intros t'; unfold myStrdup; by rewrite c_str_id by apply text_of_long_chars).
  destruct time as [time|]; cbn [default from_option id] in *; destruct b, fresh; try discriminate Hk; cbn [ea_get ea_restored].
  all: repeat match goal with H : good_body _ |- _ => cbn [good_body] in H | H : _ ∧ _ |- _ => destruct H | H : finite_float _ |- _ => destruct H end.
  all: try match goal with |- context [ea_get_Submit _ ?l ?n] =>
         destruct (Hs l n eq_refl) as [-> ->]; destruct submitEventLogNotes as [x|], submitEventUserNotes as [y|] end.
  all: unfold ea_get_Submit, ea_get_Execute, ea_get_ExecutableError, ea_get_Checkpointed, ea_get_JobEvicted, ea_get_JobTerminated, ea_get_ImageSize,
         ea_get_ShadowException, ea_get_Generic, ea_get_JobAborted, ea_get_JobSuspended, ea_get_JobHeld, ea_get_JobReleased, ea_get_NodeExecute,
         ea_get_NodeTerminated, ea_get_PostScriptTerminated, ea_get_GlobusSubmit, ea_get_GlobusSubmitFailed, ea_get_GlobusResourceUp,
         ea_get_GlobusResourceDown, ea_get_RemoteError, ea_get_GridSubmit, ea_get_GridResourceUp, ea_get_GridResourceDown, local_strdup.
  all: repeat first [read_step Hm | erewrite bind_Ret by (eapply (ea_usage_junk _ _ _ _ _ _ (Hu eq_refl) Hm); reflexivity); cbv beta iota
         | erewrite bind_Ret by (apply (ea_usage_absent _ _ _ _ _ Hm); reflexivity); cbv beta iota].
  all: rewrite ?good_cstr_filled by assumption.
  all: rewrite ?strncpy_id by assumption.
  all: rewrite ?Hh, ?Hsd.
  all: try by eexists.
Qed.
End ea_get.

(** ** The whole conversion *)
Section create.
Context {T : Type} {HC : Condor T} {HCL : CondorLaws T} {A : Type} {HT : Converter A} {HA : EventClassAd A} {HAL : EventAdLaws A}.
Context (u : uninitialised).

Lemma create_event_restored epoch time e (ad : A) :
  (has_usage (body e) = true → junk_defined u) → good_event e → long_min ≤ default epoch time ≤ long_max → made_by (ea_all epoch time e) ad →
  ∃ fresh, instantiateEvent (eventNumber e) = Some fresh ∧
    create_event u ad = Ret (Some (Event (localtime_r (default epoch time)) (cluster e) (proc e) (subproc e)
      (ea_restored u (text_of_long (default epoch time)) (body fresh) (body e)))).
Proof using HCL HAL.
  intros Hu [Ht Hc Hp Hsp Hb (fresh & Ef & Hk)] Hto Hm. destruct e as [t c p s b]. cbn [eventTime cluster proc subproc body] in *.
  pose proof (ea_named_header (A := A) epoch time (Event t c p s b)) as Hh. rewrite !Forall_cons in Hh. destruct Hh as (N1 & N2 & N3 & N4 & N5 & _).
  exists fresh. split; [done|]. unfold create_event, ea_read, te_locals. cbn [ival dval sval].
  erewrite (made_int Hm ea_s_EventNumber) by (rewrite N1; reflexivity). cbn [default from_option id]. rewrite Ef.
  erewrite bind_Ret by (apply (get_string_made Hm); rewrite N2; reflexivity). cbv beta iota. cbn [ival dval sval].
  rewrite bind_assoc. erewrite (bind_Ret cast_sval); [|unfold cast_sval; cbn [sval]; rewrite (long_of_text_of _ Hto); reflexivity].
  rewrite bind_mret.
  match goal with |- context [(ea_get _ _ _ ≫= _) ?v] =>
    destruct (ea_get_restored u epoch time t c p s b (body fresh) ad v Hu Hm Hb Hk) as [v' E]; [|done|reflexivity|reflexivity|] end.
  - intros l n El. rewrite El in Hk. symmetry in Hk. unfold eventNumber, number_of in Ef. cbn [body] in Ef. rewrite Hk in Ef. cbn in Ef.
    rewrite (instantiate_submit _ Ef) in El. by simplify_eq.
  - erewrite bind_Ret by exact E. erewrite (number_member_made Hm ea_s_Cluster) by (rewrite N3; reflexivity).
    erewrite (number_member_made Hm ea_s_Proc) by (rewrite N4; reflexivity). erewrite (number_member_made Hm ea_s_SubProc) by (rewrite N5; reflexivity). done.
Qed.

(** The ads of [from_event], and of [set_time] after it. *)
Lemma from_event_ad (ad0 : A) e : (from_event ad0 e).1 = put_all (ea_all (mktime (eventTime e)).1 None e) ca_empty.
Proof using. unfold from_event, ea_all. rewrite app_nil_r. by destruct (mktime (eventTime e)). Qed.
Lemma from_event_event (ad0 : A) e : (from_event ad0 e).2 = set_time (mktime (eventTime e)).2 e.
Proof using. unfold from_event. by destruct (mktime (eventTime e)). Qed.
Lemma set_time_ad (ad0 : A) time e : ea_set_time time (from_event ad0 e).1 = put_all (ea_all (mktime (eventTime e)).1 (Some time) e) ca_empty.
Proof using. unfold from_event, ea_all, put_all. rewrite fold_left_app. by destruct (mktime (eventTime e)). Qed.
End create.

(** The events that come back as they were. *)
Definition ea_faithful (b : event_body) : bool :=
  match b with
  | SubmitEvent _ _ | ExecutableErrorEvent _ | ShadowExceptionEvent _ _ _ | GenericEvent _ | JobSuspendedEvent _ | JobUnsuspendedEvent => true
  | JobAbortedEvent r | JobHeldEvent r _ _ | JobReleasedEvent r => some_cstr r
  | _ => false
  end.
Lemma ea_faithful_restored u text fresh b : ea_faithful b = true → ea_restored u text fresh b = b ∧ has_usage b = false.
Proof. destruct b; cbn; try done; intros H; repeat match goal with c : cstr |- _ => destruct c; try done end. Qed.

(** * Theorems on [EventAd]

    Round trip and losses of [from_event], [set_time] and [create_event],
    with their instances for the ads and the calendar of
    [TimerProperties]. *)

Section properties.
Context {T : Type} {HT : Condor T} {HTL : CondorLaws T}.
Context {A : Type} {HV : Converter A} {HA : EventClassAd A} {HAL : EventAdLaws A}.

(** C29.  For the kinds of event that [from_event] writes in full
    ([ea_faithful]), [create_event] gives back the event that [from_event]
    was called with, and after [set_time( t )] the same event at time [t];
    what the object held before and uninitialised memory do not matter. *)
Theorem event_ad_roundtrip (u : uninitialised) (ad0 : A) (e : ULogEvent T) (t : Z) :
  good_event e → ea_faithful (body e) = true → long_min ≤ t ≤ long_max →
  create_event u (from_event ad0 e).1 = Ret (Some (from_event ad0 e).2) ∧
  create_event u (ea_set_time t (from_event ad0 e).1) = Ret (Some (set_time (localtime_r t) e)).
Proof.
  intros He Hf Ht. pose proof (mktime_range _ (ge_time _ He)) as Hr.
  assert (has_usage (body e) = true → junk_defined u) as Hu by (intros E; destruct (ea_faithful_restored u [] (body e) _ Hf); congruence).
  destruct (create_event_restored u (mktime (eventTime e)).1 None e _ Hu He Hr (ca_equiv_refl (A := A) _)) as (f1 & _ & E1).
  destruct (create_event_restored u (mktime (eventTime e)).1 (Some t) e _ Hu He Ht (ca_equiv_refl (A := A) _)) as (f2 & _ & E2).
  rewrite from_event_ad, from_event_event, E1. split; [|rewrite <- from_event_ad with (ad0 := ad0), set_time_ad, E2];
    cbn [default from_option id]; rewrite (proj1 (ea_faithful_restored _ _ _ _ Hf)); [|done]. by rewrite (mktime_normal _ (ge_time _ He)).
Qed.

(**  The kinds that [from_event] does not write, although
    [create_event] reads them: every string comes back as the text of the
    event's time, whatever the event held. *)
Theorem event_ad_losses (u : uninitialised) (ad0 : A) (e : ULogEvent T) :
  good_event e → has_usage (body e) = false →
  let text := text_of_long (mktime (eventTime e)).1 in
  ∃ fresh e', instantiateEvent (eventNumber e) = Some fresh ∧ create_event u (from_event ad0 e).1 = Ret (Some e') ∧
    match body e with
    | GlobusSubmitEvent _ _ _ => ∃ m, body e' = GlobusSubmitEvent (Some text) (Some text) m
    | GlobusSubmitFailedEvent _ => body e' = GlobusSubmitFailedEvent (Some text)
    | GlobusResourceUpEvent _ => body e' = GlobusResourceUpEvent (Some text)
    | GlobusResourceDownEvent _ => body e' = GlobusResourceDownEvent (Some text)
    | RemoteErrorEvent _ _ _ _ => body e' = RemoteErrorEvent (Some text) (Some text) (Some text) false
    | GridSubmitEvent _ _ => body e' = GridSubmitEvent (Some text) (Some text)
    | GridResourceUpEvent _ => body e' = GridResourceUpEvent (Some text)
    | GridResourceDownEvent _ => body e' = GridResourceDownEvent (Some text)
    | PostScriptTerminatedEvent _ _ _ | JobDisconnectedEvent _ _ _ _ _ | JobReconnectedEvent _ _ _ | JobReconnectFailedEvent _ _ => body e' = body fresh
    | _ => True
    end.
Proof.
  intros He Hus text. pose proof (mktime_range _ (ge_time _ He)) as Hr.
  destruct (create_event_restored u (mktime (eventTime e)).1 None e _ ltac:(by rewrite Hus) He Hr (ca_equiv_refl (A := A) _)) as (fresh & Ef & E1).
  destruct (ge_known _ He) as (f & Ef' & Hk). assert (f = fresh) as -> by congruence. clear Ef'.
  eexists fresh, _. split; [done|]. split; [rewrite from_event_ad; exact E1|]. cbn [body default from_option id].
  destruct (body e); try done; cbn [ea_restored]; destruct (body fresh); try done. by eexists.
Qed.
End properties.

Lemma event_ad_roundtrip_witness :
  create_event junk0 (from_event (A := tree) Leaf held1).1 = Ret (Some held1) ∧
  create_event junk0 (ea_set_time 77 (from_event (A := tree) Leaf held1).1) = Ret (Some (set_time 77 held1)).
Proof. apply (event_ad_roundtrip (A := tree) junk0 Leaf held1 77 held1_good); [reflexivity|by vm_compute]. Defined.

Lemma event_ad_losses_witness :
  ∃ fresh e', instantiateEvent (T := Z) 20 = Some fresh ∧ create_event junk0 (from_event (A := tree) Leaf down2).1 = Ret (Some e') ∧
    body e' = GlobusResourceDownEvent (Some (of_string "1001")).
Proof. apply (event_ad_losses (A := tree) junk0 Leaf down2 down2_good eq_refl). Defined.
