(* ===== verification/Aborted.v ===== *)
(** * The aborted jobs of the log monitor

    Model of [jobsubmission/src/logmonitor/AbortedContainer.{h,cpp}]: the
    Condor ids of the jobs that are being aborted, in a [FileList] of strings
    with a map of the positions in memory, and the proof that it is a set of
    ids which survives a restart.

    The map is a [gmap]; [insert] leaves a key that is there alone. *)

From stdpp Require Import gmap strings.
From S2P Require Import Prelude Vectors Digits Stream FileContainer ContainerFields ContainerDisk ContainerCells ContainerList ContainerAdd.
From S2P Require Import ContainerRead ContainerCompact FileList ListContainer FileListProps FileListDeque FileListOps IdContainer IdContainerProps ContainerExamples.

Record AbortedContainer (C : Type) := Aborted {
  ac_inserted : Z;
  ac_filelist : file_sequence C;
  ac_pointers : gmap bytes (FLIterator bytes)
}.
Arguments Aborted {C}.
Arguments ac_inserted {C}.
Arguments ac_filelist {C}.
Arguments ac_pointers {C}.

Section aborted.
Context {C : Type} `{Container C}.
#[local] Abbreviation AC := (M (AbortedContainer C) iostatus_t).

(** A call on [this->ac_filelist]. *)
Definition on_filelist {X} (m : FL C X) : AC X := λ s,
  let '(l, r) := m (ac_filelist s) in (Aborted (ac_inserted s) l (ac_pointers s), r).
Definition ac_map (f : gmap bytes (FLIterator bytes) → gmap bytes (FLIterator bytes)) : AC unit :=
  modify (λ s, Aborted (ac_inserted s) (ac_filelist s) (f (ac_pointers s))).
Definition ac_count (f : Z → Z) : AC unit := modify (λ s, Aborted (f (ac_inserted s)) (ac_filelist s) (ac_pointers s)).
Definition ac_get : AC (gmap bytes (FLIterator bytes)) := λ s, (s, Ret (ac_pointers s)).
(** [Map::insert( value_type( id, it ) )] *)
Definition map_insert (id : bytes) (it : FLIterator bytes) (m : gmap bytes (FLIterator bytes)) : gmap bytes (FLIterator bytes) :=
  match m !! id with Some _ => m | None => <[id := fli_copy it]> m end.

(** One unit of fuel per round. *)
Fixpoint ac_loop (fuel : nat) (flIt end_ : FLIterator bytes) : AC unit :=
  match fuel with
  | O => stuck
  | S f =>
      if is_different (fli_base flIt) (fli_base end_) then
        r ← on_filelist (fli_deref flIt);
        ac_map (map_insert r.1 r.2);;
        flIt ← on_filelist (fli_incr r.2);
        ac_loop f flIt end_
      else mret tt
  end.
Definition ac_onConstruct (fuel : nat) : AC unit :=
  on_filelist fs_compact;;
  end_ ← on_filelist end_;
  first ← on_filelist begin_;
  ac_loop fuel (fli_assign first) (fli_assign end_).
(** The constructor, on an open file. *)
Definition ac_new (l : file_sequence C) : AbortedContainer C := Aborted 0 l ∅.

Definition ac_insert (condorId : bytes) : AC bool :=
  m ← ac_get;
  match m !! condorId with
  | Some _ => mret false
  | None =>
      catch (on_filelist (push_back condorId);;
             end_ ← on_filelist (i ← end_; fli_decr (fli_assign i));
             ac_map (map_insert condorId end_);;
             ac_count (λ n, size_t (n + 1));;
             mret false)
            (λ _, mret true)
  end.
Definition ac_remove (condorId : bytes) : AC bool :=
  m ← ac_get;
  match m !! condorId with
  | None => mret true
  | Some it =>
      catch (on_filelist (erase it);;
             ac_map (delete condorId);;
             mret false)
            (λ _, mret true)
  end.
Definition ac_search (condorId : bytes) : AC bool := m ← ac_get; mret (bool_decide (is_Some (m !! condorId))).
Definition ac_compact (fuel : nat) : AC unit :=
  ac_map (λ _, ∅);;
  ac_onConstruct fuel;;
  ac_count (λ _, 0).
End aborted.

(** ** A set of ids *)
Section props.
Context {C : Type} {HC : Container C} {HL : ListContainer C}.
Implicit Types (s : AbortedContainer C) (l : list entry) (X : gset bytes).

Record keeps_ids s l : Prop := {
  ki_seq : seq (ac_filelist s) l;
  ki_nodup : NoDup l.*2;
  ki_pointers id it : ac_pointers s !! id = Some it → ∃ p, (p, id) ∈ l ∧ on_entry (fs_addr (ac_filelist s)) it (p, id);
  ki_all p id : (p, id) ∈ l → is_Some (ac_pointers s !! id)
}.
(** The file and the map stand for the set [X]; the file ends at [z]. *)
Definition stands s X (z : Z) : Prop := ∃ l, keeps_ids s l ∧ X = list_to_set l.*2 ∧ send (ac_filelist s) = z.

Lemma stands_in s X z id : stands s X z → id ∈ X ↔ is_Some (ac_pointers s !! id).
Proof.
  intros (l & Hk & -> & _). rewrite elem_of_list_to_set, list_elem_of_fmap. split.
  - intros ([p x] & -> & Hin). by apply (ki_all _ _ Hk p).
  - intros [it Hit]. destruct (ki_pointers _ _ Hk _ _ Hit) as (p & Hin & _). by exists (p, id).
Qed.
Lemma on_filelist_Ret {Y : Type} (m : FL C Y) s b x : m (ac_filelist s) = (b, Ret x) → on_filelist m s = (Aborted (ac_inserted s) b (ac_pointers s), Ret x).
Proof. intros E. unfold on_filelist. by rewrite E. Qed.

Lemma insert_keeps s l z id : keeps_ids s l → send (ac_filelist s) = z → ac_pointers s !! id = None → id ≠ [] → room z id →
  ∃ s', ac_insert id s = (s', Ret false) ∧ keeps_ids s' (l ++ [(z, id)]) ∧ send (ac_filelist s') = z + calculateDataSize (Z.of_nat (length id)) ∧
    ac_inserted s' = size_t (ac_inserted s + 1).
Proof.
  intros [Hs Hn Hp Ha] <- Hid Hne Hroom. unfold ac_insert. rewrite (bind_Ret ac_get _ s s _ eq_refl), Hid.
  destruct (push_back_seq (T := bytes) (HT := string_converter) (ac_filelist s) l id id Hs ltac:(reflexivity) Hne Hroom) as (b1 & E1 & G1 & G2 & G3).
  destruct (last_walk (A := bytes) b1 _ _ G1) as (b2 & i & E2 & (K1 & K2 & K3) & Hoe).
  eexists. split.
  { apply catch_Ret. rewrite (bind_Ret _ _ _ _ _ (on_filelist_Ret _ _ _ _ E1)), (bind_Ret _ _ _ _ _ (on_filelist_Ret _ (Aborted _ b1 _) _ _ E2)). reflexivity. }
  cbn [ac_filelist ac_inserted ac_pointers]. unfold map_insert. rewrite Hid. split; [|split; [by rewrite K2|done]]. split; cbn [ac_filelist ac_pointers].
  - exact K1.
  - rewrite fmap_app. apply NoDup_app. split; [done|]. split; [|apply NoDup_singleton]. intros x Hx Hx'%list_elem_of_singleton. cbn in Hx'. subst x.
    apply list_elem_of_fmap in Hx as ([p y] & -> & Hx). destruct (Ha _ _ Hx) as [it Hit]. cbn in Hid. congruence.
  - intros id' it'. rewrite K3, G3. destruct (decide (id' = id)) as [-> |Hd].
    + rewrite lookup_insert_eq. intros [= <-]. exists (send (ac_filelist s)). split; [apply elem_of_app; right; apply list_elem_of_here|].
      apply on_entry_copy. by rewrite <- G3, <- K3.
    + rewrite lookup_insert_ne by done. intros (p & Hin & Hoe')%Hp. exists p. split; [apply elem_of_app; by left|done].
  - intros p id' [Hin|[= -> ->]%list_elem_of_singleton]%elem_of_app; [|by rewrite lookup_insert_eq].
    destruct (decide (id' = id)) as [-> |Hd]; [by rewrite lookup_insert_eq|]. rewrite lookup_insert_ne by done. by apply (Ha p).
Qed.

Lemma remove_keeps s l z id it : keeps_ids s l → send (ac_filelist s) = z → ac_pointers s !! id = Some it →
  ∃ s' p l1 l2, ac_remove id s = (s', Ret false) ∧ l = l1 ++ (p, id) :: l2 ∧ keeps_ids s' (l1 ++ l2) ∧ send (ac_filelist s') ≤ z ∧ ac_inserted s' = ac_inserted s.
Proof.
  intros [Hs Hn Hp Ha] <- Hid. destruct (Hp _ _ Hid) as (p & Hin & Hoe). apply list_elem_of_split in Hin as (l1 & l2 & ->).
  unfold ac_remove. rewrite (bind_Ret ac_get _ s s _ eq_refl), Hid.
  destruct (erase_at (ac_filelist s) l1 p id l2 it Hs (oe_position _ _ _ Hoe)) as (b1 & i1 & E1 & (S1 & Z1 & A1) & _).
  eexists _, p, l1, l2. split; [apply catch_Ret; rewrite (bind_Ret _ _ _ _ _ (on_filelist_Ret _ _ _ _ E1)); reflexivity|]. split; [done|].
  cbn [ac_filelist ac_inserted ac_pointers]. split; [|done]. rewrite fmap_app, fmap_cons in Hn. cbn in Hn.
  assert (∀ q, (q, id) ∉ l1 ++ l2) as Hno.
  { intros q Hq. apply NoDup_app in Hn as (_ & Hn1 & Hn2). apply NoDup_cons in Hn2 as [Hn2 _]. apply elem_of_app in Hq as [Hq|Hq];
      apply (list_elem_of_fmap_2 snd) in Hq; cbn in Hq; [by apply (Hn1 id Hq), list_elem_of_here|done]. }
  split; cbn [ac_filelist ac_pointers].
  - exact S1.
  - rewrite fmap_app. eapply sublist_NoDup; [exact Hn|]. apply sublist_app; [done|]. by apply sublist_cons.
  - intros id' it'. rewrite lookup_delete_Some. intros [Hd Hit]. destruct (Hp _ _ Hit) as (q & Hq & Hoe'). rewrite A1. exists q. split; [|done].
    rewrite elem_of_app, elem_of_cons in Hq. rewrite elem_of_app. destruct Hq as [?|[[= -> ->]|?]]; [by left|done|by right].
  - intros q id' Hq. rewrite lookup_delete_ne; [apply (Ha q); rewrite elem_of_app, elem_of_cons; apply elem_of_app in Hq; tauto|]. intros ->. by apply (Hno q).
Qed.

(** The constructor. *)
Definition points s l : Prop :=
  (∀ id it, ac_pointers s !! id = Some it → ∃ p, (p, id) ∈ l ∧ on_entry (fs_addr (ac_filelist s)) it (p, id)) ∧
  (∀ p id, (p, id) ∈ l → is_Some (ac_pointers s !! id)).

Lemma points_snoc s l p id it b : points s l → id ∉ l.*2 → on_entry (fs_addr (ac_filelist s)) it (p, id) → fs_addr b = fs_addr (ac_filelist s) →
  points (Aborted (ac_inserted s) b (map_insert id it (ac_pointers s))) (l ++ [(p, id)]).
Proof.
  intros [Hp Ha] Hn Hoe Hb. assert (ac_pointers s !! id = None) as E.
  { destruct (ac_pointers s !! id) as [it'|] eqn:E; [|done]. destruct (Hp _ _ E) as (q & Hq & _). destruct Hn. apply list_elem_of_fmap. by exists (q, id). }
  unfold map_insert. rewrite E. split; cbn [ac_filelist ac_pointers].
  - intros id' it'. rewrite Hb. destruct (decide (id' = id)) as [-> |Hd].
    + rewrite lookup_insert_eq. intros [= <-]. exists p. split; [apply elem_of_app; right; apply list_elem_of_here|]. by apply on_entry_copy.
    + rewrite lookup_insert_ne by done. intros (q & Hq & Hoe')%Hp. exists q. split; [apply elem_of_app; by left|done].
  - intros q id' [Hq|[= -> ->]%list_elem_of_singleton]%elem_of_app; [|by rewrite lookup_insert_eq].
    destruct (decide (id' = id)) as [-> |Hd]; [by rewrite lookup_insert_eq|]. rewrite lookup_insert_ne by done. by apply (Ha q).
Qed.

Lemma ac_loop_keeps fuel : ∀ s l1 l2 i (e : FLIterator bytes),
  (length l2 < fuel)%nat → seq (ac_filelist s) (l1 ++ l2) → walk (ac_filelist s) l1 l2 i → pos_at (ac_filelist s) (l1 ++ l2) [] (fli_base e) →
  NoDup (l1 ++ l2).*2 → points s l1 →
  ∃ s', ac_loop fuel i e s = (s', Ret tt) ∧ keeps (ac_filelist s) (ac_filelist s') (l1 ++ l2) ∧ points s' (l1 ++ l2).
Proof.
  induction fuel as [|f IH]; intros s l1 l2 i e Hf Hs [Hp Hw] He Hn Hpt; [lia|]. cbn [ac_loop].
  rewrite (is_different_end _ _ l2 _ _ Hs Hp He). destruct l2 as [|[p id] l2].
  { rewrite bool_decide_false by auto. exists s. rewrite app_nil_r in *. split; [done|]. by split_and!. }
  rewrite bool_decide_true by done. destruct (deref_entry _ i (p, id) id Hw eq_refl) as (i1 & E1 & Hoe & Hit).
  rewrite (bind_Ret _ _ _ _ _ (on_filelist_Ret _ _ _ _ E1)). cbn [fst snd].
  set (s1 := Aborted (ac_inserted s) (ac_filelist s) (map_insert id i1 (ac_pointers s))).
  replace (Aborted (ac_inserted s) (ac_filelist s) (ac_pointers s)) with s by by destruct s. rewrite (bind_Ret (ac_map _) _ s s1 tt eq_refl).
  assert (pos_at (ac_filelist s1) l1 ((p, id) :: l2) (fli_base i1)) as Hp1 by (split; [rewrite Hit; apply Hp|by rewrite (oe_container _ _ _ Hoe)]).
  destruct (incr_walk (ac_filelist s1) l1 (p, id) l2 i1 Hs Hp1) as (b2 & i2 & E2 & K2 & W2).
  rewrite (bind_Ret _ _ _ _ _ (on_filelist_Ret _ s1 _ _ E2)). cbn [s1 ac_inserted ac_pointers].
  replace (l1 ++ (p, id) :: l2) with ((l1 ++ [(p, id)]) ++ l2) in * by by rewrite <- app_assoc.
  destruct (IH (Aborted (ac_inserted s) b2 (map_insert id i1 (ac_pointers s))) (l1 ++ [(p, id)]) l2 i2 e) as (s3 & E3 & K3 & H3);
    [simpl in Hf; lia|apply K2|done|by eapply keeps_pos|done| |].
  - apply points_snoc; [done| |done|apply K2]. rewrite !fmap_app in Hn. apply NoDup_app in Hn as [Hn _]. apply NoDup_app in Hn as (_ & Hn & _).
    intros Hin. apply (Hn id Hin), list_elem_of_here.
  - exists s3. split; [done|]. split; [by eapply keeps_trans|done].
Qed.

Lemma onConstruct_stands s l fuel : seq (ac_filelist s) l → NoDup l.*2 → ac_pointers s = ∅ → (length l < fuel)%nat →
  ∃ s', ac_onConstruct fuel s = (s', Ret tt) ∧ ∃ z', stands s' (list_to_set l.*2) z' ∧ z' ≤ send (ac_filelist s).
Proof.
  intros Hs Hn Hm Hf. unfold ac_onConstruct. destruct (fs_compact_seq _ l Hs) as (b0 & l' & E0 & (S0 & Z0 & A0) & El).
  rewrite (bind_Ret _ _ _ _ _ (on_filelist_Ret _ _ _ _ E0)).
  destruct (end_walk (A := bytes) b0 l' S0) as (b1 & e & E1 & K1 & [P1 _]). rewrite (bind_Ret _ _ _ _ _ (on_filelist_Ret _ (Aborted _ b0 _) _ _ E1)).
  destruct (begin_walk (A := bytes) b1 l' (proj1 K1)) as (b2 & i & E2 & K2 & [P2 W2]). rewrite (bind_Ret _ _ _ _ _ (on_filelist_Ret _ (Aborted _ b1 _) _ _ E2)).
  cbn [ac_inserted ac_filelist ac_pointers].
  destruct (ac_loop_keeps fuel (Aborted (ac_inserted s) b2 (ac_pointers s)) [] l' (fli_assign i) (fli_assign e)) as (s3 & E3 & K3 & H3).
  - by rewrite <- (length_fmap snd), El, length_fmap.
  - apply K2.
  - split; [done|by destruct l'; [|apply on_entry_assign]].
  - apply copy_pos. exact (keeps_pos _ _ _ _ _ _ K2 P1).
  - cbn [app]. by rewrite El.
  - split; cbn [ac_pointers]; rewrite Hm; [intros id it E; by rewrite lookup_empty in E|]. intros p id Hin. by apply elem_of_nil in Hin.
  - cbn [app] in *. exists s3. split; [done|]. exists (send (ac_filelist s3)). destruct K1 as (_ & K1 & _), K2 as (_ & K2 & _), K3 as (S3 & K3 & _). cbn [ac_filelist] in *.
    split; [|lia]. exists l'. split; [|split; [by rewrite El|done]]. destruct H3. split; try done. by rewrite El.
Qed.
End props.

(** ** The specification and the refinement *)
Module AbortedSet.
Inductive request := Insert (id : bytes) | Remove (id : bytes) | Search (id : bytes) | Compact | Reopen.
(** The new set and the answer of the call. *)
Definition step (r : request) (X : gset bytes) : gset bytes * bool :=
  match r with
  | Insert id => (X ∪ {[id]}, false)
  | Remove id => (X ∖ {[id]}, bool_decide (id ∉ X))
  | Search id => (X, bool_decide (id ∈ X))
  | Compact | Reopen => (X, false)
  end.
Fixpoint steps (rs : list request) (X : gset bytes) : gset bytes * list bool :=
  match rs with
  | [] => (X, [])
  | r :: rs => let '(X, b) := step r X in let '(X, bs) := steps rs X in (X, b :: bs)
  end.
Definition ok (r : request) : Prop := match r with Insert id => id ≠ [] | _ => True end.
Definition size (r : request) : Z := match r with Insert id => calculateDataSize (Z.of_nat (length id)) | _ => 0 end.
Definition sizes (rs : list request) : Z := foldr (λ r n, size r + n) 0 rs.
End AbortedSet.

Section refinement.
Context {C : Type} {HC : Container C} {HL : ListContainer C}.
Implicit Types (s : AbortedContainer C) (X : gset bytes).

Definition ac_perform (fuel : nat) (r : AbortedSet.request) : M (AbortedContainer C) iostatus_t bool :=
  match r with
  | AbortedSet.Insert id => ac_insert id
  | AbortedSet.Remove id => ac_remove id
  | AbortedSet.Search id => ac_search id
  | AbortedSet.Compact => ac_compact fuel;; mret false
  | AbortedSet.Reopen => λ s, (ac_onConstruct fuel;; mret false) (ac_new (ac_filelist s))
  end.
Fixpoint ac_perform_all (fuel : nat) (rs : list AbortedSet.request) : M (AbortedContainer C) iostatus_t (list bool) :=
  match rs with
  | [] => mret []
  | r :: rs => b ← ac_perform fuel r; bs ← ac_perform_all fuel rs; mret (b :: bs)
  end.

Lemma ac_perform_stands fuel r s X z : stands s X z → AbortedSet.ok r → z + AbortedSet.size r ≤ off_max → (size X < fuel)%nat →
  ∃ s' z', ac_perform fuel r s = (s', Ret (AbortedSet.step r X).2) ∧ stands s' (AbortedSet.step r X).1 z' ∧ z' ≤ z + AbortedSet.size r.
Proof.
  intros Hst Hok Hroom Hf. pose proof (stands_in s X z) as Hin.
  assert (∀ m, (∃ s1, m s = (s1, Ret tt) ∧ ac_pointers s1 = ∅ ∧ ac_filelist s1 = ac_filelist s) →
    ∃ s' z', (m;; ac_onConstruct fuel) s = (s', Ret tt) ∧ stands s' X z' ∧ z' ≤ z + 0) as Hrebuild.
  { intros m (s1 & E1 & Hm & Hl). destruct Hst as (l & [Hs Hn _ _] & -> & <-). rewrite <- Hl in Hs.
    destruct (onConstruct_stands s1 l fuel Hs Hn Hm) as (s2 & E2 & z2 & H2 & Z2).
    { rewrite size_list_to_set in Hf by done. by rewrite length_fmap in Hf. }
    exists s2, z2. rewrite (bind_Ret _ _ _ _ _ E1). rewrite Hl in Z2. split; [done|]. split; [done|lia]. }
  destruct r as [id|id|id| |]; cbn [ac_perform AbortedSet.step AbortedSet.size AbortedSet.ok fst snd] in *.
  - destruct Hst as (l & Hk & -> & Hz). destruct (ac_pointers s !! id) as [it|] eqn:E.
    + exists s, z. unfold ac_insert. rewrite (bind_Ret ac_get _ s s _ eq_refl), E. split; [done|]. rewrite calculateDataSize_eq. split; [|lia].
      exists l. split; [done|]. split; [|done]. assert (id ∈ (list_to_set l.*2 : gset bytes)) by (apply Hin; [by exists l|by rewrite E]). set_solver.
    + destruct (insert_keeps s l z id Hk Hz E Hok Hroom) as (s' & E' & Hk' & Hz' & _). exists s', (send (ac_filelist s')). split; [exact E'|]. split; [|lia].
      exists (l ++ [(z, id)]). split; [done|]. split; [|done]. rewrite fmap_app, list_to_set_app_L. cbn. set_solver.
  - destruct Hst as (l & Hk & -> & Hz). destruct (ac_pointers s !! id) as [it|] eqn:E.
    + destruct (remove_keeps s l z id it Hk Hz E) as (s' & p & l1 & l2 & E' & -> & Hk' & Hz' & _). exists s', (send (ac_filelist s')).
      rewrite bool_decide_false by (intros Hn; apply Hn; rewrite fmap_app; set_solver). split; [done|]. split; [|lia]. exists (l1 ++ l2). split; [done|]. split; [|done].
      pose proof (ki_nodup _ _ Hk) as Hn. rewrite fmap_app, fmap_cons in Hn |- *. cbn [snd] in *. rewrite fmap_app. apply NoDup_app in Hn as (_ & Hn1 & Hn2). apply NoDup_cons in Hn2 as [Hn2 _].
      assert (id ∉ l1.*2) by (intros H; by apply (Hn1 id H), list_elem_of_here). apply set_eq. intros x. set_solver.
    + exists s, z. unfold ac_remove. rewrite (bind_Ret ac_get _ s s _ eq_refl), E.
      assert (id ∉ (list_to_set l.*2 : gset bytes)) as Hno by (rewrite (Hin id) by (by exists l); rewrite E; by intros []).
      rewrite bool_decide_true by done. split; [done|]. split; [|lia]. exists l. split; [done|]. split; [set_solver|done].
  - exists s, z. unfold ac_search. rewrite (bind_Ret ac_get _ s s _ eq_refl). split; [|split; [done|lia]]. unfold mret, M_ret. do 2 f_equal.
    apply bool_decide_ext. symmetry. by apply Hin.
  - destruct (Hrebuild (ac_map (λ _, ∅))) as (s' & z' & E & H & Z); [by eexists|]. unfold ac_compact. exists (Aborted 0 (ac_filelist s') (ac_pointers s')), z'.
    split; [|split; [|done]].
    + rewrite !bind_assoc. unfold mbind, M_bind in E |- *. destruct (ac_map _ s) as [s1 [[]| |]]; [|done..]. destruct (ac_onConstruct fuel s1) as [s2 [[]| |]]; [|done..]. by injection E as ->.
    + destruct H as (l & [H1 H2 H3 H4] & H5). exists l. split; [by split|done].
  - destruct (Hrebuild (λ s, (ac_new (ac_filelist s), Ret tt))) as (s' & z' & E & H & Z); [by eexists|]. exists s', z'. split; [|done].
    change ((ac_onConstruct fuel;; mret false) (ac_new (ac_filelist s)) = (s', Ret false)).
    change (ac_onConstruct fuel (ac_new (ac_filelist s)) = (s', Ret tt)) in E. by rewrite (bind_Ret _ _ _ _ _ E).
Qed.

Lemma step_size r X : (size (AbortedSet.step r X).1 ≤ S (size X))%nat.
Proof.
  destruct r as [id|id|id| |]; cbn; try lia.
  - rewrite size_union_alt. assert (size ({[id]} ∖ X) ≤ size ({[id]} : gset bytes))%nat as Hs by (apply subseteq_size; set_solver).
    rewrite size_singleton in Hs. lia.
  - etrans; [apply subseteq_size|]; [|apply Nat.le_succ_diag_r]. set_solver.
Qed.
Lemma request_size_nonneg r : 0 ≤ AbortedSet.size r.
Proof. destruct r; cbn; try lia. rewrite calculateDataSize_eq. lia. Qed.
Lemma sizes_nonneg rs : 0 ≤ AbortedSet.sizes rs.
Proof. induction rs as [|r rs IH]; [done|]. change (AbortedSet.sizes (r :: rs)) with (AbortedSet.size r + AbortedSet.sizes rs). pose proof (request_size_nonneg r). lia. Qed.

Lemma ac_perform_all_stands fuel rs : ∀ s X z, stands s X z → Forall AbortedSet.ok rs → z + AbortedSet.sizes rs ≤ off_max → (size X + length rs < fuel)%nat →
  ∃ s' z', ac_perform_all fuel rs s = (s', Ret (AbortedSet.steps rs X).2) ∧ stands s' (AbortedSet.steps rs X).1 z'.
Proof.
  induction rs as [|r rs IH]; intros s X z Hst Hok Hroom Hf; [by exists s, z|]. apply Forall_cons in Hok as [Hr Hok].
  change (AbortedSet.sizes (r :: rs)) with (AbortedSet.size r + AbortedSet.sizes rs) in Hroom. pose proof (sizes_nonneg rs). cbn [length] in Hf.
  destruct (ac_perform_stands fuel r s X z Hst Hr) as (s1 & z1 & E1 & H1 & Z1); [lia|lia|]. pose proof (step_size r X).
  destruct (IH s1 _ z1 H1 Hok) as (s2 & z2 & E2 & H2); [lia|lia|]. exists s2, z2. cbn [ac_perform_all AbortedSet.steps].
  destruct (AbortedSet.step r X) as [X1 b]. cbn [fst snd] in *. destruct (AbortedSet.steps rs X1) as [X2 bs]. cbn [fst snd] in *.
  by rewrite (bind_Ret _ _ _ _ _ E1), (bind_Ret _ _ _ _ _ E2).
Qed.

(** C28.  The aborted jobs are a set: any sequence of insertions, removals,
    searches, compactions and restarts answers as the set does, and the file
    and the map stand for the set that is left. *)
Theorem aborted_is_set fuel (rs : list AbortedSet.request) s X z :
  stands s X z → Forall AbortedSet.ok rs → z + AbortedSet.sizes rs ≤ off_max → (size X + length rs < fuel)%nat →
  ∃ s' z', ac_perform_all fuel rs s = (s', Ret (AbortedSet.steps rs X).2) ∧ stands s' (AbortedSet.steps rs X).1 z'.
Proof. apply ac_perform_all_stands. Qed.
End refinement.

Definition aborted0 : AbortedContainer FileContainer := ac_new (new_sequence 1 queue0).
Definition requests0 : list AbortedSet.request :=
  [AbortedSet.Insert (of_string "17"); AbortedSet.Insert (of_string "9"); AbortedSet.Insert (of_string "17"); AbortedSet.Remove (of_string "17");
   AbortedSet.Reopen; AbortedSet.Search (of_string "9"); AbortedSet.Search (of_string "17"); AbortedSet.Remove (of_string "17")].
Lemma aborted_is_set_witness :
  ∃ s' z', ac_perform_all 9 requests0 aborted0 = (s', Ret [false; false; false; false; false; true; false; true]) ∧
    stands s' (AbortedSet.steps requests0 ∅).1 z'.
Proof.
  assert ((AbortedSet.steps requests0 ∅).2 = [false; false; false; false; false; true; false; true]) as <- by (vm_compute; reflexivity).
  apply (aborted_is_set 9 requests0 aborted0 ∅ (end_of queue0)).
  - exists []. split; [|by split]. split; [split; [apply rep_ready, queue0_rep|done]|constructor|..].
    + intros id it E. cbn in E. by rewrite lookup_empty in E.
    + intros p id Hin. by apply elem_of_nil in Hin.
  - by repeat constructor.
  - rewrite queue0_end. vm_compute. discriminate.
  - vm_compute. lia.
Defined.
