(* ===== verification/SizeFile.v ===== *)
(** * The size file of a Condor log

    Model of [jobsubmission/src/logmonitor/SizeFile.{h,cpp}]: how far the
    log monitor has read a log, how many jobs are pending and whether the
    last one was seen, in a file that starts with a header and to which
    every update appends a record of fixed width.

    [f_data] of the stream is the contents of the file, open or not;
    [sf_permitted] says whether the file can be opened.  The name of the
    file is made by [dot], which stands for the path functions that
    [createDotFile] calls.  Messages to the log are left out.  [None] is
    the erasure before the start of an empty string in the reader of a
    header.  [position0], [pending0] and [last0] are what the variables of
    [checkOldFormat] hold before they are read: a read that finds the
    stream already failed leaves them as they are. *)

From S2P Require Import Prelude Digits Stream FileContainer Numbers.

(** ** Fields *)
Definition sf_s_long : nat := Eval vm_compute in integer_size 8 10.
Definition sf_s_unsigned : nat := Eval vm_compute in integer_size 4 10.
Definition dimension : nat := (sf_s_long + sf_s_unsigned + 5)%nat.
Definition unsigned_max : Z := 2 ^ 32 - 1.

Record SizeField := Field { fd_good : bool; fd_last : bool; fd_pending : Z; fd_position : Z }.
(** The constructors. *)
Definition field_none : SizeField := Field false false 0 0.
Definition field_of (position pending : Z) (last : bool) : SizeField := Field true last pending position.
(** [reset( position, pending, last )], [pending( p )], [position( p )], [last( l )] *)
Definition fd_reset (position pending : Z) (last : bool) (f : SizeField) : SizeField := Field true last pending position.
Definition fd_set_pending (pending : Z) (f : SizeField) : SizeField := Field (fd_good f) (fd_last f) pending (fd_position f).
Definition fd_set_position (position : Z) (f : SizeField) : SizeField := Field (fd_good f) (fd_last f) (fd_pending f) position.
Definition fd_set_last (last : bool) (f : SizeField) : SizeField := Field (fd_good f) last (fd_pending f) (fd_position f).

(** [operator<<] *)
Definition bar : ascii := "|"%char.
Definition bool_char (b : bool) : ascii := if b then "1"%char else "0"%char.
Definition zero_filled (w : nat) (text : bytes) : bytes := replicate (w - length text) "0"%char ++ text.
Definition field_text (f : SizeField) : bytes :=
  zero_filled sf_s_long (text_of_long (fd_position f)) ++ [sp] ++ zero_filled sf_s_unsigned (text_of_long (fd_pending f)) ++ [sp] ++ [bool_char (fd_last f)] ++ [sp; bar].

(** [is >> b] for a [bool]: the number 0 or 1. *)
Definition extract_bool (st : stream) : stream * option bool :=
  match extract_num 10 long_min long_max st with
  | (st, Some n) => if bool_decide (n = 0) then (st, Some false) else if bool_decide (n = 1) then (st, Some true) else (set_failbit st, None)
  | (st, None) => (st, None)
  end.
(** [operator>>]: the values count only when all four were read. *)
Definition field_read (sf : SizeField) (st : stream) : stream * SizeField :=
  let '(st, position) := extract_num 10 long_min long_max st in
  let '(st, pending) := extract_num 10 0 unsigned_max st in
  let '(st, last) := extract_bool st in
  let '(st, c) := extract_char st in
  match position, pending, last with
  | Some position, Some pending, Some last =>
      if good st && negb (bad st) && bool_decide (c = Some bar) then (st, Field true last pending position)
      else (st, Field false (fd_last sf) (fd_pending sf) (fd_position sf))
  | _, _, _ => (st, Field false (fd_last sf) (fd_pending sf) (fd_position sf))
  end.

(** ** Headers *)
Record SizeHeader := Header { sh_good : bool; sh_header : bytes }.
Definition sh_reset (header : bytes) : SizeHeader := Header (bool_decide (header ≠ [])) header.
Definition sh_size (h : SizeHeader) : Z := Z.of_nat (length (sh_header h)) + 4.
Definition dots : bytes := of_string "...".
Definition header_text (h : SizeHeader) : bytes := sh_header h ++ nl :: dots.

(** The [do ... while] loop of [operator>>], a unit of fuel per line; the
    answer is the stream, the header and [last]. *)
Fixpoint header_loop (fuel : nat) (header : bytes) (st : stream) : option (stream * bytes * bool) :=
  match fuel with
  | O => None
  | S f =>
      let '(st, buffer) := getline st in
      let last := bool_decide (buffer = dots) in
      if good st && negb last then header_loop f (header ++ buffer ++ [nl]) st
      else if last then (if bool_decide (header = []) then None else Some (st, take (length header - 1) header, true))
      else Some (st, header, false)
  end.
Definition header_read (st : stream) : option (stream * SizeHeader) :=
  match header_loop (S (length (f_data st))) [] st with
  | Some (st, header, last) => Some (st, if last then Header true header else Header false [])
  | None => None
  end.

Definition sf_s_defaultHeader : bytes :=
  of_string "Condor log size file, DAG enabled." ++ nl :: of_string "This header is made to contain the dagId." ++
  nl :: of_string "In this moment the DAG Id is unknown.".

(** ** The class *)
Record SizeFile := SFile {
  sf_good : bool;
  sf_stashed : bool;
  sf_stash_pos : Z;
  sf_filename : bytes;
  sf_stream : stream;
  sf_header : SizeHeader;
  sf_current : SizeField;
  sf_permitted : bool
}.
Definition upd_sf_good g s := SFile g (sf_stashed s) (sf_stash_pos s) (sf_filename s) (sf_stream s) (sf_header s) (sf_current s) (sf_permitted s).
Definition upd_stashed b s := SFile (sf_good s) b (sf_stash_pos s) (sf_filename s) (sf_stream s) (sf_header s) (sf_current s) (sf_permitted s).
Definition upd_stash_pos p s := SFile (sf_good s) (sf_stashed s) p (sf_filename s) (sf_stream s) (sf_header s) (sf_current s) (sf_permitted s).
Definition upd_sf_filename n s := SFile (sf_good s) (sf_stashed s) (sf_stash_pos s) n (sf_stream s) (sf_header s) (sf_current s) (sf_permitted s).
Definition upd_sf_stream st s := SFile (sf_good s) (sf_stashed s) (sf_stash_pos s) (sf_filename s) st (sf_header s) (sf_current s) (sf_permitted s).
Definition upd_header h s := SFile (sf_good s) (sf_stashed s) (sf_stash_pos s) (sf_filename s) (sf_stream s) h (sf_current s) (sf_permitted s).
Definition upd_current f s := SFile (sf_good s) (sf_stashed s) (sf_stash_pos s) (sf_filename s) (sf_stream s) (sf_header s) f (sf_permitted s).

Section size_file.
Context (dot : bytes → bytes) (position0 pending0 : Z) (last0 : bool).
Implicit Types s : SizeFile.

(** [sf_stream.open( name, in | out )] and [sf_stream.open( name, out )],
    which empties the file. *)
Definition fopen (truncated : bool) s : SizeFile :=
  let st := sf_stream s in
  if sf_permitted s then
    upd_sf_stream (if truncated then Stream [] 0 false false false (f_broken st) (f_journal st ++ [[]])
                   else Stream (f_data st) 0 false false false (f_broken st) (f_journal st)) s
  else upd_sf_stream (set_failbit st) s.
Definition on_sf (f : stream → stream) s : SizeFile := upd_sf_stream (f (sf_stream s)) s.

Definition createDotFile s : SizeFile := upd_sf_filename (if bool_decide (sf_filename s = []) then [] else dot (sf_filename s)) s.

Definition newSizeFile s : SizeFile :=
  let s := if sf_stashed s then upd_stashed false s else on_sf clear s in
  let s := fopen true s in
  let s := if sh_good (sf_header s) then s else upd_header (sh_reset sf_s_defaultHeader) s in
  let s := on_sf (emit (header_text (sf_header s) ++ [nl] ++ field_text (sf_current s) ++ [nl])) s in
  let s := fopen false s in
  on_sf seek_end s.

Definition stashFile s : SizeFile :=
  if sf_stashed s then s else upd_stashed true (upd_stash_pos (tell (sf_stream s)) s).
Definition reopenFile s : SizeFile :=
  if sf_stashed s then
    let s := fopen false s in
    let s := if good (sf_stream s) then on_sf (seek (sf_stash_pos s)) s else s in
    upd_stashed false (upd_sf_good (good (sf_stream s)) s)
  else s.

Definition readField (position : Z) s : SizeFile * SizeField :=
  let s := reopenFile s in
  let '(st, f) := field_read field_none (seek position (sf_stream s)) in
  (upd_sf_stream st s, f).
(** [seekg( -position, ios::end )] *)
Definition readLastField s : SizeFile * SizeField :=
  let s := reopenFile s in
  let st := sf_stream s in
  let '(st, f) := field_read field_none (seek (Z.of_nat (length (f_data st)) - (Z.of_nat dimension + 1)) st) in
  (upd_sf_stream st s, f).

(** A word, [is >> s]. *)
Definition extract_word (st : stream) : stream * bytes :=
  if negb (good st) then (set_failbit st, [])
  else
    let '(ws, r) := span is_space (rest st) in
    let '(w, r') := span (λ c, negb (is_space c)) r in
    let st := advance (length ws + length w) st in
    (set_bits (bool_decide (r' = [])) (bool_decide (w = [])) false st, w).
Definition checkOldFormat s : SizeFile * bool :=
  let s := reopenFile s in
  let st := seek 0 (clear (sf_stream s)) in
  let '(st, position) := extract_num 10 long_min long_max st in
  let '(st, pending) := extract_num 10 0 unsigned_max st in
  let '(st, last) := extract_bool st in
  let '(st, dagid) := if good st then extract_word st else (st, []) in
  if good st || f_eof st then
    let s := upd_sf_stream (clear st) s in
    let field := field_of (default position0 position) (default pending0 pending) (default last0 last) in
    let s := if bool_decide (dagid ≠ [])
             then upd_header (sh_reset (of_string "Restored from old file" ++ nl :: of_string "DagId = " ++ dagid ++ nl :: of_string "###########")) s
             else s in
    (upd_current field s, true)
  else (upd_sf_stream st s, false).

(** The recovery loop: from the last index down to 1. *)
Fixpoint recover_loop (field_number : nat) s : SizeFile * bool :=
  match field_number with
  | O => (s, false)
  | S n =>
      let '(s, f) := readField (sh_size (sf_header s) + Z.of_nat field_number * (Z.of_nat dimension + 1)) s in
      let s := upd_current f s in
      if fd_good f && good (sf_stream s) then (on_sf (λ st, seek (tell st) st) s, true)
      else
        let s := if negb (good (sf_stream s)) || bad (sf_stream s) then on_sf clear s else s in
        recover_loop n s
  end.
(** The branch for a file with a good header. *)
Definition open_fields (filesize : Z) s : SizeFile :=
  let '(s, f) := readLastField s in
  let s := upd_current f s in
  if fd_good f && good (sf_stream s) then on_sf seek_end s
  else
    let s := if negb (good (sf_stream s)) || bad (sf_stream s) then on_sf clear s else s in
    let field_number := Z.quot (filesize - sh_size (sf_header s)) (Z.of_nat dimension + 1) in
    if bool_decide (field_number ≠ 0) then
      let '(s, found) := recover_loop (Z.to_nat field_number) s in
      if found then s else newSizeFile (upd_current (fd_reset 0 0 false (sf_current s)) s)
    else newSizeFile (upd_current (fd_reset 0 0 false (sf_current s)) s).
Definition openFile (create : bool) s : option SizeFile :=
  upd_stashed false <$>
  if bool_decide (sf_filename s = []) then Some (upd_sf_good false s)
  else if create then
    let s := upd_current (fd_reset 0 0 false (sf_current s)) (upd_header (sh_reset sf_s_defaultHeader) s) in
    let s := newSizeFile s in
    Some (if negb (good (sf_stream s)) || bad (sf_stream s) then upd_sf_good false s else s)
  else
    let s := fopen false s in
    if good (sf_stream s) then
      let filesize := Z.of_nat (length (f_data (sf_stream s))) in
      if bool_decide (filesize ≠ 0) then
        match header_read (sf_stream s) with
        | None => None
        | Some (st, h) =>
            let s := upd_header h (upd_sf_stream st s) in
            if sh_good h && negb (f_eof st) then Some (open_fields filesize s)
            else if f_eof st then
              let '(s, old) := checkOldFormat s in
              if (old : bool) then Some (newSizeFile s)
              else Some (newSizeFile (upd_current (fd_reset 0 0 false (sf_current s)) s))
            else Some (upd_sf_good false s)
        end
      else
        let s := upd_current (fd_reset 0 0 false (sf_current s)) (upd_header (sh_reset sf_s_defaultHeader) s) in
        Some (on_sf (λ st, emit (header_text (sf_header s) ++ [nl] ++ field_text (sf_current s) ++ [nl]) (seek 0 st)) s)
    else Some (upd_sf_good false s).

(** The constructor, on a file with the contents [d]. *)
Definition SizeFile_new (filename d : bytes) (permitted create : bool) : option SizeFile :=
  let s := SFile true false 0 filename (open_stream d false) (Header false []) field_none permitted in
  stashFile <$> openFile create (createDotFile s).
(** [open( filename, create )]; the new file contains [d]. *)
Definition sf_open (filename d : bytes) (permitted create : bool) s : option SizeFile :=
  let s := SFile true (sf_stashed s) (sf_stash_pos s) filename (Stream d 0 false false false (f_broken (sf_stream s)) []) (sf_header s) (sf_current s) permitted in
  stashFile <$> openFile create (createDotFile s).

Definition dumpField s : SizeFile :=
  let s := reopenFile s in
  let s := if good (sf_stream s) then on_sf (emit (field_text (sf_current s) ++ [nl])) s else s in
  upd_sf_good (good (sf_stream s)) s.

(** The updates: a change of the current field, and its record. *)
Definition update_with (f : SizeField → SizeField) s : SizeFile :=
  let s := reopenFile s in
  let s := if sf_good s then dumpField (upd_current (f (sf_current s)) s) else s in
  stashFile s.
Definition update_position (new_position : Z) : SizeFile → SizeFile := update_with (fd_set_position new_position).
Definition update_pending (new_pending : Z) : SizeFile → SizeFile := update_with (fd_set_pending new_pending).
Definition update_last (new_last : bool) : SizeFile → SizeFile := update_with (fd_set_last new_last).
Definition update (new_position new_pending : Z) (new_last : bool) : SizeFile → SizeFile := update_with (fd_reset new_position new_pending new_last).

(** The changes in memory only. *)
Definition set_last (new_last : bool) s : SizeFile := if sf_good s then upd_current (fd_set_last new_last (sf_current s)) s else s.
Definition set_completed s : SizeFile := if sf_good s then upd_current (fd_set_last true (fd_set_pending 0 (sf_current s))) s else s.
(** [unsigned int] wraps around. *)
Definition increment_pending s : SizeFile :=
  if sf_good s then upd_current (fd_set_pending ((fd_pending (sf_current s) + 1) `mod` (unsigned_max + 1)) (sf_current s)) s else s.
Definition decrement_pending s : SizeFile :=
  if sf_good s then
    let old := fd_pending (sf_current s) in
    if bool_decide (old > 0) then upd_current (fd_set_pending (old - 1) (sf_current s)) s else s
  else s.
Definition completed s : bool := sf_good s && fd_last (sf_current s) && bool_decide (fd_pending (sf_current s) = 0).

(** The padding is made of the length that the new header has in excess. *)
Definition padded (newheader : bytes) (space : nat) : bytes :=
  if bool_decide (1 < space)%nat then newheader ++ nl :: replicate (space - 1) "#"%char
  else if bool_decide (space = 1%nat) then newheader ++ [sp] else newheader.
Definition update_header (newheader : bytes) s : SizeFile :=
  let s := reopenFile s in
  let s :=
    if sf_good s then
      let old := length (sh_header (sf_header s)) in
      if bool_decide (old ≤ length newheader)%nat then
        let s := upd_header (sh_reset (padded newheader (length newheader - old))) s in
        if good (sf_stream s) then
          let s := on_sf (λ st, seek_end (emit (header_text (sf_header s)) (seek 0 st))) s in
          upd_sf_good (good (sf_stream s)) s
        else upd_sf_good false s
      else
        let s := on_sf (seek 0) (upd_header (sh_reset newheader) s) in
        match ftruncate 0 (sf_stream s) with
        | (st, false) => upd_sf_good false (upd_sf_stream st s)
        | (st, true) =>
            let s := on_sf (emit (header_text (sf_header s) ++ [nl] ++ field_text (sf_current s) ++ [nl])) (upd_sf_stream st s) in
            upd_sf_good (good (sf_stream s)) s
        end
    else s in
  stashFile s.
End size_file.
