(* ===== verification/SizeFileProps.v ===== *)
(** * Reading and writing the size file

    Lemmas about the fields, the header and the records of a size file:
    what a read finds in a file made of a header and records, in one whose
    last record is torn, and in one without an end of header. *)

From S2P Require Import Prelude Digits Stream FileContainer Numbers SizeFile.

Create HintDb size_file.
Create Rewrite HintDb size_file.
(** Both sides as lists associated to the right. *)
Ltac apps := repeat first [rewrite <- app_assoc | progress cbn [app]]; try done.
(** The side conditions of a read: where the text is, and what it is made of. *)
Ltac side := first
  [ done
  | match goal with H : _ = _ |- ?d = _ ++ _ => solve [rewrite H; apps] end
  | solve [rewrite ?length_app; cbn [length]; rewrite ?length_app, ?length_fixed; cbn [length]; lia]
  | solve [repeat constructor; done] | solve [unfold long_min; lia] | solve [apply fixed_digits; lia] ].

(** ** Digits *)

Lemma drop_fixed base k w n : (k ≤ w)%nat → drop k (fixed base w n) = fixed base (w - k) n.
Proof.
  revert k n. induction w as [|w IH]; intros k n Hk; [by replace k with 0%nat by lia|].
  destruct (decide (k = S w)) as [->|].
  - rewrite Nat.sub_diag. apply drop_ge. by rewrite length_fixed.
  - cbn [fixed]. rewrite drop_app_le by (rewrite length_fixed; lia). rewrite IH by lia. by replace (S w - k)%nat with (S (w - k)) by lia.
Qed.
Lemma fixed_mod base w n : 2 ≤ base ≤ 16 → fixed base w n = fixed base w (n `mod` base ^ Z.of_nat w).
Proof.
  intros Hb. revert n. induction w as [|w IH]; intros n; [done|]. cbn [fixed].
  rewrite IH, (IH ((n `mod` base ^ Z.of_nat (S w)) `div` base)), Nat2Z.inj_succ, Z.pow_succ_r by lia.
  pose proof (Z.pow_pos_nonneg base (Z.of_nat w)) as Hp. pose proof (Z.mod_pos_bound n base) as Hm.
  rewrite Z.rem_mul_r by lia. rewrite (Z.mul_comm base ((n `div` base) `mod` _)). f_equal; [f_equal|].
  - rewrite Z.div_add, (Z.div_small (n `mod` base)), Z.add_0_l, Zmod_mod by lia. done.
  - rewrite Z_mod_plus_full, Zmod_mod. done.
Qed.
Lemma digits_value_drop k w n : (k ≤ w)%nat → digits_value 10 (drop k (fixed 10 w n)) = n `mod` 10 ^ Z.of_nat (w - k).
Proof. intros Hk. rewrite drop_fixed, fixed_mod by lia. apply digits_value_fixed; [lia|]. apply Z.mod_pos_bound. lia. Qed.

Lemma zero_filled_fixed w n : 0 ≤ n < 10 ^ Z.of_nat w → (0 < w)%nat → zero_filled w (text_of_long n) = fixed 10 w n.
Proof.
  intros Hn Hw. unfold zero_filled, text_of_long. rewrite bool_decide_false by lia. rewrite <- (fmt_fixed 10) by (done || lia). done.
Qed.

(** ** Fields *)

Definition field_ok (f : SizeField) : Prop := fd_good f = true ∧ 0 ≤ fd_position f ≤ long_max ∧ 0 ≤ fd_pending f ≤ unsigned_max.
#[export] Instance field_ok_dec f : Decision (field_ok f).
Proof. unfold field_ok. apply _. Defined.

Lemma position_range n : 0 ≤ n ≤ long_max → 0 ≤ n < 10 ^ Z.of_nat 20.
Proof. intros. change (10 ^ Z.of_nat 20) with 100000000000000000000. unfold long_max in *. lia. Qed.
Lemma pending_range n : 0 ≤ n ≤ unsigned_max → 0 ≤ n < 10 ^ Z.of_nat 10.
Proof. intros. change (10 ^ Z.of_nat 10) with 10000000000. unfold unsigned_max in *. lia. Qed.

(** What follows the position. *)
Definition field_tail (f : SizeField) : bytes := sp :: fixed 10 10 (fd_pending f) ++ [sp; bool_char (fd_last f); sp; bar].
Lemma field_text_eq f : field_ok f → field_text f = fixed 10 20 (fd_position f) ++ field_tail f.
Proof.
  intros (_ & Hp & Hn). unfold field_text, field_tail, sf_s_long, sf_s_unsigned.
  rewrite !zero_filled_fixed by (try lia; try (apply position_range; done); apply pending_range; done). done.
Qed.
Lemma length_field_tail f : length (field_tail f) = 15%nat.
Proof. unfold field_tail. cbn [length]. rewrite length_app, length_fixed. done. Qed.
Lemma length_field_text f : field_ok f → length (field_text f) = dimension.
Proof. intros H. rewrite field_text_eq, length_app, length_fixed, length_field_tail by done. done. Qed.

Lemma space_sp : is_space sp = true. Proof. reflexivity. Qed.
Lemma bar_not_digit : is_digit 10 bar = false. Proof. reflexivity. Qed.
Lemma digit_bool b : is_digit 10 (bool_char b) = true. Proof. by destruct b. Qed.
#[export] Hint Resolve space_sp bar_not_digit digit_bool : wms.

Section reading.
Context (d : bytes) (j : list bytes).

Lemma extract_bool_at a b r p :
  d = a ++ sp :: bool_char b :: sp :: r → p = Z.of_nat (length a) →
  extract_bool (at_ d p j) = (at_ d (p + 2) j, Some b).
Proof.
  intros Hd Hp. unfold extract_bool.
  rewrite (extract_num_at d j 10 long_min long_max a [sp] [bool_char b] sp r p); destruct b; try done; by repeat constructor.
Qed.

(** A field whose position has the digits [ds]. *)
Lemma field_read_at sf a ws ds f r p :
  d = a ++ ws ++ ds ++ field_tail f ++ r → p = Z.of_nat (length a) → field_ok f →
  Forall (λ c, is_space c = true) ws → Forall (λ c, is_digit 10 c = true) ds → ds ≠ [] → 0 ≤ digits_value 10 ds ≤ long_max →
  field_read sf (at_ d p j) = (at_ d (p + Z.of_nat (length ws + length ds + 15)) j, Field true (fd_last f) (fd_pending f) (digits_value 10 ds)).
Proof.
  intros Hd Hp (_ & _ & Hn) Hws Hds Hne Hv. unfold field_read.
  assert (field_tail f ++ r = sp :: fixed 10 10 (fd_pending f) ++ [sp; bool_char (fd_last f); sp; bar] ++ r) as E.
  { unfold field_tail. cbn [app]. by rewrite <- app_assoc. }
  rewrite E in Hd. clear E.
  rewrite (extract_num_at d j 10 long_min long_max a ws ds sp (fixed 10 10 (fd_pending f) ++ [sp; bool_char (fd_last f); sp; bar] ++ r) p);
    try done; [|unfold long_min; lia..].
  pose proof (digits_value_fixed 10 ltac:(lia) 10 _ (pending_range _ Hn)) as Ev.
  erewrite (extract_num_at d j 10 0 unsigned_max (a ++ ws ++ ds) [sp] (fixed 10 10 (fd_pending f)) sp ([bool_char (fd_last f); sp; bar] ++ r));
    rewrite ?Ev; try done.
  2: { rewrite Hd. apps. } 2: { rewrite Hp, !length_app. lia. } 2: { by repeat constructor. } 2: { apply fixed_digits. lia. } 2: lia.
  rewrite (extract_bool_at (a ++ ws ++ ds ++ sp :: fixed 10 10 (fd_pending f)) (fd_last f) (bar :: r)).
  2: { rewrite Hd. apps. }
  2: { rewrite Hp, !length_app. cbn [length]. rewrite length_fixed. lia. }
  rewrite (extract_char_at d j (a ++ ws ++ ds ++ sp :: fixed 10 10 (fd_pending f) ++ [sp; bool_char (fd_last f)]) [sp] bar r).
  2: { rewrite Hd. apps. }
  2: { rewrite Hp, !length_app. cbn [length]. rewrite length_app, length_fixed. cbn [length]. lia. }
  2: by repeat constructor. 2: done.
  rewrite (bool_decide_true (Some bar = Some bar)) by done. cbn [good bad at_ f_eof f_fail f_bad orb andb negb].
  rewrite length_fixed. cbn [length]. f_equal. f_equal. lia.
Qed.

(** Nothing that is a number: the read of a number fails. *)
Lemma extract_num_none base lo hi a ws c r p :
  d = a ++ ws ++ c :: r → p = Z.of_nat (length a) → Forall (λ c, is_space c = true) ws →
  is_space c = false → is_digit base c = false → c ≠ minus → c ≠ plus →
  extract_num base lo hi (at_ d p j) = (set_failbit (at_ d (p + Z.of_nat (length ws)) j), None).
Proof.
  intros Hd Hp Hws Hs Hc Hm Hpl. unfold extract_num. simpl negb. cbn iota. rewrite (rest_at d j a (ws ++ c :: r)) by done.
  rewrite span_app_stop by done.
  replace (match c :: r with "-"%char :: r => (true, r) | "+"%char :: r => (false, r) | _ => (false, c :: r) end) with (false, c :: r).
  2: { destruct c as [[] [] [] [] [] [] [] []]; try done. }
  rewrite span_cons_stop by done. unfold at_, set_failbit, advance, set_bits, set_pos. cbn [f_data f_pos f_eof f_fail f_bad f_broken f_journal].
  do 3 f_equal. rewrite length_app. cbn [length]. lia.
Qed.
End reading.

(** A failed stream stays as it is. *)
Lemma extract_num_failed base lo hi st : extract_num base lo hi (set_failbit st) = (set_failbit st, None).
Proof.
  unfold extract_num, good, set_failbit, set_bits. cbn [f_data f_pos f_eof f_fail f_bad f_broken f_journal].
  rewrite !orb_true_r, !orb_false_r. done.
Qed.
Lemma extract_bool_failed st : extract_bool (set_failbit st) = (set_failbit st, None).
Proof. unfold extract_bool. by rewrite extract_num_failed. Qed.
Lemma extract_char_failed st : extract_char (set_failbit st) = (set_failbit st, None).
Proof.
  unfold extract_char, good, set_failbit, set_bits. cbn [f_data f_pos f_eof f_fail f_bad f_broken f_journal].
  rewrite !orb_true_r, !orb_false_r. done.
Qed.
#[global] Hint Rewrite extract_num_failed extract_bool_failed extract_char_failed : size_file.

(** ** A read that starts inside a field *)

(** The rest of a field after its position, from the character [k] of it
    on, is not a field. *)
Section inside.
Context (d : bytes) (j : list bytes) (sf : SizeField).

Lemma field_read_bar a ws r p :
  d = a ++ ws ++ bar :: r → p = Z.of_nat (length a) → Forall (λ c, is_space c = true) ws →
  ∃ p', field_read sf (at_ d p j) = (set_failbit (at_ d p' j), Field false (fd_last sf) (fd_pending sf) (fd_position sf)).
Proof.
  intros Hd Hp Hws. eexists. unfold field_read. rewrite (extract_num_none d j 10 _ _ a ws bar r p) by done.
  autorewrite with size_file. done.
Qed.
Lemma field_read_number_bar a ws ds ws' r p :
  d = a ++ ws ++ ds ++ ws' ++ bar :: r → p = Z.of_nat (length a) → Forall (λ c, is_space c = true) ws → Forall (λ c, is_space c = true) ws' → ws' ≠ [] →
  Forall (λ c, is_digit 10 c = true) ds → ds ≠ [] → 0 ≤ digits_value 10 ds ≤ long_max →
  ∃ p', field_read sf (at_ d p j) = (set_failbit (at_ d p' j), Field false (fd_last sf) (fd_pending sf) (fd_position sf)).
Proof.
  intros Hd Hp Hws Hws' Hne' Hds Hne Hv. eexists. unfold field_read. destruct ws' as [|w ws']; [done|].
  rewrite (extract_num_at d j 10 long_min long_max a ws ds w (ws' ++ bar :: r) p); try done; [| |unfold long_min; lia..].
  - rewrite (extract_num_none d j 10 _ _ (a ++ ws ++ ds) (w :: ws') bar r) by side.
    autorewrite with size_file. done.
  - inversion Hws'; subst. destruct (is_digit 10 w) eqn:E; [|done]. apply is_digit_not_space in E. congruence.
Qed.
Lemma field_read_two_numbers_bar a ws ds b r p :
  d = a ++ ws ++ ds ++ sp :: bool_char b :: sp :: bar :: r → p = Z.of_nat (length a) → Forall (λ c, is_space c = true) ws →
  Forall (λ c, is_digit 10 c = true) ds → ds ≠ [] → 0 ≤ digits_value 10 ds ≤ long_max →
  ∃ p', field_read sf (at_ d p j) = (set_failbit (at_ d p' j), Field false (fd_last sf) (fd_pending sf) (fd_position sf)).
Proof.
  intros Hd Hp Hws Hds Hne Hv. eexists. unfold field_read.
  rewrite (extract_num_at d j 10 long_min long_max a ws ds sp (bool_char b :: sp :: bar :: r) p); try done; [|unfold long_min; lia..].
  rewrite (extract_num_at d j 10 0 unsigned_max (a ++ ws ++ ds) [sp] [bool_char b] sp (bar :: r)) by (side || by destruct b; repeat constructor).
  unfold extract_bool. rewrite (extract_num_none d j 10 _ _ (a ++ ws ++ ds ++ [sp; bool_char b]) [sp] bar r) by side.
  autorewrite with size_file. done.
Qed.

Lemma field_read_inside f a k r p :
  field_ok f → (20 ≤ k ≤ 34)%nat → d = a ++ drop k (field_text f) ++ r → p = Z.of_nat (length a) →
  ∃ p', field_read sf (at_ d p j) = (set_failbit (at_ d p' j), Field false (fd_last sf) (fd_pending sf) (fd_position sf)).
Proof.
  intros Hf Hk Hd Hp. rewrite field_text_eq, drop_app_ge in Hd by (try rewrite length_fixed; done || lia). rewrite length_fixed in Hd.
  pose proof (pending_range _ (proj2 (proj2 Hf))) as Hn. unfold field_tail in Hd.
  destruct (decide (k = 20%nat)) as [->|].
  { eapply (field_read_two_numbers_bar a [sp] (fixed 10 10 (fd_pending f)) (fd_last f) r p); try side.
    rewrite digits_value_fixed by lia. unfold long_max. change (10 ^ Z.of_nat 10) with 10000000000 in Hn. lia. }
  replace (k - 20)%nat with (S (k - 21)) in Hd by lia. cbn [drop] in Hd.
  destruct (decide (k < 31)%nat) as [Hlt|].
  { rewrite drop_app_le in Hd by (rewrite length_fixed; lia).
    eapply (field_read_two_numbers_bar a [] (drop (k - 21) (fixed 10 10 (fd_pending f))) (fd_last f) r p); try done.
    - rewrite Hd. apps.
    - rewrite drop_fixed by lia. apply fixed_digits. lia.
    - rewrite drop_fixed by lia. intros E%(f_equal length). rewrite length_fixed in E. cbn in E. lia.
    - rewrite digits_value_drop by lia. pose proof (Z.mod_pos_bound (fd_pending f) (10 ^ Z.of_nat (10 - (k - 21)))).
      pose proof (Z.pow_le_mono_r 10 (Z.of_nat (10 - (k - 21))) 10). change (10 ^ 10) with 10000000000 in *. unfold long_max. lia. }
  rewrite drop_app_ge in Hd by (rewrite length_fixed; lia). rewrite length_fixed in Hd.
  assert (k = 31 ∨ k = 32 ∨ k = 33 ∨ k = 34)%nat as [-> | [-> | [-> | ->]]] by lia; cbn in Hd.
  - eapply (field_read_number_bar a [sp] [bool_char (fd_last f)] [sp] r p); try done; repeat constructor; try done; destruct (fd_last f); done.
  - eapply (field_read_number_bar a [] [bool_char (fd_last f)] [sp] r p); try done; repeat constructor; try done; destruct (fd_last f); done.
  - eapply (field_read_bar a [sp] r p); try done; by repeat constructor.
  - eapply (field_read_bar a [] r p); try done; by repeat constructor.
Qed.
End inside.

(** ** What a read leaves as it is *)

Definition same_file (st st' : stream) : Prop := f_data st' = f_data st ∧ f_broken st' = f_broken st ∧ f_journal st' = f_journal st ∧ f_bad st' = f_bad st.
#[export] Instance same_file_po : PreOrder same_file.
Proof. split; [by intros ?|intros ??? (?&?&?&?) (?&?&?&?); repeat split; congruence]. Qed.
Lemma same_file_bits e f st : same_file st (set_bits e f false st).
Proof. repeat split. apply orb_false_r. Qed.
Lemma same_file_pos p st : same_file st (set_pos p st).
Proof. by repeat split. Qed.
#[export] Hint Resolve same_file_bits same_file_pos : size_file.

(** [reads st st']: a read of [st] that leaves [st']; one that went well
    found a good stream and went forward. *)
Definition reads (st st' : stream) : Prop := same_file st st' ∧ (good st' = true → good st = true ∧ f_pos st ≤ f_pos st').
#[export] Instance reads_po : PreOrder reads.
Proof.
  split; [intros st; split; [done|by intros H; split; [|lia]]|]. intros x y z [Hs Hg] [Hs' Hg']. split; [by etrans|].
  intros H. destruct (Hg' H) as [H' ?]. destruct (Hg H'). split; [done|lia].
Qed.
Lemma reads_not_good st : good st = false → reads st (set_failbit st).
Proof. intros H. split; [apply same_file_bits|]. unfold good in *. cbn. rewrite !orb_true_r. cbn. intros H'. discriminate H'. Qed.
Lemma reads_advance n e f st : good st = true → reads st (set_bits e f false (advance n st)).
Proof. intros H. split; [etrans; [apply same_file_pos|apply same_file_bits]|]. intros _. split; [done|cbn; lia]. Qed.
Lemma reads_advance_only n st : good st = true → reads st (advance n st).
Proof. intros H. split; [apply same_file_pos|]. intros _. split; [done|cbn; lia]. Qed.
Lemma reads_failbit st st' : reads st st' → reads st (set_failbit st').
Proof.
  intros [Hs _]. split; [etrans; [done|apply same_file_bits]|]. unfold good. cbn. rewrite !orb_true_r. cbn. intros H'. discriminate H'.
Qed.
#[export] Hint Resolve reads_not_good reads_advance reads_advance_only reads_failbit : size_file.

Lemma extract_num_reads base lo hi st : reads st (extract_num base lo hi st).1.
Proof.
  unfold extract_num. destruct (good st) eqn:Hg; cbn [negb]; [|by apply reads_not_good].
  destruct (span is_space (rest st)) as [ws r1]. destruct (match r1 with "-"%char :: r => (true, r) | "+"%char :: r => (false, r) | _ => (false, r1) end) as [sg r2].
  destruct (span (is_digit base) r2) as [[|c ds] r3]; [|case_bool_decide]; cbn [fst]; try apply reads_failbit; destruct r3; auto with size_file.
Qed.
Lemma extract_bool_reads st : reads st (extract_bool st).1.
Proof.
  pose proof (extract_num_reads 10 long_min long_max st) as H. unfold extract_bool. destruct (extract_num 10 long_min long_max st) as [st' [n|]]; cbn in *; [|done].
  repeat case_bool_decide; cbn; auto with size_file.
Qed.
Lemma extract_char_reads st : reads st (extract_char st).1 ∧ ∀ c, (extract_char st).2 = Some c → c ∈ rest st.
Proof.
  unfold extract_char. destruct (good st) eqn:Hg; cbn [negb]; [|by split; [apply reads_not_good|]].
  pose proof (span_app is_space (rest st)) as E. destruct (span is_space (rest st)) as [ws [|c r]]; split; cbn [fst snd] in *; auto with size_file; [done|].
  intros c' [= <-]. rewrite <- E. apply elem_of_app. right. apply list_elem_of_here.
Qed.
Lemma rest_reads st st' c : reads st st' → good st' = true → 0 ≤ f_pos st → c ∈ rest st' → c ∈ rest st.
Proof.
  intros [(Hd & _) Hg] H H0 Hc. destruct (Hg H) as [_ Hle]. unfold rest in *. rewrite Hd in Hc.
  replace (Z.to_nat (f_pos st')) with (Z.to_nat (f_pos st) + (Z.to_nat (f_pos st') - Z.to_nat (f_pos st)))%nat in Hc by lia.
  rewrite <- drop_drop in Hc. apply list_elem_of_lookup in Hc as [i Hc]. rewrite lookup_drop in Hc. by eapply list_elem_of_lookup_2.
Qed.
(** A field that was read had its bar in what was left of the file. *)
Lemma field_read_reads sf st : 0 ≤ f_pos st →
  same_file st (field_read sf st).1 ∧ (fd_good (field_read sf st).2 = true → bar ∈ rest st).
Proof.
  intros H0. unfold field_read.
  pose proof (extract_num_reads 10 long_min long_max st) as R1. destruct (extract_num 10 long_min long_max st) as [st1 position].
  pose proof (extract_num_reads 10 0 unsigned_max st1) as R2. destruct (extract_num 10 0 unsigned_max st1) as [st2 pending].
  pose proof (extract_bool_reads st2) as R3. destruct (extract_bool st2) as [st3 last].
  pose proof (extract_char_reads st3) as [R4 Hc]. destruct (extract_char st3) as [st4 c]. cbn [fst snd] in *.
  assert (reads st st3) as R by (etrans; [done|]; etrans; done). assert (reads st st4) as [Hs _] by (etrans; done).
  destruct position, pending, last; try by split.
  destruct (good st4 && negb (bad st4) && bool_decide (c = Some bar)) eqn:E; [|by split]. split; [done|]. intros _.
  apply andb_prop in E as [[Hg _]%andb_prop ->%bool_decide_eq_true]. destruct (proj2 R4 Hg) as [Hg3 _].
  eapply rest_reads; eauto.
Qed.

(** The stream that the code goes on with after a read. *)
Definition cleared (st : stream) : stream := if negb (good st) || bad st then clear st else st.
Lemma cleared_at d p j st : same_file (at_ d p j) st → cleared st = at_ d (f_pos st) j.
Proof.
  destruct st as [d' p' e f b br j']. intros (? & ? & ? & ?). cbn in *. subst. unfold cleared, good. cbn. by destruct e, f.
Qed.

(** ** Headers *)

Definition unlines (ls : list bytes) : bytes := concat ((λ l, l ++ [nl]) <$> ls).
Fixpoint lines (h : bytes) : list bytes :=
  match h with
  | [] => [[]]
  | c :: h => if bool_decide (c = nl) then [] :: lines h else match lines h with l :: ls => (c :: l) :: ls | [] => [[c]] end
  end.
(** A header that is not empty and has no line that ends a header. *)
Definition header_ok (h : bytes) : Prop := h ≠ [] ∧ dots ∉ lines h.
#[export] Instance header_ok_dec h : Decision (header_ok h).
Proof. unfold header_ok. apply _. Defined.
Definition no_nl (l : bytes) : Prop := Forall (λ c, not_nl c = true) l.

Lemma unlines_lines h : unlines (lines h) = h ++ [nl].
Proof.
  induction h as [|c h IH]; [done|]. cbn [lines]. case_bool_decide as E; [subst; cbn; f_equal; exact IH|].
  destruct (lines h) as [|l ls]; [by destruct h|]. cbn in *. f_equal. exact IH.
Qed.
Lemma lines_no_nl h : Forall no_nl (lines h).
Proof.
  induction h as [|c h IH]; [repeat constructor|]. cbn [lines]. case_bool_decide as E; [by constructor; [constructor|]|].
  assert (not_nl c = true) by (unfold not_nl; by rewrite bool_decide_false).
  destruct (lines h) as [|l ls]; inversion IH; subst; repeat constructor; done.
Qed.
Lemma dots_no_nl : no_nl dots.
Proof. by repeat constructor. Qed.
Lemma length_unlines ls : (length ls ≤ length (unlines ls))%nat.
Proof. induction ls as [|l ls IH]; [done|]. cbn. rewrite !length_app. cbn. unfold unlines in IH. lia. Qed.

Section headers.
Context (d : bytes) (j : list bytes).

(** Lines that are not the end of a header are added to it. *)
Lemma header_loop_lines fuel a ls r hd p :
  d = a ++ unlines ls ++ r → p = Z.of_nat (length a) → Forall no_nl ls → dots ∉ ls → (length ls < fuel)%nat →
  header_loop fuel hd (at_ d p j) = header_loop (fuel - length ls) (hd ++ unlines ls) (at_ d (p + Z.of_nat (length (unlines ls))) j).
Proof.
  revert fuel a hd p. induction ls as [|l ls IH]; intros fuel a hd p Hd Hp Hl Hn Hf.
  { cbn. rewrite app_nil_r, Z.add_0_r, Nat.sub_0_r. done. }
  destruct fuel as [|fuel]; [lia|]. cbn [header_loop]. inversion Hl; subst. apply not_elem_of_cons in Hn as [Hne Hn].
  rewrite (getline_at _ j a l (unlines ls ++ r)); [|unfold unlines; cbn; apps|done|done].
  rewrite (bool_decide_false (l = dots)) by congruence. cbn [good at_ f_eof f_fail f_bad orb andb negb].
  change (Stream _ _ false false false false j) with (at_ (a ++ unlines (l :: ls) ++ r) (Z.of_nat (length a) + Z.of_nat (S (length l))) j).
  rewrite (IH fuel (a ++ l ++ [nl]) (hd ++ l ++ [nl])); [|unfold unlines; cbn; apps|rewrite !length_app; cbn [length]; lia|done|done|cbn [length] in Hf; lia].
  cbn [length Nat.sub]. f_equal; [unfold unlines; cbn; apps|]. f_equal. unfold unlines. cbn. rewrite !length_app. cbn [length]. lia.
Qed.

Lemma header_read_text h r : header_ok h → d = header_text (Header true h) ++ nl :: r →
  header_read (at_ d 0 j) = Some (at_ d (sh_size (Header true h) + 1) j, Header true h).
Proof.
  intros [Hne Hh] Hd. unfold header_read. pose proof (unlines_lines h) as E.
  assert (d = [] ++ unlines (lines h) ++ dots ++ nl :: r) as Hd' by (rewrite E, Hd; unfold header_text; cbn; apps).
  pose proof (length_unlines (lines h)).
  assert (length (lines h) < S (length (f_data (at_ d 0 j))))%nat by (cbn; rewrite Hd', !length_app; lia).
  rewrite (header_loop_lines _ [] (lines h) (dots ++ nl :: r)) by (done || apply lines_no_nl).
  destruct (S (length (f_data (at_ d 0 j))) - length (lines h))%nat as [|fuel] eqn:Ef; [lia|]. cbn [header_loop].
  rewrite (getline_at d j (unlines (lines h)) dots r) by (done || apply dots_no_nl).
  rewrite bool_decide_true by done. cbn [negb]. rewrite andb_false_r. cbn [app]. rewrite E, bool_decide_false by (by destruct h).
  rewrite length_app. cbn [length]. replace (length h + 1 - 1)%nat with (length h) by lia. rewrite take_app_length.
  do 3 f_equal. unfold sh_size. cbn [sh_header length dots of_string String.list_ascii_of_string]. lia.
Qed.

(** Without such an end the header is not good, and the file is at its end. *)
Lemma header_read_none ls t : d = unlines ls ++ t → Forall no_nl ls → no_nl t → dots ∉ ls → t ≠ dots →
  ∃ st, header_read (at_ d 0 j) = Some (st, Header false []) ∧ f_eof st = true ∧ same_file (at_ d 0 j) st.
Proof.
  intros Hd Hl Ht Hn Hne. unfold header_read. pose proof (length_unlines ls).
  assert (length ls < S (length (f_data (at_ d 0 j))))%nat by (cbn; rewrite Hd, !length_app; lia).
  rewrite (header_loop_lines _ [] ls t) by done.
  destruct (S (length (f_data (at_ d 0 j))) - length ls)%nat as [|fuel] eqn:Ef; [lia|]. cbn [header_loop].
  unfold getline. cbn [good at_ f_eof f_fail f_bad orb negb].
  change (Stream d ?p false false false false j) with (at_ d p j). rewrite (rest_at d j (unlines ls) t) by done. rewrite span_all by done.
  rewrite (bool_decide_false (t = dots)) by done. cbn [good set_bits advance set_pos at_ f_eof f_fail f_bad orb negb andb].
  eexists. split; [reflexivity|]. by split.
Qed.
End headers.
