(* ===== verification/SizeFileProperties.v ===== *)
(** * The size file keeps the state of the log

    The size file refines a pair of states, the one in memory and the one
    saved by the last update; what a reader finds after a torn update; and
    what a longer header does to the file. *)

From S2P Require Import Prelude Digits Stream FileContainer Numbers SizeFile SizeFileProps.

(** Runs the updates of the records, and nothing else. *)
Ltac sfs := cbv beta iota zeta delta [sf_good sf_stashed sf_stash_pos sf_filename sf_stream sf_header sf_current sf_permitted
  upd_sf_good upd_stashed upd_stash_pos upd_sf_filename upd_sf_stream upd_header upd_current on_sf fopen
  good bad f_data f_pos f_eof f_fail f_bad f_broken f_journal open_stream at_ clear orb andb negb sh_good sh_header].

Definition record_text (f : SizeField) : bytes := field_text f ++ [nl].
Definition file_text (h : bytes) (fs : list SizeField) : bytes :=
  header_text (Header true h) ++ nl :: concat (record_text <$> fs).

Lemma length_record f : field_ok f → length (record_text f) = 36%nat.
Proof. intros H. unfold record_text. rewrite length_app, length_field_text by done. done. Qed.
Lemma length_records fs : Forall field_ok fs → length (concat (record_text <$> fs)) = (36 * length fs)%nat.
Proof. induction 1 as [|f fs Hf _ IH]; [done|]. rewrite fmap_cons. cbn [concat]. rewrite length_app, IH, length_record by done. cbn [length]. lia. Qed.
Lemma length_header_text h : Z.of_nat (length (header_text (Header true h))) = sh_size (Header true h).
Proof. unfold header_text, sh_size. cbn [sh_header]. rewrite length_app. cbn. lia. Qed.
Lemma file_text_snoc h fs f : file_text h (fs ++ [f]) = file_text h fs ++ record_text f.
Proof. unfold file_text. rewrite fmap_app, concat_app. cbn [fmap list_fmap concat]. rewrite app_nil_r. apps. Qed.
Lemma length_file_text h fs : Forall field_ok fs → Z.of_nat (length (file_text h fs)) = sh_size (Header true h) + 1 + 36 * Z.of_nat (length fs).
Proof.
  intros H. unfold file_text. rewrite length_app. cbn [length]. rewrite length_records, Nat2Z.inj_add, length_header_text by done. lia.
Qed.
Lemma default_header_ok : header_ok sf_s_defaultHeader.
Proof. by apply (bool_decide_unpack (header_ok sf_s_defaultHeader)). Qed.

Section opening.
Context (dot : bytes → bytes) (position0 pending0 : Z) (last0 : bool) (filename : bytes).
Context (Hfilename : filename ≠ []) (Hdot : dot filename ≠ []).

Abbreviation SizeFile_new := (SizeFile_new dot position0 pending0 last0 filename).

(** A closed file: the contents, where the next record goes, the header
    and the field in memory. *)
Definition closed (d : bytes) (q : Z) (h : bytes) (cur : SizeField) (s : SizeFile) : Prop :=
  ∃ p j, s = SFile true true q (dot filename) (at_ d p j) (Header true h) cur true.
(** The file while it is open. *)
Definition opened (q : Z) (d : bytes) (p : Z) (j : list bytes) (h : bytes) (cur : SizeField) : SizeFile :=
  SFile true false q (dot filename) (at_ d p j) (Header true h) cur true.

Lemma close_opened q0 d p j h cur q : q = p → closed d q h cur (stashFile (opened q0 d p j h cur)).
Proof using. intros ->. exists p, j. done. Qed.

Lemma open_header d h r : header_ok h → d = header_text (Header true h) ++ nl :: r →
  SizeFile_new d true false = Some (stashFile (upd_stashed false (open_fields (Z.of_nat (length d)) (opened 0 d (sh_size (Header true h) + 1) [] h field_none)))).
Proof using Hfilename Hdot.
  intros Hh Hd. unfold SizeFile.SizeFile_new, createDotFile. sfs. rewrite (bool_decide_false (filename = [])) by done.
  unfold openFile. sfs. rewrite (bool_decide_false (dot filename = [])) by done.
  rewrite (bool_decide_true (Z.of_nat (length d) ≠ 0)) by (rewrite Hd, length_app; cbn [length]; lia).
  change (Stream d 0 false false false false []) with (at_ d 0 []). rewrite (header_read_text d [] h r Hh Hd). reflexivity.
Qed.

(** The last 36 characters are a field: it is the state of the file. *)
Lemma open_last d h r a ws ds f r' : header_ok h → d = header_text (Header true h) ++ nl :: r →
  d = a ++ ws ++ ds ++ field_tail f ++ r' → (length d = length a + 36)%nat → field_ok f →
  Forall (λ c, is_space c = true) ws → Forall (λ c, is_digit 10 c = true) ds → ds ≠ [] → 0 ≤ digits_value 10 ds ≤ long_max →
  ∃ s, SizeFile_new d true false = Some s ∧ closed d (Z.of_nat (length d)) h (Field true (fd_last f) (fd_pending f) (digits_value 10 ds)) s.
Proof using Hfilename Hdot.
  intros Hh Hd Hd' Hlen Hf Hws Hds Hne Hv. rewrite (open_header d h r) by done. eexists. split; [reflexivity|].
  unfold open_fields, readLastField, reopenFile. cbn [opened sf_stashed sf_stream f_data at_].
  change (Stream d ?p false false false false []) with (at_ d p []). rewrite seek_at by (unfold dimension, sf_s_long, sf_s_unsigned; lia).
  rewrite (field_read_at d [] field_none a ws ds f r') by (done || unfold dimension, sf_s_long, sf_s_unsigned; lia).
  cbn. by apply (close_opened 0 d _ [] h).
Qed.

Lemma open_new d : ∃ s, SizeFile_new d true true = Some s ∧
  closed (file_text sf_s_defaultHeader [field_of 0 0 false]) (Z.of_nat (length (file_text sf_s_defaultHeader [field_of 0 0 false]))) sf_s_defaultHeader (field_of 0 0 false) s.
Proof using Hfilename Hdot.
  unfold SizeFile.SizeFile_new, createDotFile. sfs. rewrite (bool_decide_false (filename = [])) by done.
  unfold openFile. sfs. rewrite (bool_decide_false (dot filename = [])) by done. cbn. do 2 eexists; [reflexivity|]. eexists _, _. reflexivity.
Qed.

(** ** Updates *)

Lemma reopen_closed d q h cur s : 0 ≤ q → closed d q h cur s → ∃ j, reopenFile s = opened q d q j h cur.
Proof using.
  intros Hq (p & j & ->). exists j. unfold reopenFile, opened. sfs. unfold seek, failed. sfs. rewrite bool_decide_false by lia. reflexivity.
Qed.

Lemma update_closed d q h cur s f : 0 ≤ q → closed d q h cur s →
  closed (overwrite d (Z.to_nat q) (record_text (f cur))) (q + Z.of_nat (length (record_text (f cur)))) h (f cur) (update_with f s).
Proof using.
  intros Hq Hs. destruct (reopen_closed _ _ _ _ _ Hq Hs) as [j E]. unfold update_with. rewrite E. unfold opened. sfs.
  unfold dumpField, reopenFile, emit. sfs. unfold set_pos, set_data. sfs. eexists _, _. reflexivity.
Qed.

Lemma memory_closed d q h cur s : closed d q h cur s → ∀ f, closed d q h (f cur) (upd_current (f (sf_current s)) s) ∧ sf_good s = true ∧ sf_current s = cur.
Proof using. intros (p & j & ->) f. split; [|done]. exists p, j. done. Qed.

Lemma header_same_closed d q h cur s h' r : 0 ≤ q → d = header_text (Header true h) ++ r → length h = length h' → h' ≠ [] → closed d q h cur s →
  closed (header_text (Header true h') ++ r) (Z.of_nat (length d)) h' cur (update_header h' s).
Proof using.
  intros Hq Hd Hl Hne Hs. destruct (reopen_closed _ _ _ _ _ Hq Hs) as [j E]. unfold update_header. rewrite E. unfold opened. sfs.
  rewrite (bool_decide_true (length h ≤ length h')%nat) by lia. replace (length h' - length h)%nat with 0%nat by lia. unfold padded.
  rewrite bool_decide_false by lia. rewrite bool_decide_false by lia. unfold sh_reset. rewrite bool_decide_true by done. sfs.
  change (Stream d q false false false false j) with (at_ d q j). rewrite seek_at by done.
  rewrite (emit_at_mid d j [] (header_text (Header true h)) r (header_text (Header true h'))); [|done|done|unfold header_text; cbn [sh_header]; rewrite !length_app; lia].
  rewrite seek_end_at. unfold stashFile. sfs.
  replace (length d) with (length ([] ++ header_text (Header true h') ++ r)).
  2: { rewrite Hd. unfold header_text. cbn [sh_header app]. rewrite !length_app. lia. }
  eexists _, _. reflexivity.
Qed.

Lemma header_shorter_closed d q h cur s h' : 0 ≤ q → (length h' < length h)%nat → h' ≠ [] → closed d q h cur s →
  closed (file_text h' [cur]) (Z.of_nat (length (file_text h' [cur]))) h' cur (update_header h' s).
Proof using.
  intros Hq Hl Hne Hs. destruct (reopen_closed _ _ _ _ _ Hq Hs) as [j E]. unfold update_header. rewrite E. unfold opened. sfs.
  rewrite (bool_decide_false (length h ≤ length h')%nat) by lia. unfold sh_reset. rewrite bool_decide_true by done. sfs.
  change (Stream d q false false false false j) with (at_ d q j). rewrite seek_at by done.
  rewrite (ftruncate_at d j [] d) by done. sfs.
  change (Stream [] 0 false false false false (j ++ [[]])) with (at_ [] 0 (j ++ [[]])). rewrite emit_at_end by done. sfs.
  assert (∀ h' : bytes, [] ++ header_text (Header true h') ++ [nl] ++ field_text cur ++ [nl] = file_text h' [cur]) as E'.
  { intros. unfold file_text, record_text. cbn [fmap list_fmap concat app]. by rewrite app_nil_r. }
  rewrite <- E'. eexists _, _. reflexivity.
Qed.
End opening.

(** ** The specification: a state in memory and a saved one *)

Record size_spec := Spec { sp_header : bytes; sp_saved : SizeField; sp_current : SizeField }.
Inductive size_op :=
| UpdatePosition (new_position : Z)
| UpdatePending (new_pending : Z)
| UpdateLast (new_last : bool)
| Update (new_position new_pending : Z) (new_last : bool)
| SetLast (new_last : bool)
| SetCompleted
| IncrementPending
| DecrementPending
| UpdateHeader (newheader : bytes)
| Reopen.

Definition spec_new : size_spec := Spec sf_s_defaultHeader (field_of 0 0 false) (field_of 0 0 false).
Definition in_memory (f : SizeField) (a : size_spec) : size_spec := Spec (sp_header a) (sp_saved a) f.
Definition save (f : SizeField) (a : size_spec) : size_spec := Spec (sp_header a) f f.
Definition spec_step (op : size_op) (a : size_spec) : size_spec :=
  let f := sp_current a in
  match op with
  | UpdatePosition n => save (Field true (fd_last f) (fd_pending f) n) a
  | UpdatePending n => save (Field true (fd_last f) n (fd_position f)) a
  | UpdateLast b => save (Field true b (fd_pending f) (fd_position f)) a
  | Update n m b => save (Field true b m n) a
  | SetLast b => in_memory (Field true b (fd_pending f) (fd_position f)) a
  | SetCompleted => in_memory (Field true true 0 (fd_position f)) a
  | IncrementPending => in_memory (Field true (fd_last f) ((fd_pending f + 1) `mod` 2 ^ 32) (fd_position f)) a
  | DecrementPending => in_memory (Field true (fd_last f) (Z.max 0 (fd_pending f - 1)) (fd_position f)) a
  | UpdateHeader h => Spec h (if bool_decide (length h < length (sp_header a))%nat then f else sp_saved a) f
  | Reopen => in_memory (sp_saved a) a
  end.
(** Values in their ranges; a new header that is not longer than the old one. *)
Definition op_ok (op : size_op) (a : size_spec) : Prop :=
  match op with
  | UpdatePosition n => 0 ≤ n ≤ long_max
  | UpdatePending n => 0 ≤ n ≤ unsigned_max
  | Update n m _ => 0 ≤ n ≤ long_max ∧ 0 ≤ m ≤ unsigned_max
  | UpdateHeader h => header_ok h ∧ (length h ≤ length (sp_header a))%nat
  | _ => True
  end.
#[export] Instance op_ok_dec op a : Decision (op_ok op a).
Proof. destruct op; unfold op_ok; apply _. Defined.
Fixpoint spec_run (ops : list size_op) (a : size_spec) : option size_spec :=
  match ops with
  | [] => Some a
  | op :: ops => if bool_decide (op_ok op a) then spec_run ops (spec_step op a) else None
  end.

Section refinement.
Context (dot : bytes → bytes) (position0 pending0 : Z) (last0 : bool) (filename : bytes).
Context (Hfilename : filename ≠ []) (Hdot : dot filename ≠ []).

(** One call; [Reopen] is a new object on the same file. *)
Definition size_step (op : size_op) (s : SizeFile) : option SizeFile :=
  match op with
  | UpdatePosition n => Some (update_position n s)
  | UpdatePending n => Some (update_pending n s)
  | UpdateLast b => Some (update_last b s)
  | Update n m b => Some (update n m b s)
  | SetLast b => Some (set_last b s)
  | SetCompleted => Some (set_completed s)
  | IncrementPending => Some (increment_pending s)
  | DecrementPending => Some (decrement_pending s)
  | UpdateHeader h => Some (update_header h s)
  | Reopen => SizeFile_new dot position0 pending0 last0 filename (f_data (sf_stream s)) true false
  end.
Fixpoint size_run (ops : list size_op) (s : SizeFile) : option SizeFile :=
  match ops with
  | [] => Some s
  | op :: ops => size_step op s ≫= size_run ops
  end.

(** The file has the saved state as its last record. *)
Definition implements (a : size_spec) (s : SizeFile) : Prop :=
  ∃ fs, closed dot filename (file_text (sp_header a) (fs ++ [sp_saved a])) (Z.of_nat (length (file_text (sp_header a) (fs ++ [sp_saved a])))) (sp_header a) (sp_current a) s ∧
    header_ok (sp_header a) ∧ Forall field_ok fs ∧ field_ok (sp_saved a) ∧ field_ok (sp_current a).

Lemma implements_save a s f : implements a s → fd_good (f (sp_current a)) = true → field_ok (f (sp_current a)) → implements (save (f (sp_current a)) a) (update_with f s).
Proof using.
  intros (fs & Hs & Hh & Hfs & Hsv & Hcur) Hg Hok. exists (fs ++ [sp_saved a]). split; [|split; [done|split; [by apply Forall_app; split; [|constructor]|done]]].
  apply (update_closed _ _ _ _ _ _ _ f) in Hs; [|lia]. rewrite overwrite_end in Hs by lia. rewrite <- file_text_snoc in Hs. cbn [sp_header sp_saved sp_current save].
  rewrite (file_text_snoc _ (fs ++ [_])), length_app, Nat2Z.inj_add, <- file_text_snoc. exact Hs.
Qed.

Lemma implements_memory a s f : implements a s → field_ok f → implements (in_memory f a) (upd_current f s) ∧ sf_good s = true ∧ sf_current s = sp_current a.
Proof using.
  intros (fs & Hs & Hh & Hfs & Hsv & Hcur) Hok. destruct (memory_closed _ _ _ _ _ _ _ Hs (λ _, f)) as (Hs' & Hg & E).
  split; [|by split]. exists fs. by repeat (split; [done|]).
Qed.

Lemma implements_reopen a s : implements a s → ∃ s', size_step Reopen s = Some s' ∧ implements (in_memory (sp_saved a) a) s'.
Proof using Hfilename Hdot.
  intros (fs & (p & j & ->) & Hh & Hfs & Hsv & Hcur). cbn [size_step sf_stream at_ f_data].
  pose proof Hsv as (Hg & Hp & Hn).
  destruct (open_last dot position0 pending0 last0 filename Hfilename Hdot (file_text (sp_header a) (fs ++ [sp_saved a])) (sp_header a) (concat (record_text <$> (fs ++ [sp_saved a])))
    (file_text (sp_header a) fs) [] (fixed 10 20 (fd_position (sp_saved a))) (sp_saved a) [nl]) as (s' & E & Hs'); try done.
  - rewrite file_text_snoc. unfold record_text. rewrite field_text_eq by done. apps.
  - rewrite file_text_snoc, length_app, length_record by done. done.
  - apply fixed_digits. lia.
  - rewrite digits_value_fixed by (lia || by apply position_range). lia.
  - exists s'. split; [done|]. exists fs. rewrite digits_value_fixed in Hs' by (lia || by apply position_range).
    assert (Field true (fd_last (sp_saved a)) (fd_pending (sp_saved a)) (fd_position (sp_saved a)) = sp_saved a) as Ef by (rewrite <- Hg; by destruct (sp_saved a)).
    rewrite Ef in Hs'. by repeat (split; [done|]).
Qed.

Lemma implements_step op a s : op_ok op a → implements a s → ∃ s', size_step op s = Some s' ∧ implements (spec_step op a) s'.
Proof using Hfilename Hdot.
  intros Hop Hs. pose proof Hs as (fs & Hcl & Hh & Hfs & Hsv & (Hg & Hp & Hn)).
  destruct (implements_memory a s (sp_current a)) as (_ & Egood & Ecur); [done|done|].
  destruct op as [n|n|b|n m b|b| | | |h|]; cbn [size_step spec_step op_ok] in *.
  - eexists; split; [reflexivity|]. unfold update_position. rewrite <- Hg. by apply (implements_save _ _ (fd_set_position n)).
  - eexists; split; [reflexivity|]. unfold update_pending. rewrite <- Hg. by apply (implements_save _ _ (fd_set_pending n)).
  - eexists; split; [reflexivity|]. unfold update_last. rewrite <- Hg. by apply (implements_save _ _ (fd_set_last b)).
  - eexists; split; [reflexivity|]. by apply (implements_save _ _ (fd_reset n m b)).
  - eexists; split; [reflexivity|]. unfold set_last. rewrite Egood, Ecur, <- Hg. by apply (implements_memory a s (fd_set_last b (sp_current a))).
  - eexists; split; [reflexivity|]. unfold set_completed. rewrite Egood, Ecur.
    replace (Field true true 0 _) with (fd_set_last true (fd_set_pending 0 (sp_current a))) by (unfold fd_set_last, fd_set_pending; cbn; by rewrite Hg). by apply (implements_memory a s (fd_set_last true (fd_set_pending 0 (sp_current a)))).
  - eexists; split; [reflexivity|]. unfold increment_pending. rewrite Egood, Ecur, <- Hg. apply (implements_memory a s (fd_set_pending _ (sp_current a))); [done|].
    repeat split; try done; cbn [fd_set_pending fd_pending]; try apply Hp; pose proof (Z.mod_pos_bound (fd_pending (sp_current a) + 1) (2 ^ 32) ltac:(done)); unfold unsigned_max; lia.
  - eexists; split; [reflexivity|]. unfold decrement_pending. rewrite Egood, Ecur, <- Hg. case_bool_decide as Hpos.
    + replace (Z.max 0 _) with (fd_pending (sp_current a) - 1) by lia. apply (implements_memory a s (fd_set_pending _ (sp_current a))); [done|].
      split; [done|split; [done|]]. cbn [fd_set_pending fd_pending]. lia.
    + replace (Z.max 0 _) with (fd_pending (sp_current a)) by lia. replace (in_memory _ a) with a; [done|]. unfold in_memory.
      destruct a as [h sv [g l n p]]. done.
  - eexists; split; [reflexivity|]. destruct Hop as [Hh' Hle]. case_bool_decide as Hlt.
    + exists []. split; [|done]. apply (header_shorter_closed _ _ _ _ _ _ _ h) in Hcl; [done|lia|done|apply Hh'].
    + exists fs. split; [|done].
      apply (header_same_closed _ _ _ _ _ _ _ h (nl :: concat (record_text <$> (fs ++ [sp_saved a])))) in Hcl; [|lia|done|cbn in *; lia|apply Hh'].
      replace (length (file_text (sp_header (Spec h (sp_saved a) (sp_current a))) _)) with (length (file_text (sp_header a) (fs ++ [sp_saved a]))); [exact Hcl|].
      unfold file_text, header_text. cbn [sh_header sp_header sp_saved]. rewrite !length_app. cbn [length]. lia.
  - by apply implements_reopen.
Qed.
Lemma implements_run ops a a' s : spec_run ops a = Some a' → implements a s → ∃ s', size_run ops s = Some s' ∧ implements a' s'.
Proof using Hfilename Hdot.
  revert a s. induction ops as [|op ops IH]; intros a s Hr Hs; cbn in Hr; [injection Hr as <-; by exists s|].
  case_bool_decide as Hop; [|done]. destruct (implements_step op a s Hop Hs) as (s1 & E & Hs1).
  destruct (IH _ _ Hr Hs1) as (s' & E' & Hs'). exists s'. split; [|done]. cbn. by rewrite E.
Qed.
Lemma implements_new d : ∃ s, SizeFile_new dot position0 pending0 last0 filename d true true = Some s ∧ implements spec_new s.
Proof using Hfilename Hdot.
  destruct (open_new dot position0 pending0 last0 filename Hfilename Hdot d) as (s & E & Hs). exists s. split; [done|].
  exists []. split; [done|]. split; [exact default_header_ok|]. done.
Qed.

(** C25. A size file that was just created, after any calls of the updates
    with values in their ranges, of the changes in memory, of
    [update_header] with headers that are not longer, and any number of
    times closed and opened again, is good; its field is the one that the
    calls give, where opening goes back to the last saved one: the field
    of the last update or of the last shorter header. *)
Theorem size_file_refines ops d a : spec_run ops spec_new = Some a →
  ∃ s s', SizeFile_new dot position0 pending0 last0 filename d true true = Some s ∧ size_run ops s = Some s' ∧
    sf_good s' = true ∧ sf_current s' = sp_current a ∧ sf_header s' = Header true (sp_header a) ∧
    completed s' = fd_last (sp_current a) && bool_decide (fd_pending (sp_current a) = 0).
Proof using Hfilename Hdot.
  intros Hr. destruct (implements_new d) as (s & E & Hs). destruct (implements_run _ _ _ _ Hr Hs) as (s' & E' & fs & (p & j & ->) & _).
  exists s. eexists. by repeat (split; [done|]).
Qed.
End refinement.

(** A name with its dot and suffix, as in [createDotFile]. *)
Definition dotted (name : bytes) : bytes := of_string "." ++ name ++ of_string ".size".
Lemma size_file_refines_witness :
  ∃ s s', SizeFile_new dotted 0 0 false (of_string "CondorG.log") [] true true = Some s ∧
    size_run dotted 0 0 false (of_string "CondorG.log")
      [IncrementPending; UpdatePosition 1372; DecrementPending; UpdateHeader (of_string "dag-7"); SetLast true; Reopen] s = Some s' ∧
    sf_good s' = true ∧ sf_current s' = field_of 1372 0 false ∧ sf_header s' = Header true (of_string "dag-7") ∧ completed s' = false.
Proof.
  apply (size_file_refines dotted 0 0 false (of_string "CondorG.log") ltac:(done) ltac:(done)
    [IncrementPending; UpdatePosition 1372; DecrementPending; UpdateHeader (of_string "dag-7"); SetLast true; Reopen] []
    (Spec (of_string "dag-7") (field_of 1372 0 false) (field_of 1372 0 false))).
  vm_compute. reflexivity.
Defined.
