(* ===== verification/SizeFileCrash.v ===== *)
(** * Size files that are not whole

    What opening a size file finds after an update that did not reach the
    end of its record, and after a header that is longer than the one it
    replaces. *)

From S2P Require Import Prelude Digits Stream FileContainer Numbers SizeFile SizeFileProps SizeFileProperties.

Lemma file_text_last h fs : ∃ a, file_text h fs = a ++ [nl].
Proof.
  destruct fs as [|f fs _] using rev_ind; [by exists (header_text (Header true h))|].
  rewrite file_text_snoc. unfold record_text. eexists. by rewrite app_assoc.
Qed.
Lemma digits_no_bar (ds : bytes) : Forall (λ c, is_digit 10 c = true) ds → bar ∉ ds.
Proof. intros H Hin. rewrite Forall_forall in H. specialize (H _ Hin). discriminate H. Qed.
Lemma field_text_no_bar g k : field_ok g → (k ≤ 34)%nat → bar ∉ take k (record_text g).
Proof.
  intros Hg Hk. unfold record_text. rewrite field_text_eq by done. unfold field_tail.
  replace ((fixed 10 20 (fd_position g) ++ sp :: fixed 10 10 (fd_pending g) ++ [sp; bool_char (fd_last g); sp; bar]) ++ [nl])
    with ((fixed 10 20 (fd_position g) ++ sp :: fixed 10 10 (fd_pending g) ++ [sp; bool_char (fd_last g); sp]) ++ [bar; nl]) by apps.
  rewrite take_app_le by (rewrite !length_app; cbn [length]; rewrite length_app, !length_fixed; cbn [length]; lia).
  intros Hin. apply elem_of_take in Hin as (i & Hin & _). apply list_elem_of_lookup_2 in Hin. revert Hin.
  rewrite !elem_of_app, !elem_of_cons, elem_of_app, !elem_of_cons, elem_of_nil.
  pose proof (digits_no_bar _ (fixed_digits 10 ltac:(lia) 20 (fd_position g))). pose proof (digits_no_bar _ (fixed_digits 10 ltac:(lia) 10 (fd_pending g))).
  intros [?|[?|[?|[?|[E|[?|?]]]]]]; try done. by destruct (fd_last g).
Qed.

Section torn.
Context (dot : bytes → bytes) (position0 pending0 : Z) (last0 : bool) (filename : bytes).
Context (Hfilename : filename ≠ []) (Hdot : dot filename ≠ []).
Context (h : bytes) (fs : list SizeField) (f g : SizeField) (k : nat).
Context (Hh : header_ok h) (Hfs : Forall field_ok fs) (Hf : field_ok f) (Hg : field_ok g).

Abbreviation new := (SizeFile_new dot position0 pending0 last0 filename).
Abbreviation opened := (opened dot filename).
Abbreviation closed := (closed dot filename).
Definition torn : bytes := file_text h (fs ++ [f]) ++ take k (record_text g).

Lemma torn_header : ∃ r, torn = header_text (Header true h) ++ nl :: r.
Proof using. eexists. unfold torn, file_text. rewrite <- app_assoc. reflexivity. Qed.
Lemma length_torn : (k ≤ 35)%nat → Z.of_nat (length torn) = sh_size (Header true h) + 1 + 36 * Z.of_nat (S (length fs)) + Z.of_nat k.
Proof using Hfs Hf Hg.
  intros Hk. unfold torn. rewrite length_app, Nat2Z.inj_add, length_file_text by (by apply Forall_app; split; [|constructor]).
  rewrite length_take, length_record, length_app by done. cbn [length]. lia.
Qed.

(** Less than a position: the last 36 characters start inside the position of the record before. *)
Lemma open_torn_position : (k < 20)%nat →
  ∃ s, new torn true false = Some s ∧ closed torn (Z.of_nat (length torn)) h (fd_set_position (fd_position f `mod` 10 ^ Z.of_nat (20 - k)) f) s.
Proof using Hfilename Hdot Hh Hfs Hf Hg.
  intros Hk. destruct torn_header as [r Hr]. pose proof Hf as (Hfg & Hp & Hn).
  pose proof (digits_value_drop k 20 (fd_position f) ltac:(lia)) as E.
  destruct (open_last dot position0 pending0 last0 filename Hfilename Hdot torn h r (file_text h fs ++ take k (fixed 10 20 (fd_position f))) []
    (drop k (fixed 10 20 (fd_position f))) f (nl :: take k (record_text g))) as (s & Es & Hs); try done.
  - unfold torn. rewrite file_text_snoc. unfold record_text at 1. rewrite field_text_eq by done.
    rewrite <- (take_drop k (fixed 10 20 (fd_position f))) at 1. apps.
  - unfold torn. rewrite file_text_snoc, !length_app, !length_take, !length_record, length_fixed by done. lia.
  - rewrite drop_fixed by lia. apply fixed_digits. lia.
  - rewrite drop_fixed by lia. intros E0%(f_equal length). rewrite length_fixed in E0. cbn in E0. lia.
  - rewrite E. pose proof (Z.mod_pos_bound (fd_position f) (10 ^ Z.of_nat (20 - k)) ltac:(lia)).
    pose proof (Z.mod_le (fd_position f) (10 ^ Z.of_nat (20 - k)) ltac:(lia) ltac:(lia)). lia.
  - exists s. split; [done|]. rewrite E in Hs. unfold fd_set_position. rewrite Hfg. done.
Qed.

(** All but the end of the line: the new record counts. *)
Lemma open_torn_line : k = 35%nat → ∃ s, new torn true false = Some s ∧ closed torn (Z.of_nat (length torn)) h g s.
Proof using Hfilename Hdot Hh Hfs Hf Hg.
  intros Hk. destruct torn_header as [r Hr]. pose proof Hg as (Hgg & Hp & Hn). destruct (file_text_last h (fs ++ [f])) as [a Ea].
  pose proof (digits_value_fixed 10 ltac:(lia) 20 (fd_position g) (position_range _ Hp)) as E.
  assert (take k (record_text g) = field_text g) as Et.
  { rewrite Hk. unfold record_text. rewrite take_app_le by (by rewrite length_field_text). apply take_ge. by rewrite length_field_text. }
  destruct (open_last dot position0 pending0 last0 filename Hfilename Hdot torn h r a [nl] (fixed 10 20 (fd_position g)) g []) as (s & Es & Hs); try done.
  - unfold torn. rewrite Et, Ea, field_text_eq by done. apps.
  - unfold torn. rewrite Et, Ea, !length_app, length_field_text by done. cbn. lia.
  - by repeat constructor.
  - apply fixed_digits. lia.
  - rewrite E. lia.
  - exists s. split; [done|]. rewrite E in Hs. replace g with (Field true (fd_last g) (fd_pending g) (fd_position g)) by (rewrite <- Hgg; by destruct g). done.
Qed.

(** One turn of the recovery on a text that is not a field. *)
Lemma recover_skip d p j cur n a b : d = a ++ b → Z.of_nat (length a) = sh_size (Header true h) + Z.of_nat (S n) * 36 → bar ∉ b →
  ∃ p' cur', recover_loop (S n) (opened 0 d p j h cur) = recover_loop n (opened 0 d p' j h cur').
Proof using.
  intros Hd Ha Hb. cbn [recover_loop]. unfold readField, reopenFile, SizeFileProperties.opened. sfs.
  change (Stream d p false false false false j) with (at_ d p j).
  replace (Z.of_nat dimension + 1) with 36 by done. rewrite <- Ha, seek_at by lia.
  pose proof (field_read_reads field_none (at_ d (Z.of_nat (length a)) j) ltac:(cbn; lia)) as [Hs Hgood].
  rewrite (rest_at d j a b) in Hgood by done. destruct (field_read field_none (at_ d (Z.of_nat (length a)) j)) as [st f']. cbn [fst snd] in *.
  destruct (fd_good f') eqn:E; [by destruct Hb; apply Hgood|]. exists (f_pos st), f'.
  destruct st as [d' p' e fl bd br j']. destruct Hs as (Ed & Ebr & Ej & Ebd). cbn in Ed, Ebr, Ej, Ebd. subst. sfs. cbn [andb]. by destruct e, fl.
Qed.
(** One turn on a text that is a field. *)
Lemma recover_found d p j cur n a b f' : d = a ++ nl :: field_text f' ++ b → Z.of_nat (length a) = sh_size (Header true h) + Z.of_nat (S n) * 36 → field_ok f' →
  recover_loop (S n) (opened 0 d p j h cur) = (opened 0 d (Z.of_nat (length a) + 36) j h f', true).
Proof using.
  intros Hd Ha Hf'. pose proof Hf' as (Hgood & Hp & Hn). cbn [recover_loop]. unfold readField, reopenFile, SizeFileProperties.opened. sfs.
  change (Stream d p false false false false j) with (at_ d p j).
  replace (Z.of_nat dimension + 1) with 36 by done. rewrite <- Ha, seek_at by lia. rewrite field_text_eq in Hd by done.
  pose proof (digits_value_fixed 10 ltac:(lia) 20 (fd_position f') (position_range _ Hp)) as E.
  rewrite (field_read_at d j field_none a [nl] (fixed 10 20 (fd_position f')) f' b) by (rewrite ?E; first [side | by rewrite Hd; apps | lia]).
  assert (Field true (fd_last f') (fd_pending f') (fd_position f') = f') as Ef by (rewrite <- Hgood; by destruct f').
  rewrite E, Ef, Hgood, length_fixed. sfs. unfold tell, failed. sfs. unfold seek, failed. sfs. rewrite bool_decide_false by lia. reflexivity.
Qed.

Lemma new_opened d p j cur : newSizeFile (opened 0 d p j h cur) = opened 0 (file_text h [cur]) (Z.of_nat (length (file_text h [cur]))) (j ++ [[]; file_text h [cur]]) h cur.
Proof using.
  unfold newSizeFile, SizeFileProperties.opened. sfs. unfold emit. sfs. unfold set_pos, set_data. sfs. cbn [Z.to_nat overwrite].
  rewrite overwrite_end by done. unfold seek_end, failed. sfs.
  assert ([] ++ header_text (Header true h) ++ [nl] ++ field_text cur ++ [nl] = file_text h [cur]) as ->.
  { unfold file_text, record_text. cbn [fmap list_fmap concat app]. by rewrite app_nil_r. }
  by rewrite <- app_assoc.
Qed.

Lemma open_fields_rest p : (20 ≤ k ≤ 34)%nat →
  ∃ j, open_fields (Z.of_nat (length torn)) (opened 0 torn p [] h field_none) =
    if bool_decide (fs = []) then opened 0 (file_text h [field_of 0 0 false]) (Z.of_nat (length (file_text h [field_of 0 0 false]))) j h (field_of 0 0 false)
    else opened 0 torn (Z.of_nat (length (file_text h (fs ++ [f]))) - 1) j h f.
Proof using Hfs Hf Hg.
  intros Hk. unfold open_fields, readLastField, reopenFile, SizeFileProperties.opened. sfs.
  pose proof (length_torn ltac:(lia)) as Hlen. assert (Forall field_ok (fs ++ [f])) as Hall by (apply Forall_app; split; [done|by constructor]).
  pose proof (length_file_text h _ Hall) as Hm. pose proof (length_file_text h _ Hfs) as Hm'. rewrite length_app in Hm. cbn [length] in Hm.
  change (Stream torn ?p false false false false []) with (at_ torn p []). replace (Z.of_nat dimension + 1) with 36 by done. rewrite seek_at by lia.
  destruct (field_read_inside torn [] field_none f (file_text h fs ++ take k (field_text f)) k (nl :: take k (record_text g)) (Z.of_nat (length torn) - 36)) as [p' E]; [done|done| | |].
  { unfold torn. rewrite file_text_snoc. unfold record_text at 1. rewrite <- (take_drop k (field_text f)) at 1. apps. }
  { rewrite length_app, length_take, length_field_text by done. unfold dimension, sf_s_long, sf_s_unsigned. lia. }
  rewrite E. clear E. cbn [fd_good andb]. sfs. unfold set_failbit, set_bits. sfs.
  replace (Z.quot _ _) with (Z.of_nat (S (length fs))).
  2: { rewrite Z.quot_div_nonneg by lia. apply Z.div_unique with (Z.of_nat k + 1); lia. }
  rewrite (bool_decide_true (Z.of_nat (S (length fs)) ≠ 0)) by lia. rewrite Nat2Z.id.
  destruct (file_text_last h (fs ++ [f])) as [a Ea]. pose proof (f_equal length Ea) as Hla. rewrite length_app in Hla. cbn [length] in Hla.
  change (SFile true false 0 ?n (Stream torn ?p false false false false []) ?hd ?c true) with (opened 0 torn p [] h c).
  destruct (recover_skip torn p' [] (Field false (fd_last field_none) (fd_pending field_none) (fd_position field_none)) (length fs) a (nl :: take k (record_text g))) as (p1 & c1 & E).
  { unfold torn. rewrite Ea. apps. } { lia. }
  { rewrite not_elem_of_cons. split; [done|]. apply field_text_no_bar; [done|lia]. }
  rewrite E. clear E. case_bool_decide as Hfs0.
  - replace (length fs) with 0%nat by (by rewrite Hfs0). cbn [recover_loop].
    eexists. etrans; [|exact (new_opened torn p1 [] (field_of 0 0 false))]. reflexivity.
  - destruct (length fs) as [|n] eqn:En; [by apply nil_length_inv in En|]. destruct (file_text_last h fs) as [a' Ea']. pose proof (f_equal length Ea') as Hla'.
    rewrite length_app in Hla'. cbn [length] in Hla'.
    rewrite (recover_found torn p1 [] c1 n a' (nl :: take k (record_text g)) f); [| |lia|done].
    2: { unfold torn. rewrite file_text_snoc, Ea'. unfold record_text at 1. apps. }
    eexists. replace (Z.of_nat (length a') + 36) with (Z.of_nat (length (file_text h (fs ++ [f]))) - 1) by lia. reflexivity.
Qed.

(** Inside the rest of the record: the record before is read again, unless it is the first one. *)
Lemma open_torn_rest : (20 ≤ k ≤ 34)%nat →
  ∃ s, new torn true false = Some s ∧
    if bool_decide (fs = []) then closed (file_text h [field_of 0 0 false]) (Z.of_nat (length (file_text h [field_of 0 0 false]))) h (field_of 0 0 false) s
    else closed torn (Z.of_nat (length (file_text h (fs ++ [f]))) - 1) h f s.
Proof using Hfilename Hdot Hh Hfs Hf Hg.
  intros Hk. destruct torn_header as [r Hr]. rewrite (open_header dot position0 pending0 last0 filename Hfilename Hdot torn h r Hh Hr). eexists. split; [reflexivity|].
  destruct (open_fields_rest (sh_size (Header true h) + 1) Hk) as [j ->]. case_bool_decide; eapply (close_opened dot filename 0); done.
Qed.
(** The state that the file is opened with. *)
Definition torn_field : SizeField :=
  if bool_decide (k < 20)%nat then fd_set_position (fd_position f `mod` 10 ^ Z.of_nat (20 - k)) f
  else if bool_decide (k = 35)%nat then g
  else if bool_decide (fs = []) then field_of 0 0 false else f.
Lemma open_torn : (k ≤ 35)%nat →
  ∃ s d q r, new torn true false = Some s ∧ closed d q h torn_field s ∧ d = header_text (Header true h) ++ nl :: r ∧ sh_size (Header true h) + 1 ≤ q ≤ Z.of_nat (length d) ∧ Z.of_nat (length d) ≤ q + 36.
Proof using Hfilename Hdot Hh Hfs Hf Hg.
  intros Hk. unfold torn_field. destruct torn_header as [r Hr]. pose proof (length_torn Hk) as Hlen.
  case_bool_decide as H20; [|case_bool_decide as H35].
  - destruct (open_torn_position H20) as (s & E & Hs). exists s, torn, (Z.of_nat (length torn)), r. repeat split; try done; lia.
  - destruct (open_torn_line H35) as (s & E & Hs). exists s, torn, (Z.of_nat (length torn)), r. repeat split; try done; lia.
  - destruct open_torn_rest as (s & E & Hs); [lia|]. assert (field_ok (field_of 0 0 false)) as H0 by done. case_bool_decide.
    + eexists s, _, _, _. split; [done|]. split; [done|]. split; [reflexivity|].
      pose proof (length_file_text h [field_of 0 0 false] ltac:(by constructor)) as Hl. cbn [length] in Hl. lia.
    + exists s, torn, (Z.of_nat (length (file_text h (fs ++ [f]))) - 1), r. split; [done|]. split; [done|]. split; [done|].
      pose proof (length_file_text h (fs ++ [f]) ltac:(by apply Forall_app; split; [|constructor])) as Hl. rewrite length_app in Hl. cbn [length] in Hl. lia.
Qed.

(** After the next update the file is whole again. *)
Lemma update_reopen d q r cur s fn : closed d q h cur s → d = header_text (Header true h) ++ nl :: r → sh_size (Header true h) + 1 ≤ q ≤ Z.of_nat (length d) →
  Z.of_nat (length d) ≤ q + 36 → field_ok (fn cur) →
  ∃ s', new (f_data (sf_stream (update_with fn s))) true false = Some s' ∧ sf_good s' = true ∧ sf_current s' = fn cur.
Proof using Hfilename Hdot Hh.
  intros Hs Hd Hq Hlen Hok. pose proof Hok as (Hgood & Hp & Hn). pose proof (length_header_text h) as Hl.
  assert (0 ≤ q) as Hq0 by (unfold sh_size in *; lia).
  pose proof (update_closed dot filename d q h cur s fn Hq0 Hs) as (p & j & ->). cbn [sf_stream at_ f_data].
  set (rec := record_text (fn cur)). assert (length rec = 36%nat) as Hrec by by apply length_record.
  assert (overwrite d (Z.to_nat q) rec = take (Z.to_nat q) d ++ rec) as ->.
  { unfold overwrite. rewrite (drop_ge d) by lia. replace (Z.to_nat q - length d)%nat with 0%nat by lia. cbn [replicate]. by rewrite !app_nil_r. }
  pose proof (digits_value_fixed 10 ltac:(lia) 20 (fd_position (fn cur)) (position_range _ Hp)) as E.
  assert (∃ r', take (Z.to_nat q) d = header_text (Header true h) ++ nl :: r') as [r' Hr'].
  { rewrite Hd, take_app_ge by lia. replace (Z.to_nat q - _)%nat with (S (Z.to_nat q - length (header_text (Header true h)) - 1)) by lia. cbn [take]. eauto. }
  destruct (open_last dot position0 pending0 last0 filename Hfilename Hdot (take (Z.to_nat q) d ++ rec) h (r' ++ rec) (take (Z.to_nat q) d) []
    (fixed 10 20 (fd_position (fn cur))) (fn cur) [nl]) as (s' & Es & (p' & j' & ->)); try done.
  - rewrite Hr'. apps.
  - unfold rec, record_text. rewrite field_text_eq by done. apps.
  - rewrite length_app. lia.
  - apply fixed_digits. lia.
  - rewrite E. lia.
  - eexists. split; [done|]. split; [done|]. cbn [sf_current]. rewrite E, <- Hgood. by destruct (fn cur).
Qed.
End torn.

(** C26. A crash in the middle of an update leaves the first [k] characters
    of the record [g] after the records [fs ++ [f]].  Opening such a file
    gives [g] when only the end of the line is missing; [f] when the
    record is cut after its position, except that a file of one record
    starts again from 0; and when it is cut inside its position, [f] with
    the first [k] digits of its position removed.  In all cases the file
    is good and the next update is found by the next opening. *)
Theorem torn_update dot position0 pending0 last0 filename h fs f g k :
  filename ≠ [] → dot filename ≠ [] → header_ok h → Forall field_ok fs → field_ok f → field_ok g → (k ≤ 35)%nat →
  ∃ s, SizeFile_new dot position0 pending0 last0 filename (torn h fs f g k) true false = Some s ∧ sf_good s = true ∧ sf_header s = Header true h ∧
    sf_current s = (if bool_decide (k < 20)%nat then fd_set_position (fd_position f `mod` 10 ^ (20 - Z.of_nat k)) f
                    else if bool_decide (k = 35)%nat then g else if bool_decide (fs = []) then field_of 0 0 false else f) ∧
    ∀ new_position new_pending new_last, 0 ≤ new_position ≤ long_max → 0 ≤ new_pending ≤ unsigned_max →
      ∃ s', SizeFile_new dot position0 pending0 last0 filename (f_data (sf_stream (update new_position new_pending new_last s))) true false = Some s' ∧
        sf_good s' = true ∧ sf_current s' = field_of new_position new_pending new_last.
Proof.
  intros Hfn Hdot Hh Hfs Hf Hg Hk. destruct (open_torn dot position0 pending0 last0 filename Hfn Hdot h fs f g k Hh Hfs Hf Hg Hk) as (s & d & q & r & E & Hs & Hd & Hq & Hl).
  exists s. split; [done|]. assert (sf_current s = torn_field fs f g k ∧ sf_good s = true ∧ sf_header s = Header true h) as (Ec & Eg & Eh) by (destruct Hs as (? & ? & ->); done).
  split; [done|]. split; [done|]. split.
  - rewrite Ec. unfold torn_field. case_bool_decide; [|done]. do 3 f_equal. lia.
  - intros n m b Hn Hm. by apply (update_reopen dot position0 pending0 last0 filename Hfn Hdot h Hh d q r _ s (fd_reset n m b) Hs Hd Hq Hl).
Qed.

(** A log of more than a million characters; 15 digits of the next record
    were written. *)
Lemma torn_update_witness :
  let f := field_of 1234567 3 false in
  let g := field_of 1240000 4 false in
  ∃ s, SizeFile_new dotted 0 0 false (of_string "CondorG.log") (torn sf_s_defaultHeader [field_of 0 0 false] f g 15) true false = Some s ∧ sf_good s = true ∧
    sf_header s = Header true sf_s_defaultHeader ∧ sf_current s = field_of 34567 3 false ∧
    ∀ new_position new_pending new_last, 0 ≤ new_position ≤ long_max → 0 ≤ new_pending ≤ unsigned_max →
      ∃ s', SizeFile_new dotted 0 0 false (of_string "CondorG.log") (f_data (sf_stream (update new_position new_pending new_last s))) true false = Some s' ∧
        sf_good s' = true ∧ sf_current s' = field_of new_position new_pending new_last.
Proof.
  apply (torn_update dotted 0 0 false (of_string "CondorG.log") sf_s_defaultHeader [field_of 0 0 false] (field_of 1234567 3 false) (field_of 1240000 4 false) 15);
    try done; try lia.
  - exact default_header_ok.
  - by repeat constructor.
Defined.

(** ** A longer header *)

Lemma unlines_app ls ls' : unlines (ls ++ ls') = unlines ls ++ unlines ls'.
Proof. unfold unlines. by rewrite fmap_app, concat_app. Qed.
Lemma unlines_records fs : unlines (field_text <$> fs) = concat (record_text <$> fs).
Proof. unfold unlines. rewrite <- list_fmap_compose. done. Qed.
Lemma field_text_no_nl f : field_ok f → no_nl (field_text f).
Proof.
  intros Hf. assert (∀ w n, no_nl (fixed 10 w n)) as H.
  { intros w n. eapply Forall_impl; [apply fixed_digits; lia|]. intros c Hc. unfold not_nl. case_bool_decide; [by subst|done]. }
  rewrite field_text_eq by done. unfold field_tail. apply Forall_app. split; [apply H|]. constructor; [done|]. apply Forall_app. split; [apply H|].
  repeat constructor. by destruct (fd_last f).
Qed.
(** [n] characters into the records there is the end of a record. *)
Lemma drop_records fs n : Forall field_ok fs → (0 < n)%nat → (n `mod` 36 ≠ 0)%nat → (n ≤ 36 * length fs)%nat →
  ∃ t fs', drop n (nl :: concat (record_text <$> fs)) = unlines (t :: (field_text <$> fs')) ∧ t ≠ [] ∧ no_nl t ∧ Forall field_ok fs'.
Proof.
  revert n. induction fs as [|f fs IH]; intros n Hfs H0 Hmod Hle; [cbn in Hle; lia|]. inversion Hfs as [|? ? Hf Hfs']; subst.
  pose proof (length_field_text f Hf) as Hl. unfold dimension, sf_s_long, sf_s_unsigned in Hl. rewrite fmap_cons. cbn [concat]. unfold record_text at 1.
  destruct (decide (n < 36)%nat) as [Hlt|].
  - exists (drop (n - 1) (field_text f)), fs. replace n with (S (n - 1)) at 1 by lia. cbn [drop]. rewrite <- app_assoc, drop_app_le by lia. repeat split; try done.
    + unfold unlines. cbn [fmap list_fmap concat]. rewrite <- unlines_records. unfold unlines. apps.
    + intros E%(f_equal length). rewrite length_drop in E. cbn [length] in E. lia.
    + apply Forall_drop, field_text_no_nl. done.
  - destruct (IH (n - 36)%nat) as (t & fs' & E & Ht); [done| | |cbn [length] in Hle; lia|].
    + destruct (decide (n = 36)%nat) as [->|]; [done|lia].
    + intros Hz. apply Hmod. replace n with (n - 36 + 1 * 36)%nat by lia. by rewrite Nat.Div0.mod_add.
    + exists t, fs'. split; [|done]. rewrite <- E. replace n with (S (35 + (n - 36))) at 1 by lia. cbn [drop].
      rewrite <- app_assoc, <- drop_drop, (drop_app_ge (field_text f)), Hl, Nat.sub_diag by lia. done.
Qed.

(** The first characters of a number, and the blanks before it. *)
Definition starts_number (h : bytes) : bool :=
  match h with [] => true | c :: _ => is_space c || is_digit 10 c || bool_decide (c = minus) || bool_decide (c = plus) end.

Section longer.
Context (dot : bytes → bytes) (position0 pending0 : Z) (last0 : bool) (filename : bytes).
Context (Hfilename : filename ≠ []) (Hdot : dot filename ≠ []).

(** A file with no header and no number at its start is started again. *)
Lemma open_no_header d ls t : d = unlines ls ++ t → Forall no_nl ls → no_nl t → dots ∉ ls → t ≠ dots → starts_number d = false →
  ∃ s, SizeFile_new dot position0 pending0 last0 filename d true false = Some s ∧ sf_good s = true ∧
    sf_header s = Header true sf_s_defaultHeader ∧ sf_current s = field_of 0 0 false.
Proof using Hfilename Hdot.
  intros Hd Hls Ht Hn Hne Hs. destruct d as [|c r] eqn:Ed; [done|]. cbn in Hs. rewrite <- Ed in *.
  apply orb_false_elim in Hs as [[[Hsp Hdg]%orb_false_elim Hm%bool_decide_eq_false]%orb_false_elim Hpl%bool_decide_eq_false].
  destruct (header_read_none d [] ls t Hd Hls Ht Hn Hne) as (st & Hst & Heof & Hsame).
  unfold SizeFile_new, createDotFile. sfs. rewrite (bool_decide_false (filename = [])) by done.
  unfold openFile. sfs. rewrite (bool_decide_false (dot filename = [])) by done.
  rewrite (bool_decide_true (Z.of_nat (length d) ≠ 0)) by (rewrite Ed; cbn [length]; lia).
  change (Stream d 0 false false false false []) with (at_ d 0 []). rewrite Hst. destruct st as [d' p e fl bd br j]. destruct Hsame as (E1 & E2 & E3 & E4).
  cbn in E1, E2, E3, E4, Heof. subst d' br j bd e. sfs. unfold checkOldFormat, reopenFile. sfs.
  change (Stream d p false false false false []) with (at_ d p []). rewrite seek_at by done.
  rewrite (extract_num_none d [] 10 long_min long_max [] [] c r) by (done || congruence).
  rewrite extract_num_failed, extract_bool_failed. unfold set_failbit, set_bits. sfs. eexists. split; [reflexivity|]. done.
Qed.

(** [update_header] with a header that is longer than the old one by
    [space] characters, where [space] is not a multiple of 18, writes over
    the first records: the call reports a good file, but the next opening
    finds no header, and starts again from position 0 with the default
    header: the state of the log and the new header are lost. *)
Theorem longer_header_loses h fs cur s newheader :
  closed dot filename (file_text h fs) (Z.of_nat (length (file_text h fs))) h cur s → Forall field_ok fs →
  let space := (length newheader - length h)%nat in
  (length h < length newheader)%nat → (space `mod` 18 ≠ 0)%nat → (2 * space ≤ 36 * length fs)%nat →
  dots ∉ lines (padded newheader space) → starts_number newheader = false →
  sf_good (update_header newheader s) = true ∧ sf_header (update_header newheader s) = Header true (padded newheader space) ∧
  ∃ s', SizeFile_new dot position0 pending0 last0 filename (f_data (sf_stream (update_header newheader s))) true false = Some s' ∧ sf_good s' = true ∧
    sf_header s' = Header true sf_s_defaultHeader ∧ sf_current s' = field_of 0 0 false.
Proof using Hfilename Hdot.
  intros Hs Hfs space Hlt Hmod Hle Hdots Hstart. assert (∃ c r, newheader = c :: r) as (c & r & En) by (destruct newheader; [done|eauto]). set (pad := padded newheader space) in *.
  assert (length pad = (length newheader + space)%nat) as Hpad.
  { unfold pad, padded. repeat case_bool_decide; rewrite ?length_app; cbn [length]; rewrite ?length_replicate; lia. }
  assert (∃ x, pad = newheader ++ x) as [x Hx] by (unfold pad, padded; repeat case_bool_decide; eauto; exists []; by rewrite app_nil_r).
  destruct (reopen_closed _ _ _ _ _ _ _ (Nat2Z.is_nonneg _) Hs) as [j E]. unfold update_header. rewrite E. unfold opened. sfs.
  rewrite (bool_decide_true (length h ≤ length newheader)%nat) by lia. change (padded newheader (length newheader - length h)) with pad. unfold sh_reset.
  rewrite (bool_decide_true (pad ≠ [])) by (rewrite Hx, En; done). sfs.
  unfold stashFile, seek, failed. sfs. rewrite (bool_decide_false (0 < 0)) by lia. unfold emit. sfs. unfold set_data, seek_end, failed, set_pos. sfs.
  split; [done|]. split; [done|].
  destruct (drop_records fs (2 * space)) as (t & fs' & Et & Htne & Htnl & Hfs'); [done|lia| |done|].
  { intros Hz. apply Hmod. change 36%nat with (2 * 18)%nat in Hz. rewrite Nat.Div0.mul_mod_distr_l in Hz. lia. }
  assert (overwrite (file_text h fs) (Z.to_nat 0) (header_text (Header true pad)) = pad ++ nl :: dots ++ unlines (t :: (field_text <$> fs'))) as ->.
  { unfold overwrite. change (Z.to_nat 0) with 0%nat. cbn [take Nat.add]. rewrite <- Et. unfold file_text, header_text. cbn [sh_header].
    rewrite (drop_app_ge (h ++ nl :: dots)) by (rewrite !length_app; cbn [length]; lia).
    replace (length (pad ++ nl :: dots) - length (h ++ nl :: dots))%nat with (2 * space)%nat by (rewrite !length_app; lia). apps. }
  eapply (open_no_header _ (lines pad ++ (dots ++ t) :: (field_text <$> fs')) []).
  - rewrite unlines_app, unlines_lines. unfold unlines. cbn [fmap list_fmap concat]. apps. by rewrite app_nil_r.
  - apply Forall_app. split; [apply lines_no_nl|]. constructor; [apply Forall_app; split; [apply dots_no_nl|done]|].
    apply Forall_fmap. eapply Forall_impl; [done|]. intros. by apply field_text_no_nl.
  - constructor.
  - rewrite not_elem_of_app, not_elem_of_cons. split; [done|]. split.
    + intros Ed%(f_equal length). rewrite length_app in Ed. destruct t; [done|]. cbn in Ed. lia.
    + intros (f & Ef & Hin)%list_elem_of_fmap. rewrite Forall_forall in Hfs'. apply (f_equal length) in Ef. by rewrite length_field_text in Ef by auto.
  - done.
  - rewrite Hx, En in *. done.
Qed.
End longer.

Lemma longer_header_loses_witness :
  let fs := [field_of 0 0 false; field_of 1372 3 false] in
  let newheader := sf_s_defaultHeader ++ of_string " DAG 7" in
  ∃ s, closed dotted (of_string "CondorG.log") (file_text sf_s_defaultHeader fs) (Z.of_nat (length (file_text sf_s_defaultHeader fs))) sf_s_defaultHeader (field_of 1372 3 false) s ∧
    sf_good (update_header newheader s) = true ∧ sf_header (update_header newheader s) = Header true (newheader ++ nl :: of_string "#####") ∧
    ∃ s', SizeFile_new dotted 0 0 false (of_string "CondorG.log") (f_data (sf_stream (update_header newheader s))) true false = Some s' ∧ sf_good s' = true ∧
      sf_header s' = Header true sf_s_defaultHeader ∧ sf_current s' = field_of 0 0 false.
Proof.
  intros fs newheader. exists (SFile true true (Z.of_nat (length (file_text sf_s_defaultHeader fs))) (dotted (of_string "CondorG.log"))
    (at_ (file_text sf_s_defaultHeader fs) 0 []) (Header true sf_s_defaultHeader) (field_of 1372 3 false) true).
  assert (closed dotted (of_string "CondorG.log") (file_text sf_s_defaultHeader fs) (Z.of_nat (length (file_text sf_s_defaultHeader fs))) sf_s_defaultHeader (field_of 1372 3 false)
    (SFile true true (Z.of_nat (length (file_text sf_s_defaultHeader fs))) (dotted (of_string "CondorG.log"))
    (at_ (file_text sf_s_defaultHeader fs) 0 []) (Header true sf_s_defaultHeader) (field_of 1372 3 false) true)) as Hs by (eexists _, _; reflexivity).
  split; [exact Hs|].
  assert (padded newheader (length newheader - length sf_s_defaultHeader) = newheader ++ nl :: of_string "#####") as <- by (vm_compute; reflexivity).
  apply (longer_header_loses dotted 0 0 false (of_string "CondorG.log") ltac:(done) ltac:(done) sf_s_defaultHeader fs (field_of 1372 3 false) _ newheader Hs).
  - by repeat constructor.
  - apply Nat.ltb_lt. vm_compute. reflexivity.
  - vm_compute. discriminate.
  - apply Nat.leb_le. vm_compute. reflexivity.
  - apply (bool_decide_unpack (dots ∉ lines (padded newheader (length newheader - length sf_s_defaultHeader)))). vm_compute. exact I.
  - vm_compute. reflexivity.
Defined.
