(* ===== verification/JobWrapper.v ===== *)
(** * logmonitor/JobWrapperOutputParser.cpp: what a job wrapper has written

    When a job is over, the log monitor reads the output of its wrapper, or
    the copy that was transferred apart (the Maradona file), and decides from
    its lines whether the job is done, has to be submitted again or is
    aborted.  A stream is its text and whether reading ends with an error of
    the device; an error text of the system is a parameter.  The log messages
    are left out. *)

From S2P Require Import Prelude Digits Numbers.

Inductive status_type := unknown | good | abort | resubmit.
#[export] Instance status_type_eqdec : EqDecision status_type.
Proof. solve_decision. Defined.

(** ** Strings of C *)
Definition BUFSIZ : nat := Z.to_nat 8192.
Definition starts_with (p s : bytes) : bool := bool_decide (take (length p) s = p).  (* [strstr( s, p ) == s] *)
Fixpoint contains (p s : bytes) : bool :=                                            (* [strstr( s, p ) != NULL] *)
  starts_with p s || match s with [] => false | _ :: s => contains p s end.
Definition c_str (buffer : bytes) : bytes := (span (λ c, negb (bool_decide (c = "000"%char))) buffer).1.
Definition skip_spaces (s : bytes) : bytes := (span is_space s).2.
(** [%d] of [sscanf]: a long that is clamped, and then cut to an int. *)
Definition int_of_long (n : Z) : Z := let m := n mod 2 ^ 32 in if m <? 2 ^ 31 then m else m - 2 ^ 32.
Definition scan_int (s : bytes) : option Z :=
  let s := skip_spaces s in
  let '(neg, s) := match s with c :: s' => if decide (c = minus) then (true, s') else if decide (c = plus) then (false, s') else (false, s) | [] => (false, s) end in
  let digits := (span (is_digit 10) s).1 in
  if decide (digits = []) then None
  else let n := digits_value 10 digits in
       Some (int_of_long (Z.max long_min (Z.min long_max (if neg : bool then - n else n)))).
(** [%255s] *)
Definition scan_word (s : bytes) : option bytes :=
  let word := take 255 (span (λ c, negb (is_space c)) (skip_spaces s)).1 in
  if decide (word = []) then None else Some word.

(** ** Streams *)
Record istream := IStream { is_text : bytes; io_error : bool }.
Inductive getline_result := Line (buffer : bytes) (is_ : istream) | Eof | Failed.
Definition getline (is_ : istream) : getline_result :=
  let '(l, r) := span (λ c, negb (bool_decide (c = nl))) (is_text is_) in
  if decide (length l < BUFSIZ)%nat
  then match r with
       | _ :: r => Line l (IStream r (io_error is_))
       | [] => if io_error is_ then Failed else Eof
       end
  else Failed.

(** ** The lines *)
Definition jwErrors : list (bytes * status_type) :=
  [ (of_string "Working directory not writable", resubmit);
    (of_string "GLOBUS_LOCATION undefined", resubmit);
    (of_string "/etc/globus-user-env.sh", resubmit);
    (of_string "not found or unreadable", abort);
    (of_string "Cannot download", resubmit);
    (of_string "Cannot upload", resubmit);
    (of_string "Cannot take shallow resubmission token", resubmit);
    (of_string "prologue failed", resubmit);
    (of_string "epilogue failed", resubmit);
    (of_string "Cannot create directory", resubmit);
    (of_string "Job killed", abort);
    (of_string "Job has been terminated", resubmit);
    (of_string "No *ftp", resubmit);
    (of_string "Cannot find edg-rm", resubmit) ].

(** The out parameters and the local variables of [parseStream]. *)
Record parsed := Parsed {
  found : bool; errors : bytes; retcode : Z; stat : status_type; sc : bytes; done_reason : bytes;
  first_error_found : bool; waiting_for_end_tag : bool
}.
(** The loop over the table goes on after a match. *)
Fixpoint error_loop (table : list (bytes * status_type)) (buffer : bytes) (p : parsed) : parsed :=
  match table with
  | [] => p
  | (jwe_error, jwe_status) :: table =>
      error_loop table buffer
        (if contains jwe_error buffer then Parsed true buffer (retcode p) jwe_status (sc p) (done_reason p) true (waiting_for_end_tag p) else p)
  end.
Definition check_errors (buffer : bytes) (p : parsed) : parsed := if first_error_found p then p else error_loop jwErrors buffer p.
Definition exit_tag : bytes := of_string "job exit status = ".
Definition check_exit (buffer : bytes) (p : parsed) : parsed :=
  if starts_with exit_tag buffer
  then match scan_int (drop (length exit_tag) buffer) with
       | Some n => Parsed true buffer n (if first_error_found p then stat p else good) (sc p) (done_reason p) (first_error_found p) (waiting_for_end_tag p)
       | None => Parsed (found p) (errors p) (-1) (stat p) (sc p) (done_reason p) (first_error_found p) (waiting_for_end_tag p)
       end
  else p.
Definition jw_tag : bytes := of_string "jw exit status = ".
Definition check_jw (buffer : bytes) (p : parsed) : parsed :=
  if starts_with jw_tag buffer
  then Parsed true (errors p) (retcode p) (stat p) (sc p) (done_reason p) (first_error_found p) (waiting_for_end_tag p) else p.
Definition sequence_tag : bytes := of_string "Sequence code: ".
Definition check_sequence (buffer : bytes) (p : parsed) : parsed :=
  if starts_with sequence_tag buffer
  then Parsed (found p) (errors p) (retcode p) (stat p) (default [] (scan_word (drop (length sequence_tag) buffer))) (done_reason p)
         (first_error_found p) (waiting_for_end_tag p)
  else p.
Definition LM_log_done_begin : bytes := of_string "LM_log_done_begin".
Definition LM_log_done_end : bytes := of_string "LM_log_done_end".
Definition check_reason (buffer : bytes) (p : parsed) : parsed :=
  let set reason waiting := Parsed (found p) (errors p) (retcode p) (stat p) (sc p) reason (first_error_found p) waiting in
  if waiting_for_end_tag p
  then if contains LM_log_done_end buffer then set (done_reason p) false else set (done_reason p ++ buffer ++ [nl]) true
  else if contains LM_log_done_begin buffer then set (done_reason p) true else p.
Definition parse_line (buffer : bytes) (p : parsed) : parsed :=
  check_reason buffer (check_sequence buffer (check_jw buffer (check_exit buffer (check_errors buffer p)))).

Section parser.
Context (strerror : bytes).

Definition read_error (p : parsed) : parsed :=
  Parsed true (of_string "IO error while reading file: " ++ strerror) (-1) resubmit (sc p) (done_reason p) (first_error_found p) (waiting_for_end_tag p).
(** [fuel]: one unit for each line and one for the end. *)
Fixpoint parse_loop (fuel : nat) (is_ : istream) (p : parsed) : parsed :=
  match fuel with
  | O => p
  | S fuel =>
      match getline is_ with
      | Line buffer is_ => parse_loop fuel is_ (parse_line (c_str buffer) p)
      | Eof => p
      | Failed => read_error p
      end
  end.
(** [None]: the file cannot be opened. *)
Definition parseStream (is_ : option istream) (errors_ : bytes) (retcode_ : Z) (stat_ : status_type) : parsed :=
  match is_ with
  | Some is_ => parse_loop (S (length (is_text is_))) is_ (Parsed false errors_ retcode_ stat_ (of_string "NoToken") [] false false)
  | None => Parsed false (of_string "File not available.") (-1) resubmit (of_string "NoToken") [] false false
  end.
(** The status and the out parameters. *)
Definition parse_file (use_maradona_file : bool) (standard_output maradona_file : option istream) : status_type * Z * bytes * bytes * bytes :=
  let p := parseStream standard_output [] (-1) good in
  if found p then (stat p, retcode p, errors p, sc p, done_reason p)
  else let errors_ := of_string "Standard output does not contain useful data." in
       if use_maradona_file
       then let p := parseStream maradona_file errors_ (retcode p) (stat p) in
            if found p then (stat p, retcode p, errors p, sc p, done_reason p)
            else (resubmit, -1, errors p ++ of_string "Cannot read JobWrapper output, both from Condor and from Maradona. ", sc p, done_reason p)
       else (resubmit, -1, errors_, sc p, done_reason p).
End parser.

(** ** Reference: each answer on its own, from the lines

    The lines that end with a newline, and the rest. *)
Fixpoint lines_from (current text : bytes) : list bytes * bytes :=
  match text with
  | [] => ([], reverse current)
  | c :: text => if decide (c = nl) then let '(ls, rest) := lines_from [] text in (reverse current :: ls, rest) else lines_from (c :: current) text
  end.
Definition complete_lines (text : bytes) : list bytes := (lines_from [] text).1.
(** No line is longer than the buffer. *)
Definition short_lines (text : bytes) : Prop := Forall (λ l, (length l < BUFSIZ)%nat) (complete_lines text) ∧ (length (lines_from [] text).2 < BUFSIZ)%nat.
(** The last entry of the table that the line contains. *)
Definition error_of (l : bytes) : option status_type := last (filter (λ e, contains e.1 l = true) jwErrors).*2.
(** The value of an exit line: [Some None] without a number. *)
Definition exit_of (l : bytes) : option (option Z) := if starts_with exit_tag l then Some (scan_int (drop (length exit_tag) l)) else None.
Definition exit_line (l : bytes) : option bytes := match exit_of l with Some (Some _) => Some l | _ => None end.
Definition sequence_of (l : bytes) : option bytes := if starts_with sequence_tag l then Some (default [] (scan_word (drop (length sequence_tag) l))) else None.
Definition useful (l : bytes) : bool := bool_decide (is_Some (error_of l)) || bool_decide (is_Some (exit_line l)) || starts_with jw_tag l.
(** The first line with an error decides, then a line with an exit status. *)
Definition verdict (before : status_type) (ls : list bytes) : status_type :=
  match head (omap error_of ls) with Some s => s | None => if existsb (λ l, bool_decide (is_Some (exit_line l))) ls then good else before end.
(** The last exit line from the first error on, or that error. *)
Fixpoint message (before : bytes) (ls : list bytes) : bytes :=
  match ls with
  | [] => before
  | l :: ls => if decide (is_Some (error_of l)) then default l (last (omap exit_line (l :: ls))) else message (default before (exit_line l)) ls
  end.
(** The lines between the tags. *)
Fixpoint between (inside : bool) (ls : list bytes) : bytes :=
  match ls with
  | [] => []
  | l :: ls => if inside then if contains LM_log_done_end l then between false ls else l ++ nl :: between true ls
               else between (contains LM_log_done_begin l) ls
  end.
Definition exit_codes (ls : list bytes) : list Z := omap (λ l, default (-1) <$> exit_of l) ls.

(** ** One line *)
Ltac fields := cbn [found errors retcode stat sc done_reason first_error_found waiting_for_end_tag default fmap option_fmap option_map].
Lemma error_loop_spec table l p : error_loop table l p =
  match last (filter (λ e, contains e.1 l = true) table).*2 with
  | Some s => Parsed true l (retcode p) s (sc p) (done_reason p) true (waiting_for_end_tag p)
  | None => p
  end.
Proof.
  revert p. induction table as [|[e s] table IH]; intros p; [done|]. cbn [error_loop]. rewrite IH, filter_cons. cbn [fst].
  destruct (contains e l) eqn:E; [rewrite decide_True by done|by rewrite decide_False by done].
  cbn [fmap list_fmap snd]. rewrite last_cons. by destruct (last _).
Qed.
Definition mentions (l : bytes) : bool := bool_decide (is_Some (error_of l)).
Definition exits (l : bytes) : bool := bool_decide (is_Some (exit_line l)).
Lemma check_errors_fields l p : check_errors l p =
  Parsed (found p || negb (first_error_found p) && mentions l) (if first_error_found p then errors p else if mentions l then l else errors p) (retcode p)
    (if first_error_found p then stat p else default (stat p) (error_of l)) (sc p) (done_reason p) (first_error_found p || mentions l) (waiting_for_end_tag p).
Proof.
  unfold check_errors, mentions. rewrite error_loop_spec. fold (error_of l). destruct p as [f e r s c d fe wa]. cbn.
  destruct fe; [cbn; by rewrite orb_false_r|]. destruct (error_of l) as [st|]; cbn; by rewrite ?orb_true_r, ?orb_false_r.
Qed.
Lemma check_exit_fields l p : check_exit l p =
  Parsed (found p || exits l) (default (errors p) (exit_line l)) (default (retcode p) (default (-1) <$> exit_of l))
    (if first_error_found p then stat p else if exits l then good else stat p) (sc p) (done_reason p) (first_error_found p) (waiting_for_end_tag p).
Proof.
  unfold check_exit, exits, exit_line, exit_of. destruct p as [f e r s c d fe wa]. fields.
  destruct (starts_with exit_tag l); [destruct (scan_int _)|]; fields; rewrite ?orb_true_r, ?orb_false_r; repeat rewrite bool_decide_eq_true_2 by (by eexists); destruct fe; by rewrite ?orb_true_r, ?orb_false_r.
Qed.
Lemma check_tags_fields l p : check_reason l (check_sequence l (check_jw l p)) =
  Parsed (found p || starts_with jw_tag l) (errors p) (retcode p) (stat p) (default (sc p) (sequence_of l))
    (done_reason p ++ (if waiting_for_end_tag p then if contains LM_log_done_end l then [] else l ++ [nl] else [])) (first_error_found p)
    (if waiting_for_end_tag p then negb (contains LM_log_done_end l) else contains LM_log_done_begin l).
Proof.
  assert (check_jw l p = Parsed (found p || starts_with jw_tag l) (errors p) (retcode p) (stat p) (sc p) (done_reason p) (first_error_found p) (waiting_for_end_tag p)) as ->.
  { unfold check_jw. destruct p, (starts_with jw_tag l); cbn; by rewrite ?orb_true_r, ?orb_false_r. }
  set (b := starts_with jw_tag l). unfold check_sequence, sequence_of. fields.
  set (q := starts_with sequence_tag l). destruct q; unfold check_reason; fields; (destruct (waiting_for_end_tag p); [destruct (contains LM_log_done_end l)|destruct (contains LM_log_done_begin l)]);
    fields; by rewrite ?app_nil_r.
Qed.
Lemma parse_line_fields l p :
  parse_line l p = Parsed (found p || negb (first_error_found p) && mentions l || exits l || starts_with jw_tag l)
    (default (if first_error_found p then errors p else if mentions l then l else errors p) (exit_line l))
    (default (retcode p) (default (-1) <$> exit_of l))
    (if first_error_found p then stat p else default (if exits l then good else stat p) (error_of l))
    (default (sc p) (sequence_of l))
    (done_reason p ++ (if waiting_for_end_tag p then if contains LM_log_done_end l then [] else l ++ [nl] else []))
    (first_error_found p || mentions l)
    (if waiting_for_end_tag p then negb (contains LM_log_done_end l) else contains LM_log_done_begin l).
Proof.
  unfold parse_line. rewrite check_tags_fields, check_exit_fields, check_errors_fields.
  cbn [found errors retcode stat sc done_reason first_error_found waiting_for_end_tag]. f_equal.
  unfold mentions. destruct (first_error_found p), (error_of l); done.
Qed.

(** ** All lines *)
Definition parse_all (p : parsed) (ls : list bytes) : parsed := foldl (λ p l, parse_line l p) p ls.
Lemma parse_all_cons p l ls : parse_all p (l :: ls) = parse_all (parse_line l p) ls.
Proof. done. Qed.
Lemma parse_all_found p ls : found (parse_all p ls) = found p || existsb (λ l, negb (first_error_found p) && mentions l || exits l || starts_with jw_tag l) ls.
Proof.
  revert p. induction ls as [|l ls IH]; intros p; [cbn; by rewrite orb_false_r|]. rewrite parse_all_cons, IH, parse_line_fields. fields. cbn [existsb].
  destruct (first_error_found p); cbn [negb andb orb]; [by destruct (found p), (exits l), (starts_with jw_tag l)|].
  by destruct (mentions l), (found p), (exits l), (starts_with jw_tag l).
Qed.
Lemma parse_all_stat p ls : stat (parse_all p ls) = if first_error_found p then stat p else verdict (stat p) ls.
Proof.
  revert p. induction ls as [|l ls IH]; intros p; [by destruct (first_error_found p)|]. rewrite parse_all_cons, IH, parse_line_fields. fields.
  unfold verdict, mentions. destruct (first_error_found p); [done|]. cbn [orb omap list_omap existsb]. destruct (error_of l) as [st|]; [done|].
  cbn [default]. destruct (head (omap error_of ls)); [done|]. fold (exits l). destruct (exits l); [|done]. cbn [orb]. by destruct (existsb _ ls).
Qed.
Lemma default_last {A} (a : A) (o : option A) l : default a (last (option_list o ++ l)) = default (default a o) (last l).
Proof. destruct o; [|done]. cbn. rewrite last_cons. by destruct (last l). Qed.
Lemma omap_cons_list {A B} (f : A → option B) x l : omap f (x :: l) = option_list (f x) ++ omap f l.
Proof. cbn. by destruct (f x). Qed.
Lemma parse_all_errors p ls :
  errors (parse_all p ls) = if first_error_found p then default (errors p) (last (omap exit_line ls)) else message (errors p) ls.
Proof.
  revert p. induction ls as [|l ls IH]; intros p; [by destruct (first_error_found p)|]. rewrite parse_all_cons, IH, parse_line_fields. fields.
  destruct (first_error_found p); cbn [orb message]; [by rewrite omap_cons_list, default_last|]. unfold mentions.
  case_decide as Hm; [rewrite bool_decide_eq_true_2 by done|by rewrite bool_decide_eq_false_2 by done]. by rewrite omap_cons_list, default_last.
Qed.
Lemma parse_all_retcode p ls : retcode (parse_all p ls) = default (retcode p) (last (exit_codes ls)).
Proof.
  revert p. induction ls as [|l ls IH]; intros p; [done|]. rewrite parse_all_cons, IH, parse_line_fields. fields. unfold exit_codes. by rewrite omap_cons_list, default_last.
Qed.
Lemma parse_all_sc p ls : sc (parse_all p ls) = default (sc p) (last (omap sequence_of ls)).
Proof.
  revert p. induction ls as [|l ls IH]; intros p; [done|]. rewrite parse_all_cons, IH, parse_line_fields. fields. by rewrite omap_cons_list, default_last.
Qed.
Lemma parse_all_reason p ls : done_reason (parse_all p ls) = done_reason p ++ between (waiting_for_end_tag p) ls.
Proof.
  revert p. induction ls as [|l ls IH]; intros p; [cbn; by rewrite app_nil_r|]. rewrite parse_all_cons, IH, parse_line_fields. fields. cbn [between].
  destruct (waiting_for_end_tag p); [|by rewrite app_nil_r]. destruct (contains LM_log_done_end l); cbn [negb]; [by rewrite app_nil_r|].
  by rewrite <- !(assoc_L (++)).
Qed.

(** ** From the stream to the lines *)
Lemma lines_from_span current text : lines_from current text =
  match span (λ c, negb (bool_decide (c = nl))) text with
  | (l, []) => ([], reverse current ++ l)
  | (l, _ :: r) => let '(ls, rest) := lines_from [] r in ((reverse current ++ l) :: ls, rest)
  end.
Proof.
  revert current. induction text as [|c text IH]; intros current; cbn [lines_from span]; [by rewrite app_nil_r|].
  case_decide as Hc; [rewrite bool_decide_eq_true_2 by done; cbn; by rewrite app_nil_r|]. rewrite bool_decide_eq_false_2 by done. cbn [negb].
  rewrite IH, reverse_cons. destruct (span _ text) as [l [|x r]]; by rewrite <- (assoc_L (++)).
Qed.
Section loops.
Context (strerror : bytes).
Lemma parse_loop_lines text fuel p : short_lines text → (length text < fuel)%nat → parse_loop strerror fuel (IStream text false) p = parse_all p (c_str <$> complete_lines text).
Proof.
  unfold short_lines, complete_lines. revert text p. induction fuel as [|fuel IH]; intros text p Hs Hf; [lia|]. cbn [parse_loop]. unfold getline. cbn [is_text io_error].
  pose proof (span_app (λ c, negb (bool_decide (c = nl))) text) as Ht. rewrite lines_from_span in Hs |- *. destruct (span _ text) as [l [|c r]]; cbn in Ht.
  - cbn in Hs |- *. rewrite decide_True by (by destruct Hs as [_ ?]). done.
  - destruct (lines_from [] r) as [ls rest] eqn:E. cbn in Hs |- *. destruct Hs as [[Hl Hls]%Forall_cons Hr]. rewrite decide_True by done.
    rewrite IH; [by rewrite E|by rewrite E|]. rewrite <- Ht, length_app in Hf. cbn in Hf. lia.
Qed.
End loops.

(** C27. The parser of job wrapper output, one pass with flags that carry over
    from line to line, answers as its lines say each on its own.  A line that
    mentions an error, or has a valid exit status, or the wrapper's own status,
    makes the file useful; the first line that mentions an error decides the
    status, by the last entry of the table it contains, and a valid exit status
    means good where there is none; the last exit line gives the return code,
    the last sequence code counts, and the reason is what stands between the
    tags.  The text after the last newline is not looked at. *)
Theorem wrapper_output_answers (strerror text errors_ : bytes) (retcode_ : Z) (stat_ : status_type) : short_lines text →
  let p := parseStream strerror (Some (IStream text false)) errors_ retcode_ stat_ in
  let ls := c_str <$> complete_lines text in
  found p = existsb useful ls ∧ stat p = verdict stat_ ls ∧ errors p = message errors_ ls ∧ retcode p = default retcode_ (last (exit_codes ls)) ∧
  sc p = default (of_string "NoToken") (last (omap sequence_of ls)) ∧ done_reason p = between false ls.
Proof.
  intros Hs p ls. unfold p, parseStream. cbn [is_text]. rewrite parse_loop_lines; [|done|lia]. fold ls.
  by rewrite parse_all_found, parse_all_stat, parse_all_errors, parse_all_retcode, parse_all_sc, parse_all_reason.
Qed.
(** A wrapper whose job ended well but whose output could not be uploaded. *)
Definition example_output : bytes :=
  of_string "Sequence code: UI=000001" ++ [nl] ++ of_string "job exit status = 0" ++ [nl] ++ of_string "LM_log_done_begin" ++ [nl]
  ++ of_string "Cannot upload out.dat" ++ [nl] ++ of_string "LM_log_done_end" ++ [nl] ++ of_string "jw exit status = 1".
Lemma wrapper_output_answers_witness : let p := parseStream [] (Some (IStream example_output false)) [] (-1) good in
  stat p = resubmit ∧ retcode p = 0 ∧ sc p = of_string "UI=000001" ∧ done_reason p = of_string "Cannot upload out.dat" ++ [nl].
Proof.
  destruct (wrapper_output_answers [] example_output [] (-1) good) as (_ & Hst & _ & Hr & Hsc & Hd); [split; [repeat (constructor; [apply Nat.ltb_lt; vm_compute; reflexivity|]); constructor|apply Nat.ltb_lt; vm_compute; reflexivity]|].
  cbv zeta. rewrite Hst, Hr, Hsc, Hd. repeat split; vm_compute; reflexivity.
Defined.

(** ** A line that does not fit into the buffer

    The stream fails, and the job is submitted again whatever its output said
    before. *)
Lemma getline_line l r b : Forall (λ c, c ≠ nl) l → (length l < BUFSIZ)%nat → getline (IStream (l ++ nl :: r) b) = Line l (IStream r b).
Proof.
  intros Hl Hlen. unfold getline. cbn [is_text io_error]. rewrite span_app_stop; [by rewrite decide_True| |by rewrite bool_decide_eq_true_2].
  eapply Forall_impl; [exact Hl|]. intros c Hc. cbn. by rewrite bool_decide_eq_false_2.
Qed.
Lemma long_line_fails strerror ls long b fuel p : Forall (λ l, Forall (λ c, c ≠ nl) l ∧ (length l < BUFSIZ)%nat) ls →
  (BUFSIZ ≤ length (span (λ c, negb (bool_decide (c = nl))) long).1)%nat → (length ls < fuel)%nat →
  parse_loop strerror fuel (IStream (mjoin ((λ l, l ++ [nl]) <$> ls) ++ long) b) p = read_error strerror (parse_all p (c_str <$> ls)).
Proof.
  intros Hls Hlong. revert fuel p. induction Hls as [|l ls [Hl Hlen] _ IH]; intros [|fuel] p Hf; cbn [length] in Hf; try lia; cbn [parse_loop].
  - cbn [fmap list_fmap mjoin list_join app]. unfold getline. cbn [is_text]. destruct (span _ long) as [l r]. by rewrite decide_False by (cbn in Hlong; lia).
  - cbn [fmap list_fmap mjoin list_join]. rewrite <- !(assoc_L (++)). cbn [app]. rewrite getline_line by done. apply IH. lia.
Qed.

(** ** Both files *)
Lemma parse_file_useless strerror out maradona use : found (parseStream strerror out [] (-1) good) = false →
  (∀ e r s, found (parseStream strerror maradona e r s) = false) → let '(st, code, _, _, _) := parse_file strerror use out maradona in st = resubmit ∧ code = -1.
Proof. intros Ho Hm. unfold parse_file. rewrite Ho. destruct use; [|done]. by rewrite Hm. Qed.
