(* ===== verification/Events.v ===== *)
(** * core/src/events: the event queue of the workload manager

    Requests are functions with a time and a priority, in two multimaps:
    [ready], by priority, and [waiting], by time.  Worker threads run
    [Events::run]: they move the waiting events whose time has come to the
    ready ones, take the first ready one and call it; they sleep on one
    condition variable, for ever when there is nothing to do, until the time
    of the first waiting event when there is one.

    The model is a transition system over the state that the threads share.
    A step is what one thread does between two points where another thread
    can come in: a critical section of [mx], from its lock to its end or to
    a wait, is one step; the read of [shutdown] at the head of the outer
    loop, which no lock protects, and the notifications, which come after
    the lock was left, are steps of their own.  [None] as a function is an
    empty [boost::function].  [crashed] is reached by the use of an
    iterator that points to no element.  The log messages are left out. *)

From S2P Require Import Prelude.

(** ** Priorities: the lower the number, the higher the priority *)
Definition submit_priority : Z := 60.
Definition cancel_priority : Z := 50.
Definition replanner_priority : Z := 40.
Definition match_priority : Z := 30.
Definition dispatcher_priority : Z := 20.
Definition ism_priority : Z := 10.
Definition debug_priority : Z := 0.

Record TimePriority := TP { tp_time : Z; tp_priority : Z }.
Definition time_first (lhs rhs : TimePriority) : bool := bool_decide (tp_time lhs ≤ tp_time rhs).
Definition priority_first (lhs rhs : TimePriority) : bool :=
  bool_decide (tp_priority lhs < tp_priority rhs) ||
  bool_decide (tp_priority lhs = tp_priority rhs) && bool_decide (tp_time lhs < tp_time rhs).

(** ** [std::multimap] with a comparison

    The elements in the order of iteration.  The search for the place of a
    new key goes left where the key compares before an element; the
    search for a lower bound goes right where an element compares before
    the key. *)
Section multimaps.
Context {K V : Type} (comp : K → K → bool).

Fixpoint multimap_insert (v : K * V) (m : list (K * V)) : list (K * V) :=
  match m with
  | [] => [v]
  | x :: m' => if comp v.1 x.1 then v :: m else x :: multimap_insert v m'
  end.
(** The iterator is an index. *)
Fixpoint lower_bound (k : K) (m : list (K * V)) : nat :=
  match m with
  | [] => 0
  | x :: m => if comp x.1 k then S (lower_bound k m) else 0
  end.
Definition multimap_insert_range (vs m : list (K * V)) : list (K * V) := foldl (λ m v, multimap_insert v m) m vs.
End multimaps.

Section events.
Context {F : Type}.

Definition entry : Type := TimePriority * option F.

(** The new [waiting] and [ready]. *)
Definition expired_to_ready (now : Z) (waiting ready : list entry) : list entry * list entry :=
  let last_expired := lower_bound time_first (TP now 0) waiting in
  (drop last_expired waiting, multimap_insert_range priority_first (take last_expired waiting) ready).

(** ** The state

    Where a worker is in [Events::run]: [Top] at the test of the outer
    loop, [Locking] past the test and before the lock, [Asleep] in [wait],
    [TimedWait t] in [timed_wait], [Woken] and [TimedWoken] before the lock
    is got back from the two, [Calling] a function with no lock held,
    [Stopping] and [Notifying] in the [stop] after a [bad_alloc], [Exited]
    after the loop. *)
Inductive worker :=
| Top | Locking | Asleep | Woken | TimedWait (t : Z) | TimedWoken
| Calling (f : option F) | Stopping | Notifying | Exited.

(** [time_now] is what [std::time] returns; [to_notify] and [to_notify_all]
    count the callers of [schedule], [schedule_at] and [stop] that have
    left the lock and not yet notified. *)
Record Events := EventsState {
  shutdown : bool;
  ready : list entry;
  waiting : list entry;
  workers : list worker;
  time_now : Z;
  to_notify : nat;
  to_notify_all : nat;
  crashed : bool
}.
Implicit Types s : Events.

Definition set_shutdown s := EventsState true (ready s) (waiting s) (workers s) (time_now s) (to_notify s) (to_notify_all s) (crashed s).
Definition set_ready r s := EventsState (shutdown s) r (waiting s) (workers s) (time_now s) (to_notify s) (to_notify_all s) (crashed s).
Definition set_waiting w s := EventsState (shutdown s) (ready s) w (workers s) (time_now s) (to_notify s) (to_notify_all s) (crashed s).
Definition set_workers ws s := EventsState (shutdown s) (ready s) (waiting s) ws (time_now s) (to_notify s) (to_notify_all s) (crashed s).
Definition set_time t s := EventsState (shutdown s) (ready s) (waiting s) (workers s) t (to_notify s) (to_notify_all s) (crashed s).
Definition set_to_notify n s := EventsState (shutdown s) (ready s) (waiting s) (workers s) (time_now s) n (to_notify_all s) (crashed s).
Definition set_to_notify_all n s := EventsState (shutdown s) (ready s) (waiting s) (workers s) (time_now s) (to_notify s) n (crashed s).
Definition set_crashed s := EventsState (shutdown s) (ready s) (waiting s) (workers s) (time_now s) (to_notify s) (to_notify_all s) true.
Definition set_worker i w s := set_workers (<[i := w]> (workers s)) s.

(** A queue with [n] threads about to call [run], at the time [t]. *)
Definition new_Events (n : nat) (t : Z) : Events := EventsState false [] [] (replicate n Top) t 0 0 false.
Definition ready_size s : Z := Z.of_nat (length (ready s)).
Definition waiting_size s : Z := Z.of_nat (length (waiting s)).

(** ** The calls of the other threads, up to the notification *)

(** [t] is the time that the caller has read before it took the lock. *)
Definition schedule (t : Z) (f : option F) (priority : Z) s : Events :=
  set_to_notify (S (to_notify s)) (set_ready (multimap_insert priority_first (TP t priority, f) (ready s)) s).
Definition schedule_at (f : option F) (t priority : Z) s : Events :=
  set_to_notify (S (to_notify s)) (set_waiting (multimap_insert time_first (TP t priority, f) (waiting s)) s).
Definition stop s : Events := set_to_notify_all (S (to_notify_all s)) (set_shutdown s).

Definition sleeps (w : worker) : bool := match w with Asleep | TimedWait _ => true | _ => false end.
Definition wake (w : worker) : worker := match w with Asleep => Woken | TimedWait _ => TimedWoken | w => w end.
(** [notify_one] wakes one sleeper, if there is one. *)
Definition notify_one (who : option nat) s : option Events :=
  match who with
  | Some i => w ← workers s !! i; if sleeps w then Some (set_worker i (wake w) s) else None
  | None => if existsb sleeps (workers s) then None else Some s
  end.
Definition notify_all s : Events := set_workers (wake <$> workers s) s.

(** ** The worker *)

Inductive event := Started (i : nat) (e : entry).

Definition expire s : Events :=
  let '(w, r) := expired_to_ready (time_now s) (waiting s) (ready s) in set_ready r (set_waiting w s).
(** From the second loop on, with the lock held. *)
Definition dispatch (i : nat) s : Events * list event :=
  if shutdown s then (set_worker i Exited s, [])
  else match ready s with
       | e :: r => (set_worker i (Calling e.2) (set_ready r s), [Started i e])
       | [] => match waiting s with
               | (tp, _) :: _ => (set_worker i (TimedWait (tp_time tp)) s, [])
               | [] => (set_crashed s, [])
               end
       end.
(** From the first loop on. *)
Definition enter (i : nat) s : Events * list event :=
  if negb (shutdown s) && bool_decide (ready s = []) && bool_decide (waiting s = []) then (set_worker i Asleep s, [])
  else if shutdown s then (set_worker i Exited s, [])
  else dispatch i (expire s).
(** After [timed_wait]. *)
Definition timed_wait_returns (i : nat) s : Events * list event := dispatch i (expire s).

(** How a called function ends. *)
Inductive called := Returned | bad_alloc | std_exception | unknown_exception.
Definition after_call (r : called) : worker := match r with bad_alloc => Stopping | _ => Top end.

Definition run (i : nat) (w : worker) s : option (Events * list event) :=
  match w with
  | Top => Some (set_worker i (if shutdown s then Exited else Locking) s, [])
  | Locking | Woken => Some (enter i s)
  | TimedWoken => Some (timed_wait_returns i s)
  | Calling None => Some (set_worker i Top s, [])
  | Stopping => Some (set_worker i Notifying (set_shutdown s), [])
  | Notifying => Some (notify_all (set_worker i Top s), [])
  | Asleep | TimedWait _ | Calling (Some _) | Exited => None
  end.

(** ** Steps

    [Run i] is the next step of worker [i]; [Call i r] ends its function
    with [r]; [Timeout i] and [Spurious i] end its wait; [Clock t] is a
    change of the time. *)
Inductive label :=
| Run (i : nat) | Call (i : nat) (r : called) | Timeout (i : nat) | Spurious (i : nat)
| Schedule (t : Z) (f : option F) (priority : Z) | ScheduleAt (f : option F) (t priority : Z) | NotifyOne (who : option nat)
| Stop | NotifyAll | Clock (t : Z).

Definition step (l : label) s : option (Events * list event) :=
  if crashed s then None else
  match l with
  | Run i => w ← workers s !! i; run i w s
  | Call i r =>
      w ← workers s !! i;
      match w with Calling (Some _) => Some (set_worker i (after_call r) s, []) | _ => None end
  | Timeout i =>
      w ← workers s !! i;
      match w with TimedWait t => if bool_decide (t ≤ time_now s) then Some (set_worker i TimedWoken s, []) else None | _ => None end
  | Spurious i =>
      w ← workers s !! i;
      if sleeps w then Some (set_worker i (wake w) s, []) else None
  | Schedule t f p => Some (schedule t f p s, [])
  | ScheduleAt f t p => Some (schedule_at f t p s, [])
  | NotifyOne who =>
      match to_notify s with
      | O => None
      | S n => s' ← notify_one who s; Some (set_to_notify n s', [])
      end
  | Stop => Some (stop s, [])
  | NotifyAll =>
      match to_notify_all s with
      | O => None
      | S n => Some (set_to_notify_all n (notify_all s), [])
      end
  | Clock t => Some (set_time t s, [])
  end.

(** What goes on by itself: the workers, the notifications that are due and
    the waits whose time has come. *)
Definition working (l : label) : Prop :=
  match l with Run _ | Call _ _ | Timeout _ | NotifyOne _ | NotifyAll => True | _ => False end.
Definition work s s' : Prop := ∃ l e, working l ∧ step l s = Some (s', e).
End events.
Arguments entry : clear implicits.
Arguments worker : clear implicits.
Arguments Events : clear implicits.
Arguments event : clear implicits.
Arguments label : clear implicits.
