(* ===== verification/EventsProps.v ===== *)
(** * Lemmas about the event queue

    The two multimaps stay sorted and no event gets lost or doubled. *)

From Stdlib Require Import Sorting.Sorted.
From S2P Require Import Prelude Transition Events.

Section multimap.
Context {K V : Type} (comp : K → K → bool).
Implicit Types (v : K * V) (m : list (K * V)).

Lemma multimap_insert_perm v m : multimap_insert comp v m ≡ₚ v :: m.
Proof. induction m as [|x m IH]; cbn; [done|]. destruct (comp v.1 x.1); [done|]. rewrite IH. apply perm_swap. Qed.
Lemma insert_range_perm vs m : multimap_insert_range comp vs m ≡ₚ vs ++ m.
Proof.
  revert m. induction vs as [|v vs IH]; intros m; [done|]. cbn. unfold multimap_insert_range in IH. rewrite IH, multimap_insert_perm. by rewrite Permutation_middle.
Qed.
Lemma insert_head v m x m' : multimap_insert comp v m = x :: m' → x = v ∨ ∃ m'', m = x :: m''.
Proof. destruct m as [|y m]; cbn; [intros [= <- _]; by left|]. destruct (comp v.1 y.1); intros [= <- _]; [by left|right; eauto]. Qed.
Lemma insert_ne v m : multimap_insert comp v m ≠ [].
Proof. destruct m; cbn; [done|]. by destruct (comp _ _). Qed.

(** A comparison that goes with the order of the elements keeps it. *)
Context (R : K → K → Prop).
Abbreviation sorted m := (StronglySorted R m.*1).
Context (R_yes : ∀ x y z, comp x y = true → R y z → R x z) (R_here : ∀ x y, comp x y = true → R x y) (R_no : ∀ x y, comp x y = false → R y x).
Lemma multimap_insert_sorted v m : sorted m → sorted (multimap_insert comp v m).
Proof using R_yes R_here R_no.
  induction m as [|x m IH]; cbn; intros Hm; [by repeat constructor|]. apply StronglySorted_inv in Hm as [Hm Hx].
  destruct (comp v.1 x.1) eqn:E; cbn.
  - constructor; [by constructor|]. constructor; [by apply R_here|]. eapply Forall_impl; [exact Hx|]. intros z. by apply R_yes.
  - constructor; [by apply IH|]. change (Forall (R x.1) (multimap_insert comp v m).*1).
    rewrite (fmap_Permutation fst _ _ (multimap_insert_perm v m)). constructor; [by apply R_no|done].
Qed.
Lemma insert_range_sorted vs m : sorted m → sorted (multimap_insert_range comp vs m).
Proof using R_yes R_here R_no. revert m. induction vs as [|v vs IH]; intros m Hm; [done|]. apply IH. by apply multimap_insert_sorted. Qed.
End multimap.

(** ** The two orders *)
Definition by_time (x y : TimePriority) : Prop := tp_time x ≤ tp_time y.
Definition by_priority (x y : TimePriority) : Prop := priority_first y x = false.

Lemma time_insert_sorted {V} (v : TimePriority * V) m : StronglySorted by_time m.*1 → StronglySorted by_time (multimap_insert time_first v m).*1.
Proof. unfold by_time, time_first. apply multimap_insert_sorted; [intros x y z|intros x y..]; rewrite ?bool_decide_eq_true, ?bool_decide_eq_false; lia. Qed.

Lemma priority_first_spec x y : priority_first x y = true ↔ tp_priority x < tp_priority y ∨ tp_priority x = tp_priority y ∧ tp_time x < tp_time y.
Proof. unfold priority_first. by rewrite orb_true_iff, andb_true_iff, !bool_decide_eq_true. Qed.
Lemma by_priority_spec x y : by_priority x y ↔ ¬ (tp_priority y < tp_priority x ∨ tp_priority y = tp_priority x ∧ tp_time y < tp_time x).
Proof. unfold by_priority. rewrite <- priority_first_spec. by destruct (priority_first y x). Qed.
Section priority.
Context {V : Type}.
Implicit Types m : list (TimePriority * V).

Lemma priority_range_sorted vs m : StronglySorted by_priority m.*1 → StronglySorted by_priority (multimap_insert_range priority_first vs m).*1.
Proof.
  apply insert_range_sorted; [intros x y z|intros x y..].
  - rewrite priority_first_spec, !by_priority_spec. lia.
  - rewrite priority_first_spec, by_priority_spec. lia.
  - intros E. apply by_priority_spec. intros H. by apply priority_first_spec in H; rewrite H in E.
Qed.
Lemma priority_insert_sorted v m : StronglySorted by_priority m.*1 → StronglySorted by_priority (multimap_insert priority_first v m).*1.
Proof. apply (priority_range_sorted [v]). Qed.

(** What has expired, and what has not. *)
Lemma lower_bound_expired now m : Forall (λ x, tp_time x.1 ≤ now) (take (lower_bound time_first (TP now 0) m) m).
Proof.
  induction m as [|x m IH]; cbn; [constructor|]. destruct (time_first x.1 (TP now 0)) eqn:E; cbn; constructor; [|done].
  by apply bool_decide_eq_true in E.
Qed.
Lemma lower_bound_head now m x m' : drop (lower_bound time_first (TP now 0) m) m = x :: m' → now < tp_time x.1.
Proof.
  induction m as [|y m IH]; cbn; [done|]. destruct (time_first y.1 (TP now 0)) eqn:E; cbn; [done|]. intros [= <- _].
  apply bool_decide_eq_false in E. cbn in E. lia.
Qed.
Lemma sorted_after now x m : StronglySorted by_time (x :: m).*1 → now < tp_time x.1 → Forall (λ y, now < tp_time y.1) (x :: m).
Proof.
  intros [_ Hx]%StronglySorted_inv Hn. constructor; [done|]. change (Forall (by_time x.1) m.*1) in Hx. rewrite Forall_fmap in Hx.
  eapply Forall_impl; [exact Hx|]. unfold by_time. cbn. lia.
Qed.
Lemma drop_sorted (R : TimePriority → TimePriority → Prop) n m : StronglySorted R m.*1 → StronglySorted R (drop n m).*1.
Proof. revert m. induction n as [|n IH]; intros [|x m] H; cbn; try done. apply StronglySorted_inv in H as [H _]. by apply IH. Qed.
End priority.

Section events.
Context {F : Type}.
Implicit Types (s : Events F) (l : label F) (e : entry F).

(** ** The events of a state *)
Definition pending s : list (entry F) := ready s ++ waiting s.
Definition started (es : list (event F)) : list (entry F) := (λ '(Started _ e), e) <$> es.
Definition adds l : list (entry F) :=
  match l with Schedule t f p => [(TP t p, f)] | ScheduleAt f t p => [(TP t p, f)] | _ => [] end.
Definition scheduled (ls : list (label F)) : list (entry F) := concat (adds <$> ls).

Record sorted s : Prop := {
  ready_sorted : StronglySorted by_priority (ready s).*1;
  waiting_sorted : StronglySorted by_time (waiting s).*1
}.

Lemma expire_pending s : pending (expire s) ≡ₚ pending s.
Proof.
  unfold expire, expired_to_ready, pending. cbn. rewrite insert_range_perm.
  by rewrite (Permutation_app_comm (take _ _) (ready s)), <- app_assoc, take_drop.
Qed.
Lemma expire_sorted s : sorted s → sorted (expire s).
Proof. intros [Hr Hw]. split; cbn; [by apply priority_range_sorted|by apply drop_sorted]. Qed.
Lemma expire_later s : sorted s → Forall (λ y, time_now s < tp_time y.1) (waiting (expire s)).
Proof.
  intros [_ Hw]%expire_sorted. cbn in *. destruct (drop _ _) as [|x m] eqn:E; [constructor|].
  apply sorted_after; [done|]. by apply lower_bound_head in E.
Qed.
Lemma expire_same s : shutdown (expire s) = shutdown s ∧ workers (expire s) = workers s ∧ time_now (expire s) = time_now s ∧
  to_notify (expire s) = to_notify s ∧ to_notify_all (expire s) = to_notify_all s ∧ crashed (expire s) = crashed s.
Proof. done. Qed.

(** ** Steps *)

(** What the section from the second loop on does. *)
Variant dispatched (i : nat) s : Events F → list (event F) → Prop :=
| dispatched_exit : shutdown s = true → dispatched i s (set_worker i Exited s) []
| dispatched_call e r : shutdown s = false → ready s = e :: r → dispatched i s (set_worker i (Calling e.2) (set_ready r s)) [Started i e]
| dispatched_wait tp f w : shutdown s = false → ready s = [] → waiting s = (tp, f) :: w → dispatched i s (set_worker i (TimedWait (tp_time tp)) s) []
| dispatched_crash : shutdown s = false → ready s = [] → waiting s = [] → dispatched i s (set_crashed s) [].
Lemma dispatch_cases i s : dispatched i s (dispatch i s).1 (dispatch i s).2.
Proof.
  unfold dispatch. destruct (shutdown s) eqn:Hs; [by constructor|]. destruct (ready s) as [|e r] eqn:Hr; [|by constructor].
  destruct (waiting s) as [|[tp f] w] eqn:Hw; [by constructor|by econstructor].
Qed.

(** The sections of a worker that takes the lock: to sleep, to leave, or to go on. *)
Variant section (i : nat) s : Events F → list (event F) → Prop :=
| section_sleep : shutdown s = false → ready s = [] → waiting s = [] → section i s (set_worker i Asleep s) []
| section_exit : shutdown s = true → section i s (set_worker i Exited s) []
| section_dispatch s' es : dispatched i (expire s) s' es → section i s s' es.
Lemma enter_cases i s : section i s (enter i s).1 (enter i s).2.
Proof.
  unfold enter. destruct (shutdown s) eqn:Hs; cbn; [by apply section_exit|].
  repeat case_bool_decide; cbn; [by constructor|apply section_dispatch, dispatch_cases..].
Qed.
(** When [enter] goes on there is an event. *)
Lemma enter_dispatches i s : shutdown s = false → enter i s = (set_worker i Asleep s, []) ∧ ready s = [] ∧ waiting s = [] ∨ enter i s = dispatch i (expire s) ∧ pending s ≠ [].
Proof.
  intros Hs. unfold enter, pending. rewrite Hs. cbn. repeat case_bool_decide; cbn; [by left|right..]; (split; [done|]); intros [??]%app_eq_nil; done.
Qed.

Lemma dispatched_pending i s s' es : dispatched i s s' es → pending s = started es ++ pending s'.
Proof. intros [Hs|e r Hs Hr|tp f w Hs Hr Hw|Hs Hr Hw]; unfold pending; cbn; rewrite ?Hr; done. Qed.
Lemma dispatched_sorted i s s' es : dispatched i s s' es → sorted s → sorted s'.
Proof.
  intros [Hs|e r Hs Hr|tp f w Hs Hr Hw|Hs Hr Hw] [Sr Sw]; split; cbn; try done. rewrite Hr in Sr. by apply StronglySorted_inv in Sr as [? _].
Qed.
Lemma section_pending i s s' es : section i s s' es → pending s ≡ₚ started es ++ pending s'.
Proof. intros [Hs Hr Hw|Hs|s1 e1 Hd]; try done. by rewrite <- expire_pending, (dispatched_pending _ _ _ _ Hd). Qed.
Lemma section_sorted i s s' es : section i s s' es → sorted s → sorted s'.
Proof. intros [Hs Hr Hw|Hs|s1 e1 Hd] H; try by destruct H. by eapply dispatched_sorted; [|apply expire_sorted]. Qed.

(** A step that moves one worker and nothing else. *)
Variant moves s : label F → nat → worker F → worker F → Prop :=
| moves_top i : moves s (Run i) i Top (if shutdown s then Exited else Locking)
| moves_empty i : moves s (Run i) i (Calling None) Top
| moves_call i f r : moves s (Call i r) i (Calling (Some f)) (after_call r)
| moves_timeout i t : t ≤ time_now s → moves s (Timeout i) i (TimedWait t) TimedWoken
| moves_spurious i w : sleeps w = true → moves s (Spurious i) i w (wake w).

(** All the steps there are. *)
Variant stepped s : label F → Events F → list (event F) → Prop :=
| stepped_enter i w : workers s !! i = Some w → w = Locking ∨ w = Woken → stepped s (Run i) (enter i s).1 (enter i s).2
| stepped_timed i : workers s !! i = Some TimedWoken → stepped s (Run i) (dispatch i (expire s)).1 (dispatch i (expire s)).2
| stepped_move l i w w' : workers s !! i = Some w → moves s l i w w' → stepped s l (set_worker i w' s) []
| stepped_stopping i : workers s !! i = Some Stopping → stepped s (Run i) (set_worker i Notifying (set_shutdown s)) []
| stepped_notifying i : workers s !! i = Some Notifying → stepped s (Run i) (notify_all (set_worker i Top s)) []
| stepped_schedule t f p : stepped s (Schedule t f p) (schedule t f p s) []
| stepped_schedule_at f t p : stepped s (ScheduleAt f t p) (schedule_at f t p s) []
| stepped_notify i w n : to_notify s = S n → workers s !! i = Some w → sleeps w = true → stepped s (NotifyOne (Some i)) (set_to_notify n (set_worker i (wake w) s)) []
| stepped_notify_none n : to_notify s = S n → existsb sleeps (workers s) = false → stepped s (NotifyOne None) (set_to_notify n s) []
| stepped_stop : stepped s Stop (stop s) []
| stepped_notify_all n : to_notify_all s = S n → stepped s NotifyAll (set_to_notify_all n (notify_all s)) []
| stepped_clock t : stepped s (Clock t) (set_time t s) [].

Lemma step_running l s s' es : step l s = Some (s', es) → crashed s = false.
Proof. unfold step. by destruct (crashed s). Qed.
Lemma run_stepped i w s s' es : workers s !! i = Some w → run i w s = Some (s', es) → stepped s (Run i) s' es.
Proof.
  intros Hi H. destruct w as [| | | |t| |[f|]| | |]; cbn in H; try discriminate H; try (injection H as <- <-).
  - by apply (stepped_move s _ i Top); [|constructor].
  - injection H as E. pose proof (stepped_enter s i Locking Hi (or_introl eq_refl)) as Hc. by rewrite E in Hc.
  - injection H as E. pose proof (stepped_enter s i Woken Hi (or_intror eq_refl)) as Hc. by rewrite E in Hc.
  - injection H as E. pose proof (stepped_timed s i Hi) as Hc. unfold timed_wait_returns in E. by rewrite E in Hc.
  - by apply (stepped_move s _ i (Calling None)); [|constructor].
  - by constructor.
  - by constructor.
Qed.
Lemma step_stepped l s s' es : step l s = Some (s', es) → stepped s l s' es.
Proof.
  intros H. unfold step in H. destruct (crashed s); [done|].
  destruct l as [i|i r|i|i|t f p|f t p|who| | |t]; repeat (apply bind_Some in H as (? & ? & H)); try by injection H as <- <-; constructor.
  - by eapply run_stepped.
  - destruct x as [| | | |?| |[f|]| | |]; try done. injection H as <- <-. by eapply stepped_move; [|constructor].
  - destruct x; try done. case_bool_decide; [|done]. injection H as <- <-. by eapply stepped_move; [|constructor].
  - destruct (sleeps x) eqn:E; [|done]. injection H as <- <-. by eapply stepped_move; [|constructor].
  - destruct (to_notify s) eqn:En; [done|]. apply bind_Some in H as (s1 & H1 & H). injection H as <- <-. destruct who as [i|]; cbn in H1.
    + apply bind_Some in H1 as (w & Hw & H1). destruct (sleeps w) eqn:E; [|done]. injection H1 as <-. by apply stepped_notify.
    + destruct (existsb sleeps (workers s)) eqn:E; [done|]. injection H1 as <-. by apply stepped_notify_none.
  - destruct (to_notify_all s) eqn:En; [done|]. injection H as <- <-. by constructor.
Qed.

Lemma stepped_timed_section i s : section i s (dispatch i (expire s)).1 (dispatch i (expire s)).2.
Proof. apply section_dispatch, dispatch_cases. Qed.
#[local] Hint Resolve enter_cases stepped_timed_section : core.

Lemma step_pending l s s' es : step l s = Some (s', es) → adds l ++ pending s ≡ₚ started es ++ pending s'.
Proof.
  intros H%step_stepped. destruct H as [| |? ? ? ? ? Hm| | | | | | | | |]; try done; try by apply section_pending with (1 := enter_cases _ _) || eapply section_pending, stepped_timed_section.
  - by destruct Hm.
  - unfold pending. cbn. by rewrite multimap_insert_perm.
  - unfold pending. cbn. rewrite multimap_insert_perm. apply Permutation_middle.
Qed.
Lemma step_sorted l s s' es : step l s = Some (s', es) → sorted s → sorted s'.
Proof.
  intros H%step_stepped Hs. destruct H; try by destruct Hs; split.
  - by eapply section_sorted; [apply enter_cases|].
  - by eapply section_sorted; [apply stepped_timed_section|].
  - destruct Hs. split; cbn; [by apply priority_insert_sorted|done].
  - destruct Hs. split; cbn; [done|by apply time_insert_sorted].
Qed.

Lemma started_app es es' : started (es ++ es') = started es ++ started es'.
Proof. apply fmap_app. Qed.
Lemma scheduled_app ls ls' : scheduled (ls ++ ls') = scheduled ls ++ scheduled ls'.
Proof. unfold scheduled. by rewrite fmap_app, concat_app. Qed.

Lemma new_sorted n t : sorted (new_Events n t).
Proof. split; constructor. Qed.
Lemma reach_sorted s0 ls es s : sorted s0 → reach step s0 ls es s → sorted s.
Proof. intros H0. induction 1 as [|ls es s l s' e _ IH Hs]; [done|]. by eapply step_sorted. Qed.
Lemma reach_pending n t ls es s : reach step (new_Events n t) ls es s → scheduled ls ≡ₚ started es ++ pending s.
Proof.
  induction 1 as [|ls es s l s' e _ IH Hs]; [done|]. rewrite scheduled_app, started_app, IH, <- !app_assoc, <- (step_pending _ _ _ _ Hs).
  unfold scheduled. cbn. rewrite app_nil_r. f_equiv. apply Permutation_app_comm.
Qed.

(** ** No event before its time *)

(** The latest time that was read before. *)
Definition reads_time l : option Z := match l with Clock t => Some t | Schedule t _ _ => Some t | _ => None end.
Definition latest (t0 : Z) (ls : list (label F)) : Z := foldl Z.max t0 (omap reads_time ls).
Lemma latest_snoc t0 ls l : latest t0 (ls ++ [l]) = match reads_time l with Some t => Z.max (latest t0 ls) t | None => latest t0 ls end.
Proof. unfold latest. rewrite omap_app, foldl_app. cbn. by destruct (reads_time l). Qed.

Definition due (t : Z) s : Prop := time_now s ≤ t ∧ Forall (λ y, tp_time y.1 ≤ t) (ready s).
Lemma due_mono t t' s : t ≤ t' → due t s → due t' s.
Proof. intros Hle [Hn Hf]. split; [lia|]. eapply Forall_impl; [exact Hf|]. cbn. lia. Qed.
Lemma expire_due t s : due t s → due t (expire s).
Proof.
  intros [Hn Hf]. split; [done|]. cbn. rewrite insert_range_perm. apply Forall_app. split; [|done].
  eapply Forall_impl; [apply lower_bound_expired|]. cbn. lia.
Qed.
Lemma dispatched_due t i s s' es : dispatched i s s' es → due t s → due t s' ∧ Forall (λ y, tp_time y.1 ≤ t) (started es).
Proof.
  intros [Hs|e r Hs Hr|tp f w Hs Hr Hw|Hs Hr Hw] [Hn Hf]; cbn; try by split; [|constructor].
  rewrite Hr in Hf. inversion Hf; subst. by split; [|constructor; [|constructor]].
Qed.
Lemma section_due t i s s' es : section i s s' es → due t s → due t s' ∧ Forall (λ y, tp_time y.1 ≤ t) (started es).
Proof. intros [Hs Hr Hw|Hs|s1 e1 Hd] H; [by split; [|constructor]..|]. by eapply dispatched_due; [|apply expire_due]. Qed.
Lemma step_due t l s s' es : step l s = Some (s', es) → due t s →
  due (match reads_time l with Some t' => Z.max t t' | None => t end) s' ∧ Forall (λ y, tp_time y.1 ≤ t) (started es).
Proof.
  intros H%step_stepped Hd. destruct H as [| |? ? ? ? ? Hm| | |t' f p|f t' p| | | | |t']; cbn [reads_time]; try (split; [done|constructor]).
  - by eapply section_due; [apply enter_cases|].
  - by eapply section_due; [apply stepped_timed_section|].
  - split; [destruct Hm; done|constructor].
  - split; [|constructor]. destruct Hd as [Hn Hf]. split; cbn; [lia|]. rewrite multimap_insert_perm. constructor; [cbn; lia|].
    eapply Forall_impl; [exact Hf|]. cbn. lia.
  - split; [|constructor]. destruct Hd as [Hn Hf]. split; cbn; [lia|]. eapply Forall_impl; [exact Hf|]. cbn. lia.
Qed.
Lemma reach_due n t ls es s : reach step (new_Events n t) ls es s → due (latest t ls) s.
Proof.
  induction 1 as [|ls es s l s' e _ IH Hs]; [by split|]. rewrite latest_snoc. apply (step_due _ _ _ _ _ Hs IH).
Qed.
End events.
