(* ===== verification/EventsSpec.v ===== *)
(** * What the event queue promises

    Every event is called once, in the order of priorities and not before
    its time; no event and no stop is lost; one worker is safe, and two are
    not. *)

From Stdlib Require Import Sorting.Sorted.
From S2P Require Import Prelude Transition Events EventsProps.

(** * Runs of the event queue

    An event that is there has a worker or a notification on its way; the
    steps of the workers come to an end. *)

Section runs.
Context {F : Type}.
Implicit Types (s : Events F) (l : label F) (ws : list (worker F)).

(** ** Who will look at the events *)
Definition active (w : worker F) : Prop := sleeps w = false ∧ w ≠ Exited.
Definition awake ws : Prop := ∃ w, w ∈ ws ∧ active w.
Definition watched ws (x : entry F) : Prop := ∃ t, TimedWait t ∈ ws ∧ t ≤ tp_time x.1.

Lemma wake_active w : sleeps w = true → active (wake w).
Proof. by destruct w. Qed.
Lemma active_or w : w = Exited ∨ sleeps w = true ∨ active w.
Proof. unfold active. destruct w; cbn; auto. Qed.
Lemma awake_insert ws i w w' : ws !! i = Some w → active w' → awake (<[i := w']> ws).
Proof. intros Hi Hw. exists w'. split; [|done]. eapply list_elem_of_lookup_2, list_lookup_insert_eq. by eapply lookup_lt_Some. Qed.
Lemma wake_awake ws : ws ≠ [] → Exited ∉ ws → awake (wake <$> ws).
Proof.
  destruct ws as [|w ws]; [done|]. intros _ [Hw _]%not_elem_of_cons. exists (wake w). split; [apply list_elem_of_here|].
  destruct (active_or w) as [->|[Hs|Ha]]; [done|by apply wake_active|]. destruct w, Ha; done.
Qed.
Lemma insert_not_exited ws i w' : w' ≠ Exited → (Exited ∉ ws) → Exited ∉ <[i := w']> ws.
Proof. intros Hw Hn [k Hk]%list_elem_of_lookup. apply list_lookup_insert_Some in Hk as [(_ & E & _)|[_ Hk]]; [congruence|]. by apply Hn, list_elem_of_lookup_2 with k. Qed.

(** While nobody stops the queue no worker has left; after a stop nobody
    sleeps, or will not for long. *)
Record posted s : Prop := {
  some_worker : workers s ≠ [];
  none_left : shutdown s = false → Exited ∉ workers s;
  stop_heard : shutdown s = true → Forall (λ w, sleeps w = false) (workers s) ∨ (0 < to_notify_all s)%nat ∨ Notifying ∈ workers s
}.
(** The events are looked at: by a worker that is up, by one that a due
    notification will wake, or at their time. *)
Record covered s : Prop := {
  covered_posted : posted s;
  looked_at : shutdown s = false → crashed s = false →
    awake (workers s) ∨ (0 < to_notify s)%nat ∨ ready s = [] ∧ ∀ x m, waiting s = x :: m → watched (workers s) x
}.

Lemma insert_ne_nil ws i (w : worker F) : ws ≠ [] → <[i := w]> ws ≠ [].
Proof. intros H E%(f_equal length). rewrite length_insert in E. by destruct ws. Qed.
Lemma not_notifying ws i (w w' : worker F) : ws !! i = Some w → w ≠ Notifying → Notifying ∈ ws → Notifying ∈ <[i := w']> ws.
Proof.
  intros Hi Hw [k Hk]%list_elem_of_lookup. apply list_elem_of_lookup_2 with k. rewrite list_lookup_insert_ne; [done|]. intros ->. congruence.
Qed.

(** A worker that moves and does not go to sleep, one that leaves, and one
    that goes to sleep. *)
Lemma covered_active s i w w' : workers s !! i = Some w → active w' → w ≠ Notifying → posted s → covered (set_worker i w' s).
Proof.
  intros Hi [Hs He] Hw [H1 H2 H4]. split; [split|]; cbn.
  - by apply insert_ne_nil.
  - intros Hsd. by apply insert_not_exited; [|apply H2].
  - intros Hsd. destruct (H4 Hsd) as [Hf|[Hn|Hn]]; [left; by apply Forall_insert|by right; left|right; right; by eapply not_notifying].
  - intros _ _. left. by eapply awake_insert.
Qed.
Lemma covered_exit s i w : workers s !! i = Some w → w ≠ Notifying → shutdown s = true → posted s → covered (set_worker i Exited s).
Proof.
  intros Hi Hw Hsd [H1 H2 H4]. split; [split|]; cbn; try congruence; [by apply insert_ne_nil|].
  intros _. destruct (H4 Hsd) as [Hf|[Hn|Hn]]; [left; by apply Forall_insert|by right; left|right; right; by eapply not_notifying].
Qed.
Lemma covered_sleep s i w w' : workers s !! i = Some w → shutdown s = false → w' ≠ Exited → ready s = [] → (∀ x m, waiting s = x :: m → w' = TimedWait (tp_time x.1)) →
  posted s → covered (set_worker i w' s).
Proof.
  intros Hi Hsd Hw' Hr Hw [H1 H2 H4]. split; [split|]; cbn; try congruence.
  - by apply insert_ne_nil.
  - intros _. by apply insert_not_exited; [|apply H2].
  - intros _ _. right; right. split; [done|]. intros x m E. exists (tp_time x.1). split; [|lia]. rewrite <- (Hw _ _ E).
    eapply list_elem_of_lookup_2, list_lookup_insert_eq. by eapply lookup_lt_Some.
Qed.
Lemma covered_dispatched i w s s' es : workers s !! i = Some w → w ≠ Notifying → posted s → dispatched i s s' es → covered s'.
Proof.
  intros Hi Hw Hc [Hs|e r Hs Hr|tp f m Hs Hr Hm|Hs Hr Hm].
  - by eapply covered_exit.
  - apply (covered_active (set_ready r s) i w); [done|done|done|]. by destruct Hc.
  - eapply covered_sleep; eauto. intros x m' E. rewrite Hm in E. by injection E as <- <-.
  - split; [by destruct Hc|done].
Qed.
Lemma covered_section i w s s' es : workers s !! i = Some w → w ≠ Notifying → posted s → section i s s' es → covered s'.
Proof.
  intros Hi Hw Hc [Hs Hr Hm|Hs|s1 e1 Hd].
  - eapply covered_sleep; eauto. intros x m E. by rewrite Hm in E.
  - by eapply covered_exit.
  - eapply (covered_dispatched i w (expire s)); eauto. by destruct Hc.
Qed.
(** All sleepers are woken up. *)
Lemma covered_notify_all s n : workers s ≠ [] → (shutdown s = false → Exited ∉ workers s) → covered (set_to_notify_all n (notify_all s)).
Proof.
  intros H1 H2. assert (Forall (λ w : worker F, sleeps w = false) (wake <$> workers s)) as Hf.
  { apply Forall_fmap, Forall_true. by intros []. }
  split; [split|]; cbn.
  - by destruct (workers s).
  - intros Hsd (w & E & Hin)%list_elem_of_fmap. destruct w; try done. by apply (H2 Hsd).
  - by left.
  - intros Hsd _. left. apply wake_awake; auto.
Qed.

Lemma step_covered l s s' es : covered s → step l s = Some (s', es) → covered s'.
Proof.
  intros [Hp Hl] H%step_stepped. destruct H as [i w Hi Hw|i Hi|l i w w' Hi Hm|i Hi|i Hi|t f p|f t p|i w n Hn Hi Hs|n Hn Hs| |n Hn|t].
  - eapply covered_section; [exact Hi|by destruct Hw; subst|done|apply enter_cases].
  - eapply covered_section; [exact Hi|done|done|apply stepped_timed_section].
  - destruct Hm; try (eapply covered_active; [exact Hi|by try destruct r|done|done]).
    + destruct (shutdown s) eqn:Hsd; [by eapply covered_exit|by eapply covered_active].
    + eapply covered_active; [exact Hi|by apply wake_active|by intros ->|done].
  - destruct Hp as [H1 H2 H4]. split; [split|]; cbn; try done; [by apply insert_ne_nil|]. intros _. right; right.
    eapply list_elem_of_lookup_2, list_lookup_insert_eq. by eapply lookup_lt_Some.
  - apply (covered_notify_all (set_worker i Top s) (to_notify_all s)); cbn; destruct Hp as [H1 H2 H4]; [by apply insert_ne_nil|].
    intros Hsd. by apply insert_not_exited; [|apply H2].
  - destruct Hp as [H1 H2 H4]. split; [by split|]. cbn. right; left. lia.
  - destruct Hp as [H1 H2 H4]. split; [by split|]. cbn. right; left. lia.
  - apply (covered_active (set_to_notify n s) i w); [done|by apply wake_active|by intros ->|by destruct Hp].
  - split; [by destruct Hp|]. intros Hsd _. left. destruct Hp as [H1 H2 _]. destruct (workers s) as [|w ws] eqn:E; [done|].
    exists w. cbn. rewrite E. split; [apply list_elem_of_here|]. cbn in Hs. apply orb_false_elim in Hs as [Hs _].
    split; [done|]. intros ->. apply (H2 Hsd), list_elem_of_here.
  - destruct Hp as [H1 H2 H4]. split; [split|]; cbn; try done. right; left. lia.
  - destruct Hp. by apply covered_notify_all.
  - by split; [destruct Hp|].
Qed.

Lemma new_covered n t : (0 < n)%nat → covered (new_Events n t).
Proof.
  intros Hn. destruct n as [|n]; [lia|]. split; [split|]; cbn; try done.
  - intros _ [E|[E _]%elem_of_replicate]%elem_of_cons; discriminate E.
  - intros _ _. left. exists Top. split; [apply list_elem_of_here|done].
Qed.
Lemma reach_covered s0 ls es s : covered s0 → reach step s0 ls es s → covered s.
Proof. intros H0. induction 1 as [|ls es s l s' e _ IH Hs]; [done|]. by eapply step_covered. Qed.

(** ** Where the workers come to rest *)

Definition rests (now : Z) (w : worker F) : Prop := w = Asleep ∨ w = Exited ∨ ∃ t, w = TimedWait t ∧ now < t.
Lemma rests_or now w : rests now w ∨ ¬ rests now w.
Proof.
  unfold rests. destruct w as [| | | |t| | | | |]; try (right; intros [E|[E|(? & E & _)]]; discriminate E); auto.
  destruct (decide (now < t)); [left; right; right; eauto|]. right. intros [E|[E|(t' & E & Ht)]]; [done|done|]. by injection E as <-.
Qed.
Lemma can_run s i w : crashed s = false → workers s !! i = Some w → ¬ rests (time_now s) w → ∃ s', work s s'.
Proof.
  intros Hx Hi Hr. assert (∀ s' es, run i w s = Some (s', es) → ∃ s', work s s') as Hrun.
  { intros s' es H. exists s', (Run i), es. split; [done|]. unfold step. rewrite Hx, Hi. exact H. }
  destruct w as [| | | |t| |[f|]| | |]; try (eapply Hrun; cbn; rewrite (surjective_pairing (_ _ _)); reflexivity); try (eapply Hrun; reflexivity).
  - destruct Hr. by left.
  - destruct (decide (t ≤ time_now s)); [|destruct Hr; right; right; exists t; split; [done|lia]].
    eexists _, (Timeout i), _. split; [done|]. unfold step. rewrite Hx, Hi. cbn. by rewrite bool_decide_true.
  - eexists _, (Call i Returned), _. split; [done|]. unfold step. rewrite Hx, Hi. reflexivity.
  - destruct Hr. by right; left.
Qed.
Lemma can_notify s : crashed s = false → (0 < to_notify s)%nat → ∃ s', work s s'.
Proof.
  intros Hx Hn. destruct (to_notify s) as [|n] eqn:En; [lia|]. destruct (existsb sleeps (workers s)) eqn:E.
  - apply existsb_exists in E as (w & [i Hi]%list_elem_of_In%list_elem_of_lookup & Hw).
    eexists _, (NotifyOne (Some i)), _. split; [done|]. unfold step. rewrite Hx, En. cbn. rewrite Hi. cbn. by rewrite Hw.
  - eexists _, (NotifyOne None), _. split; [done|]. unfold step. rewrite Hx, En. cbn. by rewrite E.
Qed.
Lemma can_notify_all s : crashed s = false → (0 < to_notify_all s)%nat → ∃ s', work s s'.
Proof.
  intros Hx Hn. destruct (to_notify_all s) as [|n] eqn:En; [lia|]. eexists _, NotifyAll, _. split; [done|]. unfold step. by rewrite Hx, En.
Qed.

Lemma at_rest s : crashed s = false → (∀ s', ¬ work s s') → Forall (rests (time_now s)) (workers s) ∧ to_notify s = 0%nat ∧ to_notify_all s = 0%nat.
Proof.
  intros Hx Hend. split; [|split].
  - apply Forall_lookup. intros i w Hi. destruct (rests_or (time_now s) w) as [|Hn]; [done|].
    by destruct (can_run s i w Hx Hi Hn) as [s' []%Hend].
  - destruct (to_notify s) eqn:E; [done|]. destruct (can_notify s Hx) as [s' []%Hend]. lia.
  - destruct (to_notify_all s) eqn:E; [done|]. destruct (can_notify_all s Hx) as [s' []%Hend]. lia.
Qed.

(** ** The steps that are left *)

Definition weight (n : nat) (now : Z) (w : worker F) : nat :=
  match w with
  | Asleep | Exited => 0
  | TimedWait t => if bool_decide (t ≤ now) then 3 else 0
  | Locking | Woken | TimedWoken => 2
  | Top => 3
  | Notifying => 4 + 3 * n
  | Stopping => 5 + 3 * n
  | Calling _ => 6 + 3 * n
  end.
Definition total n now ws : nat := sum_list_with (weight n now) ws.
Definition measure s : nat :=
  let n := length (workers s) in
  (6 + 3 * n) * length (pending s) + total n (time_now s) (workers s) + 3 * to_notify s + (1 + 3 * n) * to_notify_all s + (if crashed s then 0 else 1).

Lemma total_insert n now ws i w w' : ws !! i = Some w → (total n now (<[i := w']> ws) + weight n now w = total n now ws + weight n now w')%nat.
Proof. apply sum_list_with_insert. Qed.
Lemma weight_wake n now w : (weight n now (wake w) ≤ weight n now w + 2)%nat.
Proof. destruct w; cbn; try case_bool_decide; lia. Qed.
Lemma total_woken n now ws : (total n now (wake <$> ws) ≤ total n now ws + 2 * length ws)%nat.
Proof. induction ws as [|w ws IH]; [done|]. unfold total in *. cbn. pose proof (weight_wake n now w). lia. Qed.
Lemma length_expire s : length (pending (expire s)) = length (pending s).
Proof. apply Permutation_length, expire_pending. Qed.

(** A worker that moves, with the events it takes. *)
Lemma move_decreases s s' i w w' : workers s !! i = Some w → workers s' = <[i := w']> (workers s) → time_now s' = time_now s →
  to_notify s' = to_notify s → to_notify_all s' = to_notify_all s → crashed s' = crashed s →
  let n := length (workers s) in
  ((6 + 3 * n) * length (pending s') + weight n (time_now s) w' < (6 + 3 * n) * length (pending s) + weight n (time_now s) w)%nat → (measure s' < measure s)%nat.
Proof.
  intros Hi Hw Ht H1 H2 H3 n Hlt. unfold measure. rewrite Hw, Ht, H1, H2, H3, length_insert. fold n.
  pose proof (total_insert n (time_now s) (workers s) i w w' Hi). lia.
Qed.
Lemma dispatched_decreases i s s' es w : workers s !! i = Some w → weight (length (workers s)) (time_now s) w = 2%nat → crashed s = false →
  (∀ x m, waiting s = x :: m → time_now s < tp_time x.1) → dispatched i s s' es → (measure s' < measure s)%nat.
Proof.
  intros Hi Hw Hx Hlater [Hs|e r Hs Hr|tp f m Hs Hr Hm|Hs Hr Hm]; try (eapply move_decreases; [exact Hi|reflexivity..|]; cbn zeta; rewrite Hw).
  - unfold pending. cbn -[Nat.mul]. lia.
  - unfold pending. cbn [set_worker set_workers set_ready ready waiting]. rewrite Hr. cbn [weight length app]. rewrite Nat.mul_succ_r. lia.
  - cbn [weight]. rewrite bool_decide_false by (pose proof (Hlater _ _ Hm) as Hl; cbn in Hl; lia). unfold pending. cbn -[Nat.mul]. lia.
  - unfold measure, pending. rewrite Hx. cbn [set_crashed workers ready waiting time_now to_notify to_notify_all crashed]. lia.
Qed.
Lemma measure_expire s : measure (expire s) = measure s.
Proof. unfold measure. by rewrite length_expire. Qed.
Lemma section_decreases i s s' es w : workers s !! i = Some w → weight (length (workers s)) (time_now s) w = 2%nat → crashed s = false →
  section i s s' es → (measure s' < measure s)%nat.
Proof.
  intros Hi Hw Hx [Hs Hr Hm|Hs|s1 e1 Hd]; try (eapply move_decreases; [exact Hi|reflexivity..|]; cbn zeta; rewrite Hw; unfold pending; cbn -[Nat.mul]; lia).
  rewrite <- (measure_expire s). eapply (dispatched_decreases i (expire s)); eauto. intros x m E. cbn in E. by apply lower_bound_head in E.
Qed.

Lemma event_work_decreases l s s' es : working l → step l s = Some (s', es) → (measure s' < measure s)%nat.
Proof.
  intros Hl H. pose proof (step_running _ _ _ _ H) as Hx. apply step_stepped in H.
  destruct H as [i w Hi Hw|i Hi|l i w w' Hi Hm|i Hi|i Hi|t f p|f t p|i w n Hn Hi Hs|n Hn Hs| |n Hn|t]; try done.
  - eapply section_decreases; [exact Hi|by destruct Hw; subst|done|apply enter_cases].
  - eapply section_decreases; [exact Hi|done|done|apply stepped_timed_section].
  - eapply move_decreases; [exact Hi|reflexivity..|]. cbn zeta. unfold pending. cbn [set_worker set_workers ready waiting].
    destruct Hm as [i|i|i f r|i t Ht|i w Hs]; cbn [weight]; try done; try lia.
    + destruct (shutdown s); cbn; lia.
    + destruct r; cbn; lia.
    + rewrite bool_decide_true by done. lia.
  - eapply move_decreases; [exact Hi|reflexivity..|]. cbn zeta. unfold pending. cbn [set_worker set_workers set_shutdown ready waiting weight]. lia.
  - pose proof (total_insert (length (workers s)) (time_now s) _ _ _ Top Hi) as Ht.
    pose proof (total_woken (length (workers s)) (time_now s) (<[i := Top]> (workers s))) as Hk. rewrite length_insert in Hk. cbn [weight] in Ht.
    unfold measure, pending. cbn [notify_all set_worker set_workers workers ready waiting time_now to_notify to_notify_all crashed].
    rewrite length_fmap, length_insert. lia.
  - pose proof (total_insert (length (workers s)) (time_now s) _ _ _ (wake w) Hi) as Ht. pose proof (weight_wake (length (workers s)) (time_now s) w).
    unfold measure, pending. cbn [set_to_notify set_worker set_workers workers ready waiting time_now to_notify to_notify_all crashed].
    rewrite length_insert, Hn. lia.
  - unfold measure, pending. cbn [set_to_notify workers ready waiting time_now to_notify to_notify_all crashed]. rewrite Hn. lia.
  - pose proof (total_woken (length (workers s)) (time_now s) (workers s)) as Hk.
    unfold measure, pending. cbn [set_to_notify_all notify_all set_workers workers ready waiting time_now to_notify to_notify_all crashed].
    rewrite length_fmap, Hn. lia.
Qed.
Lemma working_scheduled (ls : list (label F)) : Forall working ls → scheduled ls = [].
Proof. induction 1 as [|l ls Hl _ IH]; [done|]. unfold scheduled in *. cbn. rewrite IH. by destruct l. Qed.
End runs.

(** * Theorems *)

Section spec.
Context {F : Type}.
Implicit Types (s : Events F) (x y : entry F).

Lemma dispatched_first i k s s' x : sorted s → dispatched i s s' [Started k x] → Forall (λ y : entry F, priority_first y.1 x.1 = false) (ready s').
Proof.
  intros [Hr _] Hd. inversion Hd as [|e r Hs Er E|tp f m Hs Er Hm|Hs Er Hm]; subst. cbn. rewrite Er in Hr. cbn in Hr.
  apply StronglySorted_inv in Hr as [_ Hr]. change (Forall (by_priority x.1) r.*1) in Hr. by rewrite Forall_fmap in Hr.
Qed.
Lemma dispatched_waiting i s s' es : dispatched i s s' es → waiting s' = waiting s.
Proof. by intros []. Qed.
Lemma section_first i k s s' x : sorted s → section i s s' [Started k x] →
  Forall (λ y : entry F, priority_first y.1 x.1 = false) (ready s') ∧ Forall (λ y, time_now s < tp_time y.1) (waiting s').
Proof.
  intros Hs Hd. inversion Hd as [| |s1 e1 Hd']; subst. split; [by eapply dispatched_first; [apply expire_sorted|]|].
  rewrite (dispatched_waiting _ _ _ _ Hd'). by apply expire_later.
Qed.
Lemma started_section l s s' es : step l s = Some (s', es) → es ≠ [] → ∃ k, section k s s' es.
Proof. intros H%step_stepped He. destruct H; try done; eauto using enter_cases, stepped_timed_section. Qed.
(** A queue that is stopped stays so, and starts nothing. *)
Lemma section_stopped i s s' es : section i s s' es → shutdown s = true → shutdown s' = true ∧ crashed s' = crashed s ∧ es = [].
Proof. intros [Hs|Hs|s1 e1 [Hs|? ? Hs|? ? ? Hs|Hs]] Hsd; cbn in *; try done; congruence. Qed.
Lemma step_stopped l s s' es : step l s = Some (s', es) → shutdown s = true → shutdown s' = true ∧ crashed s' = crashed s ∧ es = [].
Proof.
  intros H%step_stepped Hs. destruct H; try done; [eapply section_stopped; [apply enter_cases|done]|eapply section_stopped; [apply stepped_timed_section|done]].
Qed.

(** C12.  At any point of any run, with any number of workers, the events
    that were scheduled are those that were started and those in the two
    queues, each once.  A step that starts an event starts one whose time
    has been reached, at some moment since the start; none of the events
    that stay ready has a lower priority number, or the same one and an
    earlier time; and none of those that stay waiting is due. *)
Theorem events_in_order n t ls es s : reach step (new_Events n t) ls es s →
  scheduled ls ≡ₚ started es ++ ready s ++ waiting s ∧
  ∀ l s' i x, step l s = Some (s', [Started i x]) →
    tp_time x.1 ≤ latest t ls ∧
    (∀ y, y ∈ ready s' → tp_priority x.1 < tp_priority y.1 ∨ tp_priority x.1 = tp_priority y.1 ∧ tp_time x.1 ≤ tp_time y.1) ∧
    (∀ y, y ∈ waiting s' → time_now s < tp_time y.1).
Proof.
  intros Hr. split; [by rewrite (reach_pending _ _ _ _ _ Hr)|]. intros l s' i x Hs.
  pose proof (reach_sorted _ _ _ _ (new_sorted n t) Hr) as Hso.
  pose proof (proj2 (step_due _ _ _ _ _ Hs (reach_due _ _ _ _ _ Hr))) as Hd. cbn in Hd. inversion Hd as [|? ? Hx _]; subst.
  assert (∃ k, section k s s' [Started i x]) as [k Hc].
  { by apply (started_section l). }
  destruct (section_first _ _ _ _ _ Hso Hc) as [Hf Hw]. split; [done|]. rewrite Forall_forall in Hf, Hw. split; [|done].
  intros y Hy. specialize (Hf _ Hy). cbn in Hf. apply by_priority_spec in Hf. lia.
Qed.

(** C13.  No event is left behind: from any state the workers, the due
    notifications and the waits that are over make a bounded number of
    steps, whatever the order; where no such step is left and nobody has
    stopped the queue, no event is ready and those that wait have a time in
    the future: all others were started. *)
Theorem events_drain n t ls es s : reach step (new_Events n t) ls es s → (0 < n)%nat →
  ∃ bound, ∀ ls' es' s', reach step s ls' es' s' → Forall working ls' →
    (length ls' ≤ bound)%nat ∧
    ((∀ s'', ¬ work s' s'') → crashed s' = false → shutdown s' = false →
     ready s' = [] ∧ (∀ y, y ∈ waiting s' → time_now s' < tp_time y.1) ∧ scheduled ls ≡ₚ started (es ++ es') ++ waiting s').
Proof.
  intros Hr Hn. exists (measure s). intros ls' es' s' Hr' Hw. split; [pose proof (reach_bounded step measure working _ _ _ _ event_work_decreases Hr' Hw); lia|]. intros Hend Hx Hsd.
  pose proof (reach_app step _ _ _ _ _ _ _ Hr Hr') as Hall. destruct (reach_covered _ _ _ _ (new_covered n t Hn) Hall) as [_ Hl].
  destruct (at_rest s' Hx Hend) as (Hrest & Hn0 & _). rewrite Forall_forall in Hrest.
  destruct (Hl Hsd Hx) as [(w & Hin & Ha & Hex)|[Hz|[Er Hwait]]]; [|lia|].
  { destruct (Hrest w Hin) as [->|[->|(t' & -> & _)]]; done. }
  split_and!; [done| |].
  - destruct (waiting s') as [|x m] eqn:E; [set_solver|]. destruct (Hwait x m eq_refl) as (t' & Hin & Ht).
    destruct (Hrest _ Hin) as [?|[?|(t2 & [= <-] & Hlt)]]; try done.
    pose proof (waiting_sorted _ (reach_sorted _ _ _ _ (new_sorted n t) Hall)) as Hso. rewrite E in Hso.
    apply Forall_forall. apply sorted_after; [done|lia].
  - pose proof (reach_pending _ _ _ _ _ Hall) as Hp. rewrite scheduled_app, (working_scheduled _ Hw), app_nil_r in Hp. unfold pending in Hp. by rewrite Er in Hp.
Qed.

(** C14.  A stop ends all workers: once [shutdown] is set, by [stop] or after
    a [bad_alloc], the workers make a bounded number of steps, and where
    none is left every worker has left [run]; the queue never crashes
    after the stop. *)
Theorem events_stop n t ls es s : reach step (new_Events n t) ls es s → (0 < n)%nat → shutdown s = true → crashed s = false →
  ∃ bound, ∀ ls' es' s', reach step s ls' es' s' → Forall working ls' →
    (length ls' ≤ bound)%nat ∧ crashed s' = false ∧ started es' = [] ∧
    ((∀ s'', ¬ work s' s'') → Forall (λ w, w = Exited) (workers s')).
Proof.
  intros Hr Hn Hsd Hx. exists (measure s). intros ls' es' s' Hr' Hw. split; [pose proof (reach_bounded step measure working _ _ _ _ event_work_decreases Hr' Hw); lia|].
  assert (shutdown s' = true ∧ crashed s' = false ∧ started es' = []) as (Hsd' & Hx' & He).
  { clear Hw. induction Hr' as [|ls' es' s1 l s2 e Hr1 IH Hs]; [done|]. destruct IH as (H1 & H2 & H3).
    destruct (step_stopped _ _ _ _ Hs H1) as (H1' & H2' & ->). by rewrite app_nil_r, H2'. }
  split_and!; [done|done|]. intros Hend.
  pose proof (reach_app step _ _ _ _ _ _ _ Hr Hr') as Hall. destruct (reach_covered _ _ _ _ (new_covered n t Hn) Hall) as [[_ _ Hstop] _].
  destruct (at_rest s' Hx' Hend) as (Hrest & _ & Hn0). rewrite Forall_forall in Hrest |- *. intros w Hin.
  destruct (Hstop Hsd') as [Hf|[Hz|Hnot]]; [|lia|].
  - rewrite Forall_forall in Hf. specialize (Hf _ Hin). by destruct (Hrest w Hin) as [->|[->|(t' & -> & _)]].
  - destruct (Hrest _ Hnot) as [?|[?|(t' & ? & _)]]; done.
Qed.

(** ** One worker *)

(** While it is in [timed_wait] there is an event. *)
Definition alone s : Prop :=
  crashed s = false ∧ ∃ w, workers s = [w] ∧ (shutdown s = false → ∀ t, w = TimedWait t ∨ w = TimedWoken → pending s ≠ []).
Lemma alone_dispatched s s' es w : workers s = [w] → crashed s = false → (shutdown s = false → pending s ≠ []) → dispatched 0 s s' es → alone s'.
Proof.
  intros Hw Hx Hp [Hs|e r Hs Hr|tp f m Hs Hr Hm|Hs Hr Hm].
  - split; [done|]. eexists. cbn. rewrite Hw. split; [reflexivity|]. by rewrite Hs.
  - split; [done|]. eexists. cbn. rewrite Hw. split; [reflexivity|]. by intros _ t [?|?].
  - split; [done|]. eexists. cbn. rewrite Hw. split; [reflexivity|]. intros _ _ _. by apply Hp.
  - destruct (Hp Hs). unfold pending. by rewrite Hr, Hm.
Qed.
Lemma alone_expire s : (shutdown s = false → pending s ≠ []) → shutdown (expire s) = false → pending (expire s) ≠ [].
Proof. intros H Hs E. apply (H Hs). apply Permutation_nil_r. by rewrite <- expire_pending, E. Qed.
Lemma alone_move s s' w w' : workers s = [w] → crashed s = false → workers s' = <[0%nat := w']> (workers s) → crashed s' = false → (∀ t, w' ≠ TimedWait t) →
  (shutdown s' = false → w' = TimedWoken → pending s' ≠ []) → alone s'.
Proof. intros Hw Hx Hw' Hx' Hn Hp. split; [done|]. exists w'. rewrite Hw', Hw. split; [done|]. intros Hs t [->|E]; [by destruct (Hn t)|auto]. Qed.
Lemma alone_step l s s' es : alone s → step l s = Some (s', es) → alone s'.
Proof.
  intros (Hx & w & Hw & Hp) H%step_stepped.
  assert (∀ i v, workers s !! i = Some v → i = 0%nat ∧ v = w) as Hi by (intros [|[]] v; rewrite Hw; cbn; [by intros [= ->]|done|done]).
  assert (∀ v, sleeps v = true → w = v → shutdown s = false → wake v = TimedWoken → pending s ≠ []) as Hwake.
  { intros v Hs -> Hsd E. destruct v; try done. by eapply Hp; [|left]. }
  destruct H as [i v Hv Hvw|i Hv|l i v v' Hv Hm|i Hv|i Hv|t f p|f t p|i v n Hn Hv Hs|n Hn Hs| |n Hn|t];
    try (destruct (Hi _ _ Hv) as [Ei Ew]).
  - try subst i. destruct (shutdown s) eqn:Hsd.
    + unfold enter. rewrite Hsd. cbn. by eapply alone_move; cbn; rewrite ?Hsd.
    + destruct (enter_dispatches 0 s Hsd) as [(-> & _ & _)|[-> Hne]]; cbn [fst]; [by eapply alone_move|].
      eapply (alone_dispatched (expire s)); [done|done|apply (alone_expire s); by intros _|apply dispatch_cases].
  - try subst i. eapply (alone_dispatched (expire s)); [done|done|apply (alone_expire s)|apply dispatch_cases]. intros Hsd. eapply (Hp Hsd 0). by right.
  - destruct Hm as [i|i|i f r|i t Ht|i v Hs].
    + try subst i. eapply alone_move; [done|done|reflexivity|done| |]; by destruct (shutdown s).
    + try subst i. by eapply alone_move.
    + try subst i. eapply alone_move; [done|done|reflexivity|done| |]; by destruct r.
    + try subst i. eapply alone_move; [done|done|reflexivity|done|done|]. intros Hsd _. by eapply Hp; [|left].
    + try subst i. eapply alone_move; [done|done|reflexivity|done|by destruct v|]. cbn. intros Hsd E. by eapply Hwake.
  - try subst i. by eapply alone_move.
  - try subst i. split; [done|]. exists Top. cbn. rewrite Hw. split; [done|]. by intros _ t [?|?].
  - split; [done|]. exists w. split; [done|]. intros _ _ _ [E _]%app_eq_nil. by apply insert_ne in E.
  - split; [done|]. exists w. split; [done|]. intros _ _ _ [_ E]%app_eq_nil. by apply insert_ne in E.
  - try subst i. eapply alone_move; [done|done|reflexivity|done|by destruct v|]. cbn. intros Hsd E. by eapply Hwake.
  - split; [done|]. by exists w.
  - split; [done|]. exists w. by split.
  - split; [done|]. exists (wake w). cbn. rewrite Hw. split; [done|]. intros Hsd t [E|E]; destruct w; try discriminate E; first [by apply (Hp Hsd 0); right|by eapply (Hp Hsd); left].
  - split; [done|]. by exists w.
Qed.

Lemma one_worker_safe t ls es s : reach step (new_Events 1 t) ls es s → crashed s = false.
Proof.
  intros Hr. apply (reach_always step alone _ _ _ _ (λ l s s' e, alone_step l s s' e)) in Hr as [H _]; [done|].
  split; [done|]. exists Top. split; [done|]. by intros _ t' [?|?].
Qed.
(** Without a worker nothing happens. *)
Lemma no_worker_safe t ls es s : reach step (new_Events 0 t) ls es s → crashed s = false.
Proof.
  intros Hr. apply (reach_always step (λ s, crashed s = false ∧ workers s = [])) in Hr as [H _]; [done| |done].
  clear. intros l s s' e [Hx Hw] H%step_stepped.
  destruct H as [i w Hi|i Hi|l i w w' Hi|i Hi|i Hi|t f p|f t p|i w n Hn Hi|n Hn| |n Hn|t]; try (by rewrite Hw in Hi); try done. cbn. by rewrite Hw.
Qed.
End spec.

(** ** Two workers *)

(** Two workers wait for the time of one event, both waits end, the first
    worker takes the event, and the second one looks for the time of the
    first waiting event when there is none. *)
Lemma two_workers_crash {F} n (f : option F) :
  ∃ ls es s, reach step (new_Events (S (S n)) 0) ls es s ∧ scheduled ls = [(TP 60 submit_priority, f)] ∧ to_notify s = 0%nat ∧ crashed s = true.
Proof.
  eexists [ScheduleAt f 60 submit_priority; Run 0; Run 1; Run 0; Run 1; NotifyOne (Some 0%nat); Run 0; Clock 60; Timeout 0; Timeout 1; Run 0; Run 1], _, _.
  split; [apply exec_reach; vm_compute; reflexivity|]. split; [reflexivity|]. split; reflexivity.
Qed.

(** C22.  The queue can use an iterator that points nowhere exactly when it
    has two workers or more, as in the configuration that comes with it: one
    worker is safe whatever is scheduled and whenever it wakes up; for two
    one delayed event is enough. *)
Theorem crash_needs_two_workers {F} n : (∃ ls es (s : Events F), reach step (new_Events n 0) ls es s ∧ crashed s = true) ↔ (2 ≤ n)%nat.
Proof.
  split.
  - intros (ls & es & s & Hr & Hx). destruct n as [|[|n]]; [| |lia].
    + by rewrite (no_worker_safe _ _ _ _ Hr) in Hx.
    + by rewrite (one_worker_safe _ _ _ _ Hr) in Hx.
  - intros Hn. destruct n as [|[|n]]; [lia..|]. destruct (two_workers_crash (F := F) n None) as (ls & es & s & Hr & _ & _ & Hx). by exists ls, es, s.
Qed.

(** ** Runs of small queues, with numbers as functions *)

Abbreviation ev t p f := (TP t p, Some f).
Definition small_run : list (label nat) :=
  [ScheduleAt (Some 1%nat) 50 submit_priority; NotifyOne None; Run 0; Run 0; ScheduleAt (Some 2%nat) 50 cancel_priority; NotifyOne (Some 0%nat); Run 0;
   Schedule 20 (Some 3%nat) dispatcher_priority; NotifyOne (Some 0%nat); Clock 50].
Lemma events_in_order_witness :
  ∃ es s, reach step (new_Events 1 10) small_run es s ∧ scheduled small_run ≡ₚ started es ++ ready s ++ waiting s ∧
    ∃ s', step (Run 0) s = Some (s', [Started 0 (ev 20 dispatcher_priority 3%nat)]) ∧ ready s' = [ev 50 cancel_priority 2%nat; ev 50 submit_priority 1%nat] ∧
      20 ≤ latest 10 small_run ∧ ∀ y, y ∈ waiting s' → time_now s < tp_time y.1.
Proof.
  eexists _, _. assert (exec step small_run (new_Events 1 10) = Some _) as E by (vm_compute; reflexivity). pose proof (exec_reach step _ _ _ _ E) as Hr. split; [exact Hr|].
  destruct (events_in_order _ _ _ _ _ Hr) as [Hp Hstep]. split; [exact Hp|].
  eexists. split; [vm_compute; reflexivity|]. split; [reflexivity|].
  edestruct (Hstep (Run 0)) as (H1 & _ & H2); [vm_compute; reflexivity|]. split; [exact H1|exact H2].
Defined.
Lemma events_drain_witness :
  ∃ es s, reach step (new_Events 1 10) small_run es s ∧ ∃ bound, ∀ ls' es' s', reach step s ls' es' s' → Forall working ls' →
    (length ls' ≤ bound)%nat ∧
    ((∀ s'', ¬ work s' s'') → crashed s' = false → shutdown s' = false →
     ready s' = [] ∧ (∀ y, y ∈ waiting s' → time_now s' < tp_time y.1) ∧ scheduled small_run ≡ₚ started (es ++ es') ++ waiting s').
Proof.
  eexists _, _. assert (exec step small_run (new_Events 1 10) = Some _) as E by (vm_compute; reflexivity). pose proof (exec_reach step _ _ _ _ E) as Hr. split; [exact Hr|].
  apply (events_drain _ _ _ _ _ Hr). lia.
Defined.
Lemma events_stop_witness :
  ∃ es s, reach step (new_Events 2 10) [Run 0; Run 0; Run 1; Stop; Run 1 : label nat] es s ∧ ∃ bound, ∀ ls' es' s', reach step s ls' es' s' → Forall working ls' →
    (length ls' ≤ bound)%nat ∧ crashed s' = false ∧ started es' = [] ∧
    ((∀ s'', ¬ work s' s'') → Forall (λ w, w = Exited) (workers s')).
Proof.
  eexists _, _. assert (exec step [Run 0; Run 0; Run 1; Stop; Run 1 : label nat] (new_Events 2 10) = Some _) as E by (vm_compute; reflexivity).
  pose proof (exec_reach step _ _ _ _ E) as Hr. split; [exact Hr|]. apply (events_stop _ _ _ _ _ Hr); [lia|reflexivity|reflexivity].
Defined.
