(* ===== verification/Pipe.v ===== *)
(** * common/src/task/Task.h: pipes between threads

    A [Pipe] is a bounded queue with a mutex and two condition variables;
    it counts those who have opened its ends, and an end is closed when the
    count comes back to 0.  Tasks are groups of threads that share one
    handle on an end; the handle closes the end when its last copy goes.

    The model is a transition system over the state of the pipe and of the
    threads that use it.  A call, or a call that goes on after a wait, is
    one step: it holds the mutex from its start to its end or to its wait,
    its notification included.  [who] in a step is the thread that its
    [notify_one] wakes. *)

From S2P Require Import Prelude.

Inductive pipe_exception := Eof | SigPipe | Empty | Full.

Section pipe.
Context {T : Type}.

(** A thread: outside of any call, waiting in [read] or in [write], or
    notified and not yet back with the mutex. *)
Inductive thread :=
| Outside | ReadWaits | ReadWoken | WriteWaits (obj : T) | WriteWoken (obj : T).

Record Pipe := PipeState {
  m_queue : list T;
  m_max_size : nat;
  m_num_writers : Z;
  m_num_readers : Z;
  m_write_end_is_closed : bool;
  m_read_end_is_closed : bool;
  threads : list thread
}.
Implicit Types (s : Pipe) (ts : list thread).

Definition set_queue q s := PipeState q (m_max_size s) (m_num_writers s) (m_num_readers s) (m_write_end_is_closed s) (m_read_end_is_closed s) (threads s).
Definition set_writers n c s := PipeState (m_queue s) (m_max_size s) n (m_num_readers s) c (m_read_end_is_closed s) (threads s).
Definition set_readers n c s := PipeState (m_queue s) (m_max_size s) (m_num_writers s) n (m_write_end_is_closed s) c (threads s).
Definition set_threads ts s := PipeState (m_queue s) (m_max_size s) (m_num_writers s) (m_num_readers s) (m_write_end_is_closed s) (m_read_end_is_closed s) ts.
Definition set_thread i t s := set_threads (<[i := t]> (threads s)) s.

(** The constructor, for [n] threads. *)
Definition new_Pipe (max_size n : nat) : Pipe := PipeState [] max_size 0 0 false false (replicate n Outside).

(** ** The condition variables *)
Definition read_waits (t : thread) : bool := match t with ReadWaits => true | _ => false end.
Definition write_waits (t : thread) : bool := match t with WriteWaits _ => true | _ => false end.
Definition wake (t : thread) : thread := match t with ReadWaits => ReadWoken | WriteWaits obj => WriteWoken obj | t => t end.
(** [cond.notify_one()], where [waits] are those that wait on [cond]. *)
Definition notify_one (waits : thread → bool) (who : option nat) ts : option (list thread) :=
  match who with
  | Some i => t ← ts !! i; if waits t then Some (<[i := wake t]> ts) else None
  | None => if existsb waits ts then None else Some ts
  end.
Definition notify_all (waits : thread → bool) ts : list thread := (λ t, if waits t then wake t else t) <$> ts.

(** ** The calls *)
Inductive event :=
| Pushed (i : nat) (obj : T) | Popped (i : nat) (obj : T) | Throws (i : nat) (e : pipe_exception) | IsEmpty (i : nat) (b : bool).

Definition pop (i : nat) (who : option nat) (obj : T) (q : list T) s : option (Pipe * list event) :=
  let s := set_thread i Outside (set_queue q s) in
  ts ← notify_one write_waits who (threads s); Some (set_threads ts s, [Popped i obj]).
Definition push (i : nat) (who : option nat) (obj : T) s : option (Pipe * list event) :=
  let s := set_thread i Outside (set_queue (m_queue s ++ [obj]) s) in
  ts ← notify_one read_waits who (threads s); Some (set_threads ts s, [Pushed i obj]).
Definition throw (i : nat) (e : pipe_exception) s : option (Pipe * list event) := Some (set_thread i Outside s, [Throws i e]).

(** [read], from its start or from the return of its wait. *)
Definition read (i : nat) (who : option nat) s : option (Pipe * list event) :=
  match m_queue s with
  | [] => if m_write_end_is_closed s then throw i Eof s else Some (set_thread i ReadWaits s, [])
  | obj :: q => pop i who obj q s
  end.
Definition try_read (i : nat) (who : option nat) s : option (Pipe * list event) :=
  match m_queue s with
  | [] => if m_write_end_is_closed s then throw i Eof s else throw i Empty s
  | obj :: q => pop i who obj q s
  end.
(** [write], likewise. *)
Definition write (i : nat) (who : option nat) (obj : T) s : option (Pipe * list event) :=
  if m_read_end_is_closed s then throw i SigPipe s
  else if bool_decide (length (m_queue s) = m_max_size s) then Some (set_thread i (WriteWaits obj) s, [])
  else push i who obj s.
Definition try_write (i : nat) (who : option nat) (obj : T) s : option (Pipe * list event) :=
  if m_read_end_is_closed s then throw i SigPipe s
  else if bool_decide (length (m_queue s) = m_max_size s) then throw i Full s
  else push i who obj s.
Definition empty s : bool := bool_decide (m_queue s = []).
Definition open_read_end (num : Z) s : Pipe := set_readers (m_num_readers s + num) (m_read_end_is_closed s) s.
Definition open_write_end (num : Z) s : Pipe := set_writers (m_num_writers s + num) (m_write_end_is_closed s) s.
Definition close_read_end s : Pipe :=
  let n := m_num_readers s - 1 in
  if bool_decide (n = 0) then set_threads (notify_all write_waits (threads s)) (set_readers n true s)
  else set_readers n (m_read_end_is_closed s) s.
Definition close_write_end s : Pipe :=
  let n := m_num_writers s - 1 in
  if bool_decide (n = 0) then set_threads (notify_all read_waits (threads s)) (set_writers n true s)
  else set_writers n (m_write_end_is_closed s) s.

(** ** Steps

    A thread that is outside calls; [Resume i] is the return of a wait. *)
Inductive label :=
| Read (i : nat) (who : option nat) | TryRead (i : nat) (who : option nat)
| Write (i : nat) (who : option nat) (obj : T) | TryWrite (i : nat) (who : option nat) (obj : T)
| Resume (i : nat) (who : option nat) | Spurious (i : nat) | AskEmpty (i : nat)
| OpenRead (num : Z) | OpenWrite (num : Z) | CloseRead | CloseWrite.

Definition step (l : label) s : option (Pipe * list event) :=
  let outside i := match threads s !! i with Some Outside => Some () | _ => None end in
  match l with
  | Read i who => _ ← outside i; read i who s
  | TryRead i who => _ ← outside i; try_read i who s
  | Write i who obj => _ ← outside i; write i who obj s
  | TryWrite i who obj => _ ← outside i; try_write i who obj s
  | Resume i who =>
      t ← threads s !! i;
      match t with ReadWoken => read i who s | WriteWoken obj => write i who obj s | _ => None end
  | Spurious i => t ← threads s !! i; if read_waits t || write_waits t then Some (set_thread i (wake t) s, []) else None
  | AskEmpty i => _ ← outside i; Some (s, [IsEmpty i (empty s)])
  | OpenRead num => Some (open_read_end num s, [])
  | OpenWrite num => Some (open_write_end num s, [])
  | CloseRead => Some (close_read_end s, [])
  | CloseWrite => Some (close_write_end s, [])
  end.

End pipe.
Arguments thread : clear implicits.
Arguments Pipe : clear implicits.
Arguments event : clear implicits.
Arguments label : clear implicits.
