(* ===== verification/PipeProps.v ===== *)
(** * Pipes are queues that lose no wake-up

    What is written is read once and in order; a thread that waits has a
    reason to. *)

From S2P Require Import Prelude Transition Pipe.

Section counts.
Context {T : Type}.
Implicit Types (s : Pipe T) (ts : list (thread T)).

(** ** Counting threads *)
Definition count (p : thread T → bool) ts : nat := sum_list_with (λ t, Nat.b2n (p t)) ts.
Definition read_woken (t : thread T) : bool := match t with ReadWoken => true | _ => false end.
Definition write_woken (t : thread T) : bool := match t with WriteWoken _ => true | _ => false end.

Lemma count_insert p ts i t t' : ts !! i = Some t → (count p (<[i := t']> ts) + Nat.b2n (p t) = count p ts + Nat.b2n (p t'))%nat.
Proof. apply (sum_list_with_insert (λ t, Nat.b2n (p t))). Qed.
Lemma count_none p ts : existsb p ts = false → count p ts = 0%nat.
Proof. induction ts as [|t ts IH]; [done|]. cbn. intros [H1 H2]%orb_false_elim. unfold count in *. cbn. rewrite H1, IH by done. done. Qed.
Lemma count_some p ts t : t ∈ ts → p t = true → (0 < count p ts)%nat.
Proof. intros Hin Hp. unfold count. pose proof (sum_list_with_in t (λ t, Nat.b2n (p t)) ts Hin) as H. cbn in H. rewrite Hp in H. cbn in H. lia. Qed.
Lemma count_notify_all p (waits : thread T → bool) ts : count p (notify_all waits ts) = count (λ t, p (if waits t then wake t else t)) ts.
Proof. induction ts as [|t ts IH]; [done|]. unfold count, notify_all in *. cbn. by rewrite IH. Qed.
Lemma count_ext p q ts : (∀ t, p t = q t) → count p ts = count q ts.
Proof. intros H. unfold count. induction ts as [|t ts IH]; [done|]. cbn. by rewrite IH, H. Qed.

Lemma notify_none_waits p (waits : thread T → bool) ts : (∀ t, p (if waits t then wake t else t) = false) → count p (notify_all waits ts) = 0%nat.
Proof. intros H. rewrite count_notify_all. apply count_none. induction ts as [|t ts IH]; [done|]. cbn. by rewrite H, IH. Qed.
Lemma notify_other (waits : thread T → bool) p ts : (∀ t, p (if waits t then wake t else t) = p t) → count p (notify_all waits ts) = count p ts.
Proof. intros H. rewrite count_notify_all. by apply count_ext. Qed.

(** The change of the four counts when a thread goes from [t] to [t']. *)
Definition delta ts ts' (t t' : thread T) : Prop :=
  ∀ p, p ∈ [read_waits; read_woken; write_waits; write_woken] → (count p ts' + Nat.b2n (p t) = count p ts + Nat.b2n (p t'))%nat.
Lemma delta_insert ts i t t' : ts !! i = Some t → delta ts (<[i := t']> ts) t t'.
Proof. intros Hi p _. by apply count_insert. Qed.

#[local] Arguments count : simpl never.

(** ** The invariant

    Where a reader waits the write end is open, and there are not more
    objects than readers on their way; where a writer waits the read end is
    open, and there is not more room than writers on their way. *)
Record pipe_ok s : Prop := {
  ok_size : (length (m_queue s) ≤ m_max_size s)%nat;
  ok_read : count read_waits (threads s) = 0%nat ∨ m_write_end_is_closed s = false ∧ (length (m_queue s) ≤ count read_woken (threads s))%nat;
  ok_write : count write_waits (threads s) = 0%nat ∨ m_read_end_is_closed s = false ∧ (m_max_size s - length (m_queue s) ≤ count write_woken (threads s))%nat
}.

Lemma new_ok max_size n : pipe_ok (new_Pipe max_size n).
Proof.
  assert (∀ p, p Outside = false → count p (replicate n (Outside : thread T)) = 0%nat) as H.
  { intros p Hp. apply count_none. induction n as [|n IH]; [done|]. cbn. by rewrite Hp, IH. }
  split; cbn [new_Pipe m_queue m_max_size threads length]; rewrite ?H by done; [lia|by left..].
Qed.

(** A notification of those that wait on one of the two conditions. *)
Lemma notify_counts (waits : thread T → bool) who ts ts' : waits = read_waits ∨ waits = write_waits → notify_one waits who ts = Some ts' →
  (ts' = ts ∧ count waits ts = 0%nat) ∨ ∃ t, waits t = true ∧ delta ts ts' t (wake t).
Proof.
  intros Hw H. destruct who as [i|]; cbn in H.
  - apply bind_Some in H as (t & Hi & H). destruct (waits t) eqn:E; [|done]. injection H as <-. right. exists t. split; [done|]. by apply delta_insert.
  - destruct (existsb waits ts) eqn:E; [done|]. injection H as <-. left. split; [done|]. by apply count_none.
Qed.
End counts.

Ltac counts H := pose proof (H read_waits ltac:(set_solver)); pose proof (H read_woken ltac:(set_solver));
  pose proof (H write_waits ltac:(set_solver)); pose proof (H write_woken ltac:(set_solver)); clear H.
(** Either nobody waits, or there is enough. *)
Ltac balanced := first [lia | left; lia | right; split; [done|lia]].

Section steps.
Context {T : Type}.
#[local] Arguments count : simpl never.
Implicit Types (s : Pipe T) (t : thread T).

(** A thread that may go on: outside of a call, or woken. *)
Definition reads t : Prop := t = Outside ∨ t = ReadWoken.
Definition writes t : Prop := t = Outside ∨ ∃ obj, t = WriteWoken obj.

Lemma pop_ok i who obj q t s s' es : threads s !! i = Some t → reads t → m_queue s = obj :: q → pipe_ok s →
  pop i who obj q s = Some (s', es) → pipe_ok s' ∧ es = [Popped i obj] ∧ m_queue s' = q.
Proof.
  intros Hi Ht Hq [Hs Hr Hw] H. unfold pop in H. apply bind_Some in H as (ts & Hn & H). injection H as <- <-. cbn in Hn. split; [|done].
  pose proof (delta_insert (threads s) i t Outside Hi) as Hd. counts Hd. rewrite Hq in *. cbn [length] in *.
  apply notify_counts in Hn as [[-> Hz]|(v & Hv & Hd)]; [| |by right].
  - destruct Ht as [-> | ->]; cbn [Nat.b2n read_waits read_woken write_waits write_woken] in *; split; cbn; destruct Hr as [|[]], Hw as [|[]]; balanced.
  - counts Hd. destruct v; try discriminate Hv.
    destruct Ht as [-> | ->]; cbn [Nat.b2n read_waits read_woken write_waits write_woken wake] in *; split; cbn; destruct Hr as [|[]], Hw as [|[]]; balanced.
Qed.
Lemma push_ok i who obj t s s' es : threads s !! i = Some t → writes t → length (m_queue s) ≠ m_max_size s → pipe_ok s →
  push i who obj s = Some (s', es) → pipe_ok s' ∧ es = [Pushed i obj] ∧ m_queue s' = m_queue s ++ [obj].
Proof.
  intros Hi Ht Hq [Hs Hr Hw] H. unfold push in H. apply bind_Some in H as (ts & Hn & H). injection H as <- <-. cbn in Hn. split; [|done].
  pose proof (delta_insert (threads s) i t Outside Hi) as Hd. counts Hd.
  apply notify_counts in Hn as [[-> Hz]|(v & Hv & Hd)]; [| |by left].
  - destruct Ht as [-> | [o ->]]; cbn [Nat.b2n read_waits read_woken write_waits write_woken] in *; split; cbn; rewrite ?length_app; cbn [length]; destruct Hr as [|[]], Hw as [|[]]; balanced.
  - counts Hd. destruct v; try discriminate Hv.
    destruct Ht as [-> | [o ->]]; cbn [Nat.b2n read_waits read_woken write_waits write_woken wake] in *; split; cbn; rewrite ?length_app; cbn [length]; destruct Hr as [|[]], Hw as [|[]]; balanced.
Qed.

Definition pushed (es : list (event T)) : list T := omap (λ e, match e with Pushed _ obj => Some obj | _ => None end) es.
Definition popped (es : list (event T)) : list T := omap (λ e, match e with Popped _ obj => Some obj | _ => None end) es.

(** What a step does: the invariant stays, and objects go through the queue. *)
Record served s s' (es : list (event T)) : Prop := {
  served_ok : pipe_ok s';
  served_fifo : m_queue s ++ pushed es = popped es ++ m_queue s';
  served_size : m_max_size s' = m_max_size s
}.
Lemma pop_served i who obj q t s s' es : threads s !! i = Some t → reads t → m_queue s = obj :: q → pipe_ok s →
  pop i who obj q s = Some (s', es) → served s s' es.
Proof.
  intros Hi Ht Hq Hok H. destruct (pop_ok _ _ _ _ _ _ _ _ Hi Ht Hq Hok H) as (Hok' & -> & Hq'). split; [done| |].
  - rewrite Hq, Hq'. cbn. by rewrite app_nil_r.
  - unfold pop in H. apply bind_Some in H as (ts & _ & H). by injection H as <-.
Qed.
Lemma push_served i who obj t s s' es : threads s !! i = Some t → writes t → length (m_queue s) ≠ m_max_size s → pipe_ok s →
  push i who obj s = Some (s', es) → served s s' es.
Proof.
  intros Hi Ht Hq Hok H. destruct (push_ok _ _ _ _ _ _ _ Hi Ht Hq Hok H) as (Hok' & -> & Hq'). split; [done|by rewrite Hq'|].
  unfold push in H. apply bind_Some in H as (ts & _ & H). by injection H as <-.
Qed.
(** A thread that goes from [t] to [t'] with the queue as it is. *)
Lemma move_served i t t' s es : threads s !! i = Some t → pipe_ok s → pushed es = [] → popped es = [] →
  (read_waits t' = true → m_queue s = [] ∧ m_write_end_is_closed s = false) →
  (write_waits t' = true → length (m_queue s) = m_max_size s ∧ m_read_end_is_closed s = false) →
  (t = ReadWoken → m_queue s = [] ∨ t' = ReadWoken) → (∀ obj, t = WriteWoken obj → length (m_queue s) = m_max_size s ∨ m_read_end_is_closed s = true) →
  served s (set_thread i t' s) es.
Proof.
  intros Hi [Hs Hr Hw] E1 E2 Hrw Hww Hrk Hwk. split; [|by rewrite E1, E2, app_nil_r|done].
  pose proof (delta_insert (threads s) i t t' Hi) as Hd. counts Hd. split; cbn; [done| |].
  - destruct (read_waits t') eqn:E.
    + right. destruct (Hrw eq_refl) as [-> ?]. split; [done|cbn; lia].
    + destruct Hr as [Hr|[Hc Hr]]; [left; cbn in *; lia|]. destruct t; cbn in *; try (right; split; [done|lia]).
      destruct (Hrk eq_refl) as [-> | ->]; cbn in *; [right; split; [done|lia]|right; split; [done|lia]].
  - destruct (write_waits t') eqn:E.
    + right. destruct (Hww eq_refl) as [-> ?]. split; [done|cbn; lia].
    + destruct Hw as [Hw|[Hc Hw]]; [left; cbn in *; lia|]. destruct t; cbn in *; try (right; split; [done|lia]).
      destruct (Hwk _ eq_refl) as [-> | Hx]; [right; split; [done|lia]|congruence].
Qed.

Lemma read_served i who t s s' es : threads s !! i = Some t → reads t → pipe_ok s → read i who s = Some (s', es) → served s s' es.
Proof.
  intros Hi Ht Hok H. unfold read in H. destruct (m_queue s) as [|obj q] eqn:Hq; [|by eapply pop_served].
  destruct (m_write_end_is_closed s) eqn:Hc; injection H as <- <-; eapply move_served; eauto; try done.
  - by intros o ->; destruct Ht.
  - by intros o ->; destruct Ht.
Qed.
Lemma write_served i who obj t s s' es : threads s !! i = Some t → writes t → pipe_ok s → write i who obj s = Some (s', es) → served s s' es.
Proof.
  intros Hi Ht Hok H. unfold write in H. destruct (m_read_end_is_closed s) eqn:Hc; [|case_bool_decide as Hq; [|by eapply push_served]];
    injection H as <- <-; eapply move_served; eauto; try done; try (by intros ->; destruct Ht as [?|[]]).
Qed.
Lemma outside_inv s i : match threads s !! i with Some Outside => Some () | _ => None end ≠ None → threads s !! i = Some Outside.
Proof. by destruct (threads s !! i) as [[]|]. Qed.

Lemma step_served l s s' es : pipe_ok s → step l s = Some (s', es) → served s s' es.
Proof.
  intros Hok H. destruct l as [i who|i who|i who obj|i who obj|i who|i|i|num|num| |]; cbn in H;
    try (apply bind_Some in H as (u & Hu & H)); try (assert (threads s !! i = Some Outside) as Hi by (apply outside_inv; by rewrite Hu)).
  - eapply read_served; eauto. by left.
  - unfold try_read in H. destruct (m_queue s) as [|obj q] eqn:Hq; [|by eapply pop_served; eauto; left].
    destruct (m_write_end_is_closed s) eqn:Hc; injection H as <- <-; by eapply move_served.
  - eapply write_served; eauto. by left.
  - unfold try_write in H. destruct (m_read_end_is_closed s) eqn:Hc; [|case_bool_decide as Hq; [|by eapply push_served; eauto; left]]; injection H as <- <-; by eapply move_served.
  - destruct u; try done; [eapply read_served; eauto; by right|eapply write_served; eauto; right; eauto].
  - destruct u; try done; injection H as <- <-; by eapply move_served.
  - injection H as <- <-. by split; [|rewrite app_nil_r|].
  - injection H as <- <-. destruct Hok. by split; [|cbn; rewrite app_nil_r|].
  - injection H as <- <-. destruct Hok. by split; [|cbn; rewrite app_nil_r|].
  - injection H as <- <-. split; [|by unfold close_read_end; case_bool_decide; cbn; rewrite app_nil_r|by unfold close_read_end; case_bool_decide].
    destruct Hok as [Hs Hr Hw]. unfold close_read_end. case_bool_decide; [|by split]. split; cbn; [done| |].
    + by rewrite !(notify_other write_waits) by (by intros []).
    + left. by apply notify_none_waits; intros [].
  - injection H as <- <-. split; [|by unfold close_write_end; case_bool_decide; cbn; rewrite app_nil_r|by unfold close_write_end; case_bool_decide].
    destruct Hok as [Hs Hr Hw]. unfold close_write_end. case_bool_decide; [|by split]. split; cbn; [done| |].
    + left. by apply notify_none_waits; intros [].
    + by rewrite !(notify_other read_waits) by (by intros []).
Qed.

Lemma reach_served max_size n ls es s : reach step (new_Pipe max_size n) ls es s → pipe_ok s ∧ pushed es = popped es ++ m_queue s ∧ m_max_size s = max_size.
Proof.
  induction 1 as [|ls es s l s' e _ (IH1 & IH2 & IH3) Hs]; [by split; [apply new_ok|]|].
  destruct (step_served _ _ _ _ IH1 Hs) as [H1 H2 H3]. split; [done|]. split; [|congruence].
  unfold pushed, popped in *. rewrite !omap_app, IH2, <- app_assoc, H2, app_assoc. done.
Qed.

(** ** Threads come to rest *)

Definition weight (t : thread T) : nat := match t with Outside => 0 | ReadWaits | WriteWaits _ => 1 | ReadWoken | WriteWoken _ => 2 end.
Definition measure s : nat := sum_list_with weight (threads s).
Lemma weight_insert ts i (t t' : thread T) : ts !! i = Some t → (sum_list_with weight (<[i := t']> ts) + weight t = sum_list_with weight ts + weight t')%nat.
Proof. apply sum_list_with_insert. Qed.
Lemma notify_weight waits who ts ts' : notify_one (T := T) waits who ts = Some ts' → (∀ t, waits t = true → weight t = 1%nat) → (sum_list_with weight ts' ≤ S (sum_list_with weight ts))%nat.
Proof.
  intros H Hw. destruct who as [i|]; cbn in H.
  - apply bind_Some in H as (t & Hi & H). destruct (waits t) eqn:E; [|done]. injection H as <-. pose proof (weight_insert ts i t (wake t) Hi).
    specialize (Hw t E). destruct t; cbn in *; lia.
  - destruct (existsb waits ts); [done|]. injection H as <-. lia.
Qed.
Lemma resume_decreases i who s s' es : step (Resume i who) s = Some (s', es) → (measure s' < measure s)%nat.
Proof.
  cbn. intros H. apply bind_Some in H as (t & Hi & H). pose proof (λ t', weight_insert (threads s) i t t' Hi) as Hins. unfold measure.
  destruct t; try done; unfold read, write, throw in H.
  - destruct (m_queue s) as [|obj q]; [destruct (m_write_end_is_closed s)|].
    + injection H as <- <-. specialize (Hins Outside). cbn in *. lia.
    + injection H as <- <-. specialize (Hins ReadWaits). cbn in *. lia.
    + unfold pop in H. apply bind_Some in H as (ts & Hn & H). injection H as <- <-. apply notify_weight in Hn; [|by intros []]. specialize (Hins Outside). cbn in *. lia.
  - destruct (m_read_end_is_closed s); [|case_bool_decide].
    + injection H as <- <-. specialize (Hins Outside). cbn in *. lia.
    + injection H as <- <-. specialize (Hins (WriteWaits obj)). cbn in *. lia.
    + unfold push in H. apply bind_Some in H as (ts & Hn & H). injection H as <- <-. apply notify_weight in Hn; [|by intros []]. specialize (Hins Outside). cbn in *. lia.
Qed.
End steps.

(** * What a pipe promises

    First in, first out within its size, and no thread that waits without a
    reason. *)

Section spec.
Context {T : Type}.
Implicit Types (s : Pipe T) (l : label T).

Lemma notify_possible waits (ts : list (thread T)) : ∃ who ts', notify_one waits who ts = Some ts'.
Proof.
  destruct (existsb waits ts) eqn:E; [|exists None; cbn; rewrite E; eauto].
  apply existsb_exists in E as (t & [i Hi]%list_elem_of_In%list_elem_of_lookup & Ht). exists (Some i). cbn. rewrite Hi. cbn. rewrite Ht. eauto.
Qed.
Lemma woken_resumes s i t : threads s !! i = Some t → read_woken t = true ∨ write_woken t = true → ∃ who s' es, step (Resume i who) s = Some (s', es).
Proof.
  intros Hi Ht. cbn. rewrite Hi. cbn. destruct t; destruct Ht as [Ht|Ht]; try discriminate Ht.
  - unfold read, throw, pop. destruct (m_queue s) as [|obj q]; [exists None; destruct (m_write_end_is_closed s); eauto|].
    destruct (notify_possible write_waits (<[i := Outside]> (threads s))) as (who & ts & E). exists who. cbn. rewrite E. cbn. eauto.
  - unfold write, throw, push. destruct (m_read_end_is_closed s); [exists None; eauto|]. case_bool_decide; [exists None; eauto|].
    destruct (notify_possible read_waits (<[i := Outside]> (threads s))) as (who & ts & E). exists who. cbn. rewrite E. cbn. eauto.
Qed.
Lemma count_zero p (ts : list (thread T)) : (∀ t, t ∈ ts → p t = false) → count p ts = 0%nat.
Proof.
  intros H. apply count_none. destruct (existsb p ts) eqn:E; [|done]. apply existsb_exists in E as (t & Hin%list_elem_of_In & Ht). by rewrite (H t Hin) in Ht.
Qed.
Lemma popped_app es es' : popped (T := T) (es ++ es') = popped es ++ popped es'.
Proof. apply omap_app. Qed.

(** C30.  In any run the objects written are the objects read, in the same
    order and each once, followed by those in the queue, which never holds
    more than its size; [Eof] is thrown only from an empty queue whose
    write end is closed, and [SigPipe] only when the read end is. *)
Theorem pipe_fifo max_size n ls es s : reach step (new_Pipe max_size n) ls es s →
  pushed es = popped es ++ m_queue s ∧ (length (m_queue s) ≤ max_size)%nat ∧
  ∀ l s' es', step l s = Some (s', es') →
    (∀ i, Throws i Eof ∈ es' → m_queue s = [] ∧ m_write_end_is_closed s = true) ∧ (∀ i, Throws i SigPipe ∈ es' → m_read_end_is_closed s = true).
Proof.
  intros Hr. destruct (reach_served _ _ _ _ _ Hr) as ([Hs _ _] & Hq & Hm). split; [done|]. split; [by rewrite Hm in Hs|]. intros l s' es' H.
  assert (∀ i who obj q, pop i who obj q s = Some (s', es') → ∀ k e, Throws k e ∉ es') as Hpop.
  { intros i who obj q Hp k e. unfold pop in Hp. apply bind_Some in Hp as (ts & _ & Hp). injection Hp as <- <-. set_solver. }
  assert (∀ i who obj, push i who obj s = Some (s', es') → ∀ k e, Throws k e ∉ es') as Hpush.
  { intros i who obj Hp k e. unfold push in Hp. apply bind_Some in Hp as (ts & _ & Hp). injection Hp as <- <-. set_solver. }
  assert (∀ i who, read i who s = Some (s', es') ∨ try_read i who s = Some (s', es') → (∀ i, Throws i Eof ∈ es' → m_queue s = [] ∧ m_write_end_is_closed s = true) ∧ ∀ i, Throws i SigPipe ∉ es') as Hread.
  { intros i who Hcall. unfold read, try_read, throw in Hcall. destruct (m_queue s) as [|obj q].
    - destruct (m_write_end_is_closed s), Hcall as [Hcall|Hcall]; injection Hcall as <- <-; set_solver.
    - assert (pop i who obj q s = Some (s', es')) as Hp by by destruct Hcall. split; intros k Hin; by destruct (Hpop _ _ _ _ Hp k _ Hin). }
  assert (∀ i who obj, write i who obj s = Some (s', es') ∨ try_write i who obj s = Some (s', es') → (∀ i, Throws i Eof ∉ es') ∧ (∀ i, Throws i SigPipe ∈ es' → m_read_end_is_closed s = true)) as Hwrite.
  { intros i who obj Hcall. unfold write, try_write, throw in Hcall. destruct (m_read_end_is_closed s); [|case_bool_decide].
    - destruct Hcall as [Hcall|Hcall]; injection Hcall as <- <-; set_solver.
    - destruct Hcall as [Hcall|Hcall]; injection Hcall as <- <-; set_solver.
    - assert (push i who obj s = Some (s', es')) as Hp by by destruct Hcall. split; intros k Hin; by destruct (Hpush _ _ _ Hp k _ Hin). }
  destruct l as [i who|i who|i who obj|i who obj|i who|i|i|num|num| |]; cbn in H; try (apply bind_Some in H as (u & Hu & H)).
  - destruct (Hread i who) as [??]; [by left|]. split; [done|set_solver].
  - destruct (Hread i who) as [??]; [by right|]. split; [done|set_solver].
  - destruct (Hwrite i who obj) as [??]; [by left|]. split; [set_solver|done].
  - destruct (Hwrite i who obj) as [??]; [by right|]. split; [set_solver|done].
  - destruct u as [| | | |obj]; try done; [destruct (Hread i who) as [??]; [by left|]; split; [done|set_solver]|destruct (Hwrite i who obj) as [??]; [by left|]; split; [set_solver|done]].
  - destruct (read_waits u || write_waits u); [|done]. injection H as <- <-. set_solver.
  - injection H as <- <-. set_solver.
  - injection H as <- <-. set_solver.
  - injection H as <- <-. set_solver.
  - injection H as <- <-. set_solver.
  - injection H as <- <-. set_solver.
Qed.

Definition resumes l : Prop := match l with Resume _ _ => True | _ => False end.

Lemma resumes_decrease l s s' e : resumes l → step l s = Some (s', e) → (measure s' < measure s)%nat.
Proof. intros Hl Hs. destruct l; try done. by eapply resume_decreases. Qed.

(** C31.  No wake-up is lost: from any state, the threads that were notified
    make a bounded number of steps; where none is left to go on, a reader
    that still waits faces an empty queue whose write end is open, and a
    writer that still waits a full one whose read end is open. *)
Theorem pipe_wakes max_size n ls es s : reach step (new_Pipe max_size n) ls es s →
  ∃ bound, ∀ ls' es' s', reach step s ls' es' s' → Forall resumes ls' →
    (length ls' ≤ bound)%nat ∧
    ((∀ i who, step (Resume i who) s' = None) → ∀ t, t ∈ threads s' →
     match t with
     | Outside => True
     | ReadWaits => m_queue s' = [] ∧ m_write_end_is_closed s' = false
     | WriteWaits _ => length (m_queue s') = max_size ∧ m_read_end_is_closed s' = false
     | ReadWoken | WriteWoken _ => False
     end).
Proof.
  intros Hr. exists (measure s). intros ls' es' s' Hr' Hw. split; [pose proof (reach_bounded step measure resumes _ _ _ _ resumes_decrease Hr' Hw); lia|]. intros Hend t Hin.
  destruct (reach_served _ _ _ _ _ (reach_app step _ _ _ _ _ _ _ Hr Hr')) as ([Hs Hread Hwrite] & _ & Hm).
  assert (∀ t, t ∈ threads s' → read_woken t = false ∧ write_woken t = false) as Hno.
  { intros v [i Hi]%list_elem_of_lookup. destruct (read_woken v) eqn:E1, (write_woken v) eqn:E2; try done;
      (destruct (woken_resumes s' i v Hi) as (who & s2 & es2 & E); [by auto|]; by rewrite Hend in E). }
  destruct t as [| | |obj|obj]; [done| | | |].
  - pose proof (count_some read_waits _ _ Hin eq_refl). rewrite (count_zero read_woken) in Hread by (intros v Hv; by apply Hno).
    destruct Hread as [|[Hc Hl]]; [lia|]. split; [|done]. by apply nil_length_inv; lia.
  - by destruct (Hno _ Hin).
  - pose proof (count_some write_waits _ _ Hin eq_refl). rewrite (count_zero write_woken) in Hwrite by (intros v Hv; by apply Hno).
    destruct Hwrite as [|[Hc Hl]]; [lia|]. split; [lia|done].
  - by destruct (Hno _ Hin).
Qed.
End spec.

(** ** A reader, two writers and one place *)
Definition pipe_run : list (label nat) :=
  [OpenRead 1; OpenWrite 2; Read 0 None; Write 1 (Some 0%nat) 5%nat; Write 2 None 6%nat; Resume 0 (Some 2%nat)].
Lemma pipe_fifo_witness :
  ∃ es s, reach step (new_Pipe 1 3) pipe_run es s ∧ pushed es = [5%nat] ∧ popped es = [5%nat] ∧ pushed es = popped es ++ m_queue s ∧ (length (m_queue s) ≤ 1)%nat.
Proof.
  eexists _, _. assert (exec step pipe_run (new_Pipe 1 3) = Some _) as E by (vm_compute; reflexivity).
  pose proof (exec_reach step _ _ _ _ E) as Hr. split; [exact Hr|]. split; [reflexivity|]. split; [reflexivity|].
  destruct (pipe_fifo _ _ _ _ _ Hr) as (Hf & Hs & _). split; [exact Hf|exact Hs].
Defined.
Lemma pipe_wakes_witness :
  ∃ es s, reach step (new_Pipe 1 3) pipe_run es s ∧ threads s = [Outside; Outside; WriteWoken 6%nat] ∧
    ∃ bound, ∀ ls' es' s', reach step s ls' es' s' → Forall resumes ls' →
      (length ls' ≤ bound)%nat ∧
      ((∀ i who, step (Resume i who) s' = None) → ∀ t, t ∈ threads s' →
       match t with
       | Outside => True
       | ReadWaits => m_queue s' = [] ∧ m_write_end_is_closed s' = false
       | WriteWaits _ => length (m_queue s') = 1%nat ∧ m_read_end_is_closed s' = false
       | ReadWoken | WriteWoken _ => False
       end).
Proof.
  eexists _, _. assert (exec step pipe_run (new_Pipe 1 3) = Some _) as E by (vm_compute; reflexivity).
  pose proof (exec_reach step _ _ _ _ E) as Hr. split; [exact Hr|]. split; [reflexivity|]. exact (pipe_wakes _ _ _ _ _ Hr).
Defined.
