(* ===== verification/LbEvents.v ===== *)
(** * core/src/lb_utils: events and states of the logging and bookkeeping service

    Every decision of the workload manager about a job starts from what the
    logging and bookkeeping service (LB) knows of it: the state of the job and
    the events logged so far.  This file has the data and the functions of
    lb_utils.cpp that look at them, and the conditions of its queries.  The
    library of LB itself is not part of the repository. *)

From S2P Require Import Prelude.

(** ** Data

    The codes that the workload manager looks at have a name. *)
Abbreviation JobId := bytes.

Inductive edg_wll_Source :=
| SOURCE_WORKLOAD_MANAGER | SOURCE_LOG_MONITOR | SOURCE_BIG_HELPER | SOURCE_NETWORK_SERVER | SOURCE_OTHER (n : Z).
Inductive edg_wll_EnQueuedResult := ENQUEUED_START | ENQUEUED_OK | ENQUEUED_FAIL.
Inductive edg_wll_DoneStatus_code := DONE_OK | DONE_FAILED | DONE_CANCELLED.
Inductive edg_wll_ResubmissionResult := WILLRESUB | WONTRESUB | SHALLOW.
Inductive edg_wll_EventCode :=
| EVENT_ENQUEUED | EVENT_DONE | EVENT_CANCEL | EVENT_MATCH | EVENT_RESUBMISSION | EVENT_USERTAG | EVENT_OTHER (n : Z).
(** The union of an event, by its type. *)
Inductive event_data :=
| enQueued (result : edg_wll_EnQueuedResult) (job : bytes)
| done (status_code : edg_wll_DoneStatus_code)
| cancel
| match_ (dest_id : bytes)
| resubmission (result : edg_wll_ResubmissionResult)
| userTag (name value : bytes) (timestamp : Z)
| other (n : Z).
Record edg_wll_Event := LbEvent { any_source : edg_wll_Source; data : event_data }.
Definition type (e : edg_wll_Event) : edg_wll_EventCode :=
  match data e with
  | enQueued _ _ => EVENT_ENQUEUED | done _ => EVENT_DONE | cancel => EVENT_CANCEL | match_ _ => EVENT_MATCH
  | resubmission _ => EVENT_RESUBMISSION | userTag _ _ _ => EVENT_USERTAG | other n => EVENT_OTHER n
  end.
Abbreviation LB_Events := (list edg_wll_Event).

Inductive edg_wll_JobStatCode :=
| JOB_UNDEF | JOB_SUBMITTED | JOB_WAITING | JOB_READY | JOB_SCHEDULED | JOB_RUNNING | JOB_DONE | JOB_CLEARED | JOB_ABORTED
| JOB_CANCELLED | JOB_OTHER (n : Z).
Inductive edg_wll_StatJobtype := STAT_SIMPLE | STAT_DAG | STAT_COLLECTION | STAT_OTHER (n : Z).
(** [children] is [None] for a null pointer; an element is [None] where the
    array of [children_num] pointers has a null one.  [children_states] is
    [None] for a null pointer as well.  Only the state of a child is read. *)
Record edg_wll_JobStat := JobStat {
  state : edg_wll_JobStatCode;
  jobtype : edg_wll_StatJobtype;
  children : option (list (option JobId));
  children_states : option (list edg_wll_JobStatCode)
}.
Abbreviation JobStatusPtr := (option edg_wll_JobStat).

#[export] Instance Source_eqdec : EqDecision edg_wll_Source.
Proof. solve_decision. Defined.
#[export] Instance EnQueuedResult_eqdec : EqDecision edg_wll_EnQueuedResult.
Proof. solve_decision. Defined.
#[export] Instance DoneStatus_eqdec : EqDecision edg_wll_DoneStatus_code.
Proof. solve_decision. Defined.
#[export] Instance EventCode_eqdec : EqDecision edg_wll_EventCode.
Proof. solve_decision. Defined.
#[export] Instance JobStatCode_eqdec : EqDecision edg_wll_JobStatCode.
Proof. solve_decision. Defined.
#[export] Instance StatJobtype_eqdec : EqDecision edg_wll_StatJobtype.
Proof. solve_decision. Defined.

(** ** States *)
Definition in_state (c : edg_wll_JobStatCode) (status : JobStatusPtr) : bool :=
  match status with Some s => bool_decide (state s = c) | None => false end.
Definition is_submitted := in_state JOB_SUBMITTED.
Definition is_waiting := in_state JOB_WAITING.
Definition is_ready := in_state JOB_READY.
Definition is_done := in_state JOB_DONE.
Definition is_cancelled := in_state JOB_CANCELLED.
Definition is_aborted := in_state JOB_ABORTED.

(** ** The last event of a kind

    [std::find_if] from the first position of a range; the length of the
    range stands for its end. *)
Fixpoint find_if {A} (p : A → bool) (l : list A) : nat :=
  match l with [] => 0 | x :: l => if p x then 0 else S (find_if p l) end.
(** The common shape of the [find_last] functions: a search from [rbegin],
    and the element below the position found as a forward iterator. *)
Definition find_last {A} (p : A → bool) (l : list A) : nat :=
  let it := find_if p (reverse l) in
  if decide (it = length l) then length l else (length l - S it)%nat.

Definition is_enqueued_to_jc (e : edg_wll_Event) : bool :=
  bool_decide (type e = EVENT_ENQUEUED) && bool_decide (any_source e = SOURCE_WORKLOAD_MANAGER).
Definition is_cancelled_event (e : edg_wll_Event) : bool := bool_decide (type e = EVENT_CANCEL).
Definition is_done_event (e : edg_wll_Event) : bool :=
  bool_decide (type e = EVENT_DONE) && bool_decide (any_source e = SOURCE_LOG_MONITOR).
Definition find_last_enqueued_to_jc (events : LB_Events) : nat := find_last is_enqueued_to_jc events.
Definition find_last_cancelled (events : LB_Events) : nat := find_last is_cancelled_event events.
Definition find_last_done (events : LB_Events) : nat := find_last is_done_event events.

Definition is_last_done (events : LB_Events) (status_code : edg_wll_DoneStatus_code) : bool :=
  match events !! find_last_done events with
  | Some e => match data e with done c => bool_decide (c = status_code) | _ => false end
  | None => false
  end.
Definition is_last_cancelled_by_wm (events : LB_Events) : bool :=
  match events !! find_last_cancelled events with
  | Some e => bool_decide (any_source e = SOURCE_WORKLOAD_MANAGER)
  | None => false
  end.
Definition is_last_enqueued_by_wm (events : LB_Events) (result : edg_wll_EnQueuedResult) : bool :=
  match events !! find_last_enqueued_to_jc events with
  | Some e => match data e with enQueued r _ => bool_decide (r = result) | _ => false end
  | None => false
  end.

Definition in_limbo (status : JobStatusPtr) (events : LB_Events) : bool :=
  let last_enqueued_by_wm_is_start := is_last_enqueued_by_wm events ENQUEUED_START in
  is_ready status && last_enqueued_by_wm_is_start
  || is_done status && is_last_done events DONE_FAILED && last_enqueued_by_wm_is_start.

(** ** Resubmissions and matches *)
Definition is_deep_resubmission (e : edg_wll_Event) : bool := match data e with resubmission WILLRESUB => true | _ => false end.
Definition is_shallow_resubmission (e : edg_wll_Event) : bool := match data e with resubmission SHALLOW => true | _ => false end.
Definition find_last_deep_resubmission (events : LB_Events) : nat := find_last is_deep_resubmission events.

Fixpoint count_if {A} (p : A → bool) (l : list A) : Z :=
  match l with [] => 0 | x :: l => (if p x then 1 else 0) + count_if p l end.
Definition get_retry_counts (events : LB_Events) : Z * Z :=
  let deep_count := count_if is_deep_resubmission events in
  let last := find_last_deep_resubmission events in
  let last := if decide (last = length events) then 0%nat else last in
  (deep_count, count_if is_shallow_resubmission (drop last events)).

(** [boost::algorithm::iequals] and the name of the tag are parameters: the
    attribute names of the JDL library are not part of the repository. *)
Definition get_previous_matches (is_ce_info_host : bytes → bool) (events : LB_Events) : list (bytes * Z) :=
  omap (λ e, match data e with userTag name value t => if is_ce_info_host name then Some (value, t) else None | _ => None end) events.

(** The JDL that was enqueued: the first non-empty one. *)
Definition original_jdl (events : LB_Events) : bytes :=
  foldl (λ result e,
    match data e with
    | enQueued ENQUEUED_OK job => if decide (result = []) then job else result
    | _ => result
    end) [] events.
(** The destination of the last match; [None] for an event of another type. *)
Definition last_dest_id (events : LB_Events) : option bytes :=
  match last events with
  | None => Some []
  | Some e => match data e with match_ d => Some d | _ => None end
  end.

(** ** Queries

    A query has one array of conditions per attribute: an event satisfies it
    if it satisfies one condition of each array. *)
Inductive edg_wll_QueryRec := EVENT_TYPE_EQUAL (c : edg_wll_EventCode) | SOURCE_EQUAL (s : edg_wll_Source).
Definition satisfies (e : edg_wll_Event) (q : edg_wll_QueryRec) : bool :=
  match q with
  | EVENT_TYPE_EQUAL c => bool_decide (type e = c)
  | SOURCE_EQUAL s => bool_decide (any_source e = s)
  end.
Definition satisfies_all (e : edg_wll_Event) (qs : list (list edg_wll_QueryRec)) : bool := forallb (existsb (satisfies e)) qs.

Definition cancel_conditions : list (list edg_wll_QueryRec) :=
  [[EVENT_TYPE_EQUAL EVENT_ENQUEUED; EVENT_TYPE_EQUAL EVENT_CANCEL]; [SOURCE_EQUAL SOURCE_WORKLOAD_MANAGER]].
Definition recovery_conditions : list (list edg_wll_QueryRec) :=
  [[EVENT_TYPE_EQUAL EVENT_ENQUEUED; EVENT_TYPE_EQUAL EVENT_DONE]; [SOURCE_EQUAL SOURCE_WORKLOAD_MANAGER; SOURCE_EQUAL SOURCE_LOG_MONITOR]].
Definition interesting_conditions : list (list edg_wll_QueryRec) :=
  [[EVENT_TYPE_EQUAL EVENT_MATCH; EVENT_TYPE_EQUAL EVENT_RESUBMISSION; EVENT_TYPE_EQUAL EVENT_USERTAG];
   [SOURCE_EQUAL SOURCE_WORKLOAD_MANAGER; SOURCE_EQUAL SOURCE_BIG_HELPER]].
Definition last_match_conditions : list (list edg_wll_QueryRec) :=
  [[EVENT_TYPE_EQUAL EVENT_MATCH]; [SOURCE_EQUAL SOURCE_WORKLOAD_MANAGER]].
(** [edg_wll_QueryEvents] takes one array, all of whose conditions hold. *)
Definition original_jdl_conditions : list (list edg_wll_QueryRec) :=
  [[EVENT_TYPE_EQUAL EVENT_ENQUEUED]; [SOURCE_EQUAL SOURCE_NETWORK_SERVER]].

(** ** Error numbers *)
Definition ENOENT : Z := 2.
Definition EAGAIN : Z := 11.
Definition ENOTCONN : Z := 107.
Definition ETIMEDOUT : Z := 110.
Definition ECONNREFUSED : Z := 111.
Definition is_retryable (error : Z) : bool :=
  (error =? ETIMEDOUT) || (error =? ENOTCONN) || (error =? ECONNREFUSED) || (error =? EAGAIN).

(** ** Lemmas *)
Section find_last.
Context {A : Type} (p : A → bool).

Lemma find_if_spec l :
  find_if p l = length l ∧ Forall (λ x, p x = false) l
  ∨ ∃ a x b, l = a ++ x :: b ∧ find_if p l = length a ∧ p x = true ∧ Forall (λ x, p x = false) a.
Proof.
  induction l as [|y l IH]; cbn [find_if length]; [by left|]. destruct (p y) eqn:Hy.
  - right. by exists [], y, l.
  - destruct IH as [[-> Hl]|(a & x & b & -> & -> & Hx & Ha)]; [left; by auto|]. right. exists (y :: a), x, b. by auto.
Qed.

(** Either no element satisfies [p], or the one found is the last one. *)
Lemma find_last_spec l :
  find_last p l = length l ∧ Forall (λ x, p x = false) l
  ∨ ∃ a x b, l = a ++ x :: b ∧ find_last p l = length a ∧ p x = true ∧ Forall (λ x, p x = false) b.
Proof.
  unfold find_last. destruct (find_if_spec (reverse l)) as [[He Hl]|(a & x & b & Hl & He & Hx & Ha)]; rewrite He.
  - left. rewrite length_reverse, decide_True by done. split; [done|]. apply Forall_reverse in Hl. by rewrite reverse_involutive in Hl.
  - right. assert (l = reverse b ++ x :: reverse a) as ->.
    { rewrite <- (reverse_involutive l), Hl, reverse_app, reverse_cons, <- (assoc_L (++)). done. }
    exists (reverse b), x, (reverse a). rewrite decide_False by (rewrite length_app; cbn [length]; rewrite !length_reverse; lia).
    rewrite length_app; cbn [length]; rewrite !length_reverse. repeat split; [lia|done|by apply Forall_reverse].
Qed.

Lemma count_if_app (l k : list A) : count_if p (l ++ k) = count_if p l + count_if p k.
Proof. induction l as [|x l IH]; cbn [app count_if]; lia. Qed.
Lemma count_if_none (l : list A) : Forall (λ x, p x = false) l → count_if p l = 0.
Proof. induction 1 as [|x l Hx _ IH]; cbn [count_if]; [done|]. by rewrite Hx, IH. Qed.
Lemma count_if_bounds (l : list A) : 0 ≤ count_if p l ≤ Z.of_nat (length l).
Proof. induction l as [|x l IH]; cbn [count_if length]; [lia|]. destruct (p x); lia. Qed.
End find_last.
