(* ===== verification/Manager.v ===== *)
(** * core/src: the state of the workload manager

    What the processors of requests share: the contexts and the log of the
    logging and bookkeeping service (LB), the tokens in the sandbox
    directories, the files of requests, the states of requests under their
    shared pointers, the event queue ([Events]) and what was delivered to the
    job controller and to ICE.

    The outside answers through [Env]: each answer takes the number of
    external calls made so far, so that it may be different at each call and
    depend on everything that happened.  ClassAds, the JDL accessors and job
    ids are libraries that are not part of the repository ([Libraries]). *)

From stdpp Require Import gmap strings.
From S2P Require Import Prelude Numbers LbEvents Events.

(** ** Exceptions *)
Inductive exn :=
| ClassAdError | CannotCreateLBContext (errcode : Z) | LB_QueryFailed | LB_QueryTemporarilyFailed
| invalid_argument | ManipulationException | wms_Exception | JobIdError
| HitMaxRetryCount (n : Z) | HitJobRetryCount (n : Z) | HitMaxShallowCount (n : Z) | HitJobShallowCount (n : Z)
| CannotRetrieveJDL | HelperError | CannotCreateToken | CannotDeliverFatal | MissingProxy | InvalidProxy
| JobDirError | bad_lexical_cast | std_exn | unknown_exn.

(** ** Requests

    A shared pointer is a number, the key of what it points to. *)
Inductive cleanup :=
| remove_from_input (item : bytes)                      (* of the input item *)
| RemoveNodeFromCollection (node_name : bytes) (request : nat).
Inductive Processor :=
| SubmitProcessor (state : option nat) | CancelProcessor (state : nat) | MatchProcessor (state : nat)
| Dispatcher | dump_ism | Replanner.
Inductive checkpoint := START | LIMBO | PENDING.
#[export] Instance checkpoint_eqdec : EqDecision checkpoint.
Proof. solve_decision. Defined.
#[export] Instance Processor_eqdec : EqDecision Processor.
Proof. solve_decision. Defined.

Section states.
Context {Ad : Type}.

Record SubmitState := SubmitSt {
  m_command : bytes;
  m_id : JobId;
  m_sequence_code : bytes;
  m_x509_proxy : bytes;
  m_lb_context : nat;
  m_cleanup : cleanup;
  m_last_checkpointing : checkpoint;
  m_collection_pending : gset bytes;
  m_created_at : Z;
  m_ad : option Ad                                      (* [None]: the null pointer *)
}.
Record CancelState := CancelSt { c_id : JobId; c_lb_context : nat; c_cleanup : cleanup }.
Record MatchState := MatchSt { mt_command_ad : Ad; mt_id : JobId; mt_cleanup : cleanup }.

Definition set_checkpoint c (s : SubmitState) := SubmitSt (m_command s) (m_id s) (m_sequence_code s) (m_x509_proxy s) (m_lb_context s)
  (m_cleanup s) c (m_collection_pending s) (m_created_at s) (m_ad s).
Definition set_pending p (s : SubmitState) := SubmitSt (m_command s) (m_id s) (m_sequence_code s) (m_x509_proxy s) (m_lb_context s)
  (m_cleanup s) (m_last_checkpointing s) p (m_created_at s) (m_ad s).
Definition set_ad a (s : SubmitState) := SubmitSt (m_command s) (m_id s) (m_sequence_code s) (m_x509_proxy s) (m_lb_context s)
  (m_cleanup s) (m_last_checkpointing s) (m_collection_pending s) (m_created_at s) a.

(** ** Logging

    One constructor for each function of the LB producer that is called. *)
Inductive log_event :=
| LogMatch (ce_id : bytes) | LogEnQueuedSTART (to : bytes) | LogEnQueuedOK (to ad : bytes) | LogEnQueuedFAIL (to ad reason : bytes)
| LogTransferSTART (logfile : bytes) | LogTransferOK (logfile rsl reason : bytes) | LogRunning (host : bytes)
| LogDoneOK (reason : bytes) (retcode : Z) | LogDoneCANCELLED (reason : bytes)
| LogCancelREQ | LogCancelDONE | LogPending (reason : bytes) | LogAbort (reason : bytes)
| LogResubmissionSHALLOW (reason token : bytes) | LogResubmissionWILLRESUB (reason token : bytes)
| LogDeQueued (from : bytes) | LogUserTag (name value : bytes).
(** An LB context logs for one job as one source at a time. *)
Record Context := Ctx { cx_job : JobId; cx_source : edg_wll_Source }.
Record logged := Logged { lg_job : JobId; lg_source : edg_wll_Source; lg_event : log_event }.

(** What leaves the workload manager: a command for ICE, for the job
    controller or for the workload manager itself, or a call of the purger or
    of the proxy renewal. *)
Inductive output := to_ice (ad : bytes) | to_jc (ad : bytes) | to_wm (ad : bytes) | purged (id : JobId) (as_ : option log_event) | unregistered (id : JobId).

(** ** The world *)
Record World := mkWorld {
  calls : nat;                                         (* external calls so far *)
  log : list logged;
  contexts : list Context;
  sandbox : gset (JobId * bytes);                      (* files in the directory of a job *)
  input : gset bytes;                                  (* request files in old *)
  submits : gmap nat SubmitState;
  cancels : gmap nat CancelState;
  matches : gmap nat MatchState;
  next_state : nat;
  events : Events Processor;
  outputs : list output
}.
Definition set_calls x w := mkWorld x (log w) (contexts w) (sandbox w) (input w) (submits w) (cancels w) (matches w) (next_state w) (events w) (outputs w).
Definition set_log x w := mkWorld (calls w) x (contexts w) (sandbox w) (input w) (submits w) (cancels w) (matches w) (next_state w) (events w) (outputs w).
Definition set_contexts x w := mkWorld (calls w) (log w) x (sandbox w) (input w) (submits w) (cancels w) (matches w) (next_state w) (events w) (outputs w).
Definition set_sandbox x w := mkWorld (calls w) (log w) (contexts w) x (input w) (submits w) (cancels w) (matches w) (next_state w) (events w) (outputs w).
Definition set_input x w := mkWorld (calls w) (log w) (contexts w) (sandbox w) x (submits w) (cancels w) (matches w) (next_state w) (events w) (outputs w).
Definition set_submits x w := mkWorld (calls w) (log w) (contexts w) (sandbox w) (input w) x (cancels w) (matches w) (next_state w) (events w) (outputs w).
Definition set_cancels x w := mkWorld (calls w) (log w) (contexts w) (sandbox w) (input w) (submits w) x (matches w) (next_state w) (events w) (outputs w).
Definition set_matches x w := mkWorld (calls w) (log w) (contexts w) (sandbox w) (input w) (submits w) (cancels w) x (next_state w) (events w) (outputs w).
Definition set_next_state x w := mkWorld (calls w) (log w) (contexts w) (sandbox w) (input w) (submits w) (cancels w) (matches w) x (events w) (outputs w).
Definition set_events x w := mkWorld (calls w) (log w) (contexts w) (sandbox w) (input w) (submits w) (cancels w) (matches w) (next_state w) x (outputs w).
Definition set_outputs x w := mkWorld (calls w) (log w) (contexts w) (sandbox w) (input w) (submits w) (cancels w) (matches w) (next_state w) (events w) x.
End states.
Arguments SubmitState : clear implicits.
Arguments MatchState : clear implicits.
Arguments World : clear implicits.

(** ** Libraries *)
Class Libraries (Ad : Type) := {
  (** classad_utils and the ClassAd library; [None] where they throw a
      [ClassAdError] or return false or a null pointer *)
  new_ClassAd : Ad;
  parse_classad : bytes → option Ad;
  unparse_classad : Ad → bytes;
  left_matches_right : Ad → Ad → bool;
  evaluate_string : Ad → bytes → option bytes;
  evaluate_classad : Ad → bytes → option Ad;
  EvaluateAttrString : Ad → bytes → option bytes;
  EvaluateAttrClassAd : Ad → bytes → option Ad;
  EvaluateAttrList : Ad → bytes → option Z;             (* the size of the list *)
  Lookup : Ad → bytes → option Ad;
  Remove : Ad → bytes → option Ad;
  InsertAttr : bytes → bytes → Ad → Ad;
  InsertAttr_int : bytes → Z → Ad → Ad;
  InsertAttr_bool : bytes → bool → Ad → Ad;
  Insert : bytes → Ad → Ad → Ad;
  (** glite::jdl; [None] where an accessor throws, or leaves its flag false *)
  get_edg_jobid : Ad → option bytes;
  jdl_get_lb_sequence_code : Ad → option bytes;
  get_x509_user_proxy : Ad → option bytes;
  get_ce_id : Ad → option bytes;
  get_ceinfo_host_name : Ad → bytes;
  get_input_sandbox_path : Ad → option bytes;
  get_expiry_time : Ad → option Z;
  get_shallow_retry_count : Ad → option Z;
  get_retry_count : Ad → option Z;
  get_replans_count : Ad → option Z;
  set_lb_sequence_code : bytes → Ad → Ad;
  set_replans_count : Z → Ad → Ad;
  remove_replans_count : Ad → Ad;
  get_enable_wms_feedback : Ad → bool;
  set_edg_previous_matches : list bytes → Ad → Ad;
  set_edg_previous_matches_ex : list (bytes * Z) → Ad → Ad;
  (** [DAGAd]: nodes by name, vertices of the graph, sources of the in-edges *)
  dag_nodes : Ad → list (bytes * Ad);
  dag_vertices : Ad → list bytes;
  dag_in_edges : Ad → bytes → list bytes;
  (** glite::jobid; the empty text is the default job id *)
  parse_jobid : bytes → option JobId;
  localhost_jobid : JobId;
  (** boost *)
  is_cream_ce_id : bytes → bool;                        (* [regex_match] with .+/cream-.+ *)
  is_token_name : bytes → bool;                         (* [regex_match] with the token file and _.* *)
  float_of_text : bytes → option Z;                     (* [lexical_cast<float>], truncated *)
  is_ce_info_host : bytes → bool;
  CE_INFO_HOST : bytes;
  what : exn → bytes
}.

(** ** The outside *)
Inductive proxy := missing | invalid | expired | valid.
Record scheduled_job (Ad : Type) := ScheduledJob { planned_tag : Ad; adapted_tag : Ad }.
Arguments ScheduledJob {Ad}.
Arguments planned_tag {Ad}.
Arguments adapted_tag {Ad}.
Class Env (Ad : Type) := {
  time : nat → Z;
  (** LB; an error number, 0 for success *)
  lb_context : nat → JobId → Z;
  lb_set_job : nat → JobId → Context → Context;         (* [edg_wll_SetLoggingJob] *)
  lb_log_answer : nat → Context → log_event → Z;
  lb_status : nat → JobId → bool → bool → option edg_wll_JobStat;   (* with the two flags *)
  lb_query : nat → JobId → list (list edg_wll_QueryRec) → Z * LB_Events;
  lb_sequence_code : nat → option bytes;
  lb_logging_job : nat → Z;
  EDG_WLL_ERROR_GSS : Z;
  (** proxies, planning, match making *)
  get_user_x509_proxy : nat → JobId → bytes;
  proxy_of : nat → bytes → proxy;
  plan : nat → Ad → exn + Ad;
  do_bulk_mm : nat → Ad → exn + (list (scheduled_job Ad) * gset bytes);
  match_throws : nat → Ad → bool;
  (** files; [None] for a directory that cannot be read *)
  read_dir : nat → JobId → gset bytes → option (list bytes);
  create_error : nat → JobId → bytes → Z;
  rename_error : nat → JobId → bytes → Z;
  deliver_error : nat → bool → bytes → option bytes;    (* to ICE or not *)
  (** [read] of the input: the files taken, each with its text unless it
      cannot be read, and what was thrown afterwards *)
  read_input : nat → list (bytes * option bytes) * option exn;
  quit_signal : nat → bool;
  (** the replanner: the jobs of a query with their states, the context made
      in its constructor, [errno] after a call that succeeds *)
  lb_query_jobs : nat → Z * list (JobId * edg_wll_JobStatCode);
  replanner_context : bool;
  stale_errno : nat → Z;
  open_jobdir : nat → bool;
  deliver_wm_error : nat → bytes → bool;
  cancel_log_file : nat → JobId → option bytes;
  (** configuration *)
  expiry_period : Z;
  match_retry_period : Z;
  max_shallow_retry_count : Z;
  max_retry_count : Z;
  max_replans_count : Z;
  replan_grace_period : Z;
  token_file : bytes;
  queue_size : Z;
  wm_input : bytes;
  ice_input : bytes;
  jc_input : bytes;
  input_source : bytes
}.
