(* ===== verification/WmUtils.v ===== *)
(** * core/src: lb_utils, submission_utils and wm_real over the state of the workload manager

    Contexts and logging with its retries, queries, tokens, the shared
    pointers of requests, and [WMReal], which hands a planned job to ICE or
    to the job controller.  Log lines of the daemon and the sleeps between
    two tries are left out. *)

From stdpp Require Import gmap strings.
From S2P Require Import Prelude Numbers LbEvents Events Manager Vectors.

Section operations.
Context {Ad : Type} `{Libraries Ad} `{Env Ad}.
Abbreviation W := (World Ad).
Abbreviation WM := (M W exn).

(** ** Answers of the outside *)
Definition ask {A} (f : nat → A) : WM A := λ w, (set_calls (S (calls w)) w, Ret (f (calls w))).
(** A change of the state with a result. *)
Definition put {A} (f : W → W * A) : WM A := λ w, let '(w', a) := f w in (w', Ret a).
Definition gets {A} (f : W → A) : WM A := λ w, (w, Ret (f w)).
(** An accessor that throws [e]. *)
Definition or_throw {A} (e : exn) (o : option A) : WM A := match o with Some a => mret a | None => fail e end.
Definition deref {A} (o : option A) : WM A := match o with Some a => mret a | None => stuck end.
Definition when (b : bool) (m : WM unit) : WM unit := if b then m else mret tt.
(** [m], and then [c] however [m] has ended: a destructor. *)
Definition finally {A} (m : WM A) (c : WM unit) : WM A := λ w,
  let '(w1, r) := m w in
  match r with
  | Stuck => (w1, Stuck)
  | _ => let '(w2, r2) := c w1 in (w2, match r2 with Ret _ => r | Fail e => Fail e | Stuck => Stuck end)
  end.
Fixpoint for_each {A} (f : A → WM unit) (l : list A) : WM unit :=
  match l with [] => mret tt | x :: l => f x ;; for_each f l end.

(** ** Contexts and logging *)
Definition create_context (id : JobId) (x509_proxy sequence_code : bytes) : WM nat :=
  errcode ← ask (λ n, lb_context n id);
  if errcode =? 0
  then put (λ w, (set_contexts (contexts w ++ [Ctx id SOURCE_WORKLOAD_MANAGER]) w, length (contexts w)))
  else fail (CannotCreateLBContext errcode).
Definition change_logging_job (context : nat) (sequence_code : bytes) (id : JobId) : WM unit :=
  f ← ask (λ n, lb_set_job n id); modify (λ w, set_contexts (alter f context (contexts w)) w).
Definition change_logging_src (context : nat) (source : edg_wll_Source) : WM unit :=
  modify (λ w, set_contexts (alter (λ c, Ctx (cx_job c) source) context (contexts w)) w).
Definition get_lb_sequence_code (context : nat) : WM bytes := sc ← ask lb_sequence_code; or_throw std_exn sc.

(** One call of the producer library. *)
Definition log_function (e : log_event) (context : nat) : WM Z :=
  c ← gets (λ w, contexts w !! context); c ← deref c; error ← ask (λ n, lb_log_answer n c e);
  (if error =? 0 then modify (λ w, set_log (log w ++ [Logged (cx_job c) (cx_source c) e]) w) else mret tt) ;;
  mret error.
Definition get_host_x509_proxy : bytes := of_string "host".
(** The context of the host proxy for the job of [user_context]; [None] for
    the [break]s before it. *)
Definition host_context (user_context : nat) : WM (option nat) :=
  sc ← ask lb_sequence_code;
  match sc with
  | None => mret None
  | Some sequence_code =>
      e ← ask lb_logging_job;
      if e =? 0
      then c ← gets (λ w, contexts w !! user_context); c ← deref c;
           h ← create_context (cx_job c) get_host_x509_proxy sequence_code; mret (Some h)
      else mret None
  end.
Definition retries : nat := 10.
Fixpoint host_loop (i : nat) (e : log_event) (host : nat) (lb_error : Z) : WM bool :=
  match i with
  | O => mret (lb_error =? 0)
  | S i =>
      if lb_error =? 0 then mret true
      else if negb (is_retryable lb_error) then mret false
      else lb_error ← log_function e host; host_loop i e host lb_error
  end.
Fixpoint lb_log_loop (i : nat) (e : log_event) (user_context : nat) (lb_error : Z) : WM bool :=
  match i with
  | O => mret (lb_error =? 0)
  | S i =>
      if lb_error =? 0 then mret true
      else if lb_error =? EDG_WLL_ERROR_GSS
      then host ← host_context user_context;
           match host with
           | None => mret false
           | Some host => lb_error ← log_function e host; host_loop retries e host lb_error
           end
      else host ← host_context user_context;
           match host with
           | None => mret false
           | Some host =>
               if negb (is_retryable lb_error) then mret false
               else lb_error ← log_function e host; lb_log_loop i e user_context lb_error
           end
  end.
Definition lb_log (e : log_event) (user_context : nat) : WM bool :=
  lb_error ← log_function e user_context; lb_log_loop retries e user_context lb_error.

(** Each function chooses between the LB proxy and the LB server by the
    configuration; the event is the same. *)
Definition log_ (e : log_event) (context : nat) : WM unit := _ ← lb_log e context; mret tt.
Definition log_dequeued context from := log_ (LogDeQueued from) context.
Definition log_cancel_req context := log_ LogCancelREQ context.
Definition log_cancelled context := log_ LogCancelDONE context.
Definition log_done_cancelled context := log_ (LogDoneCANCELLED (of_string "Aborted by user")) context.
Definition log_pending context reason := log_ (LogPending reason) context.
Definition log_abort context reason := log_ (LogAbort reason) context.
Definition log_resubmission_shallow context token := log_ (LogResubmissionSHALLOW (of_string "token still exists") token) context.
Definition log_resubmission_deep context := log_ (LogResubmissionWILLRESUB (of_string "shallow resubmission is disabled") []) context.
Definition log_resubmission_deep_token context token := log_ (LogResubmissionWILLRESUB (of_string "token was grabbed") token) context.
Definition log_usertag context name value := log_ (LogUserTag name value) context.
Definition log_match context ce_id := log_ (LogMatch ce_id) context.
Definition log_transfer_start context logfile := log_ (LogTransferSTART logfile) context.
Definition log_transfer_ok context logfile rsl reason := log_ (LogTransferOK logfile rsl reason) context.
Definition log_running context host := log_ (LogRunning host) context.
Definition log_done_ok context reason retcode := log_ (LogDoneOK reason retcode) context.
Definition log_enqueued_start context to := log_ (LogEnQueuedSTART to) context.
Definition log_enqueued_ok context to ad := log_ (LogEnQueuedOK to ad) context.
Definition log_enqueued_fail context to ad reason := log_ (LogEnQueuedFAIL to ad reason) context.

(** ** Queries *)
Definition do_query_events (id : JobId) (conditions : list (list edg_wll_QueryRec)) (enoent_is_error : bool) : WM LB_Events :=
  '(error, events) ← ask (λ n, lb_query n id conditions);
  if (error =? 0) || negb enoent_is_error && (error =? ENOENT) then mret events
  else if is_retryable error then fail LB_QueryTemporarilyFailed else fail LB_QueryFailed.
Definition get_cancel_events (id : JobId) : WM LB_Events := do_query_events id cancel_conditions false.
Definition get_recovery_events (id : JobId) : WM LB_Events := do_query_events id recovery_conditions false.
Definition get_interesting_events (id : JobId) : WM LB_Events := do_query_events id interesting_conditions true.
Definition get_original_jdl (id : JobId) : WM bytes :=
  '(error, events) ← ask (λ n, lb_query n id original_jdl_conditions);
  if error =? 0 then mret (original_jdl events)
  else if is_retryable error then fail LB_QueryTemporarilyFailed else fail LB_QueryFailed.
Definition get_last_matched_ceid (id : JobId) : WM bytes :=
  match_events ← do_query_events id last_match_conditions false; deref (last_dest_id match_events).

(** With the context of a request; and with a context made for the call.
    The flags ask for the children and for their states. *)
Definition job_status (id : JobId) (children child_status : bool) : WM JobStatusPtr := ask (λ n, lb_status n id children child_status).
Definition job_status_own_context (id : JobId) (children child_status : bool) : WM JobStatusPtr :=
  x509_proxy ← ask (λ n, get_user_x509_proxy n id);
  _ ← create_context id x509_proxy [];
  job_status id children child_status.

(** ** Proxies *)
Definition is_proxy_expired (id : JobId) : WM bool :=
  proxy_file ← ask (λ n, get_user_x509_proxy n id);
  p ← ask (λ n, proxy_of n proxy_file);
  match p with missing => fail MissingProxy | invalid => fail InvalidProxy | expired => mret true | valid => mret false end.

(** ** Tokens: a path is a job, for its directory, and a leaf *)
Definition get_cancel_token (id : JobId) : JobId * bytes := (id, of_string "wm_cancel_token").
Definition get_reallyrunning_token (id : JobId) (replans_count : Z) : JobId * bytes := (id, token_file ++ of_string "_" ++ text_of_long replans_count).
Definition exists_ (p : JobId * bytes) : WM bool := gets (λ w, bool_decide (p ∈ sandbox w)).
Definition unlink (p : JobId * bytes) : WM unit := modify (λ w, set_sandbox (sandbox w ∖ {[p]}) w).
Definition create_token (p : JobId * bytes) : WM unit :=
  e ← ask (λ n, create_error n p.1 p.2);
  if e =? 0 then modify (λ w, set_sandbox (sandbox w ∪ {[p]}) w) else fail CannotCreateToken.
(** [rename] within a directory; the error number. *)
Definition rename (id : JobId) (from to : bytes) : WM Z :=
  e ← ask (λ n, rename_error n id from);
  if negb (e =? 0) then mret e
  else found ← exists_ (id, from);
       if found : bool then modify (λ w, set_sandbox (sandbox w ∖ {[(id, from)]} ∪ {[(id, to)]}) w) ;; mret 0 else mret ENOENT.
Definition leafs_of (id : JobId) (s : gset (JobId * bytes)) : gset bytes := list_to_set (snd <$> filter (λ p, p.1 = id) (elements s)).
Definition directory (id : JobId) : WM (option (list bytes)) :=
  s ← gets sandbox; ask (λ n, read_dir n id (leafs_of id s)).

(** ** The event queue *)
Definition schedule_now (f : Processor) (priority : Z) : WM unit :=
  t ← ask time; modify (λ w, set_events (schedule t (Some f) priority (events w)) w).
Definition schedule_in (f : Processor) (seconds priority : Z) : WM unit :=
  t ← ask time; modify (λ w, set_events (schedule_at (Some f) (t + seconds) priority (events w)) w).

(** ** Shared pointers

    A processor is referred to by the entries of the queue and by the
    workers that call it; a state as well by the cleanup of its children. *)
Definition calling (f : Processor) (w : worker Processor) : bool :=
  match w with Calling (Some g) => bool_decide (g = f) | _ => false end.
Definition in_queue (f : Processor) (s : Events Processor) : bool :=
  existsb (λ e : entry Processor, bool_decide (e.2 = Some f)) (ready s ++ waiting s) || existsb (calling f) (workers s).
Definition parent_of (s : SubmitState Ad) : option nat := match m_cleanup s with RemoveNodeFromCollection _ p => Some p | _ => None end.
Definition has_child (i : nat) (m : gmap nat (SubmitState Ad)) : bool := existsb (λ kv, bool_decide (parent_of kv.2 = Some i)) (map_to_list m).
Definition referenced (i : nat) (w : W) : bool := in_queue (SubmitProcessor (Some i)) (events w) || has_child i (submits w).

(** A shared pointer to the state [i] goes away; [n] is a bound for the
    number of destructors that follow, each of a state older than the one
    before. *)
Fixpoint release_submit (n i : nat) : WM unit := λ w,
  match n with
  | O => (w, Ret tt)
  | S n =>
      if referenced i w then (w, Ret tt)
      else match submits w !! i with
           | None => (w, Ret tt)
           | Some s =>
               let w := set_submits (delete i (submits w)) w in
               match m_cleanup s with
               | remove_from_input item => (set_input (input w ∖ {[item]}) w, Ret tt)
               | RemoveNodeFromCollection name p =>
                   release_submit n p (set_submits (alter (λ r, set_pending (m_collection_pending r ∖ {[name]}) r) p (submits w)) w)
               end
           end
  end.
Definition release_SubmitState (i : nat) : WM unit := release_submit (S i) i.
Definition run_cleanup (c : cleanup) : WM unit :=
  match c with
  | remove_from_input item => modify (λ w, set_input (input w ∖ {[item]}) w)
  | RemoveNodeFromCollection name p =>
      modify (λ w, set_submits (alter (λ r, set_pending (m_collection_pending r ∖ {[name]}) r) p (submits w)) w)
  end.
Definition release_CancelState (i : nat) : WM unit := λ w,
  if in_queue (CancelProcessor i) (events w) then (w, Ret tt)
  else match cancels w !! i with
       | None => (w, Ret tt)
       | Some s => run_cleanup (c_cleanup s) (set_cancels (delete i (cancels w)) w)
       end.
Definition release_MatchState (i : nat) : WM unit := λ w,
  if in_queue (MatchProcessor i) (events w) then (w, Ret tt)
  else match matches w !! i with
       | None => (w, Ret tt)
       | Some s => run_cleanup (mt_cleanup s) (set_matches (delete i (matches w)) w)
       end.

(** The constructors of the states. *)
Definition submit_command_remove_ad (submit_command_ad : Ad) : WM (option Ad) :=
  arguments ← deref (Lookup submit_command_ad (of_string "arguments")); mret (Remove arguments (of_string "ad")).
Definition new_SubmitState (cmd_ad : Ad) (cmd : bytes) (jid : JobId) (sc proxy : bytes) (lb_c : nat) (cl : cleanup) (last_check : checkpoint) : WM nat :=
  t ← ask time;
  job_ad ← (if decide (cmd = of_string "jobsubmit") then submit_command_remove_ad cmd_ad else mret (Some new_ClassAd));
  put (λ w, (set_next_state (S (next_state w)) (set_submits (<[next_state w := SubmitSt cmd jid sc proxy lb_c cl last_check ∅ t job_ad]> (submits w)) w),
             next_state w)).
Definition new_CancelState (jid : JobId) (lb_c : nat) (cl : cleanup) : WM nat :=
  catch (create_token (get_cancel_token jid)) (λ e, match e with CannotCreateToken => mret tt | e => fail e end) ;;
  put (λ w, (set_next_state (S (next_state w)) (set_cancels (<[next_state w := CancelSt jid lb_c cl]> (cancels w)) w), next_state w)).
Definition new_MatchState (cmd_ad : Ad) (jid : JobId) (cl : cleanup) : WM nat :=
  put (λ w, (set_next_state (S (next_state w)) (set_matches (<[next_state w := MatchSt cmd_ad jid cl]> (matches w)) w), next_state w)).
(** [m_state->...] *)
Definition m_state (i : nat) : WM (SubmitState Ad) := s ← gets (λ w, submits w !! i); deref s.
Definition update_state (i : nat) (f : SubmitState Ad → SubmitState Ad) : WM unit := modify (λ w, set_submits (alter f i (submits w)) w).

(** ** submission_utils *)
Inductive job_type_t := single | dag | collection.
Definition job_type (jdl : Ad) : job_type_t :=
  match EvaluateAttrString jdl (of_string "Type") with
  | Some type =>
      if decide (type = of_string "dag")
      then match EvaluateAttrClassAd jdl (of_string "Nodes") with
           | Some nodes =>
               match EvaluateAttrList nodes (of_string "dependencies") with
               | Some size => if size =? 0 then collection else dag
               | None => single
               end
           | None => single
           end
      else single
  | None => single
  end.
Definition non_negative (count : option Z) : Z := match count with Some n => if n <? 0 then 0 else n | None => 0 end.
Definition check_shallow_count (jdl : Ad) (count : Z) : WM unit :=
  let job_shallow_count := non_negative (get_shallow_retry_count jdl) in
  if job_shallow_count <=? count then fail (HitJobShallowCount job_shallow_count)
  else let max := non_negative (Some max_shallow_retry_count) in
       if max <=? count then fail (HitMaxShallowCount max) else mret tt.
Definition check_deep_count (jdl : Ad) (count : Z) : WM unit :=
  let job_retry_count := non_negative (get_retry_count jdl) in
  if job_retry_count <=? count then fail (HitJobRetryCount job_retry_count)
  else if max_retry_count <=? count then fail (HitMaxRetryCount max_retry_count) else mret tt.
Definition shallow_resubmission_is_enabled (jdl : Ad) : bool :=
  negb (default 0 (get_shallow_retry_count jdl) =? -1).
(** A job id from an attribute of a description. *)
Definition jobid_of (jdl : Ad) : WM JobId :=
  text ← or_throw ManipulationException (get_edg_jobid jdl); or_throw JobIdError (parse_jobid text).

(** ** Commands: common/src/utilities/wm_commands.cpp *)
Definition submit_command_create (jdl : Ad) : Ad :=
  Insert (of_string "arguments") (Insert (of_string "ad") jdl new_ClassAd)
    (InsertAttr (of_string "command") (of_string "jobsubmit") (InsertAttr (of_string "version") (of_string "1.0.0") new_ClassAd)).

(** ** WMReal *)
Definition wm_submit_command (job_ad : Ad) (is_replan : bool) : Ad :=
  Insert (of_string "Arguments") (Insert (of_string "JobAd") job_ad new_ClassAd)
    (InsertAttr_int (of_string "Source") 2
      (InsertAttr (of_string "Command") (of_string (if is_replan then "Reschedule" else "Submit"))
        (InsertAttr (of_string "Protocol") (of_string "1.0.0") new_ClassAd))).
Definition emit (o : output) : WM unit := modify (λ w, set_outputs (outputs w ++ [o]) w).
(** [deliver] to one of the two directories; [None] for success. *)
Definition deliver (ice : bool) (ad_str : bytes) : WM (option bytes) :=
  e ← ask (λ n, deliver_error n ice ad_str);
  match e with
  | None => emit (if ice then to_ice ad_str else to_jc ad_str) ;; mret None
  | Some error => mret (Some error)
  end.
Definition wm_submit_planned (planned_ad : Ad) (context : nat) (is_replan : bool) : WM unit :=
  ce_id ← or_throw ManipulationException (get_ce_id planned_ad);
  log_match context ce_id ;;
  let host := get_ceinfo_host_name planned_ad in
  when (negb (bool_decide (host = []))) (log_usertag context CE_INFO_HOST host) ;;
  let is_cream_ce := is_cream_ce_id ce_id in
  let output := if is_cream_ce then ice_input else jc_input in
  log_enqueued_start context output ;;
  sequence_code ← get_lb_sequence_code context;
  let ad_str := unparse_classad (wm_submit_command (set_lb_sequence_code sequence_code planned_ad) is_replan) in
  res ← ask lb_logging_job;
  c ← gets (λ w, contexts w !! context); c ← deref c;
  cancelled ← (if res =? 0 then exists_ (get_cancel_token (cx_job c)) else mret false);
  if cancelled : bool
  then log_cancelled context ;; unlink (get_cancel_token (cx_job c)) ;; emit (purged (cx_job c) None)
  else error ← deliver is_cream_ce ad_str;
       match error with
       | None => log_enqueued_ok context output ad_str
       | Some error => log_enqueued_fail context output ad_str error ;; fail CannotDeliverFatal
       end.
Definition wm_submit (jdl : Ad) (context : nat) (is_replan : bool) : WM unit :=
  sequence_code ← get_lb_sequence_code context;
  planned ← ask (λ n, plan n (set_lb_sequence_code sequence_code jdl));
  match planned with inl e => fail e | inr planned_ad => wm_submit_planned planned_ad context is_replan end.

(** The names of a [std::set] in its order. *)
Definition names (pending : gset bytes) : list bytes := sort id (elements pending).
Definition find_node (nodes : list (bytes * Ad)) (name : bytes) : option Ad :=
  match list_find (λ kv, kv.1 = name) nodes with Some (_, kv) => Some kv.2 | None => None end.

Definition submit_scheduled (context : nat) (sequence_code : bytes) (job : scheduled_job Ad) : WM unit :=
  _ ← or_throw ManipulationException (get_input_sandbox_path (planned_tag job));
  job_id ← jobid_of (planned_tag job);
  change_logging_job context sequence_code job_id ;;
  change_logging_src context SOURCE_NETWORK_SERVER ;;
  log_enqueued_ok context wm_input (unparse_classad (planned_tag job)) ;;
  change_logging_src context SOURCE_WORKLOAD_MANAGER ;;
  when (shallow_resubmission_is_enabled (planned_tag job)) (create_token (get_reallyrunning_token job_id 0)) ;;
  wm_submit_planned (adapted_tag job) context false.
Definition enqueue_pending (context : nat) (nodes : list (bytes * Ad)) (node_name : bytes) : WM unit :=
  node_jdl ← deref (find_node nodes node_name);
  id ← jobid_of node_jdl;
  change_logging_job context [] id ;;
  log_enqueued_ok context wm_input (unparse_classad node_jdl).
(** The pending jobs are a reference to a member of the state [i]. *)
Definition wm_submit_collection (jdl : Ad) (context i : nat) : WM unit :=
  result ← ask (λ n, do_bulk_mm n jdl);
  match result with
  | inl e => fail e
  | inr (jobs, pending) =>
      update_state i (set_pending pending) ;;
      sequence_code ← get_lb_sequence_code context;
      for_each (submit_scheduled context sequence_code) jobs ;;
      if decide (pending = ∅) then mret tt
      else change_logging_src context SOURCE_NETWORK_SERVER ;;
           for_each (enqueue_pending context (dag_nodes jdl)) (names pending) ;;
           change_logging_src context SOURCE_WORKLOAD_MANAGER
  end.

Definition wm_cancel_command (job_id : JobId) (sequence_code user_x509_proxy : bytes) (log_file : option bytes) : Ad :=
  let args := InsertAttr_bool (of_string "Force") false new_ClassAd in
  let args := match log_file with Some f => InsertAttr (of_string "LogFile") f args | None => args end in
  let args := InsertAttr (of_string "JobId") job_id (InsertAttr (of_string "SequenceCode") sequence_code (InsertAttr (of_string "ProxyFile") user_x509_proxy args)) in
  Insert (of_string "Arguments") args
    (InsertAttr_int (of_string "Source") 2
      (InsertAttr (of_string "Command") (of_string "Cancel") (InsertAttr (of_string "Protocol") (of_string "1.0.0") new_ClassAd))).
Definition wm_cancel (id : JobId) (context : nat) : WM unit :=
  sequence_code ← get_lb_sequence_code context;
  user_x509_proxy ← ask (λ n, get_user_x509_proxy n id);
  log_file ← ask (λ n, cancel_log_file n id);
  let ad_str := unparse_classad (wm_cancel_command id sequence_code user_x509_proxy log_file) in
  _ ← deliver true ad_str;
  _ ← deliver false ad_str;
  mret tt.
End operations.
