(* ===== verification/LbProps.v ===== *)
(** * Properties of the calls to the logging and bookkeeping service

    The retries of [lb_log], the counts of resubmissions, and what the
    queries of the workload manager can return. *)

From stdpp Require Import gmap strings.
From S2P Require Import Prelude LbEvents Events Manager WmUtils.

(** ** Counting resubmissions

    The reference: a pass over the events from the first to the last; a deep
    resubmission starts the count of shallow ones again. *)
Definition count_retries (events : LB_Events) : Z * Z :=
  foldl (λ '(deep, shallow) e,
    match data e with
    | resubmission WILLRESUB => (deep + 1, 0)
    | resubmission SHALLOW => (deep, shallow + 1)
    | _ => (deep, shallow)
    end) (0, 0) events.

Lemma count_retries_snoc l e :
  count_retries (l ++ [e]) =
  (if is_deep_resubmission e then ((count_retries l).1 + 1, 0)
   else if is_shallow_resubmission e then ((count_retries l).1, (count_retries l).2 + 1) else count_retries l).
Proof.
  unfold count_retries, is_deep_resubmission, is_shallow_resubmission. rewrite foldl_app. cbn [foldl].
  destruct (foldl _ _ l) as [d s]. destruct (data e) as [| | | |[]| |]; reflexivity.
Qed.

Lemma count_retries_deep l : (count_retries l).1 = count_if is_deep_resubmission l.
Proof.
  induction l as [|e l IH] using rev_ind; [done|]. rewrite count_retries_snoc, count_if_app. cbn [count_if].
  destruct (is_deep_resubmission e); cbn [fst]; [lia|]. destruct (is_shallow_resubmission e); cbn [fst]; lia.
Qed.

Lemma count_retries_shallow l k : Forall (λ e, is_deep_resubmission e = false) k →
  (count_retries (l ++ k)).2 = (count_retries l).2 + count_if is_shallow_resubmission k.
Proof.
  induction k as [|e k IH] using rev_ind; intros Hk; [rewrite app_nil_r; cbn; lia|].
  apply Forall_app in Hk as [Hk [He _]%Forall_cons]. rewrite (assoc_L (++)), count_retries_snoc, He, count_if_app. cbn [count_if].
  specialize (IH Hk). destruct (is_shallow_resubmission e); cbn [snd]; lia.
Qed.

Lemma get_retry_counts_fold events : get_retry_counts events = count_retries events.
Proof.
  unfold get_retry_counts. rewrite (surjective_pairing (count_retries events)), count_retries_deep. f_equal.
  destruct (find_last_spec is_deep_resubmission events) as [[E Hn]|(a & x & b & -> & E & Hx & Hb)]; unfold find_last_deep_resubmission; rewrite E.
  - rewrite decide_True by done. cbn [drop]. symmetry. by apply (count_retries_shallow []).
  - rewrite decide_False by (rewrite length_app; cbn [length]; lia). rewrite drop_app_length.
    rewrite cons_middle, (assoc_L (++)), count_retries_shallow by done.
    rewrite count_retries_snoc, Hx. cbn [snd app count_if].
    assert (is_shallow_resubmission x = false) as -> by (revert Hx; unfold is_deep_resubmission, is_shallow_resubmission; by destruct (data x) as [| | | |[]| |]).
    done.
Qed.

(** ** Queries

    What the library promises of an answer: the events of the job, in the
    order in which they were logged, that satisfy the conditions. *)
Class LbAnswers (Ad : Type) `{Env Ad} (db : nat → JobId → LB_Events) : Prop :=
  query_answers : ∀ n id conds, (lb_query n id conds).1 = 0 → (lb_query n id conds).2 = filter (λ e, satisfies_all e conds) (db n id).

(** No event of a cancel query comes from the log monitor. *)
Lemma cancel_query_no_done e : satisfies_all e cancel_conditions → is_done_event e = false.
Proof.
  unfold satisfies_all, cancel_conditions, is_done_event. cbn [forallb existsb satisfies]. intros Hs. apply andb_false_iff.
  destruct (decide (any_source e = SOURCE_WORKLOAD_MANAGER)) as [->|Hn]; [by right|].
  rewrite (bool_decide_eq_false_2 (any_source e = _)) in Hs by done. cbn in Hs. rewrite andb_false_r in Hs. destruct Hs.
Qed.
Lemma is_last_done_none events c : Forall (λ e, is_done_event e = false) events → is_last_done events c = false.
Proof.
  intros Hf. unfold is_last_done, find_last_done. destruct (find_last_spec is_done_event events) as [[E _]|(a & x & b & -> & _ & Hx & _)].
  - by rewrite E, lookup_ge_None_2 by done.
  - apply Forall_app in Hf as [_ [Hf _]%Forall_cons]. congruence.
Qed.
Lemma is_last_done_cancel l c : is_last_done (filter (λ e, satisfies_all e cancel_conditions) l) c = false.
Proof. apply is_last_done_none, Forall_forall. intros e [He _]%list_elem_of_filter. by apply cancel_query_no_done. Qed.

(** ** Logging with retries *)
Section logging.
Context {Ad : Type} `{Libraries Ad} `{Env Ad}.
Implicit Types (w : World Ad) (L : list logged) (cs : list Context).

(** The log, contexts that exist, a bound for the calls made. *)
Definition lb_state L cs (n : nat) w : Prop := log w = L ∧ cs `prefix_of` contexts w ∧ (calls w ≤ n)%nat.

Lemma lb_state_weaken L cs cs' n n' w : lb_state L cs' n w → cs `prefix_of` cs' → (n ≤ n')%nat → lb_state L cs n' w.
Proof. intros (? & ? & ?) Hp Hn. split_and!; [done|by etrans|lia]. Qed.

Lemma log_function_spec e c cx L cs n : cs !! c = Some cx →
  triple (lb_state L cs n) (log_function e c)
    (λ error w, lb_state (if error =? 0 then L ++ [Logged (cx_job cx) (cx_source cx) e] else L) cs (S n) w) (λ _ _, False).
Proof.
  intros Hc w (HL & Hp & Hn). unfold log_function, mbind, M_bind, gets. rewrite (prefix_lookup_Some _ _ _ _ Hc Hp).
  cbn. destruct (_ =? 0) eqn:He; cbn; rewrite ?He; (split_and!; [cbn; by rewrite HL|done|cbn; lia]).
Qed.

Lemma host_context_spec c cx L cs n : cs !! c = Some cx →
  triple (lb_state L cs n) (host_context c)
    (λ r w, match r with
            | None => lb_state L cs (3 + n) w
            | Some h => ∃ cs', cs `prefix_of` cs' ∧ cs' !! h = Some (Ctx (cx_job cx) SOURCE_WORKLOAD_MANAGER) ∧ lb_state L cs' (3 + n) w
            end) (λ x w, x ≠ None ∧ lb_state L cs (3 + n) w).
Proof.
  intros Hc w (HL & Hp & Hn). unfold host_context, mbind, M_bind, ask. cbn.
  destruct (lb_sequence_code _); cbn; [|by repeat split; cbn; [|done|lia]].
  destruct (_ =? 0); cbn; [|by repeat split; cbn; [|done|lia]].
  rewrite (prefix_lookup_Some _ _ _ _ Hc Hp). cbn. unfold create_context, mbind, M_bind, ask. cbn.
  destruct (_ =? 0); cbn; [|by split; [done|repeat split; cbn; [|done|lia]]].
  exists (contexts w ++ [Ctx (cx_job cx) SOURCE_WORKLOAD_MANAGER]). split_and!; [by apply prefix_app_r|by apply list_lookup_middle|].
  by split_and!; cbn; [|done|lia].
Qed.

(** What [lb_log] leaves, if the outcome is [ok] and at most [n] calls were made. *)
Definition lb_logged L e (job : JobId) (n : nat) (ok : bool) w : Prop :=
  (calls w ≤ n)%nat ∧ if ok then ∃ source, log w = L ++ [Logged job source e] else log w = L.
Definition lb_thrown L (n : nat) (x : option exn) w : Prop := x ≠ None ∧ (calls w ≤ n)%nat ∧ log w = L.

Lemma lb_state_logged L cs n m w error e cx ok : (n ≤ m)%nat → ok = (error =? 0) →
  lb_state (if error =? 0 then L ++ [Logged (cx_job cx) (cx_source cx) e] else L) cs n w → lb_logged L e (cx_job cx) m ok w.
Proof. intros Hm -> (HL & _ & Hn). split; [lia|]. destruct (_ =? 0); eauto. Qed.

Lemma host_loop_spec i e h cx L cs n error : cs !! h = Some cx →
  triple (lb_state (if error =? 0 then L ++ [Logged (cx_job cx) (cx_source cx) e] else L) cs n) (host_loop i e h error)
    (λ ok w, lb_logged L e (cx_job cx) (i + n) ok w) (λ _ _, False).
Proof.
  intros Hc. revert n error. induction i as [|i IH]; intros n error; cbn [host_loop].
  - apply triple_ret. intros w Hw. eapply lb_state_logged; [..|exact Hw]; [lia|done].
  - destruct (error =? 0) eqn:E; [|destruct (is_retryable error); cbn [negb]].
    + apply triple_ret. intros w (HL & _ & Hn). split; [lia|eauto].
    + eapply triple_bind; [by apply log_function_spec|]. intros a. eapply triple_weaken; [apply IH| | |]; cbn; [by intros|intros ok w Hw|done].
      destruct Hw as [Hn Hw]. split; [lia|done].
    + apply triple_ret. intros w (HL & _ & Hn). split; [lia|done].
Qed.

Lemma host_context_bind {B} c cx L cs n (k : option nat → M (World Ad) exn B) Q m : cs !! c = Some cx → (3 + n ≤ m)%nat →
  triple (lb_state L cs (3 + n)) (k None) Q (lb_thrown L m) →
  (∀ h cs', cs `prefix_of` cs' → cs' !! h = Some (Ctx (cx_job cx) SOURCE_WORKLOAD_MANAGER) → triple (lb_state L cs' (3 + n)) (k (Some h)) Q (lb_thrown L m)) →
  triple (lb_state L cs n) (host_context c ≫= k) Q (lb_thrown L m).
Proof.
  intros Hc Hm Hk0 Hk1. eapply triple_bind; [eapply triple_weaken; [by apply host_context_spec|done|by intros ?? Hq; exact Hq|]|].
  - intros x w (Hx & HL & _ & Hn). split_and!; [done|lia|done].
  - intros [h|]; [|exact Hk0]. apply triple_exists. intros cs'. intros w (Hp & Hh & Hw). by eapply Hk1.
Qed.

Lemma lb_log_loop_spec i e c cx L cs n error src : cs !! c = Some cx →
  triple (lb_state (if error =? 0 then L ++ [Logged (cx_job cx) src e] else L) cs n) (lb_log_loop i e c error)
    (λ ok w, lb_logged L e (cx_job cx) (4 * i + 10 + n) ok w) (lb_thrown L (4 * i + 10 + n)).
Proof.
  intros Hc. revert n error src. induction i as [|i IH]; intros n error src; cbn [lb_log_loop].
  - apply triple_ret. intros w (HL & _ & Hn). split; [lia|]. destruct (error =? 0); eauto.
  - destruct (error =? 0) eqn:E; [apply triple_ret; intros w (HL & _ & Hn); split; [lia|eauto]|].
    destruct (error =? EDG_WLL_ERROR_GSS); (eapply host_context_bind; [exact Hc|lia|apply triple_ret; intros w (HL & _ & Hn); split; [lia|done]|]).
    + intros h cs' Hp Hh. eapply triple_bind; [eapply triple_weaken; [by apply log_function_spec|done|by intros ?? Hq; exact Hq|done]|].
      intros error'. eapply triple_weaken; [by apply (host_loop_spec _ _ _ (Ctx (cx_job cx) SOURCE_WORKLOAD_MANAGER))|by intros|intros ok w [Hn Hw]|done].
      split; [unfold retries in Hn; lia|done].
    + intros h cs' Hp Hh. destruct (is_retryable error); cbn [negb]; [|apply triple_ret; intros w (HL & _ & Hn); split; [lia|done]].
      eapply triple_bind; [eapply triple_weaken; [by apply log_function_spec|done|by intros ?? Hq; exact Hq|done]|].
      intros error'. eapply triple_weaken; [apply (IH (4 + n)%nat error' SOURCE_WORKLOAD_MANAGER)| | |].
      * intros w Hw. eapply lb_state_weaken; [exact Hw|done|lia].
      * intros ok w [Hn Hw]. split; [lia|done].
      * intros x w (Hx & Hn & Hw). split_and!; [done|lia|done].
Qed.

Lemma lb_log_spec e c cx L cs n : cs !! c = Some cx →
  triple (lb_state L cs n) (lb_log e c) (λ ok w, lb_logged L e (cx_job cx) (51 + n) ok w) (lb_thrown L (51 + n)).
Proof.
  intros Hc. eapply triple_bind; [eapply triple_weaken; [by apply log_function_spec|done|by intros ?? Hq; exact Hq|done]|].
  intros error. eapply triple_weaken; [by apply (lb_log_loop_spec retries _ _ cx)|by intros| |]; cbn.
  - intros ok w [Hn Hw]. split; [lia|done].
  - intros x w (Hx & Hn & Hw). split_and!; [done|lia|done].
Qed.
End logging.
