(* ===== verification/Submit.v ===== *)
(** * core/src/submit_request.cpp: submission and resubmission

    [SubmitProcessor::operator()] is called by a worker of the event queue.
    It hands a single job over after planning it, a collection after bulk
    match making, and steps through the graph of a DAG; a request that has to
    wait is scheduled again, one that cannot succeed is logged as aborted.
    The state is number [i] of [submits]. *)

From stdpp Require Import gmap strings.
From S2P Require Import Prelude Numbers LbEvents Events Manager WmUtils.

Section submit.
Context {Ad : Type} `{Libraries Ad} `{Env Ad}.
Abbreviation WM := (M (World Ad) exn).

Definition jobsubmit : bytes := of_string "jobsubmit".
Definition jobresubmit : bytes := of_string "jobresubmit".

(** ** Helpers *)
Definition queue_new_submit_request (name : bytes) (jobid : JobId) (job_jdl : Ad) (i : nat) : WM unit :=
  let fake_command_ad := submit_command_create (set_lb_sequence_code [] job_jdl) in
  state ← m_state i;
  lb_context ← create_context jobid (m_x509_proxy state) [];
  new_state ← new_SubmitState fake_command_ad jobsubmit jobid [] (m_x509_proxy state) lb_context (RemoveNodeFromCollection name i) START;
  schedule_now (SubmitProcessor (Some new_state)) submit_priority.

Definition EDG_WLL_SEQ_ABORT : bytes := of_string "EDG_WLL_SEQ_ABORT".
Definition log_abort_for_child (context : nat) (reason id : bytes) (s : edg_wll_JobStatCode) : WM unit :=
  when (bool_decide (s = JOB_SUBMITTED) || bool_decide (s = JOB_WAITING))
    (id_ ← or_throw JobIdError (parse_jobid id);
     change_logging_job context EDG_WLL_SEQ_ABORT id_ ;;
     log_abort context reason).
(** The two pointers into the arrays of children. *)
Fixpoint abort_children (context : nat) (msg : bytes) (i : list (option JobId)) (j : option (list edg_wll_JobStatCode)) : WM unit :=
  match i with
  | Some id :: i =>
      match j with
      | Some (s :: j) =>
          if decide (s = JOB_UNDEF) then mret tt
          else log_abort_for_child context msg id s ;; abort_children context msg i (Some j)
      | Some [] => stuck                                (* past the end of the array *)
      | None => mret tt
      end
  | _ => mret tt
  end.
Definition unrecoverable_collection (i : nat) (msg : bytes) : WM unit :=
  state ← m_state i;
  cs ← job_status (m_id state) true false;
  match cs with
  | None => mret tt
  | Some cs =>
      match children cs with
      | None => mret tt
      | Some ids =>
          abort_children (m_lb_context state) msg ids (children_states cs) ;;
          change_logging_job (m_lb_context state) EDG_WLL_SEQ_ABORT (m_id state)
      end
  end.
Definition unrecoverable (i : nat) (msg : bytes) : WM unit :=
  state ← m_state i;
  ad ← deref (m_ad state);
  when (match job_type ad with collection => true | _ => false end)
    (unrecoverable_collection i (m_id state ++ of_string " failed (" ++ msg ++ of_string ")")) ;;
  log_abort (m_lb_context state) msg ;;
  unlink (get_cancel_token (m_id state)).

Definition retrieve_lb_info (jobid : JobId) : WM (Z * Z * list (bytes * Z) * list bytes) :=
  events ← get_interesting_events jobid;
  let previous_matches := get_previous_matches is_ce_info_host events in
  let '(deep, shallow) := get_retry_counts events in
  mret (deep, shallow, previous_matches, previous_matches.*1).
Definition is_request_expired (jdl : option Ad) (first_processed : Z) : WM bool :=
  now ← ask time;
  mret match jdl ≫= get_expiry_time with
       | None => bool_decide (expiry_period < now - first_processed)
       | Some expiry_time => bool_decide (expiry_time < now)
       end.

Definition postpone (i : nat) (reason : bytes) (period : Z) : WM unit :=
  when (negb (bool_decide (reason = []))) (state ← m_state i; log_pending (m_lb_context state) reason) ;;
  schedule_in (SubmitProcessor (Some i)) period submit_priority.

(** ** DAGs *)
Inductive color := white_color | gray_color | green_color | red_color.
#[local] Instance color_eqdec : EqDecision color.
Proof. solve_decision. Defined.
Abbreviation colors := (gmap bytes color).
Definition color_of (c : colors) (v : bytes) : color := default white_color (c !! v).

(** The LB state machine is tricked when a DAG starts. *)
Definition log_dag_start (context : nat) : WM unit :=
  let na := of_string "notapplicable" in
  log_match context (of_string "dagman") ;;
  log_enqueued_start context na ;;
  log_enqueued_ok context na na ;;
  log_transfer_start context (of_string "L&B") ;;
  log_transfer_ok context (of_string "L&B") na (of_string "DAG managed by WM") ;;
  log_running context (of_string "localhost").

(** The color of one vertex; [None]: the processor returns. *)
Definition assess_done (i : nat) (node_id : JobId) (v : bytes) (c : colors) : WM (option colors) :=
  catch (events ← get_recovery_events node_id;
         mret (Some (<[v := if is_last_done events DONE_OK then green_color else gray_color]> c)))
    (λ e, match e with
          | LB_QueryFailed => mret None
          | LB_QueryTemporarilyFailed =>
              schedule_in (SubmitProcessor (Some i)) match_retry_period submit_priority ;; mret (Some c)
          | e => fail e
          end).
Definition assess_vertex (i : nat) (nodes : list (bytes * Ad)) (v : bytes) (c : colors) : WM (option colors) :=
  node_jdl ← deref (find_node nodes v);
  node_id ← jobid_of node_jdl;
  status ← job_status node_id false false;
  _ ← deref status;                                     (* the log line reads status->state *)
  if is_aborted status || is_cancelled status then mret (Some (<[v := red_color]> c))
  else if is_done status then assess_done i node_id v c
  else if is_submitted status then mret (Some (<[v := white_color]> c))
  else mret (Some (<[v := gray_color]> c)).
Fixpoint assess_all (i : nat) (nodes : list (bytes * Ad)) (vs : list bytes) (c : colors) : WM (option colors) :=
  match vs with
  | [] => mret (Some c)
  | v :: vs =>
      r ← assess_vertex i nodes v c;
      match r with None => mret None | Some c => assess_all i nodes vs c end
  end.

(** A node with an aborted parent: its state lives for the call only. *)
Definition abort_node (i : nat) (v : bytes) (node_jdl : Ad) : WM unit :=
  let node_jdl := set_lb_sequence_code [] node_jdl in
  let fake_command_ad := submit_command_create node_jdl in
  node_id ← jobid_of node_jdl;
  state ← m_state i;
  lb_context ← create_context node_id (m_x509_proxy state) [];
  new_state ← new_SubmitState fake_command_ad jobsubmit node_id [] (m_x509_proxy state) lb_context (RemoveNodeFromCollection v i) START;
  finally (unrecoverable new_state (of_string "parents have aborted")) (release_SubmitState new_state).
(** The loop over the in-edges: the first red source, or whether all are green. *)
Fixpoint scan_parents (c : colors) (srcs : list bytes) (green : bool) : bool * bool :=
  match srcs with
  | [] => (false, green)
  | src :: srcs =>
      match color_of c src with
      | red_color => (true, false)
      | white_color | gray_color => scan_parents c srcs false
      | green_color => scan_parents c srcs green
      end
  end.
(** [queue_new_submit_request] under its [try]: whether the context was made. *)
Definition try_queue (v : bytes) (i : nat) (node_jdl : Ad) : WM bool :=
  node_id ← jobid_of node_jdl;
  catch (queue_new_submit_request v node_id node_jdl i ;; mret true)
    (λ e, match e with CannotCreateLBContext _ => mret false | e => fail e end).
Definition plan_white (i : nat) (ad : Ad) (v : bytes) (c : colors) : WM colors :=
  match dag_in_edges ad v with
  | [] =>
      node_jdl ← deref (find_node (dag_nodes ad) v);
      ok ← try_queue v i node_jdl;
      mret (<[v := if ok : bool then gray_color else red_color]> c)
  | srcs =>
      let '(red, green) := scan_parents c srcs true in
      if red : bool
      then node_jdl ← deref (find_node (dag_nodes ad) v); abort_node i v node_jdl ;; mret (<[v := red_color]> c)
      else if green : bool
      then node_jdl ← deref (find_node (dag_nodes ad) v);
           ok ← try_queue v i node_jdl;
           mret (if ok : bool then c else <[v := red_color]> c)
      else mret c
  end.
(** The new colors and [completed_dag]. *)
Fixpoint plan_all (i : nat) (ad : Ad) (vs : list bytes) (c : colors) (completed_dag : bool) : WM (colors * bool) :=
  match vs with
  | [] => mret (c, completed_dag)
  | v :: vs =>
      match color_of c v with
      | gray_color => plan_all i ad vs c false
      | white_color => c ← plan_white i ad v c; plan_all i ad vs c false
      | _ => plan_all i ad vs c completed_dag
      end
  end.
Definition submit_dag (i : nat) (ad : Ad) : WM unit :=
  state ← m_state i;
  when (bool_decide (m_last_checkpointing state = START)) (log_dag_start (m_lb_context state)) ;;
  r ← assess_all i (dag_nodes ad) (dag_vertices ad) ∅;
  match r with
  | None => mret tt
  | Some c =>
      '(c, completed_dag) ← plan_all i ad (dag_vertices ad) c true;
      if completed_dag : bool
      then if forallb (λ v, bool_decide (color_of c v = green_color)) (dag_vertices ad)
           then log_done_ok (m_lb_context state) (of_string "DAG successfully completed") 0
           else log_abort (m_lb_context state) (of_string "DAG completed with failed jobs")
      else schedule_in (SubmitProcessor (Some i)) match_retry_period submit_priority ;;
           update_state i (set_checkpoint PENDING)
  end.

(** ** Collections *)
Definition queue_pending (i : nat) (ad : Ad) (node_name : bytes) : WM unit :=
  node_jdl ← deref (find_node (dag_nodes ad) node_name);
  _ ← try_queue node_name i node_jdl; mret tt.
Definition submit_collection (i : nat) (ad : Ad) : WM unit :=
  state ← m_state i;
  when (bool_decide (m_last_checkpointing state = START)) (wm_submit_collection ad (m_lb_context state) i) ;;
  state ← m_state i;
  if decide (m_collection_pending state = ∅) then mret tt
  else when (bool_decide (m_last_checkpointing state = START))
         (for_each (queue_pending i ad) (names (m_collection_pending state)) ;;
          update_state i (set_checkpoint PENDING) ;;
          schedule_in (SubmitProcessor (Some i)) match_retry_period submit_priority).

(** ** Single jobs

    Whether the processor goes on after its look at the limbo. *)
Definition leave_limbo (i : nat) : WM bool :=
  state ← m_state i;
  if decide (m_last_checkpointing state = LIMBO)
  then catch
         (status ← job_status_own_context (m_id state) false false;
          events ← get_recovery_events (m_id state);
          (if in_limbo status events then postpone i (of_string " waiting in limbo") match_retry_period
           else update_state i (set_checkpoint START)) ;;
          mret true)
         (λ e, match e with LB_QueryFailed => mret false | e => fail e end)
  else mret true.
(** For a resubmission the job is read back from LB; the retry counts. *)
Definition resubmitted_ad (i : nat) : WM (Z * Z) :=
  state ← m_state i;
  '(deep_count, shallow_count, previous_matches, previous_matches_simple) ← retrieve_lb_info (m_id state);
  job_ad_str ← get_original_jdl (m_id state);
  if decide (job_ad_str = []) then fail CannotRetrieveJDL
  else job_ad ← or_throw ClassAdError (parse_classad job_ad_str);
       update_state i (set_ad (Some (set_edg_previous_matches_ex previous_matches (set_edg_previous_matches previous_matches_simple job_ad)))) ;;
       mret (deep_count, shallow_count).
(** The first token in the directory; a second one is unrecoverable. *)
Fixpoint find_token (i : nat) (leafs : list bytes) (token : option bytes) : WM (option bytes) :=
  match leafs with
  | [] => mret token
  | leaf :: leafs =>
      if is_token_name leaf
      then match token with
           | None => find_token i leafs (Some leaf)
           | Some _ =>
               unrecoverable i (leaf ++ of_string ": at least two shallow resubmit tokens are present at the same time!") ;;
               find_token i leafs token
           end
      else find_token i leafs token
  end.
(** [substr( rfind( '_' ) + 1 )] *)
Definition token_suffix (leaf : bytes) : bytes := reverse (span (λ c, negb (bool_decide (c = "_"%char))) (reverse leaf)).1.
Definition token_count (i : nat) (token : option bytes) : WM Z :=
  match token with
  | None => mret 0
  | Some leaf =>
      replans_count ← or_throw bad_lexical_cast (float_of_text (token_suffix leaf));
      state ← m_state i;
      ad ← deref (m_ad state);
      update_state i (set_ad (Some (set_replans_count replans_count ad))) ;;
      mret replans_count
  end.
Definition token_tmp (p : JobId * bytes) : JobId * bytes := (p.1, p.2 ++ of_string ".").
(** The token decides between a shallow and a deep resubmission. *)
Definition resubmission_token (i : nat) (ad : Ad) (token : JobId * bytes) (deep_count shallow_count : Z) : WM unit :=
  state ← m_state i;
  if shallow_resubmission_is_enabled ad
  then res ← rename token.1 token.2 (token_tmp token).2;
       if negb (res =? 0) && negb (res =? ENOENT) then fail CannotCreateToken
       else found ← exists_ (token_tmp token);
            if found : bool
            then check_shallow_count ad shallow_count ;; log_resubmission_shallow (m_lb_context state) token.2
            else check_deep_count ad deep_count ;; log_resubmission_deep_token (m_lb_context state) token.2 ;; create_token (token_tmp token)
  else check_deep_count ad deep_count ;; log_resubmission_deep (m_lb_context state).
(** For a submission: [None] to drop the request, or [is_replan]. *)
Definition submission_token (ad : Ad) (token : JobId * bytes) (replans_count : Z) : WM (option bool) :=
  let jdl_replans_count := default 0 (get_replans_count ad) in
  if (0 <? jdl_replans_count) && (replans_count =? jdl_replans_count) then mret (Some true)
  else if (0 <? jdl_replans_count) && (jdl_replans_count <? replans_count) then mret None
  else (if shallow_resubmission_is_enabled ad
        then found ← exists_ (token_tmp token); when (negb found) (create_token (token_tmp token))
        else mret tt) ;;
       mret (Some false).
(** The end: the token gets its name, the output of a former run goes away, the job is planned and delivered. *)
Definition deliver_single (i : nat) (ad : Ad) (token : JobId * bytes) (is_replan : bool) : WM unit :=
  state ← m_state i;
  (if negb is_replan && shallow_resubmission_is_enabled ad
   then res ← rename token.1 (token_tmp token).2 token.2; if negb (res =? 0) then fail CannotCreateToken else mret tt
   else mret tt) ;;
  unlink (m_id state, of_string "Maradona.output") ;;
  wm_submit ad (m_lb_context state) is_replan.
Definition submit_with_token (i : nat) (leafs : list bytes) (deep_count shallow_count : Z) : WM unit :=
  found ← find_token i leafs None;
  replans_count ← token_count i found;
  state ← m_state i;
  ad ← deref (m_ad state);
  let token := get_reallyrunning_token (m_id state) replans_count in
  (if decide (m_command state = jobresubmit) then resubmission_token i ad token deep_count shallow_count else mret tt) ;;
  is_replan ← (if decide (m_command state = jobsubmit) then submission_token ad token replans_count else mret (Some false));
  match is_replan with None => mret tt | Some is_replan => deliver_single i ad token is_replan end.
Definition submit_job (i : nat) : WM unit :=
  state ← m_state i;
  '(deep_count, shallow_count) ← (if decide (m_command state = jobresubmit) then resubmitted_ad i else mret (0, 0));
  cancelled ← exists_ (get_cancel_token (m_id state));
  if cancelled : bool
  then log_cancelled (m_lb_context state) ;; log_done_cancelled (m_lb_context state) ;; emit (purged (m_id state) None)
  else leafs ← directory (m_id state);
       match leafs with
       | None => mret tt
       | Some leafs => submit_with_token i leafs deep_count shallow_count
       end.
Definition submit_single (i : nat) : WM unit :=
  go_on ← leave_limbo i; if go_on : bool then submit_job i else mret tt.

(** ** The processor *)
Definition hit (text : bytes) (n : Z) : bytes := text ++ of_string " (" ++ text_of_long n ++ of_string ")".
Definition submit_handlers (i : nat) (e : exn) : WM unit :=
  match e with
  | LB_QueryFailed => unrecoverable i (of_string " failed (LB query failed)")
  | LB_QueryTemporarilyFailed => postpone i (of_string "LB query temporarily failed") match_retry_period
  | HitMaxRetryCount n => unrecoverable i (hit (of_string "hit max retry count") n)
  | HitJobRetryCount n => unrecoverable i (hit (of_string "hit job retry count") n)
  | HitMaxShallowCount n => unrecoverable i (hit (of_string "hit shallow max retry count") n)
  | HitJobShallowCount n => unrecoverable i (hit (of_string "hit job shallow retry count") n)
  | CannotRetrieveJDL => postpone i (of_string "cannot retrieve jdl") match_retry_period
  | HelperError => postpone i (what e) match_retry_period
  | CannotCreateToken => postpone i (of_string "cannot create token for shallow resubmission") match_retry_period
  | CannotDeliverFatal => unrecoverable i (of_string " cannot deliver request")
  | CannotCreateLBContext _ => unrecoverable i (what e ++ of_string ": ignoring request")
  | unknown_exn => unrecoverable i (of_string "unknown exception caught handling submit request")
  | e => unrecoverable i (what e)
  end.
(** Whether the proxy has expired; [None] after a proxy that cannot be read. *)
Definition check_proxy (i : nat) (id : JobId) : WM (option bool) :=
  catch (b ← is_proxy_expired id; mret (Some b))
    (λ e, match e with
          | MissingProxy => unrecoverable i (of_string "X509 proxy not found or I/O error (" ++ what e ++ of_string ")") ;; mret None
          | InvalidProxy => unrecoverable i (of_string "invalid X509 proxy (" ++ what e ++ of_string ")") ;; mret None
          | e => fail e
          end).
Definition run_SubmitProcessor (state : option nat) : WM unit :=
  i ← deref state;
  state ← m_state i;
  proxy_expired ← check_proxy i (m_id state);
  match proxy_expired with
  | None => mret tt
  | Some true => unrecoverable i (of_string "proxy expired")
  | Some false =>
      request_expired ← is_request_expired (m_ad state) (m_created_at state);
      if request_expired : bool then unrecoverable i (of_string "request expired")
      else ad ← deref (m_ad state);
           catch (match job_type ad with
                  | dag => submit_dag i ad
                  | collection => submit_collection i ad
                  | single => submit_single i
                  end)
             (submit_handlers i)
  end.
End submit.
