(* ===== verification/Cancel.v ===== *)
(** * core/src/cancel_request.cpp: cancellation

    [CancelProcessor::operator()] forwards a cancellation to ICE and to the
    job controller for a single job, or for every child of a collection or a
    DAG.  A child of a collection that the workload manager still works on
    makes it look again later. *)

From stdpp Require Import gmap strings.
From S2P Require Import Prelude LbEvents Events Manager WmUtils.

Section cancel.
Context {Ad : Type} `{Libraries Ad} `{Env Ad}.
Abbreviation WM := (M (World Ad) exn).

Definition forward_child (id : JobId) (context : nat) (child : JobId) : WM unit :=
  catch (change_logging_job context [] child ;;
         log_cancelled context ;;
         change_logging_job context [] id ;;
         wm_cancel child context)
    (λ _, mret tt).
(** One child in a known state: whether it is still under processing. *)
Definition cancel_child (id : JobId) (context : nat) (is_dag : bool) (child : JobId) (s : edg_wll_JobStatCode) : WM bool :=
  events ← get_cancel_events child;
  if is_last_cancelled_by_wm events then mret false
  else if bool_decide (s = JOB_DONE) && is_last_done events DONE_OK then mret false
  else if negb (bool_decide (s = JOB_DONE) && is_last_done events DONE_FAILED) && is_last_enqueued_by_wm events ENQUEUED_OK
  then (if decide (s = JOB_ABORTED) then mret tt else forward_child id context child) ;; mret false
  else if is_dag
  then (if decide (s = JOB_ABORTED) then mret tt else forward_child id context child) ;; mret false
  else mret true.
(** The loop over the children; the result is [incomplete_processing]. *)
Fixpoint cancel_children (id : JobId) (context : nat) (is_dag : bool) (i : list (option JobId)) (j : option (list edg_wll_JobStatCode)) (incomplete : bool) : WM bool :=
  match i with
  | Some text :: i =>
      child ← or_throw JobIdError (parse_jobid text);
      catch (create_token (get_cancel_token child)) (λ e, match e with CannotCreateToken => mret tt | e => fail e end) ;;
      match j with
      | Some (s :: j) =>
          if decide (s = JOB_UNDEF) then mret incomplete
          else more ← cancel_child id context is_dag child s;
               cancel_children id context is_dag i (Some j) (incomplete || more)
      | Some [] => stuck
      | None => mret incomplete
      end
  | _ => mret incomplete
  end.
Definition log_using_abort : log_event := LogAbort (of_string "edg_wll_LogAbort").
Definition cancel_group (i : nat) (s : CancelState) (is_dag : bool) : WM unit :=
  collection_status ← job_status_own_context (c_id s) true true;
  match collection_status with
  | None => mret tt
  | Some cs =>
      incomplete_processing ← match children cs with
                              | None => mret false
                              | Some ids => cancel_children (c_id s) (c_lb_context s) is_dag ids (children_states cs) false
                              end;
      if incomplete_processing : bool
      then schedule_in (CancelProcessor i) match_retry_period cancel_priority
      else log_cancelled (c_lb_context s) ;; log_done_cancelled (c_lb_context s) ;; emit (purged (c_id s) (Some LogCancelDONE))
  end.
Definition cancel_failed (id : JobId) : WM unit := emit (unregistered id) ;; emit (purged id (Some log_using_abort)).
Definition cancel_single (s : CancelState) (status : JobStatusPtr) : WM unit :=
  token ← exists_ (get_cancel_token (c_id s));
  if negb token then mret tt else
  events ← get_cancel_events (c_id s);
  if is_done status && is_last_done events DONE_OK then mret tt
  else if negb (is_done status && is_last_done events DONE_FAILED) && is_last_enqueued_by_wm events ENQUEUED_OK
  then if is_aborted status then mret tt
       else catch (log_cancelled (c_lb_context s) ;; wm_cancel (c_id s) (c_lb_context s)) (λ _, cancel_failed (c_id s))
  else cancel_failed (c_id s).

Definition is_group (status : JobStatusPtr) : bool :=
  match status with Some s => bool_decide (jobtype s = STAT_COLLECTION) || bool_decide (jobtype s = STAT_DAG) | None => false end.
Definition run_CancelProcessor (i : nat) : WM unit :=
  s ← gets (λ w, cancels w !! i); s ← deref s;
  status ← job_status (c_id s) false false;
  if is_group status
  then cancel_group i s (match status with Some st => bool_decide (jobtype st = STAT_DAG) | None => false end)
  else cancel_single s status.
End cancel.
