(* ===== verification/Dispatch.v ===== *)
(** * core/src/dispatcher_utils.cpp: from request files to events

    The dispatcher is an event of the queue that schedules itself again.  It
    takes the new request files, makes the state of each request and
    schedules its processor; a file is removed by the destructor of the state,
    or at once when the request is not valid.  The commands are those of
    common/src/utilities/wm_commands.cpp. *)

From stdpp Require Import gmap strings.
From S2P Require Import Prelude LbEvents Events Manager WmUtils Submit Cancel.

Definition jobcancel : bytes := of_string "jobcancel".
Definition match_command : bytes := of_string "match".

(** ** The requirements on a command ad, as text *)
Definition quoted (s : bytes) : bytes := "034"%char :: s ++ ["034"%char].
Definition command_requirements : bytes :=
  of_string "[requirements=  other.version==" ++ quoted (of_string "1.0.0")
  ++ of_string "  && isString(other.command)  && isClassad(other.arguments)  && (other.command == " ++ quoted (of_string "jobsubmit")
  ++ of_string "      && isClassad(other.arguments.ad)      && isString(other.arguments.ad.edg_jobid)      && isString(other.arguments.ad.lb_sequence_code)"
  ++ of_string "      && isString(other.arguments.ad.X509UserProxy)      || other.command == " ++ quoted (of_string "jobresubmit")
  ++ of_string "      && isString(other.arguments.id)      && isString(other.arguments.lb_sequence_code)      || other.command == " ++ quoted (of_string "jobcancel")
  ++ of_string "      && isString(other.arguments.id)      && isString(other.arguments.lb_sequence_code)      || other.command == " ++ quoted (of_string "match")
  ++ of_string "      && isClassad(other.arguments.ad)      && isString(other.arguments.ad.CertificateSubject)      && isString(other.arguments.file)"
  ++ of_string "      && (isUndefined(other.arguments.number_of_results)          || isInteger(other.arguments.number_of_results))"
  ++ of_string "      && (isUndefined(other.arguments.include_brokerinfo)          || isBoolean(other.arguments.include_brokerinfo))     )]".
Definition tolower (c : ascii) : ascii :=
  if bool_decide (65 ≤ N_of_ascii c)%N && bool_decide (N_of_ascii c ≤ 90)%N then ascii_of_N (N_of_ascii c + 32) else c.

Section dispatch.
Context {Ad : Type} `{Libraries Ad} `{Env Ad}.
Abbreviation WM := (M (World Ad) exn).

Definition command_is_valid (command_ad : Ad) : WM bool :=
  requirements ← deref (parse_classad command_requirements); mret (left_matches_right command_ad requirements).
Definition command_get_command (command_ad : Ad) : WM bytes :=
  result ← or_throw ClassAdError (evaluate_string command_ad (of_string "command")); mret (tolower <$> result).
Definition submit_command_get_ad (command_ad : Ad) : WM Ad := or_throw ClassAdError (evaluate_classad command_ad (of_string "arguments.ad")).
Definition match_command_get_ad := submit_command_get_ad.
Definition cancel_command_get_id (command_ad : Ad) : WM bytes := or_throw ClassAdError (evaluate_string command_ad (of_string "arguments.id")).
Definition resubmit_command_get_id := cancel_command_get_id.
Definition cancel_command_get_lb_sequence_code (command_ad : Ad) : WM bytes :=
  or_throw ClassAdError (evaluate_string command_ad (of_string "arguments.lb_sequence_code")).
Definition resubmit_command_get_lb_sequence_code := cancel_command_get_lb_sequence_code.

Definition aux_get_sequence_code (command_ad : Ad) (command : bytes) : WM bytes :=
  if decide (command = jobsubmit) then job_ad ← submit_command_get_ad command_ad; or_throw ManipulationException (jdl_get_lb_sequence_code job_ad)
  else if decide (command = jobcancel) then cancel_command_get_lb_sequence_code command_ad
  else if decide (command = jobresubmit) then resubmit_command_get_lb_sequence_code command_ad
  else mret [].
Definition aux_get_x509_proxy (command_ad : Ad) (command : bytes) (id : JobId) : WM bytes :=
  if decide (command = jobsubmit) then job_ad ← submit_command_get_ad command_ad; or_throw ManipulationException (get_x509_user_proxy job_ad)
  else if decide (command = jobcancel) then ask (λ n, get_user_x509_proxy n id)
  else if decide (command = jobresubmit) then ask (λ n, get_user_x509_proxy n id)
  else mret [].
Definition aux_get_id (command_ad : Ad) (command : bytes) : WM JobId :=
  if decide (command = jobsubmit) then ad ← submit_command_get_ad command_ad; jobid_of ad
  else if decide (command = jobresubmit) then id ← resubmit_command_get_id command_ad; or_throw JobIdError (parse_jobid id)
  else if decide (command = jobcancel) then id ← cancel_command_get_id command_ad; or_throw JobIdError (parse_jobid id)
  else if decide (command = match_command)
  then ad ← match_command_get_ad command_ad;
       match get_edg_jobid ad with Some text => or_throw JobIdError (parse_jobid text) | None => mret localhost_jobid end
  else mret [].
(** A command that is not valid gets the default id and empty texts. *)
Definition check_request (command_ad : Ad) (command : bytes) : WM (JobId * bytes * bytes) :=
  ok ← command_is_valid command_ad;
  if ok : bool
  then id ← aux_get_id command_ad command;
       sequence_code ← aux_get_sequence_code command_ad command;
       x509_proxy ← aux_get_x509_proxy command_ad command id;
       mret (id, sequence_code, x509_proxy)
  else mret ([], [], []).

(** ** One request

    [guarded]: the scope guard removes the file when [m] throws. *)
Definition guarded {A} (item : bytes) (m : WM A) : WM A :=
  catch m (λ e, run_cleanup (remove_from_input item) ;; fail e).
Definition dispatch_submit (item : bytes) (command_ad : Ad) (command : bytes) (id : JobId) (sequence_code x509_proxy : bytes) : WM unit :=
  lb_context ← create_context id x509_proxy sequence_code;
  log_dequeued lb_context input_source ;;
  state ← new_SubmitState command_ad command id sequence_code x509_proxy lb_context (remove_from_input item) START;
  schedule_now (SubmitProcessor (Some state)) submit_priority.
Definition dispatch_cancel (item : bytes) (id : JobId) (sequence_code x509_proxy : bytes) : WM unit :=
  lb_context ← create_context id x509_proxy sequence_code;
  log_cancel_req lb_context ;;
  state ← new_CancelState id lb_context (remove_from_input item);
  schedule_now (CancelProcessor state) cancel_priority.
Definition dispatch_match (item : bytes) (command_ad : Ad) (command : bytes) : WM unit :=
  id ← aux_get_id command_ad command;
  state ← new_MatchState command_ad id (remove_from_input item);
  schedule_now (MatchProcessor state) match_priority.
Definition dispatch_command (item : bytes) (command_ad : Ad) : WM unit :=
  command ← guarded item (command_get_command command_ad);
  if decide (command = jobsubmit) then
    '(id, sequence_code, x509_proxy) ← guarded item (check_request command_ad command);
    dispatch_submit item command_ad command id sequence_code x509_proxy
  else if decide (command = jobresubmit) then
    '(id, sequence_code, x509_proxy) ← guarded item (check_request command_ad command);
    dispatch_submit item command_ad command id sequence_code x509_proxy
  else if decide (command = jobcancel) then
    '(id, sequence_code, x509_proxy) ← guarded item (check_request command_ad command);
    dispatch_cancel item id sequence_code x509_proxy
  else if decide (command = match_command) then dispatch_match item command_ad command
  else when (bool_decide (command = of_string "ism_dump")) (schedule_now dump_ism debug_priority) ;;
       run_cleanup (remove_from_input item).
(** [value] is [None] when reading the file throws. *)
Definition dispatch (request : bytes * option bytes) : WM unit :=
  let '(item, value) := request in
  match value with
  | None => run_cleanup (remove_from_input item) ;; fail std_exn
  | Some command_ad_str =>
      catch (match parse_classad command_ad_str with
             | None => run_cleanup (remove_from_input item)
             | Some command_ad => dispatch_command item command_ad
             end)
        (λ e, match e with ClassAdError | CannotCreateLBContext _ => mret tt | e => fail e end)
  end.

(** ** The dispatcher *)
Definition read_requests : WM (list (bytes * option bytes)) :=
  '(items, error) ← ask read_input;
  modify (λ w, set_input (input w ∪ list_to_set items.*1) w) ;;
  match error with Some e => fail e | None => mret items end.
Definition stop_events : WM unit := modify (λ w, set_events (stop (events w)) w).
Definition run_Dispatcher : WM unit :=
  catch
    (quit ← ask quit_signal;
     if quit : bool then stop_events
     else size ← gets (λ w, ready_size (events w));
          next_schedule ←
            (if size <? queue_size
             then catch (new_requests ← read_requests; for_each dispatch new_requests)
                    (λ e, match e with JobDirError => mret tt | e => fail e end) ;;
                  mret 1
             else mret 60);
          schedule_in Dispatcher next_schedule dispatcher_priority)
    (λ _, stop_events).

(** ** Match requests: the answer goes to a file of the match maker *)
Definition run_MatchProcessor (i : nat) : WM unit :=
  s ← gets (λ w, matches w !! i); s ← deref s;
  arguments ← deref (Lookup (mt_command_ad s) (of_string "arguments"));
  _ ← or_throw ClassAdError (evaluate_string (mt_command_ad s) (of_string "arguments.file"));
  throws ← ask (λ n, match_throws n (mt_command_ad s));
  if throws : bool then fail unknown_exn else mret tt.
End dispatch.
