(* ===== verification/Recovery.v ===== *)
(** * core/src/recovery.cpp: requests found at start-up

    Before the workers start, every request file is looked at again: the
    state and the events of its job say whether it is submitted again, waits
    in limbo, or is left alone.  The start script has moved the files of
    requests in progress back to the new ones. *)

From stdpp Require Import gmap strings.
From S2P Require Import Prelude LbEvents Events Manager WmUtils Submit Cancel Dispatch.

Section recovery.
Context {Ad : Type} `{Libraries Ad} `{Env Ad}.
Abbreviation WM := (M (World Ad) exn).

Record FullRequest := Full { fr_command : bytes; fr_request : bytes; fr_ad : Ad }.
Record RequestToRecover := ToRecover { rr_id : bytes; rr_request : FullRequest }.
Definition Ignore (v : FullRequest) : WM unit := run_cleanup (remove_from_input (fr_request v)).

(** ** Reading the requests *)
Definition insert_request (id_to_requests : list RequestToRecover) (request : bytes * option bytes) : WM (list RequestToRecover) :=
  let '(item, value) := request in
  match value with
  | None => run_cleanup (remove_from_input item) ;; fail std_exn
  | Some command_ad_str =>
      catch
        (guarded item
           (command_ad ← or_throw ClassAdError (parse_classad command_ad_str);
            command ← command_get_command command_ad;
            '(id, sequence_code, x509_proxy) ← check_request command_ad command;
            mret (id_to_requests ++ [ToRecover id (Full command item command_ad)])))
        (λ e, match e with ClassAdError => mret id_to_requests | e => fail e end)
  end.
Fixpoint insert_requests (acc : list RequestToRecover) (requests : list (bytes * option bytes)) : WM (list RequestToRecover) :=
  match requests with [] => mret acc | r :: requests => acc ← insert_request acc r; insert_requests acc requests end.

(** ** Nodes of a collection *)
Record RecoverableNodeInfo := NodeInfo { rn_name : bytes; rn_ad : Ad }.
(** The constructor of [select_recoverable_nodes]; an id that comes twice
    keeps its first state.  [None]: a read past the array of states. *)
Fixpoint children_map (i : list (option JobId)) (j : option (list edg_wll_JobStatCode)) (m : gmap bytes edg_wll_JobStatCode) : option (gmap bytes edg_wll_JobStatCode) :=
  match i with
  | Some id :: i =>
      match j with
      | Some (s :: j) => if decide (s = JOB_UNDEF) then Some m else children_map i (Some j) (match m !! id with None => <[id := s]> m | Some _ => m end)
      | Some [] => None
      | None => Some m
      end
  | _ => Some m
  end.
Definition children_states_of (cs : edg_wll_JobStat) : WM (gmap bytes edg_wll_JobStatCode) :=
  match children cs with None => mret ∅ | Some ids => deref (children_map ids (children_states cs) ∅) end.
Definition recoverable (s : edg_wll_JobStatCode) (events : LB_Events) : bool :=
  let status := Some (JobStat s STAT_SIMPLE None None) in
  if is_last_done events DONE_FAILED then false
  else if is_waiting status then true
  else if bool_decide (events = []) && is_submitted status then true
  else if in_limbo status events then false
  else is_ready status.
Definition select_node (m : gmap bytes edg_wll_JobStatCode) (acc : list RecoverableNodeInfo) (node : bytes * Ad) : WM (list RecoverableNodeInfo) :=
  catch
    (node_id ← or_throw ManipulationException (get_edg_jobid node.2);
     jobid ← or_throw JobIdError (parse_jobid node_id);
     match m !! node_id with
     | None => mret acc
     | Some s => events ← get_recovery_events jobid; mret (if recoverable s events then acc ++ [NodeInfo node.1 node.2] else acc)
     end)
    (λ _, mret acc).
Fixpoint select_nodes (m : gmap bytes edg_wll_JobStatCode) (acc : list RecoverableNodeInfo) (nodes : list (bytes * Ad)) : WM (list RecoverableNodeInfo) :=
  match nodes with [] => mret acc | x :: nodes => acc ← select_node m acc x; select_nodes m acc nodes end.
(** The null pointer when the context cannot be made. *)
Definition create_submit_request (parent : nat) (rni : RecoverableNodeInfo) : WM (option nat) :=
  node_text ← or_throw ManipulationException (get_edg_jobid (rn_ad rni));
  node_id ← or_throw JobIdError (parse_jobid node_text);
  let fake_command_ad := submit_command_create (rn_ad rni) in
  request ← m_state parent;
  catch
    (lb_context ← create_context node_id (m_x509_proxy request) [];
     state ← new_SubmitState fake_command_ad jobsubmit node_id [] (m_x509_proxy request) lb_context (RemoveNodeFromCollection (rn_name rni) parent) START;
     update_state parent (λ s, set_pending (m_collection_pending s ∪ {[rn_name rni]}) s) ;;
     mret (Some state))
    (λ e, match e with CannotCreateLBContext _ => mret None | e => fail e end).
Definition schedule_node (parent : nat) (rni : RecoverableNodeInfo) : WM unit :=
  state ← create_submit_request parent rni; schedule_now (SubmitProcessor state) submit_priority.

(** [None]: the null pointer with children to count. *)
Definition is_every_children_submitted (cs : edg_wll_JobStat) : option bool :=
  let children_num := length (default [] (children cs)) in
  match children_states cs with
  | Some states => Some (forallb (λ s, bool_decide (s = JOB_SUBMITTED)) (take children_num states))
  | None => if decide (children_num = 0%nat) then Some true else None
  end.

(** ** One request *)
Definition submit_state (id : JobId) (req : FullRequest) (sequence_code x509_proxy : bytes) (lb_context : nat) (start : checkpoint) : WM nat :=
  new_SubmitState (fr_ad req) (fr_command req) id sequence_code x509_proxy lb_context (remove_from_input (fr_request req)) start.
Definition recover_collection (id jobid : JobId) (req : FullRequest) (sequence_code x509_proxy : bytes) (lb_context : nat) (status : JobStatusPtr) : WM unit :=
  jdl ← or_throw ClassAdError (evaluate_classad (fr_ad req) (of_string "arguments.ad"));
  collection_status ← job_status_own_context jobid true true;
  match collection_status with
  | None => Ignore req
  | Some cs =>
      whole ← (if is_submitted status then mret true
               else if is_waiting status then deref (is_every_children_submitted cs) else mret false);
      if whole : bool
      then state ← submit_state id req sequence_code x509_proxy lb_context START;
           schedule_now (SubmitProcessor (Some state)) submit_priority
      else m ← children_states_of cs;
           recoverable_nodes ← select_nodes m [] (dag_nodes jdl);
           parent ← submit_state id req sequence_code x509_proxy lb_context PENDING;
           schedule_now (SubmitProcessor (Some parent)) submit_priority ;;
           for_each (schedule_node parent) recoverable_nodes
  end.
(** What is known of a single job: [None] when a resubmission is on its way,
    or whether the job starts in limbo. *)
Definition limbo_of_submit (jobid : JobId) (status : JobStatusPtr) : WM (option bool) :=
  catch (events ← get_recovery_events jobid;
         mret (if is_last_done events DONE_FAILED then None
               else Some (negb (is_waiting status) && in_limbo status events)))
    (λ e, match e with LB_QueryFailed | LB_QueryTemporarilyFailed => mret (Some true) | e => fail e end).
Definition limbo_of_resubmit (jobid : JobId) (status : JobStatusPtr) : WM (option bool) :=
  if is_waiting status then mret (Some false)
  else catch (events ← get_recovery_events jobid; mret (Some (in_limbo status events)))
         (λ e, match e with LB_QueryFailed | LB_QueryTemporarilyFailed => mret (Some true) | e => fail e end).
Definition recover_single (id : JobId) (req : FullRequest) (sequence_code x509_proxy : bytes) (lb_context : nat) (limbo : option bool) : WM unit :=
  match limbo with
  | None => mret tt
  | Some limbo =>
      state ← submit_state id req sequence_code x509_proxy lb_context (if limbo : bool then LIMBO else START);
      schedule_now (SubmitProcessor (Some state)) submit_priority
  end.
Definition recover_cancel (id : JobId) (req : FullRequest) (x509_proxy : bytes) : WM unit :=
  sequence_code ← cancel_command_get_lb_sequence_code (fr_ad req);
  catch (lb_context ← create_context id x509_proxy sequence_code;
         state ← new_CancelState id lb_context (remove_from_input (fr_request req));
         schedule_now (CancelProcessor state) cancel_priority)
    (λ e, match e with CannotCreateLBContext _ => mret tt | e => fail e end).
Definition request_recovery (id : JobId) (req : FullRequest) : WM unit :=
  let command := fr_command req in
  '(jobid, sequence_code, x509_proxy) ← check_request (fr_ad req) command;
  if decide (command = match_command) then Ignore req
  else context ← catch (c ← create_context id x509_proxy sequence_code; mret (Some c))
                   (λ e, match e with CannotCreateLBContext _ => mret None | e => fail e end);
       match context with
       | None => mret tt
       | Some lb_context =>
           status ← job_status jobid false false;
           if decide (command = jobsubmit)
           then if match status with Some s => bool_decide (jobtype s = STAT_COLLECTION) | None => false end
                then recover_collection id jobid req sequence_code x509_proxy lb_context status
                else limbo ← limbo_of_submit jobid status; recover_single id req sequence_code x509_proxy lb_context limbo
           else if decide (command = jobresubmit)
           then limbo ← limbo_of_resubmit jobid status; recover_single id req sequence_code x509_proxy lb_context limbo
           else if decide (command = jobcancel) then recover_cancel id req x509_proxy
           else Ignore req
       end.
Definition recover (r : RequestToRecover) : WM unit := request_recovery (rr_id r) (rr_request r).
Definition recovery : WM unit :=
  catch (requests ← read_requests;
         requests_to_recover ← insert_requests [] requests;
         for_each recover requests_to_recover)
    (λ _, mret tt).
End recovery.
