(* ===== verification/Replan.v ===== *)
(** * core/src/replanner.cpp: jobs that wait too long in a queue

    The replanner is an event that schedules itself again.  It asks LB for
    the jobs that are scheduled since a while, takes the token of each from
    under the running job by renaming it to the next number, and sends the
    job to the workload manager again with that number. *)

From stdpp Require Import gmap strings.
From S2P Require Import Prelude Numbers LbEvents Events Manager WmUtils Submit.

Section replan.
Context {Ad : Type} `{Libraries Ad} `{Env Ad}.
Abbreviation WM := (M (World Ad) exn).

(** [get_scheduled_jobs]: the array ends with an undefined state. *)
Fixpoint scheduled_ids (l : list (JobId * edg_wll_JobStatCode)) : list JobId :=
  match l with
  | [] => []
  | (id, s) :: l => if decide (s = JOB_UNDEF) then [] else if decide (s = JOB_SCHEDULED) then id :: scheduled_ids l else scheduled_ids l
  end.
Definition get_scheduled_jobs : WM (list JobId) :=
  '(error, job_statuses) ← ask lb_query_jobs;
  mret (if error =? 0 then scheduled_ids job_statuses else []).

(** [None]: the job is left alone. *)
Definition original_ad (jobid : JobId) : WM (option Ad) :=
  catch (text ← get_original_jdl jobid; ad ← or_throw ClassAdError (parse_classad text); mret (Some ad)) (λ _, mret None).
Definition replan_context (jobid : JobId) (x509_proxy : bytes) : WM (option nat) :=
  catch (c ← create_context jobid x509_proxy []; mret (Some c))
    (λ e, match e with CannotCreateLBContext _ => mret None | e => fail e end).
(** The first token; a second one is logged as an abort. *)
Fixpoint replan_token (context : nat) (leafs : list bytes) (token : option bytes) : WM (option bytes) :=
  match leafs with
  | [] => mret token
  | leaf :: leafs =>
      if is_token_name leaf
      then match token with
           | None => replan_token context leafs (Some leaf)
           | Some _ =>
               log_abort context (leaf ++ of_string ": two shallow resubmit tokens are present at the same time!") ;;
               replan_token context leafs token
           end
      else replan_token context leafs token
  end.
Definition token_prefix (leaf : bytes) : bytes := take (length leaf - length (token_suffix leaf)) leaf.
(** The request for the job with its new number. *)
Definition send_replan (context : nat) (job_ad : Ad) (token_num : Z) : WM unit :=
  let job_ad := set_replans_count (token_num + 1) (remove_replans_count job_ad) in
  ok ← ask open_jobdir;
  if negb ok then fail JobDirError else
  log_ (LogResubmissionSHALLOW (of_string "token still exists") (of_string "job will be replanned")) context ;;
  log_enqueued_start context wm_input ;;
  let request := unparse_classad (submit_command_create job_ad) in
  failed ← ask (λ n, deliver_wm_error n request);
  if failed : bool then log_enqueued_fail context wm_input request (of_string "cannot write in WM input")
  else emit (to_wm request) ;; log_enqueued_ok context wm_input request.
(** The token is renamed; [errno] is not set to 0 before. *)
Definition take_token (context : nat) (jobid : JobId) (job_ad : Ad) (token : bytes) (token_num : Z) : WM unit :=
  res ← rename jobid token (token_prefix token ++ text_of_long (token_num + 1));
  errno ← (if res =? 0 then ask stale_errno else mret res);
  if negb (res =? 0) && negb (errno =? ENOENT) then mret tt
  else if errno =? ENOENT then mret tt
  else when (max_replans_count <=? token_num) (unlink (jobid, token) ;; log_abort context (of_string "hit max number of replans")) ;;
       send_replan context job_ad token_num.
Definition replan_cream (context : nat) (jobid : JobId) (job_ad : Ad) : WM unit :=
  leafs ← directory jobid;
  match leafs with
  | None => mret tt
  | Some leafs =>
      token ← replan_token context leafs None;
      match token with
      | None => mret tt
      | Some token =>
          match float_of_text (token_suffix token) with
          | None => mret tt
          | Some token_num => if 0 <=? token_num then take_token context jobid job_ad token token_num else mret tt
          end
      end
  end.
Definition replan (jobid : JobId) : WM unit :=
  ad ← original_ad jobid;
  match ad with
  | None => mret tt
  | Some job_ad =>
      if negb (get_enable_wms_feedback job_ad) then mret tt
      else if negb (shallow_resubmission_is_enabled job_ad) then mret tt
      else x509_proxy ← or_throw ManipulationException (get_x509_user_proxy job_ad);
           context ← replan_context jobid x509_proxy;
           match context with
           | None => mret tt
           | Some context =>
               sequence_code ← get_lb_sequence_code context;
               let job_ad := set_lb_sequence_code sequence_code job_ad in
               ceid ← get_last_matched_ceid jobid;
               if is_cream_ce_id ceid then replan_cream context jobid job_ad else mret tt
           end
  end.
Definition run_Replanner : WM unit :=
  if negb replanner_context then mret tt
  else catch (stuck_jobs_ids ← get_scheduled_jobs; for_each replan stuck_jobs_ids) (λ _, mret tt) ;;
       schedule_in Replanner replan_grace_period replanner_priority.
End replan.
