(* ===== verification/WmInvariant.v ===== *)
(** * The states of requests and their files

    The invariant of the workload manager: a request that something still
    refers to has its file in the input directory, and a state that exists is
    referred to.  First the invariant and what it is stable under, then one
    lemma for each primitive that changes the states, the queue or the files. *)

From stdpp Require Import gmap strings.
From S2P Require Import Prelude LbEvents Events EventsProps Manager WmUtils Dispatch.

(** ** Which processors the queue holds *)
Section held.
Implicit Types e : Events Processor.

Definition held (f : Processor) e : Prop := Some f ∈ (pending e).*2 ∨ Calling (Some f) ∈ workers e.

Lemma in_queue_held f e : in_queue f e = true ↔ held f e.
Proof.
  unfold in_queue, held, pending. rewrite orb_true_iff, !existsb_exists. apply Morphisms_Prop.or_iff_morphism.
  - rewrite list_elem_of_fmap. split.
    + intros (x & Hx & Hd%bool_decide_eq_true). exists x. by rewrite list_elem_of_In.
    + intros (x & Hd & Hx). exists x. rewrite <- list_elem_of_In. by rewrite bool_decide_eq_true_2.
  - split.
    + intros (x & Hx & Hc). destruct x as [| | | | | |[g|]| | |]; try done. apply bool_decide_eq_true in Hc as ->. by apply list_elem_of_In.
    + intros Hx. exists (Calling (Some f)). cbn. rewrite <- list_elem_of_In, bool_decide_eq_true_2; done.
Qed.
Lemma schedule_held g t f p e : held g (schedule t f p e) ↔ held g e ∨ f = Some g.
Proof.
  unfold held, pending, schedule. cbn. rewrite multimap_insert_perm. cbn. rewrite elem_of_cons. naive_solver.
Qed.
Lemma schedule_at_held g t f p e : held g (schedule_at f t p e) ↔ held g e ∨ f = Some g.
Proof.
  unfold held, pending, schedule_at. cbn. rewrite multimap_insert_perm, <- Permutation_middle. cbn. rewrite elem_of_cons. naive_solver.
Qed.
End held.

Section invariant.
Context {Ad : Type} `{Libraries Ad} `{Env Ad}.
Abbreviation W := (World Ad).
Implicit Types w : W.

(** ** Owners of request files *)
Inductive owner := OSubmit (i : nat) | OCancel (i : nat) | OMatch (i : nat).
Definition cleanup_of w (o : owner) : option cleanup :=
  match o with
  | OSubmit i => m_cleanup <$> submits w !! i
  | OCancel i => c_cleanup <$> cancels w !! i
  | OMatch i => mt_cleanup <$> matches w !! i
  end.
Definition owns w o item : Prop := cleanup_of w o = Some (remove_from_input item).
Definition number (o : owner) : nat := match o with OSubmit i | OCancel i | OMatch i => i end.
(** The processors that refer to a state. *)
Definition refers (f : Processor) : option owner :=
  match f with
  | SubmitProcessor (Some i) => Some (OSubmit i) | CancelProcessor i => Some (OCancel i) | MatchProcessor i => Some (OMatch i)
  | _ => None
  end.
Definition processor_of (o : owner) : Processor :=
  match o with OSubmit i => SubmitProcessor (Some i) | OCancel i => CancelProcessor i | OMatch i => MatchProcessor i end.
Definition alive w o : Prop := is_Some (cleanup_of w o).
Definition live w f : Prop := ∀ o, refers f = Some o → alive w o.
(** By an event or a worker, or by a child. *)
Definition reached w o : Prop := held (processor_of o) (events w) ∨ ∃ i k name, OSubmit i = o ∧ cleanup_of w (OSubmit k) = Some (RemoveNodeFromCollection name i).
(** Read from the input by one of the calls so far. *)
Definition seen w item : Prop := ∃ k, (k < calls w)%nat ∧ item ∈ (read_input k).1.*1.

(** [fresh]: owners that nothing refers to yet. *)
Record Inv (fresh : list owner) w : Prop := {
  inv_next : ∀ o, alive w o → (number o < next_state w)%nat;
  inv_parent : ∀ k name p, cleanup_of w (OSubmit k) = Some (RemoveNodeFromCollection name p) → (p < k)%nat ∧ alive w (OSubmit p);
  inv_file : ∀ o item, owns w o item → item ∈ input w;
  inv_unique : ∀ o o' item, owns w o item → owns w o' item → o = o';
  inv_queue : ∀ f, held f (events w) → live w f;
  inv_reached : ∀ o, alive w o → o ∉ fresh → reached w o;
  inv_seen : ∀ item, item ∈ input w → seen w item;
  inv_kind : ∀ o cl, cleanup_of w o = Some cl → (∃ i, o = OSubmit i) ∨ ∃ item, cl = remove_from_input item
}.

(** With processors [gs] that are held, and files [free] that nobody owns. *)
Definition is_free w item : Prop := item ∈ input w ∧ ∀ o, ¬ owns w o item.
Definition J (gs : list Processor) (free : list bytes) (fresh : list owner) w : Prop :=
  Inv fresh w ∧ Forall (λ g, held g (events w)) gs ∧ NoDup free ∧ Forall (is_free w) free.

Lemma J_fewer_free gs x free fresh w : J gs (x :: free) fresh w → J gs free fresh w.
Proof. intros (? & ? & [_ ?]%NoDup_cons & [_ ?]%Forall_cons). by split_and!. Qed.
Lemma J_no_free gs free fresh w : J gs free fresh w → J gs [] fresh w.
Proof. intros (? & ? & _ & _). split_and!; [done..|constructor|constructor]. Qed.
Lemma J_live gs free fresh w f : J gs free fresh w → f ∈ gs → live w f.
Proof. intros (HI & Hg & _) Hf. rewrite Forall_forall in Hg. by eapply inv_queue; [exact HI|apply Hg]. Qed.
Lemma J_alive gs free fresh w i : J gs free fresh w → SubmitProcessor (Some i) ∈ gs → is_Some (submits w !! i).
Proof. intros HJ Hi. by destruct (J_live _ _ _ _ _ HJ Hi (OSubmit i) eq_refl) as [? [? [? _]]%fmap_Some_1]. Qed.

(** ** What does not touch them *)
Definition same w w' : Prop :=
  (∀ o, cleanup_of w' o = cleanup_of w o) ∧ input w' = input w ∧ next_state w' = next_state w ∧
  (∀ f, held f (events w') ↔ held f (events w)) ∧ (calls w ≤ calls w')%nat.

Lemma same_alive w w' o : same w w' → alive w' o ↔ alive w o.
Proof. intros (Hc & _). unfold alive. by rewrite Hc. Qed.
Lemma same_owns w w' o item : same w w' → owns w' o item ↔ owns w o item.
Proof. intros (Hc & _). unfold owns. by rewrite Hc. Qed.
Lemma same_reached w w' o : same w w' → reached w' o ↔ reached w o.
Proof. intros (Hc & _ & _ & Hq & _). unfold reached. rewrite Hq. by setoid_rewrite Hc. Qed.
Lemma Inv_same fresh w w' : same w w' → Inv fresh w → Inv fresh w'.
Proof.
  intros Hs [H1 H2 H3 H4 H5 H6 H7 H8]. pose proof Hs as (Hc & Hi & Hn & Hq & Hk). split.
  - intros o Ho%(same_alive _ _ _ Hs). rewrite Hn. by apply H1.
  - intros k name p. rewrite Hc, (same_alive _ _ _ Hs). apply H2.
  - intros o item Ho%(same_owns _ _ _ _ Hs). rewrite Hi. by eapply H3.
  - intros o o' item Ho%(same_owns _ _ _ _ Hs) Ho'%(same_owns _ _ _ _ Hs). by eapply H4.
  - intros f Hf%Hq o Ho. apply (same_alive _ _ _ Hs). by eapply H5.
  - intros o Ho%(same_alive _ _ _ Hs) Hn'. apply (same_reached _ _ _ Hs). by apply H6.
  - intros item. rewrite Hi. intros (k & Hk' & Hx)%H7. exists k. split; [lia|done].
  - intros o cl. rewrite Hc. apply H8.
Qed.
Lemma J_same gs free fresh w w' : same w w' → J gs free fresh w → J gs free fresh w'.
Proof.
  intros Hs (HI & Hg & Hn & Hf). split_and!; [by eapply Inv_same| |done|].
  - eapply Forall_impl; [exact Hg|]. intros g. apply Hs.
  - eapply Forall_impl; [exact Hf|]. intros x [Hx Ho]. pose proof Hs as (_ & Hi & _). split; [by rewrite Hi|].
    intros o. by rewrite (same_owns _ _ _ _ Hs).
Qed.

(** A call that leaves the states, the queue and the files alone. *)
Definition core w := (input w, submits w, cancels w, matches w, next_state w, events w).
Definition frame w w' : Prop := core w' = core w ∧ (calls w ≤ calls w')%nat.
Definition quiet {A} (m : M W exn A) : Prop := ∀ w, frame w (m w).1.

Lemma frame_trans w1 w2 w3 : frame w1 w2 → frame w2 w3 → frame w1 w3.
Proof. intros [? ?] [? ?]. split; [congruence|lia]. Qed.
Lemma frame_same w w' : frame w w' → same w w'.
Proof. intros [[= H1 H2 H3 H4 H5 H6] ?]. split_and!; [intros []; cbn; congruence|done|done|by rewrite H6|done]. Qed.
Lemma quiet_ret {A} (a : A) : quiet (mret a).
Proof. by split. Qed.
Lemma quiet_fail {A} (e : exn) : quiet (fail e : M W exn A).
Proof. by split. Qed.
Lemma quiet_stuck {A} : quiet (stuck : M W exn A).
Proof. by split. Qed.
Lemma quiet_bind {A B} (m : M W exn A) (k : A → M W exn B) : quiet m → (∀ a, quiet (k a)) → quiet (m ≫= k).
Proof.
  intros Hm Hk w. unfold mbind, M_bind. specialize (Hm w). destruct (m w) as [w' [a| |]]; [|done|done]. by eapply frame_trans; [|apply Hk].
Qed.
Lemma quiet_catch {A} (m : M W exn A) h : quiet m → (∀ e, quiet (h e)) → quiet (catch m h).
Proof.
  intros Hm Hh w. unfold catch. specialize (Hm w). destruct (m w) as [w' [a|e|]]; [done| |done]. by eapply frame_trans; [|apply Hh].
Qed.
Lemma quiet_ask {A} (f : nat → A) : quiet (ask f).
Proof. split; [done|]. cbn. lia. Qed.
Lemma quiet_gets {A} (f : W → A) : quiet (gets f).
Proof. by split. Qed.
Lemma quiet_or_throw {A} e (o : option A) : quiet (or_throw e o).
Proof. destruct o; [apply quiet_ret|apply quiet_fail]. Qed.
Lemma quiet_deref {A} (o : option A) : quiet (deref o).
Proof. destruct o; [apply quiet_ret|apply quiet_stuck]. Qed.
Lemma quiet_when b m : quiet m → quiet (when b m).
Proof. intros Hm. destruct b; [done|apply quiet_ret]. Qed.
Lemma quiet_for_each {A} (f : A → M W exn unit) l : (∀ x, quiet (f x)) → quiet (for_each f l).
Proof. intros Hf. induction l as [|x l IH]; cbn [for_each]; [apply quiet_ret|]. by apply quiet_bind. Qed.
Lemma quiet_modify (f : W → W) : (∀ w, core (f w) = core w) → (∀ w, calls (f w) = calls w) → quiet (modify f).
Proof. intros Hf Hc w. split; cbn; [by apply Hf|]. by rewrite Hc. Qed.
Lemma keeps_quiet {A} gs free fresh (m : M W exn A) : quiet m → keeps (J gs free fresh) m.
Proof. intros Hm w HJ. pose proof (J_same gs free fresh w (m w).1 (frame_same _ _ (Hm w)) HJ). by destruct (m w) as [w' []]. Qed.
End invariant.

Create HintDb quiet.
#[export] Hint Resolve quiet_ret quiet_fail quiet_stuck quiet_ask quiet_gets quiet_or_throw quiet_deref : quiet.
(** Follows the structure of a call. *)
Ltac quiet_step :=
  first
  [ solve [eauto with quiet nocore]
  | apply quiet_bind; [|intros ?]
  | apply quiet_catch; [|intros ?]
  | apply quiet_when
  | apply quiet_for_each; intros ?
  | apply quiet_modify; reflexivity
  | match goal with
    | |- quiet (if ?b then _ else _) => destruct b
    | |- quiet (match ?x with _ => _ end) => destruct x
    | |- quiet (let '(_, _) := ?x in _) => destruct x
    end ].
Ltac quiet := repeat quiet_step.

(** ** Quiet calls *)
Section quiet_calls.
Context {Ad : Type} `{Libraries Ad} `{Env Ad}.

Lemma create_context_quiet id p sc : quiet (create_context id p sc).
Proof. unfold create_context. quiet. Qed.
Lemma change_logging_job_quiet c sc id : quiet (change_logging_job c sc id).
Proof. unfold change_logging_job. quiet. Qed.
Lemma change_logging_src_quiet c s : quiet (change_logging_src (Ad:=Ad) c s).
Proof. unfold change_logging_src. quiet. Qed.
Lemma log_function_quiet e c : quiet (log_function e c).
Proof. unfold log_function. quiet. Qed.
Hint Resolve create_context_quiet log_function_quiet : quiet.
Lemma host_context_quiet c : quiet (host_context c).
Proof. unfold host_context. quiet. Qed.
Hint Resolve host_context_quiet : quiet.
Lemma host_loop_quiet i e c err : quiet (host_loop i e c err).
Proof. revert err. induction i as [|i IH]; intros err; cbn [host_loop]; quiet. Qed.
Hint Resolve host_loop_quiet : quiet.
Lemma lb_log_loop_quiet i e c err : quiet (lb_log_loop i e c err).
Proof. revert err. induction i as [|i IH]; intros err; cbn [lb_log_loop]; quiet. Qed.
Hint Resolve lb_log_loop_quiet : quiet.
Lemma log_quiet e c : quiet (log_ e c).
Proof. unfold log_, lb_log. quiet. Qed.
Lemma get_lb_sequence_code_quiet c : quiet (get_lb_sequence_code c).
Proof. unfold get_lb_sequence_code. quiet. Qed.
Lemma do_query_events_quiet id conds b : quiet (do_query_events id conds b).
Proof. unfold do_query_events. quiet. Qed.
Lemma get_original_jdl_quiet id : quiet (get_original_jdl id).
Proof. unfold get_original_jdl. quiet. Qed.
Lemma job_status_own_context_quiet id a b : quiet (job_status_own_context id a b).
Proof. unfold job_status_own_context, job_status. quiet. Qed.
Lemma is_proxy_expired_quiet id : quiet (is_proxy_expired id).
Proof. unfold is_proxy_expired. quiet. Qed.
Lemma unlink_quiet p : quiet (unlink (Ad:=Ad) p).
Proof. unfold unlink. quiet. Qed.
Lemma create_token_quiet p : quiet (create_token p).
Proof. unfold create_token. quiet. Qed.
Lemma exists_quiet p : quiet (exists_ (Ad:=Ad) p).
Proof. unfold exists_. quiet. Qed.
Hint Resolve exists_quiet : quiet.
Lemma rename_quiet id a b : quiet (rename id a b).
Proof. unfold rename. quiet. Qed.
Lemma directory_quiet id : quiet (directory id).
Proof. unfold directory. quiet. Qed.
Lemma jobid_of_quiet ad : quiet (jobid_of ad).
Proof. unfold jobid_of. quiet. Qed.
Lemma emit_quiet o : quiet (emit (Ad:=Ad) o).
Proof. unfold emit. quiet. Qed.
Hint Resolve emit_quiet : quiet.
Lemma deliver_quiet b s : quiet (deliver b s).
Proof. unfold deliver. quiet. Qed.
Lemma check_shallow_count_quiet ad n : quiet (check_shallow_count ad n).
Proof. unfold check_shallow_count. quiet. Qed.
Lemma check_deep_count_quiet ad n : quiet (check_deep_count ad n).
Proof. unfold check_deep_count. quiet. Qed.
Lemma m_state_quiet i : quiet (m_state (Ad:=Ad) i).
Proof. unfold m_state. quiet. Qed.
End quiet_calls.
#[export] Hint Resolve create_context_quiet change_logging_job_quiet change_logging_src_quiet log_function_quiet log_quiet get_lb_sequence_code_quiet
  do_query_events_quiet get_original_jdl_quiet job_status_own_context_quiet is_proxy_expired_quiet unlink_quiet create_token_quiet exists_quiet
  rename_quiet directory_quiet jobid_of_quiet emit_quiet deliver_quiet check_shallow_count_quiet check_deep_count_quiet m_state_quiet : quiet.
(** The logging functions and the queries are instances. *)
#[export] Hint Unfold log_dequeued log_cancel_req log_cancelled log_done_cancelled log_pending log_abort log_resubmission_shallow log_resubmission_deep
  log_resubmission_deep_token log_usertag log_match log_transfer_start log_transfer_ok log_running log_done_ok log_enqueued_start log_enqueued_ok
  log_enqueued_fail get_cancel_events get_recovery_events get_interesting_events job_status : quiet.
Section quiet_wm.
Context {Ad : Type} `{Libraries Ad} `{Env Ad}.

Lemma wm_submit_planned_quiet ad c b : quiet (wm_submit_planned ad c b).
Proof. unfold wm_submit_planned. quiet. Qed.
Hint Resolve wm_submit_planned_quiet : quiet.
Lemma wm_submit_quiet ad c b : quiet (wm_submit ad c b).
Proof. unfold wm_submit. quiet. Qed.
Lemma wm_cancel_quiet id c : quiet (wm_cancel id c).
Proof. unfold wm_cancel. quiet. Qed.
Lemma submit_scheduled_quiet c sc j : quiet (submit_scheduled c sc j).
Proof. unfold submit_scheduled. quiet. Qed.
Lemma enqueue_pending_quiet c n v : quiet (enqueue_pending c n v).
Proof. unfold enqueue_pending. quiet. Qed.
End quiet_wm.
#[export] Hint Resolve wm_submit_quiet wm_submit_planned_quiet wm_cancel_quiet submit_scheduled_quiet enqueue_pending_quiet : quiet.

(** * The primitives that change states, queue and files

    One triple over the invariant [J] for each: scheduling, construction and
    destruction of states, the cleanup of a file, the reading of new ones. *)

Section primitives.
Context {Ad : Type} `{Libraries Ad} `{Env Ad}.
Abbreviation W := (World Ad).
Implicit Types w : W.

(** ** One owner changes *)
Definition change (o : owner) (cl : option cleanup) w w' : Prop :=
  cleanup_of w' o = cl ∧ (∀ o', o' ≠ o → cleanup_of w' o' = cleanup_of w o') ∧ events w' = events w ∧ calls w' = calls w.

#[local] Instance owner_eqdec : EqDecision owner.
Proof. solve_decision. Defined.

Lemma change_owns o cl w w' o' item : change o cl w w' → owns w' o' item ↔ (o' = o ∧ cl = Some (remove_from_input item) ∨ o' ≠ o ∧ owns w o' item).
Proof.
  intros (Hc & Ho & _). unfold owns. destruct (decide (o' = o)) as [->|Hn]; [rewrite Hc|rewrite (Ho o') by done]; naive_solver.
Qed.
Lemma change_alive o cl w w' o' : change o cl w w' → alive w' o' ↔ (o' = o ∧ is_Some cl ∨ o' ≠ o ∧ alive w o').
Proof.
  intros (Hc & Ho & _). unfold alive. destruct (decide (o' = o)) as [->|Hn]; [rewrite Hc|rewrite (Ho o') by done]; naive_solver.
Qed.

(** A new state, with a file nobody owns or under a living parent. *)
Lemma Inv_alloc o cl w w' fresh : change o (Some cl) w w' → number o = next_state w → next_state w' = S (next_state w) → input w' = input w →
  match cl with
  | remove_from_input item => is_free w item
  | RemoveNodeFromCollection _ p => ∃ k, o = OSubmit k ∧ alive w (OSubmit p)
  end → Inv fresh w → Inv (o :: fresh) w'.
Proof.
  intros Hch Hno Hnx Hin Hcl [H1 H2 H3 H4 H5 H6 H7 H8]. pose proof Hch as (Hc & Ho & He & Hk).
  assert (Hdead : ¬ alive w o) by (intros ?%H1; lia).
  split.
  - intros o' [[-> _]|[_ Ha%H1]]%(change_alive _ _ _ _ _ Hch); lia.
  - intros k name p Hkp. assert (∀ q, alive w (OSubmit q) → (q < next_state w)%nat ∧ alive w' (OSubmit q)) as Hq.
    { intros q Hq. split; [by apply (H1 (OSubmit q))|]. apply (change_alive _ _ _ _ _ Hch). right. split; [by intros <-|done]. }
    destruct (decide (OSubmit k = o)) as [<-|Hn].
    + rewrite Hc in Hkp. injection Hkp as ->. destruct Hcl as (k' & [= <-] & Hp%Hq). cbn in Hno. by rewrite Hno.
    + rewrite Ho in Hkp by done. apply H2 in Hkp as [Hlt Hp%Hq]. by destruct Hp.
  - intros o' item [[_ [= ->]]|[_ Hw]]%(change_owns _ _ _ _ _ _ Hch); rewrite Hin; [by destruct Hcl|by eapply H3].
  - intros o1 o2 item [[-> [= ->]]|[Hn1 Hw1]]%(change_owns _ _ _ _ _ _ Hch) [[-> E]|[Hn2 Hw2]]%(change_owns _ _ _ _ _ _ Hch); [done|..].
    + by destruct Hcl as [_ Hf%(λ h, h o2)].
    + injection E as ->. by destruct Hcl as [_ Hf%(λ h, h o1)].
    + by eapply H4.
  - intros f. rewrite He. intros Hf o' Ho'. apply (change_alive _ _ _ _ _ Hch). right. pose proof (H5 f Hf o' Ho') as Ha. split; [by intros ->|done].
  - intros o' [[-> _]|[Hn Ha]]%(change_alive _ _ _ _ _ Hch) Hfr; [by destruct Hfr; left|]. apply not_elem_of_cons in Hfr as [_ Hfr].
    destruct (H6 o' Ha Hfr) as [Hh|(i & k & name & <- & Hkc)]; [left; by rewrite He|]. right. exists i, k, name. split; [done|]. rewrite Ho; [done|].
    intros <-. by apply Hdead; exists (RemoveNodeFromCollection name i).
  - intros item. rewrite Hin. intros (k & ? & ?)%H7. exists k. split; [lia|done].
  - intros o' cl' Hcl'. destruct (decide (o' = o)) as [->|Hn]; [|rewrite Ho in Hcl' by done; by apply H8].
    rewrite Hc in Hcl'. injection Hcl' as <-. destruct cl; [by right; eexists|]. left. destruct Hcl as (k & -> & _). by exists k.
Qed.

(** A state that nothing refers to goes away, with its file. *)
Lemma Inv_free o cl w w' fresh fresh' : change o None w w' → cleanup_of w o = Some cl → ¬ reached w o → next_state w' = next_state w →
  input w' = match cl with remove_from_input item => input w ∖ {[item]} | _ => input w end →
  (∀ o', o' ∈ fresh → o' = o ∨ o' ∈ fresh') →
  (∀ k name p, o = OSubmit k → cl = RemoveNodeFromCollection name p → OSubmit p ∈ fresh') → Inv fresh w → Inv fresh' w'.
Proof.
  intros Hch Hw Hnr Hnx Hin Hfr Hpar [H1 H2 H3 H4 H5 H6 H7 H8]. pose proof Hch as (Hc & Ho & He & Hk).
  assert (Hsub : input w' ⊆ input w) by (rewrite Hin; destruct cl; set_solver).
  split.
  - intros o' [[_ [? ?]]|[_ Ha]]%(change_alive _ _ _ _ _ Hch); [done|]. rewrite Hnx. by apply H1.
  - intros k name p Hkp. destruct (decide (OSubmit k = o)) as [<-|Hn]; [by rewrite Hc in Hkp|]. rewrite Ho in Hkp by done.
    pose proof (H2 _ _ _ Hkp) as [Hlt Hp]. split; [done|]. apply (change_alive _ _ _ _ _ Hch). right. split; [|done].
    intros <-. apply Hnr. right. by exists p, k, name.
  - intros o' item [[_ ?]|[Hn Hown]]%(change_owns _ _ _ _ _ _ Hch); [done|]. pose proof (H3 _ _ Hown) as Hi. rewrite Hin. destruct cl as [item'|]; [|done].
    apply elem_of_difference. split; [done|]. intros ->%elem_of_singleton. destruct Hn. by apply (H4 _ _ _ Hown).
  - intros o1 o2 item [[_ ?]|[_ ?]]%(change_owns _ _ _ _ _ _ Hch) [[_ ?]|[_ ?]]%(change_owns _ _ _ _ _ _ Hch); [done..|]. by eapply H4.
  - intros f. rewrite He. intros Hf o' Ho'. apply (change_alive _ _ _ _ _ Hch). right. split; [|by eapply H5].
    intros ->. apply Hnr. left. cbn in Ho'. destruct f as [[i|]|i|i| | |]; simplify_eq/=; exact Hf.
  - intros o' [[_ [? ?]]|[Hn Ha]]%(change_alive _ _ _ _ _ Hch) Hfr'; [done|].
    assert (o' ∉ fresh) as Hf by (intros [?|?]%Hfr; done).
    destruct (H6 o' Ha Hf) as [Hh|(i & k & name & <- & Hkc)]; [left; by rewrite He|]. right. exists i, k, name. split; [done|].
    destruct (decide (OSubmit k = o)) as [<-|Hnk]; [|by rewrite Ho]. rewrite Hw in Hkc. injection Hkc as ->. destruct Hfr'. by eapply Hpar.
  - intros item (k & ? & ?)%Hsub%H7. exists k. split; [lia|done].
  - intros o' cl' Hcl'. destruct (decide (o' = o)) as [->|Hn]; [by rewrite Hc in Hcl'|]. rewrite Ho in Hcl' by done. by apply H8.
Qed.

(** ** Scheduling *)
Lemma J_queue gs free fresh fresh' w w' : J gs free fresh w → (∀ f, held f (events w) → held f (events w')) →
  (∀ f, held f (events w') → held f (events w) ∨ live w f) → (∀ o, o ∈ fresh → o ∈ fresh' ∨ held (processor_of o) (events w')) →
  (∀ o', cleanup_of w' o' = cleanup_of w o') → input w' = input w → next_state w' = next_state w → (calls w ≤ calls w')%nat → J gs free fresh' w'.
Proof.
  intros ([H1 H2 H3 H4 H5 H6 H7 H8] & Hg & Hn & Hf) Hh Hh' Hfr Hc Hi Hnx Hk.
  assert (∀ o', alive w' o' ↔ alive w o') as Hal by (intros; unfold alive; by rewrite Hc).
  assert (∀ o' item, owns w' o' item ↔ owns w o' item) as How by (intros; unfold owns; by rewrite Hc).
  split_and!; [split| |done|].
  - intros o' ?%Hal. rewrite Hnx. by apply H1.
  - intros k name p. rewrite Hc, Hal. apply H2.
  - intros o' item ?%How. rewrite Hi. by eapply H3.
  - intros o1 o2 item ?%How ?%How. by eapply H4.
  - intros f [Hf'|Hf']%Hh' o' Ho'; apply Hal; [by eapply H5|by apply Hf'].
  - intros o' Ho%Hal Hfr'. destruct (decide (o' ∈ fresh)) as [[?|?]%Hfr|Hne]; [done|by left|].
    destruct (H6 o' Ho Hne) as [Hq|(i & k & name & <- & Hkc)]; [left; by apply Hh|]. right. exists i, k, name. by rewrite Hc.
  - intros item. rewrite Hi. intros (k & ? & ?)%H7. exists k. split; [lia|done].
  - intros o' cl'. rewrite Hc. apply H8.
  - eapply Forall_impl; [exact Hg|]. intros g. apply Hh.
  - eapply Forall_impl; [exact Hf|]. intros x [Hx Ho]. split; [by rewrite Hi|]. intros o' ?%How. by eapply Ho.
Qed.
Lemma J_more_held gs g free fresh w : J gs free fresh w → held g (events w) → J (g :: gs) free fresh w.
Proof. intros (? & ? & ? & ?) ?. split_and!; [done|by constructor|done|done]. Qed.
Lemma J_fewer_held gs g free fresh w : J (g :: gs) free fresh w → J gs free fresh w.
Proof. intros (? & [_ ?]%Forall_cons & ? & ?). by split_and!. Qed.
Lemma J_schedule gs free fresh w w' o : J gs free (o :: fresh) w → alive w o → (∀ f, held f (events w') ↔ held f (events w) ∨ f = processor_of o) →
  (∀ o', cleanup_of w' o' = cleanup_of w o') → input w' = input w → next_state w' = next_state w → (calls w ≤ calls w')%nat → J (processor_of o :: gs) free fresh w'.
Proof.
  intros HJ Ha Hh Hc Hi Hn Hk. apply J_more_held; [|apply Hh; by right]. eapply J_queue; [exact HJ|..|done|done|done|done]; intros f.
  - intros ?. apply Hh. by left.
  - intros [?| ->]%Hh; [by left|right]. intros o' Ho'. by destruct o; injection Ho' as <-.
  - intros [->|?]%elem_of_cons; [right; apply Hh; by right|by left].
Qed.
Lemma schedule_now_owner gs free fresh o p X :
  triple (λ w, J gs free (o :: fresh) w ∧ alive w o) (schedule_now (processor_of o) p) (λ _, J (processor_of o :: gs) free fresh) X.
Proof.
  intros w [HJ Ha]. cbn. eapply J_schedule; [exact HJ|exact Ha|..|done|done|cbn; lia]; [|by intros []].
  intros f. cbn. rewrite schedule_held. naive_solver.
Qed.
Lemma schedule_in_owner gs free fresh o d p X :
  triple (λ w, J gs free (o :: fresh) w ∧ alive w o) (schedule_in (processor_of o) d p) (λ _, J (processor_of o :: gs) free fresh) X.
Proof.
  intros w [HJ Ha]. cbn. eapply J_schedule; [exact HJ|exact Ha|..|done|done|cbn; lia]; [|by intros []].
  intros f. cbn. rewrite schedule_at_held. naive_solver.
Qed.
Lemma J_more_fresh gs free fresh o w : J gs free fresh w → J gs free (o :: fresh) w.
Proof. intros ([? ? ? ? ? Hre] & ? & ? & ?). split_and!; [|done..]. split; try done. intros o' Ha Hf. apply Hre; [done|]. set_solver. Qed.
Lemma refers_processor f o : refers f = Some o → f = processor_of o.
Proof. destruct f as [[i|]|i|i| | |]; by intros [= <-]. Qed.
(** What is held may be scheduled again, and what refers to no state. *)
Lemma schedule_now_keeps gs free fresh f p : f ∈ gs ∨ refers f = None → keeps (J gs free fresh) (schedule_now f p).
Proof.
  intros Hf w HJ. destruct (refers f) as [o|] eqn:E.
  - destruct Hf as [Hf|]; [|done]. pose proof (J_live _ _ _ _ _ HJ Hf o E) as Ha. rewrite (refers_processor _ _ E).
    eapply J_fewer_held, (schedule_now_owner gs free fresh o p (λ _, J gs free fresh)). split; [by apply J_more_fresh|done].
  - cbn. eapply J_queue; [exact HJ|..|done|done|cbn; lia]; cbn; [intros g; rewrite schedule_held; by left|intros g; rewrite schedule_held|by left|by intros []].
    intros [?|[= ->]]; [by left|right]. intros o. congruence.
Qed.
Lemma schedule_in_keeps gs free fresh f d p : f ∈ gs ∨ refers f = None → keeps (J gs free fresh) (schedule_in f d p).
Proof.
  intros Hf w HJ. destruct (refers f) as [o|] eqn:E.
  - destruct Hf as [Hf|]; [|done]. pose proof (J_live _ _ _ _ _ HJ Hf o E) as Ha. rewrite (refers_processor _ _ E).
    eapply J_fewer_held, (schedule_in_owner gs free fresh o d p (λ _, J gs free fresh)). split; [by apply J_more_fresh|done].
  - cbn. eapply J_queue; [exact HJ|..|done|done|cbn; lia]; cbn; [intros g; rewrite schedule_at_held; by left|intros g; rewrite schedule_at_held|by left|by intros []].
    intros [?|[= ->]]; [by left|right]. intros o. congruence.
Qed.

(** ** Members of a state *)
Lemma alter_submits_same w i (h : SubmitState Ad → SubmitState Ad) : (∀ s, m_cleanup (h s) = m_cleanup s) →
  same w (set_submits (alter h i (submits w)) w).
Proof.
  intros Hh. split_and!; [|done..]. intros [k|k|k]; cbn; [|done..]. destruct (decide (k = i)) as [->|Hn]; [|by rewrite lookup_alter_ne].
  rewrite lookup_alter_eq. destruct (submits w !! i); cbn; [|done]. by rewrite Hh.
Qed.
Lemma update_state_keeps gs free fresh i h : (∀ s, m_cleanup (h s) = m_cleanup s) → keeps (J gs free fresh) (update_state i h).
Proof. intros Hh w HJ. cbn. eapply J_same; [by apply alter_submits_same|done]. Qed.

(** ** Construction *)
Lemma J_alloc gs free fresh w w' o cl : J gs free fresh w → change o (Some cl) w w' → number o = next_state w → next_state w' = S (next_state w) → input w' = input w →
  match cl with
  | remove_from_input item => is_free w item ∧ item ∉ free
  | RemoveNodeFromCollection _ p => ∃ k, o = OSubmit k ∧ alive w (OSubmit p)
  end → J gs free (o :: fresh) w' ∧ alive w' o.
Proof.
  intros (HI & Hg & Hn & Hf) Hch Hno Hnx Hin Hcl. pose proof Hch as (Hc & Ho & He & Hk). split; [|by exists cl].
  split_and!; [|by rewrite He|done|].
  - eapply (Inv_alloc _ cl); try done. by destruct cl; [destruct Hcl|].
  - apply Forall_forall. intros x Hx. rewrite Forall_forall in Hf. destruct (Hf x Hx) as [Hi Hfree]. split; [by rewrite Hin|].
    intros o' [[-> [= ->]]|[_ ?]]%(change_owns _ _ _ _ _ _ Hch); [by destruct Hcl|by eapply Hfree].
Qed.
Lemma change_submit w s x : change (OSubmit (next_state w)) (Some (m_cleanup s)) w (set_next_state x (set_submits (<[next_state w := s]> (submits w)) w)).
Proof.
  split_and!; [cbn; by rewrite lookup_insert_eq| |done|done]. intros [k|k|k] Hk; cbn; [|done..]. rewrite lookup_insert_ne; [done|]. by intros <-.
Qed.
Lemma change_cancel w s x : change (OCancel (next_state w)) (Some (c_cleanup s)) w (set_next_state x (set_cancels (<[next_state w := s]> (cancels w)) w)).
Proof.
  split_and!; [cbn; by rewrite lookup_insert_eq| |done|done]. intros [k|k|k] Hk; cbn; [done| |done]. rewrite lookup_insert_ne; [done|]. by intros <-.
Qed.
Lemma change_match w s x : change (OMatch (next_state w)) (Some (mt_cleanup s)) w (set_next_state x (set_matches (<[next_state w := s]> (matches w)) w)).
Proof.
  split_and!; [cbn; by rewrite lookup_insert_eq| |done|done]. intros [k|k|k] Hk; cbn; [done|done|]. rewrite lookup_insert_ne; [done|]. by intros <-.
Qed.

(** What a new state needs, and what is free afterwards. *)
Definition needs (gs : list Processor) (cl : cleanup) (free : list bytes) (fresh : list owner) w : Prop :=
  match cl with
  | remove_from_input item => J gs (item :: free) fresh w
  | RemoveNodeFromCollection _ p => J gs free fresh w ∧ alive w (OSubmit p)
  end.
Lemma needs_J gs cl free fresh w : needs gs cl free fresh w → J gs free fresh w.
Proof. destruct cl; cbn; [apply J_fewer_free|by intros []]. Qed.
Lemma needs_frame gs cl free fresh w w' : frame w w' → needs gs cl free fresh w → needs gs cl free fresh w'.
Proof.
  intros Hf%frame_same. destruct cl; cbn; [by apply J_same|]. intros [HJ Ha]. split; [by eapply J_same|by apply (same_alive _ _ _ Hf)].
Qed.
Lemma needs_alloc gs cl free fresh w w' o : needs gs cl free fresh w → change o (Some cl) w w' → number o = next_state w → next_state w' = S (next_state w) →
  input w' = input w → (∀ name p, cl = RemoveNodeFromCollection name p → ∃ k, o = OSubmit k) → J gs free (o :: fresh) w' ∧ alive w' o.
Proof.
  intros Hn Hch Hno Hnx Hin Ho. eapply J_alloc; [by eapply needs_J|done..|]. destruct cl as [item|name p]; cbn in Hn.
  - destruct Hn as (_ & _ & [Hd _]%NoDup_cons & [Hf _]%Forall_cons). done.
  - destruct (Ho name p eq_refl) as [k ->]. destruct Hn. by exists k.
Qed.
Lemma quiet_needs {A} gs cl free fresh (m : M W exn A) : quiet m → triple (needs gs cl free fresh) m (λ _, needs gs cl free fresh) (λ _, J gs free fresh).
Proof.
  intros Hm w Hw. pose proof (needs_frame _ _ _ _ _ _ (Hm w) Hw) as Hn. destruct (m w) as [w' []]; cbn in Hn; [done|by eapply needs_J|by eapply needs_J].
Qed.
Lemma new_SubmitState_spec gs ad cmd id sc px c cl chk free fresh :
  triple (needs gs cl free fresh) (new_SubmitState ad cmd id sc px c cl chk)
    (λ j w, J gs free (OSubmit j :: fresh) w ∧ alive w (OSubmit j)) (λ _, J gs free fresh).
Proof.
  unfold new_SubmitState. eapply triple_bind; [apply quiet_needs; apply quiet_ask|]. intros t.
  eapply triple_bind; [apply quiet_needs; unfold submit_command_remove_ad; quiet|]. intros ja w Hw. cbn.
  eapply needs_alloc; [exact Hw|apply (change_submit w (SubmitSt _ _ _ _ _ cl _ _ _ _))|done|done|done|eauto].
Qed.
(** The same as an equation. *)
Lemma new_SubmitState_frame ad cmd id sc px c cl chk w :
  match new_SubmitState ad cmd id sc px c cl chk w with
  | (w', Ret j) => ∃ w1 s, frame w w1 ∧ m_cleanup s = cl ∧ j = next_state w1 ∧ w' = set_next_state (S j) (set_submits (<[j := s]> (submits w1)) w1)
  | (w', _) => frame w w'
  end.
Proof.
  unfold new_SubmitState. rewrite (bind_Ret _ _ w (set_calls (S (calls w)) w) (time (calls w)) eq_refl).
  set (m := if decide (cmd = of_string "jobsubmit") then submit_command_remove_ad ad else mret (Some new_ClassAd)).
  assert (quiet m) as Hm by (unfold m, submit_command_remove_ad; quiet).
  specialize (Hm (set_calls (S (calls w)) w)). unfold mbind, M_bind. destruct (m _) as [w1 [ja| |]]; cbn in Hm |- *.
  2,3: eapply frame_trans; [|exact Hm]; split; [done|cbn; lia].
  exists w1, (SubmitSt cmd id sc px c cl chk ∅ (time (calls w)) ja). split_and!; [|done..]. eapply frame_trans; [|exact Hm]. split; [done|cbn; lia].
Qed.
Lemma new_CancelState_spec gs id c item free fresh :
  triple (needs gs (remove_from_input item) free fresh) (new_CancelState id c (remove_from_input item))
    (λ j w, J gs free (OCancel j :: fresh) w ∧ alive w (OCancel j)) (λ _, J gs free fresh).
Proof.
  unfold new_CancelState. eapply triple_bind; [apply quiet_needs; quiet|]. intros _ w Hw. cbn.
  eapply needs_alloc; [exact Hw|apply (change_cancel w (CancelSt _ _ _))|done..].
Qed.
Lemma new_MatchState_spec gs ad id item free fresh :
  triple (needs gs (remove_from_input item) free fresh) (new_MatchState ad id (remove_from_input item))
    (λ j w, J gs free (OMatch j :: fresh) w ∧ alive w (OMatch j)) (λ _, J gs free fresh).
Proof.
  intros w Hw. cbn. eapply needs_alloc; [exact Hw|apply (change_match w (MatchSt _ _ _))|done..].
Qed.

(** ** Destruction *)
Lemma referenced_reached i w : referenced i w = true ↔ reached w (OSubmit i).
Proof.
  unfold referenced, reached. rewrite orb_true_iff, in_queue_held. cbn [processor_of]. apply Morphisms_Prop.or_iff_morphism; [done|].
  unfold has_child. rewrite existsb_exists. split.
  - intros ([k s] & Hk%list_elem_of_In%elem_of_map_to_list & Hp%bool_decide_eq_true). cbn in *. unfold parent_of in Hp.
    destruct (m_cleanup s) as [|name p] eqn:E; [done|]. injection Hp as ->. exists i, k, name. by rewrite Hk; cbn; rewrite E.
  - intros (i' & k & name & [= ->] & (s & Hk & E)%fmap_Some_1). exists (k, s). split; [by apply list_elem_of_In, elem_of_map_to_list|].
    apply bool_decide_eq_true. unfold parent_of. cbn. by rewrite <- E.
Qed.
Lemma J_drop_fresh gs free fresh o w : J gs free (o :: fresh) w → (alive w o → reached w o) → J gs free fresh w.
Proof.
  intros ([? ? ? ? ? Hre] & ? & ? & ?) Ho. split_and!; [|done..]. split; try done. intros o' Ha Hf. destruct (decide (o' = o)) as [->|]; [by apply Ho|].
  apply Hre; [done|]. set_solver.
Qed.
Lemma J_free gs free fresh fresh' w w' o cl : J gs free fresh w → change o None w w' → cleanup_of w o = Some cl → ¬ reached w o → next_state w' = next_state w →
  input w' = match cl with remove_from_input item => input w ∖ {[item]} | _ => input w end →
  (∀ o', o' ∈ fresh → o' = o ∨ o' ∈ fresh') →
  (∀ k name p, o = OSubmit k → cl = RemoveNodeFromCollection name p → OSubmit p ∈ fresh') → J gs free fresh' w'.
Proof.
  intros (HI & Hg & Hn & Hf) Hch Hw Hnr Hnx Hin Hfr Hpar. pose proof Hch as (Hc & Ho & He & Hk).
  split_and!; [by eapply (Inv_free o cl)|by rewrite He|done|].
  apply Forall_forall. intros x Hx. rewrite Forall_forall in Hf. destruct (Hf x Hx) as [Hi Hfree]. split.
  - rewrite Hin. destruct cl as [item|]; [|done]. apply elem_of_difference. split; [done|]. intros ->%elem_of_singleton. by apply (Hfree o).
  - intros o' [[_ ?]|[_ ?]]%(change_owns _ _ _ _ _ _ Hch); [done|by eapply Hfree].
Qed.
Lemma release_submit_spec n i gs free fresh X : (i < n)%nat →
  triple (J gs free (OSubmit i :: fresh)) (release_submit n i) (λ _, J gs free fresh) X.
Proof.
  revert i. induction n as [|n IH]; intros i Hi w HJ; [lia|]. cbn [release_submit]. destruct (referenced i w) eqn:E.
  { eapply J_drop_fresh; [exact HJ|]. by rewrite <- referenced_reached. }
  assert (Hnr : ¬ reached w (OSubmit i)) by (rewrite <- referenced_reached; congruence).
  destruct (submits w !! i) as [s|] eqn:Hs; [|eapply J_drop_fresh; [exact HJ|]; intros [cl Hcl]; cbn in Hcl; by rewrite Hs in Hcl].
  assert (Hcl : cleanup_of w (OSubmit i) = Some (m_cleanup s)) by (cbn; by rewrite Hs).
  assert (∀ w', submits w' = delete i (submits w) → cancels w' = cancels w → matches w' = matches w → events w' = events w → calls w' = calls w →
            change (OSubmit i) None w w') as Hch.
  { intros w' Es Ec Em Ee Ek. split_and!; [cbn; by rewrite Es, lookup_delete_eq| |done|done].
    intros [k|k|k] Hk; cbn; rewrite ?Es, ?Ec, ?Em; [|done..]. rewrite lookup_delete_ne; [done|]. by intros <-. }
  destruct (m_cleanup s) as [item|name p] eqn:Ecl.
  - eapply (J_free _ _ _ _ _ _ _ (remove_from_input item)); [exact HJ|by apply Hch|done|done|done|done|set_solver|done].
  - assert (J gs free (OSubmit p :: fresh) (set_submits (delete i (submits w)) w)) as HJ'.
    { eapply (J_free _ _ _ _ _ _ _ (RemoveNodeFromCollection name p)); [exact HJ|by apply Hch|done|done|done|done|set_solver|]. intros ? ? ? _ [= -> ->]. by left. }
    pose proof HJ as ([_ Hpa] & _). destruct (Hpa i name p Hcl) as [Hlt _].
    apply (IH p); [lia|]. eapply J_same; [|exact HJ']. by apply (alter_submits_same (set_submits (delete i (submits w)) w)).
Qed.
Lemma release_SubmitState_spec i gs free fresh X : triple (J gs free (OSubmit i :: fresh)) (release_SubmitState i) (λ _, J gs free fresh) X.
Proof. apply release_submit_spec. lia. Qed.
Lemma run_cleanup_ret cl w : run_cleanup cl w = ((run_cleanup cl w).1, Ret tt).
Proof. by destruct cl. Qed.
(** A state of another kind: it has no children. *)
Lemma release_owner gs free fresh o cl w w1 : J gs free (o :: fresh) w → ¬ held (processor_of o) (events w) → (∀ i, o ≠ OSubmit i) →
  cleanup_of w o = Some cl → change o None w w1 → next_state w1 = next_state w → input w1 = input w → J gs free fresh (run_cleanup cl w1).1.
Proof.
  intros HJ Hh Ho Hcl Hch Hn Hi. assert (Hnr : ¬ reached w o) by (intros [?|(? & ? & ? & <- & _)]; [done|by eapply Ho]).
  destruct cl as [item|name p]; cbn.
  - eapply (J_free _ _ _ _ _ _ _ (remove_from_input item)); [exact HJ| |done|done|done|by rewrite <- Hi|set_solver|done].
    destruct Hch as (? & Hot & ? & ?). split_and!; [by destruct o|intros [] ?; by rewrite <- Hot|done|done].
  - eapply J_same; [by apply alter_submits_same|].
    eapply (J_free _ _ _ _ _ _ _ (RemoveNodeFromCollection name p)); [exact HJ|done|done|done|done|done|set_solver|]. intros k ? ? ->. by destruct (Ho k).
Qed.
Lemma release_CancelState_spec i gs free fresh X : triple (J gs free (OCancel i :: fresh)) (release_CancelState i) (λ _, J gs free fresh) X.
Proof.
  intros w HJ. unfold release_CancelState. destruct (in_queue (CancelProcessor i) (events w)) eqn:E.
  { eapply J_drop_fresh; [exact HJ|]. left. by apply in_queue_held. }
  destruct (cancels w !! i) as [s|] eqn:Hs; [|eapply J_drop_fresh; [exact HJ|]; intros [cl Hcl]; cbn in Hcl; by rewrite Hs in Hcl].
  pose proof (release_owner gs free fresh (OCancel i) (c_cleanup s) w (set_cancels (delete i (cancels w)) w) HJ) as HR.
  rewrite run_cleanup_ret. apply HR; [intros Hh%in_queue_held; cbn in Hh; congruence|done|by cbn; rewrite Hs| |done|done].
  split_and!; [cbn; by rewrite lookup_delete_eq|intros [k|k|k] Hk; cbn; try done; rewrite lookup_delete_ne; [done|by intros <-]|done|done].
Qed.
Lemma release_MatchState_spec i gs free fresh X : triple (J gs free (OMatch i :: fresh)) (release_MatchState i) (λ _, J gs free fresh) X.
Proof.
  intros w HJ. unfold release_MatchState. destruct (in_queue (MatchProcessor i) (events w)) eqn:E.
  { eapply J_drop_fresh; [exact HJ|]. left. by apply in_queue_held. }
  destruct (matches w !! i) as [s|] eqn:Hs; [|eapply J_drop_fresh; [exact HJ|]; intros [cl Hcl]; cbn in Hcl; by rewrite Hs in Hcl].
  pose proof (release_owner gs free fresh (OMatch i) (mt_cleanup s) w (set_matches (delete i (matches w)) w) HJ) as HR.
  rewrite run_cleanup_ret. apply HR; [intros Hh%in_queue_held; cbn in Hh; congruence|done|by cbn; rewrite Hs| |done|done].
  split_and!; [cbn; by rewrite lookup_delete_eq|intros [k|k|k] Hk; cbn; try done; rewrite lookup_delete_ne; [done|by intros <-]|done|done].
Qed.

(** ** Files *)
Lemma run_cleanup_free gs item free fresh X : triple (J gs (item :: free) fresh) (run_cleanup (remove_from_input item)) (λ _, J gs free fresh) X.
Proof.
  intros w ([H1 H2 H3 H4 H5 H6 H7 H8] & Hg & [Hd Hn]%NoDup_cons & [[Hi Ho] Hf]%Forall_cons). cbn. split_and!; [|done|done|].
  - split; try done; cbn.
    + intros o x Hx. apply elem_of_difference. split; [by eapply H3|]. intros ->%elem_of_singleton. by apply (Ho o).
    + intros x [Hx _]%elem_of_difference. by apply H7.
  - apply Forall_forall. intros x Hx. rewrite Forall_forall in Hf. destruct (Hf x Hx) as [Hxi Hxo]. split; [|done].
    change (x ∈ input w ∖ {[item]}). apply elem_of_difference. split; [done|]. by intros ->%elem_of_singleton.
Qed.
(** File names are different from each other; this is what the job
    directory makes sure of. *)
Class FreshNames : Prop := {
  names_NoDup : ∀ n, NoDup (read_input n).1.*1;
  names_differ : ∀ n n' item, item ∈ (read_input n).1.*1 → item ∈ (read_input n').1.*1 → n = n'
}.
Lemma read_requests_spec `{!FreshNames} gs fresh :
  triple (J gs [] fresh) read_requests (λ items, J gs items.*1 fresh) (λ _, J gs [] fresh).
Proof.
  intros w ([H1' H2 H3 H4 H5 H6 H7 H8] & Hg & _). unfold read_requests, mbind, M_bind. cbn. destruct (read_input (calls w)) as [items error] eqn:E. cbn.
  assert (∀ x, x ∈ items.*1 → ¬ x ∈ input w) as Hnew.
  { intros x Hx (k & Hk & Hx')%H7. assert (k = calls w); [|lia]. eapply names_differ; [exact Hx'|]. by rewrite E. }
  set (w' := set_input (input w ∪ list_to_set items.*1) (set_calls (S (calls w)) w)).
  assert (Inv fresh w') as HI.
  { split; try done; cbn.
    - intros o x Hx. apply elem_of_union. left. by eapply H3.
    - intros x [(k & Hk & Hx)%H7|Hx%elem_of_list_to_set]%elem_of_union; [exists k; split; [cbn; lia|done]|]. exists (calls w). cbn. rewrite E. split; [lia|done]. }
  destruct error as [x|]; cbn; [by split_and!; [| |constructor|constructor]|]. split_and!; [done|done| |].
  - pose proof (names_NoDup (calls w)) as Hd. by rewrite E in Hd.
  - apply Forall_forall. intros x Hx. split; [cbn; set_solver|]. intros o Ho. by eapply Hnew, H3.
Qed.
End primitives.
