(* ===== verification/WmSound.v ===== *)
(** * Every processor keeps the invariant

    [sound]: a call keeps the invariant [J], if it returns or throws; if it
    dies, the files of all requests are still there. *)

From stdpp Require Import gmap strings.
From S2P Require Import Prelude LbEvents Events EventsProps Manager WmUtils WmInvariant Dispatch Submit Cancel Recovery Replan.

Section sound.
Context {Ad : Type} `{Libraries Ad} `{Env Ad}.
Abbreviation W := (World Ad).
Implicit Types w : W.

Definition ends gs free fresh (x : option exn) w : Prop :=
  match x with Some _ => J gs free fresh w | None => ∃ fresh', J [] [] fresh' w end.
Definition sound gs free fresh {A} (m : M W exn A) : Prop := triple (J gs free fresh) m (λ _, J gs free fresh) (ends gs free fresh).

Lemma J_ends gs free fresh x w : J gs free fresh w → ends gs free fresh x w.
Proof. intros HJ. destruct x; [done|]. exists fresh. destruct HJ as (HI & _). split_and!; [done|constructor..]. Qed.
Lemma ends_none gs free fresh gs' free' fresh' w : ends gs free fresh None w → ends gs' free' fresh' None w.
Proof. done. Qed.
Lemma sound_keeps {A} gs free fresh (m : M W exn A) : keeps (J gs free fresh) m → sound gs free fresh m.
Proof. intros Hm. eapply triple_weaken; [exact Hm|done|done|]. intros x w. apply J_ends. Qed.
Lemma sound_quiet {A} gs free fresh (m : M W exn A) : quiet m → sound gs free fresh m.
Proof. intros Hm. apply sound_keeps. by apply keeps_quiet. Qed.
Lemma sound_bind {A B} gs free fresh (m : M W exn A) (k : A → M W exn B) : sound gs free fresh m → (∀ a, sound gs free fresh (k a)) → sound gs free fresh (m ≫= k).
Proof. intros Hm Hk. eapply triple_bind; [exact Hm|exact Hk]. Qed.
Lemma sound_catch {A} gs free fresh (m : M W exn A) h : sound gs free fresh m → (∀ e, sound gs free fresh (h e)) → sound gs free fresh (catch m h).
Proof. intros Hm Hh. eapply triple_catch; [exact Hm|exact Hh|done]. Qed.
Lemma sound_when gs free fresh b (m : M W exn unit) : sound gs free fresh m → sound gs free fresh (when b m).
Proof. intros Hm. destruct b; [done|]. apply sound_quiet, quiet_ret. Qed.
Lemma sound_for_each {A} gs free fresh (f : A → M W exn unit) l : (∀ x, sound gs free fresh (f x)) → sound gs free fresh (for_each f l).
Proof. intros Hf. induction l as [|x l IH]; cbn [for_each]; [apply sound_quiet, quiet_ret|]. by apply sound_bind. Qed.
Lemma sound_schedule_now gs free fresh f p : f ∈ gs ∨ refers f = None → sound gs free fresh (schedule_now f p).
Proof. intros. by apply sound_keeps, schedule_now_keeps. Qed.
Lemma sound_schedule_in gs free fresh f d p : f ∈ gs ∨ refers f = None → sound gs free fresh (schedule_in f d p).
Proof. intros. by apply sound_keeps, schedule_in_keeps. Qed.
Lemma sound_update gs free fresh i h : (∀ s, m_cleanup (h s) = m_cleanup s) → sound gs free fresh (update_state i h).
Proof. intros. by apply sound_keeps, update_state_keeps. Qed.
Lemma sound_deref {A B} gs free fresh (a : A) (k : A → M W exn B) : sound gs free fresh (k a) → sound gs free fresh (deref (Some a) ≫= k).
Proof. done. Qed.
End sound.

Create HintDb sound.
Ltac sound_step :=
  first
  [ solve [eauto with sound nocore]
  | match goal with
    | |- sound _ _ _ (mbind _ _) => apply sound_bind; [|intros ?]
    | |- sound _ _ _ (catch _ _) => apply sound_catch; [|intros ?]
    | |- sound _ _ _ (when _ _) => apply sound_when
    | |- sound _ _ _ (for_each _ _) => apply sound_for_each; intros ?
    | |- sound _ _ _ (update_state _ _) => apply sound_update; reflexivity
    | |- sound _ _ _ (schedule_now _ _) => apply sound_schedule_now; first [left; solve [eauto with sound] | right; reflexivity]
    | |- sound _ _ _ (schedule_in _ _ _) => apply sound_schedule_in; first [left; solve [eauto with sound] | right; reflexivity]
    | |- sound _ _ _ (if ?b then _ else _) => destruct b
    | |- sound _ _ _ (match ?x with _ => _ end) => destruct x
    | |- sound _ _ _ (let '(_, _) := ?x in _) => destruct x
    end
  | solve [apply sound_quiet; quiet] ].
Ltac sound := repeat sound_step.

(** ** Submission *)
Section submit.
Context {Ad : Type} `{Libraries Ad} `{Env Ad}.

Lemma log_abort_for_child_quiet c r id s : quiet (log_abort_for_child c r id s).
Proof. unfold log_abort_for_child. quiet. Qed.
Hint Resolve log_abort_for_child_quiet : quiet.
Lemma abort_children_quiet c msg i j : quiet (abort_children c msg i j).
Proof. revert j. induction i as [|[id|] i IH]; intros [[|s j]|]; cbn [abort_children]; quiet. Qed.
Hint Resolve abort_children_quiet : quiet.
Lemma unrecoverable_quiet i msg : quiet (unrecoverable i msg).
Proof. unfold unrecoverable, unrecoverable_collection. quiet. Qed.
Hint Resolve unrecoverable_quiet : quiet.

Section of_state.
Context (i : nat) (gs : list Processor) (free : list bytes) (fresh : list owner) (Hi : SubmitProcessor (Some i) ∈ gs).
Hint Resolve Hi : sound.

Lemma new_child_spec name ad cmd id sc px c chk :
  triple (J gs free fresh) (new_SubmitState ad cmd id sc px c (RemoveNodeFromCollection name i) chk)
    (λ j w, J gs free (OSubmit j :: fresh) w ∧ alive w (OSubmit j)) (ends gs free fresh).
Proof.
  eapply triple_weaken; [apply new_SubmitState_spec| |by intros j w Hj; exact Hj|intros x w; apply J_ends]. intros w HJ. cbn. split; [done|].
  by apply (J_live _ _ _ _ _ HJ Hi (OSubmit i)).
Qed.
Lemma queue_new_submit_request_sound name id jdl : sound gs free fresh (queue_new_submit_request name id jdl i).
Proof.
  unfold queue_new_submit_request. apply sound_bind; [sound|]. intros s. apply sound_bind; [sound|]. intros c.
  eapply triple_bind; [apply new_child_spec|]. intros j. eapply triple_weaken; [apply (schedule_now_owner gs free fresh (OSubmit j) _ (ends gs free fresh))|done|intros ? w; apply J_fewer_held|done].
Qed.
Hint Resolve queue_new_submit_request_sound : sound.
Lemma abort_node_sound v jdl : sound gs free fresh (abort_node i v jdl).
Proof.
  unfold abort_node. apply sound_bind; [sound|]. intros id. apply sound_bind; [sound|]. intros s. apply sound_bind; [sound|]. intros c.
  eapply triple_bind; [apply new_child_spec|]. intros j w [HJ Ha]. unfold finally.
  pose proof (J_same gs free (OSubmit j :: fresh) w _ (frame_same _ _ (unrecoverable_quiet j (of_string "parents have aborted") w)) HJ) as HJ1.
  destruct (unrecoverable _ _ w) as [w1 [[]|e|]]; cbn in HJ1; [| |exact (J_ends _ _ _ None _ HJ1)].
  all: pose proof (release_SubmitState_spec j gs free fresh (λ _ _, False) w1 HJ1) as HR; destruct (release_SubmitState j w1) as [w2 [[]| |]]; done.
Qed.
Hint Resolve abort_node_sound : sound.
Lemma postpone_sound r d : sound gs free fresh (postpone i r d).
Proof. unfold postpone. sound. Qed.
Hint Resolve postpone_sound : sound.
Lemma try_queue_sound v jdl : sound gs free fresh (try_queue v i jdl).
Proof. unfold try_queue. sound. Qed.
Hint Resolve try_queue_sound : sound.

Lemma assess_all_sound nodes vs c : sound gs free fresh (assess_all i nodes vs c).
Proof. revert c. induction vs as [|v vs IH]; intros c; cbn [assess_all]; [sound|]. unfold assess_vertex, assess_done. sound. Qed.
Hint Resolve assess_all_sound : sound.
Lemma plan_white_sound ad v c : sound gs free fresh (plan_white i ad v c).
Proof. unfold plan_white. sound. Qed.
Hint Resolve plan_white_sound : sound.
Lemma plan_all_sound ad vs c b : sound gs free fresh (plan_all i ad vs c b).
Proof. revert c b. induction vs as [|v vs IH]; intros c b; cbn [plan_all]; sound. Qed.
Hint Resolve plan_all_sound : sound.
Lemma submit_dag_sound ad : sound gs free fresh (submit_dag i ad).
Proof. unfold submit_dag, log_dag_start. sound. Qed.
Hint Resolve submit_dag_sound : sound.
Lemma submit_collection_sound ad : sound gs free fresh (submit_collection i ad).
Proof. unfold submit_collection, wm_submit_collection, queue_pending. sound. Qed.
Hint Resolve submit_collection_sound : sound.
Lemma find_token_sound leafs t : sound gs free fresh (find_token i leafs t).
Proof. revert t. induction leafs as [|l leafs IH]; intros t; cbn [find_token]; sound. Qed.
Hint Resolve find_token_sound : sound.
Lemma submit_single_sound : sound gs free fresh (submit_single i).
Proof.
  unfold submit_single, submit_job, leave_limbo, resubmitted_ad, retrieve_lb_info, submit_with_token, token_count, resubmission_token, submission_token, deliver_single.
  sound.
Qed.
Hint Resolve submit_single_sound : sound.
Lemma submit_handlers_sound e : sound gs free fresh (submit_handlers i e).
Proof. unfold submit_handlers. destruct e; sound. Qed.
Hint Resolve submit_handlers_sound : sound.
Lemma run_SubmitProcessor_sound : sound gs free fresh (run_SubmitProcessor (Some i)).
Proof. apply sound_deref. unfold check_proxy, is_request_expired. sound. Qed.
End of_state.
End submit.

(** ** Cancellation *)
Section cancel.
Context {Ad : Type} `{Libraries Ad} `{Env Ad}.

Lemma cancel_child_quiet id c b k s : quiet (cancel_child id c b k s).
Proof. unfold cancel_child, forward_child. quiet. Qed.
Hint Resolve cancel_child_quiet : quiet.
Lemma cancel_children_quiet id c b i j inc : quiet (cancel_children id c b i j inc).
Proof. revert j inc. induction i as [|[k|] i IH]; intros [[|s j]|] inc; cbn [cancel_children]; quiet. Qed.
Hint Resolve cancel_children_quiet : quiet.
Lemma cancel_single_quiet s st : quiet (cancel_single s st).
Proof. unfold cancel_single, cancel_failed. quiet. Qed.
Hint Resolve cancel_single_quiet : quiet.
Lemma run_CancelProcessor_sound i gs free fresh : CancelProcessor i ∈ gs → sound gs free fresh (run_CancelProcessor i).
Proof. intros Hi. unfold run_CancelProcessor, cancel_group. sound. Qed.
Lemma run_MatchProcessor_sound i gs free fresh : sound gs free fresh (run_MatchProcessor i).
Proof. unfold run_MatchProcessor. apply sound_quiet. quiet. Qed.
End cancel.

(** ** Dispatching *)
Section dispatch.
Context {Ad : Type} `{Libraries Ad} `{Env Ad}.
Abbreviation W := (World Ad).

(** A call that takes charge of the file [item]. *)
Definition takes gs item free fresh {A} (m : M W exn A) : Prop := triple (J gs (item :: free) fresh) m (λ _, J gs free fresh) (ends gs free fresh).
Definition reads gs item free fresh {A} (m : M W exn A) : Prop := triple (J gs (item :: free) fresh) m (λ _, J gs (item :: free) fresh) (ends gs free fresh).

Lemma ends_fewer gs item free fresh x w : J gs (item :: free) fresh w → ends gs free fresh x w.
Proof. intros HJ%J_fewer_free. by apply J_ends. Qed.
Lemma reads_quiet {A} gs item free fresh (m : M W exn A) : quiet m → reads gs item free fresh m.
Proof. intros Hm. eapply triple_weaken; [by apply keeps_quiet|done|done|]. intros x w. apply ends_fewer. Qed.
Lemma takes_bind {A B} gs item free fresh (m : M W exn A) (k : A → M W exn B) : quiet m → (∀ a, takes gs item free fresh (k a)) → takes gs item free fresh (m ≫= k).
Proof. intros Hm Hk. eapply triple_bind; [by apply reads_quiet|exact Hk]. Qed.
Lemma takes_read {A B} gs item free fresh (m : M W exn A) (k : A → M W exn B) : reads gs item free fresh m → (∀ a, takes gs item free fresh (k a)) → takes gs item free fresh (m ≫= k).
Proof. intros Hm Hk. eapply triple_bind; [exact Hm|exact Hk]. Qed.
Lemma takes_catch {A} gs item free fresh (m : M W exn A) h : takes gs item free fresh m → (∀ e, sound gs free fresh (h e)) → takes gs item free fresh (catch m h).
Proof. intros Hm Hh. eapply triple_catch; [exact Hm|exact Hh|done]. Qed.
Lemma takes_cleanup gs item free fresh : takes gs item free fresh (run_cleanup (remove_from_input item)).
Proof. apply run_cleanup_free. Qed.
Lemma takes_leaves {A} gs item free fresh (m : M W exn A) : quiet m → takes gs item free fresh m.
Proof. intros Hm. eapply triple_weaken; [by apply reads_quiet|done|intros a w; apply J_fewer_free|done]. Qed.
Lemma reads_guarded {A} gs item free fresh (m : M W exn A) : quiet m → reads gs item free fresh (guarded item m).
Proof.
  intros Hm. eapply triple_catch; [by apply keeps_quiet| |].
  - intros e. eapply triple_bind; [apply takes_cleanup|]. intros ?. apply triple_fail. intros w. apply (J_ends gs free fresh (Some e)).
  - intros w. apply ends_fewer.
Qed.
Lemma new_submit_takes gs item free fresh ad cmd id sc px c chk p :
  takes gs item free fresh (j ← new_SubmitState ad cmd id sc px c (remove_from_input item) chk; schedule_now (SubmitProcessor (Some j)) p).
Proof.
  eapply triple_bind; [eapply triple_weaken; [apply new_SubmitState_spec|done|by intros j w Hj; exact Hj|intros x w; apply J_ends]|]. intros j.
  eapply triple_weaken; [apply (schedule_now_owner gs free fresh (OSubmit j) _ (ends gs free fresh))|done|intros ? w; apply J_fewer_held|done].
Qed.
Lemma new_cancel_takes gs item free fresh id c p :
  takes gs item free fresh (j ← new_CancelState id c (remove_from_input item); schedule_now (CancelProcessor j) p).
Proof.
  eapply triple_bind; [eapply triple_weaken; [apply new_CancelState_spec|done|by intros j w Hj; exact Hj|intros x w; apply J_ends]|]. intros j.
  eapply triple_weaken; [apply (schedule_now_owner gs free fresh (OCancel j) _ (ends gs free fresh))|done|intros ? w; apply J_fewer_held|done].
Qed.
Lemma new_match_takes gs item free fresh ad id p :
  takes gs item free fresh (j ← new_MatchState ad id (remove_from_input item); schedule_now (MatchProcessor j) p).
Proof.
  eapply triple_bind; [eapply triple_weaken; [apply new_MatchState_spec|done|by intros j w Hj; exact Hj|intros x w; apply J_ends]|]. intros j.
  eapply triple_weaken; [apply (schedule_now_owner gs free fresh (OMatch j) _ (ends gs free fresh))|done|intros ? w; apply J_fewer_held|done].
Qed.

Lemma command_get_command_quiet ad : quiet (command_get_command ad).
Proof. unfold command_get_command. quiet. Qed.
Lemma aux_get_id_quiet ad c : quiet (aux_get_id ad c).
Proof. unfold aux_get_id, submit_command_get_ad, resubmit_command_get_id, cancel_command_get_id, match_command_get_ad, submit_command_get_ad. quiet. Qed.
Hint Resolve aux_get_id_quiet : quiet.
Lemma check_request_quiet ad c : quiet (check_request ad c).
Proof.
  unfold check_request, command_is_valid, aux_get_sequence_code, aux_get_x509_proxy, submit_command_get_ad, cancel_command_get_lb_sequence_code,
    resubmit_command_get_lb_sequence_code, cancel_command_get_lb_sequence_code. quiet.
Qed.
Hint Resolve command_get_command_quiet check_request_quiet : quiet.

Lemma dispatch_submit_takes gs item free fresh ad cmd id sc px : takes gs item free fresh (dispatch_submit item ad cmd id sc px).
Proof. unfold dispatch_submit. do 2 (apply takes_bind; [quiet|intros ?]). apply new_submit_takes. Qed.
Lemma dispatch_cancel_takes gs item free fresh id sc px : takes gs item free fresh (dispatch_cancel item id sc px).
Proof. unfold dispatch_cancel. do 2 (apply takes_bind; [quiet|intros ?]). apply new_cancel_takes. Qed.
Lemma dispatch_match_takes gs item free fresh ad cmd : takes gs item free fresh (dispatch_match item ad cmd).
Proof. unfold dispatch_match. apply takes_bind; [quiet|intros ?]. apply new_match_takes. Qed.
Lemma dispatch_command_takes gs item free fresh ad : takes gs item free fresh (dispatch_command item ad).
Proof.
  unfold dispatch_command. apply takes_read; [apply reads_guarded; quiet|]. intros cmd.
  do 2 (case_decide; [apply takes_read; [apply reads_guarded; quiet|]; intros [[id sc] px]; apply dispatch_submit_takes|]).
  case_decide; [apply takes_read; [apply reads_guarded; quiet|]; intros [[id sc] px]; apply dispatch_cancel_takes|].
  case_decide; [apply dispatch_match_takes|].
  assert (sound gs (item :: free) fresh (when (bool_decide (cmd = of_string "ism_dump")) (schedule_now dump_ism debug_priority))) as Hs by sound.
  apply takes_read; [|intros ?; apply takes_cleanup]. eapply triple_weaken; [exact Hs|done|done|]. intros [e|] w; [apply ends_fewer|done].
Qed.
Lemma dispatch_takes gs item v free fresh : takes gs item free fresh (dispatch (item, v)).
Proof.
  destruct v as [text|]; cbn [dispatch].
  - apply takes_catch; [destruct (parse_classad text); [apply dispatch_command_takes|apply takes_cleanup]|]. intros e. sound.
  - eapply triple_bind; [apply takes_cleanup|]. intros ?. apply triple_fail. intros w. apply (J_ends gs free fresh (Some std_exn)).
Qed.
Lemma dispatch_all gs fresh items : triple (J gs items.*1 fresh) (for_each dispatch items) (λ _, J gs [] fresh) (ends gs [] fresh).
Proof.
  induction items as [|[item v] items IH]; cbn [for_each]; [by apply triple_ret|].
  eapply triple_bind; [eapply triple_weaken; [apply dispatch_takes|by intros w Hw; exact Hw|done|]|by intros ?].
  intros [e|] w; [apply J_no_free|done].
Qed.
Lemma stop_events_sound gs free fresh : sound gs free fresh stop_events.
Proof. apply sound_keeps. intros w HJ. cbn. by eapply J_same; [|exact HJ]. Qed.
Hint Resolve stop_events_sound : sound.
Lemma run_Dispatcher_sound `{!FreshNames (Ad:=Ad)} gs fresh : sound gs [] fresh run_Dispatcher.
Proof.
  unfold run_Dispatcher. apply sound_catch; [|intros ?; sound]. apply sound_bind; [sound|]. intros [|]; [sound|].
  apply sound_bind; [sound|]. intros size. apply sound_bind; [|intros n; sound]. destruct (size <? queue_size); [|sound].
  apply sound_bind; [|intros ?; sound]. apply sound_catch; [|intros e; sound].
  eapply triple_bind; [eapply triple_weaken; [apply read_requests_spec|done|by intros l w Hw; exact Hw|intros x w; apply J_ends]|]. intros items.
  apply dispatch_all.
Qed.
End dispatch.

#[export] Hint Resolve command_get_command_quiet check_request_quiet aux_get_id_quiet : quiet.
#[export] Hint Resolve stop_events_sound : sound.

(** ** Recovery *)
Section recovery.
Context {Ad : Type} `{Libraries Ad} `{Env Ad}.
Abbreviation W := (World Ad).

Definition items_of (acc : list (RequestToRecover (Ad:=Ad))) : list bytes := (λ r, fr_request (rr_request r)) <$> acc.

Lemma J_perm gs free free' fresh (w : W) : free ≡ₚ free' → J gs free fresh w → J gs free' fresh w.
Proof. intros Hp (? & ? & ? & ?). split_and!; [done|done|by rewrite <- Hp|by rewrite <- Hp]. Qed.
Lemma guarded_spec {A} gs item free fresh (m : M W exn A) Q : triple (J gs (item :: free) fresh) m Q (λ _, J gs (item :: free) fresh) →
  triple (J gs (item :: free) fresh) (guarded item m) Q (ends gs free fresh).
Proof.
  intros Hm. eapply triple_catch; [exact Hm| |intros w; apply ends_fewer].
  intros e. eapply triple_bind; [apply takes_cleanup|]. intros ?. apply triple_fail. intros w. apply (J_ends gs free fresh (Some e)).
Qed.
Lemma insert_request_spec gs fresh acc item v rest :
  triple (J gs (item :: items_of acc ++ rest) fresh) (insert_request acc (item, v)) (λ acc', J gs (items_of acc' ++ rest) fresh) (ends gs [] fresh).
Proof.
  destruct v as [text|]; cbn [insert_request].
  - eapply (triple_catch _ _ _ _ (ends gs (items_of acc ++ rest) fresh)); [apply guarded_spec| |done].
    + do 2 (eapply triple_bind; [apply keeps_quiet; quiet|]; intros ?). eapply triple_bind; [apply keeps_quiet; quiet|]. intros [[id sc] px].
      apply triple_ret. intros w. apply J_perm. unfold items_of. rewrite fmap_app, <- (assoc_L (++)). cbn. by rewrite Permutation_middle.
    + intros e. destruct e; first [apply triple_fail; intros w; apply J_no_free|by apply triple_ret].
  - eapply triple_bind; [eapply triple_weaken; [apply takes_cleanup|done|by intros ? w Hw; exact Hw|]|].
    + intros [e|] w; [apply J_no_free|done].
    + intros ?. apply triple_fail. intros w. apply J_no_free.
Qed.
Lemma insert_requests_spec gs fresh items acc :
  triple (J gs (items_of acc ++ items.*1) fresh) (insert_requests acc items) (λ acc', J gs (items_of acc') fresh) (ends gs [] fresh).
Proof.
  revert acc. induction items as [|[item v] items IH]; intros acc; cbn [insert_requests].
  - apply triple_ret. intros w. by rewrite app_nil_r.
  - eapply triple_bind; [eapply triple_weaken; [apply insert_request_spec| |by intros ? w Hw; exact Hw|done]|exact IH].
    intros w. apply J_perm. cbn. by rewrite Permutation_middle.
Qed.

Section one.
Context (gs : list Processor) (item : bytes) (free : list bytes) (fresh : list owner).

Lemma select_nodes_quiet m acc nodes : quiet (select_nodes m acc nodes).
Proof. revert acc. induction nodes as [|x nodes IH]; intros acc; cbn [select_nodes]; [quiet|]. unfold select_node. quiet. Qed.
Lemma create_submit_request_spec parent rni : SubmitProcessor (Some parent) ∈ gs →
  triple (J gs free fresh) (create_submit_request parent rni)
    (λ r w, match r with Some j => J gs free (OSubmit j :: fresh) w ∧ alive w (OSubmit j) | None => J gs free fresh w end) (ends gs free fresh).
Proof.
  intros Hp. unfold create_submit_request. do 3 (eapply triple_bind; [apply sound_quiet; quiet|]; intros ?).
  eapply (triple_catch _ _ _ _ (ends gs free fresh)); [| |done].
  - eapply triple_bind; [apply sound_quiet; quiet|]. intros c. eapply triple_bind; [by apply new_child_spec|]. intros j.
    eapply triple_bind; [|by intros ?; apply triple_ret; intros w Hw; exact Hw].
    intros w [HJ Ha]. cbn. split; [by eapply J_same; [apply alter_submits_same|]|].
    by apply (same_alive w); [apply alter_submits_same|].
  - intros e. destruct e; first [by apply triple_fail|by apply triple_ret].
Qed.
Lemma schedule_node_sound parent rni : SubmitProcessor (Some parent) ∈ gs → sound gs free fresh (schedule_node parent rni).
Proof.
  intros Hp. eapply triple_bind; [by apply create_submit_request_spec|]. intros [j|]; [|by apply sound_schedule_now; right].
  eapply triple_weaken; [apply (schedule_now_owner gs free fresh (OSubmit j) _ (ends gs free fresh))|done|intros ? w; apply J_fewer_held|done].
Qed.
End one.

Hint Resolve select_nodes_quiet : quiet.
Section request.
Context (gs : list Processor) (free : list bytes) (fresh : list owner) (req : FullRequest (Ad:=Ad)).
Abbreviation takes_it m := (takes gs (fr_request req) free fresh m).

Lemma submit_state_takes id sc px c chk p : takes_it (j ← submit_state id req sc px c chk; schedule_now (SubmitProcessor (Some j)) p).
Proof. apply new_submit_takes. Qed.
Lemma recover_nodes_takes id sc px c p nodes :
  takes_it (parent ← submit_state id req sc px c PENDING; schedule_now (SubmitProcessor (Some parent)) p ;; for_each (schedule_node parent) nodes).
Proof.
  eapply triple_bind; [eapply triple_weaken; [apply new_SubmitState_spec|done|by intros j w Hj; exact Hj|intros x w; apply J_ends]|]. intros j.
  eapply triple_bind; [apply (schedule_now_owner gs free fresh (OSubmit j) _ (ends gs free fresh))|]. intros ?.
  assert (sound (SubmitProcessor (Some j) :: gs) free fresh (for_each (schedule_node j) nodes)) as Hs
    by (apply sound_for_each; intros x; apply schedule_node_sound; by left).
  eapply triple_weaken; [exact Hs|done|intros ? w; apply J_fewer_held|]. intros [e|] w; [apply J_fewer_held|done].
Qed.
Lemma recover_collection_takes id jobid sc px c st : takes_it (recover_collection id jobid req sc px c st).
Proof.
  unfold recover_collection. do 2 (apply takes_bind; [quiet|intros ?]). destruct a0 as [cs|]; [|apply takes_cleanup].
  apply takes_bind; [quiet|]. intros [|]; [apply submit_state_takes|]. apply takes_bind; [unfold children_states_of; quiet|intros m].
  apply takes_bind; [quiet|]. intros nodes. apply recover_nodes_takes.
Qed.
Lemma recover_single_takes id sc px c limbo : takes_it (recover_single id req sc px c limbo).
Proof. destruct limbo; [apply submit_state_takes|apply takes_leaves; quiet]. Qed.
Lemma recover_cancel_takes id px : takes_it (recover_cancel id req px).
Proof.
  unfold recover_cancel. apply takes_bind; [unfold cancel_command_get_lb_sequence_code; quiet|]. intros sc.
  apply takes_catch; [|intros e; sound]. apply takes_bind; [quiet|]. intros c. apply new_cancel_takes.
Qed.
Lemma request_recovery_takes id : takes_it (request_recovery id req).
Proof.
  unfold request_recovery. apply takes_bind; [quiet|]. intros [[jobid sc] px]. case_decide; [apply takes_cleanup|].
  apply takes_bind; [quiet|]. intros [c|]; [|apply takes_leaves; quiet]. apply takes_bind; [quiet|]. intros st.
  case_decide; [|case_decide; [|case_decide; [apply recover_cancel_takes|apply takes_cleanup]]].
  - match goal with |- context [if ?b then _ else _] => destruct b end; [apply recover_collection_takes|].
    apply takes_bind; [unfold limbo_of_submit; quiet|]. intros l. apply recover_single_takes.
  - apply takes_bind; [unfold limbo_of_resubmit; quiet|]. intros l. apply recover_single_takes.
Qed.
End request.
Lemma recover_all gs fresh rs : triple (J gs (items_of rs) fresh) (for_each recover rs) (λ _, J gs [] fresh) (ends gs [] fresh).
Proof.
  induction rs as [|r rs IH]; cbn [for_each]; [by apply triple_ret|].
  eapply triple_bind; [eapply triple_weaken; [apply request_recovery_takes|by intros w Hw; exact Hw|by intros ? w Hw; exact Hw|]|by intros ?].
  intros [e|] w; [apply J_no_free|done].
Qed.
Lemma recovery_sound `{!FreshNames (Ad:=Ad)} gs fresh : sound gs [] fresh recovery.
Proof.
  unfold recovery. apply sound_catch; [|intros e; sound].
  eapply triple_bind; [eapply triple_weaken; [apply read_requests_spec|done|by intros l w Hw; exact Hw|intros x w; apply J_ends]|]. intros items.
  eapply triple_bind; [apply (insert_requests_spec _ _ _ [])|]. intros rs. apply recover_all.
Qed.
End recovery.

(** * Processors leave the workers alone

    No call of a processor changes the workers of the event queue or marks it
    as crashed: only the queue itself does. *)

Section calm.
Context {Ad : Type} `{Libraries Ad} `{Env Ad}.
Abbreviation W := (World Ad).
Implicit Types w : W.

Definition threads w := (workers (events w), crashed (events w)).
Definition calm {A} (m : M W exn A) : Prop := ∀ w, threads (m w).1 = threads w.

Lemma calm_quiet {A} (m : M W exn A) : quiet m → calm m.
Proof. intros Hm w. unfold threads. by destruct (Hm w) as [[= _ _ _ _ _ ->] _]. Qed.
Lemma calm_bind {A B} (m : M W exn A) (k : A → M W exn B) : calm m → (∀ a, calm (k a)) → calm (m ≫= k).
Proof. intros Hm Hk w. unfold mbind, M_bind. rewrite <- (Hm w). by destruct (m w) as [w' [a| |]]; [apply Hk|..]. Qed.
Lemma calm_catch {A} (m : M W exn A) h : calm m → (∀ e, calm (h e)) → calm (catch m h).
Proof. intros Hm Hh w. unfold catch. rewrite <- (Hm w). by destruct (m w) as [w' [a|e|]]; [|apply Hh|]. Qed.
Lemma calm_finally {A} (m : M W exn A) c : calm m → calm c → calm (finally m c).
Proof.
  intros Hm Hc w. unfold finally. rewrite <- (Hm w). destruct (m w) as [w' [a|e|]]; [| |done]; cbn; rewrite <- (Hc w'); by destruct (c w') as [? []].
Qed.
Lemma calm_when b (m : M W exn unit) : calm m → calm (when b m).
Proof. by destruct b. Qed.
Lemma calm_for_each {A} (f : A → M W exn unit) l : (∀ x, calm (f x)) → calm (for_each f l).
Proof. intros Hf. induction l as [|x l IH]; cbn [for_each]; [done|]. by apply calm_bind. Qed.
Lemma calm_schedule_now f p : calm (schedule_now f p).
Proof. done. Qed.
Lemma calm_schedule_in f d p : calm (schedule_in f d p).
Proof. done. Qed.
Lemma calm_update i h : calm (update_state (Ad:=Ad) i h).
Proof. done. Qed.
Lemma calm_cleanup c : calm (run_cleanup (Ad:=Ad) c).
Proof. by destruct c. Qed.
Lemma calm_release_submit n i : calm (release_submit (Ad:=Ad) n i).
Proof.
  revert i. induction n as [|n IH]; intros i w; cbn [release_submit]; [done|]. destruct (referenced i w); [done|].
  destruct (submits w !! i) as [s|]; [|done]. destruct (m_cleanup s); [done|]. by rewrite IH.
Qed.
Lemma calm_new_submit ad cmd id sc px c cl chk : calm (new_SubmitState ad cmd id sc px c cl chk).
Proof.
  unfold new_SubmitState, submit_command_remove_ad. apply calm_bind; [done|intros t]. apply calm_bind; [|done]. apply calm_quiet. quiet.
Qed.
Lemma calm_new_cancel id c cl : calm (new_CancelState id c cl).
Proof. unfold new_CancelState. apply calm_bind; [|done]. apply calm_quiet. quiet. Qed.
Lemma calm_new_match ad id cl : calm (new_MatchState (Ad:=Ad) ad id cl).
Proof. done. Qed.
Lemma calm_stop : calm (stop_events (Ad:=Ad)).
Proof. done. Qed.
Lemma calm_read_requests : calm read_requests.
Proof. unfold read_requests. apply calm_bind; [done|]. intros [items [e|]]; done. Qed.
End calm.
Create HintDb calm.
#[export] Hint Resolve calm_schedule_now calm_schedule_in calm_update calm_cleanup calm_release_submit calm_new_submit calm_new_cancel calm_new_match calm_stop calm_read_requests : calm.
Ltac calm_step :=
  first
  [ solve [eauto with calm nocore]
  | match goal with
    | |- calm (mbind _ _) => apply calm_bind; [|intros ?]
    | |- calm (catch _ _) => apply calm_catch; [|intros ?]
    | |- calm (finally _ _) => apply calm_finally
    | |- calm (when _ _) => apply calm_when
    | |- calm (for_each _ _) => apply calm_for_each; intros ?
    | |- calm (if ?b then _ else _) => destruct b
    | |- calm (match ?x with _ => _ end) => destruct x
    | |- calm (let '(_, _) := ?x in _) => destruct x
    end
  | solve [apply calm_quiet; quiet] ].
Ltac calm := repeat calm_step.

Section processors.
Context {Ad : Type} `{Libraries Ad} `{Env Ad}.
Hint Resolve unrecoverable_quiet : quiet.

Lemma queue_new_calm name id jdl i : calm (queue_new_submit_request name id jdl i).
Proof. unfold queue_new_submit_request. calm. Qed.
Hint Resolve queue_new_calm : calm.
Lemma postpone_calm i r d : calm (postpone i r d).
Proof. unfold postpone. calm. Qed.
Lemma try_queue_calm v i jdl : calm (try_queue v i jdl).
Proof. unfold try_queue. calm. Qed.
Hint Resolve postpone_calm try_queue_calm : calm.
Lemma assess_all_calm i nodes vs c : calm (assess_all i nodes vs c).
Proof. revert c. induction vs as [|v vs IH]; intros c; cbn [assess_all]; [calm|]. unfold assess_vertex, assess_done. calm. Qed.
Lemma plan_white_calm i ad v c : calm (plan_white i ad v c).
Proof. unfold plan_white, abort_node, release_SubmitState. calm. Qed.
Hint Resolve assess_all_calm plan_white_calm : calm.
Lemma plan_all_calm i ad vs c b : calm (plan_all i ad vs c b).
Proof. revert c b. induction vs as [|v vs IH]; intros c b; cbn [plan_all]; calm. Qed.
Hint Resolve plan_all_calm : calm.
Lemma find_token_calm i leafs t : calm (find_token i leafs t).
Proof. revert t. induction leafs as [|l leafs IH]; intros t; cbn [find_token]; calm. Qed.
Hint Resolve find_token_calm : calm.
Lemma submit_single_calm i : calm (submit_single i).
Proof.
  unfold submit_single, submit_job, leave_limbo, resubmitted_ad, retrieve_lb_info, submit_with_token, token_count, resubmission_token, submission_token, deliver_single. calm.
Qed.
Lemma submit_handlers_calm i e : calm (submit_handlers i e).
Proof. unfold submit_handlers. destruct e; calm. Qed.
Hint Resolve submit_single_calm submit_handlers_calm : calm.
Lemma run_SubmitProcessor_calm s : calm (run_SubmitProcessor s).
Proof. unfold run_SubmitProcessor, check_proxy, is_request_expired, submit_dag, log_dag_start, submit_collection, wm_submit_collection, queue_pending. calm. Qed.
Hint Resolve cancel_children_quiet cancel_single_quiet : quiet.
Lemma run_CancelProcessor_calm i : calm (run_CancelProcessor i).
Proof. unfold run_CancelProcessor, cancel_group. calm. Qed.
Lemma dispatch_calm r : calm (dispatch r).
Proof.
  destruct r as [item v]. unfold dispatch, dispatch_command, guarded, dispatch_submit, dispatch_cancel, dispatch_match. calm.
Qed.
Hint Resolve dispatch_calm : calm.
Lemma run_Dispatcher_calm : calm run_Dispatcher.
Proof. unfold run_Dispatcher. calm. Qed.
End processors.
