(* ===== verification/WmSystem.v ===== *)
(** * The workload manager as a system

    The workers of the event queue run the processors of requests.  A step is
    a step of the queue ([Events]), or a worker that runs its processor from
    the call to the return, after which the queue forgets the processor and
    the last reference to a state destroys it.  A processor that gets stuck
    ends the process. *)

From stdpp Require Import gmap strings.
From S2P Require Import Prelude Transition LbEvents Events EventsProps Manager WmUtils WmInvariant Dispatch Submit Cancel Recovery Replan WmSound.

Section system.
Context {Ad : Type} `{Libraries Ad} `{Env Ad}.
Abbreviation W := (World Ad).
Implicit Types w : W.

Definition run_processor (f : Processor) : M W exn unit :=
  match f with
  | SubmitProcessor s => run_SubmitProcessor s
  | CancelProcessor i => run_CancelProcessor i
  | MatchProcessor i => run_MatchProcessor i
  | Dispatcher => run_Dispatcher
  | Replanner => run_Replanner
  | dump_ism => mret tt                                 (* writes a file for debugging *)
  end.
(** The function object of the queue goes away. *)
Definition forget (f : Processor) : M W exn unit :=
  match f with
  | SubmitProcessor (Some i) => release_SubmitState i
  | CancelProcessor i => release_CancelState i
  | MatchProcessor i => release_MatchState i
  | _ => mret tt
  end.

(** Steps of the queue on its own. *)
Definition own_step (l : label Processor) : bool := match l with Schedule _ _ _ | ScheduleAt _ _ _ | Call _ _ => false | _ => true end.
Inductive wm_label := Queue (l : label Processor) | Handler (k : nat).
Definition wm_step (l : wm_label) w : option (W * list unit) :=
  if crashed (events w) then None else
  match l with
  | Queue l => if own_step l then '(e, _) ← step l (events w); Some (set_events e w, []) else None
  | Handler k =>
      match workers (events w) !! k with
      | Some (Calling (Some f)) =>
          let '(w1, r) := run_processor f w in
          match r with
          | Stuck => Some (set_events (set_crashed (events w1)) w1, [])
          | _ => Some ((forget f (set_events (set_worker k (after_call (match r with Ret _ => Returned | _ => std_exception end)) (events w1)) w1)).1, [])
          end
      | _ => None
      end
  end.
(** After the start script and the recovery; with the dispatcher and the
    replanner scheduled. *)
Definition start (sandbox_ : gset (JobId * bytes)) (n : nat) (t : Z) : W := mkWorld 0 [] [] sandbox_ ∅ ∅ ∅ ∅ 0 (new_Events n t) [].
Definition start_recovery (enable_recovery : bool) : M W exn unit := when enable_recovery recovery.
Definition start_dispatcher : M W exn unit := schedule_now Dispatcher debug_priority.
Definition start_replanner (enable_replanner : bool) : M W exn unit := when enable_replanner (schedule_now Replanner replanner_priority).
Definition start_manager (enable_recovery enable_replanner : bool) : M W exn unit :=
  start_recovery enable_recovery ;; start_dispatcher ;; start_replanner enable_replanner.

(** ** What the queue holds *)
Implicit Types e : Events Processor.
Definition not_calling (x : worker Processor) : Prop := ∀ f, x ≠ Calling (Some f).

Lemma held_set_worker i x y e f : workers e !! i = Some x → not_calling x → held f (set_worker i y e) ↔ held f e ∨ y = Calling (Some f).
Proof.
  intros Hx Hn. unfold held, set_worker, set_workers, pending. cbn. rewrite !list_elem_of_lookup. split.
  - intros [Hp|(j & Hj)]; [tauto|]. destruct (decide (j = i)) as [->|Hne].
    + rewrite list_lookup_insert_eq in Hj by (by eapply lookup_lt_Some). injection Hj as <-. by right.
    + rewrite list_lookup_insert_ne in Hj by done. left. right. by exists j.
  - intros [[Hp|(j & Hj)]|Hy]; [tauto| |].
    + right. exists j. rewrite list_lookup_insert_ne; [done|]. intros <-. rewrite Hx in Hj. injection Hj as ->. by destruct (Hn f).
    + right. exists i. rewrite list_lookup_insert_eq by (by eapply lookup_lt_Some). by rewrite Hy.
Qed.
Lemma held_pending e e' f : pending e ≡ₚ pending e' → workers e = workers e' → held f e ↔ held f e'.
Proof. intros Hp Hw. unfold held. by rewrite Hp, Hw. Qed.
Lemma held_wake e f : held f (notify_all e) ↔ held f e.
Proof.
  unfold held, notify_all, set_workers, pending. cbn. rewrite (list_elem_of_fmap wake). apply Morphisms_Prop.or_iff_morphism; [done|]. split.
  - intros (x & Hx & Hin). by destruct x; simplify_eq/=.
  - intros Hin. by exists (Calling (Some f)).
Qed.
Lemma held_dispatch i x e f : workers e !! i = Some x → not_calling x → held f (Events.dispatch i e).1 ↔ held f e.
Proof.
  intros Hx Hn. unfold Events.dispatch. destruct (shutdown e); cbn [fst]; [rewrite (held_set_worker i x); [naive_solver|done|done]|].
  destruct (ready e) as [|[tp g] r] eqn:Hr.
  - destruct (waiting e) as [|[tp g] r]; [done|]. cbn [fst]. rewrite (held_set_worker i x); [naive_solver|done|done].
  - cbn. rewrite (held_set_worker i x); [|done|done]. unfold held, pending. cbn. rewrite Hr. cbn. rewrite elem_of_cons. naive_solver.
Qed.
Lemma held_enter i x e f : workers e !! i = Some x → not_calling x → held f (enter i e).1 ↔ held f e.
Proof.
  intros Hx Hn. unfold enter. repeat case_match; cbn; try (rewrite (held_set_worker i x); [naive_solver|done|done]).
  rewrite (held_dispatch i x) by done. apply held_pending; [apply expire_pending|done].
Qed.
Lemma held_own_step l e e' es f : own_step l = true → step l e = Some (e', es) → held f e' ↔ held f e.
Proof.
  unfold step. destruct (crashed e); [done|]. destruct l as [i|i r|i|i|t g p|g t p|who| | |t]; intros Ho; try done.
  - intros (x & Hx & Hr)%bind_Some. destruct x as [| | | |t| |[g|]| | |]; cbn in Hr; try done; injection Hr as Hr; simplify_eq.
    + rewrite (held_set_worker i Top); [|done|done]. destruct (shutdown e); naive_solver.
    + by rewrite <- (held_enter i Locking e), Hr.
    + by rewrite <- (held_enter i Woken e), Hr.
    + unfold timed_wait_returns in Hr. rewrite <- (held_pending (expire e) e f), <- (held_dispatch i TimedWoken (expire e)), Hr; [done|done|done|apply expire_pending|done].
    + rewrite (held_set_worker i (Calling None)); [naive_solver|done|done].
    + rewrite (held_set_worker i Stopping); [|done|done]. unfold held, pending. cbn. naive_solver.
    + rewrite held_wake, (held_set_worker i Notifying); [naive_solver|done|done].
  - intros (x & Hx & Hr)%bind_Some. destruct x; try done. case_bool_decide; [|done]. injection Hr as <- <-. rewrite (held_set_worker i (TimedWait t)); [naive_solver|done|done].
  - intros (x & Hx & Hr)%bind_Some. destruct x; try done; cbn in Hr; injection Hr as <- <-; (erewrite held_set_worker; [|done|done]); naive_solver.
  - destruct (to_notify e); [done|]. unfold notify_one. intros (e1 & He1 & [= <- <-])%bind_Some. destruct who as [j|].
    + apply bind_Some in He1 as (x & Hx & Hr). destruct (sleeps x) eqn:Es; [|done]. injection Hr as <-.
      etrans; [by apply (held_pending _ (set_worker j (wake x) e))|]. rewrite (held_set_worker j x); [|done|by destruct x]. destruct x; naive_solver.
    + destruct (existsb _ _); [done|]. injection He1 as <-. by apply held_pending.
  - intros [= <- <-]. by apply held_pending.
  - destruct (to_notify_all e); [done|]. intros [= <- <-]. etrans; [by apply (held_pending _ (notify_all e))|]. apply held_wake.
  - intros [= <- <-]. by apply held_pending.
Qed.

(** ** The invariant of the system *)
Lemma replan_token_quiet c leafs t : quiet (replan_token c leafs t).
Proof. revert t. induction leafs as [|x leafs IH]; intros t; cbn [replan_token]; quiet. Qed.
Hint Resolve replan_token_quiet : quiet.
Lemma replan_quiet id : quiet (replan id).
Proof.
  unfold replan, original_ad, replan_context, get_last_matched_ceid, replan_cream, take_token, send_replan. quiet.
Qed.
Hint Resolve replan_quiet : quiet.
Lemma run_Replanner_sound gs free fresh : sound gs free fresh run_Replanner.
Proof. unfold run_Replanner, get_scheduled_jobs. sound. Qed.
Lemma run_processor_sound `{!FreshNames (Ad:=Ad)} f gs fresh : f ∈ gs → sound gs [] fresh (run_processor f).
Proof.
  intros Hf. destruct f as [[i|]|i|i| | |]; cbn [run_processor].
  - by apply run_SubmitProcessor_sound.
  - apply sound_quiet. apply quiet_stuck.
  - by apply run_CancelProcessor_sound.
  - apply run_MatchProcessor_sound.
  - apply run_Dispatcher_sound.
  - apply sound_quiet, quiet_ret.
  - apply run_Replanner_sound.
Qed.

(** A processor is dropped from the queue. *)
Lemma J_unhold f w e' : J [f] [] [] w → (∀ g, held g e' → held g (events w)) → (∀ g, held g (events w) → g = f ∨ held g e') →
  J [] [] (option_list (refers f)) (set_events e' w).
Proof.
  intros ([H1 H2 H3 H4 H5 H6 H7 H8] & _) Hsub Hsup. split_and!; [|constructor..]. split; try done.
  - intros g Hg o Ho. by apply (H5 g (Hsub g Hg)).
  - intros o Ha Hf. destruct (H6 o Ha) as [Hh|?]; [apply not_elem_of_nil| |by right]. destruct (Hsup _ Hh) as [<-|?]; [|by left].
    destruct Hf. by destruct o; left.
Qed.
Lemma forget_spec f w : J [] [] (option_list (refers f)) w → J [] [] [] (forget f w).1.
Proof.
  intros HJ. destruct f as [[i|]|i|i| | |]; try done; cbn [forget].
  - pose proof (release_SubmitState_spec i [] [] [] (λ _, J [] [] []) w HJ) as HR. by destruct (release_SubmitState i w) as [? []].
  - pose proof (release_CancelState_spec i [] [] [] (λ _, J [] [] []) w HJ) as HR. by destruct (release_CancelState i w) as [? []].
  - pose proof (release_MatchState_spec i [] [] [] (λ _, J [] [] []) w HJ) as HR. by destruct (release_MatchState i w) as [? []].
Qed.
Lemma held_return k f e g : workers e !! k = Some (Calling (Some f)) →
  (held g (set_worker k Top e) → held g e) ∧ (held g e → g = f ∨ held g (set_worker k Top e)).
Proof.
  intros Hk. unfold held, set_worker, set_workers, pending. cbn. rewrite !(list_elem_of_lookup _ (Calling (Some g))). split.
  - intros [?|(j & Hj)]; [by left|right]. exists j. destruct (decide (j = k)) as [->|]; [|by rewrite list_lookup_insert_ne in Hj].
    by rewrite list_lookup_insert_eq in Hj by (by eapply lookup_lt_Some).
  - intros [?|(j & Hj)]; [by right; left|]. destruct (decide (j = k)) as [->|]; [left; congruence|]. right. right. exists j. by rewrite list_lookup_insert_ne.
Qed.
Lemma run_processor_calm f : calm (run_processor f).
Proof.
  destruct f as [s|i|i| | |]; cbn [run_processor]; [apply run_SubmitProcessor_calm|apply run_CancelProcessor_calm| |apply run_Dispatcher_calm|done|].
  - apply calm_quiet. unfold run_MatchProcessor. quiet.
  - unfold run_Replanner, get_scheduled_jobs. calm.
Qed.

(** While the process runs, every state is referred to. *)
Definition SysInv w : Prop := if crashed (events w) then ∃ fresh, J [] [] fresh w else J [] [] [] w.
Lemma J_held_iff w e' : J [] [] [] w → (∀ f, held f e' ↔ held f (events w)) → J [] [] [] (set_events e' w).
Proof. intros HJ Hh. eapply J_same; [|exact HJ]. split_and!; [by intros []|done|done|done|done]. Qed.
Lemma SysInv_weak w fresh : J [] [] fresh w → crashed (events w) = true → SysInv w.
Proof. intros HJ Hc. unfold SysInv. rewrite Hc. by exists fresh. Qed.
Lemma SysInv_strong w : J [] [] [] w → SysInv w.
Proof. intros HJ. unfold SysInv. destruct (crashed _); [by exists []|done]. Qed.
Lemma calls_spec f k w : workers (events w) !! k = Some (Calling (Some f)) → J [] [] [] w → J [f] [] [] w.
Proof. intros Hk HJ. apply J_more_held; [done|]. right. by apply list_elem_of_lookup_2 in Hk. Qed.
Lemma wm_step_inv `{!FreshNames (Ad:=Ad)} l w w' es : SysInv w → wm_step l w = Some (w', es) → SysInv w'.
Proof.
  unfold wm_step, SysInv at 1. destruct (crashed (events w)) eqn:Hcr; [done|]. intros HJ. destruct l as [l|k].
  - destruct (own_step l) eqn:Ho; [|done]. intros ([e' es'] & Hs & [= <- <-])%bind_Some. apply SysInv_strong, J_held_iff; [done|].
    intros f. by eapply held_own_step.
  - destruct (workers (events w) !! k) as [[| | | | | |[f|]| | |]|] eqn:Hk; try done.
    pose proof (run_processor_sound f [f] [] ltac:(by left) w (calls_spec f k w Hk HJ)) as HS.
    pose proof (run_processor_calm f w) as HC. destruct (run_processor f w) as [w1 r]. cbn in HC. injection HC as Hw Hc1.
    assert (J [f] [] [] w1 → J [] [] [] (forget f (set_events (set_worker k Top (events w1)) w1)).1) as Hend.
    { intros HJ1. apply forget_spec, J_unhold; [done|..]; intros g; apply (held_return k f); by rewrite Hw. }
    destruct r as [[]|e|]; intros [= <- <-]; [by apply SysInv_strong, Hend|by apply SysInv_strong, Hend|].
    destruct HS as [fresh HJ1]. apply (SysInv_weak _ fresh); [|done]. eapply J_same; [|exact HJ1]. by split_and!; [intros []|..].
Qed.

(** ** The file of a request: its own, or that of its parents *)
Inductive file_for w : owner → bytes → Prop :=
| file_own o item : cleanup_of w o = Some (remove_from_input item) → file_for w o item
| file_parent k name p item : cleanup_of w (OSubmit k) = Some (RemoveNodeFromCollection name p) → file_for w (OSubmit p) item → file_for w (OSubmit k) item.

Lemma Inv_files fresh w o : Inv fresh w → alive w o → ∃ item, file_for w o item ∧ item ∈ input w.
Proof.
  intros HI. assert (∀ i, alive w (OSubmit i) → ∃ item, file_for w (OSubmit i) item ∧ item ∈ input w) as Hs.
  { intros i. induction (lt_wf i) as [i _ IH]. intros [cl Hcl]. destruct cl as [item|name p].
    - exists item. split; [by constructor|]. by eapply inv_file.
    - destruct (inv_parent _ _ HI _ _ _ Hcl) as [Hlt Ha]. destruct (IH p Hlt Ha) as (item & Hf & Hin). exists item. split; [by econstructor|done]. }
  intros Ha. destruct o as [i|i|i]; [by apply Hs|..].
  all: destruct Ha as [cl Hcl]; destruct (inv_kind _ _ HI _ _ Hcl) as [[? ?]|[item ->]]; [done|]; exists item; split; [by constructor|]; by eapply inv_file.
Qed.
Lemma start_inv sandbox_ n t : J [] [] [] (start sandbox_ n t).
Proof.
  assert (∀ o, cleanup_of (start sandbox_ n t) o = None) as Hn by (intros []; cbn; by rewrite lookup_empty).
  assert (∀ o, ¬ alive (start sandbox_ n t) o) as Hd by (intros o [cl Hcl]; by rewrite Hn in Hcl).
  assert (∀ f, ¬ held f (events (start sandbox_ n t))) as Hq.
  { intros f [Hf|Hf]; cbn in Hf; [by apply elem_of_nil in Hf|]. by apply elem_of_replicate in Hf as []. }
  split_and!; [|constructor..]. split.
  - by intros o ?%Hd.
  - intros k name p. by rewrite Hn.
  - intros o item. unfold owns. by rewrite Hn.
  - intros o o' item. unfold owns. by rewrite Hn.
  - by intros f ?%Hq.
  - by intros o ?%Hd.
  - intros item Hi. cbn in Hi. set_solver.
  - intros o cl. by rewrite Hn.
Qed.
Lemma start_manager_sound `{!FreshNames (Ad:=Ad)} b r : sound [] [] [] (start_manager b r).
Proof. unfold start_manager, start_recovery, start_dispatcher, start_replanner. pose proof (recovery_sound [] []) as Hr. sound. Qed.

Lemma runs_inv `{!FreshNames (Ad:=Ad)} sandbox_ n t b r w0 ls es w : start_manager b r (start sandbox_ n t) = (w0, Ret tt) → reach wm_step w0 ls es w → SysInv w.
Proof.
  intros Hs0 Hr. eapply reach_always; [| |exact Hr]; [intros; by eapply wm_step_inv|].
  pose proof (start_manager_sound b r (start sandbox_ n t) (start_inv _ _ _)) as HS. rewrite Hs0 in HS. by apply SysInv_strong.
Qed.

(** While something in the queue or a worker refers to a request, its file is
    in the input directory; and while the process runs every state is
    referred to, so that none is forgotten. *)
Lemma SysInv_files w : SysInv w →
  (∀ f, held f (events w) → live w f) ∧
  (∀ o, alive w o → ∃ item, file_for w o item ∧ item ∈ input w) ∧
  (crashed (events w) = false → ∀ o, alive w o → reached w o).
Proof.
  unfold SysInv. destruct (crashed (events w)).
  - intros [fresh [HI _]]. split_and!; [by apply (inv_queue fresh)| |done]. intros o. by eapply Inv_files.
  - intros [HI _]. split_and!; [by apply (inv_queue [])| |]; [intros o; by eapply Inv_files|]. intros _ o Ho. eapply inv_reached; [exact HI|done|set_solver].
Qed.
End system.
