(* ===== verification/WmDelivery.v ===== *)
(** * Handing a job over, and the tokens of a resubmission

    What reaches ICE and the job controller, and what the files in the
    directory of a job decide.  Logging touches neither. *)

From stdpp Require Import gmap strings.
From S2P Require Import Prelude LbEvents Events Manager WmUtils LbProps WmInvariant Submit.

Section logging_frame.
Context {Ad : Type} `{Libraries Ad} `{Env Ad}.
Abbreviation W := (World Ad).
Implicit Types w : W.

(** ** Calls that only make contexts and log *)
Definition lb_frame w w' : Prop :=
  outputs w' = outputs w ∧ sandbox w' = sandbox w ∧ submits w' = submits w ∧ contexts w `prefix_of` contexts w'.
Definition lb_only {A} (m : M W exn A) : Prop := ∀ w, lb_frame w (m w).1.

#[export] Instance lb_frame_preorder : PreOrder lb_frame.
Proof.
  split; [by intros w; split_and!|]. intros w1 w2 w3 (? & ? & ? & ?) (? & ? & ? & ?). split_and!; [congruence..|by etrans].
Qed.
Lemma lb_only_pure {A} (r : outcome exn A) : lb_only (λ w, (w, r)).
Proof. done. Qed.
Lemma lb_only_bind {A B} (m : M W exn A) (k : A → M W exn B) : lb_only m → (∀ a, lb_only (k a)) → lb_only (m ≫= k).
Proof. intros Hm Hk w. unfold mbind, M_bind. specialize (Hm w). destruct (m w) as [w' [a| |]]; [|done|done]. by etrans; [|apply Hk]. Qed.
Lemma lb_only_ask {A} (f : nat → A) : lb_only (ask f).
Proof. done. Qed.
Lemma lb_only_gets {A} (f : W → A) : lb_only (gets f).
Proof. done. Qed.
Lemma lb_only_deref {A} (o : option A) : lb_only (deref o).
Proof. by destruct o. Qed.
Lemma lb_only_or_throw {A} e (o : option A) : lb_only (or_throw e o).
Proof. by destruct o. Qed.
Lemma create_context_lb id p sc : lb_only (create_context id p sc).
Proof.
  unfold create_context. apply lb_only_bind; [apply lb_only_ask|]. intros e. destruct (e =? 0); [|by apply lb_only_pure].
  intros w. split_and!; try done. by apply prefix_app_r.
Qed.
Lemma log_function_lb e c : lb_only (log_function e c).
Proof.
  unfold log_function. repeat (apply lb_only_bind; [done || apply lb_only_deref|intros ?]). apply lb_only_bind; [|by intros ?; apply lb_only_pure].
  match goal with |- lb_only (if ?b then _ else _) => by destruct b end.
Qed.
Lemma host_context_lb c : lb_only (host_context c).
Proof.
  unfold host_context. apply lb_only_bind; [done|]. intros [sc|]; [|done]. apply lb_only_bind; [done|]. intros e. destruct (e =? 0); [|done].
  do 2 (apply lb_only_bind; [done || apply lb_only_deref|intros ?]). apply lb_only_bind; [apply create_context_lb|done].
Qed.
Lemma host_loop_lb i e c err : lb_only (host_loop i e c err).
Proof.
  revert err. induction i as [|i IH]; intros err; cbn [host_loop]; [done|]. destruct (err =? 0); [done|]. destruct (negb _); [done|].
  by apply lb_only_bind; [apply log_function_lb|].
Qed.
Lemma lb_log_loop_lb i e c err : lb_only (lb_log_loop i e c err).
Proof.
  revert err. induction i as [|i IH]; intros err; cbn [lb_log_loop]; [done|]. destruct (err =? 0); [done|].
  destruct (err =? EDG_WLL_ERROR_GSS); (apply lb_only_bind; [apply host_context_lb|]; intros [h|]; [|done]).
  - apply lb_only_bind; [apply log_function_lb|]. intros ?. apply host_loop_lb.
  - destruct (negb _); [done|]. by apply lb_only_bind; [apply log_function_lb|].
Qed.
Lemma log_lb e c : lb_only (log_ e c).
Proof. apply lb_only_bind; [|done]. apply lb_only_bind; [apply log_function_lb|]. intros ?. apply lb_log_loop_lb. Qed.
Lemma get_lb_sequence_code_lb c : lb_only (get_lb_sequence_code c).
Proof. apply lb_only_bind; [done|]. intros ?. apply lb_only_or_throw. Qed.
Lemma when_lb b m : lb_only m → lb_only (when b m).
Proof. by destruct b. Qed.

(** As a rule for triples: an assertion that the frame keeps. *)
Lemma triple_lb {A} (P : W → Prop) (m : M W exn A) (X : option exn → W → Prop) : lb_only m →
  (∀ w w', lb_frame w w' → P w → P w') → (∀ x w, P w → X x w) → triple P m (λ _, P) X.
Proof. intros Hm HP HX w Hw. pose proof (HP w (m w).1 (Hm w) Hw). destruct (m w) as [w' []]; by auto. Qed.
End logging_frame.

(** ** A context that logs does not get stuck *)
Section unstuck.
Context {Ad : Type} `{Libraries Ad} `{Env Ad}.
Implicit Types w : World Ad.

Lemma log_unstuck e c cx w : contexts w !! c = Some cx →
  match log_ e c w with
  | (w', Ret _) => log w' = log w ∨ ∃ source, log w' = log w ++ [Logged (cx_job cx) source e]
  | (w', Fail _) => log w' = log w
  | (_, Stuck) => False
  end.
Proof.
  intros Hc. pose proof (lb_log_spec e c cx (log w) (contexts w) (calls w) Hc w ltac:(by split_and!)) as HS.
  unfold log_, mbind, M_bind. destruct (lb_log e c w) as [w' [ok|x|]]; cbn.
  - destruct HS as [_ HS]. destruct ok; [by right|by left].
  - apply HS.
  - by destruct HS.
Qed.
End unstuck.

(** ** The delivery of a planned job *)
Section delivery.
Context {Ad : Type} `{Libraries Ad} `{Env Ad}.
Implicit Types w : World Ad.
Context (planned : Ad) (context : nat) (is_replan : bool) (c : Context) (O : list output) (S0 : gset (JobId * bytes)).

Abbreviation cream := (is_cream_ce_id (default [] (get_ce_id planned))).
Definition untouched w : Prop := outputs w = O ∧ sandbox w = S0 ∧ contexts w !! context = Some c.
(** Exactly one command, for ICE or for the job controller. *)
Definition delivered w : Prop := sandbox w = S0 ∧ contexts w !! context = Some c ∧ ∃ sequence_code,
  let command := unparse_classad (wm_submit_command (set_lb_sequence_code sequence_code planned) is_replan) in
  outputs w = O ++ [if cream then to_ice command else to_jc command].
(** The user has cancelled the job in the meantime. *)
Definition cancelled_instead w : Prop := get_cancel_token (cx_job c) ∈ S0 ∧ outputs w = O ++ [purged (cx_job c) None] ∧ sandbox w = S0 ∖ {[get_cancel_token (cx_job c)]}.
Definition handed_over (x : option exn) w : Prop := x ≠ None ∧ (untouched w ∨ delivered w).

Lemma untouched_frame w w' : lb_frame w w' → untouched w → untouched w'.
Proof. intros (Ho & Hs & _ & Hc) (? & ? & ?). split_and!; [congruence|congruence|]. by eapply prefix_lookup_Some. Qed.
Lemma delivered_frame w w' : lb_frame w w' → delivered w → delivered w'.
Proof. intros (Ho & Hs & _ & Hc) (? & ? & sc & Hd). split_and!; [congruence|by eapply prefix_lookup_Some|]. exists sc. by rewrite Ho. Qed.

(** A call that logs, in a state of which [P] is known. *)
Lemma log_handed (P : World Ad → Prop) e : (∀ w w', lb_frame w w' → P w → P w') → (∀ w, P w → contexts w !! context = Some c) → (∀ w, P w → untouched w ∨ delivered w) →
  triple P (log_ e context) (λ _, P) handed_over.
Proof.
  intros HP Hc Hx w Hw. pose proof (HP w _ (log_lb e context w) Hw) as Hw'. pose proof (log_unstuck e context c w (Hc w Hw)) as Hu.
  destruct (log_ e context w) as [w' []]; [done|by split; auto|done].
Qed.
Lemma log_untouched e : triple untouched (log_ e context) (λ _, untouched) handed_over.
Proof. apply log_handed; [apply untouched_frame|by intros w (_ & _ & ?)|by left]. Qed.
Lemma log_delivered e : triple delivered (log_ e context) (λ _, delivered) handed_over.
Proof. apply log_handed; [apply delivered_frame|by intros w (_ & ? & _)|by right]. Qed.
Lemma untouched_ask {A} (f : nat → A) X : triple untouched (ask f) (λ _, untouched) X.
Proof. intros w Hw. exact Hw. Qed.
Lemma untouched_throw {A} e (o : option A) : triple untouched (or_throw e o) (λ a w, o = Some a ∧ untouched w) handed_over.
Proof. intros w Hw. destruct o; [by split|]. split; [done|by left]. Qed.
Lemma sequence_untouched c' : triple untouched (get_lb_sequence_code c') (λ _, untouched) handed_over.
Proof.
  unfold get_lb_sequence_code. eapply triple_bind; [apply untouched_ask|]. intros sc. eapply triple_weaken; [apply untouched_throw|done|by intros ? ? []|done].
Qed.

Lemma deliver_planned sc : let ad_str := unparse_classad (wm_submit_command (set_lb_sequence_code sc planned) is_replan) in
  triple untouched (deliver cream ad_str) (λ error w, match error with None => delivered w | Some _ => untouched w end) handed_over.
Proof.
  intros ad_str w (Ho & Hs & Hc). unfold deliver, mbind, M_bind. cbn. destruct (deliver_error _ _ _) as [er|]; [done|]. cbn.
  split_and!; [done|done|]. exists sc. cbn. by rewrite Ho.
Qed.
Lemma wm_submit_planned_spec :
  triple untouched (wm_submit_planned planned context is_replan) (λ _ w, delivered w ∨ cancelled_instead w) handed_over.
Proof.
  unfold wm_submit_planned. eapply triple_bind; [apply untouched_throw|]. intros ce. apply triple_pre. intros Hce.
  eapply triple_bind; [apply log_untouched|]. intros ?. eapply triple_bind.
  { destruct (negb _); [apply log_untouched|by apply triple_ret]. }
  intros ?. eapply triple_bind; [apply log_untouched|]. intros ?. eapply triple_bind.
  { apply (sequence_untouched context). }
  intros sc. eapply triple_bind; [apply untouched_ask|]. intros res.
  assert (is_cream_ce_id ce = cream) as -> by (by rewrite Hce).
  intros w Hw. pose proof Hw as (Ho & Hs & Hc). unfold mbind at 1, M_bind at 1, gets. rewrite Hc. cbn [deref].
  rewrite (bind_Ret _ _ w w c eq_refl).
  rewrite (bind_Ret _ _ w w (if res =? 0 then bool_decide (get_cancel_token (cx_job c) ∈ S0) else false)); [|destruct (res =? 0); [unfold exists_, gets; by rewrite Hs|done]].
  destruct (if res =? 0 then _ else _) eqn:Ht; revert w Hw Ho Hs Hc.
  - destruct (res =? 0); [|done]. apply bool_decide_eq_true in Ht. intros w Hw _ _ _. revert w Hw.
    eapply triple_bind; [apply log_untouched|]. intros ? w (Ho & Hs & Hc). right. split_and!; [done|cbn; by rewrite Ho|cbn; by rewrite Hs].
  - intros w Hw _ _ _. revert w Hw. eapply triple_bind; [apply deliver_planned|]. intros [er|].
    + eapply triple_bind; [apply log_untouched|]. intros ?. apply triple_fail. intros w Hw. split; [done|by left].
    + eapply triple_weaken; [apply log_delivered|done|by left|done].
Qed.
End delivery.

(** ** Tokens: shallow or deep *)
Section tokens.
Context {Ad : Type} `{Libraries Ad} `{Env Ad}.
Implicit Types (w : World Ad) (token : JobId * bytes).

Definition shallow_allowed (ad : Ad) (n : Z) : Prop := n < non_negative (get_shallow_retry_count ad) ∧ n < non_negative (Some max_shallow_retry_count).
Definition deep_allowed (ad : Ad) (n : Z) : Prop := n < non_negative (get_retry_count ad) ∧ n < max_retry_count.
Lemma check_shallow_count_spec ad n w : ∃ r, check_shallow_count ad n w = (w, r) ∧ match r with Ret _ => shallow_allowed ad n | Fail _ => ¬ shallow_allowed ad n | Stuck => False end.
Proof.
  unfold check_shallow_count, shallow_allowed. destruct (Z.leb_spec (non_negative (get_shallow_retry_count ad)) n); [eexists; split; [done|]; cbv beta iota; lia|].
  destruct (Z.leb_spec (non_negative (Some max_shallow_retry_count)) n); (eexists; split; [done|]; cbv beta iota; lia).
Qed.
Lemma check_deep_count_spec ad n w : ∃ r, check_deep_count ad n w = (w, r) ∧ match r with Ret _ => deep_allowed ad n | Fail _ => ¬ deep_allowed ad n | Stuck => False end.
Proof.
  unfold check_deep_count, deep_allowed. destruct (Z.leb_spec (non_negative (get_retry_count ad)) n); [eexists; split; [done|]; cbv beta iota; lia|].
  destruct (Z.leb_spec max_retry_count n); (eexists; split; [done|]; cbv beta iota; lia).
Qed.

(** A token that is still there, or was taken already by an earlier try. *)
Definition token_left w token : Prop := token ∈ sandbox w ∨ token_tmp token ∈ sandbox w.
#[local] Instance token_left_dec w token : Decision (token_left w token).
Proof. unfold token_left. apply _. Defined.
Definition after_rename (s : gset (JobId * bytes)) token : gset (JobId * bytes) := if decide (token ∈ s) then s ∖ {[token]} ∪ {[token_tmp token]} else s.

Lemma rename_token w token : (∀ n id from, rename_error n id from = 0) →
  ∃ w', rename token.1 token.2 (token_tmp token).2 w = (w', Ret (if decide (token ∈ sandbox w) then 0 else ENOENT)) ∧
    sandbox w' = after_rename (sandbox w) token ∧ log w' = log w ∧ submits w' = submits w ∧ contexts w' = contexts w.
Proof.
  intros Hr. unfold rename, mbind, M_bind. cbn. rewrite Hr. cbn. unfold exists_, gets. cbn [sandbox set_calls]. destruct token as [id leaf]. cbn [fst snd].
  unfold after_rename. case_decide as Ht; [rewrite bool_decide_eq_true_2 by done|rewrite bool_decide_eq_false_2 by done]; by eexists.
Qed.
Lemma after_rename_tmp s token : token_tmp token ∈ after_rename s token ↔ token ∈ s ∨ token_tmp token ∈ s.
Proof. unfold after_rename. case_decide; set_solver. Qed.
Lemma after_rename_end s token : after_rename s token ∪ {[token_tmp token]} = s ∖ {[token]} ∪ {[token_tmp token]}.
Proof. unfold after_rename. case_decide; set_solver. Qed.

(** A check of a count, and then the rest. *)
Lemma triple_check {B} (P : World Ad → Prop) (p : Prop) (m : M (World Ad) exn unit) (k : unit → M (World Ad) exn B) Q X :
  (∀ w, ∃ r, m w = (w, r) ∧ match r with Ret _ => p | Fail _ => ¬ p | Stuck => False end) → (∀ e w, P w → X (Some e) w) →
  (p → triple P (k tt) Q X) → triple P (m ≫= k) Q X.
Proof.
  intros Hm HX Hk w Hw. unfold mbind, M_bind. destruct (Hm w) as ([[]| |] & -> & Hp); [by apply Hk|by apply HX|done].
Qed.

Context (i : nat) (ad : Ad) (token : JobId * bytes) (deep shallow : Z) (st : SubmitState Ad) (cx : Context) (S0 : gset (JobId * bytes)) (L : list logged).
Definition at_token w : Prop := sandbox w = after_rename S0 token ∧ log w = L ∧ submits w !! i = Some st ∧ contexts w !! m_lb_context st = Some cx.
Definition logged_as e w : Prop := log w = L ∨ ∃ source, log w = L ++ [Logged (cx_job cx) source e].
Definition token_kept (x : option exn) w : Prop := x ≠ None ∧ sandbox w = after_rename S0 token.

Lemma log_at_token e : triple at_token (log_ e (m_lb_context st)) (λ _ w, sandbox w = after_rename S0 token ∧ logged_as e w) token_kept.
Proof.
  intros w (Hs & HL & Hi & Hc). pose proof (log_lb e (m_lb_context st) w) as (_ & Hs' & _). pose proof (log_unstuck e _ cx w Hc) as Hu.
  destruct (log_ e (m_lb_context st) w) as [w' []]; cbn in Hs'; [|split; [done|congruence]|done]. split; [congruence|]. unfold logged_as. by rewrite <- HL.
Qed.
Lemma resubmission_token_spec w : (∀ n id from, rename_error n id from = 0) → shallow_resubmission_is_enabled ad = true →
  S0 = sandbox w → L = log w → submits w !! i = Some st → contexts w !! m_lb_context st = Some cx →
  match resubmission_token i ad token deep shallow w with
  | (w', Ret _) => sandbox w' = S0 ∖ {[token]} ∪ {[token_tmp token]} ∧
      (if decide (token_left w token) then shallow_allowed ad shallow ∧ logged_as (LogResubmissionSHALLOW (of_string "token still exists") token.2) w'
       else deep_allowed ad deep ∧ logged_as (LogResubmissionWILLRESUB (of_string "token was grabbed") token.2) w')
  | (w', Fail _) => sandbox w' = after_rename S0 token
  | (_, Stuck) => False
  end.
Proof.
  intros Hr Hen HS HL Hi Hc. unfold resubmission_token. rewrite (bind_Ret _ _ w w st) by (unfold m_state, mbind, M_bind, gets; by rewrite Hi).
  rewrite Hen. destruct (rename_token w token Hr) as (w1 & Hren & Hs1 & Hl1 & Hsub & Hcon). rewrite (bind_Ret _ _ _ _ _ Hren).
  assert (negb ((if decide (token ∈ sandbox w) then 0 else ENOENT) =? 0) && negb ((if decide (token ∈ sandbox w) then 0 else ENOENT) =? ENOENT) = false) as -> by (by case_decide).
  assert (at_token w1) as Hw1 by (split_and!; [by rewrite Hs1, HS|by rewrite Hl1|by rewrite Hsub|by rewrite Hcon]).
  rewrite (bind_Ret _ _ _ w1 (bool_decide (token_left w token))).
  2: { unfold exists_, gets. f_equal. f_equal. apply bool_decide_ext. by rewrite Hs1, after_rename_tmp. }
  destruct (decide (token_left w token)) as [Hl|Hl].
  - rewrite bool_decide_eq_true_2 by done. assert (triple at_token (check_shallow_count ad shallow ;; log_resubmission_shallow (m_lb_context st) token.2)
      (λ _ w', sandbox w' = S0 ∖ {[token]} ∪ {[token_tmp token]} ∧ shallow_allowed ad shallow ∧ logged_as (LogResubmissionSHALLOW (of_string "token still exists") token.2) w') token_kept) as HT.
    { eapply triple_check; [intros w'; apply check_shallow_count_spec|by intros e w' [? _]|]. intros Ha. eapply triple_weaken; [apply log_at_token|done| |done].
      intros [] w' [Hs' Hlog]. split; [|by split]. rewrite Hs', <- after_rename_end. assert (token_tmp token ∈ after_rename S0 token) by (apply after_rename_tmp; by rewrite HS). set_solver. }
    specialize (HT w1 Hw1). match goal with |- match ?m with _ => _ end => destruct m as [w' []] end; [done|apply HT|by destruct HT].
  - rewrite bool_decide_eq_false_2 by done. assert (triple at_token (check_deep_count ad deep ;; log_resubmission_deep_token (m_lb_context st) token.2 ;; create_token (token_tmp token))
      (λ _ w', sandbox w' = S0 ∖ {[token]} ∪ {[token_tmp token]} ∧ deep_allowed ad deep ∧ logged_as (LogResubmissionWILLRESUB (of_string "token was grabbed") token.2) w') token_kept) as HT.
    { eapply triple_check; [intros w'; apply check_deep_count_spec|by intros e w' [? _]|]. intros Ha. eapply triple_bind; [apply log_at_token|].
      intros [] w' [Hs' Hlog]. unfold create_token, mbind, M_bind. cbn. destruct (_ =? 0); cbn; [|by split].
      split; [|by split]. rewrite Hs'. apply after_rename_end. }
    specialize (HT w1 Hw1). match goal with |- match ?m with _ => _ end => destruct m as [w' []] end; [done|apply HT|by destruct HT].
Qed.
End tokens.
