(* ===== verification/WmExample.v ===== *)
(** * An instance of the libraries and of the outside

    ClassAds as trees, with texts for the requests of a few jobs, and an
    outside that answers as it is told.  The witnesses of the properties of
    the workload manager are evaluated with it. *)

From stdpp Require Import gmap strings.
From S2P Require Import Prelude Numbers LbEvents Events Manager WmUtils WmInvariant.

(** Attributes by their kind. *)
Inductive tree := Tree (strings : list (bytes * bytes)) (ints : list (bytes * Z)) (trees : list (bytes * tree)).
Definition get_strings (t : tree) := let 'Tree s _ _ := t in s.
Definition get_ints (t : tree) := let 'Tree _ n _ := t in n.
Definition get_trees (t : tree) := let 'Tree _ _ ts := t in ts.
Definition assoc {A} (k : bytes) (l : list (bytes * A)) : option A :=
  match list_find (λ kv, kv.1 = k) l with Some (_, kv) => Some kv.2 | None => None end.
Definition string_of (name : string) (t : tree) : option bytes := assoc (of_string name) (get_strings t).
Definition int_of (name : string) (t : tree) : option Z := assoc (of_string name) (get_ints t).
Definition tree_of (name : string) (t : tree) : option tree := assoc (of_string name) (get_trees t).
Definition add_string (name value : bytes) (t : tree) : tree := let 'Tree s n ts := t in Tree ((name, value) :: s) n ts.
Definition add_int (name : bytes) (value : Z) (t : tree) : tree := let 'Tree s n ts := t in Tree s ((name, value) :: n) ts.
Definition add_tree (name : bytes) (value t : tree) : tree := let 'Tree s n ts := t in Tree s n ((name, value) :: ts).

(** A job: its id, its sequence code, its proxy and the computing element that a plan gives it. *)
Definition example_job (id : string) : tree :=
  Tree [(of_string "edg_jobid", of_string id); (of_string "lb_sequence_code", of_string "UI=1"); (of_string "X509UserProxy", of_string "proxy");
        (of_string "ce_id", of_string "ce.org/cream-pbs")] [(of_string "ShallowRetryCount", 3); (of_string "RetryCount", 2)] [].
(** A node of a graph with its parents. *)
Definition example_node (id : string) (parents : list string) : tree :=
  let 'Tree s n ts := example_job id in Tree (s ++ ((λ p, (of_string "parent", of_string p)) <$> parents)) n ts.
(** Two nodes, the second after the first. *)
Definition example_dag (id : bytes) : tree :=
  Tree [(of_string "Type", of_string "dag"); (of_string "edg_jobid", id); (of_string "lb_sequence_code", of_string "UI=1"); (of_string "X509UserProxy", of_string "proxy")] []
    [(of_string "Nodes", Tree [] [(of_string "dependencies", 1)] []);
     (of_string "nodes", Tree [] [] [(of_string "a", example_node "https://lb/a" []); (of_string "b", example_node "https://lb/b" ["a"])])].
Definition example_command (command : string) (arguments : tree) : tree :=
  Tree [(of_string "command", of_string command); (of_string "version", of_string "1.0.0")] [] [(of_string "arguments", arguments)].
(** The text of a request is a letter and a job id. *)
Definition example_parse (text : bytes) : option tree :=
  match text with
  | "s"%char :: id => Some (example_command "jobsubmit" (add_tree (of_string "ad") (add_string (of_string "edg_jobid") id (example_job "")) (Tree [] [] [])))
  | "c"%char :: id => Some (example_command "jobcancel" (Tree [(of_string "id", id); (of_string "lb_sequence_code", of_string "UI=1")] [] []))
  | "d"%char :: id => Some (example_command "jobsubmit" (add_tree (of_string "ad") (example_dag id) (Tree [] [] [])))
  | "["%char :: _ => Some (Tree [] [] [])
  | _ => None
  end.

#[export] Instance example_libraries : Libraries tree := {|
  new_ClassAd := Tree [] [] [];
  parse_classad := example_parse;
  unparse_classad := λ t, default [] (string_of "Command" t);
  left_matches_right := λ _ _, true;
  evaluate_string := λ t name,
    if decide (name = of_string "arguments.id") then tree_of "arguments" t ≫= string_of "id"
    else if decide (name = of_string "arguments.lb_sequence_code") then tree_of "arguments" t ≫= string_of "lb_sequence_code"
    else assoc name (get_strings t);
  evaluate_classad := λ t name, if decide (name = of_string "arguments.ad") then tree_of "arguments" t ≫= tree_of "ad" else assoc name (get_trees t);
  EvaluateAttrString := λ t name, assoc name (get_strings t);
  EvaluateAttrClassAd := λ t name, assoc name (get_trees t);
  EvaluateAttrList := λ t name, assoc name (get_ints t);
  Lookup := λ t name, assoc name (get_trees t);
  Remove := λ t name, assoc name (get_trees t);
  InsertAttr := add_string;
  InsertAttr_int := add_int;
  InsertAttr_bool := λ name b, add_int name (if b : bool then 1 else 0);
  Insert := add_tree;
  get_edg_jobid := string_of "edg_jobid";
  jdl_get_lb_sequence_code := string_of "lb_sequence_code";
  get_x509_user_proxy := string_of "X509UserProxy";
  get_ce_id := string_of "ce_id";
  get_ceinfo_host_name := λ _, [];
  get_input_sandbox_path := string_of "InputSandboxPath";
  get_expiry_time := int_of "ExpiryTime";
  get_shallow_retry_count := int_of "ShallowRetryCount";
  get_retry_count := int_of "RetryCount";
  get_replans_count := int_of "ReplansCount";
  set_lb_sequence_code := add_string (of_string "lb_sequence_code");
  set_replans_count := add_int (of_string "ReplansCount");
  remove_replans_count := λ t, t;
  get_enable_wms_feedback := λ _, true;
  set_edg_previous_matches := λ _ t, t;
  set_edg_previous_matches_ex := λ _ t, t;
  dag_nodes := λ t, default [] (get_trees <$> tree_of "nodes" t);
  dag_vertices := λ t, (default [] (get_trees <$> tree_of "nodes" t)).*1;
  dag_in_edges := λ t v, match assoc v (default [] (get_trees <$> tree_of "nodes" t)) with
                         | Some node => (filter (λ kv, kv.1 = of_string "parent") (get_strings node)).*2
                         | None => []
                         end;
  parse_jobid := λ text, match text with "h"%char :: _ => Some text | _ => None end;
  localhost_jobid := of_string "http://localhost";
  is_cream_ce_id := λ ce, bool_decide (ce = of_string "ce.org/cream-pbs");
  is_token_name := λ leaf, bool_decide (take 6 leaf = of_string "token_");
  float_of_text := λ text, match text with [c] => Some (Z.of_N (N_of_ascii c) - 48) | _ => None end;
  is_ce_info_host := λ _, false;
  CE_INFO_HOST := of_string "CEInfoHostName";
  what := λ _, []
|}.

Section outside.
Context (context_error : nat → JobId → Z) (log_error : nat → Z) (status : nat → JobId → option edg_wll_JobStat)
  (query : nat → JobId → list (list edg_wll_QueryRec) → Z * LB_Events) (requests : nat → list (bytes * option bytes)).

Definition example_env : Env tree := {|
  time := λ n, Z.of_nat n;
  lb_context := context_error;
  lb_set_job := λ _ id c, Ctx id (cx_source c);
  lb_log_answer := λ n _ _, log_error n;
  lb_status := λ n id _ _, status n id;
  lb_query := query;
  lb_sequence_code := λ _, Some (of_string "UI=2");
  lb_logging_job := λ _, 0;
  EDG_WLL_ERROR_GSS := 1416;
  get_user_x509_proxy := λ _ _, of_string "proxy";
  proxy_of := λ _ _, valid;
  plan := λ _ t, inr t;
  do_bulk_mm := λ _ _, inr ([], ∅);
  match_throws := λ _ _, false;
  read_dir := λ _ _ leafs, Some (elements leafs);
  create_error := λ _ _ _, 0;
  rename_error := λ _ _ _, 0;
  deliver_error := λ _ _ _, None;
  read_input := λ n, (requests n, None);
  quit_signal := λ _, false;
  lb_query_jobs := λ _, (0, []);
  replanner_context := true;
  stale_errno := λ _, 0;
  open_jobdir := λ _, true;
  deliver_wm_error := λ _ _, false;
  cancel_log_file := λ _ _, None;
  expiry_period := 3600;
  match_retry_period := 300;
  max_shallow_retry_count := 3;
  max_retry_count := 3;
  max_replans_count := 5;
  replan_grace_period := 60;
  token_file := of_string "token";
  queue_size := 100;
  wm_input := of_string "wm";
  ice_input := of_string "ice";
  jc_input := of_string "jc";
  input_source := of_string "input"
|}.
End outside.
(** One request, read by the first call of the dispatcher. *)
Definition one_request (text : bytes) (n : nat) : list (bytes * option bytes) := if decide (n = 3%nat) then [(of_string "file", Some text)] else [].
Lemma one_request_names contexts_ logs status query text : FreshNames (H0:=example_env contexts_ logs status query (one_request text)).
Proof.
  split; cbn; unfold one_request.
  - intros n. case_decide; [apply NoDup_singleton|constructor].
  - intros n n' item. case_decide; [|by intros ?%elem_of_nil]. case_decide; [congruence|by intros _ ?%elem_of_nil].
Qed.
(** All is well. *)
Definition no_context_error : nat → JobId → Z := λ _ _, 0.
Definition no_error : nat → Z := λ _, 0.
Definition no_status : nat → JobId → option edg_wll_JobStat := λ _ _, None.
Definition in_state_of (s : edg_wll_JobStatCode) : nat → JobId → option edg_wll_JobStat := λ _ _, Some (JobStat s STAT_SIMPLE None None).
Definition no_events : nat → JobId → list (list edg_wll_QueryRec) → Z * LB_Events := λ _ _ _, (0, []).
Definition no_requests : nat → list (bytes * option bytes) := λ _, [].
Definition env_fine : Env tree := example_env no_context_error no_error no_status no_events no_requests.
Definition answers (db : LB_Events) : nat → JobId → list (list edg_wll_QueryRec) → Z * LB_Events :=
  λ _ _ conds, (0, filter (λ e, satisfies_all e conds) db).

(** A world with the state [s] of one request, its contexts and its files. *)
Definition example_world (states : list (SubmitState tree)) (contexts_ : list Context) (files : list (JobId * bytes)) (e : Events Processor) : World tree :=
  mkWorld 0 [] contexts_ (list_to_set files) {[of_string "file"]} (list_to_map (imap (λ i s, (i, s)) states)) ∅ ∅ (length states) e [].
