(* ===== verification/WmProperties.v ===== *)
(** * Properties of the workload manager: requests, logging, deliveries

    The statements and their witnesses on the instance of [WmExample]. *)

From stdpp Require Import gmap strings.
From S2P Require Import Prelude Transition LbEvents Events EventsProps Manager WmUtils LbProps WmInvariant Dispatch Submit Cancel Recovery.
From S2P Require Import Replan WmSound WmSystem WmDelivery WmExample Numbers.

(** C15. At every moment of every run of the workload manager, started with or
    without the recovery and the replanner and whatever the outside answers: a processor that an
    event or a worker holds has its state, the request of every state has its
    file in the input directory, so that it is found again after a crash, and
    while the process runs every state is referred to by an event, a worker or
    a child, so that none is forgotten.  The names of request files are
    different from each other. *)
Theorem requests_kept {Ad : Type} `{Libraries Ad} `{Env Ad} `{!FreshNames (Ad:=Ad)} sandbox_ n t b r w0 ls es (w : World Ad) :
  start_manager b r (start sandbox_ n t) = (w0, Ret tt) → reach wm_step w0 ls es w →
  (∀ f, held f (events w) → live w f) ∧
  (∀ o, alive w o → ∃ item, file_for w o item ∧ item ∈ input w) ∧
  (crashed (events w) = false → ∀ o, alive w o → reached w o).
Proof. intros Hs Hr. by eapply SysInv_files, runs_inv. Qed.

Definition env_request : Env tree := example_env no_context_error no_error no_status no_events (one_request (of_string "shttps://lb/A")).
(** The dispatcher is called by the only worker, and then the processor of
    the request. *)
Definition first_steps : list wm_label := [Queue (Run 0); Queue (Run 0); Handler 0].
Definition first_world : World tree := (start_manager (H0:=env_request) false true (start ∅ 1 0)).1.
Definition after_first : World tree := default first_world (fst <$> exec (wm_step (H0:=env_request)) first_steps first_world).
Lemma requests_kept_witness : alive after_first (OSubmit 0) ∧ ∃ item, file_for after_first (OSubmit 0) item ∧ item ∈ input after_first.
Proof.
  assert (alive after_first (OSubmit 0)) as Ha by (vm_compute; by eexists). split; [exact Ha|].
  pose proof (requests_kept (H0:=env_request) (FreshNames0:=one_request_names _ _ _ _ _) ∅ 1 0 false true first_world first_steps [] after_first
    ltac:(vm_compute; reflexivity) ltac:(apply exec_reach; vm_compute; reflexivity)) as (_ & Hf & _).
  by apply Hf.
Defined.

(** The run goes on with the replanner and the processor of the request: the
    job is delivered to ICE, and its file is removed. *)
Definition second_steps : list wm_label := [Queue (Run 0); Queue (Run 0); Handler 0; Queue (Run 0); Queue (Run 0); Handler 0].
Definition after_second : World tree := default first_world (fst <$> exec (wm_step (H0:=env_request)) second_steps after_first).
Lemma request_delivered : outputs after_second = [to_ice (of_string "Submit")] ∧ input after_second = ∅ ∧ submits after_second = ∅ ∧
  last (log after_second) = Some (Logged (of_string "https://lb/A") SOURCE_WORKLOAD_MANAGER (LogEnQueuedOK (of_string "ice") (of_string "Submit"))).
Proof. vm_compute. done. Qed.

(** Two tries fail with a timeout. *)
Definition env_slow : Env tree := example_env no_context_error (λ n, if decide (n < 6)%nat then ETIMEDOUT else 0) no_status no_events no_requests.
Definition one_context : World tree := example_world [] [Ctx (of_string "https://lb/A") SOURCE_WORKLOAD_MANAGER] [] (new_Events 1 0).

(** C21. The counts of resubmissions are those of a pass over the events in
    which a deep resubmission starts the count of shallow ones again. *)
Theorem retry_counts_fold (events : LB_Events) : get_retry_counts events = count_retries events.
Proof. apply get_retry_counts_fold. Qed.

(** C18. A planned job is handed over at most once: a call that comes back has
    sent one command, to ICE when the computing element is a CREAM one and to
    the job controller when not, or has found that the user cancelled the job
    and has purged it; a call that throws has sent nothing or that one command;
    no other file of the job is touched. *)
Theorem planned_delivered {Ad : Type} `{Libraries Ad} `{Env Ad} (planned : Ad) (context : nat) (is_replan : bool) (c : Context) (w : World Ad) :
  contexts w !! context = Some c →
  match wm_submit_planned planned context is_replan w with
  | (w', Ret _) => delivered planned context is_replan c (outputs w) (sandbox w) w' ∨ cancelled_instead c (outputs w) (sandbox w) w'
  | (w', Fail _) => untouched context c (outputs w) (sandbox w) w' ∨ delivered planned context is_replan c (outputs w) (sandbox w) w'
  | (_, Stuck) => False
  end.
Proof.
  intros Hc. pose proof (wm_submit_planned_spec planned context is_replan c (outputs w) (sandbox w) w ltac:(by split_and!)) as HS.
  destruct (wm_submit_planned _ _ _ w) as [w' []]; [exact HS|exact (proj2 HS)|by destruct HS].
Qed.
Lemma planned_delivered_witness : ∃ w', wm_submit_planned (H0:=env_fine) (example_job "https://lb/A") 0 false one_context = (w', Ret tt) ∧
  outputs w' = [to_ice (of_string "Submit")] ∧
  delivered (example_job "https://lb/A") 0 false (Ctx (of_string "https://lb/A") SOURCE_WORKLOAD_MANAGER) [] ∅ w'.
Proof.
  pose proof (planned_delivered (H0:=env_fine) (example_job "https://lb/A") 0 false (Ctx (of_string "https://lb/A") SOURCE_WORKLOAD_MANAGER) one_context eq_refl) as Hl.
  destruct (wm_submit_planned (H0:=env_fine) _ 0 false one_context) as [w' r] eqn:E. assert (r = Ret tt ∧ outputs w' = [to_ice (of_string "Submit")]) as [-> Ho].
  { vm_compute in E. injection E as <- <-. done. }
  exists w'. split_and!; [reflexivity|exact Ho|]. destruct Hl as [Hl|(_ & Hl & _)]; [exact Hl|]. rewrite Ho in Hl. discriminate Hl.
Defined.

Definition example_state (chk : checkpoint) (command id : string) : SubmitState tree :=
  SubmitSt (of_string command) (of_string id) [] [] 0 (remove_from_input (of_string "file")) chk ∅ 0 (Some (example_job id)).
Definition token_0 : JobId * bytes := (of_string "https://lb/A", of_string "token_0").
Definition with_token : World tree :=
  example_world [example_state START "jobresubmit" "https://lb/A"] [Ctx (of_string "https://lb/A") SOURCE_WORKLOAD_MANAGER] [token_0] (new_Events 1 0).

(** C33. The cancellation of a single job does not see how the job ended: its
    query asks for the events of the workload manager alone, and none of them
    tells that a job is done.  A job that ended well is logged as cancelled and
    the command is sent like for a running one. *)
Theorem cancel_ignores_done {Ad : Type} `{Libraries Ad} `{Env Ad} db `{!LbAnswers Ad db} (s : CancelState) (status : JobStatusPtr) (w : World Ad) :
  get_cancel_token (c_id s) ∈ sandbox w → (lb_query (calls w) (c_id s) cancel_conditions).1 = 0 →
  cancel_single s status w =
  (if is_last_enqueued_by_wm (filter (λ e, satisfies_all e cancel_conditions) (db (calls w) (c_id s))) ENQUEUED_OK
   then if is_aborted status then mret tt
        else catch (log_cancelled (c_lb_context s) ;; wm_cancel (c_id s) (c_lb_context s)) (λ _, cancel_failed (c_id s))
   else cancel_failed (c_id s)) (set_calls (S (calls w)) w).
Proof.
  intros Ht Hq. unfold cancel_single. rewrite (bind_Ret _ _ w w true) by (unfold exists_, gets; by rewrite bool_decide_eq_true_2). cbn [negb].
  rewrite (bind_Ret _ _ w (set_calls (S (calls w)) w) (filter (λ e, satisfies_all e cancel_conditions) (db (calls w) (c_id s)))).
  2: { rewrite <- (query_answers _ _ _ Hq). unfold get_cancel_events, do_query_events, mbind, M_bind. cbn. destruct (lb_query _ _ _) as [er evs]. cbn in Hq. by rewrite Hq. }
  by rewrite !is_last_done_cancel, !andb_false_r.
Qed.
Definition db_done : LB_Events :=
  [LbEvent SOURCE_WORKLOAD_MANAGER (enQueued ENQUEUED_OK []); LbEvent SOURCE_LOG_MONITOR (done DONE_OK)].
Definition env_done : Env tree := example_env no_context_error no_error (in_state_of JOB_DONE) (answers db_done) no_requests.
Lemma env_done_answers : LbAnswers (H:=env_done) tree (λ _ _, db_done).
Proof. by intros n id conds _. Qed.
Definition cancelling : World tree :=
  example_world [] [Ctx (of_string "https://lb/A") SOURCE_WORKLOAD_MANAGER] [get_cancel_token (of_string "https://lb/A")] (new_Events 1 0).
Lemma cancel_ignores_done_witness : is_last_done db_done DONE_OK = true ∧
  outputs (cancel_single (H0:=env_done) (CancelSt (of_string "https://lb/A") 0 (remove_from_input (of_string "file"))) (in_state_of JOB_DONE 0 []) cancelling).1
  = [to_ice (of_string "Cancel"); to_jc (of_string "Cancel")].
Proof.
  split; [reflexivity|].
  rewrite (cancel_ignores_done (H0:=env_done) (λ _ _, db_done) (LbAnswers0:=env_done_answers)); [vm_compute; reflexivity|by vm_compute|reflexivity].
Defined.

(** * What the workload manager does when something is wrong

    Requests with a bad id, nodes without a context, jobs in limbo and jobs
    that were planned too often. *)

Section calls.
Context {Ad : Type} `{Libraries Ad} `{Env Ad}.
Implicit Types w : World Ad.

(** An LB that takes every event. *)
Definition lb_takes_all : Prop := ∀ n cx e, lb_log_answer n cx e = 0.
Lemma log_taken e c cx w : lb_takes_all → contexts w !! c = Some cx →
  log_ e c w = (set_log (log w ++ [Logged (cx_job cx) (cx_source cx) e]) (set_calls (S (calls w)) w), Ret tt).
Proof. intros Ha Hc. unfold log_, lb_log, log_function, mbind, M_bind, gets. rewrite Hc. cbn. by rewrite Ha. Qed.
Lemma m_state_is i s w : submits w !! i = Some s → m_state i w = (w, Ret s).
Proof. intros Hi. unfold m_state, mbind, M_bind, gets. by rewrite Hi. Qed.
End calls.

(** C34. A job in limbo.  The processor is put off when the job is still in
    limbo, but it does not return: the job goes on to be submitted at once, and
    the processor is waiting for its next turn with the same state. *)
Theorem limbo_submits {Ad : Type} `{Libraries Ad} `{Env Ad} (i : nat) (s : SubmitState Ad) (cx : Context) (evs : LB_Events) (w : World Ad) :
  submits w !! i = Some s → m_last_checkpointing s = LIMBO → contexts w !! m_lb_context s = Some cx → lb_takes_all →
  lb_context (S (calls w)) (m_id s) = 0 →
  lb_query (3 + calls w) (m_id s) recovery_conditions = (0, evs) → in_limbo (lb_status (2 + calls w) (m_id s) false false) evs = true →
  ∃ w1, submit_single i w = submit_job i w1 ∧ submits w1 = submits w ∧ Some (SubmitProcessor (Some i)) ∈ (waiting (events w1)).*2.
Proof.
  intros Hi Hl Hc Ha Hctx Hq Hlim. unfold submit_single.
  set (w3 := set_calls (4 + calls w) (set_contexts (contexts w ++ [Ctx (m_id s) SOURCE_WORKLOAD_MANAGER]) w)).
  set (w4 := set_log (log w ++ [Logged (cx_job cx) (cx_source cx) (LogPending (of_string " waiting in limbo"))]) (set_calls (5 + calls w) w3)).
  set (w5 := set_events (schedule_at (Some (SubmitProcessor (Some i))) (time (5 + calls w) + match_retry_period) submit_priority (events w)) (set_calls (6 + calls w) w4)).
  exists w5. split_and!; [|done|].
  - rewrite (bind_Ret _ _ w w5 true); [done|]. unfold leave_limbo. rewrite (bind_Ret _ _ w w s) by (by apply m_state_is). rewrite decide_True by done. unfold catch.
    rewrite (bind_Ret _ _ w (set_calls (3 + calls w) (set_contexts (contexts w ++ [Ctx (m_id s) SOURCE_WORKLOAD_MANAGER]) w)) (lb_status (2 + calls w) (m_id s) false false)).
    2: { unfold job_status_own_context, create_context, job_status, mbind, M_bind. cbn. by rewrite Hctx. }
    rewrite (bind_Ret _ _ _ w3 evs) by (unfold get_recovery_events, do_query_events, mbind, M_bind; cbn; cbn in Hq; by rewrite Hq).
    rewrite Hlim. rewrite (bind_Ret _ _ w3 w5 tt); [done|]. unfold postpone. rewrite (bind_Ret _ _ w3 w4 tt); [done|]. rewrite bool_decide_eq_false_2 by done. cbn [when negb].
    rewrite (bind_Ret _ _ w3 w3 s) by (by apply m_state_is). unfold log_pending. rewrite (log_taken _ _ cx); [done|done|]. cbn. by apply lookup_app_l_Some.
  - cbn. rewrite multimap_insert_perm. cbn. by left.
Qed.
(** A job that was being delivered when the process died. *)
Definition db_limbo : LB_Events := [LbEvent SOURCE_WORKLOAD_MANAGER (enQueued ENQUEUED_START [])].
Definition env_limbo : Env tree := example_env no_context_error no_error (in_state_of JOB_READY) (answers db_limbo) no_requests.
Definition limbo_state : SubmitState tree :=
  SubmitSt jobsubmit (of_string "https://lb/A") [] [] 0 (remove_from_input (of_string "file")) LIMBO ∅ 0 (Some (example_job "https://lb/A")).
Definition lb_A : Context := Ctx (of_string "https://lb/A") SOURCE_WORKLOAD_MANAGER.
Definition limbo_world : World tree := example_world [limbo_state] [lb_A] [] (new_Events 1 0).
Lemma limbo_submits_witness :
  (∃ w1, submit_single (H0:=env_limbo) 0 limbo_world = submit_job (H0:=env_limbo) 0 w1 ∧ Some (SubmitProcessor (Some 0%nat)) ∈ (waiting (events w1)).*2) ∧
  outputs (submit_single (H0:=env_limbo) 0 limbo_world).1 = [to_ice (of_string "Submit")].
Proof.
  split; [|vm_compute; reflexivity].
  destruct (limbo_submits (H0:=env_limbo) 0 limbo_state lb_A db_limbo limbo_world eq_refl eq_refl eq_refl ltac:(done) eq_refl eq_refl eq_refl) as (w1 & Hw1 & _ & Hq).
  exists w1. by split.
Defined.

(** C32. A request whose job id cannot be parsed stops the workload manager: its
    own file is removed, the files read with it stay unread, nothing is
    scheduled, not even the dispatcher, and the event queue is told to shut
    down. *)
Theorem bad_id_stops {Ad : Type} `{Libraries Ad} `{Env Ad} (w : World Ad) item text rest ad cmd req jdl id :
  quit_signal (calls w) = false → ready_size (events w) < queue_size → read_input (S (calls w)) = ((item, Some text) :: rest, None) →
  parse_classad text = Some ad → evaluate_string ad (of_string "command") = Some cmd → tolower <$> cmd = jobsubmit →
  parse_classad command_requirements = Some req → left_matches_right ad req = true → evaluate_classad ad (of_string "arguments.ad") = Some jdl →
  get_edg_jobid jdl = Some id → parse_jobid id = None →
  ∃ w', run_Dispatcher w = (w', Ret tt) ∧ shutdown (events w') = true ∧ ready (events w') = ready (events w) ∧ waiting (events w') = waiting (events w) ∧
    input w' = (input w ∪ list_to_set (item :: rest.*1)) ∖ {[item]}.
Proof.
  intros Hquit Hsize Hread Hp Hc Hlow Hr Hm He Hid Hj. set (w2 := set_input (input w ∪ list_to_set (item :: rest.*1)) (set_calls (2 + calls w) w)).
  set (w3 := set_input (input w2 ∖ {[item]}) w2).
  assert (Dispatch.dispatch (item, Some text) w2 = (w3, Fail JobIdError)) as Hd.
  { unfold Dispatch.dispatch, catch. rewrite Hp. unfold dispatch_command, guarded, catch, mbind, M_bind, command_get_command, mbind, M_bind, or_throw. rewrite Hc. cbn -[w2 w3 of_string]. rewrite Hlow.
    cbn -[w2 w3 of_string]. unfold check_request, command_is_valid, aux_get_id, submit_command_get_ad, jobid_of, mbind, M_bind, or_throw. rewrite Hr. cbn -[w2 w3 of_string]. rewrite Hm.
    cbn -[w2 w3 of_string]. rewrite He. cbn -[w2 w3 of_string]. rewrite Hid. cbn -[w2 w3 of_string]. by rewrite Hj. }
  exists (set_events (stop (events w)) w3). split_and!; try done. unfold run_Dispatcher, catch at 1. rewrite (bind_Ret _ _ w (set_calls (S (calls w)) w) false) by (unfold ask; by rewrite Hquit).
  rewrite (bind_Ret _ _ _ (set_calls (S (calls w)) w) (ready_size (events w))) by done. apply Z.ltb_lt in Hsize. rewrite Hsize.
  unfold mbind at 1, M_bind at 1. unfold mbind at 1, M_bind at 1. unfold catch. rewrite (bind_Ret _ _ _ w2 ((item, Some text) :: rest)).
  2: { unfold read_requests, mbind, M_bind. cbn. cbn in Hread. by rewrite Hread. }
  cbn [for_each]. unfold mbind at 1, M_bind at 1. rewrite Hd. done.
Qed.
Definition bad_requests (n : nat) : list (bytes * option bytes) :=
  if decide (n = 1%nat) then [(of_string "f1", Some (of_string "sno id")); (of_string "f2", Some (of_string "shttps://lb/A"))] else [].
Definition env_bad : Env tree := example_env no_context_error no_error no_status no_events bad_requests.
Definition idle_world : World tree := start ∅ 1 0.
Lemma bad_id_stops_witness : ∃ w', run_Dispatcher (H0:=env_bad) idle_world = (w', Ret tt) ∧ shutdown (events w') = true ∧ of_string "f2" ∈ input w'.
Proof.
  destruct (bad_id_stops (H0:=env_bad) idle_world (of_string "f1") (of_string "sno id") [(of_string "f2", Some (of_string "shttps://lb/A"))]
    (default (Tree [] [] []) (example_parse (of_string "sno id"))) jobsubmit (Tree [] [] []) (add_string (of_string "edg_jobid") (of_string "no id") (example_job ""))
    (of_string "no id")) as (w' & Hw & Hs & _ & _ & Hi); try (vm_compute; reflexivity).
  exists w'. split_and!; [exact Hw|exact Hs|]. rewrite Hi. by vm_compute.
Defined.

(** The recovery of a collection: for a node whose LB context cannot be
    made, the null pointer is scheduled, and the worker that calls it ends the
    whole process. *)
Theorem recovery_null_node {Ad : Type} `{Libraries Ad} `{Env Ad} (parent : nat) (rni : RecoverableNodeInfo) text id s (w : World Ad) :
  get_edg_jobid (rn_ad rni) = Some text → parse_jobid text = Some id → submits w !! parent = Some s → lb_context (calls w) id ≠ 0 →
  (∃ w', schedule_node parent rni w = (w', Ret tt) ∧ held (SubmitProcessor None) (events w')) ∧
  ∀ k w2, crashed (events w2) = false → workers (events w2) !! k = Some (Calling (Some (SubmitProcessor None))) →
    wm_step (Handler k) w2 = Some (set_events (set_crashed (events w2)) w2, []).
Proof.
  intros Ht Hp Hs Hc. split.
  - assert (create_submit_request parent rni w = (set_calls (S (calls w)) w, Ret None)) as Hn.
    { unfold create_submit_request. rewrite (bind_Ret _ _ w w text) by (unfold or_throw; by rewrite Ht). rewrite (bind_Ret _ _ w w id) by (unfold or_throw; by rewrite Hp).
      cbv zeta. rewrite (bind_Ret _ _ w w s) by (unfold m_state, mbind, M_bind, gets; by rewrite Hs).
      unfold catch, create_context, mbind, M_bind. cbn. by rewrite (proj2 (Z.eqb_neq _ _) Hc). }
    eexists. unfold schedule_node. rewrite (bind_Ret _ _ _ _ _ Hn). split; [done|]. cbn. apply schedule_held. by right.
  - intros k w2 Hcr Hk. unfold wm_step. by rewrite Hcr, Hk.
Qed.
Definition env_no_context : Env tree := example_env (λ _ _, EAGAIN) no_error no_status no_events no_requests.
Definition example_child : RecoverableNodeInfo := NodeInfo (of_string "a") (example_job "https://lb/B").
Lemma recovery_null_node_witness : ∃ w', schedule_node (H0:=env_no_context) 0 example_child limbo_world = (w', Ret tt) ∧ held (SubmitProcessor None) (events w').
Proof.
  by apply (recovery_null_node (H0:=env_no_context) 0 example_child (of_string "https://lb/B") (of_string "https://lb/B") limbo_state limbo_world); try (vm_compute; reflexivity).
Defined.

(** C35. A job that was planned as often as is allowed.  The job is logged as
    aborted, and is planned once more all the same: its token gets the next
    number and stays, since the file that is removed is the one that was just
    renamed, and the request is sent to the workload manager. *)
Theorem replan_past_limit {Ad : Type} `{Libraries Ad} `{Env Ad} (c : nat) (cx : Context) (id : JobId) (ad : Ad) (token : bytes) (n : Z) (w : World Ad) :
  let new := token_prefix token ++ text_of_long (n + 1) in
  let request := unparse_classad (submit_command_create (set_replans_count (n + 1) (remove_replans_count ad))) in
  max_replans_count ≤ n → new ≠ token → (id, token) ∈ sandbox w → contexts w !! c = Some cx → lb_takes_all →
  (∀ k id from, rename_error k id from = 0) → (∀ k, stale_errno k ≠ ENOENT) → (∀ k, open_jobdir k = true) → (∀ k r, deliver_wm_error k r = false) →
  ∃ w', take_token c id ad token n w = (w', Ret tt) ∧ (id, new) ∈ sandbox w' ∧ ((id, token) ∉ sandbox w') ∧ outputs w' = outputs w ++ [to_wm request] ∧
    (lg_event <$> log w') = ((lg_event <$> log w) ++
      [LogAbort (of_string "hit max number of replans"); LogResubmissionSHALLOW (of_string "token still exists") (of_string "job will be replanned");
       LogEnQueuedSTART wm_input; LogEnQueuedOK wm_input request]).
Proof.
  intros new request Hmax Hne Ht Hc Ha Hren Herr Hopen Hdel. unfold take_token.
  set (w1 := set_sandbox (sandbox w ∖ {[(id, token)]} ∪ {[(id, new)]}) (set_calls (S (calls w)) w)).
  rewrite (bind_Ret _ _ w w1 0).
  2: { unfold rename, exists_, gets, mbind, M_bind. cbn. rewrite Hren. cbn. by rewrite bool_decide_eq_true_2. }
  rewrite (bind_Ret _ _ w1 (set_calls (2 + calls w) w1) (stale_errno (S (calls w)))) by done.
  rewrite (proj2 (Z.eqb_neq _ _) (Herr _)), (proj2 (Z.leb_le _ _) Hmax). cbn [negb andb Z.eqb when].
  set (w2 := set_sandbox (sandbox w1 ∖ {[(id, token)]}) (set_calls (2 + calls w) w1)).
  assert (contexts w2 !! c = Some cx) as Hc2 by done.
  rewrite (bind_Ret _ _ _ (log_ (LogAbort (of_string "hit max number of replans")) c w2).1 tt).
  2: { rewrite (bind_Ret _ _ _ w2 tt) by done. unfold log_abort. by rewrite (log_taken _ _ cx). }
  rewrite (log_taken _ _ cx) by done. cbn [fst]. unfold send_replan. cbv zeta.
  rewrite (bind_Ret _ _ _ (set_calls (4 + calls w) (set_log (log w ++ [Logged (cx_job cx) (cx_source cx) (LogAbort (of_string "hit max number of replans"))]) w2)) true).
  2: { unfold ask. by rewrite Hopen. }
  cbn [negb]. unfold log_enqueued_start, log_enqueued_ok.
  erewrite bind_Ret by (by apply (log_taken _ _ cx)). erewrite bind_Ret by (by apply (log_taken _ _ cx)).
  erewrite (bind_Ret _ _ _ _ false) by (unfold ask; by rewrite Hdel). cbv iota. erewrite (bind_Ret (emit _)) by reflexivity. rewrite (log_taken _ _ cx) by done.
  eexists. split_and!; [done|cbn; set_solver| |done|cbn; by rewrite !fmap_app, <- !(assoc_L (++))]. cbn. set_solver.
Qed.
Definition token_5 : JobId * bytes := (of_string "https://lb/A", of_string "token_5").
Definition replan_world : World tree := example_world [] [lb_A] [token_5] (new_Events 1 0).
Lemma replan_past_limit_witness : ∃ w', take_token (H0:=env_fine) 0 (of_string "https://lb/A") (example_job "https://lb/A") (of_string "token_5") 5 replan_world = (w', Ret tt) ∧
  (of_string "https://lb/A", of_string "token_6") ∈ sandbox w'.
Proof.
  destruct (replan_past_limit (H0:=env_fine) 0 lb_A (of_string "https://lb/A") (example_job "https://lb/A") (of_string "token_5") 5 replan_world) as (w' & Hw & Hin & _);
    try (by vm_compute); try done.
  exists w'. split; [exact Hw|]. exact Hin.
Defined.
