(* ===== verification/DagProps.v ===== *)
(** * DAGs: which nodes are submitted, and when

    One pass over a graph colors every vertex by the state of its job, and
    queues exactly the vertices that have not started and whose parents have
    all ended well.  In a graph without cycles a pass that finds nothing
    running makes progress. *)

From stdpp Require Import gmap strings.
From S2P Require Import Prelude LbEvents Events EventsProps Manager WmUtils WmInvariant Dispatch Submit WmSound WmDelivery.

Section triples.
Context {S E : Type}.
Lemma triple_and {A} (P1 P2 : S → Prop) (m : M S E A) (Q1 Q2 : A → S → Prop) (X1 X2 : option E → S → Prop) :
  triple P1 m Q1 X1 → triple P2 m Q2 X2 → triple (λ s, P1 s ∧ P2 s) m (λ a s, Q1 a s ∧ Q2 a s) (λ x s, X1 x s ∧ X2 x s).
Proof. intros H1 H2 s [Hs1 Hs2]. specialize (H1 s Hs1). specialize (H2 s Hs2). by destruct (m s) as [s' []]. Qed.
End triples.

Section dag.
Context {Ad : Type} `{Libraries Ad} `{Env Ad}.
Abbreviation W := (World Ad).
Implicit Types (w : W) (c : gmap bytes color).

(** ** Colors *)
Definition ready_node (ad : Ad) c (v : bytes) : Prop := color_of c v = white_color ∧ Forall (λ p, color_of c p = green_color) (dag_in_edges ad v).
Definition red_parent (ad : Ad) c (v : bytes) : Prop := Exists (λ p, color_of c p = red_color) (dag_in_edges ad v).
Definition settled c (v : bytes) : bool := match color_of c v with green_color | red_color => true | _ => false end.
Lemma color_insert c v x u : color_of (<[v := x]> c) u = if decide (u = v) then x else color_of c u.
Proof. unfold color_of. case_decide as E; [by rewrite E, lookup_insert_eq|by rewrite lookup_insert_ne]. Qed.
Lemma scan_parents_spec c srcs g : match scan_parents c srcs g with
  | (true, b) => Exists (λ p, color_of c p = red_color) srcs
  | (false, b) => Forall (λ p, color_of c p ≠ red_color) srcs ∧ (b = true ↔ g = true ∧ Forall (λ p, color_of c p = green_color) srcs)
  end.
Proof.
  revert g. induction srcs as [|p srcs IH]; intros g; cbn [scan_parents]; [split; [constructor|split; [by split|by intros [? _]]]|].
  destruct (color_of c p) eqn:E; [specialize (IH false)|specialize (IH false)|specialize (IH g)|by left];
    (destruct (scan_parents _ _ _) as [[] b]; [by right|]; rewrite !Forall_cons, E; naive_solver).
Qed.

(** ** The nodes that were queued for the DAG [i] since [next0] *)
Section pass.
Context (i next0 : nat).
Abbreviation self := (SubmitProcessor (Some i)).
Definition queued w (v : bytes) : Prop :=
  ∃ j, (next0 ≤ j)%nat ∧ held (SubmitProcessor (Some j)) (events w) ∧ cleanup_of w (OSubmit j) = Some (RemoveNodeFromCollection v i).
Definition Q (D : bytes → Prop) w : Prop := J [self] [] [] w ∧ (next0 ≤ next_state w)%nat ∧ ∀ v, queued w v ↔ D v.

Lemma Q_frame D w w' : frame w w' → Q D w → Q D w'.
Proof.
  intros Hf (HJ & Hn & Hq). pose proof (frame_same _ _ Hf) as Hs. split_and!; [by eapply J_same| |].
  - destruct Hs as (_ & _ & -> & _). done.
  - intros v. rewrite <- Hq. unfold queued. destruct Hs as (Hc & _ & _ & Hh & _). setoid_rewrite Hc. by setoid_rewrite Hh.
Qed.
Lemma Q_quiet {A} D (m : M W exn A) : quiet m → keeps (Q D) m.
Proof. intros Hm w HQ. pose proof (Q_frame D w (m w).1 (Hm w) HQ). by destruct (m w) as [w' []]. Qed.
Lemma Q_ext D D' w : (∀ v, D v ↔ D' v) → Q D w → Q D' w.
Proof. intros Hd (HJ & Hn & Hq). split_and!; [done|done|]. intros v. by rewrite Hq. Qed.

(** How a pass may end: the invariant, unless it died. *)
Definition broken (x : option exn) w : Prop := ends [self] [] [] x w.
Lemma Q_broken D x w : Q D w → broken x w.
Proof. intros [HJ _]. by apply J_ends. Qed.
Lemma Q_keeps {A} D (m : M W exn A) : quiet m → triple (Q D) m (λ _, Q D) broken.
Proof. intros Hm. eapply triple_weaken; [by apply Q_quiet|done|done|]. intros x w. apply Q_broken. Qed.

(** A new state that is not in the queue yet, and its scheduling. *)
Lemma queued_new w w1 s v j w2 : Inv [] w → frame w w1 → m_cleanup s = RemoveNodeFromCollection v i → j = next_state w1 →
  (next0 ≤ next_state w)%nat → events w2 = events w1 → submits w2 = <[j := s]> (submits w1) →
  (∀ u, queued w2 u ↔ queued w u) ∧ (∀ w3 u, submits w3 = submits w2 → (∀ f, held f (events w3) ↔ held f (events w2) ∨ f = SubmitProcessor (Some j)) → queued w3 u ↔ queued w u ∨ u = v).
Proof.
  intros HI Hf Hs -> Hn He Hsub. destruct Hf as [[= Hin Hsu Hca Hma Hnx Hev] _].
  assert (∀ k, cleanup_of w2 (OSubmit k) = if decide (k = next_state w1) then Some (RemoveNodeFromCollection v i) else cleanup_of w (OSubmit k)) as Hc.
  { intros k. cbn. rewrite Hsub, Hsu. case_decide as Hk; [by rewrite Hk, lookup_insert_eq; cbn; rewrite Hs|]. by rewrite lookup_insert_ne. }
  assert (cleanup_of w (OSubmit (next_state w1)) = None) as Hnone.
  { apply eq_None_not_Some. intros Ha. pose proof (inv_next _ _ HI (OSubmit (next_state w1)) Ha) as Hlt. cbn in Hlt. rewrite Hnx in Hlt. lia. }
  assert (¬ held (SubmitProcessor (Some (next_state w1))) (events w)) as Hnh.
  { intros Hh. destruct (inv_queue _ _ HI _ Hh (OSubmit (next_state w1)) eq_refl) as [cl Hcl]. congruence. }
  assert (∀ k u, held (SubmitProcessor (Some k)) (events w2) → cleanup_of w2 (OSubmit k) = Some (RemoveNodeFromCollection u i) → cleanup_of w (OSubmit k) = Some (RemoveNodeFromCollection u i)) as Hold.
  { intros k u Hh. rewrite Hc. case_decide as Hk; [|done]. subst k. rewrite He, Hev in Hh. done. }
  split.
  - intros u. unfold queued. rewrite He, Hev. split; intros (k & Hk & Hh & Hcl); exists k; split_and!; try done.
    + apply (Hold k); [by rewrite He, Hev|done].
    + rewrite Hc. case_decide as Hk'; [|done]. subst k. done.
  - intros w3 u Hs3 Hh3. assert (∀ k, cleanup_of w3 (OSubmit k) = cleanup_of w2 (OSubmit k)) as Hc3 by (intros k; cbn; by rewrite Hs3).
    unfold queued. split.
    + intros (k & Hk & [Hh|[= ->]]%Hh3 & Hcl); rewrite Hc3 in Hcl.
      * left. exists k. split_and!; [done|by rewrite He, Hev in Hh|by apply (Hold k)].
      * right. rewrite Hc, decide_True in Hcl by done. by injection Hcl as ->.
    + intros [(k & Hk & Hh & Hcl)| ->].
      * exists k. split_and!; [done|apply Hh3; left; by rewrite He, Hev|]. rewrite Hc3, Hc. case_decide as Hk'; [|done]. subst k. done.
      * exists (next_state w1). split_and!; [lia|apply Hh3; by right|]. by rewrite Hc3, Hc, decide_True.
Qed.
(** What a call may leave when it throws: the nodes that were queued before. *)
Definition thrown (D : bytes → Prop) (x : option exn) w : Prop := match x with Some _ => Q D w | None => broken None w end.
Lemma Q_thrown D x w : Q D w → thrown D x w.
Proof. intros HQ. destruct x; [done|]. by apply (Q_broken D). Qed.
Lemma Q_keeps_thrown {A} D (m : M W exn A) : quiet m → triple (Q D) m (λ _, Q D) (thrown D).
Proof. intros Hm. eapply triple_weaken; [by apply Q_quiet|done|done|]. intros x w. apply Q_thrown. Qed.
Lemma new_child_Q D (v : bytes) (ad : Ad) (cmd : bytes) (id : JobId) (sc px : bytes) (ctx : nat) (chk : checkpoint) :
  triple (Q D) (new_SubmitState ad cmd id sc px ctx (RemoveNodeFromCollection v i) chk)
    (λ j w, (next0 ≤ next_state w)%nat ∧ (∀ u, queued w u ↔ D u) ∧
       ∀ w3, submits w3 = submits w → (∀ f, held f (events w3) ↔ held f (events w) ∨ f = SubmitProcessor (Some j)) → ∀ u, queued w3 u ↔ D u ∨ u = v) (thrown D).
Proof.
  intros w0 HQ. pose proof HQ as ([HI _] & Hn & Hq). pose proof (new_SubmitState_frame ad cmd id sc px ctx (RemoveNodeFromCollection v i) chk w0) as Hf.
  destruct (new_SubmitState _ _ _ _ _ _ _ _ w0) as [w2 [j|e|]]; [|by apply (Q_frame D w0)|by apply (Q_broken D), (Q_frame D w0)].
  destruct Hf as (w1 & s & Hf & Hcl & -> & ->). assert (next_state w1 = next_state w0) as Hnx by (by destruct Hf as [[= _ _ _ _ ? _] _]).
  destruct (queued_new w0 w1 s v _ (set_next_state (S (next_state w1)) (set_submits (<[next_state w1 := s]> (submits w1)) w1)) HI Hf Hcl eq_refl Hn eq_refl eq_refl) as [Hold Hnew].
  split_and!; [cbn; lia|intros u; by rewrite Hold|]. intros w3 Hs Hh u. rewrite <- Hq. by apply Hnew.
Qed.
Lemma queue_new_spec D v id jdl : triple (Q D) (queue_new_submit_request v id jdl i) (λ _, Q (λ u, D u ∨ u = v)) (thrown D).
Proof.
  intros w HQ. pose proof (queue_new_submit_request_sound i [self] [] [] ltac:(by left) v id jdl w (proj1 HQ)) as HS.
  assert (triple (Q D) (queue_new_submit_request v id jdl i) (λ _ w, (next0 ≤ next_state w)%nat ∧ ∀ u, queued w u ↔ D u ∨ u = v) (thrown D)) as HT.
  { unfold queue_new_submit_request. do 2 (eapply triple_bind; [apply Q_keeps_thrown; quiet|]; intros ?). eapply triple_bind; [apply new_child_Q|].
    intros j w0 (Hn & _ & Hnew). cbn. split; [done|]. intros u. apply Hnew; [done|]. intros f. cbn. rewrite schedule_held. naive_solver. }
  specialize (HT w HQ). destruct (queue_new_submit_request v id jdl i w) as [w' [a| |]]; [|done|done]. by destruct HT.
Qed.
Lemma release_held n j w : events (release_submit n j w).1 = events w ∧ next_state (release_submit n j w).1 = next_state w ∧
  ∀ k, held (SubmitProcessor (Some k)) (events w) → cleanup_of (release_submit n j w).1 (OSubmit k) = cleanup_of w (OSubmit k).
Proof.
  revert j w. induction n as [|n IH]; intros j w; cbn [release_submit]; [done|]. destruct (referenced j w) eqn:E; [done|].
  assert (∀ k, held (SubmitProcessor (Some k)) (events w) → k ≠ j) as Hne.
  { intros k Hh ->. apply not_true_iff_false in E. destruct E. apply referenced_reached. by left. }
  destruct (submits w !! j) as [s|] eqn:Hs; [|done]. destruct (m_cleanup s) as [item|name p].
  - split_and!; [done|done|]. intros k Hk. cbn. by rewrite lookup_delete_ne by (by apply not_eq_sym, Hne).
  - destruct (IH p (set_submits (alter (λ r, set_pending (m_collection_pending r ∖ {[name]}) r) p (delete j (submits w))) w)) as (He & Hn & Hc).
    split_and!; [done|done|]. intros k Hk. cbn [set_submits submits]. rewrite Hc by done. cbn.
    assert (∀ m : gmap nat (SubmitState Ad), m_cleanup <$> alter (λ r, set_pending (m_collection_pending r ∖ {[name]}) r) p m !! k = m_cleanup <$> m !! k) as Ha.
    { intros m. destruct (decide (k = p)) as [->|?]; [|by rewrite lookup_alter_ne]. rewrite lookup_alter_eq. by destruct (m !! p). }
    rewrite Ha. by rewrite lookup_delete_ne by (by apply not_eq_sym, Hne).
Qed.
Lemma abort_node_spec D v jdl : triple (Q D) (abort_node i v jdl) (λ _, Q D) broken.
Proof.
  intros w HQ. pose proof (abort_node_sound i [self] [] [] ltac:(by left) v jdl w (proj1 HQ)) as HS.
  assert (triple (Q D) (abort_node i v jdl) (λ _ w, (next0 ≤ next_state w)%nat ∧ ∀ u, queued w u ↔ D u) (λ _ _, True)) as HT.
  { unfold abort_node. do 3 (eapply triple_bind; [eapply triple_weaken; [by apply (Q_quiet D); quiet|done|by intros ? w' Hw; exact Hw|done]|]; intros ?).
    eapply triple_bind; [eapply triple_weaken; [apply (new_child_Q D)|done|by intros ? w' Hw; exact Hw|done]|]. intros j w0 (Hn & Hq & _). unfold finally.
    pose proof (unrecoverable_quiet j (of_string "parents have aborted") w0) as Hf. destruct (unrecoverable _ _ w0) as [w1 r]. cbn in Hf.
    destruct Hf as [[= _ Hsu _ _ Hnx Hev] _].
    destruct (release_held (S j) j w1) as (He & Hn2 & Hc). unfold release_SubmitState. destruct (release_submit (S j) j w1) as [w2 r2]. cbn [fst] in He, Hn2, Hc.
    assert (∀ u, queued w2 u ↔ D u) as Hend.
    { intros u. rewrite <- Hq. unfold queued. rewrite He, Hev. split; intros (k & Hk & Hh & Hcl); exists k; (split_and!; [done|done|]); revert Hcl;
        rewrite Hc by (by rewrite Hev); cbn; by rewrite Hsu. }
    destruct r as [[]| |]; [|by destruct r2|done]. destruct r2; [|done|done]. split; [lia|done]. }
  specialize (HT w HQ). destruct (abort_node i v jdl w) as [w' [a| |]]; [by destruct HT|done|done].
Qed.
Lemma try_queue_spec D v jdl : triple (Q D) (try_queue v i jdl) (λ ok, Q (λ u, D u ∨ ok = true ∧ u = v)) broken.
Proof.
  unfold try_queue. eapply triple_bind; [apply Q_keeps; quiet|]. intros id.
  eapply (triple_catch _ _ _ _ (thrown D)).
  - eapply triple_bind; [apply queue_new_spec|]. intros ?. apply triple_ret. intros w. apply Q_ext. naive_solver.
  - intros e. destruct e; first [apply triple_ret; intros w; apply Q_ext; naive_solver|apply triple_fail; intros w; apply (Q_broken D (Some _))].
  - done.
Qed.
(** Only the vertex itself changes its color, and not to green. *)
Definition recolored (v : bytes) c c' : Prop := (∀ u, u ≠ v → color_of c' u = color_of c u) ∧ color_of c' v ≠ green_color.
Lemma recolored_ready ad v c c' u : color_of c v = white_color → recolored v c c' → u ≠ v → ready_node ad c' u ↔ ready_node ad c u.
Proof.
  intros Hv [Hne Hg] Hu. unfold ready_node. rewrite (Hne u Hu), !Forall_forall.
  assert (∀ p, color_of c' p = green_color ↔ color_of c p = green_color) as Hp; [|by setoid_rewrite Hp].
  intros p. destruct (decide (p = v)) as [->|Hpv]; [by rewrite Hv|by rewrite Hne].
Qed.
Lemma recolored_insert v c x : x ≠ green_color → recolored v c (<[v := x]> c).
Proof. intros Hx. split; [intros u Hu; by rewrite color_insert, decide_False|by rewrite color_insert, decide_True]. Qed.
Lemma plan_white_spec D ad v c : color_of c v = white_color →
  triple (Q D) (plan_white i ad v c) (λ c' w, (recolored v c c' ∧ (red_parent ad c v → color_of c' v = red_color)) ∧
    Q (λ u, D u ∨ u = v ∧ ready_node ad c v ∧ color_of c' v ≠ red_color) w) broken.
Proof.
  intros Hv. unfold plan_white, ready_node, red_parent. destruct (dag_in_edges ad v) as [|p srcs] eqn:Hin.
  - eapply triple_bind; [apply Q_keeps; quiet|]. intros jdl. eapply triple_bind; [apply try_queue_spec|]. intros ok. apply triple_ret.
    intros w HQ. split; [split; [by apply recolored_insert; destruct ok|by intros ?%Exists_nil]|]. eapply Q_ext; [|exact HQ]. intros u. rewrite color_insert, decide_True by done.
    destruct ok; naive_solver.
  - pose proof (scan_parents_spec c (p :: srcs) true) as Hs. destruct (scan_parents c (p :: srcs) true) as [[] green].
    + assert (¬ Forall (λ p, color_of c p = green_color) (p :: srcs)) as Hng.
      { intros Hall. apply Exists_exists in Hs as (q & Hq & Hr). rewrite Forall_forall in Hall. by rewrite (Hall q Hq) in Hr. }
      eapply triple_bind; [apply Q_keeps; quiet|]. intros jdl. eapply triple_bind; [apply abort_node_spec|]. intros ?. apply triple_ret.
      intros w HQ. split; [split; [by apply recolored_insert|intros _; by rewrite color_insert, decide_True]|]. eapply Q_ext; [|exact HQ]. naive_solver.
    + destruct Hs as [Hnr Hg].
      assert (∀ c', Exists (λ p, color_of c p = red_color) (p :: srcs) → color_of c' v = red_color) as Hno.
      { intros c' (q & Hq & Hr)%Exists_exists. rewrite Forall_forall in Hnr. by destruct (Hnr q Hq). }
      destruct green.
      * eapply triple_bind; [apply Q_keeps; quiet|]. intros jdl. eapply triple_bind; [apply try_queue_spec|]. intros ok. apply triple_ret.
        intros w HQ. split; [split; [destruct ok; [by split; [|rewrite Hv]|by apply recolored_insert]|apply Hno]|]. eapply Q_ext; [|exact HQ]. intros u.
        destruct ok; [rewrite Hv|rewrite color_insert, decide_True by done]; naive_solver.
      * apply triple_ret. intros w HQ. split; [split; [by split; [|rewrite Hv]|apply Hno]|]. eapply Q_ext; [|exact HQ]. naive_solver.
Qed.

(** A pass queues the vertices that are ready, except those whose LB context cannot be made. *)
Lemma plan_all_spec ad vs : NoDup vs → ∀ D c b,
  triple (Q D) (plan_all i ad vs c b) (λ '(c', b') w,
    (∀ u, u ∉ vs → color_of c' u = color_of c u) ∧ b' = b && forallb (settled c) vs ∧
    (∀ u, u ∈ vs → color_of c u = white_color → red_parent ad c u → color_of c' u = red_color) ∧
    Q (λ u, D u ∨ u ∈ vs ∧ ready_node ad c u ∧ color_of c' u ≠ red_color) w) broken.
Proof.
  induction vs as [|v vs IH]; intros Hnd D c b; cbn [plan_all].
  - apply triple_ret. intros w HQ. split_and!; [done|by rewrite andb_true_r|by intros u ?%elem_of_nil|]. eapply Q_ext; [|exact HQ]. intros u. rewrite elem_of_nil. tauto.
  - apply NoDup_cons in Hnd as [Hv Hnd]. cbn [forallb].
    assert (color_of c v ≠ white_color → ∀ b', b' = b && settled c v →
      triple (Q D) (plan_all i ad vs c b') (λ '(c', b'') w, (∀ u, u ∉ v :: vs → color_of c' u = color_of c u) ∧ b'' = b && (settled c v && forallb (settled c) vs) ∧
        (∀ u, u ∈ v :: vs → color_of c u = white_color → red_parent ad c u → color_of c' u = red_color) ∧
        Q (λ u, D u ∨ u ∈ v :: vs ∧ ready_node ad c u ∧ color_of c' u ≠ red_color) w) broken) as Hskip.
    { intros Hx b' ->. eapply triple_weaken; [apply (IH Hnd D c)|done| |done]. intros [c' b''] w (Hc & -> & Hr & HQ). split_and!.
      - intros u Hu. apply Hc. set_solver.
      - by rewrite andb_assoc.
      - intros u [->|Hu]%elem_of_cons; [done|by apply Hr].
      - eapply Q_ext; [|exact HQ]. intros u. rewrite elem_of_cons. unfold ready_node. naive_solver. }
    destruct (color_of c v) eqn:Ev; try (eapply Hskip; [done|unfold settled; rewrite Ev; by rewrite ?andb_true_r, ?andb_false_r]).
    eapply triple_bind; [by apply plan_white_spec|]. intros c1. apply triple_pre. intros [Hre Hrv].
    eapply triple_weaken; [apply (IH Hnd (λ u, D u ∨ u = v ∧ ready_node ad c v ∧ color_of c1 v ≠ red_color) c1 false)|done| |done]. intros [c' b''] w (Hc & -> & Hr & HQ). split_and!.
    + intros u [Hu1 Hu2]%not_elem_of_cons. rewrite Hc by done. by apply Hre.
    + unfold settled at 2. by rewrite Ev, andb_false_r.
    + intros u [->|Hu]%elem_of_cons Hw Hp; [rewrite Hc by done; by apply Hrv|]. assert (u ≠ v) as Huv by (by intros ->).
      apply Hr; [done|by rewrite (proj1 Hre)|]. eapply Exists_impl; [exact Hp|]. intros p Hpr. cbn. by rewrite (proj1 Hre) by (intros ->; congruence).
    + eapply Q_ext; [|exact HQ]. intros u. rewrite elem_of_cons.
      assert (u ∈ vs → ready_node ad c1 u ↔ ready_node ad c u) by (intros Hu; apply (recolored_ready ad v); [done|done|by intros ->]).
      destruct (decide (u = v)) as [->|Hu]; [rewrite (Hc v Hv)|]; tauto.
Qed.
End pass.
End dag.

(** * A pass over a graph comes back

    With contexts that can be made, nodes that have their descriptions and
    ids, and commands from which the description can be taken back, no call
    of a pass throws or gets stuck. *)

Section returns.
Context {Ad : Type} `{Libraries Ad} `{Env Ad}.
Abbreviation W := (World Ad).
Implicit Types w : W.

Definition returns {A} (P : W → Prop) (m : M W exn A) : Prop := triple P m (λ _ _, True) (λ _ _, False).
(** What is used of the libraries and of LB. *)
Class DagLaws (ad : Ad) : Prop := {
  dag_contexts : ∀ n id, lb_context n id = 0;
  dag_command : ∀ jdl, ∃ arguments, Lookup (submit_command_create jdl) (of_string "arguments") = Some arguments ∧ Remove arguments (of_string "ad") = Some jdl;
  dag_node : ∀ v, v ∈ dag_vertices ad → ∃ jdl text id, find_node (dag_nodes ad) v = Some jdl ∧ get_edg_jobid jdl = Some text ∧
    get_edg_jobid (set_lb_sequence_code [] jdl) = Some text ∧ parse_jobid text = Some id ∧ job_type (set_lb_sequence_code [] jdl) = single
}.

(** ** Logging throws only where a context cannot be made *)
Definition no_fail {A} (m : M W exn A) : Prop := ∀ w e, (m w).2 ≠ Fail e.
Lemma no_fail_bind {A B} (m : M W exn A) (k : A → M W exn B) : no_fail m → (∀ a, no_fail (k a)) → no_fail (m ≫= k).
Proof. intros Hm Hk w e. unfold mbind, M_bind. specialize (Hm w). destruct (m w) as [w' [a|e'|]]; [apply Hk|by destruct (Hm e')|done]. Qed.
Lemma no_fail_deref {A} (o : option A) : no_fail (deref o).
Proof. by destruct o. Qed.
Lemma log_function_no_fail e c : no_fail (log_function e c).
Proof.
  unfold log_function. repeat (apply no_fail_bind; [done || apply no_fail_deref|intros ?]). apply no_fail_bind; [|done].
  match goal with |- no_fail (if ?b then _ else _) => by destruct b end.
Qed.
Lemma host_loop_no_fail i e c err : no_fail (host_loop i e c err).
Proof.
  revert err. induction i as [|i IH]; intros err; cbn [host_loop]; [done|]. destruct (err =? 0); [done|]. destruct (negb _); [done|].
  by apply no_fail_bind; [apply log_function_no_fail|].
Qed.
Lemma create_context_no_fail id p sc : (∀ n id, lb_context n id = 0) → no_fail (create_context id p sc).
Proof. intros Hc w e. unfold create_context, mbind, M_bind. cbn. by rewrite Hc. Qed.
Lemma host_context_no_fail c : (∀ n id, lb_context n id = 0) → no_fail (host_context c).
Proof.
  intros Hc. unfold host_context. apply no_fail_bind; [done|]. intros [sc|]; [|done]. apply no_fail_bind; [done|]. intros e. destruct (e =? 0); [|done].
  do 2 (apply no_fail_bind; [done || apply no_fail_deref|intros ?]). by apply no_fail_bind; [apply create_context_no_fail|].
Qed.
Lemma lb_log_loop_no_fail i e c err : (∀ n id, lb_context n id = 0) → no_fail (lb_log_loop i e c err).
Proof.
  intros Hc. revert err. induction i as [|i IH]; intros err; cbn [lb_log_loop]; [done|]. destruct (err =? 0); [done|].
  destruct (err =? EDG_WLL_ERROR_GSS); (apply no_fail_bind; [by apply host_context_no_fail|]; intros [h|]; [|done]).
  - apply no_fail_bind; [apply log_function_no_fail|]. intros ?. apply host_loop_no_fail.
  - destruct (negb _); [done|]. by apply no_fail_bind; [apply log_function_no_fail|].
Qed.
Lemma log_returns e c cx w : (∀ n id, lb_context n id = 0) → contexts w !! c = Some cx → ∃ w', log_ e c w = (w', Ret tt).
Proof.
  intros Hctx Hc. pose proof (log_unstuck e c cx w Hc) as Hu. assert (no_fail (log_ e c)) as Hf.
  { apply no_fail_bind; [|done]. apply no_fail_bind; [apply log_function_no_fail|]. intros ?. by apply lb_log_loop_no_fail. }
  specialize (Hf w). destruct (log_ e c w) as [w' [[]|x|]]; [by exists w'|by destruct (Hf x)|done].
Qed.

(** ** The calls of a pass *)
Section pass.
Context (i : nat) (ad : Ad) `{!DagLaws ad}.
Abbreviation self := (SubmitProcessor (Some i)).
Abbreviation K := (J [self] [] []).

Lemma jobid_returns jdl text id w : get_edg_jobid jdl = Some text → parse_jobid text = Some id → jobid_of jdl w = (w, Ret id).
Proof. intros Ht Hp. unfold jobid_of, mbind, M_bind, or_throw. by rewrite Ht; cbn; rewrite Hp. Qed.
Lemma K_state w : K w → ∃ s, m_state i w = (w, Ret s).
Proof. intros HJ. destruct (J_alive _ _ _ _ i HJ ltac:(by left)) as [s Hs]. exists s. unfold m_state, mbind, M_bind, gets. by rewrite Hs. Qed.
Lemma create_context_makes id p sc w : lb_context (calls w) id = 0 → create_context id p sc w =
  (set_contexts (contexts w ++ [Ctx id SOURCE_WORKLOAD_MANAGER]) (set_calls (S (calls w)) w), Ret (length (contexts w))).
Proof. intros Hc. unfold create_context, mbind, M_bind. cbn. by rewrite Hc. Qed.
Lemma new_child_returns jdl id px c cl w : ∃ w' s, new_SubmitState (submit_command_create jdl) jobsubmit id [] px c cl START w = (w', Ret (next_state w)) ∧
  submits w' !! next_state w = Some s ∧ m_ad s = Some jdl ∧ m_lb_context s = c ∧ contexts w' = contexts w.
Proof.
  destruct (dag_command jdl) as (args & Ha & Hr). unfold new_SubmitState. rewrite decide_True by done.
  rewrite (bind_Ret _ _ w (set_calls (S (calls w)) w) (time (calls w))) by done.
  rewrite (bind_Ret _ _ _ (set_calls (S (calls w)) w) (Some jdl)) by (unfold submit_command_remove_ad, mbind, M_bind, deref; by rewrite Ha, <- Hr).
  do 2 eexists. split; [reflexivity|]. cbn. by rewrite lookup_insert_eq.
Qed.
Lemma try_queue_returns v jdl text id : get_edg_jobid jdl = Some text → parse_jobid text = Some id → returns K (try_queue v i jdl).
Proof.
  intros Ht Hp w HJ. unfold try_queue. rewrite (bind_Ret _ _ w w id) by (by eapply jobid_returns). unfold catch, queue_new_submit_request.
  destruct (K_state w HJ) as [s Hs]. assert (lb_context (calls w) id = 0) as Hc by apply (dag_contexts (ad:=ad)).
  set (w1 := set_contexts (contexts w ++ [Ctx id SOURCE_WORKLOAD_MANAGER]) (set_calls (S (calls w)) w)).
  destruct (new_child_returns (set_lb_sequence_code [] jdl) id (m_x509_proxy s) (length (contexts w)) (RemoveNodeFromCollection v i) w1) as (w' & s' & Hn & _).
  unfold mbind at 1, M_bind at 1. cbv zeta. rewrite (bind_Ret _ _ w w s) by done. rewrite (bind_Ret _ _ w w1 (length (contexts w))) by (by apply create_context_makes).
  by rewrite (bind_Ret _ _ w1 w' _ Hn).
Qed.
Lemma unrecoverable_returns j msg s a cx w : (∀ n id, lb_context n id = 0) → submits w !! j = Some s → m_ad s = Some a → job_type a = single →
  contexts w !! m_lb_context s = Some cx → ∃ w', unrecoverable j msg w = (w', Ret tt).
Proof.
  intros Hctx Hj Ha Ht Hc. unfold unrecoverable. rewrite (bind_Ret _ _ w w s) by (unfold m_state, mbind, M_bind, gets; by rewrite Hj).
  rewrite (bind_Ret _ _ w w a) by (by rewrite Ha). rewrite Ht. cbn [when]. rewrite (bind_Ret _ _ w w tt) by done.
  destruct (log_returns (LogAbort msg) _ cx w Hctx Hc) as [w1 Hl]. unfold log_abort. rewrite (bind_Ret _ _ w w1 tt Hl). by eexists.
Qed.
Lemma release_returns n j w : ∃ w', release_submit n j w = (w', Ret tt).
Proof.
  revert j w. induction n as [|n IH]; intros j w; cbn [release_submit]; [by eexists|]. destruct (referenced j w); [by eexists|].
  destruct (submits w !! j) as [s|]; [|by eexists]. destruct (m_cleanup s); [by eexists|apply IH].
Qed.
Lemma abort_node_returns v jdl text id : get_edg_jobid (set_lb_sequence_code [] jdl) = Some text → parse_jobid text = Some id →
  job_type (set_lb_sequence_code [] jdl) = single → returns K (abort_node i v jdl).
Proof.
  intros Ht Hp Hty w HJ. unfold abort_node. cbv zeta. rewrite (bind_Ret _ _ w w id) by (by eapply jobid_returns).
  destruct (K_state w HJ) as [s Hs]. rewrite (bind_Ret _ _ w w s) by done. pose proof (dag_contexts (ad:=ad)) as Hctx.
  set (w1 := set_contexts (contexts w ++ [Ctx id SOURCE_WORKLOAD_MANAGER]) (set_calls (S (calls w)) w)).
  rewrite (bind_Ret _ _ w w1 (length (contexts w))) by (by apply create_context_makes).
  destruct (new_child_returns (set_lb_sequence_code [] jdl) id (m_x509_proxy s) (length (contexts w)) (RemoveNodeFromCollection v i) w1) as (w2 & s' & Hn & Hj & Ha & Hc & Hcs).
  rewrite (bind_Ret _ _ w1 w2 _ Hn). unfold finally.
  destruct (unrecoverable_returns (next_state w1) (of_string "parents have aborted") s' _ (Ctx id SOURCE_WORKLOAD_MANAGER) w2 Hctx Hj Ha Hty) as [w3 ->].
  { rewrite Hc, Hcs. cbn. by apply list_lookup_middle. }
  unfold release_SubmitState. by destruct (release_returns (S (next_state w1)) (next_state w1) w3) as [w4 ->].
Qed.
Lemma returns_keeps {A} (m : M W exn A) : returns K m → sound [self] [] [] m → triple K m (λ _, K) (λ _ _, False).
Proof. intros Hr Hs w HJ. specialize (Hr w HJ). specialize (Hs w HJ). by destruct (m w) as [w' []]. Qed.
Lemma returns_deref {A B} (a : A) (k : A → M W exn B) : returns K (k a) → returns K (deref (Some a) ≫= k).
Proof. done. Qed.
Lemma plan_white_returns v c : v ∈ dag_vertices ad → returns K (plan_white i ad v c).
Proof.
  intros (jdl & text & id & Hf & Ht & Ht' & Hp & Hty)%dag_node. unfold plan_white. rewrite Hf.
  assert (∀ (k : bool → gmap bytes color), returns K (ok ← try_queue v i jdl; mret (k ok))) as Hq.
  { intros k. eapply triple_bind; [by eapply try_queue_returns|]. intros ok. by apply triple_ret. }
  destruct (dag_in_edges ad v) as [|p srcs]; [apply returns_deref, Hq|].
  destruct (scan_parents c (p :: srcs) true) as [[] []]; [apply returns_deref..|by apply triple_ret]; [| |apply Hq].
  all: eapply triple_bind; [by eapply abort_node_returns|intros ?; by apply triple_ret].
Qed.
Lemma plan_all_returns vs c b : (∀ v, v ∈ vs → v ∈ dag_vertices ad) → returns K (plan_all i ad vs c b).
Proof.
  revert c b. induction vs as [|v vs IH]; intros c b Hin; cbn [plan_all]; [by apply triple_ret|].
  assert (∀ c b, returns K (plan_all i ad vs c b)) as Hrest by (intros c0 b0; apply IH; intros u Hu; apply Hin; by right).
  destruct (color_of c v); [|apply Hrest..].
  eapply triple_bind; [apply returns_keeps; [apply plan_white_returns, Hin; by left|apply plan_white_sound; by left]|]. intros c'. apply Hrest.
Qed.
(** With contexts that can be made, no node that is ready turns red. *)
Lemma queue_new_no_fail v id jdl : no_fail (queue_new_submit_request v id jdl i).
Proof.
  unfold queue_new_submit_request, m_state, new_SubmitState, submit_command_remove_ad. rewrite decide_True by done.
  apply no_fail_bind; [by apply no_fail_bind; [|intros ?; apply no_fail_deref]|]. intros s.
  apply no_fail_bind; [apply create_context_no_fail, (dag_contexts (ad:=ad))|]. intros c. apply no_fail_bind; [|done].
  apply no_fail_bind; [done|]. intros t. apply no_fail_bind; [by apply no_fail_bind; [apply no_fail_deref|]|done].
Qed.
Lemma bind_inv {A B} (m : M W exn A) (k : A → M W exn B) w w' b : (m ≫= k) w = (w', Ret b) → ∃ w1 a, m w = (w1, Ret a) ∧ k a w1 = (w', Ret b).
Proof. unfold mbind, M_bind. destruct (m w) as [w1 [a| |]]; [by eauto|done|done]. Qed.
Lemma try_queue_true v jdl w w' ok : try_queue v i jdl w = (w', Ret ok) → ok = true.
Proof.
  unfold try_queue. intros (w1 & id & _ & Hc)%bind_inv. unfold catch in Hc. pose proof (queue_new_no_fail v id jdl w1) as Hn.
  unfold mbind, M_bind in Hc. destruct (queue_new_submit_request v id jdl i w1) as [w2 [[]|e|]]; [by injection Hc as _ <-|by destruct (Hn e)|done].
Qed.
Lemma plan_white_colors v c w w' c' : color_of c v = white_color → plan_white i ad v c w = (w', Ret c') →
  recolored v c c' ∧ (ready_node ad c v → color_of c' v ≠ red_color).
Proof.
  intros Hv. unfold plan_white, ready_node. destruct (dag_in_edges ad v) as [|p srcs].
  - intros (w1 & jdl & _ & (w2 & ok & ->%try_queue_true & [= _ <-])%bind_inv)%bind_inv. split; [by apply recolored_insert|]. intros _. by rewrite color_insert, decide_True.
  - pose proof (scan_parents_spec c (p :: srcs) true) as Hs. destruct (scan_parents c (p :: srcs) true) as [[] green].
    + intros (w1 & jdl & _ & (w2 & [] & _ & [= _ <-])%bind_inv)%bind_inv. split; [by apply recolored_insert|]. intros [_ Hall].
      apply Exists_exists in Hs as (q & Hq & Hr). rewrite Forall_forall in Hall. by rewrite (Hall q Hq) in Hr.
    + assert (recolored v c c ∧ (color_of c v = white_color ∧ Forall (λ q, color_of c q = green_color) (p :: srcs) → color_of c v ≠ red_color)) as Hc.
      { split; [split; [done|by rewrite Hv]|]. by rewrite Hv. }
      destruct green; [|by intros [= _ <-]]. by intros (w1 & jdl & _ & (w2 & ok & ->%try_queue_true & [= _ <-])%bind_inv)%bind_inv.
Qed.
Lemma plan_all_colors vs : NoDup vs → ∀ c b w w' c' b', plan_all i ad vs c b w = (w', Ret (c', b')) →
  (∀ u, u ∉ vs → color_of c' u = color_of c u) ∧ ∀ u, u ∈ vs → ready_node ad c u → color_of c' u ≠ red_color.
Proof.
  induction vs as [|v vs IH]; intros Hnd c b w w' c' b'; cbn [plan_all]; [intros [= _ <- _]; split; [done|by intros u ?%elem_of_nil]|].
  apply NoDup_cons in Hnd as [Hv Hnd].
  assert (∀ b0, color_of c v ≠ white_color → plan_all i ad vs c b0 w = (w', Ret (c', b')) →
    (∀ u, u ∉ v :: vs → color_of c' u = color_of c u) ∧ ∀ u, u ∈ v :: vs → ready_node ad c u → color_of c' u ≠ red_color) as Hskip.
  { intros b0 Hw [H1 H2]%(IH Hnd). split; [intros u [_ Hu]%not_elem_of_cons; by apply H1|]. intros u [->|Hu]%elem_of_cons Hr; [by destruct Hr|by apply H2]. }
  destruct (color_of c v) eqn:Ev; [|by apply Hskip..]. intros (w1 & c1 & [Hre Hrv]%plan_white_colors & [H1 H2]%(IH Hnd))%bind_inv; [|done].
  split; [intros u [Hu1 Hu2]%not_elem_of_cons; rewrite H1 by done; by apply Hre|]. intros u [->|Hu]%elem_of_cons Hr; [rewrite H1 by done; by apply Hrv|].
  apply H2; [done|]. apply (recolored_ready ad v c c1 u Ev Hre); [by intros ->|done].
Qed.
End pass.
End returns.
