(* ===== verification/DagProperties.v ===== *)
(** * Properties of DAGs

    Which nodes a pass queues, and that a graph without cycles does not
    stop half way. *)

From stdpp Require Import gmap strings.
From S2P Require Import Prelude Transition LbEvents Events EventsProps Manager WmUtils WmInvariant Dispatch Submit WmSound WmSystem WmExample.
From S2P Require Import DagProps.

#[local] Instance color_dec : EqDecision color.
Proof. solve_decision. Defined.

Section dags.
Context {Ad : Type} `{Libraries Ad} `{Env Ad}.
Implicit Types (w : World Ad) (c : gmap bytes color).

(** Nothing was queued before the pass. *)
Lemma Q_start i w : J [SubmitProcessor (Some i)] [] [] w → Q i (next_state w) (λ _, False) w.
Proof.
  intros HJ. split_and!; [done|done|]. intros v. split; [|done]. intros (j & Hj & _ & Hc).
  pose proof (inv_next _ _ (proj1 HJ) (OSubmit j) ltac:(by eexists)) as Hlt. cbn in Hlt. lia.
Qed.
(** The outcome of a pass. *)
Lemma plan_all_outcome i (ad : Ad) `{!DagLaws ad} c w : J [SubmitProcessor (Some i)] [] [] w → NoDup (dag_vertices ad) →
  ∃ w' c', plan_all i ad (dag_vertices ad) c true w = (w', Ret (c', forallb (settled c) (dag_vertices ad))) ∧
    (∀ v, queued i (next_state w) w' v ↔ v ∈ dag_vertices ad ∧ ready_node ad c v) ∧
    (∀ v, v ∈ dag_vertices ad → color_of c v = white_color → red_parent ad c v → color_of c' v = red_color).
Proof.
  intros HJ Hnd. pose proof (plan_all_returns i ad (dag_vertices ad) c true ltac:(done) w HJ) as Hr.
  pose proof (plan_all_spec i (next_state w) ad (dag_vertices ad) Hnd (λ _, False) c true w (Q_start i w HJ)) as HS.
  destruct (plan_all i ad (dag_vertices ad) c true w) as [w' [[c' b]| |]] eqn:E; [|done|done].
  destruct HS as (_ & -> & Hred & _ & _ & Hq). destruct (plan_all_colors i ad _ Hnd _ _ _ _ _ _ E) as [_ Hcol].
  exists w', c'. split_and!; [done| |done]. intros v. rewrite Hq. split; [by intros [[]|(? & ? & _)]|]. intros [Hv Hrd]. right. split_and!; [done|done|by apply Hcol].
Qed.
(** In a graph without cycles a white node has a white node above it, or
    itself, whose parents are all colored otherwise. *)
Lemma white_minimal (ad : Ad) (rank : bytes → nat) c v : (∀ v p, v ∈ dag_vertices ad → p ∈ dag_in_edges ad v → p ∈ dag_vertices ad ∧ (rank p < rank v)%nat) →
  v ∈ dag_vertices ad → color_of c v = white_color →
  ∃ u, u ∈ dag_vertices ad ∧ color_of c u = white_color ∧ ∀ p, p ∈ dag_in_edges ad u → p ∈ dag_vertices ad ∧ color_of c p ≠ white_color.
Proof.
  intros Hrank. induction v as [v IH] using (well_founded_induction (well_founded_ltof _ rank)). intros Hv Hw.
  destruct (decide (Exists (λ p, color_of c p = white_color) (dag_in_edges ad v))) as [Hex|Hno].
  - apply Exists_exists in Hex as (p & Hp & Hpw). destruct (Hrank v p Hv Hp) as [Hpv Hlt]. by apply (IH p).
  - exists v. split_and!; [done|done|]. intros p Hp. split; [by apply (Hrank v)|]. intros Hpw. apply Hno, Exists_exists. by exists p.
Qed.
End dags.



(** ** A DAG of two nodes, in the hands of a worker *)
Definition env_dag : Env tree := example_env no_context_error no_error no_status no_events (one_request (of_string "dhttps://lb/D")).
Definition dag_steps : list wm_label := [Queue (Run 0); Queue (Run 0); Handler 0; Queue (Run 0); Queue (Run 0); Handler 0; Queue (Run 0); Queue (Run 0)].
Definition dag_start : World tree := (start_manager (H0:=env_dag) false true (start ∅ 1 0)).1.
Definition dag_world : World tree := default dag_start (fst <$> exec (wm_step (H0:=env_dag)) dag_steps dag_start).
Definition two_nodes : tree := example_dag (of_string "https://lb/D").
Lemma dag_world_inv : J (H0:=env_dag) [SubmitProcessor (Some 0%nat)] [] [] dag_world.
Proof.
  apply (calls_spec (H0:=env_dag) (SubmitProcessor (Some 0%nat)) 0); [vm_compute; reflexivity|].
  pose proof (runs_inv (H0:=env_dag) (FreshNames0:=one_request_names _ _ _ _ _) ∅ 1 0 false true dag_start dag_steps [] dag_world
    ltac:(vm_compute; reflexivity) ltac:(apply exec_reach; vm_compute; reflexivity)) as HS.
  unfold SysInv in HS. assert (crashed (events dag_world) = false) as Hc by (vm_compute; reflexivity). by rewrite Hc in HS.
Qed.
Lemma two_nodes_vertices v : v ∈ dag_vertices two_nodes → v = of_string "a" ∨ v = of_string "b".
Proof. change (dag_vertices two_nodes) with [of_string "a"; of_string "b"]. rewrite !elem_of_cons, elem_of_nil. tauto. Qed.
Lemma two_nodes_laws : DagLaws (H0:=env_dag) two_nodes.
Proof.
  split; [done| |].
  - intros jdl. eexists. split; reflexivity.
  - intros v Hv. destruct (two_nodes_vertices v Hv) as [-> | ->];
      do 3 eexists; split_and!; vm_compute; reflexivity.
Qed.
Definition a_green : gmap bytes color := {[of_string "a" := green_color]}.
(** Nothing has started: the first node is queued or red. *)
Definition two_rank (v : bytes) : nat := if decide (v = of_string "a") then 0%nat else 1%nat.
